(* ===== verification/_CoqProject ===== *)
-Q . S2P
Prelude.v
KState.v
CString.v
Spinlock.v
Sched.v
SleepLock.v
Kalloc.v
Vm.v
VmProps.v
VmSpace.v
VmCopy.v
VmFree.v
VmFork.v
Bio.v
Bcache.v
Log.v
LogProps.v
LogTx.v
FsTx.v
Fs.v
FsBlocks.v
FsFile.v
FsInode.v
FsWrite.v
FsRead.v
FsCopy.v
Uart.v
Console.v
File.v
PipeProps.v
ConsoleProps.v
FsCrash.v
FsProps.v
Mkfs.v
MkfsProps.v
MkfsImage.v
FsBoot.v
Proc.v
ProcProps.v
Exec.v
Syscall.v
Trap.v
User.v
Grep.v
UPrintf.v
Programs.v
UMalloc.v
Shell.v
ShellSpec.v
ShellProps.v
ShellRun.v
