(* ===== verification/Prelude.v ===== *)
(** * A verification development for xv6-loongarch

    xv6-loongarch is a small Unix-like kernel in C with C user programs and a
    tool that builds file system images. This library translates the C code
    into executable Rocq functions and proves what its parts rely on.

    ** The program and its parts

    The kernel ([src/kernel]) has, from the bottom up: spin locks and the
    scheduler with sleep and wakeup; the page allocator, page tables and the
    copying between kernel and user memory; the buffer cache over a RAM disk,
    the redo log, the file system; the UART, the console, pipes and open
    files; processes, [exec], system calls, traps. User programs ([src/user])
    call the kernel through [user.h]; [src/mkfs] writes the image that the
    kernel mounts.

    ** The model

    - [Prelude]: machine integers as [Z] with their wrap-around ([u8] ...
      [u64], [s32]), byte lists and little-endian encoding, and the kernel
      monad [M S A]: a computation ends [Done], in [panic] ([Panic]), in an
      endless loop ([Hang]), at a context switch ([Swtch], with what the
      thread does when it is resumed) or without fuel ([NoFuel]). [segments]
      is the rely-guarantee reading of a computation: what it does from where
      it was called or resumed to where it switches or returns, in whatever
      state the other threads have left. [code] is a program whose atomic
      steps other CPUs come between.
    - [KState]: the structures and constants of the headers, and [kstate],
      the state of the whole kernel: locks, CPUs, process table, memory (a
      map from addresses to bytes, the zero byte where nothing was written),
      the buffer cache, the disk, the log, inodes, files, pipes, console and
      UART, and the control registers.
    - [CString] ([string.c]), [Spinlock] ([spinlock.c]), [Sched] (the
      scheduling half of [proc.c]), [SleepLock] ([sleeplock.c]), [Kalloc]
      ([kalloc.c]), [Vm] ([vm.c] and the page table functions of [proc.c]),
      [Bio] ([bio.c], [ramdisk.c]), [Log] ([log.c]), [Fs] ([fs.c]), [Uart]
      ([uart.c], [printf.c]), [Console] ([console.c]), [File] ([file.c],
      [pipe.c]), [Proc] (the rest of [proc.c]), [Exec] ([exec.c]), [Syscall]
      ([syscall.c], [sysproc.c], [sysfile.c]) and [Trap] ([trap.c], [apic.c],
      [extioi.c], [main.c]): one file per C file, one definition per C
      function under the C name, composed the way the code composes them. A
      C loop is a [Fixpoint] named after its function ([..._loop] and the
      like). Global variables are fields of [kstate]; local arrays that the
      code hands to a copy function by address have a fixed address in the
      kernel's memory ([loc_...]).
    - [Mkfs] ([mkfs.c]): the image is a list of sectors; whether each call of
      the host succeeds is a parameter.
    - [User] ([ulib.c]), [UPrintf] (the user-side [printf.c]), [UMalloc]
      ([umalloc.c]), [Grep] ([grep.c]), [Programs] (cat, echo, wc, kill, ln,
      mkdir, rm and the [main] of grep) and [Shell] ([sh.c]) are user
      programs in a monad of their own, [U]: a program works on its byte
      memory and on a world it reaches through system calls, which are a
      class ([Sys]). The laws that a theorem needs of the system calls are
      classes too ([Stream] for a file read in pieces and written, [Breaks]
      for [sbrk]), each with an instance that the witnesses use.

    ** The theorems

    - Locks and scheduling ([Spinlock], [Sched], [SleepLock]): mutual
      exclusion of spin locks when any number of CPUs run [acquire] and
      [release] atomic step by atomic step in any order ([Spinlock.Smp]);
      nesting of [push_off]/[pop_off]; no wakeup is lost between the steps of
      [sleep], whatever other CPUs do ([Sched.Wakeups]); a sleep lock has one
      owner and no waiter sleeps while it is free, for any number of processes
      switched between where they sleep ([SleepLock]).
    - Memory ([Kalloc], [VmProps], [VmSpace], [VmCopy], [VmFree], [VmFork]):
      the free list as a stack of pages; page tables as maps from page
      numbers to pages; growing and copying an address space do all of their
      work exactly when there are enough free pages, otherwise none of it, and
      like freeing one they lose no page; what [uvmalloc] does past the trap
      frame; copies between kernel and user memory stay in the user's pages.
    - Processes ([ProcProps]): [allocproc] makes a process exactly when there
      are five free pages and otherwise loses nothing; [wait] hands over the
      status of an exited child and gives all its memory back; what [kill]
      does to process id 0.
    - Disk ([Bio], [Bcache], [LogProps], [LogTx]): the cache refines a map
      from block numbers to blocks, and it recycles the unreferenced buffer
      that was released longest ago; a transaction reaches the disk as a whole
      or not at all at every crash point, and recovery can itself be
      interrupted; [begin_op] admits an operation only with room in the log,
      and [log_write] stops one block short of that room.
    - Files ([FsTx], [FsBlocks], [FsFile], [FsInode], [FsWrite], [FsRead],
      [FsCopy], [FsCrash], [FsProps]): the allocator, [writei] and [readi]
      against the file as a sequence of bytes, [filewrite] against crashes.
    - Images ([MkfsProps], [MkfsImage], [FsBoot]): [mkfs] builds a well-formed
      file system with the files it was given, the kernel mounts it and reads
      the files back (for a number of directory entries that is not a
      multiple of 64, where [mkfs] gives the root directory a wrong size).
    - Pipes and the console ([PipeProps], [ConsoleProps]): a pipe is a
      first-in first-out queue under any interleaving of its users; the
      interrupt handler of the console is a line editor, and a read returns
      the edited line.
    - User programs: the allocator keeps blocks apart and loses no byte
      ([UMalloc]); the shell parses exactly its grammar, always stops, and
      connects the programs of a line as the line says ([ShellSpec] with the
      grammar and a parser on tokens, [ShellProps], [ShellRun]); grep selects
      the matching lines; cat, wc and printf write what they should.

    ** Bounds and fuel

    A loop whose length the code bounds is a structural recursion on that
    bound. Elsewhere the fuel is a measure of the input: the bytes left to
    copy or to write, the size of a memory for a string or a list in it
    ([mfuel]), the characters left for the parser of the shell. The theorems
    prove that the result is not [NoFuel] (or [Unbounded], or [TooDeep] for
    [runcmd] of the shell), so the fuel is enough. The scans of [bget] have
    fuel for the [NBUF] buffers of a list in order, which the theorems assume
    and keep. [sleep_fuel] bounds how often a sleeping thread is woken in vain;
    the theorems about sleeping functions hold at every switch, and fuel runs
    out only after that many. Counters of type [int] that no theorem brings
    near 2^31 are plain integers: [nextpid], the nesting depth [noff], the
    number of outstanding operations of the log and the reference counts of
    inodes and open files; [b_refcnt] of a buffer wraps at 2^32. Page tables
    cover the 256 pages below [MAXVA], block numbers the [FSSIZE] blocks of
    the disk. The number of [read] calls of cat, wc and grep and the number
    of lines of the shell are explicit arguments, and a theorem holds for
    every number that is large enough for its stream.

    ** Not modelled

    - The assembly: kernel entry, trap vectors, [swtch], TLB refill. [swtch]
      is the outcome [Swtch] of the monad, and functions that end in [userret]
      return its arguments. Other CPUs' part of [main] is not modelled
      ([NCPU] is 1).
    - The hardware beyond the registers the code reads and writes: the UART
      and the interrupt controller answer from lists in the state. Memory is
      sequentially consistent. [Spinlock.Smp] interleaves the steps of
      [acquire] and [release], [Sched.Wakeups] those of [sleep]; elsewhere
      other threads run only where a thread switches away.
    - [ls], [init], [zombie], [forktest] and [stressfs]: short sequences of
      system calls around code that is modelled; the test programs
      [usertests] and [grind], which exercise the kernel through system
      calls.
    - In the shell, the failure of [malloc], which the code does not check;
      what a command does is the tree of its system calls ([prog]), and the
      kernel's side of it is the reading of descriptors in [ShellRun]. *)

From stdpp Require Import gmap strings list.
From Stdlib Require Import ZArith Lia.
Open Scope Z_scope.

(** Finite maps are never unfolded by [simpl]. *)
#[global] Arguments gmap_lookup : simpl never.
#[global] Arguments gmap_partial_alter : simpl never.
#[global] Arguments Z.land : simpl never.
#[global] Arguments Z.lor : simpl never.

(** ** Machine integers

    C integers are modelled as [Z]; every operation that can leave the
    range of its C type goes through one of these wrap-around functions. *)

Definition u8 (x : Z) : Z := x mod 2 ^ 8.
Definition u16 (x : Z) : Z := x mod 2 ^ 16.
Definition u32 (x : Z) : Z := x mod 2 ^ 32.
Definition u64 (x : Z) : Z := x mod 2 ^ 64.

(** Conversion to a signed type of [2 ^ w] values (two's complement). *)
Definition swrap (w x : Z) : Z := (x + 2 ^ (w - 1)) mod 2 ^ w - 2 ^ (w - 1).
Definition s8 (x : Z) : Z := swrap 8 x.
Definition s16 (x : Z) : Z := swrap 16 x.
Definition s32 (x : Z) : Z := swrap 32 x.
Definition s64 (x : Z) : Z := swrap 64 x.

Definition byte_range (x : Z) : Prop := 0 <= x < 256.

(** ** Bytes of a memory object

    The contents of a C object are a list of bytes; [slice] reads a run of
    them and [splice] overwrites one. *)

Definition slice (off n : nat) (l : list Z) : list Z := take n (drop off l).

Definition splice (off : nat) (src l : list Z) : list Z :=
  take off l ++ src ++ drop (off + length src) l.

(** Little-endian encoding of the low [n] bytes of an integer. *)
Fixpoint le_enc (n : nat) (z : Z) : list Z :=
  match n with
  | O => []
  | S n' => z mod 256 :: le_enc n' (z / 256)
  end.

Fixpoint le_dec (l : list Z) : Z :=
  match l with
  | [] => 0
  | b :: t => b + 256 * le_dec t
  end.

(** Typed access to a field at a byte offset of an object. *)
Definition get16 (d : list Z) (off : Z) : Z := le_dec (slice (Z.to_nat off) 2 d).
Definition get32 (d : list Z) (off : Z) : Z := le_dec (slice (Z.to_nat off) 4 d).
Definition put16 (off v : Z) (d : list Z) : list Z := splice (Z.to_nat off) (le_enc 2 v) d.
Definition put32 (off v : Z) (d : list Z) : list Z := splice (Z.to_nat off) (le_enc 4 v) d.

(** ** The kernel monad

    A kernel function runs on a state and has one of five outcomes:
    - [Done a s]: it returned [a];
    - [Panic msg s]: it called [panic(msg)];
    - [Hang s]: it entered a loop that no step of its own can leave
      ([for(;;);], or spinning on a lock that nobody releases);
    - [Swtch s k]: it switched to the scheduler ([swtch]), and will go on as
      [k] from whatever state the scheduler resumes it in;
    - [NoFuel]: the bound of a modelled loop was too small. *)

Inductive res (S A : Type) : Type :=
| Done (a : A) (s : S)
| Panic (msg : string) (s : S)
| Hang (s : S)
| Swtch (s : S) (k : S -> res S A)
| NoFuel.

Arguments Done {S A} a s.
Arguments Panic {S A} msg s.
Arguments Hang {S A} s.
Arguments Swtch {S A} s k.
Arguments NoFuel {S A}.

Definition M (S A : Type) : Type := S -> res S A.

Fixpoint rbind {S A B : Type} (r : res S A) (f : A -> M S B) : res S B :=
  match r with
  | Done a s => f a s
  | Panic msg s => Panic msg s
  | Hang s => Hang s
  | Swtch s k => Swtch s (fun s' => rbind (k s') f)
  | NoFuel => NoFuel
  end.

Definition bind {S A B : Type} (m : M S A) (f : A -> M S B) : M S B :=
  fun s => rbind (m s) f.

Definition ret {S A : Type} (a : A) : M S A := fun s => Done a s.
Definition gets {S A : Type} (f : S -> A) : M S A := fun s => Done (f s) s.
Definition modify {S : Type} (f : S -> S) : M S unit := fun s => Done tt (f s).
Definition panic {S A : Type} (msg : string) : M S A := fun s => Panic msg s.
(** An access outside the bounds of a C array; the models never continue past
    it, so a theorem that a function returns also says it makes none. *)
Definition out_of_bounds {S A : Type} (what : string) : M S A :=
  fun s => Panic ("out of bounds: " +:+ what) s.
Definition hang {S A : Type} : M S A := fun s => Hang s.
Definition nofuel {S A : Type} : M S A := fun _ => NoFuel.
Definition swtch {S : Type} : M S unit := fun s => Swtch s (fun s' => Done tt s').

Declare Scope km_scope.
Delimit Scope km_scope with km.
Notation "x <- m ;; k" := (bind m (fun x => k))
  (at level 100, m at next level, right associativity) : km_scope.
Notation "m ;; k" := (bind m (fun _ => k))
  (at level 100, k at level 200, right associativity) : km_scope.
Open Scope km_scope.

Definition when {S : Type} (b : bool) (m : M S unit) : M S unit :=
  if b then m else ret tt.

(** [wp m s Q]: started in [s], [m] returns (it neither panics, hangs nor
    gives up the CPU) and its result satisfies [Q]. *)
Definition wp {S A : Type} (m : M S A) (s : S) (Q : A -> S -> Prop) : Prop :=
  match m s with
  | Done a s' => Q a s'
  | _ => False
  end.

(** A program as a sequence of atomic steps: [Act m k] does [m] in one go and
    continues with [k] of its result. Other processors may act between two
    steps; [perform] is the program when none does. *)
Inductive code (S A : Type) : Type :=
| Ret (a : A)
| Act {B : Type} (m : M S B) (k : B -> code S A).
Arguments Ret {S A} a.
Arguments Act {S A B} m k.

Notation "x <~ m ;; k" := (Act m (fun x => k))
  (at level 100, m at next level, right associativity) : km_scope.

Fixpoint then_code {S A B : Type} (p : code S A) (f : A -> code S B) : code S B :=
  match p with
  | Ret a => f a
  | Act m k => Act m (fun b => then_code (k b) f)
  end.

Fixpoint perform {S A : Type} (p : code S A) : M S A :=
  match p with
  | Ret a => ret a
  | Act m k => bind m (fun b => perform (k b))
  end.

(** [segments n r s0 G J Q]: a computation that was called or resumed in [s0]
    has the outcome [r]. When it switches to the scheduler, [G] relates [s0] to
    the state it leaves behind, and the same holds again from every state
    satisfying [J] in which it is resumed; when it returns, [Q] relates the
    state it was last resumed in to the one it returns in. It neither panics
    nor loops; [n] is how often it may still be resumed without returning
    before the bound of the model runs out. *)
Fixpoint segments {S A : Type} (n : nat) (r : res S A) (s0 : S) (G : S -> S -> Prop) (J : S -> Prop)
    (Q : nat -> A -> S -> S -> Prop) : Prop :=
  match r with
  | Done a s => Q n a s0 s
  | Panic _ _ => False
  | Hang _ => False
  | Swtch s k => G s0 s /\ forall s', J s' -> segments (pred n) (k s') s' G J Q
  | NoFuel => n = O
  end.

(** ** Lemmas: monad *)

Section monad.
Context {S A B : Type}.

Lemma wp_ret (a : A) (s : S) (Q : A -> S -> Prop) : Q a s -> wp (ret a) s Q.
Proof. done. Qed.

Lemma wp_bind (m : M S A) (f : A -> M S B) s Q :
  wp m s (fun a s' => wp (f a) s' Q) -> wp (bind m f) s Q.
Proof. unfold wp, bind. destruct (m s); done. Qed.

Lemma wp_inv (m : M S A) s Q :
  wp m s Q <-> exists a s', m s = Done a s' /\ Q a s'.
Proof.
  unfold wp. destruct (m s) eqn:E; split; try done.
  - intros. eauto.
  - by intros (? & ? & [= -> ->] & ?).
  - by intros (? & ? & ? & ?).
  - by intros (? & ? & ? & ?).
  - by intros (? & ? & ? & ?).
  - by intros (? & ? & ? & ?).
Qed.

Lemma wp_mono (m : M S A) s (Q Q' : A -> S -> Prop) :
  wp m s Q -> (forall a s', Q a s' -> Q' a s') -> wp m s Q'.
Proof. unfold wp. destruct (m s); naive_solver. Qed.

Lemma bind_done (m : M S A) (f : A -> M S B) s a s' :
  m s = Done a s' -> bind m f s = f a s'.
Proof. unfold bind. by intros ->. Qed.

Lemma bind_panic (m : M S A) (f : A -> M S B) s msg s' :
  m s = Panic msg s' -> bind m f s = Panic msg s'.
Proof. unfold bind. by intros ->. Qed.

Lemma bind_gets {C} (g : S -> C) (f : C -> M S B) s :
  bind (gets g) f s = f (g s) s.
Proof. done. Qed.

Lemma bind_modify (g : S -> S) (f : unit -> M S B) s :
  bind (modify g) f s = f tt (g s).
Proof. done. Qed.

Lemma bind_ret (a : A) (f : A -> M S B) s : bind (ret a) f s = f a s.
Proof. done. Qed.
Lemma segments_bind n (r : res S A) (f : A -> M S B) s0 G J Q Q1 :
  segments n r s0 G J Q1 ->
  (forall m a s1 s, Q1 m a s1 s -> segments m (f a s) s1 G J Q) ->
  segments n (rbind r f) s0 G J Q.
Proof.
  revert n s0. induction r as [a s|msg s|s|s k IH|]; intros n s0 Hr Hf; cbn in *; auto.
  destruct Hr as [HG Hk]. split; [exact HG|]. intros s' Hs'. apply IH; auto.
Qed.
End monad.

(** Run the next statement of a sequence with an equation for it. *)
Tactic Notation "run" uconstr(H) := erewrite bind_done by (by eapply H).
Ltac kstep :=
  repeat first
    [ rewrite bind_gets | rewrite bind_modify | rewrite bind_ret
    | progress cbn beta iota delta [when negb andb orb] ].

(** Rewrite with an equation whose left side is a record projection, in
    whichever form reduction has left that projection in the goal. *)
Ltac prw H :=
  let E := fresh in
  pose proof H as E;
  match type of E with ?a = _ => change a with a end;
  rewrite E; clear E.

(** [lia] for goals with [/] and [mod] by constants. *)
Ltac dlia := Z.to_euclidean_division_equations; lia.

(** ** Lemmas: machine integers *)

Lemma u8_range x : byte_range (u8 x).
Proof. apply Z.mod_pos_bound. lia. Qed.

Lemma u8_small x : byte_range x -> u8 x = x.
Proof. intros. by apply Z.mod_small. Qed.

Lemma u32_range x : 0 <= u32 x < 2 ^ 32.
Proof. apply Z.mod_pos_bound. lia. Qed.

Lemma u32_small x : 0 <= x < 2 ^ 32 -> u32 x = x.
Proof. apply Z.mod_small. Qed.

Lemma u64_range x : 0 <= u64 x < 2 ^ 64.
Proof. apply Z.mod_pos_bound. lia. Qed.

Lemma u64_small x : 0 <= x < 2 ^ 64 -> u64 x = x.
Proof. apply Z.mod_small. Qed.

Lemma swrap_range w x : 0 < w -> - 2 ^ (w - 1) <= swrap w x < 2 ^ (w - 1).
Proof.
  intros Hw. unfold swrap.
  pose proof (Z.mod_pos_bound (x + 2 ^ (w - 1)) (2 ^ w) ltac:(lia)) as Hb.
  assert (2 ^ w = 2 * 2 ^ (w - 1)) as Hp.
  { rewrite <- Z.pow_succ_r by lia. f_equal. lia. }
  lia.
Qed.

Lemma swrap_small w x : 0 < w -> - 2 ^ (w - 1) <= x < 2 ^ (w - 1) -> swrap w x = x.
Proof.
  intros Hw Hx. unfold swrap. rewrite Z.mod_small; [lia|].
  replace (2 ^ w) with (2 * 2 ^ (w - 1)); [lia|].
  rewrite <- Z.pow_succ_r by lia. f_equal. lia.
Qed.

Lemma s32_range x : - 2 ^ 31 <= s32 x < 2 ^ 31.
Proof. by apply (swrap_range 32). Qed.

Lemma s32_small x : - 2 ^ 31 <= x < 2 ^ 31 -> s32 x = x.
Proof. by apply (swrap_small 32). Qed.

Lemma u8_s8 x : u8 (s8 x) = u8 x.
Proof.
  unfold u8, s8, swrap.
  change (2 ^ (8 - 1)) with 128. change (2 ^ 8) with 256.
  pose proof (Z.div_mod (x + 128) 256 ltac:(lia)).
  replace ((x + 128) mod 256 - 128) with (x + (- ((x + 128) / 256)) * 256) by lia.
  by rewrite Z.mod_add.
Qed.

Lemma u32_s32 x : u32 (s32 x) = u32 x.
Proof.
  unfold u32, s32, swrap.
  change (2 ^ (32 - 1)) with 2147483648. change (2 ^ 32) with 4294967296.
  pose proof (Z.div_mod (x + 2147483648) 4294967296 ltac:(lia)).
  replace ((x + 2147483648) mod 4294967296 - 2147483648)
    with (x + (- ((x + 2147483648) / 4294967296)) * 4294967296) by lia.
  by rewrite Z.mod_add.
Qed.

(** ** Lemmas: byte lists *)

Lemma length_slice off n l :
  (off + n <= length l)%nat -> length (slice off n l) = n.
Proof. intros. unfold slice. rewrite length_take, length_drop. lia. Qed.

Lemma length_splice off src l :
  (off + length src <= length l)%nat -> length (splice off src l) = length l.
Proof.
  intros. unfold splice. rewrite !length_app, length_take, length_drop. lia.
Qed.

Lemma slice_splice_same off src l :
  (off + length src <= length l)%nat ->
  slice off (length src) (splice off src l) = src.
Proof.
  intros. unfold slice, splice. rewrite drop_app_length'.
  - by rewrite take_app_length.
  - rewrite length_take. lia.
Qed.

Lemma slice_app_l off n l1 l2 :
  (off + n <= length l1)%nat -> slice off n (l1 ++ l2) = slice off n l1.
Proof.
  intros. unfold slice. rewrite drop_app_le by lia.
  rewrite take_app_le; [done | rewrite length_drop; lia].
Qed.

Lemma slice_app_r off n l1 l2 :
  (length l1 <= off)%nat -> slice off n (l1 ++ l2) = slice (off - length l1) n l2.
Proof. intros. unfold slice. by rewrite drop_app_ge by lia. Qed.

Lemma slice_take off n k l :
  (off + n <= k)%nat -> slice off n (take k l) = slice off n l.
Proof.
  intros. unfold slice. rewrite skipn_firstn_comm, take_take.
  f_equal. lia.
Qed.

Lemma slice_splice_before off n o src l :
  (off + n <= o)%nat -> (o + length src <= length l)%nat ->
  slice off n (splice o src l) = slice off n l.
Proof.
  intros. unfold splice. rewrite slice_app_l by (rewrite length_take; lia).
  apply slice_take. lia.
Qed.

Lemma slice_splice_after off n o src l :
  (o + length src <= off)%nat -> (o + length src <= length l)%nat ->
  slice off n (splice o src l) = slice off n l.
Proof.
  intros. unfold splice. rewrite app_assoc.
  rewrite slice_app_r by (rewrite length_app, length_take; lia).
  rewrite length_app, length_take. unfold slice. rewrite drop_drop.
  do 2 f_equal. lia.
Qed.

(** Overwriting the whole object. *)
Lemma splice_all src l : length src = length l -> splice 0 src l = src.
Proof.
  intros. unfold splice. rewrite take_0, drop_ge by lia. by rewrite app_nil_r.
Qed.

Lemma splice_splice_same off s1 s2 l :
  length s1 = length s2 -> (off + length s1 <= length l)%nat ->
  splice off s2 (splice off s1 l) = splice off s2 l.
Proof.
  intros Hl Hb. unfold splice.
  rewrite take_app_le by (rewrite length_take; lia).
  rewrite take_take, Nat.min_id. do 2 f_equal.
  rewrite app_assoc, drop_app_ge by (rewrite length_app, length_take; lia).
  rewrite length_app, length_take, drop_drop. f_equal. lia.
Qed.

Lemma lookup_splice_in off src l i :
  (off + length src <= length l)%nat -> (off <= i < off + length src)%nat ->
  splice off src l !! i = src !! (i - off)%nat.
Proof.
  intros. unfold splice. rewrite lookup_app_r by (rewrite length_take; lia).
  rewrite length_take, Nat.min_l by lia. by rewrite lookup_app_l by lia.
Qed.

Lemma lookup_splice_out off src l i :
  (off + length src <= length l)%nat -> (i < off \/ off + length src <= i)%nat ->
  splice off src l !! i = l !! i.
Proof.
  intros Hb Hi. unfold splice. destruct (decide (i < off)%nat).
  - rewrite lookup_app_l by (rewrite length_take; lia). by rewrite lookup_take_lt.
  - rewrite app_assoc, lookup_app_r by (rewrite length_app, length_take; lia).
    rewrite length_app, length_take, lookup_drop. f_equal. lia.
Qed.

Lemma lookup_slice off n l i :
  (i < n)%nat -> slice off n l !! i = l !! (off + i)%nat.
Proof. intros. unfold slice. rewrite lookup_take_lt by lia. apply lookup_drop. Qed.

Lemma length_le_enc n z : length (le_enc n z) = n.
Proof. revert z. induction n; intros; simpl; auto. Qed.

Lemma le_dec_enc n z : le_dec (le_enc n z) = z mod 256 ^ Z.of_nat n.
Proof.
  revert z. induction n as [|n IH]; intros z.
  - simpl. by rewrite Z.mod_1_r.
  - cbn [le_enc le_dec]. rewrite IH, Nat2Z.inj_succ, Z.pow_succ_r by lia.
    rewrite Z.rem_mul_r by lia. done.
Qed.

Lemma le_dec_range l :
  Forall byte_range l -> 0 <= le_dec l < 256 ^ Z.of_nat (length l).
Proof.
  unfold byte_range. induction 1 as [|b l Hb _ IH]; cbn [le_dec length]; [lia|].
  rewrite Nat2Z.inj_succ, Z.pow_succ_r by lia. lia.
Qed.

Lemma le_enc_dec l : Forall byte_range l -> le_enc (length l) (le_dec l) = l.
Proof.
  unfold byte_range. induction 1 as [|b l Hb _ IH]; [done|].
  cbn [length le_enc le_dec]. f_equal.
  - rewrite Z.mul_comm, Z.mod_add by lia. apply Z.mod_small. lia.
  - rewrite Z.mul_comm, Z.div_add by lia.
    rewrite Z.div_small by lia. done.
Qed.

Lemma le_enc_bytes n z : Forall byte_range (le_enc n z).
Proof.
  revert z. induction n; intros; constructor; [|done].
  unfold byte_range. apply Z.mod_pos_bound. lia.
Qed.

Lemma length_put16 off v d :
  0 <= off -> (Z.to_nat off + 2 <= length d)%nat -> length (put16 off v d) = length d.
Proof. intros. apply length_splice. by rewrite length_le_enc. Qed.

Lemma length_put32 off v d :
  0 <= off -> (Z.to_nat off + 4 <= length d)%nat -> length (put32 off v d) = length d.
Proof. intros. apply length_splice. by rewrite length_le_enc. Qed.

Lemma get32_put32_same off v d :
  (Z.to_nat off + 4 <= length d)%nat -> get32 (put32 off v d) off = u32 v.
Proof.
  intros. unfold get32, put32.
  rewrite <- (length_le_enc 4 v) at 1.
  rewrite slice_splice_same by (by rewrite length_le_enc). apply (le_dec_enc 4).
Qed.

Lemma get32_put32_other off off' v d :
  0 <= off -> 0 <= off' -> off + 4 <= off' \/ off' + 4 <= off ->
  (Z.to_nat off' + 4 <= length d)%nat ->
  get32 (put32 off' v d) off = get32 d off.
Proof.
  intros. unfold get32, put32. f_equal.
  destruct (decide (off + 4 <= off')).
  - apply slice_splice_before; rewrite ?length_le_enc; lia.
  - apply slice_splice_after; rewrite ?length_le_enc; lia.
Qed.

(** ** Lemmas: lists as tables *)

Lemma list_insert_same {A} (l : list A) i x y : <[i:=x]> (<[i:=y]> l) = <[i:=x]> l.
Proof. apply list_insert_insert_eq. Qed.

Section tables.
Context {A : Type} `{!Inhabited A}.
Implicit Types (l : list A) (f g : A -> A).

Lemma list_alter_same f l i :
  (forall x, l !! i = Some x -> f x = x) -> alter f i l = l.
Proof.
  intros H. apply list_eq. intros j. destruct (decide (i = j)) as [<-|Hne].
  - rewrite list_lookup_alter_eq. destruct (l !! i) eqn:E; simpl; [|done]. f_equal. auto.
  - by rewrite list_lookup_alter_ne.
Qed.

Lemma list_alter_alter f g i l : alter f i (alter g i l) = alter (fun x => f (g x)) i l.
Proof.
  apply list_eq. intros j. destruct (decide (i = j)) as [<-|Hne].
  - rewrite !list_lookup_alter_eq. by destruct (l !! i).
  - by rewrite !list_lookup_alter_ne.
Qed.

Lemma lookup_total_alter_eq f i l :
  (i < length l)%nat -> alter f i l !!! i = f (l !!! i).
Proof.
  intros H. destruct (lookup_lt_is_Some_2 _ _ H) as [x Hx].
  rewrite (list_lookup_total_correct _ _ _ Hx). apply list_lookup_total_correct.
  by rewrite list_lookup_alter_eq, Hx.
Qed.

Lemma lookup_total_alter_ne f i j l :
  i <> j -> alter f i l !!! j = l !!! j.
Proof. intros. rewrite !list_lookup_total_alt. by rewrite list_lookup_alter_ne. Qed.

Lemma list_lookup_lookup_total_nat l i :
  (i < length l)%nat -> l !! i = Some (l !!! i).
Proof. intros. by apply list_lookup_lookup_total_lt. Qed.

End tables.

(** Hints used throughout. *)
Create HintDb xv6.
#[export] Hint Resolve u8_range u32_range u64_range s32_range : xv6.
Create Rewrite HintDb xv6_len.
#[export] Hint Rewrite length_le_enc @length_insert @length_app @length_take
  @length_drop @length_replicate : xv6_len.
