(* ===== verification/KState.v ===== *)
(** * The kernel's data: constants, structures and the global state

    The constants and structures of the headers under src/kernel
    ([param.h], [fs.h], [buf.h], [file.h], [proc.h], [spinlock.h],
    [sleeplock.h], [memlayout.h], [stat.h], [loongarch.h]), and the record
    [kstate] of everything the kernel keeps in memory: the CPU, the process
    table, the buffer cache, the log, the inode and file tables, the pipes,
    the console, the physical memory and the disk.

    Conventions.
    - A pointer to an element of a static table ([proc], [bcache.buf],
      [itable.inode], [ftable.file]) is its index; a null pointer is [None].
    - A spin lock is named by the object it is embedded in ([lockid]), and
      [k_locks] holds the lock found there; the same for the channels
      ([chan]) processes sleep on, which the C code identifies by addresses.
    - Physical memory ([k_mem]) is a map from 64-bit addresses to bytes; the
      pages [kalloc] hands out (page tables, trapframes, user pages, argument
      pages) live there.
    - For every field [f] of a structure, [set_f g r] is [r] with the value
      of [f] replaced by [g] of it. *)

From stdpp Require Import gmap strings list.
From Stdlib Require Import ZArith Lia.
From S2P Require Import Prelude.
Open Scope Z_scope.

(** ** Constants *)

(** [param.h] *)
Definition NPROC : nat := 32.
Definition NCPU : nat := 1.
Definition NOFILE : nat := 16.
Definition NFILE : nat := 100.
Definition NINODE : nat := 50.
Definition NDEV : Z := 10.
Definition ROOTDEV : Z := 1.
Definition MAXARG : nat := 32.
Definition MAXOPBLOCKS : Z := 10.
Definition LOGSIZE : Z := MAXOPBLOCKS * 3.
Definition NBUF : nat := 30.
Definition FSSIZE : Z := 1000.
Definition MAXPATH : Z := 128.

(** [fs.h] *)
Definition ROOTINO : Z := 1.
Definition BSIZE : Z := 1024.
Definition FSMAGIC : Z := 0x10203040.
Definition NDIRECT : Z := 12.
Definition NINDIRECT : Z := BSIZE / 4.
Definition MAXFILE : Z := NDIRECT + NINDIRECT.
Definition sizeof_dinode : Z := 64.
Definition IPB : Z := BSIZE / sizeof_dinode.
Definition BPB : Z := BSIZE * 8.
Definition DIRSIZ : Z := 14.
Definition sizeof_dirent : Z := 16.

(** [stat.h] *)
Definition T_DIR : Z := 1.
Definition T_FILE : Z := 2.
Definition T_DEVICE : Z := 3.

(** [fcntl.h] *)
Definition O_RDONLY : Z := 0x000.
Definition O_WRONLY : Z := 0x001.
Definition O_RDWR : Z := 0x002.
Definition O_CREATE : Z := 0x200.
Definition O_TRUNC : Z := 0x400.

(** [loongarch.h] *)
Definition CSR_CRMD_IE : Z := 4.
Definition PGSIZE : Z := 4096.
Definition PGROUNDUP (sz : Z) : Z := Z.land (u64 (sz + PGSIZE - 1)) (Z.lnot (PGSIZE - 1)).
Definition PGROUNDDOWN (a : Z) : Z := Z.land a (Z.lnot (PGSIZE - 1)).
Definition PTE_V : Z := 1.
Definition PTE_D : Z := 2.
Definition PTE_PLV : Z := 12.
Definition PTE_MAT : Z := 16.
Definition PTE_P : Z := 128.
Definition PTE_W : Z := 256.
Definition PTE_NX : Z := 2 ^ 62.
Definition PAMASK : Z := Z.shiftl 0xFFFFFFFFF 12.
Definition PTE2PA (pte : Z) : Z := Z.land pte PAMASK.
Definition PA2PTE (pa : Z) : Z := Z.land pa PAMASK.
Definition PTE_FLAGS (pte : Z) : Z := Z.land pte 0xE0000000000001FF.
Definition PX (level va : Z) : Z := Z.land (Z.shiftr va (12 + 9 * level)) 0x1FF.
Definition MAXVA : Z := 2 ^ (9 + 12 - 1).

(** [memlayout.h] *)
Definition DMWIN_MASK : Z := 0x9000000000000000.
Definition RAMBASE : Z := Z.lor 0x90000000 DMWIN_MASK.
Definition RAMSTOP : Z := RAMBASE + 128 * 1024 * 1024.
Definition TRAPFRAME : Z := MAXVA - PGSIZE.
Definition KSTACK (p : Z) : Z := TRAPFRAME - (p + 1) * 2 * PGSIZE.
Definition UART0_IRQ : Z := 2.

(** ** Locks and channels *)

(** The sleep locks of the kernel: one per buffer and one per inode. *)
Inductive slid :=
| SL_buf (n : nat)
| SL_inode (n : nat).

(** The spin locks of the kernel. *)
Inductive lockid :=
| L_kmem | L_bcache | L_itable | L_ftable | L_log | L_pid | L_wait
| L_ticks | L_cons | L_uart | L_pr
| L_proc (n : nat)
| L_pipe (a : Z)
| L_sl (l : slid).

(** The channels a process can sleep on; [CH_null] is the null pointer. *)
Inductive chan :=
| CH_null
| CH_proc (p : nat)
| CH_sl (l : slid)
| CH_log
| CH_ticks
| CH_nread (a : Z)
| CH_nwrite (a : Z)
| CH_cons
| CH_uart.

#[export] Instance slid_eq_dec : EqDecision slid.
Proof. solve_decision. Defined.
#[export] Instance lockid_eq_dec : EqDecision lockid.
Proof. solve_decision. Defined.
#[export] Instance chan_eq_dec : EqDecision chan.
Proof. solve_decision. Defined.

(** A process pointer used as a channel. *)
Definition chan_proc (p : option nat) : chan :=
  match p with Some n => CH_proc n | None => CH_null end.

Definition lockid_enc (l : lockid) : nat * Z :=
  match l with
  | L_kmem => (0%nat, 0) | L_bcache => (0%nat, 1) | L_itable => (0%nat, 2)
  | L_ftable => (0%nat, 3) | L_log => (0%nat, 4) | L_pid => (0%nat, 5)
  | L_wait => (0%nat, 6) | L_ticks => (0%nat, 7) | L_cons => (0%nat, 8)
  | L_uart => (0%nat, 9) | L_pr => (0%nat, 10)
  | L_proc n => (1%nat, Z.of_nat n)
  | L_pipe a => (2%nat, a)
  | L_sl (SL_buf n) => (3%nat, Z.of_nat n)
  | L_sl (SL_inode n) => (4%nat, Z.of_nat n)
  end.

Definition lockid_dec (e : nat * Z) : lockid :=
  match e with
  | (0%nat, 0) => L_kmem | (0%nat, 1) => L_bcache | (0%nat, 2) => L_itable
  | (0%nat, 3) => L_ftable | (0%nat, 4) => L_log | (0%nat, 5) => L_pid
  | (0%nat, 6) => L_wait | (0%nat, 7) => L_ticks | (0%nat, 8) => L_cons
  | (0%nat, 9) => L_uart | (0%nat, _) => L_pr
  | (1%nat, z) => L_proc (Z.to_nat z)
  | (2%nat, z) => L_pipe z
  | (3%nat, z) => L_sl (SL_buf (Z.to_nat z))
  | (_, z) => L_sl (SL_inode (Z.to_nat z))
  end.

#[export] Instance lockid_countable : Countable lockid.
Proof.
  refine (inj_countable' lockid_enc lockid_dec _).
  intros [| | | | | | | | | | | n | a | [n | n]]; simpl; rewrite ?Nat2Z.id; done.
Defined.

(** ** Structures *)

(** [struct spinlock] *)
#[projections(primitive)]
Record spinlock := mkspinlock {
  lk_locked : Z;
  lk_name : string;
  lk_cpu : option nat }.

Definition set_lk_locked (g : Z -> Z) (r : spinlock) : spinlock :=
  mkspinlock (g (lk_locked r)) (lk_name r) (lk_cpu r).
Definition set_lk_name (g : string -> string) (r : spinlock) : spinlock :=
  mkspinlock (lk_locked r) (g (lk_name r)) (lk_cpu r).
Definition set_lk_cpu (g : option nat -> option nat) (r : spinlock) : spinlock :=
  mkspinlock (lk_locked r) (lk_name r) (g (lk_cpu r)).

(** [struct sleeplock]; its inner spin lock is [L_sl] of the lock's name *)
#[projections(primitive)]
Record sleeplock := mksleeplock {
  sl_locked : Z;
  sl_name : string;
  sl_pid : Z }.

Definition set_sl_locked (g : Z -> Z) (r : sleeplock) : sleeplock :=
  mksleeplock (g (sl_locked r)) (sl_name r) (sl_pid r).
Definition set_sl_name (g : string -> string) (r : sleeplock) : sleeplock :=
  mksleeplock (sl_locked r) (g (sl_name r)) (sl_pid r).
Definition set_sl_pid (g : Z -> Z) (r : sleeplock) : sleeplock :=
  mksleeplock (sl_locked r) (sl_name r) (g (sl_pid r)).

(** [struct context]: [ra], [sp], and the callee-saved [s0]-[s8], [fp] *)
#[projections(primitive)]
Record context := mkcontext {
  c_ra : Z;
  c_sp : Z;
  c_saved : list Z }.

Definition set_c_ra (g : Z -> Z) (r : context) : context :=
  mkcontext (g (c_ra r)) (c_sp r) (c_saved r).
Definition set_c_sp (g : Z -> Z) (r : context) : context :=
  mkcontext (c_ra r) (g (c_sp r)) (c_saved r).
Definition set_c_saved (g : list Z -> list Z) (r : context) : context :=
  mkcontext (c_ra r) (c_sp r) (g (c_saved r)).

(** [struct cpu]; its saved context is the scheduler's continuation *)
#[projections(primitive)]
Record cpu := mkcpu {
  c_proc : option nat;
  c_noff : Z;
  c_intena : bool }.

Definition set_c_proc (g : option nat -> option nat) (r : cpu) : cpu :=
  mkcpu (g (c_proc r)) (c_noff r) (c_intena r).
Definition set_c_noff (g : Z -> Z) (r : cpu) : cpu :=
  mkcpu (c_proc r) (g (c_noff r)) (c_intena r).
Definition set_c_intena (g : bool -> bool) (r : cpu) : cpu :=
  mkcpu (c_proc r) (c_noff r) (g (c_intena r)).

(** The control and status registers the kernel uses, and [tp] *)
#[projections(primitive)]
Record csr := mkcsr {
  crmd : Z;
  prmd : Z;
  ecfg : Z;
  estat : Z;
  era : Z;
  badi : Z;
  eentry : Z;
  tlbrentry : Z;
  merrentry : Z;
  tcfg : Z;
  ticlr : Z;
  pgdl : Z;
  stlbps : Z;
  asid : Z;
  tlbrehi : Z;
  pwcl : Z;
  pwch : Z;
  tp : Z }.

Definition set_crmd (g : Z -> Z) (r : csr) : csr :=
  mkcsr (g (crmd r)) (prmd r) (ecfg r) (estat r) (era r) (badi r) (eentry r)
    (tlbrentry r) (merrentry r) (tcfg r) (ticlr r) (pgdl r) (stlbps r) (asid r)
    (tlbrehi r) (pwcl r) (pwch r) (tp r).
Definition set_prmd (g : Z -> Z) (r : csr) : csr :=
  mkcsr (crmd r) (g (prmd r)) (ecfg r) (estat r) (era r) (badi r) (eentry r)
    (tlbrentry r) (merrentry r) (tcfg r) (ticlr r) (pgdl r) (stlbps r) (asid r)
    (tlbrehi r) (pwcl r) (pwch r) (tp r).
Definition set_ecfg (g : Z -> Z) (r : csr) : csr :=
  mkcsr (crmd r) (prmd r) (g (ecfg r)) (estat r) (era r) (badi r) (eentry r)
    (tlbrentry r) (merrentry r) (tcfg r) (ticlr r) (pgdl r) (stlbps r) (asid r)
    (tlbrehi r) (pwcl r) (pwch r) (tp r).
Definition set_estat (g : Z -> Z) (r : csr) : csr :=
  mkcsr (crmd r) (prmd r) (ecfg r) (g (estat r)) (era r) (badi r) (eentry r)
    (tlbrentry r) (merrentry r) (tcfg r) (ticlr r) (pgdl r) (stlbps r) (asid r)
    (tlbrehi r) (pwcl r) (pwch r) (tp r).
Definition set_era (g : Z -> Z) (r : csr) : csr :=
  mkcsr (crmd r) (prmd r) (ecfg r) (estat r) (g (era r)) (badi r) (eentry r)
    (tlbrentry r) (merrentry r) (tcfg r) (ticlr r) (pgdl r) (stlbps r) (asid r)
    (tlbrehi r) (pwcl r) (pwch r) (tp r).
Definition set_badi (g : Z -> Z) (r : csr) : csr :=
  mkcsr (crmd r) (prmd r) (ecfg r) (estat r) (era r) (g (badi r)) (eentry r)
    (tlbrentry r) (merrentry r) (tcfg r) (ticlr r) (pgdl r) (stlbps r) (asid r)
    (tlbrehi r) (pwcl r) (pwch r) (tp r).
Definition set_eentry (g : Z -> Z) (r : csr) : csr :=
  mkcsr (crmd r) (prmd r) (ecfg r) (estat r) (era r) (badi r) (g (eentry r))
    (tlbrentry r) (merrentry r) (tcfg r) (ticlr r) (pgdl r) (stlbps r) (asid r)
    (tlbrehi r) (pwcl r) (pwch r) (tp r).
Definition set_tlbrentry (g : Z -> Z) (r : csr) : csr :=
  mkcsr (crmd r) (prmd r) (ecfg r) (estat r) (era r) (badi r) (eentry r) (g
    (tlbrentry r)) (merrentry r) (tcfg r) (ticlr r) (pgdl r) (stlbps r) (asid r)
    (tlbrehi r) (pwcl r) (pwch r) (tp r).
Definition set_merrentry (g : Z -> Z) (r : csr) : csr :=
  mkcsr (crmd r) (prmd r) (ecfg r) (estat r) (era r) (badi r) (eentry r) (tlbrentry
    r) (g (merrentry r)) (tcfg r) (ticlr r) (pgdl r) (stlbps r) (asid r) (tlbrehi r)
    (pwcl r) (pwch r) (tp r).
Definition set_tcfg (g : Z -> Z) (r : csr) : csr :=
  mkcsr (crmd r) (prmd r) (ecfg r) (estat r) (era r) (badi r) (eentry r) (tlbrentry
    r) (merrentry r) (g (tcfg r)) (ticlr r) (pgdl r) (stlbps r) (asid r) (tlbrehi r)
    (pwcl r) (pwch r) (tp r).
Definition set_ticlr (g : Z -> Z) (r : csr) : csr :=
  mkcsr (crmd r) (prmd r) (ecfg r) (estat r) (era r) (badi r) (eentry r) (tlbrentry
    r) (merrentry r) (tcfg r) (g (ticlr r)) (pgdl r) (stlbps r) (asid r) (tlbrehi r)
    (pwcl r) (pwch r) (tp r).
Definition set_pgdl (g : Z -> Z) (r : csr) : csr :=
  mkcsr (crmd r) (prmd r) (ecfg r) (estat r) (era r) (badi r) (eentry r) (tlbrentry
    r) (merrentry r) (tcfg r) (ticlr r) (g (pgdl r)) (stlbps r) (asid r) (tlbrehi r)
    (pwcl r) (pwch r) (tp r).
Definition set_stlbps (g : Z -> Z) (r : csr) : csr :=
  mkcsr (crmd r) (prmd r) (ecfg r) (estat r) (era r) (badi r) (eentry r) (tlbrentry
    r) (merrentry r) (tcfg r) (ticlr r) (pgdl r) (g (stlbps r)) (asid r) (tlbrehi r)
    (pwcl r) (pwch r) (tp r).
Definition set_asid (g : Z -> Z) (r : csr) : csr :=
  mkcsr (crmd r) (prmd r) (ecfg r) (estat r) (era r) (badi r) (eentry r) (tlbrentry
    r) (merrentry r) (tcfg r) (ticlr r) (pgdl r) (stlbps r) (g (asid r)) (tlbrehi r)
    (pwcl r) (pwch r) (tp r).
Definition set_tlbrehi (g : Z -> Z) (r : csr) : csr :=
  mkcsr (crmd r) (prmd r) (ecfg r) (estat r) (era r) (badi r) (eentry r) (tlbrentry
    r) (merrentry r) (tcfg r) (ticlr r) (pgdl r) (stlbps r) (asid r) (g (tlbrehi r))
    (pwcl r) (pwch r) (tp r).
Definition set_pwcl (g : Z -> Z) (r : csr) : csr :=
  mkcsr (crmd r) (prmd r) (ecfg r) (estat r) (era r) (badi r) (eentry r) (tlbrentry
    r) (merrentry r) (tcfg r) (ticlr r) (pgdl r) (stlbps r) (asid r) (tlbrehi r) (g
    (pwcl r)) (pwch r) (tp r).
Definition set_pwch (g : Z -> Z) (r : csr) : csr :=
  mkcsr (crmd r) (prmd r) (ecfg r) (estat r) (era r) (badi r) (eentry r) (tlbrentry
    r) (merrentry r) (tcfg r) (ticlr r) (pgdl r) (stlbps r) (asid r) (tlbrehi r)
    (pwcl r) (g (pwch r)) (tp r).
Definition set_tp (g : Z -> Z) (r : csr) : csr :=
  mkcsr (crmd r) (prmd r) (ecfg r) (estat r) (era r) (badi r) (eentry r) (tlbrentry
    r) (merrentry r) (tcfg r) (ticlr r) (pgdl r) (stlbps r) (asid r) (tlbrehi r)
    (pwcl r) (pwch r) (g (tp r)).

(** [enum procstate] *)
Inductive procstate := UNUSED | USED | SLEEPING | RUNNABLE | RUNNING | ZOMBIE.
#[export] Instance procstate_eq_dec : EqDecision procstate.
Proof. solve_decision. Defined.

(** [struct proc]; its lock is [L_proc] of its index *)
#[projections(primitive)]
Record proc := mkproc {
  p_state : procstate;
  p_chan : chan;
  p_killed : Z;
  p_xstate : Z;
  p_pid : Z;
  p_parent : option nat;
  p_kstack : Z;
  p_sz : Z;
  p_pagetable : Z;
  p_trapframe : Z;
  p_context : context;
  p_ofile : list (option nat);
  p_cwd : option nat;
  p_name : list Z }.

Definition set_p_state (g : procstate -> procstate) (r : proc) : proc :=
  mkproc (g (p_state r)) (p_chan r) (p_killed r) (p_xstate r) (p_pid r) (p_parent r)
    (p_kstack r) (p_sz r) (p_pagetable r) (p_trapframe r) (p_context r) (p_ofile r)
    (p_cwd r) (p_name r).
Definition set_p_chan (g : chan -> chan) (r : proc) : proc :=
  mkproc (p_state r) (g (p_chan r)) (p_killed r) (p_xstate r) (p_pid r) (p_parent r)
    (p_kstack r) (p_sz r) (p_pagetable r) (p_trapframe r) (p_context r) (p_ofile r)
    (p_cwd r) (p_name r).
Definition set_p_killed (g : Z -> Z) (r : proc) : proc :=
  mkproc (p_state r) (p_chan r) (g (p_killed r)) (p_xstate r) (p_pid r) (p_parent r)
    (p_kstack r) (p_sz r) (p_pagetable r) (p_trapframe r) (p_context r) (p_ofile r)
    (p_cwd r) (p_name r).
Definition set_p_xstate (g : Z -> Z) (r : proc) : proc :=
  mkproc (p_state r) (p_chan r) (p_killed r) (g (p_xstate r)) (p_pid r) (p_parent r)
    (p_kstack r) (p_sz r) (p_pagetable r) (p_trapframe r) (p_context r) (p_ofile r)
    (p_cwd r) (p_name r).
Definition set_p_pid (g : Z -> Z) (r : proc) : proc :=
  mkproc (p_state r) (p_chan r) (p_killed r) (p_xstate r) (g (p_pid r)) (p_parent r)
    (p_kstack r) (p_sz r) (p_pagetable r) (p_trapframe r) (p_context r) (p_ofile r)
    (p_cwd r) (p_name r).
Definition set_p_parent (g : option nat -> option nat) (r : proc) : proc :=
  mkproc (p_state r) (p_chan r) (p_killed r) (p_xstate r) (p_pid r) (g (p_parent r))
    (p_kstack r) (p_sz r) (p_pagetable r) (p_trapframe r) (p_context r) (p_ofile r)
    (p_cwd r) (p_name r).
Definition set_p_kstack (g : Z -> Z) (r : proc) : proc :=
  mkproc (p_state r) (p_chan r) (p_killed r) (p_xstate r) (p_pid r) (p_parent r) (g
    (p_kstack r)) (p_sz r) (p_pagetable r) (p_trapframe r) (p_context r) (p_ofile r)
    (p_cwd r) (p_name r).
Definition set_p_sz (g : Z -> Z) (r : proc) : proc :=
  mkproc (p_state r) (p_chan r) (p_killed r) (p_xstate r) (p_pid r) (p_parent r)
    (p_kstack r) (g (p_sz r)) (p_pagetable r) (p_trapframe r) (p_context r) (p_ofile
    r) (p_cwd r) (p_name r).
Definition set_p_pagetable (g : Z -> Z) (r : proc) : proc :=
  mkproc (p_state r) (p_chan r) (p_killed r) (p_xstate r) (p_pid r) (p_parent r)
    (p_kstack r) (p_sz r) (g (p_pagetable r)) (p_trapframe r) (p_context r) (p_ofile
    r) (p_cwd r) (p_name r).
Definition set_p_trapframe (g : Z -> Z) (r : proc) : proc :=
  mkproc (p_state r) (p_chan r) (p_killed r) (p_xstate r) (p_pid r) (p_parent r)
    (p_kstack r) (p_sz r) (p_pagetable r) (g (p_trapframe r)) (p_context r) (p_ofile
    r) (p_cwd r) (p_name r).
Definition set_p_context (g : context -> context) (r : proc) : proc :=
  mkproc (p_state r) (p_chan r) (p_killed r) (p_xstate r) (p_pid r) (p_parent r)
    (p_kstack r) (p_sz r) (p_pagetable r) (p_trapframe r) (g (p_context r)) (p_ofile
    r) (p_cwd r) (p_name r).
Definition set_p_ofile (g : list (option nat) -> list (option nat)) (r : proc) : proc :=
  mkproc (p_state r) (p_chan r) (p_killed r) (p_xstate r) (p_pid r) (p_parent r)
    (p_kstack r) (p_sz r) (p_pagetable r) (p_trapframe r) (p_context r) (g (p_ofile
    r)) (p_cwd r) (p_name r).
Definition set_p_cwd (g : option nat -> option nat) (r : proc) : proc :=
  mkproc (p_state r) (p_chan r) (p_killed r) (p_xstate r) (p_pid r) (p_parent r)
    (p_kstack r) (p_sz r) (p_pagetable r) (p_trapframe r) (p_context r) (p_ofile r)
    (g (p_cwd r)) (p_name r).
Definition set_p_name (g : list Z -> list Z) (r : proc) : proc :=
  mkproc (p_state r) (p_chan r) (p_killed r) (p_xstate r) (p_pid r) (p_parent r)
    (p_kstack r) (p_sz r) (p_pagetable r) (p_trapframe r) (p_context r) (p_ofile r)
    (p_cwd r) (g (p_name r)).

(** [struct buf]; [NBUF] is the index of the list head [bcache.head] *)
#[projections(primitive)]
Record buf := mkbuf {
  b_valid : bool;
  b_disk : Z;
  b_dev : Z;
  b_blockno : Z;
  b_lock : sleeplock;
  b_refcnt : Z;
  b_prev : nat;
  b_next : nat;
  b_data : list Z }.

Definition set_b_valid (g : bool -> bool) (r : buf) : buf :=
  mkbuf (g (b_valid r)) (b_disk r) (b_dev r) (b_blockno r) (b_lock r) (b_refcnt r)
    (b_prev r) (b_next r) (b_data r).
Definition set_b_disk (g : Z -> Z) (r : buf) : buf :=
  mkbuf (b_valid r) (g (b_disk r)) (b_dev r) (b_blockno r) (b_lock r) (b_refcnt r)
    (b_prev r) (b_next r) (b_data r).
Definition set_b_dev (g : Z -> Z) (r : buf) : buf :=
  mkbuf (b_valid r) (b_disk r) (g (b_dev r)) (b_blockno r) (b_lock r) (b_refcnt r)
    (b_prev r) (b_next r) (b_data r).
Definition set_b_blockno (g : Z -> Z) (r : buf) : buf :=
  mkbuf (b_valid r) (b_disk r) (b_dev r) (g (b_blockno r)) (b_lock r) (b_refcnt r)
    (b_prev r) (b_next r) (b_data r).
Definition set_b_lock (g : sleeplock -> sleeplock) (r : buf) : buf :=
  mkbuf (b_valid r) (b_disk r) (b_dev r) (b_blockno r) (g (b_lock r)) (b_refcnt r)
    (b_prev r) (b_next r) (b_data r).
Definition set_b_refcnt (g : Z -> Z) (r : buf) : buf :=
  mkbuf (b_valid r) (b_disk r) (b_dev r) (b_blockno r) (b_lock r) (g (b_refcnt r))
    (b_prev r) (b_next r) (b_data r).
Definition set_b_prev (g : nat -> nat) (r : buf) : buf :=
  mkbuf (b_valid r) (b_disk r) (b_dev r) (b_blockno r) (b_lock r) (b_refcnt r) (g
    (b_prev r)) (b_next r) (b_data r).
Definition set_b_next (g : nat -> nat) (r : buf) : buf :=
  mkbuf (b_valid r) (b_disk r) (b_dev r) (b_blockno r) (b_lock r) (b_refcnt r)
    (b_prev r) (g (b_next r)) (b_data r).
Definition set_b_data (g : list Z -> list Z) (r : buf) : buf :=
  mkbuf (b_valid r) (b_disk r) (b_dev r) (b_blockno r) (b_lock r) (b_refcnt r)
    (b_prev r) (b_next r) (g (b_data r)).

(** [struct superblock] *)
#[projections(primitive)]
Record superblock := mksb {
  sb_magic : Z;
  sb_size : Z;
  sb_nblocks : Z;
  sb_ninodes : Z;
  sb_nlog : Z;
  sb_logstart : Z;
  sb_inodestart : Z;
  sb_bmapstart : Z }.

Definition set_sb_magic (g : Z -> Z) (r : superblock) : superblock :=
  mksb (g (sb_magic r)) (sb_size r) (sb_nblocks r) (sb_ninodes r) (sb_nlog r)
    (sb_logstart r) (sb_inodestart r) (sb_bmapstart r).
Definition set_sb_size (g : Z -> Z) (r : superblock) : superblock :=
  mksb (sb_magic r) (g (sb_size r)) (sb_nblocks r) (sb_ninodes r) (sb_nlog r)
    (sb_logstart r) (sb_inodestart r) (sb_bmapstart r).
Definition set_sb_nblocks (g : Z -> Z) (r : superblock) : superblock :=
  mksb (sb_magic r) (sb_size r) (g (sb_nblocks r)) (sb_ninodes r) (sb_nlog r)
    (sb_logstart r) (sb_inodestart r) (sb_bmapstart r).
Definition set_sb_ninodes (g : Z -> Z) (r : superblock) : superblock :=
  mksb (sb_magic r) (sb_size r) (sb_nblocks r) (g (sb_ninodes r)) (sb_nlog r)
    (sb_logstart r) (sb_inodestart r) (sb_bmapstart r).
Definition set_sb_nlog (g : Z -> Z) (r : superblock) : superblock :=
  mksb (sb_magic r) (sb_size r) (sb_nblocks r) (sb_ninodes r) (g (sb_nlog r))
    (sb_logstart r) (sb_inodestart r) (sb_bmapstart r).
Definition set_sb_logstart (g : Z -> Z) (r : superblock) : superblock :=
  mksb (sb_magic r) (sb_size r) (sb_nblocks r) (sb_ninodes r) (sb_nlog r) (g
    (sb_logstart r)) (sb_inodestart r) (sb_bmapstart r).
Definition set_sb_inodestart (g : Z -> Z) (r : superblock) : superblock :=
  mksb (sb_magic r) (sb_size r) (sb_nblocks r) (sb_ninodes r) (sb_nlog r)
    (sb_logstart r) (g (sb_inodestart r)) (sb_bmapstart r).
Definition set_sb_bmapstart (g : Z -> Z) (r : superblock) : superblock :=
  mksb (sb_magic r) (sb_size r) (sb_nblocks r) (sb_ninodes r) (sb_nlog r)
    (sb_logstart r) (sb_inodestart r) (g (sb_bmapstart r)).

(** [struct dinode] *)
#[projections(primitive)]
Record dinode := mkdinode {
  di_type : Z;
  di_major : Z;
  di_minor : Z;
  di_nlink : Z;
  di_size : Z;
  di_addrs : list Z }.

Definition set_di_type (g : Z -> Z) (r : dinode) : dinode :=
  mkdinode (g (di_type r)) (di_major r) (di_minor r) (di_nlink r) (di_size r)
    (di_addrs r).
Definition set_di_major (g : Z -> Z) (r : dinode) : dinode :=
  mkdinode (di_type r) (g (di_major r)) (di_minor r) (di_nlink r) (di_size r)
    (di_addrs r).
Definition set_di_minor (g : Z -> Z) (r : dinode) : dinode :=
  mkdinode (di_type r) (di_major r) (g (di_minor r)) (di_nlink r) (di_size r)
    (di_addrs r).
Definition set_di_nlink (g : Z -> Z) (r : dinode) : dinode :=
  mkdinode (di_type r) (di_major r) (di_minor r) (g (di_nlink r)) (di_size r)
    (di_addrs r).
Definition set_di_size (g : Z -> Z) (r : dinode) : dinode :=
  mkdinode (di_type r) (di_major r) (di_minor r) (di_nlink r) (g (di_size r))
    (di_addrs r).
Definition set_di_addrs (g : list Z -> list Z) (r : dinode) : dinode :=
  mkdinode (di_type r) (di_major r) (di_minor r) (di_nlink r) (di_size r) (g
    (di_addrs r)).

(** [struct inode] *)
#[projections(primitive)]
Record inode := mkinode {
  i_dev : Z;
  i_inum : Z;
  i_ref : Z;
  i_lock : sleeplock;
  i_valid : bool;
  i_type : Z;
  i_major : Z;
  i_minor : Z;
  i_nlink : Z;
  i_size : Z;
  i_addrs : list Z }.

Definition set_i_dev (g : Z -> Z) (r : inode) : inode :=
  mkinode (g (i_dev r)) (i_inum r) (i_ref r) (i_lock r) (i_valid r) (i_type r)
    (i_major r) (i_minor r) (i_nlink r) (i_size r) (i_addrs r).
Definition set_i_inum (g : Z -> Z) (r : inode) : inode :=
  mkinode (i_dev r) (g (i_inum r)) (i_ref r) (i_lock r) (i_valid r) (i_type r)
    (i_major r) (i_minor r) (i_nlink r) (i_size r) (i_addrs r).
Definition set_i_ref (g : Z -> Z) (r : inode) : inode :=
  mkinode (i_dev r) (i_inum r) (g (i_ref r)) (i_lock r) (i_valid r) (i_type r)
    (i_major r) (i_minor r) (i_nlink r) (i_size r) (i_addrs r).
Definition set_i_lock (g : sleeplock -> sleeplock) (r : inode) : inode :=
  mkinode (i_dev r) (i_inum r) (i_ref r) (g (i_lock r)) (i_valid r) (i_type r)
    (i_major r) (i_minor r) (i_nlink r) (i_size r) (i_addrs r).
Definition set_i_valid (g : bool -> bool) (r : inode) : inode :=
  mkinode (i_dev r) (i_inum r) (i_ref r) (i_lock r) (g (i_valid r)) (i_type r)
    (i_major r) (i_minor r) (i_nlink r) (i_size r) (i_addrs r).
Definition set_i_type (g : Z -> Z) (r : inode) : inode :=
  mkinode (i_dev r) (i_inum r) (i_ref r) (i_lock r) (i_valid r) (g (i_type r))
    (i_major r) (i_minor r) (i_nlink r) (i_size r) (i_addrs r).
Definition set_i_major (g : Z -> Z) (r : inode) : inode :=
  mkinode (i_dev r) (i_inum r) (i_ref r) (i_lock r) (i_valid r) (i_type r) (g
    (i_major r)) (i_minor r) (i_nlink r) (i_size r) (i_addrs r).
Definition set_i_minor (g : Z -> Z) (r : inode) : inode :=
  mkinode (i_dev r) (i_inum r) (i_ref r) (i_lock r) (i_valid r) (i_type r) (i_major
    r) (g (i_minor r)) (i_nlink r) (i_size r) (i_addrs r).
Definition set_i_nlink (g : Z -> Z) (r : inode) : inode :=
  mkinode (i_dev r) (i_inum r) (i_ref r) (i_lock r) (i_valid r) (i_type r) (i_major
    r) (i_minor r) (g (i_nlink r)) (i_size r) (i_addrs r).
Definition set_i_size (g : Z -> Z) (r : inode) : inode :=
  mkinode (i_dev r) (i_inum r) (i_ref r) (i_lock r) (i_valid r) (i_type r) (i_major
    r) (i_minor r) (i_nlink r) (g (i_size r)) (i_addrs r).
Definition set_i_addrs (g : list Z -> list Z) (r : inode) : inode :=
  mkinode (i_dev r) (i_inum r) (i_ref r) (i_lock r) (i_valid r) (i_type r) (i_major
    r) (i_minor r) (i_nlink r) (i_size r) (g (i_addrs r)).

(** [enum] of [struct file] *)
Inductive fdtype := FD_NONE | FD_PIPE | FD_INODE | FD_DEVICE.
#[export] Instance fdtype_eq_dec : EqDecision fdtype.
Proof. solve_decision. Defined.

(** [struct file] *)
#[projections(primitive)]
Record file := mkfile {
  f_type : fdtype;
  f_ref : Z;
  f_readable : bool;
  f_writable : bool;
  f_pipe : Z;
  f_ip : option nat;
  f_off : Z;
  f_major : Z }.

Definition set_f_type (g : fdtype -> fdtype) (r : file) : file :=
  mkfile (g (f_type r)) (f_ref r) (f_readable r) (f_writable r) (f_pipe r) (f_ip r)
    (f_off r) (f_major r).
Definition set_f_ref (g : Z -> Z) (r : file) : file :=
  mkfile (f_type r) (g (f_ref r)) (f_readable r) (f_writable r) (f_pipe r) (f_ip r)
    (f_off r) (f_major r).
Definition set_f_readable (g : bool -> bool) (r : file) : file :=
  mkfile (f_type r) (f_ref r) (g (f_readable r)) (f_writable r) (f_pipe r) (f_ip r)
    (f_off r) (f_major r).
Definition set_f_writable (g : bool -> bool) (r : file) : file :=
  mkfile (f_type r) (f_ref r) (f_readable r) (g (f_writable r)) (f_pipe r) (f_ip r)
    (f_off r) (f_major r).
Definition set_f_pipe (g : Z -> Z) (r : file) : file :=
  mkfile (f_type r) (f_ref r) (f_readable r) (f_writable r) (g (f_pipe r)) (f_ip r)
    (f_off r) (f_major r).
Definition set_f_ip (g : option nat -> option nat) (r : file) : file :=
  mkfile (f_type r) (f_ref r) (f_readable r) (f_writable r) (f_pipe r) (g (f_ip r))
    (f_off r) (f_major r).
Definition set_f_off (g : Z -> Z) (r : file) : file :=
  mkfile (f_type r) (f_ref r) (f_readable r) (f_writable r) (f_pipe r) (f_ip r) (g
    (f_off r)) (f_major r).
Definition set_f_major (g : Z -> Z) (r : file) : file :=
  mkfile (f_type r) (f_ref r) (f_readable r) (f_writable r) (f_pipe r) (f_ip r)
    (f_off r) (g (f_major r)).

(** A device function of [struct devsw]; the console installs the only ones. *)
Inductive devfn := DEV_console.

(** [struct devsw] *)
#[projections(primitive)]
Record devsw := mkdevsw {
  d_read : option devfn;
  d_write : option devfn }.

Definition set_d_read (g : option devfn -> option devfn) (r : devsw) : devsw :=
  mkdevsw (g (d_read r)) (d_write r).
Definition set_d_write (g : option devfn -> option devfn) (r : devsw) : devsw :=
  mkdevsw (d_read r) (g (d_write r)).

(** [struct pipe], found at the page address the pipe was given *)
#[projections(primitive)]
Record pipe := mkpipe {
  pi_data : list Z;
  pi_nread : Z;
  pi_nwrite : Z;
  pi_readopen : Z;
  pi_writeopen : Z }.

Definition set_pi_data (g : list Z -> list Z) (r : pipe) : pipe :=
  mkpipe (g (pi_data r)) (pi_nread r) (pi_nwrite r) (pi_readopen r) (pi_writeopen
    r).
Definition set_pi_nread (g : Z -> Z) (r : pipe) : pipe :=
  mkpipe (pi_data r) (g (pi_nread r)) (pi_nwrite r) (pi_readopen r) (pi_writeopen
    r).
Definition set_pi_nwrite (g : Z -> Z) (r : pipe) : pipe :=
  mkpipe (pi_data r) (pi_nread r) (g (pi_nwrite r)) (pi_readopen r) (pi_writeopen
    r).
Definition set_pi_readopen (g : Z -> Z) (r : pipe) : pipe :=
  mkpipe (pi_data r) (pi_nread r) (pi_nwrite r) (g (pi_readopen r)) (pi_writeopen
    r).
Definition set_pi_writeopen (g : Z -> Z) (r : pipe) : pipe :=
  mkpipe (pi_data r) (pi_nread r) (pi_nwrite r) (pi_readopen r) (g (pi_writeopen
    r)).

(** [struct log], with its in-memory [struct logheader] *)
#[projections(primitive)]
Record log := mklog {
  lg_start : Z;
  lg_size : Z;
  lg_outstanding : Z;
  lg_committing : bool;
  lg_dev : Z;
  lg_n : Z;
  lg_block : list Z }.

Definition set_lg_start (g : Z -> Z) (r : log) : log :=
  mklog (g (lg_start r)) (lg_size r) (lg_outstanding r) (lg_committing r) (lg_dev r)
    (lg_n r) (lg_block r).
Definition set_lg_size (g : Z -> Z) (r : log) : log :=
  mklog (lg_start r) (g (lg_size r)) (lg_outstanding r) (lg_committing r) (lg_dev r)
    (lg_n r) (lg_block r).
Definition set_lg_outstanding (g : Z -> Z) (r : log) : log :=
  mklog (lg_start r) (lg_size r) (g (lg_outstanding r)) (lg_committing r) (lg_dev r)
    (lg_n r) (lg_block r).
Definition set_lg_committing (g : bool -> bool) (r : log) : log :=
  mklog (lg_start r) (lg_size r) (lg_outstanding r) (g (lg_committing r)) (lg_dev r)
    (lg_n r) (lg_block r).
Definition set_lg_dev (g : Z -> Z) (r : log) : log :=
  mklog (lg_start r) (lg_size r) (lg_outstanding r) (lg_committing r) (g (lg_dev r))
    (lg_n r) (lg_block r).
Definition set_lg_n (g : Z -> Z) (r : log) : log :=
  mklog (lg_start r) (lg_size r) (lg_outstanding r) (lg_committing r) (lg_dev r) (g
    (lg_n r)) (lg_block r).
Definition set_lg_block (g : list Z -> list Z) (r : log) : log :=
  mklog (lg_start r) (lg_size r) (lg_outstanding r) (lg_committing r) (lg_dev r)
    (lg_n r) (g (lg_block r)).

(** The console's [cons] structure *)
#[projections(primitive)]
Record console := mkcons {
  cons_buf : list Z;
  cons_r : Z;
  cons_w : Z;
  cons_e : Z }.

Definition set_cons_buf (g : list Z -> list Z) (r : console) : console :=
  mkcons (g (cons_buf r)) (cons_r r) (cons_w r) (cons_e r).
Definition set_cons_r (g : Z -> Z) (r : console) : console :=
  mkcons (cons_buf r) (g (cons_r r)) (cons_w r) (cons_e r).
Definition set_cons_w (g : Z -> Z) (r : console) : console :=
  mkcons (cons_buf r) (cons_r r) (g (cons_w r)) (cons_e r).
Definition set_cons_e (g : Z -> Z) (r : console) : console :=
  mkcons (cons_buf r) (cons_r r) (cons_w r) (g (cons_e r)).

(** The transmit buffer of [uart.c], and the UART itself: the values its line status register will read as, the bytes that will arrive in its receive register, and the register writes made so far (latest first) *)
#[projections(primitive)]
Record uart := mkuart {
  uart_tx_buf : list Z;
  uart_tx_w : Z;
  uart_tx_r : Z;
  u_lsr : list Z;
  u_rhr : list Z;
  u_writes : list (Z * Z) }.

Definition set_uart_tx_buf (g : list Z -> list Z) (r : uart) : uart :=
  mkuart (g (uart_tx_buf r)) (uart_tx_w r) (uart_tx_r r) (u_lsr r) (u_rhr r)
    (u_writes r).
Definition set_uart_tx_w (g : Z -> Z) (r : uart) : uart :=
  mkuart (uart_tx_buf r) (g (uart_tx_w r)) (uart_tx_r r) (u_lsr r) (u_rhr r)
    (u_writes r).
Definition set_uart_tx_r (g : Z -> Z) (r : uart) : uart :=
  mkuart (uart_tx_buf r) (uart_tx_w r) (g (uart_tx_r r)) (u_lsr r) (u_rhr r)
    (u_writes r).
Definition set_u_lsr (g : list Z -> list Z) (r : uart) : uart :=
  mkuart (uart_tx_buf r) (uart_tx_w r) (uart_tx_r r) (g (u_lsr r)) (u_rhr r)
    (u_writes r).
Definition set_u_rhr (g : list Z -> list Z) (r : uart) : uart :=
  mkuart (uart_tx_buf r) (uart_tx_w r) (uart_tx_r r) (u_lsr r) (g (u_rhr r))
    (u_writes r).
Definition set_u_writes (g : list (Z * Z) -> list (Z * Z)) (r : uart) : uart :=
  mkuart (uart_tx_buf r) (uart_tx_w r) (uart_tx_r r) (u_lsr r) (u_rhr r) (g
    (u_writes r)).

(** The state of the kernel *)
#[projections(primitive)]
Record kstate := mkK {
  k_cpu : cpu;
  k_csr : csr;
  k_locks : gmap lockid spinlock;
  k_mem : gmap Z Z;
  k_freelist : Z;
  k_procs : list proc;
  k_initproc : option nat;
  k_nextpid : Z;
  k_first : bool;
  k_ticks : Z;
  k_bufs : list buf;
  k_disk : gmap Z (list Z);
  k_dtrace : list (Z * list Z);
  k_log : log;
  k_sb : superblock;
  k_inodes : list inode;
  k_files : list file;
  k_devsw : list devsw;
  k_pipes : gmap Z pipe;
  k_cons : console;
  k_uart : uart;
  k_prlocking : bool;
  k_panicked : bool;
  k_mmio : list (Z * Z);
  k_iocsr : gmap Z Z }.

Definition set_k_cpu (g : cpu -> cpu) (r : kstate) : kstate :=
  mkK (g (k_cpu r)) (k_csr r) (k_locks r) (k_mem r) (k_freelist r) (k_procs r)
    (k_initproc r) (k_nextpid r) (k_first r) (k_ticks r) (k_bufs r) (k_disk r)
    (k_dtrace r) (k_log r) (k_sb r) (k_inodes r) (k_files r) (k_devsw r) (k_pipes r)
    (k_cons r) (k_uart r) (k_prlocking r) (k_panicked r) (k_mmio r) (k_iocsr r).
Definition set_k_csr (g : csr -> csr) (r : kstate) : kstate :=
  mkK (k_cpu r) (g (k_csr r)) (k_locks r) (k_mem r) (k_freelist r) (k_procs r)
    (k_initproc r) (k_nextpid r) (k_first r) (k_ticks r) (k_bufs r) (k_disk r)
    (k_dtrace r) (k_log r) (k_sb r) (k_inodes r) (k_files r) (k_devsw r) (k_pipes r)
    (k_cons r) (k_uart r) (k_prlocking r) (k_panicked r) (k_mmio r) (k_iocsr r).
Definition set_k_locks (g : gmap lockid spinlock -> gmap lockid spinlock) (r : kstate) : kstate :=
  mkK (k_cpu r) (k_csr r) (g (k_locks r)) (k_mem r) (k_freelist r) (k_procs r)
    (k_initproc r) (k_nextpid r) (k_first r) (k_ticks r) (k_bufs r) (k_disk r)
    (k_dtrace r) (k_log r) (k_sb r) (k_inodes r) (k_files r) (k_devsw r) (k_pipes r)
    (k_cons r) (k_uart r) (k_prlocking r) (k_panicked r) (k_mmio r) (k_iocsr r).
Definition set_k_mem (g : gmap Z Z -> gmap Z Z) (r : kstate) : kstate :=
  mkK (k_cpu r) (k_csr r) (k_locks r) (g (k_mem r)) (k_freelist r) (k_procs r)
    (k_initproc r) (k_nextpid r) (k_first r) (k_ticks r) (k_bufs r) (k_disk r)
    (k_dtrace r) (k_log r) (k_sb r) (k_inodes r) (k_files r) (k_devsw r) (k_pipes r)
    (k_cons r) (k_uart r) (k_prlocking r) (k_panicked r) (k_mmio r) (k_iocsr r).
Definition set_k_freelist (g : Z -> Z) (r : kstate) : kstate :=
  mkK (k_cpu r) (k_csr r) (k_locks r) (k_mem r) (g (k_freelist r)) (k_procs r)
    (k_initproc r) (k_nextpid r) (k_first r) (k_ticks r) (k_bufs r) (k_disk r)
    (k_dtrace r) (k_log r) (k_sb r) (k_inodes r) (k_files r) (k_devsw r) (k_pipes r)
    (k_cons r) (k_uart r) (k_prlocking r) (k_panicked r) (k_mmio r) (k_iocsr r).
Definition set_k_procs (g : list proc -> list proc) (r : kstate) : kstate :=
  mkK (k_cpu r) (k_csr r) (k_locks r) (k_mem r) (k_freelist r) (g (k_procs r))
    (k_initproc r) (k_nextpid r) (k_first r) (k_ticks r) (k_bufs r) (k_disk r)
    (k_dtrace r) (k_log r) (k_sb r) (k_inodes r) (k_files r) (k_devsw r) (k_pipes r)
    (k_cons r) (k_uart r) (k_prlocking r) (k_panicked r) (k_mmio r) (k_iocsr r).
Definition set_k_initproc (g : option nat -> option nat) (r : kstate) : kstate :=
  mkK (k_cpu r) (k_csr r) (k_locks r) (k_mem r) (k_freelist r) (k_procs r) (g
    (k_initproc r)) (k_nextpid r) (k_first r) (k_ticks r) (k_bufs r) (k_disk r)
    (k_dtrace r) (k_log r) (k_sb r) (k_inodes r) (k_files r) (k_devsw r) (k_pipes r)
    (k_cons r) (k_uart r) (k_prlocking r) (k_panicked r) (k_mmio r) (k_iocsr r).
Definition set_k_nextpid (g : Z -> Z) (r : kstate) : kstate :=
  mkK (k_cpu r) (k_csr r) (k_locks r) (k_mem r) (k_freelist r) (k_procs r)
    (k_initproc r) (g (k_nextpid r)) (k_first r) (k_ticks r) (k_bufs r) (k_disk r)
    (k_dtrace r) (k_log r) (k_sb r) (k_inodes r) (k_files r) (k_devsw r) (k_pipes r)
    (k_cons r) (k_uart r) (k_prlocking r) (k_panicked r) (k_mmio r) (k_iocsr r).
Definition set_k_first (g : bool -> bool) (r : kstate) : kstate :=
  mkK (k_cpu r) (k_csr r) (k_locks r) (k_mem r) (k_freelist r) (k_procs r)
    (k_initproc r) (k_nextpid r) (g (k_first r)) (k_ticks r) (k_bufs r) (k_disk r)
    (k_dtrace r) (k_log r) (k_sb r) (k_inodes r) (k_files r) (k_devsw r) (k_pipes r)
    (k_cons r) (k_uart r) (k_prlocking r) (k_panicked r) (k_mmio r) (k_iocsr r).
Definition set_k_ticks (g : Z -> Z) (r : kstate) : kstate :=
  mkK (k_cpu r) (k_csr r) (k_locks r) (k_mem r) (k_freelist r) (k_procs r)
    (k_initproc r) (k_nextpid r) (k_first r) (g (k_ticks r)) (k_bufs r) (k_disk r)
    (k_dtrace r) (k_log r) (k_sb r) (k_inodes r) (k_files r) (k_devsw r) (k_pipes r)
    (k_cons r) (k_uart r) (k_prlocking r) (k_panicked r) (k_mmio r) (k_iocsr r).
Definition set_k_bufs (g : list buf -> list buf) (r : kstate) : kstate :=
  mkK (k_cpu r) (k_csr r) (k_locks r) (k_mem r) (k_freelist r) (k_procs r)
    (k_initproc r) (k_nextpid r) (k_first r) (k_ticks r) (g (k_bufs r)) (k_disk r)
    (k_dtrace r) (k_log r) (k_sb r) (k_inodes r) (k_files r) (k_devsw r) (k_pipes r)
    (k_cons r) (k_uart r) (k_prlocking r) (k_panicked r) (k_mmio r) (k_iocsr r).
Definition set_k_disk (g : gmap Z (list Z) -> gmap Z (list Z)) (r : kstate) : kstate :=
  mkK (k_cpu r) (k_csr r) (k_locks r) (k_mem r) (k_freelist r) (k_procs r)
    (k_initproc r) (k_nextpid r) (k_first r) (k_ticks r) (k_bufs r) (g (k_disk r))
    (k_dtrace r) (k_log r) (k_sb r) (k_inodes r) (k_files r) (k_devsw r) (k_pipes r)
    (k_cons r) (k_uart r) (k_prlocking r) (k_panicked r) (k_mmio r) (k_iocsr r).
Definition set_k_dtrace (g : list (Z * list Z) -> list (Z * list Z)) (r : kstate) : kstate :=
  mkK (k_cpu r) (k_csr r) (k_locks r) (k_mem r) (k_freelist r) (k_procs r)
    (k_initproc r) (k_nextpid r) (k_first r) (k_ticks r) (k_bufs r) (k_disk r) (g
    (k_dtrace r)) (k_log r) (k_sb r) (k_inodes r) (k_files r) (k_devsw r) (k_pipes
    r) (k_cons r) (k_uart r) (k_prlocking r) (k_panicked r) (k_mmio r) (k_iocsr r).
Definition set_k_log (g : log -> log) (r : kstate) : kstate :=
  mkK (k_cpu r) (k_csr r) (k_locks r) (k_mem r) (k_freelist r) (k_procs r)
    (k_initproc r) (k_nextpid r) (k_first r) (k_ticks r) (k_bufs r) (k_disk r)
    (k_dtrace r) (g (k_log r)) (k_sb r) (k_inodes r) (k_files r) (k_devsw r)
    (k_pipes r) (k_cons r) (k_uart r) (k_prlocking r) (k_panicked r) (k_mmio r)
    (k_iocsr r).
Definition set_k_sb (g : superblock -> superblock) (r : kstate) : kstate :=
  mkK (k_cpu r) (k_csr r) (k_locks r) (k_mem r) (k_freelist r) (k_procs r)
    (k_initproc r) (k_nextpid r) (k_first r) (k_ticks r) (k_bufs r) (k_disk r)
    (k_dtrace r) (k_log r) (g (k_sb r)) (k_inodes r) (k_files r) (k_devsw r)
    (k_pipes r) (k_cons r) (k_uart r) (k_prlocking r) (k_panicked r) (k_mmio r)
    (k_iocsr r).
Definition set_k_inodes (g : list inode -> list inode) (r : kstate) : kstate :=
  mkK (k_cpu r) (k_csr r) (k_locks r) (k_mem r) (k_freelist r) (k_procs r)
    (k_initproc r) (k_nextpid r) (k_first r) (k_ticks r) (k_bufs r) (k_disk r)
    (k_dtrace r) (k_log r) (k_sb r) (g (k_inodes r)) (k_files r) (k_devsw r)
    (k_pipes r) (k_cons r) (k_uart r) (k_prlocking r) (k_panicked r) (k_mmio r)
    (k_iocsr r).
Definition set_k_files (g : list file -> list file) (r : kstate) : kstate :=
  mkK (k_cpu r) (k_csr r) (k_locks r) (k_mem r) (k_freelist r) (k_procs r)
    (k_initproc r) (k_nextpid r) (k_first r) (k_ticks r) (k_bufs r) (k_disk r)
    (k_dtrace r) (k_log r) (k_sb r) (k_inodes r) (g (k_files r)) (k_devsw r)
    (k_pipes r) (k_cons r) (k_uart r) (k_prlocking r) (k_panicked r) (k_mmio r)
    (k_iocsr r).
Definition set_k_devsw (g : list devsw -> list devsw) (r : kstate) : kstate :=
  mkK (k_cpu r) (k_csr r) (k_locks r) (k_mem r) (k_freelist r) (k_procs r)
    (k_initproc r) (k_nextpid r) (k_first r) (k_ticks r) (k_bufs r) (k_disk r)
    (k_dtrace r) (k_log r) (k_sb r) (k_inodes r) (k_files r) (g (k_devsw r))
    (k_pipes r) (k_cons r) (k_uart r) (k_prlocking r) (k_panicked r) (k_mmio r)
    (k_iocsr r).
Definition set_k_pipes (g : gmap Z pipe -> gmap Z pipe) (r : kstate) : kstate :=
  mkK (k_cpu r) (k_csr r) (k_locks r) (k_mem r) (k_freelist r) (k_procs r)
    (k_initproc r) (k_nextpid r) (k_first r) (k_ticks r) (k_bufs r) (k_disk r)
    (k_dtrace r) (k_log r) (k_sb r) (k_inodes r) (k_files r) (k_devsw r) (g (k_pipes
    r)) (k_cons r) (k_uart r) (k_prlocking r) (k_panicked r) (k_mmio r) (k_iocsr r).
Definition set_k_cons (g : console -> console) (r : kstate) : kstate :=
  mkK (k_cpu r) (k_csr r) (k_locks r) (k_mem r) (k_freelist r) (k_procs r)
    (k_initproc r) (k_nextpid r) (k_first r) (k_ticks r) (k_bufs r) (k_disk r)
    (k_dtrace r) (k_log r) (k_sb r) (k_inodes r) (k_files r) (k_devsw r) (k_pipes r)
    (g (k_cons r)) (k_uart r) (k_prlocking r) (k_panicked r) (k_mmio r) (k_iocsr r).
Definition set_k_uart (g : uart -> uart) (r : kstate) : kstate :=
  mkK (k_cpu r) (k_csr r) (k_locks r) (k_mem r) (k_freelist r) (k_procs r)
    (k_initproc r) (k_nextpid r) (k_first r) (k_ticks r) (k_bufs r) (k_disk r)
    (k_dtrace r) (k_log r) (k_sb r) (k_inodes r) (k_files r) (k_devsw r) (k_pipes r)
    (k_cons r) (g (k_uart r)) (k_prlocking r) (k_panicked r) (k_mmio r) (k_iocsr r).
Definition set_k_prlocking (g : bool -> bool) (r : kstate) : kstate :=
  mkK (k_cpu r) (k_csr r) (k_locks r) (k_mem r) (k_freelist r) (k_procs r)
    (k_initproc r) (k_nextpid r) (k_first r) (k_ticks r) (k_bufs r) (k_disk r)
    (k_dtrace r) (k_log r) (k_sb r) (k_inodes r) (k_files r) (k_devsw r) (k_pipes r)
    (k_cons r) (k_uart r) (g (k_prlocking r)) (k_panicked r) (k_mmio r) (k_iocsr r).
Definition set_k_panicked (g : bool -> bool) (r : kstate) : kstate :=
  mkK (k_cpu r) (k_csr r) (k_locks r) (k_mem r) (k_freelist r) (k_procs r)
    (k_initproc r) (k_nextpid r) (k_first r) (k_ticks r) (k_bufs r) (k_disk r)
    (k_dtrace r) (k_log r) (k_sb r) (k_inodes r) (k_files r) (k_devsw r) (k_pipes r)
    (k_cons r) (k_uart r) (k_prlocking r) (g (k_panicked r)) (k_mmio r) (k_iocsr r).
Definition set_k_mmio (g : list (Z * Z) -> list (Z * Z)) (r : kstate) : kstate :=
  mkK (k_cpu r) (k_csr r) (k_locks r) (k_mem r) (k_freelist r) (k_procs r)
    (k_initproc r) (k_nextpid r) (k_first r) (k_ticks r) (k_bufs r) (k_disk r)
    (k_dtrace r) (k_log r) (k_sb r) (k_inodes r) (k_files r) (k_devsw r) (k_pipes r)
    (k_cons r) (k_uart r) (k_prlocking r) (k_panicked r) (g (k_mmio r)) (k_iocsr r).
Definition set_k_iocsr (g : gmap Z Z -> gmap Z Z) (r : kstate) : kstate :=
  mkK (k_cpu r) (k_csr r) (k_locks r) (k_mem r) (k_freelist r) (k_procs r)
    (k_initproc r) (k_nextpid r) (k_first r) (k_ticks r) (k_bufs r) (k_disk r)
    (k_dtrace r) (k_log r) (k_sb r) (k_inodes r) (k_files r) (k_devsw r) (k_pipes r)
    (k_cons r) (k_uart r) (k_prlocking r) (k_panicked r) (k_mmio r) (g (k_iocsr r)).

Definition K (A : Type) : Type := M kstate A.

(** An update is determined by the value it leaves in its field. *)
Lemma set_k_cpu_ext f g s : f (k_cpu s) = g (k_cpu s) -> set_k_cpu f s = set_k_cpu g s.
Proof. unfold set_k_cpu. by intros ->. Qed.
Lemma set_k_cpu_id f s : f (k_cpu s) = k_cpu s -> set_k_cpu f s = s.
Proof. unfold set_k_cpu. by intros ->. Qed.
Lemma set_set_k_cpu f g s : set_k_cpu f (set_k_cpu g s) = set_k_cpu (fun x => f (g x)) s.
Proof. reflexivity. Qed.
Lemma set_k_csr_ext f g s : f (k_csr s) = g (k_csr s) -> set_k_csr f s = set_k_csr g s.
Proof. unfold set_k_csr. by intros ->. Qed.
Lemma set_k_csr_id f s : f (k_csr s) = k_csr s -> set_k_csr f s = s.
Proof. unfold set_k_csr. by intros ->. Qed.
Lemma set_set_k_csr f g s : set_k_csr f (set_k_csr g s) = set_k_csr (fun x => f (g x)) s.
Proof. reflexivity. Qed.
Lemma set_k_locks_ext f g s : f (k_locks s) = g (k_locks s) -> set_k_locks f s = set_k_locks g s.
Proof. unfold set_k_locks. by intros ->. Qed.
Lemma set_k_locks_id f s : f (k_locks s) = k_locks s -> set_k_locks f s = s.
Proof. unfold set_k_locks. by intros ->. Qed.
Lemma set_set_k_locks f g s : set_k_locks f (set_k_locks g s) = set_k_locks (fun x => f (g x)) s.
Proof. reflexivity. Qed.
Lemma set_k_mem_ext f g s : f (k_mem s) = g (k_mem s) -> set_k_mem f s = set_k_mem g s.
Proof. unfold set_k_mem. by intros ->. Qed.
Lemma set_k_mem_id f s : f (k_mem s) = k_mem s -> set_k_mem f s = s.
Proof. unfold set_k_mem. by intros ->. Qed.
Lemma set_set_k_mem f g s : set_k_mem f (set_k_mem g s) = set_k_mem (fun x => f (g x)) s.
Proof. reflexivity. Qed.
Lemma set_k_freelist_ext f g s : f (k_freelist s) = g (k_freelist s) -> set_k_freelist f s = set_k_freelist g s.
Proof. unfold set_k_freelist. by intros ->. Qed.
Lemma set_k_freelist_id f s : f (k_freelist s) = k_freelist s -> set_k_freelist f s = s.
Proof. unfold set_k_freelist. by intros ->. Qed.
Lemma set_set_k_freelist f g s : set_k_freelist f (set_k_freelist g s) = set_k_freelist (fun x => f (g x)) s.
Proof. reflexivity. Qed.
Lemma set_k_procs_ext f g s : f (k_procs s) = g (k_procs s) -> set_k_procs f s = set_k_procs g s.
Proof. unfold set_k_procs. by intros ->. Qed.
Lemma set_k_procs_id f s : f (k_procs s) = k_procs s -> set_k_procs f s = s.
Proof. unfold set_k_procs. by intros ->. Qed.
Lemma set_set_k_procs f g s : set_k_procs f (set_k_procs g s) = set_k_procs (fun x => f (g x)) s.
Proof. reflexivity. Qed.
Lemma set_k_initproc_ext f g s : f (k_initproc s) = g (k_initproc s) -> set_k_initproc f s = set_k_initproc g s.
Proof. unfold set_k_initproc. by intros ->. Qed.
Lemma set_k_initproc_id f s : f (k_initproc s) = k_initproc s -> set_k_initproc f s = s.
Proof. unfold set_k_initproc. by intros ->. Qed.
Lemma set_set_k_initproc f g s : set_k_initproc f (set_k_initproc g s) = set_k_initproc (fun x => f (g x)) s.
Proof. reflexivity. Qed.
Lemma set_k_nextpid_ext f g s : f (k_nextpid s) = g (k_nextpid s) -> set_k_nextpid f s = set_k_nextpid g s.
Proof. unfold set_k_nextpid. by intros ->. Qed.
Lemma set_k_nextpid_id f s : f (k_nextpid s) = k_nextpid s -> set_k_nextpid f s = s.
Proof. unfold set_k_nextpid. by intros ->. Qed.
Lemma set_set_k_nextpid f g s : set_k_nextpid f (set_k_nextpid g s) = set_k_nextpid (fun x => f (g x)) s.
Proof. reflexivity. Qed.
Lemma set_k_first_ext f g s : f (k_first s) = g (k_first s) -> set_k_first f s = set_k_first g s.
Proof. unfold set_k_first. by intros ->. Qed.
Lemma set_k_first_id f s : f (k_first s) = k_first s -> set_k_first f s = s.
Proof. unfold set_k_first. by intros ->. Qed.
Lemma set_set_k_first f g s : set_k_first f (set_k_first g s) = set_k_first (fun x => f (g x)) s.
Proof. reflexivity. Qed.
Lemma set_k_ticks_ext f g s : f (k_ticks s) = g (k_ticks s) -> set_k_ticks f s = set_k_ticks g s.
Proof. unfold set_k_ticks. by intros ->. Qed.
Lemma set_k_ticks_id f s : f (k_ticks s) = k_ticks s -> set_k_ticks f s = s.
Proof. unfold set_k_ticks. by intros ->. Qed.
Lemma set_set_k_ticks f g s : set_k_ticks f (set_k_ticks g s) = set_k_ticks (fun x => f (g x)) s.
Proof. reflexivity. Qed.
Lemma set_k_bufs_ext f g s : f (k_bufs s) = g (k_bufs s) -> set_k_bufs f s = set_k_bufs g s.
Proof. unfold set_k_bufs. by intros ->. Qed.
Lemma set_k_bufs_id f s : f (k_bufs s) = k_bufs s -> set_k_bufs f s = s.
Proof. unfold set_k_bufs. by intros ->. Qed.
Lemma set_set_k_bufs f g s : set_k_bufs f (set_k_bufs g s) = set_k_bufs (fun x => f (g x)) s.
Proof. reflexivity. Qed.
Lemma set_k_disk_ext f g s : f (k_disk s) = g (k_disk s) -> set_k_disk f s = set_k_disk g s.
Proof. unfold set_k_disk. by intros ->. Qed.
Lemma set_k_disk_id f s : f (k_disk s) = k_disk s -> set_k_disk f s = s.
Proof. unfold set_k_disk. by intros ->. Qed.
Lemma set_set_k_disk f g s : set_k_disk f (set_k_disk g s) = set_k_disk (fun x => f (g x)) s.
Proof. reflexivity. Qed.
Lemma set_k_dtrace_ext f g s : f (k_dtrace s) = g (k_dtrace s) -> set_k_dtrace f s = set_k_dtrace g s.
Proof. unfold set_k_dtrace. by intros ->. Qed.
Lemma set_k_dtrace_id f s : f (k_dtrace s) = k_dtrace s -> set_k_dtrace f s = s.
Proof. unfold set_k_dtrace. by intros ->. Qed.
Lemma set_set_k_dtrace f g s : set_k_dtrace f (set_k_dtrace g s) = set_k_dtrace (fun x => f (g x)) s.
Proof. reflexivity. Qed.
Lemma set_k_log_ext f g s : f (k_log s) = g (k_log s) -> set_k_log f s = set_k_log g s.
Proof. unfold set_k_log. by intros ->. Qed.
Lemma set_k_log_id f s : f (k_log s) = k_log s -> set_k_log f s = s.
Proof. unfold set_k_log. by intros ->. Qed.
Lemma set_set_k_log f g s : set_k_log f (set_k_log g s) = set_k_log (fun x => f (g x)) s.
Proof. reflexivity. Qed.
Lemma set_k_sb_ext f g s : f (k_sb s) = g (k_sb s) -> set_k_sb f s = set_k_sb g s.
Proof. unfold set_k_sb. by intros ->. Qed.
Lemma set_k_sb_id f s : f (k_sb s) = k_sb s -> set_k_sb f s = s.
Proof. unfold set_k_sb. by intros ->. Qed.
Lemma set_set_k_sb f g s : set_k_sb f (set_k_sb g s) = set_k_sb (fun x => f (g x)) s.
Proof. reflexivity. Qed.
Lemma set_k_inodes_ext f g s : f (k_inodes s) = g (k_inodes s) -> set_k_inodes f s = set_k_inodes g s.
Proof. unfold set_k_inodes. by intros ->. Qed.
Lemma set_k_inodes_id f s : f (k_inodes s) = k_inodes s -> set_k_inodes f s = s.
Proof. unfold set_k_inodes. by intros ->. Qed.
Lemma set_set_k_inodes f g s : set_k_inodes f (set_k_inodes g s) = set_k_inodes (fun x => f (g x)) s.
Proof. reflexivity. Qed.
Lemma set_k_files_ext f g s : f (k_files s) = g (k_files s) -> set_k_files f s = set_k_files g s.
Proof. unfold set_k_files. by intros ->. Qed.
Lemma set_k_files_id f s : f (k_files s) = k_files s -> set_k_files f s = s.
Proof. unfold set_k_files. by intros ->. Qed.
Lemma set_set_k_files f g s : set_k_files f (set_k_files g s) = set_k_files (fun x => f (g x)) s.
Proof. reflexivity. Qed.
Lemma set_k_devsw_ext f g s : f (k_devsw s) = g (k_devsw s) -> set_k_devsw f s = set_k_devsw g s.
Proof. unfold set_k_devsw. by intros ->. Qed.
Lemma set_k_devsw_id f s : f (k_devsw s) = k_devsw s -> set_k_devsw f s = s.
Proof. unfold set_k_devsw. by intros ->. Qed.
Lemma set_set_k_devsw f g s : set_k_devsw f (set_k_devsw g s) = set_k_devsw (fun x => f (g x)) s.
Proof. reflexivity. Qed.
Lemma set_k_pipes_ext f g s : f (k_pipes s) = g (k_pipes s) -> set_k_pipes f s = set_k_pipes g s.
Proof. unfold set_k_pipes. by intros ->. Qed.
Lemma set_k_pipes_id f s : f (k_pipes s) = k_pipes s -> set_k_pipes f s = s.
Proof. unfold set_k_pipes. by intros ->. Qed.
Lemma set_set_k_pipes f g s : set_k_pipes f (set_k_pipes g s) = set_k_pipes (fun x => f (g x)) s.
Proof. reflexivity. Qed.
Lemma set_k_cons_ext f g s : f (k_cons s) = g (k_cons s) -> set_k_cons f s = set_k_cons g s.
Proof. unfold set_k_cons. by intros ->. Qed.
Lemma set_k_cons_id f s : f (k_cons s) = k_cons s -> set_k_cons f s = s.
Proof. unfold set_k_cons. by intros ->. Qed.
Lemma set_set_k_cons f g s : set_k_cons f (set_k_cons g s) = set_k_cons (fun x => f (g x)) s.
Proof. reflexivity. Qed.
Lemma set_k_uart_ext f g s : f (k_uart s) = g (k_uart s) -> set_k_uart f s = set_k_uart g s.
Proof. unfold set_k_uart. by intros ->. Qed.
Lemma set_k_uart_id f s : f (k_uart s) = k_uart s -> set_k_uart f s = s.
Proof. unfold set_k_uart. by intros ->. Qed.
Lemma set_set_k_uart f g s : set_k_uart f (set_k_uart g s) = set_k_uart (fun x => f (g x)) s.
Proof. reflexivity. Qed.
Lemma set_k_prlocking_ext f g s : f (k_prlocking s) = g (k_prlocking s) -> set_k_prlocking f s = set_k_prlocking g s.
Proof. unfold set_k_prlocking. by intros ->. Qed.
Lemma set_k_prlocking_id f s : f (k_prlocking s) = k_prlocking s -> set_k_prlocking f s = s.
Proof. unfold set_k_prlocking. by intros ->. Qed.
Lemma set_set_k_prlocking f g s : set_k_prlocking f (set_k_prlocking g s) = set_k_prlocking (fun x => f (g x)) s.
Proof. reflexivity. Qed.
Lemma set_k_panicked_ext f g s : f (k_panicked s) = g (k_panicked s) -> set_k_panicked f s = set_k_panicked g s.
Proof. unfold set_k_panicked. by intros ->. Qed.
Lemma set_k_panicked_id f s : f (k_panicked s) = k_panicked s -> set_k_panicked f s = s.
Proof. unfold set_k_panicked. by intros ->. Qed.
Lemma set_set_k_panicked f g s : set_k_panicked f (set_k_panicked g s) = set_k_panicked (fun x => f (g x)) s.
Proof. reflexivity. Qed.
Lemma set_k_mmio_ext f g s : f (k_mmio s) = g (k_mmio s) -> set_k_mmio f s = set_k_mmio g s.
Proof. unfold set_k_mmio. by intros ->. Qed.
Lemma set_k_mmio_id f s : f (k_mmio s) = k_mmio s -> set_k_mmio f s = s.
Proof. unfold set_k_mmio. by intros ->. Qed.
Lemma set_set_k_mmio f g s : set_k_mmio f (set_k_mmio g s) = set_k_mmio (fun x => f (g x)) s.
Proof. reflexivity. Qed.
Lemma set_k_iocsr_ext f g s : f (k_iocsr s) = g (k_iocsr s) -> set_k_iocsr f s = set_k_iocsr g s.
Proof. unfold set_k_iocsr. by intros ->. Qed.
Lemma set_k_iocsr_id f s : f (k_iocsr s) = k_iocsr s -> set_k_iocsr f s = s.
Proof. unfold set_k_iocsr. by intros ->. Qed.
Lemma set_set_k_iocsr f g s : set_k_iocsr f (set_k_iocsr g s) = set_k_iocsr (fun x => f (g x)) s.
Proof. reflexivity. Qed.

(** ** Zero-initialised data: the state of the kernel's BSS at boot *)

Definition spinlock0 : spinlock := mkspinlock 0 "" None.
Definition sleeplock0 : sleeplock := mksleeplock 0 "" 0.
Definition context0 : context := mkcontext 0 0 (replicate 10 0).
Definition proc0 : proc :=
  mkproc UNUSED CH_null 0 0 0 None 0 0 0 0 context0 (replicate NOFILE None) None (replicate 16 0).
Definition zeroblock : list Z := replicate 1024 0.
Definition buf0 : buf := mkbuf false 0 0 0 sleeplock0 0 0 0 zeroblock.
Definition inode0 : inode :=
  mkinode 0 0 0 sleeplock0 false 0 0 0 0 0 (replicate 13 0).
Definition file0 : file := mkfile FD_NONE 0 false false 0 None 0 0.
Definition pipe0 : pipe := mkpipe (replicate 512 0) 0 0 0 0.
Definition devsw0 : devsw := mkdevsw None None.

#[export] Instance proc_inhabited : Inhabited proc := populate proc0.
#[export] Instance buf_inhabited : Inhabited buf := populate buf0.
#[export] Instance inode_inhabited : Inhabited inode := populate inode0.
#[export] Instance file_inhabited : Inhabited file := populate file0.
#[export] Instance pipe_inhabited : Inhabited pipe := populate pipe0.
#[export] Instance devsw_inhabited : Inhabited devsw := populate devsw0.

(** The boot state: all tables zero, the given disk image in memory. *)
Definition kstate0 (disk : gmap Z (list Z)) (uart_lsr uart_rhr : list Z) : kstate :=
  mkK (mkcpu None 0 false)
      (mkcsr 0 0 0 0 0 0 0 0 0 0 0 0 0 0 0 0 0 0)
      ∅ ∅ 0
      (replicate NPROC proc0) None 1 true
      0
      (replicate (S NBUF) buf0) disk []
      (mklog 0 0 0 false 0 0 (replicate 30 0))
      (mksb 0 0 0 0 0 0 0 0)
      (replicate NINODE inode0)
      (replicate NFILE file0) (replicate 10 devsw0) ∅
      (mkcons (replicate 128 0) 0 0 0)
      (mkuart (replicate 32 0) 0 0 uart_lsr uart_rhr [])
      false false [] ∅.

(** ** Kernel stacks and read-only data

    A local variable whose address is taken is at a fixed offset of the
    kernel stack of the running process ([stack0] while the kernel boots).
    The string literals the kernel passes by address are in its image. *)
Definition KERNIMG : Z := 0x9000000000200000.
Definition stack0 : Z := KERNIMG + 0x100000.
Definition stack_base (s : kstate) : Z :=
  match c_proc (k_cpu s) with
  | Some p => KSTACK (Z.of_nat p)
  | None => stack0
  end.
Definition local (off : Z) : K Z := gets (fun s => stack_base s + off).

(** ["/"], ["."] and [".."] *)
Definition lit_root : Z := KERNIMG + 0x80000.
Definition lit_dot : Z := lit_root + 8.
Definition lit_dotdot : Z := lit_root + 16.
Definition rodata : list (Z * list Z) :=
  [(lit_root, [47; 0]); (lit_dot, [46; 0]); (lit_dotdot, [46; 46; 0])].

(** ** Access to the tables *)

Definition getproc (i : nat) : K proc := gets (fun s => k_procs s !!! i).
Definition setproc (i : nat) (g : proc -> proc) : K unit :=
  modify (set_k_procs (alter g i)).
Definition getbuf (i : nat) : K buf := gets (fun s => k_bufs s !!! i).
Definition setbuf (i : nat) (g : buf -> buf) : K unit :=
  modify (set_k_bufs (alter g i)).
Definition getinode (i : nat) : K inode := gets (fun s => k_inodes s !!! i).
Definition setinode (i : nat) (g : inode -> inode) : K unit :=
  modify (set_k_inodes (alter g i)).
Definition getfile (i : nat) : K file := gets (fun s => k_files s !!! i).
Definition setfile (i : nat) (g : file -> file) : K unit :=
  modify (set_k_files (alter g i)).
Definition getpipe (a : Z) : K pipe := gets (fun s => default pipe0 (k_pipes s !! a)).
Definition setpipe (a : Z) (g : pipe -> pipe) : K unit :=
  modify (set_k_pipes (fun m => <[a := g (default pipe0 (m !! a))]> m)).
