(* ===== verification/CString.v ===== *)
(** * Byte memory and the kernel's C library ([kernel/string.c])

    Memory is a finite map from addresses to bytes; an address that was never
    written reads as zero. The functions are those of [kernel/string.c],
    loop by loop; the theorems say what each leaves in memory. *)

From stdpp Require Import gmap strings list.
From Stdlib Require Import ZArith Lia.
From S2P Require Import Prelude.
Open Scope Z_scope.

Abbreviation mem := (gmap Z Z).

Definition ld8 (m : mem) (a : Z) : Z := default 0 (m !! a).
Definition st8 (a v : Z) (m : mem) : mem := <[a := u8 v]> m.

(** Runs of bytes. *)
Fixpoint ldbytes (m : mem) (a : Z) (n : nat) : list Z :=
  match n with
  | O => []
  | S n' => ld8 m a :: ldbytes m (a + 1) n'
  end.

Fixpoint stbytes (a : Z) (l : list Z) (m : mem) : mem :=
  match l with
  | [] => m
  | b :: t => stbytes (a + 1) t (st8 a b m)
  end.

(** Aligned 64-bit words. *)
Definition ld64 (m : mem) (a : Z) : Z := le_dec (ldbytes m a 8).
Definition st64 (a v : Z) (m : mem) : mem := stbytes a (le_enc 8 v) m.

Module CString.

(** [memset] *)
Fixpoint memset_loop (m : mem) (cdst c i : Z) (k : nat) : mem :=
  match k with
  | O => m
  | S k' => memset_loop (st8 (cdst + i) c m) cdst c (i + 1) k'
  end.

Definition memset (m : mem) (dst c n : Z) : mem :=
  memset_loop m dst c 0 (Z.to_nat (u32 n)).

(** [memcmp] *)
Fixpoint memcmp_loop (m : mem) (s1 s2 : Z) (n : nat) : Z :=
  match n with
  | O => 0
  | S n' =>
      if negb (ld8 m s1 =? ld8 m s2) then ld8 m s1 - ld8 m s2
      else memcmp_loop m (s1 + 1) (s2 + 1) n'
  end.

Definition memcmp (m : mem) (v1 v2 n : Z) : Z := memcmp_loop m v1 v2 (Z.to_nat (u32 n)).

(** [memmove]: the two copy loops, upwards and downwards. *)
Fixpoint copy_up (m : mem) (d s : Z) (n : nat) : mem :=
  match n with
  | O => m
  | S n' => copy_up (st8 d (ld8 m s) m) (d + 1) (s + 1) n'
  end.

Fixpoint copy_down (m : mem) (d s : Z) (n : nat) : mem :=
  match n with
  | O => m
  | S n' => copy_down (st8 (d - 1) (ld8 m (s - 1)) m) (d - 1) (s - 1) n'
  end.

Definition memmove (m : mem) (dst src n : Z) : mem :=
  let n := u32 n in
  if n =? 0 then m
  else if (src <? dst) && (src + n >? dst)
       then copy_down m (dst + n) (src + n) (Z.to_nat n)
       else copy_up m dst src (Z.to_nat n).

Definition memcpy (m : mem) (dst src n : Z) : mem := memmove m dst src n.

(** [strncmp] *)
Fixpoint strncmp_loop (m : mem) (p q : Z) (n : nat) : Z :=
  match n with
  | O => 0
  | S n' =>
      if negb (ld8 m p =? 0) && (ld8 m p =? ld8 m q)
      then strncmp_loop m (p + 1) (q + 1) n'
      else ld8 m p - ld8 m q
  end.

Definition strncmp (m : mem) (p q n : Z) : Z := strncmp_loop m p q (Z.to_nat (u32 n)).

(** [strncpy]: the copy loop returns the destination and the count left. *)
Fixpoint strncpy_fill (m : mem) (s : Z) (n : nat) : mem :=
  match n with
  | O => m
  | S n' => strncpy_fill (st8 s 0 m) (s + 1) n'
  end.

Fixpoint strncpy_copy (m : mem) (s t : Z) (n : nat) : mem :=
  match n with
  | O => m
  | S n' =>
      let c := ld8 m t in
      let m' := st8 s c m in
      if c =? 0 then strncpy_fill m' (s + 1) n'
      else strncpy_copy m' (s + 1) (t + 1) n'
  end.

Definition strncpy (m : mem) (s t n : Z) : mem := strncpy_copy m s t (Z.to_nat n).

(** [safestrcpy]: [k] is the value of [n - 1] at the loop test. *)
Fixpoint safestrcpy_loop (m : mem) (s t : Z) (k : nat) : mem :=
  match k with
  | O => st8 s 0 m
  | S k' =>
      let c := ld8 m t in
      let m' := st8 s c m in
      if c =? 0 then st8 (s + 1) 0 m' else safestrcpy_loop m' (s + 1) (t + 1) k'
  end.

Definition safestrcpy (m : mem) (s t n : Z) : mem :=
  if n <=? 0 then m else safestrcpy_loop m s t (Z.to_nat (n - 1)).

(** [strlen]; the fuel bounds the length of the string. *)
Fixpoint strlen_loop (m : mem) (s n : Z) (fuel : nat) : option Z :=
  match fuel with
  | O => None
  | S f => if ld8 m (s + n) =? 0 then Some n else strlen_loop m s (n + 1) f
  end.

Definition strlen (fuel : nat) (m : mem) (s : Z) : option Z := strlen_loop m s 0 fuel.

End CString.
Import CString.

(** ** Reading and writing memory *)

(** Every byte in memory is a byte. *)
Definition mem_ok (m : mem) : Prop := forall a, byte_range (ld8 m a).

Lemma ld8_st8 m a v b : ld8 (st8 a v m) b = if decide (a = b) then u8 v else ld8 m b.
Proof. unfold ld8, st8. rewrite lookup_insert. by destruct (decide (a = b)). Qed.

Lemma ld8_st8_eq m a v : ld8 (st8 a v m) a = u8 v.
Proof. rewrite ld8_st8. by rewrite decide_True. Qed.

Lemma ld8_st8_ne m a v b : a <> b -> ld8 (st8 a v m) b = ld8 m b.
Proof. intros. rewrite ld8_st8. by rewrite decide_False. Qed.

Lemma mem_ok_empty : mem_ok ∅.
Proof. intros a. unfold ld8. rewrite lookup_empty. unfold byte_range. simpl. lia. Qed.

Lemma mem_ok_st8 m a v : mem_ok m -> mem_ok (st8 a v m).
Proof. intros H b. rewrite ld8_st8. destruct (decide _); auto using u8_range. Qed.

Lemma mem_ok_stbytes a l m : mem_ok m -> mem_ok (stbytes a l m).
Proof. revert a m. induction l; simpl; intros; auto using mem_ok_st8. Qed.

Lemma length_ldbytes m a n : length (ldbytes m a n) = n.
Proof. revert a. induction n; simpl; auto. Qed.

Lemma ldbytes_ok m a n : mem_ok m -> Forall byte_range (ldbytes m a n).
Proof. intros H. revert a. induction n; simpl; constructor; auto. Qed.

Lemma ldbytes_lookup m a n i :
  (i < n)%nat -> ldbytes m a n !! i = Some (ld8 m (a + Z.of_nat i)).
Proof.
  revert a i. induction n as [|n IH]; intros a [|i] Hi; simpl; try lia.
  - do 2 f_equal. lia.
  - rewrite IH by lia. do 2 f_equal. lia.
Qed.

Lemma ldbytes_ext m m' a n :
  (forall b, a <= b < a + Z.of_nat n -> ld8 m b = ld8 m' b) -> ldbytes m a n = ldbytes m' a n.
Proof.
  revert a. induction n as [|n IH]; intros a H; simpl; [done|]. f_equal.
  - apply H. lia.
  - apply IH. intros. apply H. lia.
Qed.

Lemma ldbytes_app m a n k :
  ldbytes m a (n + k) = ldbytes m a n ++ ldbytes m (a + Z.of_nat n) k.
Proof.
  revert a. induction n as [|n IH]; intros a; simpl.
  - do 2 f_equal. lia.
  - rewrite IH. do 3 f_equal. lia.
Qed.

Lemma ld8_stbytes_out a l m b :
  b < a \/ a + Z.of_nat (length l) <= b -> ld8 (stbytes a l m) b = ld8 m b.
Proof.
  revert a m. induction l as [|x l IH]; intros a m H; simpl in *; [done|].
  rewrite IH by lia. apply ld8_st8_ne. lia.
Qed.

Lemma ld8_stbytes_in a l m i x :
  l !! i = Some x -> ld8 (stbytes a l m) (a + Z.of_nat i) = u8 x.
Proof.
  revert a m i. induction l as [|y l IH]; intros a m [|i] H; simplify_eq/=.
  - rewrite ld8_stbytes_out by lia. rewrite ld8_st8, decide_True by lia. done.
  - replace (a + Z.of_nat (S i)) with (a + 1 + Z.of_nat i) by lia. by apply IH.
Qed.

Lemma ldbytes_stbytes_same a l m :
  Forall byte_range l -> ldbytes (stbytes a l m) a (length l) = l.
Proof.
  intros Hl. apply list_eq_same_length with (length l); rewrite ?length_ldbytes; auto.
  intros i x y Hi Hx Hy. rewrite ldbytes_lookup in Hx by lia.
  rewrite (ld8_stbytes_in _ _ _ _ y) in Hx by done. simplify_eq.
  apply u8_small. by eapply Forall_lookup_1.
Qed.

Lemma ldbytes_stbytes_disj a l m b n :
  b + Z.of_nat n <= a \/ a + Z.of_nat (length l) <= b ->
  ldbytes (stbytes a l m) b n = ldbytes m b n.
Proof. intros. apply ldbytes_ext. intros. apply ld8_stbytes_out. lia. Qed.

Lemma ld64_st64_same a v m : ld64 (st64 a v m) a = u64 v.
Proof.
  unfold ld64, st64. rewrite <- (length_le_enc 8 v) at 1.
  rewrite ldbytes_stbytes_same by apply le_enc_bytes. apply (le_dec_enc 8).
Qed.

Lemma ld64_stbytes_disj a b l m :
  b + 8 <= a \/ a + Z.of_nat (length l) <= b -> ld64 (stbytes a l m) b = ld64 m b.
Proof. intros. unfold ld64. by rewrite ldbytes_stbytes_disj by lia. Qed.

Lemma ld64_st64_other a b v m :
  b + 8 <= a \/ a + 8 <= b -> ld64 (st64 a v m) b = ld64 m b.
Proof. intros. apply ld64_stbytes_disj. rewrite length_le_enc. lia. Qed.

Lemma ld8_st64_out a v m b : b < a \/ a + 8 <= b -> ld8 (st64 a v m) b = ld8 m b.
Proof. intros. apply ld8_stbytes_out. rewrite length_le_enc. lia. Qed.

(** Inside the word, the result does not depend on the memory before. *)
Lemma ld8_st64_in a v m m' b : a <= b < a + 8 -> ld8 (st64 a v m) b = ld8 (st64 a v m') b.
Proof.
  intros Hb. destruct (lookup_lt_is_Some_2 (le_enc 8 v) (Z.to_nat (b - a))) as [x Hx]; [rewrite length_le_enc; lia|].
  unfold st64. replace b with (a + Z.of_nat (Z.to_nat (b - a))) by lia.
  by rewrite (ld8_stbytes_in _ _ m _ x), (ld8_stbytes_in _ _ m' _ x) by done.
Qed.

Lemma mem_ok_st64 a v m : mem_ok m -> mem_ok (st64 a v m).
Proof. apply mem_ok_stbytes. Qed.

Lemma ld64_range m a : mem_ok m -> 0 <= ld64 m a < 2 ^ 64.
Proof.
  intros H. pose proof (le_dec_range (ldbytes m a 8) (ldbytes_ok m a 8 H)) as Hr.
  rewrite length_ldbytes in Hr. exact Hr.
Qed.

Lemma ld64_ext m m' a :
  (forall b, a <= b < a + 8 -> ld8 m b = ld8 m' b) -> ld64 m a = ld64 m' a.
Proof. intros. unfold ld64. f_equal. by apply ldbytes_ext. Qed.

(** ** What the functions do *)

Lemma ld8_memset_loop m cdst c i k a :
  ld8 (memset_loop m cdst c i k) a =
  if decide (cdst + i <= a < cdst + i + Z.of_nat k) then u8 c else ld8 m a.
Proof.
  revert m i. induction k as [|k IH]; intros m i; cbn [memset_loop].
  - rewrite decide_False by lia. done.
  - rewrite IH, ld8_st8. repeat case_decide; done || lia.
Qed.

Lemma ld8_memset m dst c n a :
  0 <= n < 2 ^ 32 ->
  ld8 (memset m dst c n) a = if decide (dst <= a < dst + n) then u8 c else ld8 m a.
Proof.
  intros. unfold memset. rewrite ld8_memset_loop, u32_small, Z2Nat.id by lia.
  repeat case_decide; done || lia.
Qed.

Lemma mem_ok_memset m dst c n : mem_ok m -> mem_ok (memset m dst c n).
Proof.
  unfold memset. generalize 0 (Z.to_nat (u32 n)). intros i k. revert m i.
  induction k; simpl; auto using mem_ok_st8.
Qed.

Lemma ld8_copy_up m d s n a :
  mem_ok m -> d <= s \/ s + Z.of_nat n <= d ->
  ld8 (copy_up m d s n) a =
  if decide (d <= a < d + Z.of_nat n) then ld8 m (s + (a - d)) else ld8 m a.
Proof.
  revert m d s. induction n as [|n IH]; intros m d s Hm H; cbn [copy_up].
  - by rewrite decide_False by lia.
  - rewrite IH by (auto using mem_ok_st8 || lia). rewrite !ld8_st8, u8_small by done.
    repeat case_decide; try lia; try done.
    + f_equal. lia.
    + subst. f_equal. lia.
Qed.

Lemma ld8_copy_down m d s n a :
  mem_ok m -> s <= d \/ d <= s - Z.of_nat n ->
  ld8 (copy_down m d s n) a =
  if decide (d - Z.of_nat n <= a < d) then ld8 m (s + (a - d)) else ld8 m a.
Proof.
  revert m d s. induction n as [|n IH]; intros m d s Hm H; cbn [copy_down].
  - by rewrite decide_False by lia.
  - rewrite IH by (auto using mem_ok_st8 || lia). rewrite !ld8_st8, u8_small by done.
    repeat case_decide; try lia; try done.
    + f_equal. lia.
    + subst. f_equal. lia.
Qed.

Lemma ld8_memmove m dst src n a :
  mem_ok m -> 0 <= n < 2 ^ 32 ->
  ld8 (memmove m dst src n) a =
  if decide (dst <= a < dst + n) then ld8 m (src + (a - dst)) else ld8 m a.
Proof.
  intros Hm Hn. unfold memmove. rewrite u32_small by lia.
  destruct (Z.eqb_spec n 0) as [->|]; [by rewrite decide_False by lia|].
  destruct (Z.ltb_spec src dst), (Z.gtb_spec (src + n) dst); cbn [andb].
  2-4: by rewrite ld8_copy_up, Z2Nat.id by (done || lia).
  rewrite ld8_copy_down, Z2Nat.id by (done || lia).
  replace (dst + n - n) with dst by lia.
  case_decide; [|done]. f_equal. lia.
Qed.

Lemma ldbytes_eq m m' a b n :
  (forall i, 0 <= i < Z.of_nat n -> ld8 m (a + i) = ld8 m' (b + i)) ->
  ldbytes m a n = ldbytes m' b n.
Proof.
  revert a b. induction n as [|n IH]; intros a b H; simpl; [done|]. f_equal.
  - specialize (H 0 ltac:(lia)). by rewrite !Z.add_0_r in H.
  - apply IH. intros i Hi. specialize (H (1 + i) ltac:(lia)). by rewrite !Z.add_assoc in H.
Qed.

Lemma ld64_zero m a : (forall i, 0 <= i < 8 -> ld8 m (a + i) = 0) -> ld64 m a = 0.
Proof.
  intros H. unfold ld64. rewrite (ldbytes_eq m ∅ a 0 8); [reflexivity|].
  intros i Hi. rewrite H by lia. unfold ld8. by rewrite lookup_empty.
Qed.

(** [memmove] leaves in the [n] bytes at [dst] what the [n] bytes at [src]
    held before the call, whatever the overlap of the two, and no byte outside
    the destination changes. *)
Theorem memmove_correct m dst src n :
  mem_ok m -> 0 <= n < 2 ^ 32 ->
  ldbytes (memmove m dst src n) dst (Z.to_nat n) = ldbytes m src (Z.to_nat n) /\
  (forall a, ~ (dst <= a < dst + n) -> ld8 (memmove m dst src n) a = ld8 m a).
Proof.
  intros Hm Hn. split.
  - apply ldbytes_eq. intros i Hi. rewrite ld8_memmove, decide_True by (done || lia).
    f_equal. lia.
  - intros a Ha. by rewrite ld8_memmove, decide_False.
Qed.

Lemma memmove_correct_witness :
  ldbytes (memmove (stbytes 100 [1; 2; 3; 4] ∅) 101 100 3) 101 3 = [1; 2; 3].
Proof.
  refine (eq_trans (proj1 (memmove_correct (stbytes 100 [1; 2; 3; 4] ∅) 101 100 3 _ _)) _).
  - apply mem_ok_stbytes, mem_ok_empty.
  - lia.
  - vm_compute. reflexivity.
Defined.

(** A NUL-terminated string of [k] non-NUL bytes at [s]. *)
Definition cstr_at (m : mem) (s : Z) (k : nat) : Prop :=
  (forall i, 0 <= i < Z.of_nat k -> ld8 m (s + i) <> 0) /\ ld8 m (s + Z.of_nat k) = 0.

Lemma strlen_loop_spec m s k n fuel :
  cstr_at m s k -> 0 <= n <= Z.of_nat k -> Z.of_nat k - n < Z.of_nat fuel ->
  strlen_loop m s n fuel = Some (Z.of_nat k).
Proof.
  intros [Hnz Hz]. revert n. induction fuel as [|f IH]; intros n Hn Hf; cbn [strlen_loop]; [lia|].
  destruct (Z.eqb_spec (ld8 m (s + n)) 0) as [E|E].
  - destruct (decide (n = Z.of_nat k)) as [->|]; [done|]. destruct (Hnz n); [lia|done].
  - apply IH; [|lia]. destruct (decide (n = Z.of_nat k)) as [->|]; [done|lia].
Qed.

Lemma strlen_spec m s k fuel :
  cstr_at m s k -> (k < fuel)%nat -> strlen fuel m s = Some (Z.of_nat k).
Proof. intros. unfold strlen. apply strlen_loop_spec; auto; lia. Qed.

(** The characters of a string held in at most [n] bytes at [a]: those before
    the first NUL, or all [n]. *)
Fixpoint cname (m : mem) (a : Z) (n : nat) : list Z :=
  match n with
  | O => []
  | S n' => if ld8 m a =? 0 then [] else ld8 m a :: cname m (a + 1) n'
  end.

Lemma cname_S m a n :
  cname m a (S n) = if ld8 m a =? 0 then [] else ld8 m a :: cname m (a + 1) n.
Proof. done. Qed.

Lemma cname_ext m m' a n :
  (forall b, a <= b < a + Z.of_nat n -> ld8 m b = ld8 m' b) -> cname m a n = cname m' a n.
Proof.
  revert a. induction n as [|n IH]; intros a H; cbn [cname]; [done|].
  rewrite (H a) by lia. rewrite (IH (a + 1)); [done|]. intros. apply H. lia.
Qed.

Lemma cname_no_nul m a n : 0 ∉ cname m a n.
Proof.
  revert a. induction n as [|n IH]; intros a; cbn [cname]; [apply not_elem_of_nil|].
  destruct (Z.eqb_spec (ld8 m a) 0); [apply not_elem_of_nil|].
  rewrite not_elem_of_cons. split; [lia|apply IH].
Qed.

Lemma length_cname m a n : (length (cname m a n) <= n)%nat.
Proof.
  revert a. induction n as [|n IH]; intros a; cbn [cname]; [done|].
  destruct (ld8 m a =? 0); simpl; [lia|]. specialize (IH (a + 1)). lia.
Qed.

Lemma strncmp_loop_zero m p q n :
  strncmp_loop m p q n = 0 <-> cname m p n = cname m q n.
Proof.
  revert p q. induction n as [|n IH]; intros p q; cbn [strncmp_loop cname]; [done|].
  destruct (Z.eqb_spec (ld8 m p) 0) as [Ep|Ep], (Z.eqb_spec (ld8 m q) 0) as [Eq|Eq];
    cbn [negb andb].
  - split; [done|lia].
  - split; [lia|done].
  - destruct (Z.eqb_spec (ld8 m p) (ld8 m q)); [congruence|]. split; [lia|done].
  - destruct (Z.eqb_spec (ld8 m p) (ld8 m q)) as [->|Hne].
    + rewrite IH. split; [by intros ->|by intros [= ->]].
    + split; [lia|]. intros [=]. done.
Qed.

(** [strncmp] returns 0 exactly when the two strings, cut at [n]
    characters, are the same. *)
Theorem strncmp_zero_iff m p q n :
  0 <= n < 2 ^ 32 ->
  strncmp m p q n = 0 <-> cname m p (Z.to_nat n) = cname m q (Z.to_nat n).
Proof. intros. unfold strncmp. rewrite u32_small by done. apply strncmp_loop_zero. Qed.

Lemma strncmp_zero_iff_witness :
  strncmp (stbytes 10 [97; 98; 0] (stbytes 20 [97; 98; 0; 7] ∅)) 10 20 14 = 0.
Proof. apply strncmp_zero_iff; [lia|]. vm_compute. reflexivity. Defined.

Lemma ld8_strncpy_fill m s n a :
  ld8 (strncpy_fill m s n) a = if decide (s <= a < s + Z.of_nat n) then 0 else ld8 m a.
Proof.
  revert m s. induction n as [|n IH]; intros m s; cbn [strncpy_fill].
  - by rewrite decide_False by lia.
  - rewrite IH, ld8_st8. repeat case_decide; done || lia.
Qed.

Lemma ld8_strncpy_copy_out m s t n a :
  ~ (s <= a < s + Z.of_nat n) -> ld8 (strncpy_copy m s t n) a = ld8 m a.
Proof.
  revert m s t. induction n as [|n IH]; intros m s t H; cbn [strncpy_copy]; [done|].
  destruct (ld8 m t =? 0).
  - rewrite ld8_strncpy_fill, decide_False by lia. apply ld8_st8_ne. lia.
  - rewrite IH by lia. apply ld8_st8_ne. lia.
Qed.

Lemma strncpy_copy_spec m s t n :
  mem_ok m -> s + Z.of_nat n <= t \/ t + Z.of_nat n <= s ->
  cname (strncpy_copy m s t n) s n = cname m t n.
Proof.
  revert m s t. induction n as [|n IH]; intros m s t Hm H; cbn [strncpy_copy cname]; [done|].
  destruct (Z.eqb_spec (ld8 m t) 0) as [E|E].
  - rewrite ld8_strncpy_fill, decide_False, ld8_st8_eq, E by lia. done.
  - rewrite ld8_strncpy_copy_out, ld8_st8_eq, u8_small by (done || lia).
    rewrite (proj2 (Z.eqb_neq _ _) E).
    rewrite IH by (auto using mem_ok_st8; lia). f_equal.
    apply cname_ext. intros. apply ld8_st8_ne. lia.
Qed.

Lemma ld8_safestrcpy_out m s t k a :
  ~ (s <= a <= s + Z.of_nat k) -> ld8 (safestrcpy_loop m s t k) a = ld8 m a.
Proof.
  revert m s t. induction k as [|k IH]; intros m s t H; cbn [safestrcpy_loop].
  - apply ld8_st8_ne. lia.
  - destruct (ld8 m t =? 0).
    + rewrite !ld8_st8_ne by lia. done.
    + rewrite IH by lia. apply ld8_st8_ne. lia.
Qed.

Lemma safestrcpy_loop_spec m s t k :
  mem_ok m -> s + Z.of_nat k < t \/ t + Z.of_nat k <= s ->
  cname (safestrcpy_loop m s t k) s (S k) = cname m t k.
Proof.
  revert m s t. induction k as [|k IH]; intros m s t Hm H; cbn [safestrcpy_loop].
  - cbn [cname]. by rewrite ld8_st8_eq.
  - destruct (Z.eqb_spec (ld8 m t) 0) as [E|E].
    + cbn [cname]. rewrite ld8_st8_ne, ld8_st8_eq, E by lia. done.
    + rewrite (cname_S _ s), (cname_S _ t). rewrite ld8_safestrcpy_out, ld8_st8_eq, u8_small by (done || lia).
      rewrite (proj2 (Z.eqb_neq _ _) E). f_equal.
      rewrite IH by (auto using mem_ok_st8; lia).
      apply cname_ext. intros. apply ld8_st8_ne. lia.
Qed.

(** [safestrcpy] into an [n]-byte buffer copies the string cut at [n - 1]
    characters, always leaves it NUL-terminated inside the buffer, and writes
    no byte outside the buffer. *)
Theorem safestrcpy_correct m s t n :
  mem_ok m -> 0 < n -> s + n <= t \/ t + n <= s ->
  cname (safestrcpy m s t n) s (Z.to_nat n) = cname m t (Z.to_nat (n - 1)) /\
  (length (cname (safestrcpy m s t n) s (Z.to_nat n)) < Z.to_nat n)%nat /\
  (forall a, ~ (s <= a < s + n) -> ld8 (safestrcpy m s t n) a = ld8 m a).
Proof.
  intros Hm Hn H. unfold safestrcpy. rewrite (proj2 (Z.leb_gt _ _)) by lia.
  assert (cname (safestrcpy_loop m s t (Z.to_nat (n - 1))) s (Z.to_nat n) =
          cname m t (Z.to_nat (n - 1))) as E.
  { replace (Z.to_nat n) with (S (Z.to_nat (n - 1))) by lia.
    apply safestrcpy_loop_spec; [done|lia]. }
  split_and!; [done| |].
  - rewrite E. pose proof (length_cname m t (Z.to_nat (n - 1))). lia.
  - intros. apply ld8_safestrcpy_out. lia.
Qed.

Lemma safestrcpy_correct_witness :
  cname (safestrcpy (stbytes 50 [104; 105; 106; 107; 0] ∅) 10 50 4) 10 4 = [104; 105; 106].
Proof.
  refine (eq_trans (proj1 (safestrcpy_correct (stbytes 50 [104; 105; 106; 107; 0] ∅) 10 50 4 _ _ _)) _).
  - apply mem_ok_stbytes, mem_ok_empty.
  - lia.
  - lia.
  - vm_compute. reflexivity.
Defined.

(** Later files use the lemmas above, not the loops. *)
#[global] Opaque CString.memset CString.memmove CString.memcmp CString.strncmp
  CString.strncpy CString.safestrcpy ldbytes stbytes st64 ld64.
