(* ===== verification/Spinlock.v ===== *)
(** * Spin locks and interrupt masking ([kernel/spinlock.c], the interrupt
    helpers of [kernel/loongarch.h], [cpuid]/[mycpu]/[myproc] of [kernel/proc.c])

    [Spinlock] models the functions; [acquire] and [release] are programs of
    atomic steps, and the kernel functions are these programs on the one
    configured CPU ([NCPU] is 1). [Smp] runs the same programs on any number
    of CPUs that race for one lock, step by step in any order. *)

From stdpp Require Import gmap strings list.
From Stdlib Require Import ZArith Lia.
From S2P Require Import Prelude KState.
Open Scope Z_scope.

Module Spinlock.

(** [loongarch.h]: the interrupt-enable bit of CRMD *)
Definition ie (s : kstate) : bool := negb (Z.land (crmd (k_csr s)) CSR_CRMD_IE =? 0).
Definition intr_get : K bool := gets ie.
Definition intr_on : K unit :=
  modify (set_k_csr (set_crmd (fun x => Z.lor x CSR_CRMD_IE))).
Definition intr_off : K unit :=
  modify (set_k_csr (set_crmd (fun x => Z.land x (Z.lnot CSR_CRMD_IE)))).

(** [proc.c]: which CPU this is, and the index of its [struct cpu] *)
Definition cpuid : K Z := gets (fun s => s32 (tp (k_csr s))).
Definition mycpu : K nat := id <- cpuid;; ret (Z.to_nat id).

Definition push_off : K unit :=
  old <- intr_get;;
  intr_off;;
  c <- gets k_cpu;;
  when (c_noff c =? 0) (modify (set_k_cpu (set_c_intena (fun _ => old))));;
  modify (set_k_cpu (set_c_noff (fun n => n + 1))).

Definition pop_off : K unit :=
  i <- intr_get;;
  if i then panic "pop_off - interruptible" else
  c <- gets k_cpu;;
  if c_noff c <? 1 then panic "pop_off" else
  modify (set_k_cpu (set_c_noff (fun n => n - 1)));;
  c <- gets k_cpu;;
  when ((c_noff c =? 0) && c_intena c) intr_on.

Definition getlock (l : lockid) (s : kstate) : spinlock := default spinlock0 (k_locks s !! l).
Definition setlock (l : lockid) (g : spinlock -> spinlock) (s : kstate) : kstate :=
  set_k_locks (fun m => <[l := g (default spinlock0 (m !! l))]> m) s.

Definition initlock (l : lockid) (name : string) : K unit :=
  modify (setlock l (fun _ => mkspinlock 0 name None)).

(** [acquire] and [release] are sequences of accesses to the lock and to the
    CPU's own state; [__sync_lock_test_and_set] is one access. *)
Definition holding_code (l : lockid) : code kstate bool :=
  locked <~ gets (fun s => lk_locked (getlock l s));;
  if locked =? 0 then Ret false else
  c <~ gets (fun s => lk_cpu (getlock l s));;
  id <~ mycpu;;
  Ret (bool_decide (c = Some id)).

(** One turn of [while(__sync_lock_test_and_set(&lk->locked, 1) != 0);]. A turn
    that finds the lock taken does not get past it: the step is made again
    later, and with nobody else running the loop has no end. *)
Definition test_and_set (l : lockid) : K unit :=
  old <- gets (fun s => lk_locked (getlock l s));;
  modify (setlock l (set_lk_locked (fun _ => 1)));;
  if negb (old =? 0) then hang else ret tt.

Definition acquire_code (l : lockid) : code kstate unit :=
  _ <~ push_off;;
  then_code (holding_code l) (fun h =>
  if h then (_ <~ @panic kstate unit "acquire";; Ret tt) else
  _ <~ test_and_set l;;
  id <~ mycpu;;
  _ <~ modify (setlock l (set_lk_cpu (fun _ => Some id)));;
  Ret tt).

Definition release_code (l : lockid) : code kstate unit :=
  then_code (holding_code l) (fun h =>
  if negb h then (_ <~ @panic kstate unit "release";; Ret tt) else
  _ <~ modify (setlock l (set_lk_cpu (fun _ => None)));;
  _ <~ modify (setlock l (set_lk_locked (fun _ => 0)));;
  _ <~ pop_off;;
  Ret tt).

Definition holding (l : lockid) : K bool := perform (holding_code l).
Definition acquire (l : lockid) : K unit := perform (acquire_code l).
Definition release (l : lockid) : K unit := perform (release_code l).

(** [proc.c]: the process running on this CPU *)
Definition myproc : K (option nat) :=
  push_off;;
  c <- gets k_cpu;;
  pop_off;;
  ret (c_proc c).

End Spinlock.

(** ** The lock protocol of one CPU *)

Module SpinlockProps.
Import Spinlock.

(** The interrupt bookkeeping is consistent: outside every [push_off] the
    saved flag is the current one; inside, interrupts are off. *)
Definition cpu_ok (s : kstate) : Prop :=
  0 <= c_noff (k_cpu s) /\
  (c_noff (k_cpu s) = 0 -> c_intena (k_cpu s) = ie s) /\
  (0 < c_noff (k_cpu s) -> ie s = false).

(** The lock is initialised and nobody holds it. *)
Definition lock_free (s : kstate) (l : lockid) : Prop :=
  exists nm, k_locks s !! l = Some (mkspinlock 0 nm None).

(** The states [push_off] and [acquire] lead to. *)
Definition pushed (s : kstate) : kstate :=
  set_k_cpu (fun c => mkcpu (c_proc c) (c_noff c + 1)
                        (if c_noff c =? 0 then ie s else c_intena c))
    (set_k_csr (set_crmd (fun x => Z.land x (Z.lnot CSR_CRMD_IE))) s).

Definition acq (l : lockid) (s : kstate) : kstate :=
  setlock l (fun lk => mkspinlock 1 (lk_name lk) (Some (Z.to_nat (s32 (tp (k_csr s))))))
    (pushed s).

Lemma land_ie_off x : Z.land (Z.land x (Z.lnot CSR_CRMD_IE)) CSR_CRMD_IE = 0.
Proof. rewrite <- Z.land_assoc. change (Z.land (Z.lnot CSR_CRMD_IE) CSR_CRMD_IE) with 0.
  apply Z.land_0_r. Qed.

Lemma land_ie_id x : Z.land x CSR_CRMD_IE = 0 -> Z.land x (Z.lnot CSR_CRMD_IE) = x.
Proof.
  intros H. apply Z.bits_inj'. intros n Hn.
  rewrite Z.land_spec, Z.lnot_spec by done.
  apply (f_equal (fun z => Z.testbit z n)) in H.
  rewrite Z.land_spec, Z.bits_0 in H.
  destruct (Z.testbit x n), (Z.testbit CSR_CRMD_IE n); done.
Qed.

Lemma testbit_ie n : Z.testbit CSR_CRMD_IE n = bool_decide (n = 2).
Proof.
  unfold CSR_CRMD_IE. change 4 with (2 ^ 2).
  rewrite Z.pow2_bits_eqb by lia. case_bool_decide; lia.
Qed.

Lemma lor_ie_restore x :
  Z.land x CSR_CRMD_IE <> 0 -> Z.lor (Z.land x (Z.lnot CSR_CRMD_IE)) CSR_CRMD_IE = x.
Proof.
  intros H. apply Z.bits_inj'. intros n Hn.
  rewrite Z.lor_spec, Z.land_spec, Z.lnot_spec, testbit_ie by done.
  case_bool_decide as E; [|by rewrite andb_true_r, orb_false_r].
  subst n. rewrite orb_true_r. destruct (Z.testbit x 2) eqn:Hb; [done|].
  destruct H. apply Z.bits_inj'. intros k Hk.
  rewrite Z.land_spec, testbit_ie, Z.bits_0. case_bool_decide; subst; [by rewrite Hb|].
  apply andb_false_r.
Qed.

Lemma ie_pushed s : ie (pushed s) = false.
Proof. unfold ie. simpl. by rewrite land_ie_off. Qed.

Lemma push_off_spec s : push_off s = Done tt (pushed s).
Proof.
  unfold push_off, pushed. unfold intr_get, intr_off. rewrite bind_gets, bind_modify, bind_gets.
  simpl. destruct (c_noff (k_cpu s) =? 0) eqn:E; cbn [when]; [rewrite bind_modify|rewrite bind_ret];
    unfold modify, set_k_cpu, set_c_noff, set_c_intena; simpl; rewrite ?E; done.
Qed.

Lemma pop_off_pushed s : cpu_ok s -> pop_off (pushed s) = Done tt s.
Proof.
  intros (H0 & H1 & H2). unfold pop_off. unfold intr_get. rewrite bind_gets, ie_pushed, bind_gets.
  change (c_noff (k_cpu (pushed s))) with (c_noff (k_cpu s) + 1).
  destruct (Z.ltb_spec (c_noff (k_cpu s) + 1) 1); [lia|].
  rewrite bind_modify, bind_gets. simpl. rewrite Z.add_simpl_r.
  unfold when, modify, ret, intr_on. unfold pushed, set_k_cpu, set_k_csr, set_c_noff, set_crmd. simpl.
  destruct s as [c r]; destruct c as [cp n i]; destruct r; simpl in *.
  unfold ie in *; simpl in *. rewrite Z.add_simpl_r.
  destruct (Z.eqb_spec n 0) as [->|Hn].
  - rewrite H1 by done. destruct (Z.eqb_spec (Z.land crmd CSR_CRMD_IE) 0) as [E|E]; simpl.
    + by rewrite (land_ie_id _ E).
    + unfold modify, set_k_csr, set_crmd. simpl. by rewrite (lor_ie_restore _ E).
  - simpl. specialize (H2 ltac:(lia)). apply negb_false_iff, Z.eqb_eq in H2.
    by rewrite (land_ie_id _ H2).
Qed.

Lemma cpu_ok_pushed s : cpu_ok s -> cpu_ok (pushed s).
Proof. intros (H & _ & _). split_and!; [simpl; lia|simpl; lia|]. intros. apply ie_pushed. Qed.

Lemma cpu_ok_acq l s : cpu_ok s -> cpu_ok (acq l s).
Proof. apply cpu_ok_pushed. Qed.

Lemma lock_free_acq l l' s : l <> l' -> lock_free s l' -> lock_free (acq l s) l'.
Proof. intros ? [nm H]. exists nm. simpl. by rewrite lookup_insert_ne. Qed.

Lemma lock_free_get l s nm : k_locks s !! l = Some (mkspinlock 0 nm None) -> getlock l s = mkspinlock 0 nm None.
Proof. intros H. unfold getlock. by rewrite H. Qed.

Lemma holding_free l s : lock_free s l -> holding l s = Done false s.
Proof.
  intros [nm H]. unfold holding. cbn [perform holding_code]. kstep. by rewrite (lock_free_get l s nm).
Qed.

Lemma test_and_set_free l s :
  lk_locked (getlock l s) = 0 -> test_and_set l s = Done tt (setlock l (set_lk_locked (fun _ => 1)) s).
Proof. intros H. unfold test_and_set. kstep. by rewrite H. Qed.

Lemma acquire_spec l s : lock_free s l -> acquire l s = Done tt (acq l s).
Proof.
  intros [nm H]. unfold acquire. cbn [perform acquire_code]. rewrite (bind_done _ _ _ _ _ (push_off_spec s)).
  assert (Hg : getlock l (pushed s) = mkspinlock 0 nm None) by (by apply lock_free_get).
  cbn [perform then_code holding_code]. rewrite bind_gets, Hg. cbn [perform lk_locked Z.eqb then_code].
  rewrite (bind_done _ _ _ _ _ (test_and_set_free l (pushed s) ltac:(by rewrite Hg))).
  unfold mycpu, cpuid, bind, gets, modify, ret, acq, setlock, set_k_locks. simpl.
  rewrite H, lookup_insert_eq, insert_insert_eq. done.
Qed.

Lemma getlock_acq l s :
  getlock l (acq l s) = mkspinlock 1 (lk_name (getlock l s)) (Some (Z.to_nat (s32 (tp (k_csr s))))).
Proof. unfold getlock, acq, setlock. simpl. by rewrite lookup_insert_eq. Qed.

Lemma bind_mycpu {A} (f : nat -> K A) s : (id <- mycpu;; f id) s = f (Z.to_nat (s32 (tp (k_csr s)))) s.
Proof. done. Qed.

(** What follows [holding] when the lock is held here. *)
Lemma held_then {A} l (f : bool -> code kstate A) s :
  perform (then_code (holding_code l) f) (acq l s) = perform (f true) (acq l s).
Proof.
  cbn [perform then_code holding_code]. rewrite bind_gets, getlock_acq. cbn [lk_locked Z.eqb perform then_code].
  rewrite bind_gets, getlock_acq, bind_mycpu. cbn [lk_cpu]. by rewrite bool_decide_true.
Qed.

Lemma holding_acq l s : holding l (acq l s) = Done true (acq l s).
Proof.
  unfold holding. cbn [perform holding_code]. rewrite bind_gets, getlock_acq. cbn [lk_locked Z.eqb perform].
  rewrite bind_gets, getlock_acq, bind_mycpu. cbn [lk_cpu perform]. by rewrite bool_decide_true.
Qed.

Lemma release_acq l s : cpu_ok s -> lock_free s l -> release l (acq l s) = Done tt s.
Proof.
  intros Hc [nm H]. unfold release, release_code. rewrite held_then. cbn [perform negb]. rewrite !bind_modify.
  erewrite bind_done; [reflexivity|]. etrans; [|by apply pop_off_pushed].
  f_equal. unfold acq, setlock, set_k_locks, pushed. simpl.
  rewrite !insert_insert_eq, !lookup_insert_eq, H. simpl.
  by rewrite insert_id.
Qed.

Lemma myproc_spec s : cpu_ok s -> myproc s = Done (c_proc (k_cpu s)) s.
Proof.
  intros H. unfold myproc. rewrite (bind_done _ _ _ _ _ (push_off_spec s)), bind_gets.
  by rewrite (bind_done _ _ _ _ _ (pop_off_pushed s H)).
Qed.

(** Holding a lock does not get in the way of the other fields. *)
Lemma acq_k_mem l s : k_mem (acq l s) = k_mem s.
Proof. done. Qed.
Lemma acq_set_k_mem g l s : set_k_mem g (acq l s) = acq l (set_k_mem g s).
Proof. done. Qed.
Lemma acq_k_freelist l s : k_freelist (acq l s) = k_freelist s.
Proof. done. Qed.
Lemma acq_set_k_freelist g l s : set_k_freelist g (acq l s) = acq l (set_k_freelist g s).
Proof. done. Qed.
Lemma acq_k_procs l s : k_procs (acq l s) = k_procs s.
Proof. done. Qed.
Lemma acq_set_k_procs g l s : set_k_procs g (acq l s) = acq l (set_k_procs g s).
Proof. done. Qed.
Lemma acq_k_initproc l s : k_initproc (acq l s) = k_initproc s.
Proof. done. Qed.
Lemma acq_set_k_initproc g l s : set_k_initproc g (acq l s) = acq l (set_k_initproc g s).
Proof. done. Qed.
Lemma acq_k_nextpid l s : k_nextpid (acq l s) = k_nextpid s.
Proof. done. Qed.
Lemma acq_set_k_nextpid g l s : set_k_nextpid g (acq l s) = acq l (set_k_nextpid g s).
Proof. done. Qed.
Lemma acq_k_first l s : k_first (acq l s) = k_first s.
Proof. done. Qed.
Lemma acq_set_k_first g l s : set_k_first g (acq l s) = acq l (set_k_first g s).
Proof. done. Qed.
Lemma acq_k_ticks l s : k_ticks (acq l s) = k_ticks s.
Proof. done. Qed.
Lemma acq_set_k_ticks g l s : set_k_ticks g (acq l s) = acq l (set_k_ticks g s).
Proof. done. Qed.
Lemma acq_k_bufs l s : k_bufs (acq l s) = k_bufs s.
Proof. done. Qed.
Lemma acq_set_k_bufs g l s : set_k_bufs g (acq l s) = acq l (set_k_bufs g s).
Proof. done. Qed.
Lemma acq_k_disk l s : k_disk (acq l s) = k_disk s.
Proof. done. Qed.
Lemma acq_set_k_disk g l s : set_k_disk g (acq l s) = acq l (set_k_disk g s).
Proof. done. Qed.
Lemma acq_k_dtrace l s : k_dtrace (acq l s) = k_dtrace s.
Proof. done. Qed.
Lemma acq_set_k_dtrace g l s : set_k_dtrace g (acq l s) = acq l (set_k_dtrace g s).
Proof. done. Qed.
Lemma acq_k_log l s : k_log (acq l s) = k_log s.
Proof. done. Qed.
Lemma acq_set_k_log g l s : set_k_log g (acq l s) = acq l (set_k_log g s).
Proof. done. Qed.
Lemma acq_k_sb l s : k_sb (acq l s) = k_sb s.
Proof. done. Qed.
Lemma acq_set_k_sb g l s : set_k_sb g (acq l s) = acq l (set_k_sb g s).
Proof. done. Qed.
Lemma acq_k_inodes l s : k_inodes (acq l s) = k_inodes s.
Proof. done. Qed.
Lemma acq_set_k_inodes g l s : set_k_inodes g (acq l s) = acq l (set_k_inodes g s).
Proof. done. Qed.
Lemma acq_k_files l s : k_files (acq l s) = k_files s.
Proof. done. Qed.
Lemma acq_set_k_files g l s : set_k_files g (acq l s) = acq l (set_k_files g s).
Proof. done. Qed.
Lemma acq_k_devsw l s : k_devsw (acq l s) = k_devsw s.
Proof. done. Qed.
Lemma acq_set_k_devsw g l s : set_k_devsw g (acq l s) = acq l (set_k_devsw g s).
Proof. done. Qed.
Lemma acq_k_pipes l s : k_pipes (acq l s) = k_pipes s.
Proof. done. Qed.
Lemma acq_set_k_pipes g l s : set_k_pipes g (acq l s) = acq l (set_k_pipes g s).
Proof. done. Qed.
Lemma acq_k_cons l s : k_cons (acq l s) = k_cons s.
Proof. done. Qed.
Lemma acq_set_k_cons g l s : set_k_cons g (acq l s) = acq l (set_k_cons g s).
Proof. done. Qed.
Lemma acq_k_uart l s : k_uart (acq l s) = k_uart s.
Proof. done. Qed.
Lemma acq_set_k_uart g l s : set_k_uart g (acq l s) = acq l (set_k_uart g s).
Proof. done. Qed.
Lemma acq_k_prlocking l s : k_prlocking (acq l s) = k_prlocking s.
Proof. done. Qed.
Lemma acq_set_k_prlocking g l s : set_k_prlocking g (acq l s) = acq l (set_k_prlocking g s).
Proof. done. Qed.
Lemma acq_k_panicked l s : k_panicked (acq l s) = k_panicked s.
Proof. done. Qed.
Lemma acq_set_k_panicked g l s : set_k_panicked g (acq l s) = acq l (set_k_panicked g s).
Proof. done. Qed.
Lemma acq_k_mmio l s : k_mmio (acq l s) = k_mmio s.
Proof. done. Qed.
Lemma acq_set_k_mmio g l s : set_k_mmio g (acq l s) = acq l (set_k_mmio g s).
Proof. done. Qed.
Lemma acq_k_iocsr l s : k_iocsr (acq l s) = k_iocsr s.
Proof. done. Qed.
Lemma acq_set_k_iocsr g l s : set_k_iocsr g (acq l s) = acq l (set_k_iocsr g s).
Proof. done. Qed.
Create Rewrite HintDb acq.
#[export] Hint Rewrite acq_k_mem acq_set_k_mem acq_k_freelist acq_set_k_freelist
  acq_k_procs acq_set_k_procs acq_k_initproc acq_set_k_initproc acq_k_nextpid
  acq_set_k_nextpid acq_k_first acq_set_k_first acq_k_ticks acq_set_k_ticks acq_k_bufs
  acq_set_k_bufs acq_k_disk acq_set_k_disk acq_k_dtrace acq_set_k_dtrace acq_k_log
  acq_set_k_log acq_k_sb acq_set_k_sb acq_k_inodes acq_set_k_inodes acq_k_files
  acq_set_k_files acq_k_devsw acq_set_k_devsw acq_k_pipes acq_set_k_pipes acq_k_cons
  acq_set_k_cons acq_k_uart acq_set_k_uart acq_k_prlocking acq_set_k_prlocking
  acq_k_panicked acq_set_k_panicked acq_k_mmio acq_set_k_mmio acq_k_iocsr
  acq_set_k_iocsr : acq.

(** Two locks held at once can be given back in either order. *)
Lemma setlock_comm l l' g g' s :
  l <> l' -> setlock l g (setlock l' g' s) = setlock l' g' (setlock l g s).
Proof.
  intros Hne. unfold setlock.
  change (set_k_locks ?f (set_k_locks ?h s)) with (set_k_locks (fun m => f (h m)) s).
  apply set_k_locks_ext. rewrite !lookup_insert_ne by done. by rewrite insert_insert_ne.
Qed.

Lemma pushed_setlock l g s : pushed (setlock l g s) = setlock l g (pushed s).
Proof. reflexivity. Qed.

Lemma acq_comm l l' s : l <> l' -> acq l (acq l' s) = acq l' (acq l s).
Proof. intros. unfold acq. rewrite !pushed_setlock. by apply setlock_comm. Qed.

Lemma release_outer l l' s :
  l <> l' -> cpu_ok s -> lock_free s l ->
  release l (acq l' (acq l s)) = Done tt (acq l' s).
Proof.
  intros Hne Hc Hl. rewrite acq_comm by done.
  apply release_acq; [by apply cpu_ok_acq|by apply lock_free_acq].
Qed.

(** Statements executed between [acquire] and [release]. *)
Lemma locked_section {A} l (body : K A) s a s' :
  lock_free s l -> cpu_ok s' -> lock_free s' l ->
  body (acq l s) = Done a (acq l s') ->
  (acquire l;; x <- body;; release l;; ret x) s = Done a s'.
Proof.
  intros Hl Hc Hl' Hb. rewrite (bind_done _ _ _ _ _ (acquire_spec _ _ Hl)).
  rewrite (bind_done _ _ _ _ _ Hb). by rewrite (bind_done _ _ _ _ _ (release_acq _ _ Hc Hl')).
Qed.

End SpinlockProps.

Module Nesting.
Import Spinlock SpinlockProps.

Fixpoint times (n : nat) (m : K unit) : K unit :=
  match n with
  | O => ret tt
  | S n' => m;; times n' m
  end.

Fixpoint pushed_n (n : nat) (s : kstate) : kstate :=
  match n with
  | O => s
  | S n' => pushed_n n' (pushed s)
  end.

Lemma times_push n s : times n push_off s = Done tt (pushed_n n s).
Proof.
  revert s. induction n as [|n IH]; intros s; [done|].
  cbn [times]. by rewrite (bind_done _ _ _ _ _ (push_off_spec s)), IH.
Qed.

Lemma pushed_n_last n s : pushed_n (S n) s = pushed (pushed_n n s).
Proof. revert s. induction n as [|n IH]; intros s; [done|]. apply IH. Qed.

Lemma cpu_ok_pushed_n n s : cpu_ok s -> cpu_ok (pushed_n n s).
Proof. revert s. induction n; simpl; auto using cpu_ok_pushed. Qed.

Lemma times_pop n k s :
  cpu_ok s -> times k pop_off (pushed_n (k + n) s) = Done tt (pushed_n n s).
Proof.
  intros H. induction k as [|k IH]; [done|].
  cbn [times]. change (S k + n)%nat with (S (k + n)). rewrite pushed_n_last.
  by rewrite (bind_done _ _ _ _ _ (pop_off_pushed _ (cpu_ok_pushed_n _ _ H))).
Qed.

(** [push_off] and [pop_off] are matched. After [n] calls of the one and
    [k] of the other, interrupts stay off as long as [k < n]; when [k = n] the
    whole CPU state, the interrupt-enable bit included, is what it was. *)
Theorem push_pop_nest n k s :
  cpu_ok s -> (k <= n)%nat ->
  wp (times n push_off;; times k pop_off) s (fun _ s' =>
    ((k < n)%nat -> ie s' = false) /\ (k = n -> s' = s)).
Proof.
  intros H Hk. unfold wp. rewrite (bind_done _ _ _ _ _ (times_push n s)).
  assert (pushed_n n s = pushed_n (k + (n - k)) s) as -> by (f_equal; lia).
  rewrite times_pop by done.
  split.
  - intros. destruct (n - k)%nat as [|j] eqn:E; [lia|]. rewrite pushed_n_last. apply ie_pushed.
  - intros ->. by rewrite Nat.sub_diag.
Qed.

Lemma push_pop_nest_witness :
  wp (times 3 push_off;; times 3 pop_off) (set_k_cpu (set_c_intena (fun _ => true))
      (set_k_csr (set_crmd (fun _ => 4)) (kstate0 ∅ [] [])))
    (fun _ s' => crmd (k_csr s') = 4).
Proof.
  eapply wp_mono; [apply push_pop_nest|].
  - split_and!; done.
  - lia.
  - intros _ s' [_ H]. by rewrite H.
Defined.

End Nesting.

(** ** The lock raced for by several CPUs

    The CPUs share the kernel state; each has its own [struct cpu] and
    registers. One step is one step of the code of [acquire] or [release] on
    one of them, in any order. *)
Module Smp.
Import Spinlock SpinlockProps.

Inductive op := Acquire | Release.

#[global] Instance op_eq_dec : EqDecision op.
Proof. solve_decision. Defined.

Definition code_of (l : lockid) (o : op) : code kstate unit :=
  match o with Acquire => acquire_code l | Release => release_code l end.

(** What a CPU does with the lock: nothing, a call, or it has panicked in a
    call. It is [inside] when the last call that returned was [acquire]. A
    machine has any number of CPUs; the others are [Absent]. *)
Inductive status :=
| Absent
| Idle (inside : bool)
| Busy (inside : bool) (o : op) (p : code kstate unit)
| Dead (inside : bool) (o : op).

Record smp := mksmp { shared : kstate; locals : nat -> cpu * csr; stats : nat -> status }.

Definition upd {X} (f : nat -> X) (c : nat) (x : X) : nat -> X :=
  fun d => if decide (d = c) then x else f d.

(** The kernel state as CPU [c] sees it. *)
Definition on_cpu (L : cpu * csr) (s : kstate) : kstate := set_k_cpu (fun _ => L.1) (set_k_csr (fun _ => L.2) s).
Definition view (st : smp) (c : nat) : kstate := on_cpu (locals st c) (shared st).
Definition cid (s : kstate) : nat := Z.to_nat (s32 (tp (k_csr s))).

Definition move (st : smp) (c : nat) (s' : kstate) (x : status) : smp :=
  mksmp s' (upd (locals st) c (k_cpu s', k_csr s')) (upd (stats st) c x).

(** Any CPU may call either function at any time, rightly or not. Outside the
    calls it may do anything but touch the lock, or have interrupts on while
    it is inside. *)
Inductive step (l : lockid) (st : smp) : smp -> Prop :=
| st_call c b o :
    stats st c = Idle b -> step l st (move st c (view st c) (Busy b o (code_of l o)))
| st_act c b o B (m : K B) k x s' :
    stats st c = Busy b o (Act m k) -> m (view st c) = Done x s' ->
    step l st (move st c s' (Busy b o (k x)))
| st_spin c b o B (m : K B) k s' :
    stats st c = Busy b o (Act m k) -> m (view st c) = Hang s' ->
    step l st (move st c s' (Busy b o (Act m k)))
| st_panic c b o B (m : K B) k msg s' :
    stats st c = Busy b o (Act m k) -> m (view st c) = Panic msg s' ->
    step l st (move st c s' (Dead b o))
| st_return c b o u :
    stats st c = Busy b o (Ret u) -> step l st (move st c (view st c) (Idle (bool_decide (o = Acquire))))
| st_work c b s' :
    stats st c = Idle b -> k_locks s' !! l = k_locks (shared st) !! l -> cpu_ok s' -> cid s' = c ->
    (b = true -> 0 < c_noff (k_cpu s')) -> step l st (move st c s' (Idle b)).

Inductive reachable (l : lockid) : smp -> Prop :=
| reach_init st :
    lock_free (shared st) l ->
    (forall c, stats st c = Absent \/ stats st c = Idle false /\ cpu_ok (view st c) /\ cid (view st c) = c) ->
    reachable l st
| reach_step st st' : reachable l st -> step l st st' -> reachable l st'.

(** An [acquire] by the holder, or a [release] by another CPU. *)
Definition misuse (b : bool) (o : op) : Prop := b = bool_decide (o = Acquire).

(** *** The argument

    While a CPU steps through the code it knows a part of the lock's state
    that the steps of the others do not change: its phase. *)
Inductive phase :=
| Free (deep : bool)           (* another may hold the lock; [deep]: inside a push_off *)
| Held (owner : option nat).   (* this CPU has won the lock word; [lk->cpu] is [owner] *)

Section Lock.
Context (l : lockid).

Definition word (s : kstate) : Z := lk_locked (getlock l s).
Definition owner (s : kstate) : option nat := lk_cpu (getlock l s).

Definition agrees (c : nat) (ph : phase) (s : kstate) : Prop :=
  cpu_ok s /\ cid s = c /\
  match ph with
  | Free d => (word s = 0 /\ owner s = None \/ word s = 1 /\ owner s <> Some c) /\ (d = true -> 0 < c_noff (k_cpu s))
  | Held o => word s = 1 /\ owner s = o /\ 0 < c_noff (k_cpu s)
  end.

(** The changes of the lock a CPU may make. *)
Definition moves (c : nat) (ph : phase) (s : kstate) (ph' : phase) (s' : kstate) : Prop :=
  match ph, ph' with
  | Free _, Free _ => word s' = word s /\ owner s' = owner s
  | Free _, Held o => word s = 0 /\ o = None
  | Held _, Held o => o = None \/ o = Some c
  | Held _, Free _ => word s' = 0 /\ owner s' = None
  end.

(** [safe c may Q ph p]: run in phase [ph] on CPU [c], every step of [p] is
    such a change, [p] panics only if it [may], and it ends in a phase [Q]. *)
Fixpoint safe (c : nat) (may : Prop) (Q : phase -> Prop) (ph : phase) (p : code kstate unit) : Prop :=
  match p with
  | Ret _ => Q ph
  | Act m k => forall s, agrees c ph s ->
      match m s with
      | Done x s' => exists ph', agrees c ph' s' /\ moves c ph s ph' s' /\ safe c may Q ph' (k x)
      | Hang s' => agrees c ph s' /\ moves c ph s ph s'
      | Panic _ s' => may /\ agrees c ph s' /\ moves c ph s ph s'
      | _ => False
      end
  end.

Definition entry (b : bool) (c : nat) : phase := if b then Held (Some c) else Free false.

Definition fine (c : nat) (ph : phase) (x : status) : Prop :=
  match x with
  | Absent => ph = Free false
  | Idle b => ph = entry b c
  | Busy b o p => safe c (misuse b o) (fun ph' => ~ misuse b o /\ ph' = entry (bool_decide (o = Acquire)) c) ph p
  | Dead b o => misuse b o
  end.

Definition owned (ph : phase) : Prop := match ph with Held _ => True | Free _ => False end.

Definition inv (st : smp) : Prop :=
  exists phs : nat -> phase,
    (forall c, stats st c <> Absent -> agrees c (phs c) (view st c)) /\
    (forall c d, owned (phs c) -> owned (phs d) -> c = d) /\
    (forall c, fine c (phs c) (stats st c)).

Lemma upd_eq {X} (f : nat -> X) c x : upd f c x c = x.
Proof. unfold upd. by rewrite decide_True. Qed.

Lemma upd_ne {X} (f : nat -> X) c d x : d <> c -> upd f c x d = f d.
Proof. intros. unfold upd. by rewrite decide_False. Qed.

(** A step of [c] does not disturb what [d] knows. *)
Lemma agrees_other c d ph ph' phd v s' L :
  d <> c -> agrees c ph' s' -> moves c ph v ph' s' -> ~ (owned ph /\ owned phd) ->
  agrees d phd (on_cpu L v) -> agrees d phd (on_cpu L s').
Proof.
  intros Hne (_ & _ & Hw) Hm Hex (Hc & Hd & Hl). split; [exact Hc|]. split; [exact Hd|].
  change (word (on_cpu L v)) with (word v) in Hl. change (owner (on_cpu L v)) with (owner v) in Hl.
  change (word (on_cpu L s')) with (word s'). change (owner (on_cpu L s')) with (owner s').
  change (k_cpu (on_cpu L v)) with L.1 in Hl. change (k_cpu (on_cpu L s')) with L.1.
  destruct ph as [e|o], ph' as [e'|o'], phd as [dd|od]; simpl in *.
  all: try (destruct Hm as [E1 E2]; rewrite E1, E2; exact Hl).
  all: try (destruct Hex; done).
  - destruct Hm as [_ ->]. destruct Hw as (-> & -> & _). split; [by right|apply Hl].
  - destruct Hm as [Hm _], Hl as [Hl _]. rewrite Hl in Hm. done.
  - destruct Hm as [-> ->]. split; [by left|apply Hl].
  - destruct Hw as (-> & -> & _). split; [right; split; [done|]|apply Hl].
    destruct Hm as [-> | ->]; [done|]. intros [= <-]. done.
Qed.

Lemma move_inv st phs c ph' s' x :
  (forall c, stats st c <> Absent -> agrees c (phs c) (view st c)) -> (forall c d, owned (phs c) -> owned (phs d) -> c = d) ->
  (forall c, fine c (phs c) (stats st c)) -> agrees c ph' s' -> moves c (phs c) (view st c) ph' s' -> fine c ph' x -> inv (move st c s' x).
Proof.
  intros HA HU HF Ha Hm Hx. exists (upd phs c ph'). split_and!.
  - intros d. unfold view, move. cbn [locals shared stats]. destruct (decide (d = c)) as [->|Hne].
    + rewrite !upd_eq. intros _. exact Ha.
    + rewrite !upd_ne by done. intros Hd.
      apply (agrees_other c d (phs c) ph' (phs d) (view st c)); [done..|  |by apply (HA d)].
      intros [H1 H2]. apply Hne. by apply HU.
  - assert (Hw : owned ph' -> forall d, owned (phs d) -> d = c).
    { intros Ho d Hd. destruct (phs c) as [e|o] eqn:Ec; [|apply HU; [done|by rewrite Ec]].
      destruct ph' as [|o']; [done|]. destruct Hm as [Hz _].
      assert (Hpres : stats st d <> Absent) by (intros Ea; pose proof (HF d) as Hf; rewrite Ea in Hf; by rewrite Hf in Hd).
      destruct (HA d Hpres) as (_ & _ & Hdw). destruct (phs d); [done|]. destruct Hdw as [Hdw _].
      change (word (view st d)) with (word (view st c)) in Hdw. rewrite Hz in Hdw. done. }
    intros d e. destruct (decide (d = c)) as [->|Hd], (decide (e = c)) as [->|He];
      rewrite ?upd_eq, ?(upd_ne phs c) by done; intros H1 H2; [done|symmetry; by apply Hw|by apply Hw|by apply HU].
  - intros d. cbn [stats move]. destruct (decide (d = c)) as [->|Hne].
    + by rewrite !upd_eq.
    + by rewrite !upd_ne by done.
Qed.

Lemma moves_refl c ph s : agrees c ph s -> (exists b, ph = entry b c) -> moves c ph s ph s.
Proof. intros (_ & _ & H) [[] ->]; simpl; auto. Qed.

(** *** The code keeps to it *)

Lemma agrees_push c d s : agrees c (Free d) s -> agrees c (Free true) (pushed s).
Proof.
  intros (Hc & Hi & Hw & _). split; [by apply cpu_ok_pushed|]. split; [exact Hi|]. split; [exact Hw|].
  intros _. destruct Hc as [Hc _]. simpl. lia.
Qed.

Lemma agrees_push_held c o s : agrees c (Held o) s -> agrees c (Held o) (pushed s).
Proof.
  intros (Hc & Hi & Hw & Ho & Hn). split; [by apply cpu_ok_pushed|]. split; [exact Hi|]. split; [exact Hw|].
  split; [exact Ho|]. simpl. lia.
Qed.

(** [pop_off] inside a [push_off]. *)
Lemma pop_off_run s :
  cpu_ok s -> 0 < c_noff (k_cpu s) ->
  exists s', pop_off s = Done tt s' /\ cpu_ok s' /\ cid s' = cid s /\ k_locks s' = k_locks s.
Proof.
  intros (H1 & H2 & H3) Hn. unfold pop_off, intr_get. kstep. rewrite H3 by done. cbn [when]. kstep.
  rewrite (proj2 (Z.ltb_ge _ _)) by lia. kstep. cbn [k_cpu set_k_cpu c_noff set_c_noff c_intena].
  destruct (Z.eqb_spec (c_noff (k_cpu s) - 1) 0) as [E|E]; cbn [andb].
  - destruct (c_intena (k_cpu s)) eqn:Ei; cbn [when].
    + eexists. split; [reflexivity|]. split; [|done]. split_and!; simpl; [lia| |lia].
      intros _. rewrite Ei. unfold ie. simpl. symmetry. apply negb_true_iff, Z.eqb_neq.
      rewrite Z.land_lor_distr_l. intros Hz. apply Z.lor_eq_0_iff in Hz as [_ Hz]. done.
    + eexists. split; [reflexivity|]. split; [|done]. split_and!; simpl; [lia| |lia].
      intros _. rewrite Ei. symmetry. apply H3. lia.
  - eexists. split; [reflexivity|]. split; [|done]. split_and!; simpl; [lia|lia|]. intros _. apply H3. lia.
Qed.

Lemma agrees_setlock c s g ph o :
  agrees c (Held o) s ->
  (match ph with
   | Free d => lk_locked (g (getlock l s)) = 0 /\ lk_cpu (g (getlock l s)) = None
   | Held o' => lk_locked (g (getlock l s)) = 1 /\ lk_cpu (g (getlock l s)) = o'
   end) ->
  agrees c ph (setlock l g s).
Proof.
  intros (Hc & Hi & Hw & Ho & Hn) Hg. split; [exact Hc|]. split; [exact Hi|].
  assert (E : getlock l (setlock l g s) = g (getlock l s)) by (unfold getlock, setlock; simpl; by rewrite lookup_insert_eq).
  unfold word, owner. rewrite E. destruct ph; [|by destruct Hg]. split; [by left|]. done.
Qed.

(** A step that only reads. *)
Lemma safe_read {B} c may Q ph (f : kstate -> B) k :
  (exists d, ph = Free d) \/ (exists o, ph = Held o /\ (o = None \/ o = Some c)) ->
  (forall s, agrees c ph s -> safe c may Q ph (k (f s))) -> safe c may Q ph (Act (gets f) k).
Proof.
  intros Hph Hk s Ha. cbn [gets]. exists ph. split; [exact Ha|]. split; [|by apply Hk].
  destruct Hph as [[d ->]|(o & -> & Ho)]; [by split|exact Ho].
Qed.

(** [holding] in the phases of its callers. *)
Lemma safe_holding_free c may Q d f :
  safe c may Q (Free d) (f false) -> safe c may Q (Free d) (then_code (holding_code l) f).
Proof.
  intros Hf. cbn [then_code holding_code]. apply safe_read; [by left; eexists|]. intros s _.
  destruct (lk_locked (getlock l s) =? 0); [exact Hf|]. apply safe_read; [by left; eexists|].
  intros s1 (_ & _ & Hw & _). unfold mycpu, cpuid. intros s2 (H1 & H2 & H3 & H4). cbn.
  exists (Free d). split; [by split_and!|]. split; [done|].
  rewrite bool_decide_false; [exact Hf|]. change (Z.to_nat (s32 (tp (k_csr s2)))) with (cid s2). rewrite H2.
  destruct Hw as [[_ Hw]|[_ Hw]]; [|exact Hw]. unfold owner in Hw. by rewrite Hw.
Qed.

Lemma safe_holding_held c may Q f :
  safe c may Q (Held (Some c)) (f true) -> safe c may Q (Held (Some c)) (then_code (holding_code l) f).
Proof.
  intros Hf. assert (Hp : exists o, Held (Some c) = Held o /\ (o = None \/ o = Some c)) by (eexists; auto).
  cbn [then_code holding_code]. apply safe_read; [by right|]. intros s (_ & _ & Hw & _).
  unfold word in Hw. rewrite Hw. cbn [Z.eqb]. apply safe_read; [by right|].
  intros s1 (_ & _ & _ & Ho & _). unfold mycpu, cpuid. intros s2 (H1 & H2 & H3 & H4 & H5). cbn.
  exists (Held (Some c)). split; [by split_and!|]. split; [by right|].
  rewrite bool_decide_true; [exact Hf|]. change (Z.to_nat (s32 (tp (k_csr s2)))) with (cid s2). by rewrite H2.
Qed.

Lemma safe_panic c may (Q : phase -> Prop) ph msg :
  may -> (exists b, ph = entry b c) \/ (exists d, ph = Free d) ->
  safe c may Q ph (Act (@panic kstate unit msg) (fun _ => Ret tt)).
Proof.
  intros Hm Hp s Ha. cbn. split; [done|]. split; [done|].
  destruct Hp as [Hp|[d ->]]; [by apply moves_refl|by split].
Qed.

Lemma safe_acquire c may : safe c may (fun ph => ph = Held (Some c)) (Free false) (acquire_code l).
Proof.
  intros s Ha. rewrite push_off_spec. exists (Free true). split; [by eapply agrees_push|]. split; [done|].
  apply safe_holding_free. intros s1 (H1 & H2 & Hw & Hn). unfold test_and_set. kstep.
  destruct Hw as [[Hz Ho]|[Hz Ho]]; unfold word, owner in Hz, Ho; rewrite Hz; cbn [Z.eqb negb].
  - cbn. exists (Held None).
    assert (E : getlock l (setlock l (set_lk_locked (fun _ => 1)) s1) = set_lk_locked (fun _ => 1) (getlock l s1))
      by (unfold getlock, setlock; simpl; by rewrite lookup_insert_eq).
    split; [split; [exact H1|]; split; [exact H2|]; unfold word, owner; rewrite E; split_and!; [done|exact Ho|by apply Hn]|].
    split; [by split|]. unfold mycpu, cpuid. intros s2 Ha2. pose proof Ha2 as (G1 & G2 & G3). cbn. exists (Held None).
    split; [exact Ha2|]. split; [by left|]. intros s3 Ha3. cbn. exists (Held (Some c)). split; [|by split; [right|]].
    apply (agrees_setlock c s3 _ _ None Ha3). destruct Ha3 as (_ & _ & G & _). split; [exact G|].
    cbn. change (Z.to_nat (s32 (tp (k_csr s2)))) with (cid s2). by rewrite G2.
  - cbn. assert (E : getlock l (setlock l (set_lk_locked (fun _ => 1)) s1) = getlock l s1).
    { unfold getlock at 1, setlock. simpl. rewrite lookup_insert_eq. cbn. unfold getlock in *.
      destruct (default spinlock0 (k_locks s1 !! l)) as [w nm o]. cbn in *. by rewrite Hz. }
    unfold agrees, word, owner. rewrite E. split_and!; auto.
Qed.

Lemma safe_acquire_again c (may : Prop) Q : may -> safe c may Q (Held (Some c)) (acquire_code l).
Proof.
  intros Hm s Ha. rewrite push_off_spec. exists (Held (Some c)). split; [by apply agrees_push_held|]. split; [by right|].
  apply safe_holding_held. apply safe_panic; [done|]. left. by exists true.
Qed.

Lemma safe_release c may : safe c may (fun ph => ph = Free false) (Held (Some c)) (release_code l).
Proof.
  apply safe_holding_held. cbn [negb]. intros s Ha. unfold modify at 1. exists (Held None).
  split; [apply (agrees_setlock c s _ _ (Some c) Ha); destruct Ha as (_ & _ & G & _); by split|]. split; [by left|].
  intros s1 Ha1. unfold modify at 1. exists (Free true).
  assert (Ha2 : agrees c (Free true) (setlock l (set_lk_locked (fun _ => 0)) s1)).
  { pose proof (agrees_setlock c s1 (set_lk_locked (fun _ => 0)) (Free false) None Ha1) as (G1 & G2 & G3 & _).
    - destruct Ha1 as (_ & _ & _ & G & _). by split.
    - destruct Ha1 as (_ & _ & _ & _ & G). split; [exact G1|]. split; [exact G2|]. split; [exact G3|]. intros _. exact G. }
  split; [exact Ha2|]. split.
  { unfold moves, word, owner, getlock, setlock. simpl. rewrite lookup_insert_eq. destruct Ha1 as (_ & _ & _ & G & _). by split. }
  intros s2 (G1 & G2 & G3 & G4). destruct (pop_off_run s2 G1 (G4 eq_refl)) as (s3 & -> & C3 & I3 & L3).
  assert (E : getlock l s3 = getlock l s2) by (unfold getlock; by rewrite L3).
  exists (Free false). split; [|split; [|done]].
  - split; [exact C3|]. split; [by rewrite I3|]. unfold word, owner. rewrite E. split; [exact G3|done].
  - unfold moves, word, owner. by rewrite E.
Qed.

Lemma safe_release_other c (may : Prop) Q : may -> safe c may Q (Free false) (release_code l).
Proof. intros Hm. apply safe_holding_free. apply safe_panic; [done|]. right. by eexists. Qed.

Lemma safe_mono c may Q Q' ph p : safe c may Q ph p -> (forall ph, Q ph -> Q' ph) -> safe c may Q' ph p.
Proof.
  intros Hs HQ. revert ph Hs. induction p as [a|B m k IH]; intros ph Hs; cbn in *; [by apply HQ|].
  intros s Ha. specialize (Hs s Ha). destruct (m s); try done. destruct Hs as (ph' & H1 & H2 & H3).
  exists ph'. split_and!; auto.
Qed.

Lemma safe_call c b o :
  safe c (misuse b o) (fun ph => ~ misuse b o /\ ph = entry (bool_decide (o = Acquire)) c) (entry b c) (code_of l o).
Proof.
  destruct b, o; cbn [entry code_of].
  - by apply safe_acquire_again.
  - eapply safe_mono; [apply safe_release|]. intros ph ->. by split.
  - eapply safe_mono; [apply safe_acquire|]. intros ph ->. by split.
  - by apply safe_release_other.
Qed.

Lemma step_inv st st' : inv st -> step l st st' -> inv st'.
Proof.
  intros (phs & HA & HU & HF) Hs. destruct Hs as [c b o Hc|c b o B m k x s' Hc E|c b o B m k s' Hc E|c b o B m k msg s' Hc E|c b o u Hc|c b s' Hc El Hok Hi Hn];
    pose proof (HF c) as Hf; rewrite Hc in Hf; cbn [fine] in Hf;
    pose proof (HA c ltac:(by rewrite Hc)) as HAc.
  - apply (move_inv st phs c (phs c)); try done.
    + rewrite Hf. apply moves_refl; [rewrite <- Hf; exact HAc|by eexists].
    + rewrite Hf. apply safe_call.
  - specialize (Hf (view st c) HAc). rewrite E in Hf. destruct Hf as (ph' & H1 & H2 & H3). by apply (move_inv st phs c ph').
  - pose proof Hf as Hf'. specialize (Hf (view st c) HAc). rewrite E in Hf. destruct Hf as [H1 H2]. by apply (move_inv st phs c (phs c)).
  - specialize (Hf (view st c) HAc). rewrite E in Hf. destruct Hf as (H0 & H1 & H2). by apply (move_inv st phs c (phs c)).
  - destruct Hf as [_ Hf]. apply (move_inv st phs c (phs c)); try done.
    rewrite Hf. apply moves_refl; [rewrite <- Hf; exact HAc|by eexists].
  - assert (Eg : getlock l s' = getlock l (view st c)) by (unfold getlock; by rewrite El).
    pose proof HAc as (_ & _ & Hw). rewrite Hf in Hw.
    apply (move_inv st phs c (phs c)); try done; rewrite Hf.
    + split; [done|]. split; [done|]. destruct b; cbn [entry] in *; unfold word, owner in *; rewrite Eg; [|by destruct Hw].
      destruct Hw as (W1 & W2 & _). split_and!; auto.
    + destruct b; cbn [entry moves]; [by right|]. unfold word, owner. by rewrite Eg.
Qed.

Lemma reachable_inv st : reachable l st -> inv st.
Proof.
  induction 1 as [st [nm Hl] Hloc|st st' _ IH Hs]; [|by eapply step_inv].
  exists (fun _ => Free false). split_and!.
  - intros c Hp. destruct (Hloc c) as [Ha|(_ & H1 & H2)]; [done|]. split; [exact H1|]. split; [exact H2|]. split; [|done]. left.
    unfold word, owner. change (getlock l (view st c)) with (getlock l (shared st)). by rewrite (lock_free_get _ _ _ Hl).
  - done.
  - intros c. by destruct (Hloc c) as [-> | [-> _]].
Qed.
End Lock.

(** C32: the spin lock excludes, whatever the CPUs do. In every state they can
    reach by running [acquire] and [release] step by step in any order, at most
    one of them is inside (its [acquire] has returned, its [release] has not
    been called), and that one has interrupts off. An [acquire] by the CPU that
    is inside and a [release] by one that is not never return; every other call
    never panics. A CPU that is alone takes the free lock, and [release] then
    restores the state before. *)
Theorem spinlock_excludes l st :
  reachable l st ->
  (forall c d, stats st c = Idle true -> stats st d = Idle true -> c = d) /\
  (forall c, stats st c = Idle true -> ie (view st c) = false) /\
  (forall c b o u, stats st c = Busy b o (Ret u) -> ~ misuse b o) /\
  (forall c b o, stats st c = Dead b o -> misuse b o) /\
  (forall s, cpu_ok s -> lock_free s l ->
    exists s', acquire l s = Done tt s' /\ lk_locked (getlock l s') = 1 /\ release l s' = Done tt s).
Proof.
  intros (phs & HA & HU & HF)%reachable_inv. split_and!.
  - intros c d Hc Hd. pose proof (HF c) as Fc. pose proof (HF d) as Fd. rewrite Hc in Fc. rewrite Hd in Fd.
    apply HU; [by rewrite Fc|by rewrite Fd].
  - intros c Hc. pose proof (HF c) as Fc. rewrite Hc in Fc. destruct (HA c ltac:(by rewrite Hc)) as (Hok & _ & Hw). rewrite Fc in Hw.
    destruct Hw as (_ & _ & Hn). by apply Hok.
  - intros c b o u Hc. pose proof (HF c) as Fc. rewrite Hc in Fc. apply Fc.
  - intros c b o Hc. pose proof (HF c) as Fc. by rewrite Hc in Fc.
  - intros s Hc Hl. exists (acq l s). split; [by apply acquire_spec|]. split; [by rewrite getlock_acq|by apply release_acq].
Qed.

(** The step a CPU that is in a call makes next. *)
Definition go (st : smp) (c : nat) : smp :=
  match stats st c with
  | Busy b o (Act m k) =>
      match m (view st c) with
      | Done x s' => move st c s' (Busy b o (k x))
      | Hang s' => move st c s' (Busy b o (Act m k))
      | Panic _ s' => move st c s' (Dead b o)
      | _ => st
      end
  | Busy b o (Ret _) => move st c (view st c) (Idle (bool_decide (o = Acquire)))
  | _ => st
  end.

Lemma go_reach l st c : reachable l st -> reachable l (go st c).
Proof.
  intros H. unfold go. destruct (stats st c) as [|b|b o [u|B m k]|b o] eqn:E; try done.
  - eapply reach_step; [done|]. by eapply st_return.
  - destruct (m (view st c)) as [x s'|msg s'|s'|s' j|] eqn:Em; try done; (eapply reach_step; [done|]).
    + by eapply st_act.
    + by eapply st_panic.
    + by eapply st_spin.
Qed.

(** Two CPUs: CPU 1 gets through [acquire] while CPU 0 is at its loop. *)
Definition race_start : smp :=
  mksmp (set_k_locks (fun _ => {[L_ticks := mkspinlock 0 "time" None]}) (kstate0 ∅ [] []))
    (fun c => (k_cpu (kstate0 ∅ [] []), set_tp (fun _ => Z.of_nat c) (k_csr (kstate0 ∅ [] []))))
    (fun c => if decide (c < 2)%nat then Idle false else Absent).

Definition start (st : smp) (c : nat) (o : op) : smp := move st c (view st c) (Busy false o (code_of L_ticks o)).

Definition race_end : smp := foldl go (start (start race_start 0 Acquire) 1 Acquire) [0; 1; 0; 1; 1; 0; 1; 1; 1; 0]%nat.

Lemma spinlock_excludes_witness :
  stats race_end 1 = Idle true /\ word L_ticks (shared race_end) = 1 /\ ie (view race_end 1) = false.
Proof.
  assert (H1 : stats race_end 1 = Idle true) by reflexivity.
  split; [exact H1|]. split; [reflexivity|].
  assert (H : reachable L_ticks race_end).
  { unfold race_end. cbn [foldl]. do 10 apply go_reach.
    apply (reach_step _ (start race_start 0 Acquire)); [|apply (st_call _ _ 1 false Acquire); reflexivity].
    apply (reach_step _ race_start); [apply reach_init|apply (st_call _ _ 0 false Acquire); reflexivity].
    - by exists "time"%string.
    - intros c. cbn [stats race_start]. case_decide as Hc; [right|by left].
      split; [done|]. split; [repeat split; done|]. destruct c as [|[|c]]; [reflexivity|reflexivity|lia]. }
  exact (proj1 (proj2 (spinlock_excludes L_ticks race_end H)) 1%nat H1).
Defined.
End Smp.
