(* ===== verification/Sched.v ===== *)
(** * Scheduling: sleep and wakeup ([kernel/proc.c], scheduling half)

    [allocpid], [sched], [yield], [sleep], [wakeup], [kill] and the body of the
    scheduler's loop. A process gives up the CPU at [swtch]; what it does when
    it is resumed is the continuation the result [Swtch] carries. [SchedProps]
    has what the functions do on one CPU; [Wakeups] lets other CPUs act between
    the steps of [sleep]. *)

From stdpp Require Import gmap strings list.
From Stdlib Require Import ZArith Lia.
From S2P Require Import Prelude KState Spinlock.
Open Scope Z_scope.
Import Spinlock.

Module Sched.

(** A null dereference is an exception taken in kernel mode, which
    [kerneltrap] turns into a panic. *)
Definition deref {A : Type} (p : option A) : K A :=
  match p with
  | Some i => ret i
  | None => panic "kerneltrap"
  end.

(** The current process where the code dereferences [myproc()]. *)
Definition curproc : K nat := p <- myproc;; deref p.

Definition allocpid : K Z :=
  acquire L_pid;;
  pid <- gets k_nextpid;;
  modify (set_k_nextpid (fun n => n + 1));;
  release L_pid;;
  ret pid.

Definition sched : K unit :=
  p <- curproc;;
  h <- holding (L_proc p);;
  if negb h then panic "sched p->lock" else
  c <- gets k_cpu;;
  if negb (c_noff c =? 1) then panic "sched locks" else
  pr <- getproc p;;
  if bool_decide (p_state pr = RUNNING) then panic "sched running" else
  i <- intr_get;;
  if i then panic "sched interruptible" else
  intena <- gets (fun s => c_intena (k_cpu s));;
  swtch;;
  modify (set_k_cpu (set_c_intena (fun _ => intena))).

Definition yield : K unit :=
  p <- curproc;;
  acquire (L_proc p);;
  setproc p (set_p_state (fun _ => RUNNABLE));;
  sched;;
  release (L_proc p).

Definition sleep_code (ch : chan) (lk : lockid) : code kstate unit :=
  p <~ curproc;;
  _ <~ acquire (L_proc p);;
  _ <~ release lk;;
  _ <~ setproc p (set_p_chan (fun _ => ch));;
  _ <~ setproc p (set_p_state (fun _ => SLEEPING));;
  _ <~ sched;;
  _ <~ setproc p (set_p_chan (fun _ => CH_null));;
  _ <~ release (L_proc p);;
  _ <~ acquire lk;;
  Ret tt.

Definition sleep (ch : chan) (lk : lockid) : K unit := perform (sleep_code ch lk).

Fixpoint wakeup_loop (ch : chan) (i k : nat) : K unit :=
  match k with
  | O => ret tt
  | S k' =>
      me <- myproc;;
      when (bool_decide (me <> Some i))
        (acquire (L_proc i);;
         p <- getproc i;;
         when (bool_decide (p_state p = SLEEPING) && bool_decide (p_chan p = ch))
           (setproc i (set_p_state (fun _ => RUNNABLE)));;
         release (L_proc i));;
      wakeup_loop ch (S i) k'
  end.

Definition wakeup (ch : chan) : K unit := wakeup_loop ch 0 NPROC.

Fixpoint kill_loop (pid : Z) (i k : nat) : K Z :=
  match k with
  | O => ret (-1)
  | S k' =>
      acquire (L_proc i);;
      p <- getproc i;;
      if p_pid p =? pid then
        setproc i (set_p_killed (fun _ => 1));;
        when (bool_decide (p_state p = SLEEPING))
          (setproc i (set_p_state (fun _ => RUNNABLE)));;
        release (L_proc i);;
        ret 0
      else
        release (L_proc i);;
        kill_loop pid (S i) k'
  end.

Definition kill (pid : Z) : K Z := kill_loop pid 0 NPROC.

(** The body of [scheduler]'s inner loop, for process [i] whose suspended
    kernel thread is [t]: [swtch(&c->context, &p->context)] runs [t], and the
    loop goes on when [t] switches back. The result is the thread as it is
    suspended now, if it ran. *)
Definition thread : Type := kstate -> res kstate unit.

Definition run_thread (t : thread) : K (option thread) := fun s =>
  match t s with
  | Swtch s' k => Done (Some k) s'
  | Done _ s' => Done None s'
  | Panic msg s' => Panic msg s'
  | Hang s' => Hang s'
  | NoFuel => NoFuel
  end.

Definition scheduler_body (i : nat) (t : thread) : K (option thread) :=
  acquire (L_proc i);;
  p <- getproc i;;
  if bool_decide (p_state p = RUNNABLE) then
    setproc i (set_p_state (fun _ => RUNNING));;
    modify (set_k_cpu (set_c_proc (fun _ => Some i)));;
    t' <- run_thread t;;
    match t' with
    | None => ret None          (* the thread went on to user mode *)
    | Some k =>
        modify (set_k_cpu (set_c_proc (fun _ => None)));;
        release (L_proc i);;
        ret (Some k)
    end
  else
    release (L_proc i);;
    ret (Some t).

End Sched.

(** ** Wakeup *)

Module SchedProps.
Import SpinlockProps Sched.

(** Every process lock except the current process's is free. *)
Definition procs_free (s : kstate) : Prop :=
  forall i, (i < NPROC)%nat -> c_proc (k_cpu s) <> Some i -> lock_free s (L_proc i).

Definition wake_one (ch : chan) (p : proc) : proc :=
  if bool_decide (p_state p = SLEEPING) && bool_decide (p_chan p = ch)
  then set_p_state (fun _ => RUNNABLE) p else p.

Fixpoint woken (ch : chan) (me : option nat) (i k : nat) (ps : list proc) : list proc :=
  match k with
  | O => ps
  | S k' => woken ch me (S i) k' (if bool_decide (me <> Some i) then alter (wake_one ch) i ps else ps)
  end.

#[local] Opaque NPROC.

Lemma wake_one_no ch p :
  bool_decide (p_state p = SLEEPING) && bool_decide (p_chan p = ch) = false -> wake_one ch p = p.
Proof. unfold wake_one. by intros ->. Qed.

Lemma wake_body i ch s :
  lock_free s (L_proc i) -> cpu_ok s ->
  (acquire (L_proc i);; p <- getproc i;;
   when (bool_decide (p_state p = SLEEPING) && bool_decide (p_chan p = ch))
     (setproc i (set_p_state (fun _ => RUNNABLE)));;
   release (L_proc i)) s = Done tt (set_k_procs (alter (wake_one ch) i) s).
Proof.
  intros Hl Hc. rewrite (bind_done _ _ _ _ _ (acquire_spec _ _ Hl)).
  unfold getproc. kstep. rewrite acq_k_procs.
  destruct (bool_decide _ && bool_decide _) eqn:E; unfold setproc; kstep; rewrite ?acq_set_k_procs.
  - rewrite release_acq by done. f_equal. apply set_k_procs_ext.
    apply list_alter_ext; [|done]. intros x Hx.
    rewrite (list_lookup_total_correct _ _ _ Hx) in E. unfold wake_one. by rewrite E.
  - rewrite release_acq by done. f_equal. symmetry. apply set_k_procs_id, list_alter_same.
    intros x Hx. rewrite (list_lookup_total_correct _ _ _ Hx) in E. by apply wake_one_no.
Qed.

Lemma wakeup_loop_spec ch i k s :
  cpu_ok s -> procs_free s -> (i + k = NPROC)%nat ->
  wakeup_loop ch i k s = Done tt (set_k_procs (woken ch (c_proc (k_cpu s)) i k) s).
Proof.
  revert i s. induction k as [|k IH]; intros i s Hc Hp Hk; [done|].
  cbn [wakeup_loop woken]. rewrite (bind_done _ _ _ _ _ (myproc_spec s Hc)).
  case_bool_decide as Hme; cbn [when].
  - rewrite (bind_done _ _ _ _ _ (wake_body i ch s (Hp i ltac:(lia) Hme) Hc)).
    apply IH; [done|done|lia].
  - rewrite bind_ret. rewrite IH by (done || lia). done.
Qed.

Lemma wakeup_spec ch s :
  cpu_ok s -> procs_free s ->
  wakeup ch s = Done tt (set_k_procs (woken ch (c_proc (k_cpu s)) 0 NPROC) s).
Proof. intros. by apply wakeup_loop_spec. Qed.

Lemma woken_lookup ch me i k ps j :
  woken ch me i k ps !! j =
  if decide (i <= j < i + k)%nat
  then if bool_decide (me <> Some j) then wake_one ch <$> ps !! j else ps !! j
  else ps !! j.
Proof.
  revert i ps. induction k as [|k IH]; intros i ps; cbn [woken].
  - by rewrite decide_False by lia.
  - rewrite IH. destruct (decide (i = j)) as [->|Hne].
    + rewrite decide_False, decide_True by lia.
      case_bool_decide; [apply list_lookup_alter_eq|done].
    + assert ((if bool_decide (me <> Some i) then alter (wake_one ch) i ps else ps) !! j = ps !! j) as ->.
      { destruct (bool_decide (me <> Some i)); [by apply list_lookup_alter_ne|done]. }
      repeat case_decide; done || lia.
Qed.

Lemma length_woken ch me i k ps : length (woken ch me i k ps) = length ps.
Proof.
  revert i ps. induction k as [|k IH]; intros i ps; cbn [woken]; [done|].
  rewrite IH. case_bool_decide; [apply length_alter|done].
Qed.

(** [wakeup(chan)] makes exactly the other processes that sleep on [chan]
    runnable; every other process, the caller included, and everything else in
    the kernel state (the locks and the interrupt state too) is unchanged. *)
Theorem wakeup_exact ch s :
  cpu_ok s -> procs_free s -> length (k_procs s) = NPROC ->
  exists ps, wakeup ch s = Done tt (set_k_procs (fun _ => ps) s) /\ length ps = NPROC /\
    forall j p, k_procs s !! j = Some p ->
      ps !! j = Some (if decide (p_state p = SLEEPING /\ p_chan p = ch /\ c_proc (k_cpu s) <> Some j)
                      then set_p_state (fun _ => RUNNABLE) p else p).
Proof.
  intros Hc Hp Hlen. exists (woken ch (c_proc (k_cpu s)) 0 NPROC (k_procs s)).
  split.
  { rewrite wakeup_spec by done.
    exact (f_equal (Done tt) (set_k_procs_ext (woken ch (c_proc (k_cpu s)) 0 NPROC)
      (fun _ => woken ch (c_proc (k_cpu s)) 0 NPROC (k_procs s)) s eq_refl)). }
  split; [by rewrite length_woken|]. intros j p Hj.
  rewrite woken_lookup, Hj, decide_True.
  2: { apply lookup_lt_Some in Hj. lia. }
  unfold wake_one. simpl. repeat case_bool_decide; simpl; case_decide; naive_solver.
Qed.

#[local] Transparent NPROC.

Definition wake_test_state : kstate :=
  set_k_locks (fun _ => list_to_map
      ((fun i => (L_proc i, mkspinlock 0 "proc" None)) <$> seq 0 NPROC))
    (set_k_procs (fun ps => <[3%nat := set_p_state (fun _ => SLEEPING) (set_p_chan (fun _ => CH_ticks) proc0)]> ps)
      (kstate0 ∅ [] [])).

Lemma wake_test_locks : procs_free wake_test_state.
Proof.
  intros i Hi _. exists "proc"%string. do 32 (destruct i as [|i]; [reflexivity|]).
  unfold NPROC in Hi. lia.
Qed.

Lemma wakeup_exact_witness :
  exists ps, wakeup CH_ticks wake_test_state = Done tt (set_k_procs (fun _ => ps) wake_test_state)
    /\ p_state <$> ps !! 3%nat = Some RUNNABLE.
Proof.
  destruct (wakeup_exact CH_ticks wake_test_state) as (ps & E & _ & H).
  - repeat split; done.
  - apply wake_test_locks.
  - reflexivity.
  - exists ps. split; [exact E|]. rewrite (H 3%nat _ eq_refl). reflexivity.
Defined.

(** ** Sleep *)

#[local] Opaque NPROC.

(** The state with interrupts set to [b] and the saved flag with them. *)
Definition with_ie (b : bool) (s : kstate) : kstate :=
  set_k_cpu (set_c_intena (fun _ => b))
    (set_k_csr (set_crmd (fun x => let y := Z.land x (Z.lnot CSR_CRMD_IE) in
                                   if b then Z.lor y CSR_CRMD_IE else y)) s).

Lemma land_lor_ie x :
  Z.land (Z.lor (Z.land x (Z.lnot CSR_CRMD_IE)) CSR_CRMD_IE) (Z.lnot CSR_CRMD_IE) =
  Z.land x (Z.lnot CSR_CRMD_IE).
Proof.
  rewrite Z.land_lor_distr_l, <- Z.land_assoc, Z.land_diag.
  change (Z.land CSR_CRMD_IE (Z.lnot CSR_CRMD_IE)) with 0. apply Z.lor_0_r.
Qed.

Lemma ie_with_ie b s : ie (with_ie b s) = b.
Proof.
  unfold ie. simpl. destruct b.
  - rewrite Z.land_lor_distr_l, land_ie_off. done.
  - by rewrite land_ie_off.
Qed.

Lemma restore_intena l b s :
  c_noff (k_cpu s) = 0 ->
  set_k_cpu (set_c_intena (fun _ => b)) (acq l s) = acq l (with_ie b s).
Proof.
  intros H0. unfold acq. rewrite <- (pushed_setlock l _ (with_ie b s)).
  change (set_k_cpu ?g (setlock l ?h ?x)) with (setlock l h (set_k_cpu g x)).
  rewrite pushed_setlock. f_equal. unfold pushed. rewrite ie_with_ie.
  unfold set_k_cpu, set_k_csr, set_c_intena, set_crmd, with_ie. simpl. rewrite H0. simpl.
  do 2 f_equal. destruct b; [by rewrite land_lor_ie|].
  by rewrite <- Z.land_assoc, Z.land_diag.
Qed.

Lemma cpu_ok_with_ie b s : c_noff (k_cpu s) = 0 -> cpu_ok (with_ie b s).
Proof. intros H. split_and!; simpl; rewrite ?H; [lia| |lia]. by rewrite ie_with_ie. Qed.

Lemma curproc_spec s me : cpu_ok s -> c_proc (k_cpu s) = Some me -> curproc s = Done me s.
Proof. intros Hc Hm. unfold curproc. by rewrite (bind_done _ _ _ _ _ (myproc_spec s Hc)), Hm. Qed.

Lemma sched_spec s me :
  cpu_ok s -> c_noff (k_cpu s) = 0 -> c_proc (k_cpu s) = Some me ->
  p_state (k_procs s !!! me) <> RUNNING ->
  exists k, sched (acq (L_proc me) s) = Swtch (acq (L_proc me) s) k /\
    forall s', k s' = Done tt (set_k_cpu (set_c_intena (fun _ => ie s)) s').
Proof.
  intros Hc H0 Hm Hst. unfold sched.
  erewrite bind_done by (apply curproc_spec; [by apply cpu_ok_acq|exact Hm]).
  rewrite (bind_done _ _ _ _ _ (holding_acq _ _)). kstep.
  change (c_noff (k_cpu (acq (L_proc me) s))) with (c_noff (k_cpu s) + 1). rewrite H0.
  change (0 + 1 =? 1) with true. kstep.
  unfold getproc. kstep. rewrite acq_k_procs, bool_decide_false by done. kstep.
  unfold intr_get. kstep. change (ie (acq (L_proc me) s)) with (ie (pushed s)).
  rewrite ie_pushed. kstep. eexists. split; [reflexivity|]. intros s'. simpl. by rewrite H0.
Qed.

Definition asleep (ch : chan) (p : proc) : proc :=
  set_p_state (fun _ => SLEEPING) (set_p_chan (fun _ => ch) p).

Lemma sleep_spec ch l s me :
  l <> L_proc me -> cpu_ok s -> c_noff (k_cpu s) = 0 -> c_proc (k_cpu s) = Some me ->
  (me < length (k_procs s))%nat -> lock_free s l -> lock_free s (L_proc me) ->
  exists k,
    sleep ch l (acq l s) =
      Swtch (acq (L_proc me) (set_k_procs (alter (asleep ch) me) s)) k /\
    forall s', c_noff (k_cpu s') = 0 -> lock_free s' l -> lock_free s' (L_proc me) ->
      k (acq (L_proc me) s') =
      Done tt (acq l (set_k_procs (alter (set_p_chan (fun _ => CH_null)) me) (with_ie (ie s) s'))).
Proof.
  intros Hne Hc H0 Hm Hlen Hl Hp. unfold sleep. cbn [sleep_code perform].
  erewrite bind_done by (apply curproc_spec; [by apply cpu_ok_acq|exact Hm]).
  erewrite bind_done by (apply acquire_spec, lock_free_acq; done).
  erewrite bind_done by (apply release_outer; done).
  unfold setproc. kstep. rewrite !acq_set_k_procs, set_set_k_procs.
  assert (set_k_procs (fun x => alter (set_p_state (fun _ => SLEEPING)) me
            (alter (set_p_chan (fun _ => ch)) me x)) s =
          set_k_procs (alter (asleep ch) me) s) as ->.
  { apply set_k_procs_ext. by rewrite list_alter_alter. }
  set (s1 := set_k_procs (alter (asleep ch) me) s).
  destruct (sched_spec s1 me) as (k & E & Hk); [done|done|done| |].
  { simpl. rewrite lookup_total_alter_eq by done. done. }
  unfold bind at 1. rewrite E. cbn [rbind]. eexists. split; [reflexivity|].
  intros s' H0' Hl' Hp'. cbn beta. rewrite Hk. cbn [rbind]. rewrite restore_intena by done. kstep.
  rewrite acq_set_k_procs.
  erewrite bind_done by (apply release_acq; [by apply (cpu_ok_with_ie (ie s) s')|exact Hp']).
  by erewrite bind_done by (apply acquire_spec; exact Hl').
Qed.

(** [sleep(chan, lk)] undisturbed. The process switches away in a
    state where [lk] has been given back but its own lock is still held, with
    the process already marked as sleeping on [chan]: so whoever calls
    [wakeup(chan)] afterwards makes it runnable. When it is switched back to,
    with its lock held, [sleep] returns with [lk] held again, the channel
    cleared and interrupts as they were. *)
Theorem sleep_switches ch l s me :
  l <> L_proc me -> cpu_ok s -> c_noff (k_cpu s) = 0 -> c_proc (k_cpu s) = Some me ->
  length (k_procs s) = NPROC -> (me < NPROC)%nat -> lock_free s l -> lock_free s (L_proc me) ->
  exists s1 k, sleep ch l (acq l s) = Swtch (acq (L_proc me) s1) k /\
    lock_free s1 l /\
    (forall s2, k_procs s2 = k_procs s1 -> c_proc (k_cpu s2) <> Some me ->
       cpu_ok s2 -> procs_free s2 ->
       wp (wakeup ch) s2 (fun _ s3 => p_state (k_procs s3 !!! me) = RUNNABLE)) /\
    (forall s2, c_noff (k_cpu s2) = 0 -> lock_free s2 l -> lock_free s2 (L_proc me) ->
       (me < length (k_procs s2))%nat ->
       exists s3, k (acq (L_proc me) s2) = Done tt (acq l s3) /\
         p_chan (k_procs s3 !!! me) = CH_null /\ ie s3 = ie s).
Proof.
  intros Hne Hc H0 Hm Hlen Hme Hl Hp.
  destruct (sleep_spec ch l s me) as (k & E & Hk); [done..|lia|done|done|].
  do 2 eexists. split; [exact E|]. split_and!.
  - done.
  - intros s2 Hps Hcur Hc2 Hf. unfold wp. rewrite wakeup_spec by done. simpl.
    destruct (lookup_lt_is_Some_2 (k_procs s) me) as [p Hpm]; [lia|].
    rewrite Hps. simpl. rewrite (list_lookup_total_correct _ me (wake_one ch (asleep ch p))).
    2: { rewrite woken_lookup, decide_True by lia.
      rewrite bool_decide_true by done. by rewrite list_lookup_alter_eq, Hpm. }
    unfold wake_one. simpl. by rewrite !bool_decide_true.
  - intros s2 H02 Hl2 Hp2 Hlen2. eexists. split; [by apply Hk|]. split.
    + simpl. by rewrite lookup_total_alter_eq.
    + apply ie_with_ie.
Qed.

#[local] Transparent NPROC.

End SchedProps.

(** ** No wakeup is lost

    The process [me] runs [sleep(chan, lk)] on one CPU while the others act
    between its steps: they take [lk] when it is free and change what [me]
    waits for, they call [wakeup(chan)], and they do anything else that
    respects the locks. *)
Module Wakeups.
Import SpinlockProps SchedProps Sched Spinlock.

(** A lock held by the CPU that runs in [s]. *)
Definition holds (x : lockid) (s : kstate) : Prop :=
  lk_locked (getlock x s) <> 0 /\ lk_cpu (getlock x s) = Some (Smp.cid s).

(** What the CPU's own bookkeeping leaves alone. *)
Definition same_core (s s' : kstate) : Prop :=
  k_locks s' = k_locks s /\ k_procs s' = k_procs s /\ c_proc (k_cpu s') = c_proc (k_cpu s) /\ Smp.cid s' = Smp.cid s.

(** A step of the code of [sleep], and the state it leaves when it switches to
    the scheduler; both wait while a lock they need is taken. *)
Definition turn (p : code kstate unit) (s : kstate) : option (code kstate unit * kstate) :=
  match p with
  | Ret _ => None
  | Act m k => match m s with Done b s' => Some (k b, s') | _ => None end
  end.

Definition leaves (p : code kstate unit) (s : kstate) : option kstate :=
  match p with
  | Ret _ => None
  | Act m _ => match m s with Swtch s' _ => Some s' | _ => None end
  end.

(** Where [me] is in [sleep] ([None] once it has switched away), the kernel
    state, whether the condition has changed since [sleep] was called, and
    whether a [wakeup(chan)] has looked at [me] after that. *)
Record moment := mkmoment { m_at : option (code kstate unit); m_st : kstate; told : bool; woken : bool }.

Section Sleeper.
Context (me : nat) (ch : chan) (lk : lockid).

Inductive next : moment -> moment -> Prop :=
| n_own p s t w p' s' :
    turn p s = Some (p', s') -> next (mkmoment (Some p) s t w) (mkmoment (Some p') s' t w)
| n_away p s t w s1 s' :        (* scheduler(): c->proc = 0; release(&p->lock) *)
    leaves p s = Some s1 ->
    (modify (set_k_cpu (set_c_proc (fun _ => None)));; release (L_proc me)) s1 = Done tt s' ->
    next (mkmoment (Some p) s t w) (mkmoment None s' t w)
| n_tell a s t w :              (* another CPU takes lk and changes the condition *)
    lk_locked (getlock lk s) = 0 -> next (mkmoment a s t w) (mkmoment a s true w)
| n_visit a s t w L s' :        (* the round of wakeup(chan) for me, on another CPU *)
    c_proc L.1 <> Some me -> wakeup_loop ch me 1 (Smp.on_cpu L s) = Done tt s' ->
    next (mkmoment a s t w) (mkmoment a (Smp.on_cpu (k_cpu s, k_csr s) s') t (t || w))
| n_other a s t w s' :
    k_cpu s' = k_cpu s -> k_csr s' = k_csr s -> (forall x, holds x s -> k_locks s' !! x = k_locks s !! x) ->
    (holds (L_proc me) s -> k_procs s' !! me = k_procs s !! me) ->
    (p_state (k_procs s' !!! me) = SLEEPING ->
     p_state (k_procs s !!! me) = SLEEPING /\ p_chan (k_procs s' !!! me) = p_chan (k_procs s !!! me)) ->
    length (k_procs s') = length (k_procs s) ->
    next (mkmoment a s t w) (mkmoment a s' t w).

Inductive moments (s0 : kstate) : moment -> Prop :=
| m_start : moments s0 (mkmoment (Some (sleep_code ch lk)) s0 false false)
| m_next x y : moments s0 x -> next x y -> moments s0 y.

(** *** The points of [sleep] before the switch *)

Definition at_sched : code kstate unit :=
  _ <~ sched;; _ <~ setproc me (set_p_chan (fun _ => CH_null));; _ <~ release (L_proc me);; _ <~ acquire lk;; Ret tt.
Definition at_state : code kstate unit := _ <~ setproc me (set_p_state (fun _ => SLEEPING));; at_sched.
Definition at_chan : code kstate unit := _ <~ setproc me (set_p_chan (fun _ => ch));; at_state.
Definition at_release : code kstate unit := _ <~ release lk;; at_chan.
Definition at_acquire : code kstate unit := _ <~ acquire (L_proc me);; at_release.

Definition point (p : code kstate unit) (s : kstate) (t : bool) : Prop :=
  (p = sleep_code ch lk \/ p = at_acquire) /\ t = false /\ holds lk s \/
  p = at_release /\ t = false /\ holds lk s /\ holds (L_proc me) s \/
  p = at_chan /\ holds (L_proc me) s \/
  (p = at_state \/ p = at_sched) /\ holds (L_proc me) s /\ p_chan (k_procs s !!! me) = ch.

Definition inv (x : moment) : Prop :=
  (me < length (k_procs (m_st x)))%nat /\
  match m_at x with
  | Some p => c_proc (k_cpu (m_st x)) = Some me /\ woken x = false /\ point p (m_st x) (told x)
  | None => p_state (k_procs (m_st x) !!! me) = SLEEPING ->
      p_chan (k_procs (m_st x) !!! me) = ch /\ woken x = false
  end.
End Sleeper.

(** *** What the steps change *)

Lemma same_core_refl s : same_core s s.
Proof. done. Qed.

Lemma same_core_trans s1 s2 s3 : same_core s1 s2 -> same_core s2 s3 -> same_core s1 s3.
Proof. intros (A1 & A2 & A3 & A4) (B1 & B2 & B3 & B4). unfold same_core. split_and!; congruence. Qed.

Lemma same_core_holds x s s' : same_core s s' -> holds x s -> holds x s'.
Proof. intros (H1 & _ & _ & H4) [A B]. unfold holds, getlock in *. by rewrite H1, H4. Qed.

Lemma pop_off_core s s' u : pop_off s = Done u s' -> same_core s s'.
Proof.
  unfold pop_off, intr_get. kstep. destruct (ie s); [done|]. kstep. destruct (_ <? 1); [done|]. kstep.
  unfold when, intr_on, ret, modify. destruct (_ && _); intros E; injection E as _ <-; done.
Qed.

Lemma pop_off_stays s s' k : pop_off s <> Swtch s' k.
Proof.
  unfold pop_off, intr_get. kstep. destruct (ie s); [done|]. kstep. destruct (_ <? 1); [done|]. kstep.
  by destruct (_ && _).
Qed.

Lemma curproc_stays s s' k : curproc s <> Swtch s' k.
Proof.
  unfold curproc, myproc, bind at 1 2. rewrite push_off_spec. cbn [rbind]. rewrite bind_gets. unfold bind at 1.
  destruct (pop_off (pushed s)) as [u s1|?|?|?|] eqn:E; try done; [|by apply pop_off_stays in E].
  cbn. by destruct (c_proc (k_cpu s)).
Qed.

Lemma curproc_core s p s' : curproc s = Done p s' -> c_proc (k_cpu s) = Some p /\ same_core s s'.
Proof.
  unfold curproc, myproc, bind at 1 2. rewrite push_off_spec. cbn [rbind]. rewrite bind_gets. unfold bind at 1.
  destruct (pop_off (pushed s)) as [u s1|?|?|?|] eqn:E; try done. apply pop_off_core in E. cbn [rbind].
  change (c_proc (k_cpu (pushed s))) with (c_proc (k_cpu s)). cbn. destruct (c_proc (k_cpu s)) as [q|] eqn:Ec; [|done].
  cbn. intros Er. injection Er as -> <-. split; [done|].
  eapply same_core_trans; [|exact E]. done.
Qed.

(** [holding] answers and changes nothing. *)
Lemma then_holding {A} x (f : bool -> code kstate A) s :
  exists b, perform (then_code (holding_code x) f) s = perform (f b) s.
Proof.
  cbn [then_code holding_code perform]. rewrite bind_gets. destruct (lk_locked (getlock x s) =? 0); [by exists false|].
  cbn [then_code perform]. rewrite bind_gets, bind_mycpu. by eexists.
Qed.

Lemma acquire_core x s u s' :
  acquire x s = Done u s' ->
  lk_locked (getlock x s) = 0 /\ k_procs s' = k_procs s /\ c_proc (k_cpu s') = c_proc (k_cpu s) /\
  Smp.cid s' = Smp.cid s /\ holds x s' /\ forall y, y <> x -> k_locks s' !! y = k_locks s !! y.
Proof.
  unfold acquire. cbn [acquire_code perform]. rewrite (bind_done _ _ _ _ _ (push_off_spec s)).
  match goal with |- perform (then_code _ ?f) _ = _ -> _ => destruct (then_holding x f (pushed s)) as [b ->] end.
  destruct b; [done|]. cbn [perform]. unfold bind at 1, test_and_set. rewrite bind_gets, bind_modify.
  change (getlock x (pushed s)) with (getlock x s). destruct (Z.eqb_spec (lk_locked (getlock x s)) 0) as [E|]; [|done].
  cbn. intros Er. injection Er as _ <-. split; [done|]. split; [done|]. split; [done|]. split; [done|]. split.
  - unfold holds, getlock. simpl. by rewrite !lookup_insert_eq.
  - intros y Hy. simpl. by rewrite !lookup_insert_ne.
Qed.

Lemma acquire_stays x s s' k : acquire x s <> Swtch s' k.
Proof.
  unfold acquire. cbn [acquire_code perform]. rewrite (bind_done _ _ _ _ _ (push_off_spec s)).
  match goal with |- perform (then_code _ ?f) _ <> _ => destruct (then_holding x f (pushed s)) as [b ->] end.
  destruct b; [done|]. cbn [perform]. unfold bind at 1, test_and_set. rewrite bind_gets, bind_modify.
  by destruct (negb _).
Qed.

Lemma release_stays x s s' k : release x s <> Swtch s' k.
Proof.
  unfold release, release_code.
  match goal with |- perform (then_code _ ?f) _ <> _ => destruct (then_holding x f s) as [b ->] end.
  destruct b; cbn [perform negb]; [|done]. rewrite !bind_modify. unfold bind at 1.
  match goal with |- context [pop_off ?a] => destruct (pop_off a) as [v s1|?|?|?|] eqn:E; try done end.
  by apply pop_off_stays in E.
Qed.

Lemma release_core x s u s' :
  release x s = Done u s' ->
  k_procs s' = k_procs s /\ c_proc (k_cpu s') = c_proc (k_cpu s) /\ Smp.cid s' = Smp.cid s /\
  forall y, y <> x -> k_locks s' !! y = k_locks s !! y.
Proof.
  unfold release, release_code.
  match goal with |- perform (then_code _ ?f) _ = _ -> _ => destruct (then_holding x f s) as [b ->] end.
  destruct b; cbn [perform negb]; [|done]. rewrite !bind_modify. unfold bind at 1.
  match goal with |- context [pop_off ?a] => destruct (pop_off a) as [v s1|?|?|?|] eqn:E; try done end.
  cbn. intros Er. injection Er as _ <-. apply pop_off_core in E as (E1 & E2 & E3 & E4).
  rewrite E1, E2, E3, E4. split; [done|]. split; [done|]. split; [done|]. intros y Hy. simpl. by rewrite !lookup_insert_ne.
Qed.

(** [sched] does not return before it has switched. *)
Lemma sched_outcome s :
  match sched s with Done _ _ => False | Swtch s' _ => same_core s s' | _ => True end.
Proof.
  unfold sched, bind at 1. destruct (curproc s) as [p s1|?|?|?|] eqn:E; try done; [|by apply curproc_stays in E].
  apply curproc_core in E as [_ E]. cbn [rbind]. unfold holding. unfold bind at 1.
  assert (Hh : exists b, perform (holding_code (L_proc p)) s1 = Done b s1).
  { cbn [holding_code perform]. rewrite bind_gets. destruct (_ =? 0); [by eexists|]. cbn [perform]. rewrite bind_gets, bind_mycpu. by eexists. }
  destruct Hh as [b ->]. cbn [rbind]. destruct b; [|done]. cbn [negb]. rewrite bind_gets.
  destruct (negb _); [done|]. unfold getproc. rewrite bind_gets. destruct (bool_decide _); [done|].
  unfold intr_get. rewrite bind_gets. by destruct (ie s1).
Qed.

Lemma holds_frame x s s' :
  k_locks s' !! x = k_locks s !! x -> Smp.cid s' = Smp.cid s -> holds x s -> holds x s'.
Proof. intros H1 H2. unfold holds, getlock. by rewrite H1, H2. Qed.

(** The end of a round of [wakeup], once the process is locked. *)
Lemma visit_rest ch me (b : bool) s2 s' :
  wake_one ch (k_procs s2 !!! me) = (if b then set_p_state (fun _ => RUNNABLE) (k_procs s2 !!! me) else k_procs s2 !!! me) ->
  rbind ((when b (setproc me (set_p_state (fun _ => RUNNABLE)));; release (L_proc me)) s2) (fun (_ : unit) s0 => Done tt s0) = Done tt s' ->
  k_procs s' = alter (wake_one ch) me (k_procs s2) /\ forall y, y <> L_proc me -> k_locks s' !! y = k_locks s2 !! y.
Proof.
  intros Hb. unfold bind at 1.
  set (s3 := if b then set_k_procs (alter (set_p_state (fun _ => RUNNABLE)) me) s2 else s2).
  replace (when b (setproc me (set_p_state (fun _ => RUNNABLE))) s2) with (Done (S := kstate) tt s3) by (by destruct b). cbn [rbind].
  destruct (release (L_proc me) s3) as [v4 s4|?|?|?|] eqn:Er; try done. apply release_core in Er as (R1 & _ & _ & R4).
  cbn. intros Hd. injection Hd as <-. split.
  - rewrite R1. subst s3. destruct b; simpl; [|symmetry].
    + apply list_alter_ext; [|done]. intros p Hp. by rewrite (list_lookup_total_correct _ _ _ Hp) in Hb.
    + apply list_alter_same. intros p Hp. by rewrite (list_lookup_total_correct _ _ _ Hp) in Hb.
  - intros y Hy. rewrite R4 by done. subst s3. by destruct b.
Qed.

(** The round of [wakeup] for a process whose lock is held has to wait. *)
Lemma visit_core ch me L s s' :
  c_proc L.1 <> Some me -> wakeup_loop ch me 1 (Smp.on_cpu L s) = Done tt s' ->
  lk_locked (getlock (L_proc me) s) = 0 /\ k_procs s' = alter (wake_one ch) me (k_procs s) /\
  forall y, y <> L_proc me -> k_locks s' !! y = k_locks s !! y.
Proof.
  intros Hne. cbn [wakeup_loop]. unfold bind at 1, myproc, bind at 1. rewrite push_off_spec. cbn [rbind].
  rewrite bind_gets. unfold bind at 1. destruct (pop_off (pushed (Smp.on_cpu L s))) as [v s1|?|?|?|] eqn:E; try done.
  apply pop_off_core in E as (E1 & E2 & _). cbn [rbind ret].
  change (c_proc (k_cpu (pushed (Smp.on_cpu L s)))) with (c_proc L.1). unfold ret at 1. cbn [rbind].
  rewrite bool_decide_true by done. cbn [when]. unfold bind at 1 2.
  destruct (acquire (L_proc me) s1) as [v2 s2|?|?|?|] eqn:Ea; try done. apply acquire_core in Ea as (A1 & A2 & _ & _ & _ & A6).
  cbn [rbind]. unfold getproc. rewrite bind_gets. intros Hd.
  apply (visit_rest ch) in Hd as [V1 V2]; [|unfold wake_one; by destruct (_ && _)].
  split; [|split].
  - unfold getlock in *. by rewrite E1 in A1.
  - by rewrite V1, A2, E2.
  - intros y Hy. by rewrite V2, A6, E1.
Qed.

Section Sleeper.
Context (me : nat) (ch : chan) (lk : lockid) (Hlk : lk <> L_proc me).

Lemma holds_not_free x s : holds x s -> lk_locked (getlock x s) <> 0.
Proof. by intros [H _]. Qed.

(** Own steps go from one point to the next. *)
Lemma turn_point p s t p' s' :
  (me < length (k_procs s))%nat -> c_proc (k_cpu s) = Some me -> point me ch lk p s t -> turn p s = Some (p', s') ->
  (me < length (k_procs s'))%nat /\ c_proc (k_cpu s') = Some me /\ point me ch lk p' s' t.
Proof.
  intros Hlen Hc [([-> | ->] & -> & Hh)|[(-> & -> & Hh & Hp)|[(-> & Hp)|([-> | ->] & Hp & Hch)]]].
  - cbn [turn sleep_code]. destruct (curproc s) as [q s1|?|?|?|] eqn:E; try done. intros Ht. injection Ht as <- <-.
    apply curproc_core in E as [Hq E]. rewrite Hc in Hq. injection Hq as <-. pose proof E as (_ & E2 & E3 & _).
    rewrite E2, E3. split; [done|]. split; [done|]. left. split; [by right|]. split; [done|]. by eapply same_core_holds.
  - cbn [turn at_acquire]. destruct (acquire _ s) as [q s1|?|?|?|] eqn:E; try done. intros Ht. injection Ht as <- <-.
    apply acquire_core in E as (_ & E2 & E3 & E4 & E5 & E6). rewrite E2, E3. split; [done|]. split; [done|].
    right. left. split_and!; try done. apply (holds_frame lk s); [by apply E6|done|done].
  - cbn [turn at_release]. destruct (release _ s) as [q s1|?|?|?|] eqn:E; try done. intros Ht. injection Ht as <- <-.
    apply release_core in E as (E2 & E3 & E4 & E6). rewrite E2, E3. split; [done|]. split; [done|].
    right. right. left. split; [done|]. apply (holds_frame (L_proc me) s); [by apply E6|done|done].
  - cbn [turn at_chan setproc modify]. intros Ht. injection Ht as <- <-. simpl. rewrite length_alter. split; [done|]. split; [done|].
    right. right. right. split; [by left|]. split; [exact Hp|]. simpl. by rewrite lookup_total_alter_eq.
  - cbn [turn at_state setproc modify]. intros Ht. injection Ht as <- <-. simpl. rewrite length_alter. split; [done|]. split; [done|].
    right. right. right. split; [by right|]. split; [exact Hp|]. simpl. by rewrite lookup_total_alter_eq.
  - cbn [turn at_sched]. pose proof (sched_outcome s) as Ho. by destruct (sched s).
Qed.

(** Only [sched] switches, and then [me] sleeps on [chan] or not at all. *)
Lemma leaves_point p s t s1 :
  point me ch lk p s t -> leaves p s = Some s1 -> same_core s s1 /\ p_chan (k_procs s !!! me) = ch.
Proof.
  intros [([-> | ->] & -> & Hh)|[(-> & -> & Hh & Hp)|[(-> & Hp)|([-> | ->] & Hp & Hch)]]].
  - cbn [leaves sleep_code]. destruct (curproc s) eqn:E; try done. by apply curproc_stays in E.
  - cbn [leaves at_acquire]. destruct (acquire (L_proc me) s) eqn:E; try done. by apply acquire_stays in E.
  - cbn [leaves at_release]. destruct (release lk s) eqn:E; try done. by apply release_stays in E.
  - done.
  - done.
  - cbn [leaves at_sched]. pose proof (sched_outcome s) as Ho. destruct (sched s); try done. intros Ht. by injection Ht as <-.
Qed.

Lemma next_inv x y : inv me ch lk x -> next me ch lk x y -> inv me ch lk y.
Proof.
  intros [Hlen Hx] Hn. destruct Hn as [p s t w p' s' E|p s t w s1 s' E Er|a s t w E|a s t w L s' HL E|a s t w s' E1 E2 E3 E4 E5 E6];
    unfold inv in *; cbn [m_at m_st told woken] in *.
  - destruct Hx as (Hc & Hw & Hp). destruct (turn_point p s t p' s' Hlen Hc Hp E) as (H1 & H2 & H3). by split_and!.
  - destruct Hx as (Hc & -> & Hp). destruct (leaves_point p s t s1 Hp E) as [(C1 & C2 & C3 & C4) Hch].
    rewrite bind_modify in Er. apply release_core in Er as (R1 & _). rewrite R1. simpl. rewrite C2. split; [done|]. by split.
  - split; [done|]. destruct a as [p|]; [|done]. destruct Hx as (Hc & Hw & Hp). split; [done|]. split; [done|].
    destruct Hp as [(_ & _ & Hh)|[(_ & _ & Hh & _)|Hp]]; [by apply holds_not_free in Hh..|].
    right. right. exact Hp.
  - apply visit_core in E as (V1 & V2 & V3); [|done]. simpl. rewrite V2, length_alter. split; [done|].
    destruct a as [p|].
    + destruct Hx as (Hc & -> & Hp). split; [done|].
      destruct Hp as [(Hpt & -> & Hh)|[(_ & _ & _ & Hh)|[(_ & Hh)|(_ & Hh & _)]]]; [|by apply holds_not_free in Hh..].
      split; [done|]. left. split; [done|]. split; [done|]. eapply (holds_frame lk s); [by apply V3|done|done].
    + rewrite lookup_total_alter_eq by done. unfold wake_one. destruct (_ && _) eqn:Eb; [done|]. intros Hs.
      destruct (Hx Hs) as [Hch _]. rewrite Hs, Hch, !bool_decide_true in Eb by done. done.
  - rewrite E6. split; [done|]. destruct a as [p|].
    + rewrite E1. destruct Hx as (Hc & Hw & Hp). split; [done|]. split; [done|].
      assert (Hcid : Smp.cid s' = Smp.cid s) by (unfold Smp.cid; by rewrite E2).
      assert (Hh : forall x, holds x s -> holds x s') by (intros x Hx; apply (holds_frame x s); auto).
      destruct Hp as [(Hpt & -> & Hl)|[(-> & -> & Hl & Hp)|[(-> & Hp)|(Hpt & Hp & Hch)]]].
      * left. auto.
      * right. left. auto.
      * right. right. left. auto.
      * right. right. right. split; [done|]. split; [auto|]. rewrite list_lookup_total_alt, (E4 Hp), <- list_lookup_total_alt. exact Hch.
    + intros Hs. destruct (E5 Hs) as [Hs' ->]. by apply Hx.
Qed.

Lemma moments_inv s0 x :
  (me < length (k_procs s0))%nat -> c_proc (k_cpu s0) = Some me -> holds lk s0 -> moments me ch lk s0 x -> inv me ch lk x.
Proof.
  intros Hlen Hc Hh. induction 1 as [|x y _ IH Hn]; [|by eapply next_inv].
  split; [done|]. split; [done|]. split; [done|]. left. split; [by left|]. by split.
Qed.
End Sleeper.

(** C6: no wakeup is lost. Process [me] calls [sleep(chan, lk)] with [lk] held,
    and the other CPUs act in between its steps. Whenever one of them has taken
    [lk] since the call, to change what [me] waits for, and a [wakeup(chan)] has
    looked at [me] after that, [me] has switched away and is not sleeping any
    more: the wakeup has found it asleep and made it runnable. *)
Theorem sleep_no_lost_wakeup me ch lk s0 x :
  lk <> L_proc me -> (me < length (k_procs s0))%nat -> c_proc (k_cpu s0) = Some me -> holds lk s0 ->
  moments me ch lk s0 x -> woken x = true ->
  m_at x = None /\ p_state (k_procs (m_st x) !!! me) <> SLEEPING.
Proof.
  intros Hne Hlen Hc Hh Hm Hw. destruct (moments_inv me ch lk Hne s0 x Hlen Hc Hh Hm) as [_ Hx].
  destruct (m_at x); [destruct Hx as (_ & Hf & _); by rewrite Hw in Hf|].
  split; [done|]. intros Hs. destruct (Hx Hs) as [_ Hf]. by rewrite Hw in Hf.
Qed.

(** *** A run: the process goes to sleep, the condition changes, it is woken *)

Section Run.
Context (me : nat) (ch : chan) (lk : lockid).

Definition own (x : moment) : moment :=
  match m_at x with
  | Some p => match turn p (m_st x) with Some (p', s') => mkmoment (Some p') s' (told x) (woken x) | None => x end
  | None => x
  end.

Definition away (x : moment) : moment :=
  match m_at x with
  | Some p =>
      match leaves p (m_st x) with
      | Some s1 =>
          match (modify (set_k_cpu (set_c_proc (fun _ => None)));; release (L_proc me)) s1 with
          | Done _ s' => mkmoment None s' (told x) (woken x)
          | _ => x
          end
      | None => x
      end
  | None => x
  end.

Definition tell (x : moment) : moment :=
  if lk_locked (getlock lk (m_st x)) =? 0 then mkmoment (m_at x) (m_st x) true (woken x) else x.

Definition visit (x : moment) : moment :=
  let L := (mkcpu None 0 false, set_tp (fun _ => 1) (k_csr (kstate0 ∅ [] []))) in
  match wakeup_loop ch me 1 (Smp.on_cpu L (m_st x)) with
  | Done _ s' => mkmoment (m_at x) (Smp.on_cpu (k_cpu (m_st x), k_csr (m_st x)) s') (told x) (told x || woken x)
  | _ => x
  end.

Lemma own_moment s0 x : moments me ch lk s0 x -> moments me ch lk s0 (own x).
Proof.
  intros H. destruct x as [a s t w]. unfold own. cbn [m_at m_st told woken]. destruct a as [p|]; [|done].
  destruct (turn p s) as [[p' s']|] eqn:E; [|done]. eapply m_next; [done|]. by apply n_own.
Qed.

Lemma away_moment s0 x : moments me ch lk s0 x -> moments me ch lk s0 (away x).
Proof.
  intros H. destruct x as [a s t w]. unfold away. cbn [m_at m_st told woken]. destruct a as [p|]; [|done].
  destruct (leaves p s) as [s1|] eqn:E; [|done].
  destruct (bind _ _ s1) as [[] s'|?|?|?|] eqn:Er; try done. eapply m_next; [done|]. by eapply n_away.
Qed.

Lemma tell_moment s0 x : moments me ch lk s0 x -> moments me ch lk s0 (tell x).
Proof.
  intros H. destruct x as [a s t w]. unfold tell. cbn [m_at m_st told woken]. destruct (Z.eqb_spec (lk_locked (getlock lk s)) 0); [|done].
  eapply m_next; [done|]. by apply n_tell.
Qed.

Lemma visit_moment s0 x : moments me ch lk s0 x -> moments me ch lk s0 (visit x).
Proof.
  intros H. destruct x as [a s t w]. unfold visit. cbn [m_at m_st told woken]. destruct (wakeup_loop _ _ _ _) as [[] s'|?|?|?|] eqn:E; try done.
  eapply m_next; [done|]. eapply n_visit; [|exact E]. done.
Qed.
End Run.

Definition doze_start : kstate :=
  acq L_ticks (set_k_locks (insert L_ticks (mkspinlock 0 "time" None)) (set_k_cpu (set_c_proc (fun _ => Some 3%nat)) wake_test_state)).

Definition doze_end : moment :=
  visit 3 CH_ticks (tell L_ticks (away 3 (Nat.iter 5 own (mkmoment (Some (sleep_code CH_ticks L_ticks)) doze_start false false)))).

Lemma sleep_no_lost_wakeup_witness :
  woken doze_end = true /\ p_state (k_procs (m_st doze_end) !!! 3%nat) <> SLEEPING.
Proof.
  assert (Hw : woken doze_end = true) by (vm_compute; reflexivity). split; [exact Hw|].
  refine (proj2 (sleep_no_lost_wakeup 3 CH_ticks L_ticks doze_start doze_end _ _ _ _ _ Hw)).
  - done.
  - vm_compute. lia.
  - reflexivity.
  - by split.
  - unfold doze_end. apply visit_moment, tell_moment, away_moment. cbn [Nat.iter nat_rect].
    do 5 apply own_moment. apply m_start.
Defined.
End Wakeups.
