(* ===== verification/SleepLock.v ===== *)
(** * Sleep locks ([kernel/sleeplock.c])

    A sleep lock is a field of a buffer or of an inode; [SL_buf] and [SL_inode]
    name it. A process that finds it taken sleeps on it, so [acquiresleep] may
    switch away any number of times; [sleep_fuel] bounds how often it is woken
    without getting the lock. [SleepLockProps] has what one call does and the
    exclusion of any number of processes. *)

From stdpp Require Import gmap strings list.
From Stdlib Require Import ZArith Lia.
From S2P Require Import Prelude KState Spinlock Sched.
Open Scope Z_scope.
Import Spinlock Sched.

Module SleepLock.

Definition sleep_fuel : nat := 1000.

Definition getsl (l : slid) (s : kstate) : sleeplock :=
  match l with
  | SL_buf i => b_lock (k_bufs s !!! i)
  | SL_inode i => i_lock (k_inodes s !!! i)
  end.

Definition setsl (l : slid) (g : sleeplock -> sleeplock) (s : kstate) : kstate :=
  match l with
  | SL_buf i => set_k_bufs (alter (set_b_lock g) i) s
  | SL_inode i => set_k_inodes (alter (set_i_lock g) i) s
  end.

Definition initsleeplock (l : slid) (name : string) : K unit :=
  initlock (L_sl l) "sleep lock";;
  modify (setsl l (set_sl_name (fun _ => name)));;
  modify (setsl l (set_sl_locked (fun _ => 0)));;
  modify (setsl l (set_sl_pid (fun _ => 0))).

Fixpoint acquiresleep_wait (l : slid) (fuel : nat) : K unit :=
  match fuel with
  | O => nofuel
  | S f =>
      lk <- gets (getsl l);;
      if negb (sl_locked lk =? 0)
      then sleep (CH_sl l) (L_sl l);; acquiresleep_wait l f
      else ret tt
  end.

Definition acquiresleep (l : slid) : K unit :=
  acquire (L_sl l);;
  acquiresleep_wait l sleep_fuel;;
  modify (setsl l (set_sl_locked (fun _ => 1)));;
  p <- curproc;;
  pr <- getproc p;;
  modify (setsl l (set_sl_pid (fun _ => p_pid pr)));;
  release (L_sl l).

Definition releasesleep (l : slid) : K unit :=
  acquire (L_sl l);;
  modify (setsl l (set_sl_locked (fun _ => 0)));;
  modify (setsl l (set_sl_pid (fun _ => 0)));;
  wakeup (CH_sl l);;
  release (L_sl l).

Definition holdingsleep (l : slid) : K bool :=
  acquire (L_sl l);;
  lk <- gets (getsl l);;
  r <- (if negb (sl_locked lk =? 0)
        then p <- curproc;; pr <- getproc p;; ret (sl_pid lk =? p_pid pr)
        else ret false);;
  release (L_sl l);;
  ret r.

End SleepLock.

Module SleepLockProps.
Import SpinlockProps SchedProps SleepLock.

(** The kernel is executing system-call code of process [me] and holds no
    lock: the state in which the kernel's own functions call each other. *)
Definition quiet (s : kstate) (me : nat) : Prop :=
  cpu_ok s /\ c_proc (k_cpu s) = Some me /\ c_noff (k_cpu s) = 0 /\
  length (k_procs s) = NPROC /\ (me < NPROC)%nat /\
  (forall i, (i < NPROC)%nat -> lock_free s (L_proc i)).

Definition mypid (s : kstate) (me : nat) : Z := p_pid (k_procs s !!! me).

Definition sl_taken (pid : Z) (lk : sleeplock) : sleeplock :=
  mksleeplock 1 (sl_name lk) pid.
Definition sl_given (lk : sleeplock) : sleeplock := mksleeplock 0 (sl_name lk) 0.

Lemma acq_getsl l l' s : getsl l (acq l' s) = getsl l s.
Proof. by destruct l. Qed.

Lemma acq_setsl l g l' s : setsl l g (acq l' s) = acq l' (setsl l g s).
Proof. by destruct l. Qed.

Lemma setsl_setsl l f g s : setsl l f (setsl l g s) = setsl l (fun x => f (g x)) s.
Proof.
  destruct l; simpl.
  - rewrite set_set_k_bufs. apply set_k_bufs_ext. by rewrite list_alter_alter.
  - rewrite set_set_k_inodes. apply set_k_inodes_ext. by rewrite list_alter_alter.
Qed.

Lemma setsl_ext l f g s : (forall x, f x = g x) -> setsl l f s = setsl l g s.
Proof.
  intros H. destruct l; simpl.
  - apply set_k_bufs_ext, list_alter_ext; [|done]. intros. unfold set_b_lock. by rewrite H.
  - apply set_k_inodes_ext, list_alter_ext; [|done]. intros. unfold set_i_lock. by rewrite H.
Qed.

(** Taking, giving back and testing a sleep lock nobody waits for. *)
Lemma acquiresleep_spec l s me :
  quiet s me -> lock_free s (L_sl l) -> sl_locked (getsl l s) = 0 ->
  acquiresleep l s = Done tt (setsl l (sl_taken (mypid s me)) s).
Proof.
  intros (Hc & Hm & H0 & Hlen & Hme & Hp) Hl Hz. unfold acquiresleep.
  rewrite (bind_done _ _ _ _ _ (acquire_spec _ _ Hl)).
  unfold sleep_fuel. cbn [acquiresleep_wait].
  erewrite bind_done; [|kstep; rewrite acq_getsl, Hz; reflexivity].
  kstep. rewrite acq_setsl.
  erewrite bind_done by (apply curproc_spec; [apply cpu_ok_acq; by destruct l|by destruct l]).
  unfold getproc. kstep. rewrite acq_setsl, setsl_setsl.
  change (k_procs (acq (L_sl l) ?x)) with (k_procs x).
  rewrite release_acq by (by destruct l). f_equal. 
  rewrite (setsl_ext l _ (sl_taken (mypid s me))); [done|].
  intros [a b c]. unfold sl_taken, mypid. simpl. by destruct l.
Qed.

Lemma releasesleep_spec l s me :
  quiet s me -> lock_free s (L_sl l) ->
  releasesleep l s =
  Done tt (set_k_procs (woken (CH_sl l) (Some me) 0 NPROC) (setsl l sl_given s)).
Proof.
  intros (Hc & Hm & H0 & Hlen & Hme & Hp) Hl. unfold releasesleep.
  rewrite (bind_done _ _ _ _ _ (acquire_spec _ _ Hl)). kstep.
  rewrite !acq_setsl, setsl_setsl.
  rewrite (setsl_ext l _ sl_given) by (by intros []).
  erewrite bind_done.
  2: { apply wakeup_spec; [apply cpu_ok_acq; by destruct l|].
    intros i Hi _. apply lock_free_acq; [done|]. destruct l; apply Hp; done. }
  change (c_proc (k_cpu (acq (L_sl l) (setsl l sl_given s))))
    with (c_proc (k_cpu (setsl l sl_given s))).
  assert (c_proc (k_cpu (setsl l sl_given s)) = Some me) as -> by (by destruct l).
  rewrite acq_set_k_procs. apply release_acq; by destruct l.
Qed.

Lemma holdingsleep_spec l s me :
  quiet s me -> lock_free s (L_sl l) ->
  holdingsleep l s =
  Done (negb (sl_locked (getsl l s) =? 0) && (sl_pid (getsl l s) =? mypid s me)) s.
Proof.
  intros (Hc & Hm & H0 & Hlen & Hme & Hp) Hl. unfold holdingsleep.
  rewrite (bind_done _ _ _ _ _ (acquire_spec _ _ Hl)). kstep. rewrite acq_getsl.
  destruct (sl_locked (getsl l s) =? 0); kstep.
  - by rewrite (bind_done _ _ _ _ _ (release_acq _ _ Hc Hl)).
  - erewrite bind_done.
    2: { erewrite bind_done by (apply curproc_spec; [by apply cpu_ok_acq|exact Hm]).
         unfold getproc. kstep. reflexivity. }
    by rewrite (bind_done _ _ _ _ _ (release_acq _ _ Hc Hl)).
Qed.

(** ** Mutual exclusion while other processes run

    [handed_on lk me s]: the scheduler's side of a switch of a process that
    sleeps with [lk], before and after: the process's own lock is held, and
    apart from it the state is quiet. *)
Definition handed_on (lk : lockid) (me : nat) (s : kstate) : Prop :=
  exists s2, s = acq (L_proc me) s2 /\
    c_noff (k_cpu s2) = 0 /\ c_proc (k_cpu s2) = Some me /\
    length (k_procs s2) = NPROC /\
    (forall i, (i < NPROC)%nat -> lock_free s2 (L_proc i)) /\ lock_free s2 lk.

Definition handed (l : slid) : nat -> kstate -> Prop := handed_on (L_sl l).

(** What a process that is put to sleep leaves alone: everything but its own
    entry in the process table, the locks and its CPU. *)
Definition unmoved (me : nat) (s s' : kstate) : Prop :=
  k_bufs s' = k_bufs s /\ k_inodes s' = k_inodes s /\ k_log s' = k_log s /\
  (forall q, q <> me -> k_procs s' !!! q = k_procs s !!! q) /\ p_pid (k_procs s' !!! me) = p_pid (k_procs s !!! me).

Lemma unmoved_refl me s : unmoved me s s.
Proof. done. Qed.

Lemma unmoved_trans me s1 s2 s3 : unmoved me s1 s2 -> unmoved me s2 s3 -> unmoved me s1 s3.
Proof.
  intros (A1 & A2 & A3 & A4 & A5) (B1 & B2 & B3 & B4 & B5). split_and!; [congruence..| |congruence].
  intros q Hq. by rewrite B4, A4.
Qed.

Lemma unmoved_acq me l s : unmoved me s (acq l s).
Proof. done. Qed.

Lemma unmoved_alter me g s : (forall p, p_pid (g p) = p_pid p) -> unmoved me s (set_k_procs (alter g me) s).
Proof.
  intros Hg. split_and!; try done; simpl.
  - intros q Hq. by rewrite list_lookup_total_alter_ne.
  - rewrite !list_lookup_total_alt, list_lookup_alter_eq. destruct (k_procs s !! me); [apply Hg|done].
Qed.

(** [sleep] between its call, the switch and its return. *)
Lemma sleep_segments n ch lk me s s0 (G : kstate -> kstate -> Prop) (J : kstate -> Prop) Q :
  (forall i, lk <> L_proc i) -> quiet s me -> lock_free s lk -> (forall s', J s' -> handed_on lk me s') ->
  G s0 (acq (L_proc me) (set_k_procs (alter (asleep ch) me) s)) ->
  (forall s' s1, J s' -> unmoved me s' s1 -> quiet s1 me -> lock_free s1 lk -> Q (pred n) tt s' (acq lk s1)) ->
  segments n (sleep ch lk (acq lk s)) s0 G J Q.
Proof.
  intros Hne (Hc & Hm & H0 & Hlen & Hme & Hp) Hl HJ HG HQ.
  destruct (sleep_spec ch lk s me) as (k & Hs & Hk); [done..|lia|done|auto|].
  rewrite Hs. cbn [segments]. split; [exact HG|]. intros s' Hs'. pose proof (HJ s' Hs') as (s2 & -> & H02 & Hm2 & Hlen2 & Hp2 & Hl2).
  rewrite Hk by auto. cbn [segments]. apply HQ; [done| |split_and!|done].
  - eapply (unmoved_trans _ _ (with_ie (ie s) s2)); [done|]. by apply unmoved_alter.
  - by apply (cpu_ok_with_ie (ie s) s2).
  - done.
  - done.
  - simpl. by rewrite length_alter.
  - done.
  - exact Hp2.
Qed.

(** *** The lock and the processes that want it *)

Definition sl_in (l : slid) (s : kstate) : Prop :=
  match l with SL_buf i => (i < length (k_bufs s))%nat | SL_inode i => (i < length (k_inodes s))%nat end.

Definition dozes (l : slid) (p : nat) (s : kstate) : Prop :=
  p_state (k_procs s !!! p) = SLEEPING /\ p_chan (k_procs s !!! p) = CH_sl l.

(** A process outside, one whose call of [acquiresleep] has switched away and
    goes on with [k] (at most [n] times more in vain), and one whose call has
    returned. *)
Inductive status := Out | Waiting (n : nat) (k : kstate -> res kstate unit) | Owner.

Definition upd (st : nat -> status) (p : nat) (x : status) : nat -> status := fun q => if decide (q = p) then x else st q.

(** The state and the status a call that was made or resumed leads to. *)
Inductive outcome (n : nat) : res kstate unit -> kstate -> status -> Prop :=
| o_done s : outcome n (Done tt s) s Owner
| o_switch s k : outcome n (Swtch s k) s (Waiting (pred n) k).

(** Any number of processes call [acquiresleep] and [releasesleep], and are
    switched between wherever one of them sleeps. In between the kernel does
    anything that leaves the lock, its sleepers and the process ids of the
    processes involved alone. *)
Inductive reach (l : slid) : kstate -> (nat -> status) -> Prop :=
| r_init s : sl_in l s -> sl_locked (getsl l s) = 0 -> reach l s (fun _ => Out)
| r_other s st s' :
    reach l s st -> getsl l s' = getsl l s -> sl_in l s' -> (forall p, dozes l p s' -> dozes l p s) ->
    (forall p, st p <> Out -> p_pid (k_procs s' !!! p) = p_pid (k_procs s !!! p)) -> reach l s' st
| r_call s st p s' x :
    reach l s st -> st p = Out -> quiet s p -> lock_free s (L_sl l) ->
    outcome sleep_fuel (acquiresleep l s) s' x -> reach l s' (upd st p x)
| r_resume s st p n k s' x :
    reach l s st -> st p = Waiting n k -> handed l p s -> outcome n (k s) s' x -> reach l s' (upd st p x)
| r_give s st p s' :
    reach l s st -> st p = Owner -> quiet s p -> lock_free s (L_sl l) ->
    releasesleep l s = Done tt s' -> reach l s' (upd st p Out).

Lemma getsl_setsl l g s : sl_in l s -> getsl l (setsl l g s) = g (getsl l s).
Proof. destruct l as [i|i]; simpl; intros Hi; rewrite lookup_total_alter_eq by done; done. Qed.

Lemma unmoved_getsl me l s s' : unmoved me s s' -> getsl l s' = getsl l s.
Proof. intros (H1 & H2 & _). destruct l; simpl; by rewrite ?H1, ?H2. Qed.

Lemma unmoved_in me l s s' : unmoved me s s' -> sl_in l s -> sl_in l s'.
Proof. intros (H1 & H2 & _). destruct l; simpl; by rewrite ?H1, ?H2. Qed.

#[local] Opaque NPROC.

Section Exclude.
Context (l : slid).

Definition slept (me : nat) (s0 s : kstate) : Prop := sl_locked (getsl l s0) <> 0 /\ unmoved me s0 s.
Definition switched (me : nat) (s : kstate) : Prop := handed l me s /\ sl_in l s.
Definition took (me : nat) (_ : nat) (_ : unit) (s0 s : kstate) : Prop :=
  sl_locked (getsl l s0) = 0 /\ getsl l s = sl_taken (mypid s0 me) (getsl l s0) /\ sl_in l s /\
  (forall q, q <> me -> k_procs s !!! q = k_procs s0 !!! q) /\ mypid s me = mypid s0 me.

(** The spin lock is held again and the sleep lock found free. *)
Definition found (me : nat) (_ : nat) (_ : unit) (s0 s : kstate) : Prop :=
  exists s1, s = acq (L_sl l) s1 /\ quiet s1 me /\ lock_free s1 (L_sl l) /\ unmoved me s0 s1 /\ sl_in l s0 /\
    sl_locked (getsl l s0) = 0.

Lemma wait_segments me fuel s s0 :
  quiet s me -> lock_free s (L_sl l) -> unmoved me s0 s -> sl_in l s0 ->
  segments fuel (acquiresleep_wait l fuel (acq (L_sl l) s)) s0 (slept me) (switched me) (found me).
Proof.
  revert s s0. induction fuel as [|f IH]; intros s s0 Hq Hl Hu Hin; cbn [acquiresleep_wait]; [done|].
  kstep. rewrite acq_getsl. pose proof (unmoved_getsl me l _ _ Hu) as Eg.
  destruct (Z.eqb_spec (sl_locked (getsl l s)) 0) as [E|E]; kstep; rewrite Eg in E.
  { exists s. by split_and!. }
  eapply segments_bind.
  - apply (sleep_segments _ (CH_sl l) (L_sl l) me s s0 _ _ (fun n _ s0 s' =>
      n = f /\ exists s1, s' = acq (L_sl l) s1 /\ unmoved me s0 s1 /\ quiet s1 me /\ lock_free s1 (L_sl l) /\ sl_in l s0));
      [done|done|done|by intros s' [H _]| |].
    + split; [done|]. eapply unmoved_trans; [exact Hu|]. by apply (unmoved_alter me (asleep (CH_sl l))).
    + intros s' s1 [_ Hs'] H1 H2 H3. split; [done|]. exists s1. by split_and!.
  - intros n [] s1 s' (-> & s2 & -> & Hu2 & Hq2 & Hl2 & Hi2). by apply IH.
Qed.

Lemma acquiresleep_segments me s :
  quiet s me -> lock_free s (L_sl l) -> sl_in l s ->
  segments sleep_fuel (acquiresleep l s) s (slept me) (switched me) (took me).
Proof.
  intros Hq Hl Hin. unfold acquiresleep. rewrite (bind_done _ _ _ _ _ (acquire_spec _ _ Hl)).
  eapply segments_bind; [by apply wait_segments|].
  intros n [] s0 s' (s1 & -> & (Hc & Hm & H0 & Hlen & Hme & Hp) & Hl1 & Hu & Hi0 & Hz). kstep. rewrite acq_setsl.
  erewrite bind_done by (apply curproc_spec; [apply cpu_ok_acq; by destruct l|by destruct l]).
  unfold getproc. kstep. rewrite acq_setsl, setsl_setsl.
  change (k_procs (acq (L_sl l) ?x)) with (k_procs x).
  rewrite release_acq by (by destruct l). cbn [segments].
  set (g := fun x => _). assert (Hpr : k_procs (setsl l g s1) = k_procs s1) by (by destruct l).
  pose proof (unmoved_in _ _ _ _ Hu Hi0) as Hi1. pose proof Hu as (_ & _ & _ & Hq1 & Hpid).
  split; [done|]. split; [|split; [|split]].
  - rewrite getsl_setsl by done. rewrite (unmoved_getsl _ _ _ _ Hu). subst g. cbn.
    destruct (getsl l s0) as [a nm b]. unfold sl_taken, mypid. cbn.
    replace (k_procs (setsl l _ s1)) with (k_procs s1) by (by destruct l). by rewrite Hpid.
  - clear Hpr. destruct l; simpl; by rewrite length_alter.
  - intros q Hne. rewrite Hpr. by apply Hq1.
  - unfold mypid. by rewrite Hpr.
Qed.

Lemma segments_free n me r s :
  segments n r s (slept me) (switched me) (took me) -> sl_locked (getsl l s) = 0 -> (0 < n)%nat -> exists s', r = Done tt s'.
Proof.
  intros Hs Hz Hn. destruct r as [[] s'|msg s'|s'|s' k|]; cbn [segments] in Hs; [by exists s'|done|done| |lia].
  by destruct Hs as [[Hl _] _].
Qed.

(** *** The invariant *)

Definition inv (s : kstate) (st : nat -> status) : Prop :=
  sl_in l s /\
  (forall p q, st p = Owner -> st q = Owner -> p = q) /\
  (forall p, st p = Owner -> sl_locked (getsl l s) <> 0 /\ sl_pid (getsl l s) = mypid s p) /\
  (forall p n k, st p = Waiting n k -> forall s', switched p s' -> segments n (k s') s' (slept p) (switched p) (took p)) /\
  (sl_locked (getsl l s) = 0 -> forall p n k, st p = Waiting n k -> ~ dozes l p s).

Lemma upd_cases st p x q y : upd st p x q = y -> q = p /\ x = y \/ q <> p /\ st q = y.
Proof. unfold upd. case_decide; auto. Qed.

(** A call that is made or resumed keeps it. *)
Lemma outcome_inv n s st p r s' x :
  inv s st -> st p <> Owner -> segments n r s (slept p) (switched p) (took p) -> outcome n r s' x -> inv s' (upd st p x).
Proof.
  intros (I1 & I2 & I3 & I4 & I5) Hp Hr Ho. destruct Ho as [s1|s1 k]; cbn [segments] in Hr.
  - destruct Hr as (Hz & Hg & Hin & Hoth & Hpid). unfold inv. rewrite Hg.
    assert (Hno : forall q, st q <> Owner) by (intros q Hq; by destruct (I3 q Hq)).
    split; [done|]. split_and!.
    + intros a b [[-> _]|[_ Ha]]%upd_cases [[-> _]|[_ Hb]]%upd_cases; [done|by apply Hno in Hb|by apply Hno in Ha|by apply Hno in Ha].
    + intros a [[-> _]|[_ Ha]]%upd_cases; [|by apply Hno in Ha]. by rewrite Hpid.
    + intros a m k [[_ Ha]|[_ Ha]]%upd_cases; [done|by apply (I4 a)].
    + done.
  - destruct Hr as ((Hz & Hu) & Hk). unfold inv. rewrite (unmoved_getsl _ _ _ _ Hu). pose proof Hu as (_ & _ & _ & Hoth & _).
    split; [by eapply unmoved_in|]. split_and!.
    + intros a b [[_ Ha]|[_ Ha]]%upd_cases [[_ Hb]|[_ Hb]]%upd_cases; try done. by apply I2.
    + intros a [[_ Ha]|[Hne Ha]]%upd_cases; [done|]. unfold mypid. rewrite Hoth by done. by apply I3.
    + intros a m j [[-> [= <- <-]]|[_ Ha]]%upd_cases; [exact Hk|by apply (I4 a)].
    + done.
Qed.

Lemma reach_inv s st : reach l s st -> inv s st.
Proof.
  induction 1 as [s Hin Hz|s st s' _ IH Hg Hin Hd Hpid|s st p s' x _ IH Hp Hq Hl Ho|s st p n k s' x _ IH Hp Hh Ho|s st p s' _ IH Hp Hq Hl Hr].
  - split_and!; done.
  - destruct IH as (I1 & I2 & I3 & I4 & I5). unfold inv. rewrite Hg. split; [done|]. split_and!; [done| |done|].
    + intros p Hp. unfold mypid. rewrite Hpid by (by rewrite Hp). by apply I3.
    + intros Hz p n k Hp Hs. by apply (I5 Hz p n k Hp), Hd.
  - apply (outcome_inv sleep_fuel s st p (acquiresleep l s)); [done|by rewrite Hp| |done].
    apply acquiresleep_segments; [done|done|apply IH].
  - apply (outcome_inv n s st p (k s)); [done|by rewrite Hp| |done]. destruct IH as (I1 & _ & _ & I4 & _).
    by apply (I4 p n k Hp).
  - rewrite (releasesleep_spec l s p Hq Hl) in Hr. injection Hr as <-. destruct IH as (I1 & I2 & I3 & I4 & I5).
    set (s1 := setsl l sl_given s).
    assert (Hg : forall g x, getsl l (set_k_procs g x) = getsl l x) by (by destruct l).
    assert (Hno : forall q, upd st p Out q <> Owner).
    { intros q [[_ Hq']|[Hne Hq']]%upd_cases; [done|]. destruct Hne. by apply I2. }
    assert (Hin1 : sl_in l s1) by (subst s1; destruct l; simpl in *; by rewrite length_alter).
    split; [by destruct l|]. split_and!.
    + intros a b Ha. by apply Hno in Ha.
    + intros a Ha. by apply Hno in Ha.
    + intros a m k [[_ Ha]|[_ Ha]]%upd_cases; [done|by apply (I4 a)].
    + intros _ a n k [[_ Ha]|[Hne _]]%upd_cases [Hs Hch]; [discriminate Ha|]. cbn [k_procs set_k_procs] in Hs, Hch.
      rewrite list_lookup_total_alt, woken_lookup in Hs, Hch.
      destruct Hq as (_ & _ & _ & Hlen & _). assert (Hpr : k_procs s1 = k_procs s) by (by destruct l). rewrite Hpr in Hs, Hch.
      destruct (decide (0 <= a < 0 + NPROC)%nat) as [Hr|Hr].
      * rewrite bool_decide_true in Hs, Hch by (intros [= ->]; done).
        destruct (k_procs s !! a) as [pa|] eqn:Ea; [|done]. simpl in Hs, Hch. unfold wake_one in Hs, Hch.
        destruct (bool_decide (p_state pa = SLEEPING)) eqn:E1, (bool_decide (p_chan pa = CH_sl l)) eqn:E2; simpl in *; try done.
        -- apply bool_decide_eq_false in E2. done.
        -- apply bool_decide_eq_false in E1. done.
        -- apply bool_decide_eq_false in E1. done.
      * rewrite lookup_ge_None_2 in Hs by lia. done.
Qed.
End Exclude.

#[local] Transparent NPROC.

(** C31: a sleep lock has one owner. In every state any number of processes
    reach by calling [acquiresleep] and [releasesleep], at most one of them is
    between the return of the one and the call of the other; the lock is
    marked as taken, with the process id of that one. Whenever the lock is free,
    no process that waits for it is asleep, a process that calls [acquiresleep]
    gets the lock, and so does a waiting process when it is switched to (before
    it has been woken in vain as often as the model allows). *)
Theorem acquiresleep_excludes l s st :
  reach l s st ->
  (forall p q, st p = Owner -> st q = Owner -> p = q) /\
  (forall p, st p = Owner -> sl_locked (getsl l s) <> 0 /\ sl_pid (getsl l s) = mypid s p) /\
  (sl_locked (getsl l s) = 0 ->
    (forall p n k, st p = Waiting n k -> ~ dozes l p s) /\
    (forall p, quiet s p -> lock_free s (L_sl l) -> exists s', acquiresleep l s = Done tt s') /\
    (forall p n k, st p = Waiting n k -> (0 < n)%nat -> handed l p s -> exists s', k s = Done tt s')).
Proof.
  intros (H0 & H1 & H2 & H4 & H3)%reach_inv. split; [done|]. split; [done|]. intros Hz. split; [by apply H3|]. split.
  - intros p Hq Hl. eapply segments_free; [by apply (acquiresleep_segments l p)|done|by apply Nat.lt_0_succ].
  - intros p n k Hp Hn Hh. eapply segments_free; [by apply (H4 p n k Hp s)|done|done].
Qed.

Definition sl_test_state : kstate :=
  set_k_locks (insert (L_sl (SL_buf 0)) (mkspinlock 0 "sleep lock" None))
    (set_k_cpu (set_c_proc (fun _ => Some 3%nat)) wake_test_state).

Lemma quiet_sl_test : quiet sl_test_state 3.
Proof.
  repeat split; try done.
  - unfold NPROC; lia.
  - intros i Hi. destruct (wake_test_locks i Hi) as [nm H]; [done|]. exists nm.
    cbn [k_locks sl_test_state set_k_locks]. by rewrite lookup_insert_ne.
Qed.

(** Process 3 has taken the lock of buffer 0; then process 4 runs and wants it. *)
Definition sl_second_state : kstate :=
  set_k_cpu (set_c_proc (fun _ => Some 4%nat)) (setsl (SL_buf 0) (sl_taken (mypid sl_test_state 3)) sl_test_state).

Lemma quiet_sl_second : quiet sl_second_state 4.
Proof.
  destruct quiet_sl_test as (H1 & H2 & H3 & H4 & H5 & H6). split_and!; try done. unfold NPROC. lia.
Qed.

Lemma acquiresleep_excludes_witness :
  exists s k, acquiresleep (SL_buf 0) sl_second_state = Swtch s k /\ sl_locked (getsl (SL_buf 0) s) <> 0.
Proof.
  assert (Hsw : match acquiresleep (SL_buf 0) sl_second_state with Swtch _ _ => True | _ => False end) by (vm_compute; exact I).
  destruct (acquiresleep (SL_buf 0) sl_second_state) as [| | |s k|] eqn:E; try done. exists s, k. split; [done|].
  assert (H3 : reach (SL_buf 0) (setsl (SL_buf 0) (sl_taken (mypid sl_test_state 3)) sl_test_state) (upd (fun _ => Out) 3 Owner)).
  { apply (r_call _ sl_test_state _ 3); [apply r_init|done|apply quiet_sl_test|by exists "sleep lock"%string|].
    - vm_compute. lia.
    - reflexivity.
    - rewrite (acquiresleep_spec _ _ 3); [apply o_done|apply quiet_sl_test|by exists "sleep lock"%string|reflexivity]. }
  assert (H4 : reach (SL_buf 0) s (upd (upd (fun _ => Out) 3 Owner) 4 (Waiting (pred sleep_fuel) k))).
  { apply (r_call _ sl_second_state _ 4); [|done|apply quiet_sl_second|by exists "sleep lock"%string|rewrite E; apply o_switch].
    eapply r_other; [exact H3|done| |done|done]. vm_compute. lia. }
  destruct (acquiresleep_excludes _ _ _ H4) as (_ & H & _). by destruct (H 3%nat eq_refl).
Defined.

End SleepLockProps.
