(* ===== verification/Kalloc.v ===== *)
(** * The physical page allocator ([kernel/kalloc.c])

    Free pages are chained through their own first word, so the free list lives
    in the modelled memory. The theorems show that the list is a stack of
    distinct pages of RAM: [kfree] pushes, [kalloc] pops, neither touches a
    byte outside the page it is about, and [kinit] puts every page of RAM on
    the list exactly once. *)

From stdpp Require Import gmap strings list.
From Stdlib Require Import ZArith Lia.
From S2P Require Import Prelude KState CString Spinlock.
Open Scope Z_scope.
Import Spinlock CString.

Module Kalloc.

Definition kmemset (dst c n : Z) : K unit :=
  modify (set_k_mem (fun m => memset m dst c n)).

Definition kfree (pa : Z) : K unit :=
  if negb (pa mod PGSIZE =? 0) || (pa <? RAMBASE) || (pa >=? RAMSTOP) then panic "kfree" else
  kmemset pa 1 PGSIZE;;
  acquire L_kmem;;
  head <- gets k_freelist;;
  modify (set_k_mem (st64 pa head));;
  modify (set_k_freelist (fun _ => pa));;
  release L_kmem.

Definition kalloc : K Z :=
  acquire L_kmem;;
  r <- gets k_freelist;;
  when (negb (r =? 0))
    (next <- gets (fun s => ld64 (k_mem s) r);;
     modify (set_k_freelist (fun _ => next)));;
  release L_kmem;;
  when (negb (r =? 0)) (kmemset r 5 PGSIZE);;
  ret r.

Fixpoint freerange_loop (p pa_end : Z) (fuel : nat) : K unit :=
  match fuel with
  | O => nofuel
  | S f =>
      if p + PGSIZE <=? pa_end
      then kfree p;; freerange_loop (p + PGSIZE) pa_end f
      else ret tt
  end.

Definition freerange (pa_start pa_end : Z) : K unit :=
  let p := PGROUNDUP pa_start in
  freerange_loop p pa_end (S (Z.to_nat ((pa_end - p) / PGSIZE))).

Definition kinit : K unit :=
  initlock L_kmem "kmem";;
  freerange RAMBASE RAMSTOP.

End Kalloc.

Module KallocProps.
Import SpinlockProps Kalloc.

Definition valid_page (p : Z) : Prop :=
  p mod PGSIZE = 0 /\ RAMBASE <= p < RAMSTOP.

Definition in_page (p a : Z) : Prop := p <= a < p + PGSIZE.

(** The chain of free pages starting at [head]. *)
Fixpoint chain (m : mem) (head : Z) (l : list Z) : Prop :=
  match l with
  | [] => head = 0
  | p :: l' => head = p /\ valid_page p /\ chain m (ld64 m p) l'
  end.

(** The allocator's state represents the stack [l] of free pages. *)
Definition kmem_rep (s : kstate) (l : list Z) : Prop :=
  chain (k_mem s) (k_freelist s) l /\ NoDup l /\ mem_ok (k_mem s).

Lemma RAMBASE_val : RAMBASE = 0x9000000090000000.
Proof. reflexivity. Qed.
Lemma RAMSTOP_val : RAMSTOP = 0x9000000098000000.
Proof. reflexivity. Qed.

Lemma valid_page_range p : valid_page p -> 0 < p < 2 ^ 64.
Proof. unfold valid_page. rewrite RAMBASE_val, RAMSTOP_val. lia. Qed.

Lemma valid_page_mult p : valid_page p -> exists k, p = k * PGSIZE.
Proof.
  intros [H _]. exists (p / PGSIZE). pose proof (Z.div_mod p PGSIZE ltac:(done)). lia.
Qed.

(** Two different pages do not overlap. *)
Lemma pages_disjoint p q a :
  valid_page p -> valid_page q -> p <> q -> in_page p a -> ~ in_page q a.
Proof.
  intros [i ->]%valid_page_mult [j ->]%valid_page_mult Hne. unfold in_page, PGSIZE in *. lia.
Qed.

Lemma pages_apart p q :
  valid_page p -> valid_page q -> p <> q -> p + PGSIZE <= q \/ q + PGSIZE <= p.
Proof. intros [i ->]%valid_page_mult [j ->]%valid_page_mult Hne. unfold PGSIZE in *. lia. Qed.

Lemma chain_frame m m' head l :
  (forall p a, p ∈ l -> in_page p a -> ld8 m' a = ld8 m a) ->
  chain m head l -> chain m' head l.
Proof.
  revert head. induction l as [|p l IH]; intros head H; simpl; [done|].
  intros (-> & Hv & Hc). split_and!; [done|done|].
  rewrite (ld64_ext m' m).
  - apply IH; [|done]. intros q a Hq. apply H. set_solver.
  - intros b Hb. apply (H p); [set_solver|]. unfold in_page, PGSIZE. lia.
Qed.

Lemma chain_valid m head l p : chain m head l -> p ∈ l -> valid_page p.
Proof.
  revert head. induction l as [|q l IH]; intros head; simpl; [set_solver|].
  intros (_ & Hv & Hc) [->|Hp]%elem_of_cons; eauto.
Qed.

(** The kernel state after [kfree(pa)] and after [kalloc()] returned [p]. *)
Definition freed (pa : Z) (s : kstate) : kstate :=
  set_k_freelist (fun _ => pa)
    (set_k_mem (fun m => st64 pa (k_freelist s) (memset m pa 1 PGSIZE)) s).

Definition alloced (p : Z) (s : kstate) : kstate :=
  set_k_mem (fun m => memset m p 5 PGSIZE)
    (set_k_freelist (fun _ => ld64 (k_mem s) p) s).

Lemma kfree_eq pa s :
  cpu_ok s -> lock_free s L_kmem -> valid_page pa -> kfree pa s = Done tt (freed pa s).
Proof.
  intros Hc Hl [Hm Hr]. unfold kfree.
  rewrite (proj2 (Z.eqb_eq _ _) Hm), (proj2 (Z.ltb_ge _ _)) by lia.
  destruct (Z.geb_spec pa RAMSTOP); [lia|]. cbn [negb orb].
  unfold kmemset. kstep.
  erewrite bind_done by (by apply acquire_spec). kstep.
  rewrite acq_k_freelist, acq_set_k_mem, acq_set_k_freelist, set_set_k_mem.
  by rewrite release_acq.
Qed.

Lemma kalloc_nil s :
  cpu_ok s -> lock_free s L_kmem -> k_freelist s = 0 -> kalloc s = Done 0 s.
Proof.
  intros Hc Hl H0. unfold kalloc. erewrite bind_done by (by apply acquire_spec). kstep.
  rewrite acq_k_freelist, H0. change (0 =? 0) with true. kstep.
  by rewrite (bind_done _ _ _ _ _ (release_acq _ _ Hc Hl)).
Qed.

Lemma kalloc_cons s p :
  cpu_ok s -> lock_free s L_kmem -> k_freelist s = p -> p <> 0 ->
  kalloc s = Done p (alloced p s).
Proof.
  intros Hc Hl <- Hp. unfold kalloc. erewrite bind_done by (by apply acquire_spec). kstep.
  rewrite acq_k_freelist. rewrite (proj2 (Z.eqb_neq _ _) Hp). kstep.
  erewrite bind_done; [|kstep; unfold modify; rewrite acq_set_k_freelist, acq_k_mem; reflexivity].
  erewrite bind_done by (apply release_acq; done).
  reflexivity.
Qed.

Lemma kfree_rep pa s l :
  kmem_rep s l -> valid_page pa -> pa ∉ l -> kmem_rep (freed pa s) (pa :: l).
Proof.
  intros (Hc & Hnd & Hok) Hv Hni. split_and!.
  - simpl. split_and!; [done|done|]. rewrite ld64_st64_same.
    assert (u64 (k_freelist s) = k_freelist s) as ->.
    { apply u64_small. destruct l as [|p l]; simpl in Hc; [lia|].
      destruct Hc as (-> & Hp & _). pose proof (valid_page_range p Hp). lia. }
    eapply chain_frame; [|exact Hc]. intros p a Hp Ha.
    assert (~ in_page pa a) as Hn.
    { eapply pages_disjoint; [by eapply chain_valid|done| |done]. set_solver. }
    rewrite ld8_st64_out by (unfold in_page, PGSIZE in *; lia).
    by rewrite ld8_memset, decide_False by (unfold PGSIZE; done || lia).
  - by constructor.
  - simpl. by apply mem_ok_st64, mem_ok_memset.
Qed.

Lemma kalloc_rep p s l : kmem_rep s (p :: l) -> kmem_rep (alloced p s) l.
Proof.
  intros ((E & Hv & Hc) & Hnd & Hok). apply NoDup_cons in Hnd as [Hni Hnd]. split_and!.
  - simpl. eapply chain_frame; [|exact Hc]. intros q a Hq Ha.
    rewrite ld8_memset, decide_False; [done| |unfold PGSIZE; lia].
    eapply (pages_disjoint q p); [by eapply chain_valid|done| |done]. set_solver.
  - done.
  - simpl. by apply mem_ok_memset.
Qed.

(** C39: the free list is a stack of distinct pages of RAM. [kalloc] returns 0
    and changes nothing when it is empty; otherwise it returns the top page,
    which is no longer free, with every byte of it set to 5. [kfree] of a page
    that is not free pushes it. Neither changes a byte of memory outside the
    page, and both leave the locks and the interrupt state as they were. *)
Theorem kalloc_kfree_stack s l :
  cpu_ok s -> lock_free s L_kmem -> kmem_rep s l ->
  match l with
  | [] => kalloc s = Done 0 s
  | p :: l' => exists s', kalloc s = Done p s' /\ kmem_rep s' l' /\ p ∉ l' /\ valid_page p /\
      (forall a, ld8 (k_mem s') a = if decide (in_page p a) then 5 else ld8 (k_mem s) a) /\
      s' = set_k_freelist (fun _ => k_freelist s') (set_k_mem (fun _ => k_mem s') s)
  end /\
  (forall pa, valid_page pa -> pa ∉ l ->
     exists s', kfree pa s = Done tt s' /\ kmem_rep s' (pa :: l) /\
      (forall a, ~ in_page pa a -> ld8 (k_mem s') a = ld8 (k_mem s) a) /\
      s' = set_k_freelist (fun _ => pa) (set_k_mem (fun _ => k_mem s') s)).
Proof.
  intros Hc Hl Hr. split.
  - destruct l as [|p l]; [apply kalloc_nil; auto; apply Hr|].
    destruct Hr as ((E & Hv & Hch) & Hnd & Hok). exists (alloced p s).
    pose proof (valid_page_range p Hv). split_and!.
    + apply kalloc_cons; auto. lia.
    + by apply kalloc_rep.
    + by apply NoDup_cons in Hnd as [? _].
    + done.
    + intros a. simpl. rewrite ld8_memset by (unfold PGSIZE; lia). done.
    + done.
  - intros pa Hv Hni. exists (freed pa s). split_and!.
    + by apply kfree_eq.
    + by apply kfree_rep.
    + intros a Ha. simpl. rewrite ld8_st64_out by (unfold in_page, PGSIZE in *; lia).
      by rewrite ld8_memset, decide_False by (done || unfold PGSIZE; lia).
    + done.
Qed.

Definition kmem_test_state : kstate :=
  freed RAMBASE (set_k_locks (fun _ => {[L_kmem := mkspinlock 0 "kmem" None]}) (kstate0 ∅ [] [])).

Lemma kalloc_kfree_stack_witness :
  kalloc kmem_test_state = Done RAMBASE (alloced RAMBASE kmem_test_state).
Proof.
  destruct (kalloc_kfree_stack kmem_test_state [RAMBASE]) as [(s' & E & _) _].
  - repeat split; done.
  - exists "kmem"%string. reflexivity.
  - apply kfree_rep.
    + split_and!; [done|constructor|apply mem_ok_empty].
    + split; [done|]. rewrite RAMBASE_val, RAMSTOP_val. lia.
    + set_solver.
  - rewrite E. rewrite <- E. apply kalloc_cons; [repeat split; done|by exists "kmem"%string|done|done].
Defined.

(** ** Initialisation *)

(** Only the allocator's own state and memory contents differ. *)
Definition kmem_only (s s' : kstate) : Prop :=
  s' = set_k_freelist (fun _ => k_freelist s') (set_k_mem (fun _ => k_mem s') s).

Lemma kmem_only_trans s1 s2 s3 : kmem_only s1 s2 -> kmem_only s2 s3 -> kmem_only s1 s3.
Proof. unfold kmem_only. intros H12 H23. rewrite H23, H12. reflexivity. Qed.

Lemma kmem_only_ok s s' : kmem_only s s' -> cpu_ok s -> cpu_ok s'.
Proof. unfold kmem_only. by intros ->. Qed.

Lemma kmem_only_free s s' l : kmem_only s s' -> lock_free s l -> lock_free s' l.
Proof. unfold kmem_only. by intros ->. Qed.

(** The pages starting at [p]. *)
Fixpoint pages (p : Z) (n : nat) : list Z :=
  match n with
  | O => []
  | S n' => p :: pages (p + PGSIZE) n'
  end.

Lemma length_pages p n : length (pages p n) = n.
Proof. revert p. induction n; intros; simpl; auto. Qed.

Lemma elem_of_pages p n q :
  q ∈ pages p n <-> exists i, 0 <= i < Z.of_nat n /\ q = p + i * PGSIZE.
Proof.
  revert p. induction n as [|n IH]; intros p; simpl.
  - split; [by intros ?%elem_of_nil|]. intros (i & ? & _). lia.
  - rewrite elem_of_cons, IH. split.
    + intros [->|(i & Hi & ->)]; [exists 0; lia|]. exists (i + 1). unfold PGSIZE. lia.
    + intros (i & Hi & ->). destruct (decide (i = 0)) as [->|]; [left; lia|].
      right. exists (i - 1). unfold PGSIZE. lia.
Qed.

Lemma freerange_loop_spec n p pa_end s l :
  cpu_ok s -> lock_free s L_kmem -> kmem_rep s l ->
  p + Z.of_nat n * PGSIZE <= pa_end < p + Z.of_nat n * PGSIZE + PGSIZE ->
  (forall q, q ∈ pages p n -> valid_page q /\ q ∉ l) ->
  exists s', freerange_loop p pa_end (S n) s = Done tt s' /\ kmem_only s s' /\
    kmem_rep s' (rev (pages p n) ++ l).
Proof.
  revert p s l. induction n as [|n IH]; intros p s l Hc Hl Hr Hn Hv.
  - exists s. cbn [freerange_loop]. rewrite (proj2 (Z.leb_gt _ _)) by lia. done.
  - remember (S n) as n1. cbn [freerange_loop]. rewrite (proj2 (Z.leb_le _ _)) by (unfold PGSIZE in *; lia). subst n1.
    destruct (Hv p) as [Hp Hni]; [simpl; set_solver|].
    rewrite (bind_done _ _ _ _ _ (kfree_eq p s Hc Hl Hp)).
    destruct (IH (p + PGSIZE) (freed p s) (p :: l)) as (s' & E & Ho & Hr').
    + done.
    + done.
    + by apply kfree_rep.
    + unfold PGSIZE in *. lia.
    + intros q Hq. destruct (Hv q) as [? ?]; [simpl; set_solver|]. split; [done|].
      apply elem_of_pages in Hq as (i & ? & ->). rewrite not_elem_of_cons. unfold PGSIZE in *. split; [lia|done].
    + exists s'. split_and!; [done| |].
      * by apply (kmem_only_trans _ (freed p s)).
      * simpl. by rewrite <- app_assoc.
Qed.

Lemma NoDup_pages p n : NoDup (pages p n).
Proof.
  revert p. induction n as [|n IH]; intros p; simpl; constructor; auto.
  rewrite elem_of_pages. intros (i & ? & E). unfold PGSIZE in E. lia.
Qed.

(** C40: [kinit] puts every page of the RAM handed to the allocator on the free
    list exactly once (32768 pages), and nothing else. *)
Theorem kinit_all_pages s :
  cpu_ok s -> mem_ok (k_mem s) -> k_freelist s = 0 ->
  exists s' l, kinit s = Done tt s' /\ kmem_rep s' l /\
    (forall p, p ∈ l <-> valid_page p) /\ Z.of_nat (length l) = 32768.
Proof.
  intros Hc Hok H0. set (n := Z.to_nat 32768).
  assert (Z.of_nat n = 32768) as Hn by (unfold n; lia).
  assert (forall q, q ∈ pages RAMBASE n <-> valid_page q) as Hpg.
  { intros q. rewrite elem_of_pages. unfold valid_page. rewrite Hn, RAMBASE_val, RAMSTOP_val.
    unfold PGSIZE. split.
    - intros (i & Hi & ->). split; [|lia].
      replace (0x9000000090000000 + i * 4096) with ((0x9000000090000 + i) * 4096) by lia.
      apply Z.mod_mul. lia.
    - intros [Hm Hr]. exists ((q - 0x9000000090000000) / 4096).
      pose proof (Z.div_mod q 4096 ltac:(lia)).
      replace (q - 0x9000000090000000) with ((q / 4096 - 0x9000000090000) * 4096) by lia.
      rewrite Z.div_mul by lia. lia. }
  destruct (freerange_loop_spec n RAMBASE RAMSTOP (setlock L_kmem (fun _ => mkspinlock 0 "kmem" None) s) [])
    as (s' & E & Ho & Hr).
  - done.
  - exists "kmem"%string. simpl. apply lookup_insert_eq.
  - split_and!; [done|constructor|done].
  - rewrite Hn, RAMBASE_val, RAMSTOP_val. unfold PGSIZE. lia.
  - intros q Hq. split; [by apply Hpg|apply not_elem_of_nil].
  - exists s', (rev (pages RAMBASE n) ++ []). split_and!.
    + unfold kinit, initlock. kstep. unfold freerange.
      change (PGROUNDUP RAMBASE) with RAMBASE.
      change ((RAMSTOP - RAMBASE) / PGSIZE) with 32768. exact E.
    + done.
    + intros q. rewrite app_nil_r, <- Hpg, !list_elem_of_In. symmetry. apply in_rev.
    + rewrite app_nil_r, length_rev, length_pages. lia.
Qed.

Lemma kinit_all_pages_witness :
  exists s' l, kinit (kstate0 ∅ [] []) = Done tt s' /\ kmem_rep s' l /\
    (forall p, p ∈ l <-> valid_page p) /\ Z.of_nat (length l) = 32768.
Proof. apply kinit_all_pages; [repeat split; done|apply mem_ok_empty|done]. Defined.

End KallocProps.
