(* ===== verification/Vm.v ===== *)
(** * Virtual memory ([kernel/vm.c], and the page-table helpers of [kernel/proc.c])

    Page tables live in the modelled physical memory as the 64-bit words the
    hardware walks. A kernel-side buffer that [copyout] reads is given as its
    bytes, and what [copyin] stores in one is returned as bytes (with the
    status), because such buffers are fields of modelled structures. *)

From stdpp Require Import gmap strings list.
From Stdlib Require Import ZArith Lia.
From S2P Require Import Prelude KState CString Spinlock Sched Kalloc.
Open Scope Z_scope.
Import Spinlock Sched Kalloc CString.

Module Vm.

Definition load64 (a : Z) : K Z := gets (fun s => ld64 (k_mem s) a).
Definition store64 (a v : Z) : K unit := modify (set_k_mem (st64 a v)).

(** [walk]: the loop over the levels 3, 2, 1; returns the address of the PTE,
    0 for a null pointer. *)
Fixpoint walk_loop (pagetable va : Z) (alloc : bool) (level : nat) : K Z :=
  match level with
  | O => ret (pagetable + 8 * PX 0 va)
  | S l =>
      let pte := pagetable + 8 * PX (Z.of_nat level) va in
      v <- load64 pte;;
      if negb (Z.land v PTE_V =? 0) then
        walk_loop (Z.lor (PTE2PA v) DMWIN_MASK) va alloc l
      else if negb alloc then ret 0 else
        pt <- kalloc;;
        if pt =? 0 then ret 0 else
        kmemset pt 0 PGSIZE;;
        store64 pte (Z.lor (PA2PTE pt) PTE_V);;
        walk_loop pt va alloc l
  end.

Definition walk (pagetable va : Z) (alloc : bool) : K Z :=
  if va >=? MAXVA then panic "walk" else walk_loop pagetable va alloc 3.

Definition walkaddr (pagetable va : Z) : K Z :=
  if va >=? MAXVA then ret 0 else
  pte <- walk pagetable va false;;
  if pte =? 0 then ret 0 else
  v <- load64 pte;;
  if Z.land v PTE_V =? 0 then ret 0 else
  if Z.land v PTE_PLV =? 0 then ret 0 else
  ret (PTE2PA v).

Fixpoint mappages_loop (pagetable a last pa perm : Z) (fuel : nat) : K Z :=
  match fuel with
  | O => nofuel
  | S f =>
      pte <- walk pagetable a true;;
      if pte =? 0 then ret (-1) else
      v <- load64 pte;;
      if negb (Z.land v PTE_V =? 0) then panic "mappages: remap" else
      store64 pte (Z.lor (Z.lor (PA2PTE pa) perm) PTE_V);;
      if a =? last then ret 0
      else mappages_loop pagetable (u64 (a + PGSIZE)) last (u64 (pa + PGSIZE)) perm f
  end.

Definition mappages (pagetable va size pa perm : Z) : K Z :=
  if size =? 0 then panic "mappages: size" else
  let a := PGROUNDDOWN va in
  let last := PGROUNDDOWN (u64 (va + size - 1)) in
  mappages_loop pagetable a last pa perm (S (Z.to_nat (u64 (last - a) / PGSIZE))).

Fixpoint uvmunmap_loop (pagetable a aend : Z) (do_free : bool) (fuel : nat) : K unit :=
  match fuel with
  | O => nofuel
  | S f =>
      if negb (a <? aend) then ret tt else
      pte <- walk pagetable a false;;
      if pte =? 0 then panic "uvmunmap: walk" else
      v <- load64 pte;;
      if Z.land v PTE_V =? 0 then panic "uvmunmap: not mapped" else
      if PTE_FLAGS v =? PTE_V then panic "uvmunmap: not a leaf" else
      when do_free (kfree (Z.lor (PTE2PA v) DMWIN_MASK));;
      store64 pte 0;;
      uvmunmap_loop pagetable (u64 (a + PGSIZE)) aend do_free f
  end.

Definition uvmunmap (pagetable va npages : Z) (do_free : bool) : K unit :=
  if negb (va mod PGSIZE =? 0) then panic "uvmunmap: not aligned" else
  uvmunmap_loop pagetable va (u64 (va + npages * PGSIZE)) do_free (S (Z.to_nat npages)).

Definition uvmcreate : K Z :=
  pagetable <- kalloc;;
  if pagetable =? 0 then ret 0 else
  kmemset pagetable 0 PGSIZE;;
  ret pagetable.

Definition uvminit (pagetable : Z) (src : list Z) : K unit :=
  if Z.of_nat (length src) >=? PGSIZE then panic "inituvm: more than a page" else
  mem <- kalloc;;
  kmemset mem 0 PGSIZE;;
  mappages pagetable 0 PGSIZE mem (Z.lor (Z.lor (Z.lor PTE_P PTE_W) PTE_PLV) PTE_MAT);;
  modify (set_k_mem (stbytes mem src)).

Definition uvmdealloc (pagetable oldsz newsz : Z) : K Z :=
  if newsz >=? oldsz then ret oldsz else
  when (PGROUNDUP newsz <? PGROUNDUP oldsz)
    (uvmunmap pagetable (PGROUNDUP newsz)
       (s32 ((PGROUNDUP oldsz - PGROUNDUP newsz) / PGSIZE)) true);;
  ret newsz.

Definition uperm : Z := Z.lor (Z.lor (Z.lor (Z.lor PTE_P PTE_W) PTE_PLV) PTE_MAT) PTE_D.

Fixpoint uvmalloc_loop (pagetable a oldsz newsz : Z) (fuel : nat) : K Z :=
  match fuel with
  | O => nofuel
  | S f =>
      if negb (a <? newsz) then ret newsz else
      mem <- kalloc;;
      if mem =? 0 then uvmdealloc pagetable a oldsz;; ret 0 else
      kmemset mem 0 PGSIZE;;
      r <- mappages pagetable a PGSIZE mem uperm;;
      if negb (r =? 0) then
        kfree mem;;
        uvmdealloc pagetable a oldsz;;
        ret 0
      else uvmalloc_loop pagetable (u64 (a + PGSIZE)) oldsz newsz f
  end.

Definition uvmalloc (pagetable oldsz newsz : Z) : K Z :=
  if newsz <? oldsz then ret oldsz else
  let oldsz := PGROUNDUP oldsz in
  uvmalloc_loop pagetable oldsz oldsz newsz (S (Z.to_nat ((newsz - oldsz + PGSIZE - 1) / PGSIZE))).

(** The loop of [freewalk] over the entries of a table; [rec] frees the table
    an entry refers to. *)
Fixpoint freewalk_entries (rec : Z -> K unit) (pagetable i : Z) (k : nat) : K unit :=
  match k with
  | O => ret tt
  | S k' =>
      pte <- load64 (pagetable + 8 * i);;
      (if negb (Z.land pte PTE_V =? 0) && (PTE_FLAGS pte =? PTE_V) then
         rec (Z.lor (PTE2PA pte) DMWIN_MASK);;
         store64 (pagetable + 8 * i) 0
       else if negb (Z.land pte PTE_V =? 0) then panic "freewalk: leaf"
       else ret tt);;
      freewalk_entries rec pagetable (i + 1) k'
  end.

(** The fuel bounds the depth of the tree of page-table pages. *)
Fixpoint freewalk (fuel : nat) (pagetable : Z) : K unit :=
  match fuel with
  | O => nofuel
  | S f =>
      freewalk_entries (freewalk f) pagetable 0 512%nat;;
      kfree pagetable
  end.

Definition walk_depth : nat := 5.

Definition uvmfree (pagetable sz : Z) : K unit :=
  when (sz >? 0) (uvmunmap pagetable 0 (PGROUNDUP sz / PGSIZE) true);;
  freewalk walk_depth pagetable.

Fixpoint uvmcopy_loop (old new i sz : Z) (fuel : nat) : K Z :=
  match fuel with
  | O => nofuel
  | S f =>
      if negb (i <? sz) then ret 0 else
      pte <- walk old i false;;
      if pte =? 0 then panic "uvmcopy: pte should exist" else
      v <- load64 pte;;
      if Z.land v PTE_V =? 0 then panic "uvmcopy: page not present" else
      let pa := PTE2PA v in
      let flags := u32 (PTE_FLAGS v) in
      mem <- kalloc;;
      if mem =? 0 then uvmunmap new 0 (i / PGSIZE) true;; ret (-1) else
      modify (set_k_mem (fun m => memmove m mem (Z.lor pa DMWIN_MASK) PGSIZE));;
      r <- mappages new i PGSIZE mem flags;;
      if negb (r =? 0) then
        kfree mem;;
        uvmunmap new 0 (i / PGSIZE) true;; ret (-1)
      else uvmcopy_loop old new (u64 (i + PGSIZE)) sz f
  end.

Definition uvmcopy (old new sz : Z) : K Z :=
  uvmcopy_loop old new 0 sz (S (Z.to_nat ((sz + PGSIZE - 1) / PGSIZE))).

Definition uvmclear (pagetable va : Z) : K unit :=
  pte <- walk pagetable va false;;
  if pte =? 0 then panic "uvmclear" else
  v <- load64 pte;;
  store64 pte (Z.land v (Z.lnot PTE_PLV)).

(** A copy of [len] bytes touches at most [len / PGSIZE + 2] pages; one more
    iteration sees that nothing is left. *)
Definition page_fuel (len : Z) : nat := (3 + Z.to_nat (len / PGSIZE))%nat.

(** [copyout]: [src] is what is left to copy. *)
Fixpoint copyout_loop (pagetable dstva : Z) (src : list Z) (fuel : nat) : K Z :=
  match fuel with
  | O => nofuel
  | S f =>
      let len := Z.of_nat (length src) in
      if negb (len >? 0) then ret 0 else
      let va0 := PGROUNDDOWN dstva in
      pa0 <- walkaddr pagetable va0;;
      if pa0 =? 0 then ret (-1) else
      let n := PGSIZE - (dstva - va0) in
      let n := if n >? len then len else n in
      modify (set_k_mem (stbytes (Z.lor (pa0 + (dstva - va0)) DMWIN_MASK)
                           (take (Z.to_nat n) src)));;
      copyout_loop pagetable (u64 (va0 + PGSIZE)) (drop (Z.to_nat n) src) f
  end.

Definition copyout (pagetable dstva : Z) (src : list Z) : K Z :=
  copyout_loop pagetable dstva src (page_fuel (Z.of_nat (length src))).

(** [copyin] returns the status and the bytes stored at [dst]; on an error
    these are the ones copied before it. *)
Fixpoint copyin_loop (pagetable srcva len : Z) (dst : list Z) (fuel : nat) : K (Z * list Z) :=
  match fuel with
  | O => nofuel
  | S f =>
      if negb (len >? 0) then ret (0, dst) else
      let va0 := PGROUNDDOWN srcva in
      pa0 <- walkaddr pagetable va0;;
      if pa0 =? 0 then ret (-1, dst) else
      let n := PGSIZE - (srcva - va0) in
      let n := if n >? len then len else n in
      bs <- gets (fun s => ldbytes (k_mem s) (Z.lor (pa0 + (srcva - va0)) DMWIN_MASK) (Z.to_nat n));;
      copyin_loop pagetable (u64 (va0 + PGSIZE)) (len - n) (dst ++ bs) f
  end.

Definition copyin (pagetable srcva len : Z) : K (Z * list Z) :=
  copyin_loop pagetable srcva len [] (page_fuel len).

(** [copyinstr]: the inner loop over one page returns whether it met a NUL. *)
Fixpoint copyinstr_page (p dst : Z) (n : nat) : K bool :=
  match n with
  | O => ret false
  | S n' =>
      c <- gets (fun s => ld8 (k_mem s) p);;
      if c =? 0 then modify (set_k_mem (st8 dst 0));; ret true else
      modify (set_k_mem (st8 dst c));;
      copyinstr_page (p + 1) (dst + 1) n'
  end.

Fixpoint copyinstr_loop (pagetable dst srcva max : Z) (fuel : nat) : K Z :=
  match fuel with
  | O => nofuel
  | S f =>
      if negb (max >? 0) then ret (-1) else
      let va0 := PGROUNDDOWN srcva in
      pa0 <- walkaddr pagetable va0;;
      if pa0 =? 0 then ret (-1) else
      let n := PGSIZE - (srcva - va0) in
      let n := if n >? max then max else n in
      got_null <- copyinstr_page (Z.lor (pa0 + (srcva - va0)) DMWIN_MASK) dst (Z.to_nat n);;
      if got_null : bool then ret 0
      else copyinstr_loop pagetable (dst + n) (u64 (va0 + PGSIZE)) (max - n) f
  end.

Definition copyinstr (pagetable dst srcva max : Z) : K Z :=
  copyinstr_loop pagetable dst srcva max (page_fuel max).

(** [proc.c]: copy to and from either a user or a kernel address *)
Definition either_copyout (user_dst : bool) (dst : Z) (src : list Z) : K Z :=
  p <- myproc;;
  if user_dst then
    p <- deref p;; pr <- getproc p;; copyout (p_pagetable pr) dst src
  else
    modify (set_k_mem (stbytes dst src));; ret 0.

Definition either_copyin (user_src : bool) (src len : Z) : K (Z * list Z) :=
  p <- myproc;;
  if user_src then
    p <- deref p;; pr <- getproc p;; copyin (p_pagetable pr) src len
  else
    bs <- gets (fun s => ldbytes (k_mem s) src (Z.to_nat len));; ret (0, bs).

(** [proc.c]: kernel stacks and the page table of a process *)
Definition kperm : Z := Z.lor (Z.lor (Z.lor (Z.lor PTE_NX PTE_P) PTE_W) PTE_MAT) PTE_D.

Fixpoint proc_mapstacks_loop (kpgtbl : Z) (i k : nat) : K unit :=
  match k with
  | O => ret tt
  | S k' =>
      pa <- kalloc;;
      if pa =? 0 then panic "kalloc" else
      r <- mappages kpgtbl (KSTACK (Z.of_nat i)) PGSIZE pa kperm;;
      if negb (r =? 0) then panic "kvmmap" else
      proc_mapstacks_loop kpgtbl (S i) k'
  end.

Definition proc_mapstacks (kpgtbl : Z) : K unit := proc_mapstacks_loop kpgtbl 0 NPROC.

Definition proc_pagetable (trapframe : Z) : K Z :=
  pagetable <- uvmcreate;;
  if pagetable =? 0 then ret 0 else
  r <- mappages pagetable TRAPFRAME PGSIZE trapframe kperm;;
  if r <? 0 then uvmfree pagetable 0;; ret 0 else
  ret pagetable.

Definition proc_freepagetable (pagetable sz : Z) : K unit :=
  uvmunmap pagetable TRAPFRAME 1 false;;
  uvmfree pagetable sz.

(** The TLB and page-walk registers; the widths are those of [loongarch.h]. *)
Definition tlbinit : K unit :=
  modify (set_k_csr (set_stlbps (fun _ => 0xc)));;
  modify (set_k_csr (set_asid (fun _ => 0)));;
  modify (set_k_csr (set_tlbrehi (fun _ => 0xc))).

Definition vminit : K unit :=
  kpgtbl <- kalloc;;
  kmemset kpgtbl 0 PGSIZE;;
  proc_mapstacks kpgtbl;;
  modify (set_k_csr (set_pgdl (fun _ => kpgtbl)));;
  tlbinit;;
  modify (set_k_csr (set_pwcl (fun _ =>
    u32 (Z.lor (Z.lor (Z.lor (Z.lor (Z.lor (Z.lor (Z.shiftl 0 30) (Z.shiftl 9 25)) (Z.shiftl 30 20))
         (Z.shiftl 9 15)) (Z.shiftl 21 10)) (Z.shiftl 9 5)) 12))));;
  modify (set_k_csr (set_pwch (fun _ =>
    u32 (Z.lor (Z.lor (Z.shiftl 0 18) (Z.shiftl 9 6)) 39)))).

End Vm.
