(* ===== verification/VmProps.v ===== *)
(** * Page tables and address spaces

    An address space of this kernel has 256 pages, so its page table is a
    chain of three directories, each with only its first entry used, and one
    leaf table. The theorems relate [walk], [mappages], [uvmalloc],
    [uvmdealloc], [uvmfree], [copyin] and [copyout] to the map from page
    numbers to physical pages that the table stands for. *)

From stdpp Require Import gmap strings list.
From Stdlib Require Import ZArith Lia.
From S2P Require Import Prelude KState CString Spinlock Sched Kalloc Vm.
Open Scope Z_scope.
Import Spinlock Sched Kalloc CString Vm SpinlockProps KallocProps.

(** ** Bits of page-table entries *)

Lemma lor_add_high a b n : 0 <= n -> 0 <= a < 2 ^ n -> Z.lor a (b * 2 ^ n) = a + b * 2 ^ n.
Proof.
  intros Hn Ha. rewrite <- Z.shiftl_mul_pow2 by done.
  assert (Z.land a (Z.shiftl b n) = 0) as H0.
  { apply Z.bits_inj'. intros k Hk. rewrite Z.land_spec, Z.bits_0, Z.shiftl_spec by done.
    destruct (Z.ltb_spec k n); [by rewrite (Z.testbit_neg_r b), andb_false_r by lia|].
    destruct (decide (a = 0)) as [->|]; [by rewrite Z.bits_0|].
    rewrite (Z.bits_above_log2 a k); [done|lia|].
    apply Z.log2_lt_pow2; [lia|]. pose proof (Z.pow_le_mono_r 2 n k). lia. }
  by rewrite Z.add_nocarry_lxor, Z.lxor_lor by done.
Qed.

Lemma land_pamask x : 0 <= x -> Z.land x PAMASK = ((x / 2 ^ 12) mod 2 ^ 36) * 2 ^ 12.
Proof.
  intros Hx. unfold PAMASK. change 0xFFFFFFFFF with (Z.ones 36).
  rewrite <- Z.shiftr_div_pow2, <- Z.land_ones, <- Z.shiftl_mul_pow2 by lia.
  apply Z.bits_inj'. intros k Hk. rewrite Z.land_spec, !Z.shiftl_spec by done.
  destruct (Z.ltb_spec k 12).
  - rewrite !(Z.testbit_neg_r _ (k - 12)) by lia. by rewrite andb_false_r.
  - rewrite Z.land_spec, Z.shiftr_spec by lia. by replace (k - 12 + 12) with k by lia.
Qed.

(** A page of RAM and its physical address. *)
Lemma valid_page_pa p :
  valid_page p -> PA2PTE p = p - DMWIN_MASK /\ Z.lor (PA2PTE p) DMWIN_MASK = p.
Proof.
  intros [Hm Hr]. rewrite RAMBASE_val, RAMSTOP_val in Hr. unfold PGSIZE in Hm.
  assert (E : PA2PTE p = p - DMWIN_MASK).
  { unfold PA2PTE. rewrite land_pamask by lia. unfold DMWIN_MASK.
    assert (exists j, p = (j + 36864 * 2 ^ 36) * 4096 /\ 0 <= j < 2 ^ 36) as (j & -> & Hj).
    { exists (p / 4096 - 36864 * 2 ^ 36). change (2 ^ 36) with 68719476736.
      pose proof (Z.div_mod p 4096 ltac:(done)). lia. }
    change (2 ^ 12) with 4096. rewrite Z.div_mul, Z.mod_add, Z.mod_small by lia. lia. }
  split; [done|]. rewrite E. unfold DMWIN_MASK. change 0x9000000000000000 with (9 * 2 ^ 60).
  rewrite lor_add_high by lia. lia.
Qed.

(** Permissions: bits outside the page number, with [PTE_P] set. *)
Definition perm_ok (perm : Z) : Prop :=
  0 <= perm < 2 ^ 64 /\ Z.land perm PAMASK = 0 /\ Z.testbit perm 7 = true.

Lemma perm_ok_u : perm_ok uperm.
Proof. split; [vm_compute; done|by vm_compute]. Qed.
Lemma perm_ok_k : perm_ok kperm.
Proof. split; [vm_compute; done|by vm_compute]. Qed.

Definition pte_of (pa perm : Z) : Z := Z.lor (Z.lor (PA2PTE pa) perm) PTE_V.

Section Pte.
Context (pa perm : Z) (Hpa : valid_page pa).

Lemma land_pa_low c : Z.land PAMASK c = 0 -> Z.land (PA2PTE pa) c = 0.
Proof. intros H. unfold PA2PTE. by rewrite <- Z.land_assoc, H, Z.land_0_r. Qed.

Lemma pte_land c :
  Z.land PAMASK c = 0 -> Z.land (pte_of pa perm) c = Z.lor (Z.land perm c) (Z.land PTE_V c).
Proof.
  intros H. unfold pte_of. by rewrite !Z.land_lor_distr_l, land_pa_low, Z.lor_0_l.
Qed.

Lemma pte_valid : (Z.land (pte_of pa perm) PTE_V =? 0) = false.
Proof.
  rewrite pte_land by done. apply Z.eqb_neq. intros [_ H]%Z.lor_eq_0_iff. done.
Qed.

Lemma pte_plv : Z.land (pte_of pa perm) PTE_PLV = Z.land perm PTE_PLV.
Proof. rewrite pte_land by done. by rewrite Z.lor_0_r. Qed.

Lemma pte_pa : Z.land perm PAMASK = 0 -> PTE2PA (pte_of pa perm) = pa - DMWIN_MASK.
Proof.
  intros H. unfold PTE2PA, pte_of. rewrite !Z.land_lor_distr_l, H. change (Z.land PTE_V PAMASK) with 0.
  rewrite !Z.lor_0_r. rewrite <- (proj1 (valid_page_pa pa Hpa)). unfold PA2PTE.
  by rewrite <- Z.land_assoc, Z.land_diag.
Qed.

Lemma pte_page : Z.land perm PAMASK = 0 -> Z.lor (PTE2PA (pte_of pa perm)) DMWIN_MASK = pa.
Proof.
  intros H. rewrite pte_pa by done. rewrite <- (proj1 (valid_page_pa pa Hpa)). by apply valid_page_pa.
Qed.

Lemma u64_land x : u64 x = Z.land x (Z.ones 64).
Proof. unfold u64. by rewrite Z.land_ones. Qed.

Lemma pte_u64 : 0 <= perm < 2 ^ 64 -> u64 (pte_of pa perm) = pte_of pa perm.
Proof.
  intros H. rewrite u64_land. unfold pte_of. rewrite !Z.land_lor_distr_l, <- !u64_land.
  rewrite (u64_small perm) by done. f_equal. f_equal. apply u64_small.
  rewrite (proj1 (valid_page_pa pa Hpa)). destruct Hpa as [_ Hr]. rewrite RAMBASE_val, RAMSTOP_val in Hr.
  unfold DMWIN_MASK. lia.
Qed.

Lemma pte_leaf : Z.testbit perm 7 = true -> (PTE_FLAGS (pte_of pa perm) =? PTE_V) = false.
Proof.
  intros H. unfold PTE_FLAGS. rewrite pte_land by done. apply Z.eqb_neq. intros E.
  apply (f_equal (fun z => Z.testbit z 7)) in E. rewrite Z.lor_spec, Z.land_spec, H in E. done.
Qed.
End Pte.

(** Directory entries have no permission bits. *)
Definition pde_of (p : Z) : Z := Z.lor (PA2PTE p) PTE_V.

Lemma pde_pte p : pde_of p = pte_of p 0.
Proof. unfold pde_of, pte_of. by rewrite Z.lor_0_r. Qed.

Lemma pde_flags p : (PTE_FLAGS (pde_of p) =? PTE_V) = true.
Proof. rewrite pde_pte. unfold PTE_FLAGS. by rewrite pte_land. Qed.

Lemma pde_page p : valid_page p -> Z.lor (PTE2PA (pde_of p)) DMWIN_MASK = p.
Proof. intros. rewrite pde_pte. by apply pte_page. Qed.

Lemma pde_u64 p : valid_page p -> u64 (pde_of p) = pde_of p.
Proof. intros. rewrite pde_pte. by apply pte_u64. Qed.

(** Index of a virtual address at each level. *)
Lemma PX_0 va : 0 <= va < MAXVA -> PX 0 va = va / PGSIZE.
Proof.
  intros H. unfold PX. change 0x1FF with (Z.ones 9). rewrite Z.land_ones, Z.shiftr_div_pow2 by lia.
  change (2 ^ (12 + 9 * 0)) with 4096. unfold MAXVA, PGSIZE in *. change (2 ^ 9) with 512.
  change (2 ^ (9 + 12 - 1)) with 1048576 in H. apply Z.mod_small. dlia.
Qed.

Lemma PX_high l va : 1 <= l -> 0 <= va < MAXVA -> PX l va = 0.
Proof.
  intros Hl H. unfold PX. rewrite Z.shiftr_div_pow2 by lia.
  rewrite Z.div_small; [done|]. split; [lia|]. unfold MAXVA in H.
  pose proof (Z.pow_le_mono_r 2 (9 + 12 - 1) (12 + 9 * l) ltac:(lia) ltac:(lia)). lia.
Qed.

(** ** Memory outside a set of pages *)

Definition same_outside (ps : list Z) (m m' : mem) : Prop :=
  forall a, (forall p, p ∈ ps -> ~ in_page p a) -> ld8 m' a = ld8 m a.

Lemma same_refl ps m : same_outside ps m m.
Proof. done. Qed.

Lemma same_trans ps m1 m2 m3 : same_outside ps m1 m2 -> same_outside ps m2 m3 -> same_outside ps m1 m3.
Proof. intros H1 H2 a Ha. rewrite H2 by done. by apply H1. Qed.

Lemma same_mono ps qs m m' : (forall p, p ∈ ps -> p ∈ qs) -> same_outside ps m m' -> same_outside qs m m'.
Proof. intros Hs H a Ha. apply H. intros p Hp. by apply Ha, Hs. Qed.

Lemma same_st64 p i v m :
  0 <= i < 512 -> same_outside [p] m (st64 (p + 8 * i) v m).
Proof.
  intros Hi a Ha. apply ld8_st64_out. specialize (Ha p ltac:(left)). unfold in_page, PGSIZE in Ha. lia.
Qed.

Lemma same_memset p c m : same_outside [p] m (memset m p c PGSIZE).
Proof.
  intros a Ha. rewrite ld8_memset by (unfold PGSIZE; lia). rewrite decide_False; [done|].
  intros H. by apply (Ha p ltac:(left)).
Qed.

(** A page that is valid and not among [ps] is left alone. *)
Lemma same_page ps m m' q a :
  same_outside ps m m' -> valid_page q -> (forall p, p ∈ ps -> valid_page p) -> q ∉ ps -> in_page q a ->
  ld8 m' a = ld8 m a.
Proof.
  intros H Hq Hps Hn Ha. apply H. intros p Hp. eapply pages_disjoint; [exact Hq|by apply Hps| |exact Ha].
  intros ->. done.
Qed.

Lemma same_word ps m m' q i :
  same_outside ps m m' -> valid_page q -> (forall p, p ∈ ps -> valid_page p) -> q ∉ ps -> 0 <= i < 512 ->
  ld64 m' (q + 8 * i) = ld64 m (q + 8 * i).
Proof.
  intros H Hq Hps Hn Hi. apply ld64_ext. intros b Hb. eapply same_page; [exact H|exact Hq|done|done|].
  unfold in_page, PGSIZE. lia.
Qed.

Lemma zero_page m p i : 0 <= i < 512 -> ld64 (memset m p 0 PGSIZE) (p + 8 * i) = 0.
Proof.
  intros Hi. apply ld64_zero. intros k Hk. by rewrite ld8_memset, decide_True by (unfold PGSIZE; lia).
Qed.

(** ** The table *)

(** The address space: page number to physical page and permissions. *)
Abbreviation amap := (gmap Z (Z * Z)).

Definition leaf_of (o : option (Z * Z)) : Z :=
  match o with Some (pa, perm) => pte_of pa perm | None => 0 end.

Definition next_of (o : option Z) : Z :=
  match o with Some q => pde_of q | None => 0 end.

(** The tables [ts], from the root on, stand for the address space [A]. *)
Record ptable (m : mem) (ts : list Z) (A : amap) : Prop := {
  pt_len : (1 <= length ts <= 4)%nat;
  pt_dir : forall k p i, ts !! k = Some p -> (k < 3)%nat -> 0 <= i < 512 ->
    ld64 m (p + 8 * i) = if i =? 0 then next_of (ts !! S k) else 0;
  pt_leaf : forall p i, ts !! 3%nat = Some p -> 0 <= i < 512 -> ld64 m (p + 8 * i) = leaf_of (A !! i);
  pt_dom : forall v e, A !! v = Some e ->
    0 <= v < 256 /\ length ts = 4%nat /\ valid_page e.1 /\ perm_ok e.2 }.

Lemma ptable_frame m m' ps ts A :
  same_outside ps m m' -> (forall p, p ∈ ps -> valid_page p) ->
  (forall q, q ∈ ts -> valid_page q /\ q ∉ ps) -> ptable m ts A -> ptable m' ts A.
Proof.
  intros Hs Hps Hts [H1 H2 H3 H4]. split; [done| | |done].
  - intros k p i Hp Hk Hi. destruct (Hts p) as [Hv Hn]; [by eapply list_elem_of_lookup_2|].
    rewrite (same_word ps m m' p i) by done. by apply H2.
  - intros p i Hp Hi. destruct (Hts p) as [Hv Hn]; [by eapply list_elem_of_lookup_2|].
    rewrite (same_word ps m m' p i) by done. by apply H3.
Qed.

(** The kernel state: free pages [fl], the page table [ts] of [A]; all these
    pages are different. *)
Record vmspace (s : kstate) (fl ts : list Z) (A : amap) : Prop := {
  vs_cpu : cpu_ok s;
  vs_lock : lock_free s L_kmem;
  vs_free : kmem_rep s fl;
  vs_tab : ptable (k_mem s) ts A;
  vs_valid : forall p, p ∈ ts -> valid_page p;
  vs_nodup : NoDup (fl ++ ts);
  vs_apart : forall v e, A !! v = Some e -> e.1 ∉ fl ++ ts;
  vs_inj : forall v v' e e', A !! v = Some e -> A !! v' = Some e' -> e.1 = e'.1 -> v = v' }.

Section Space.
Context {s : kstate} {fl ts : list Z} {A : amap} (H : vmspace s fl ts A).

Lemma vs_fl_valid p : p ∈ fl -> valid_page p.
Proof. destruct (vs_free _ _ _ _ H) as [Hc _]. by apply (chain_valid _ _ _ _ Hc). Qed.

Lemma vs_root : exists root, ts !! 0%nat = Some root.
Proof.
  pose proof (pt_len _ _ _ (vs_tab _ _ _ _ H)). destruct ts as [|p l]; [simpl in *; lia|]. by exists p.
Qed.

Lemma vs_dirs_sep p : p ∈ ts -> p ∉ fl.
Proof. pose proof (vs_nodup _ _ _ _ H) as Hn. apply NoDup_app in Hn as (_ & Hn & _). intros Hp Hf. by apply (Hn p). Qed.
End Space.

(** ** [walk] *)

Lemma lookup_None_le {X} (l : list X) i j : l !! i = None -> (i <= j)%nat -> l !! j = None.
Proof. rewrite !lookup_ge_None. lia. Qed.

Definition leaf_addr (ts : list Z) (va : Z) : Z :=
  match ts !! 3%nat with Some q => q + 8 * (va / PGSIZE) | None => 0 end.

Lemma next_valid q : (Z.land (pde_of q) PTE_V =? 0) = false.
Proof. rewrite pde_pte. by apply pte_valid. Qed.

Lemma walk_loop_false s ts A va l k p :
  ptable (k_mem s) ts A -> (forall q, q ∈ ts -> valid_page q) ->
  0 <= va < MAXVA -> (k + l = 3)%nat -> ts !! k = Some p ->
  walk_loop p va false l s = Done (leaf_addr ts va) s.
Proof.
  intros H Hval Hva. revert k p. induction l as [|l IH]; intros k p Hk Hp.
  - replace k with 3%nat in Hp by lia. cbn [walk_loop]. unfold leaf_addr. by rewrite Hp, PX_0.
  - cbn [walk_loop]. unfold load64. kstep. rewrite PX_high by lia.
    rewrite (pt_dir _ _ _ H k p 0 Hp) by lia. cbn [Z.eqb].
    destruct (ts !! S k) as [q|] eqn:Eq; cbn [next_of].
    + rewrite next_valid. cbn [negb]. rewrite pde_page; [|apply Hval; by eapply list_elem_of_lookup_2].
      apply (IH (S k)); [lia|done].
    + cbn. unfold leaf_addr. by rewrite (lookup_None_le _ _ 3 Eq) by lia.
Qed.

(** [walk] without allocation reads the tables only. *)
Lemma walk_reads s ts A root va :
  ptable (k_mem s) ts A -> (forall q, q ∈ ts -> valid_page q) -> ts !! 0%nat = Some root -> 0 <= va < MAXVA ->
  walk root va false s = Done (leaf_addr ts va) s.
Proof.
  intros H Hval Hr Hva. unfold walk. rewrite Z.geb_leb, (proj2 (Z.leb_gt _ _)) by lia.
  by apply (walk_loop_false s ts A va 3 0).
Qed.

(** With all tables there, [walk] finds the entry and allocates nothing. *)
Lemma walk_loop_full s fl ts A va l k p p0 alloc :
  vmspace s fl ts A -> 0 <= va < MAXVA -> (k + l = 3)%nat -> ts !! k = Some p -> ts !! 3%nat = Some p0 ->
  walk_loop p va alloc l s = Done (p0 + 8 * (va / PGSIZE)) s.
Proof.
  intros H Hva. revert k p. induction l as [|l IH]; intros k p Hk Hp Hp0.
  - replace k with 3%nat in Hp by lia. cbn [walk_loop]. rewrite PX_0 by done. by simplify_eq.
  - cbn [walk_loop]. unfold load64. kstep. rewrite PX_high by lia.
    rewrite (pt_dir _ _ _ (vs_tab _ _ _ _ H) k p 0 Hp) by lia. cbn [Z.eqb].
    destruct (ts !! S k) as [q|] eqn:Eq; cbn [next_of].
    + rewrite next_valid. cbn [negb]. rewrite pde_page; [|apply (vs_valid _ _ _ _ H); by eapply list_elem_of_lookup_2].
      apply (IH (S k)); [lia|done|done].
    + by rewrite (lookup_None_le _ _ 3 Eq) in Hp0 by lia.
Qed.

Lemma walk_false s fl ts A root va :
  vmspace s fl ts A -> ts !! 0%nat = Some root -> 0 <= va < MAXVA ->
  walk root va false s = Done (leaf_addr ts va) s.
Proof.
  intros H. apply (walk_reads s ts A); [exact (vs_tab _ _ _ _ H)|exact (vs_valid _ _ _ _ H)].
Qed.

(** A new table at the end of the chain. *)
Definition grown (p q : Z) (s : kstate) : kstate :=
  set_k_mem (fun m => st64 p (pde_of q) (memset m q 0 PGSIZE)) (alloced q s).

Lemma short_empty m ts A : ptable m ts A -> (length ts < 4)%nat -> A = ∅.
Proof.
  intros Ht Hl. apply map_empty. intros v. destruct (A !! v) as [e|] eqn:E; [|done].
  destruct (pt_dom _ _ _ Ht v e E) as (_ & Hl' & _). lia.
Qed.

Lemma kmem_frame s fl ps m' :
  kmem_rep s fl -> same_outside ps (k_mem s) m' -> (forall p, p ∈ ps -> valid_page p /\ p ∉ fl) -> mem_ok m' ->
  kmem_rep (set_k_mem (fun _ => m') s) fl.
Proof.
  intros (Hc & Hnd & Hok) Hs Hps Hok'. split; [|by split]. cbn.
  eapply chain_frame; [|exact Hc]. intros p a Hp Ha. apply Hs. intros q Hq Hqa.
  destruct (Hps q Hq) as [Hqv Hqn].
  eapply (pages_disjoint p q a); [by eapply chain_valid|exact Hqv| |exact Ha|exact Hqa]. by intros ->.
Qed.

Lemma not_in_one (x p : Z) : x <> p -> x ∉ [p].
Proof. intros ? Hx. by apply list_elem_of_singleton in Hx. Qed.

Lemma not_in_two (x p q : Z) : x <> p -> x <> q -> x ∉ [p; q].
Proof. intros ?? Hx. apply elem_of_cons in Hx as [?|Hx]; [done|]. by apply list_elem_of_singleton in Hx. Qed.

Lemma memset_word m x q c i :
  valid_page x -> valid_page q -> x <> q -> 0 <= i < 512 ->
  ld64 (memset m q c PGSIZE) (x + 8 * i) = ld64 m (x + 8 * i).
Proof.
  intros Hx Hq Hne Hi. apply (same_word [q]); [apply same_memset|done| |by apply not_in_one|done].
  intros y Hy. apply list_elem_of_singleton in Hy. by subst.
Qed.

Section Grow.
Context (s : kstate) (q : Z) (fl ts : list Z) (p : Z) (k : nat).
Context (H : vmspace s (q :: fl) ts ∅) (Hlen : length ts = S k) (Hk : (k < 3)%nat) (Hp : ts !! k = Some p).

Lemma grow_pages : valid_page q /\ valid_page p /\ p ∈ ts /\ q ∉ ts /\ q ∉ fl /\ p ∉ fl /\ NoDup ts /\
  NoDup (fl ++ ts) /\ p <> q.
Proof.
  assert (Hpt : p ∈ ts) by (by eapply list_elem_of_lookup_2).
  pose proof (vs_nodup _ _ _ _ H) as Hnd. cbn in Hnd. apply NoDup_cons in Hnd as [Hq Hnd].
  rewrite not_elem_of_app in Hq. destruct Hq as [Hqf Hqt].
  pose proof (vs_dirs_sep H p Hpt) as Hpf. rewrite not_elem_of_cons in Hpf. destruct Hpf as [Hpq Hpf].
  split; [apply (vs_fl_valid H); left|]. split; [by apply (vs_valid _ _ _ _ H)|].
  do 4 (split; [done|]). split; [by apply NoDup_app in Hnd as (_ & _ & ?)|]. by split.
Qed.

Lemma grow_same : same_outside [q; p] (k_mem s) (k_mem (grown p q s)).
Proof.
  clear. cbn. intros a Ha. rewrite ld8_st64_out.
  - rewrite !(same_memset q _ _ a); [done|intros x Hx; apply Ha; apply list_elem_of_singleton in Hx; subst; left..].
  - specialize (Ha p ltac:(right; left)). unfold in_page, PGSIZE in Ha. lia.
Qed.

Lemma grow_word x i :
  valid_page x -> x <> p -> x <> q -> 0 <= i < 512 ->
  ld64 (k_mem (grown p q s)) (x + 8 * i) = ld64 (k_mem s) (x + 8 * i).
Proof.
  intros Hx Hxp Hxq Hi. destruct grow_pages as (Hq & Hpv & _).
  eapply same_word; [exact grow_same|done| |by apply not_in_two|done].
  intros y Hy. rewrite !elem_of_cons, elem_of_nil in Hy. naive_solver.
Qed.

Lemma grow_word_p i :
  0 <= i < 512 -> ld64 (k_mem (grown p q s)) (p + 8 * i) = if i =? 0 then pde_of q else 0.
Proof.
  intros Hi. destruct grow_pages as (Hq & Hpv & Hpt & Hqt & Hqf & Hpf & _ & _ & Hpq). cbn.
  destruct (Z.eqb_spec i 0) as [->|Hi0].
  - rewrite Z.add_0_r, ld64_st64_same. by apply pde_u64.
  - rewrite ld64_st64_other by lia.
    rewrite !memset_word by done.
    rewrite (pt_dir _ _ _ (vs_tab _ _ _ _ H) k p i Hp Hk Hi). by rewrite (proj2 (Z.eqb_neq _ _)).
Qed.

Lemma grow_word_q i : 0 <= i < 512 -> ld64 (k_mem (grown p q s)) (q + 8 * i) = 0.
Proof.
  intros Hi. destruct grow_pages as (Hq & Hpv & Hpt & Hqt & Hqf & Hpf & _ & _ & Hpq). cbn.
  destruct (pages_apart p q Hpv Hq Hpq); unfold PGSIZE in *;
    rewrite ld64_st64_other by lia; by apply zero_page.
Qed.

Lemma grow_tab : ptable (k_mem (grown p q s)) (ts ++ [q]) ∅.
Proof.
  destruct grow_pages as (Hq & Hpv & Hpt & Hqt & Hqf & Hpf & Hndt & _ & Hpq).
  destruct (vs_tab _ _ _ _ H) as [_ Hdir _ _]. split.
  - rewrite length_app, Hlen. simpl. lia.
  - intros j x i Hx Hj Hi. destruct (decide (j = S k)) as [->|Hjk].
    { rewrite lookup_app_r, Hlen, Nat.sub_diag in Hx by lia. injection Hx as <-. rewrite grow_word_q by done.
      rewrite lookup_ge_None_2 by (rewrite length_app; simpl; lia). by destruct (i =? 0). }
    assert (Hj' : (j <= k)%nat) by (apply lookup_lt_Some in Hx; rewrite length_app in Hx; simpl in Hx; lia).
    rewrite lookup_app_l in Hx by lia. destruct (decide (j = k)) as [->|Hne].
    { assert (x = p) as -> by congruence. rewrite grow_word_p by done.
      by rewrite lookup_app_r, Hlen, Nat.sub_diag by lia. }
    rewrite lookup_app_l by lia. rewrite grow_word; [by apply Hdir| | | |done].
    + apply (vs_valid _ _ _ _ H). by eapply list_elem_of_lookup_2.
    + intros ->. apply Hne. by eapply NoDup_lookup.
    + intros ->. apply Hqt. by eapply list_elem_of_lookup_2.
  - intros x i Hx Hi. apply lookup_app_Some in Hx as [Hx|[Hl Hx]]; [apply lookup_lt_Some in Hx; lia|].
    apply list_lookup_singleton_Some in Hx as [_ <-]. rewrite grow_word_q by done. by rewrite lookup_empty.
  - intros v e He. by rewrite lookup_empty in He.
Qed.

Lemma grow_space : vmspace (grown p q s) fl (ts ++ [q]) ∅ /\ kmem_only s (grown p q s).
Proof.
  destruct grow_pages as (Hq & Hpv & Hpt & Hqt & Hqf & Hpf & Hndt & Hnd & Hpq). split; [|done].
  split; [exact (vs_cpu _ _ _ _ H)|exact (vs_lock _ _ _ _ H)| |exact grow_tab| | | |].
  - pose proof (kalloc_rep _ _ _ (vs_free _ _ _ _ H)) as Hrep.
    apply (kmem_frame (alloced q s) fl [q; p]); [exact Hrep| | |].
    + intros a Ha. cbn. rewrite ld8_st64_out by (specialize (Ha p ltac:(right; left)); unfold in_page, PGSIZE in Ha; lia).
      apply (same_memset q). intros x Hx. apply list_elem_of_singleton in Hx. subst. apply Ha. left.
    + intros y Hy. rewrite !elem_of_cons, elem_of_nil in Hy. naive_solver.
    + apply mem_ok_st64, mem_ok_memset, Hrep.
  - intros x [Hx|Hx]%elem_of_app; [by apply (vs_valid _ _ _ _ H)|]. apply list_elem_of_singleton in Hx. by subst.
  - rewrite app_assoc. apply NoDup_app. split; [done|]. split; [|apply NoDup_singleton].
    intros x Hx Hxq. apply list_elem_of_singleton in Hxq. subst x. apply elem_of_app in Hx as [?|?]; done.
  - intros v e He. by rewrite lookup_empty in He.
  - intros v v' e e' He. by rewrite lookup_empty in He.
Qed.
End Grow.

(** [new] pages of the free list have become tables. *)
Definition grew (fl ts fl' ts' : list Z) : Prop :=
  exists new, fl = new ++ fl' /\ ts' = ts ++ new /\ (length ts' = 4%nat \/ fl' = []).

Lemma grew_sub fl ts fl' ts' p : grew fl ts fl' ts' -> p ∈ fl' ++ ts' <-> p ∈ fl ++ ts.
Proof. intros (new & -> & -> & _). rewrite !elem_of_app. tauto. Qed.

Lemma grew_lookup fl ts fl' ts' k p : grew fl ts fl' ts' -> ts !! k = Some p -> ts' !! k = Some p.
Proof. intros (new & -> & -> & _) Hk. by apply lookup_app_l_Some. Qed.

Lemma grew_refl fl ts : length ts = 4%nat \/ fl = [] -> grew fl ts fl ts.
Proof. intros Hf. exists []. by rewrite app_nil_r. Qed.

Lemma kmem_only_refl s : kmem_only s s.
Proof. done. Qed.

Lemma kalloc_take s p fl :
  cpu_ok s -> lock_free s L_kmem -> kmem_rep s (p :: fl) -> kalloc s = Done p (alloced p s).
Proof.
  intros Hc Hl ((E & Hv & _) & _). pose proof (valid_page_range p Hv). apply kalloc_cons; [done|done|done|lia].
Qed.

Lemma kalloc_none s : cpu_ok s -> lock_free s L_kmem -> kmem_rep s [] -> kalloc s = Done 0 s.
Proof. intros Hc Hl (E & _). by apply kalloc_nil. Qed.

Lemma walk_loop_true va l k p s fl ts A :
  vmspace s fl ts A -> 0 <= va < MAXVA -> (k + l = 3)%nat -> ts !! k = Some p ->
  exists s' fl' ts', walk_loop p va true l s = Done (leaf_addr ts' va) s' /\ vmspace s' fl' ts' A /\
    grew fl ts fl' ts' /\ kmem_only s s' /\ same_outside (fl ++ ts) (k_mem s) (k_mem s').
Proof.
  intros H Hva. revert k p s fl ts H. induction l as [|l IH]; intros k p s fl ts H Hk Hp.
  - replace k with 3%nat in Hp by lia. cbn [walk_loop]. exists s, fl, ts. unfold leaf_addr. rewrite Hp, PX_0 by done.
    split; [done|]. split; [done|]. split; [|split; [apply kmem_only_refl|apply same_refl]]. apply grew_refl.
    left. pose proof (pt_len _ _ _ (vs_tab _ _ _ _ H)). apply lookup_lt_Some in Hp. lia.
  - cbn [walk_loop]. unfold load64. kstep. rewrite PX_high by lia.
    rewrite (pt_dir _ _ _ (vs_tab _ _ _ _ H) k p 0 Hp) by lia. cbn [Z.eqb].
    destruct (ts !! S k) as [q|] eqn:Eq; cbn [next_of].
    { rewrite next_valid. cbn [negb]. rewrite pde_page; [|apply (vs_valid _ _ _ _ H); by eapply list_elem_of_lookup_2].
      apply (IH (S k)); [done|lia|done]. }
    change (negb (Z.land 0 PTE_V =? 0)) with false. cbn [negb].
    assert (Hlen : length ts = S k) by (apply lookup_ge_None in Eq; apply lookup_lt_Some in Hp; lia).
    pose proof (short_empty _ _ _ (vs_tab _ _ _ _ H) ltac:(lia)) as ->.
    pose proof (vs_cpu _ _ _ _ H) as Hc. pose proof (vs_lock _ _ _ _ H) as Hlk. pose proof (vs_free _ _ _ _ H) as Hrep.
    destruct fl as [|q fl].
    { rewrite (bind_done _ _ _ _ _ (kalloc_none s Hc Hlk Hrep)). exists s, [], ts. unfold leaf_addr.
      rewrite (lookup_None_le _ _ 3 Eq) by lia. split; [done|]. split; [done|].
      split; [|split; [apply kmem_only_refl|apply same_refl]]. apply grew_refl. by right. }
    rewrite (bind_done _ _ _ _ _ (kalloc_take s q fl Hc Hlk Hrep)).
    destruct (grow_pages s q fl ts p k H Hp) as (Hq & Hpv & Hpt & Hqt & Hqf & Hpf & _).
    rewrite (proj2 (Z.eqb_neq q 0)) by (pose proof (valid_page_range q Hq); lia).
    unfold kmemset, store64. kstep. rewrite set_set_k_mem, Z.add_0_r. fold (pde_of q).
    destruct (grow_space s q fl ts p k H Hlen ltac:(lia) Hp) as [Hsp Hko].
    destruct (IH (S k) q (grown p q s) fl (ts ++ [q]) Hsp) as (s' & fl' & ts' & E & Hsp' & (new & E1 & E2 & E3) & Hko' & Hsame);
      [lia|by rewrite lookup_app_r, Hlen, Nat.sub_diag by lia|].
    exists s', fl', ts'. split; [exact E|]. split; [exact Hsp'|]. split; [|split; [by eapply kmem_only_trans|]].
    + exists (q :: new). split; [by rewrite E1|]. split; [by rewrite E2, <- app_assoc|done].
    + eapply same_trans.
      * eapply same_mono; [|apply (grow_same s q p)]. intros x [->|Hx]%elem_of_cons; [left|].
        apply list_elem_of_singleton in Hx. subst x. right. apply elem_of_app. by right.
      * eapply same_mono; [|exact Hsame]. intros x Hx.
        rewrite !elem_of_app, list_elem_of_singleton in Hx. rewrite elem_of_app, elem_of_cons. tauto.
Qed.

Lemma walk_true s fl ts A root va :
  vmspace s fl ts A -> ts !! 0%nat = Some root -> 0 <= va < MAXVA ->
  exists s' fl' ts', walk root va true s = Done (leaf_addr ts' va) s' /\ vmspace s' fl' ts' A /\
    grew fl ts fl' ts' /\ kmem_only s s' /\ same_outside (fl ++ ts) (k_mem s) (k_mem s').
Proof.
  intros H Hr Hva. unfold walk. rewrite Z.geb_leb, (proj2 (Z.leb_gt _ _)) by lia.
  by apply (walk_loop_true va 3 0).
Qed.

(** ** Changing a leaf entry *)

Lemma leaf_u64 o : (forall pa perm, o = Some (pa, perm) -> valid_page pa /\ perm_ok perm) -> u64 (leaf_of o) = leaf_of o.
Proof.
  destruct o as [[pa perm]|]; [|done]. intros Ho. destruct (Ho pa perm eq_refl) as [Hv (Hp & _)]. by apply pte_u64.
Qed.

Lemma kmem_frame_mem s fl ps f :
  kmem_rep s fl -> same_outside ps (k_mem s) (f (k_mem s)) -> (forall p, p ∈ ps -> valid_page p /\ p ∉ fl) ->
  mem_ok (f (k_mem s)) -> kmem_rep (set_k_mem f s) fl.
Proof. intros H1 H2 H3 H4. exact (kmem_frame s fl ps (f (k_mem s)) H1 H2 H3 H4). Qed.

Section SetLeaf.
Context (s : kstate) (fl ts : list Z) (A : amap) (H : vmspace s fl ts A).
Context (p0 v : Z) (Hp0 : ts !! 3%nat = Some p0) (Hv : 0 <= v < 256).
Context (o : option (Z * Z)).
Context (Ho : forall pa perm, o = Some (pa, perm) -> valid_page pa /\ perm_ok perm /\ pa ∉ fl ++ ts /\
  forall v' e, A !! v' = Some e -> v' <> v -> e.1 <> pa).

Definition leaf_set : kstate := set_k_mem (st64 (p0 + 8 * v) (leaf_of o)) s.
Definition leaf_map : amap := partial_alter (fun _ => o) v A.

Lemma leaf_map_lookup v' : leaf_map !! v' = if decide (v' = v) then o else A !! v'.
Proof.
  unfold leaf_map. case_decide as E; [subst; apply lookup_partial_alter_eq|]. by apply lookup_partial_alter_ne.
Qed.

Lemma leaf_set_same : same_outside [p0] (k_mem s) (k_mem leaf_set).
Proof. apply same_st64. lia. Qed.

Lemma leaf_set_tab : ptable (k_mem leaf_set) ts leaf_map.
Proof.
  pose proof (vs_tab _ _ _ _ H) as [H1 H2 H3 H4]. pose proof (vs_valid _ _ _ _ H) as Hvv.
  assert (Hndt : NoDup ts) by (pose proof (vs_nodup _ _ _ _ H) as Hnd; by apply NoDup_app in Hnd as (_ & _ & ?)).
  assert (Hv0 : valid_page p0) by (apply Hvv; by eapply list_elem_of_lookup_2). split; [done| | |].
  - intros k p i Hp Hk Hi. rewrite (same_word [p0] (k_mem s) (k_mem leaf_set) p i leaf_set_same); [by apply H2| | | |done].
    + apply Hvv. by eapply list_elem_of_lookup_2.
    + intros x Hx. apply list_elem_of_singleton in Hx. by subst.
    + apply not_in_one. intros ->. pose proof (NoDup_lookup _ _ _ _ Hndt Hp Hp0). lia.
  - intros p i Hp Hi. assert (p = p0) as -> by congruence. rewrite leaf_map_lookup. cbn [k_mem leaf_set set_k_mem].
    change (k_mem leaf_set) with (st64 (p0 + 8 * v) (leaf_of o) (k_mem s)). case_decide as E.
    + subst i. rewrite ld64_st64_same. apply leaf_u64. intros pa perm Eo. destruct (Ho pa perm Eo) as (? & ? & _). done.
    + rewrite ld64_st64_other by lia. by apply H3.
  - intros v' e He. rewrite leaf_map_lookup in He. case_decide as E; [|by apply H4].
    subst v'. destruct e as [pa perm]. destruct (Ho pa perm He) as (? & ? & _).
    split; [done|]. split; [apply lookup_lt_Some in Hp0; lia|done].
Qed.

Lemma leaf_set_space : vmspace leaf_set fl ts leaf_map.
Proof.
  pose proof (vs_valid _ _ _ _ H) as Hvv.
  split; [exact (vs_cpu _ _ _ _ H)|exact (vs_lock _ _ _ _ H)| |exact leaf_set_tab|exact Hvv|exact (vs_nodup _ _ _ _ H)| |].
  - apply (kmem_frame_mem s fl [p0]); [exact (vs_free _ _ _ _ H)|apply leaf_set_same| |].
    + intros x Hx. apply list_elem_of_singleton in Hx. subst x.
      assert (p0 ∈ ts) by (by eapply list_elem_of_lookup_2). split; [by apply Hvv|by apply (vs_dirs_sep H)].
    + apply mem_ok_st64, (vs_free _ _ _ _ H).
  - intros v' [pa perm] He. rewrite leaf_map_lookup in He. case_decide as E; [|by apply (vs_apart _ _ _ _ H v')].
    by destruct (Ho pa perm He) as (_ & _ & Hn & _).
  - intros v1 v2 [pa1 pe1] [pa2 pe2] He1 He2 Heq. rewrite leaf_map_lookup in He1, He2. cbn [fst] in Heq. subst pa2.
    destruct (decide (v1 = v)) as [E1|E1], (decide (v2 = v)) as [E2|E2]; [congruence|..].
    + destruct (Ho pa1 pe1 He1) as (_ & _ & _ & Hd). by destruct (Hd v2 _ He2 E2).
    + destruct (Ho pa1 pe2 He2) as (_ & _ & _ & Hd). by destruct (Hd v1 _ He1 E1).
    + by eapply (vs_inj _ _ _ _ H).
Qed.
End SetLeaf.

(** ** [mappages] of one page *)

Lemma PGROUNDDOWN_eq a : PGROUNDDOWN a = a / PGSIZE * PGSIZE.
Proof.
  unfold PGROUNDDOWN, PGSIZE. change (4096 - 1) with (Z.ones 12). change (Z.land a (Z.lnot (Z.ones 12))) with
    (Z.land a (Z.lnot (Z.ones 12))). rewrite <- Z.ldiff_land, Z.ldiff_ones_r by lia.
  by rewrite Z.shiftl_mul_pow2, Z.shiftr_div_pow2 by lia.
Qed.

Lemma page_va v : 0 <= v < 256 -> 0 <= v * PGSIZE < MAXVA /\ v * PGSIZE / PGSIZE = v.
Proof.
  intros Hv. unfold MAXVA, PGSIZE. change (2 ^ (9 + 12 - 1)) with 1048576. split; [lia|]. by rewrite Z.div_mul.
Qed.

Lemma leaf_addr_full ts va p0 : ts !! 3%nat = Some p0 -> leaf_addr ts va = p0 + 8 * (va / PGSIZE).
Proof. unfold leaf_addr. by intros ->. Qed.

Lemma mappages_unfold root v pa perm s :
  0 <= v < 256 ->
  mappages root (v * PGSIZE) PGSIZE pa perm s =
  (pte <- walk root (v * PGSIZE) true;;
   if pte =? 0 then ret (-1) else
   w <- load64 pte;;
   if negb (Z.land w PTE_V =? 0) then panic "mappages: remap" else
   store64 pte (pte_of pa perm);; ret 0) s.
Proof.
  intros Hv. unfold mappages. change (PGSIZE =? 0) with false. cbv iota zeta.
  assert (E1 : PGROUNDDOWN (v * PGSIZE) = v * PGSIZE) by (rewrite PGROUNDDOWN_eq, Z.div_mul; done).
  assert (E2 : PGROUNDDOWN (u64 (v * PGSIZE + PGSIZE - 1)) = v * PGSIZE).
  { rewrite u64_small by (unfold PGSIZE; lia). rewrite PGROUNDDOWN_eq. unfold PGSIZE. f_equal. dlia. }
  rewrite E1, E2, Z.sub_diag. change (Z.to_nat (u64 0 / PGSIZE)) with 0%nat. cbn [mappages_loop].
  by rewrite Z.eqb_refl.
Qed.

(** What a step on a table may touch: memory in the free pages and the
    tables, and the free list. *)
Definition vm_frame (fl ts : list Z) (s s' : kstate) : Prop :=
  kmem_only s s' /\ same_outside (fl ++ ts) (k_mem s) (k_mem s').

Lemma insert_leaf v pa perm (A : amap) : leaf_map A v (Some (pa, perm)) = <[v := (pa, perm)]> A.
Proof. done. Qed.

Lemma full_table fl ts fl' ts' : grew fl ts fl' ts' -> (length ts' <= 4)%nat ->
  (exists p0, ts' !! 3%nat = Some p0) \/ (fl' = [] /\ ts' !! 3%nat = None).
Proof.
  intros (new & _ & _ & [Hl|Hl]) Hle.
  - left. destruct (lookup_lt_is_Some_2 ts' 3) as [p0 E]; [lia|]. by exists p0.
  - destruct (ts' !! 3%nat) as [p0|] eqn:E; [left; by exists p0|by right].
Qed.

Section MapPage.
Context (s : kstate) (fl ts : list Z) (A : amap) (H : vmspace s fl ts A).
Context (root v : Z) (Hroot : ts !! 0%nat = Some root) (Hv : 0 <= v < 256).

(** A page is mapped where there was none, or the free list is exhausted. *)
Lemma map_page pa perm :
  A !! v = None -> valid_page pa -> perm_ok perm -> pa ∉ fl ++ ts ->
  (forall v' e, A !! v' = Some e -> e.1 <> pa) ->
  exists s' fl' ts' r, mappages root (v * PGSIZE) PGSIZE pa perm s = Done r s' /\
    grew fl ts fl' ts' /\ vm_frame fl ts s s' /\
    (r = 0 /\ vmspace s' fl' ts' (<[v := (pa, perm)]> A) \/ r = -1 /\ fl' = [] /\ (length ts' < 4)%nat /\ vmspace s' fl' ts' A).
Proof.
  intros HA Hpa Hperm Hn Hd. destruct (page_va v Hv) as [Hva Hdiv].
  destruct (walk_true s fl ts A root _ H Hroot Hva) as (s1 & fl' & ts' & E & H1 & Hg & Hko & Hs).
  rewrite mappages_unfold by done. rewrite (bind_done _ _ _ _ _ E). unfold leaf_addr. rewrite Hdiv.
  destruct (full_table _ _ _ _ Hg) as [[p0 Hp0]|[Hfl Hnone]]; [apply (pt_len _ _ _ (vs_tab _ _ _ _ H1))|..].
  - rewrite Hp0. assert (Hvp : valid_page p0) by (apply (vs_valid _ _ _ _ H1); by eapply list_elem_of_lookup_2).
    rewrite (proj2 (Z.eqb_neq _ 0)) by (pose proof (valid_page_range p0 Hvp); lia).
    unfold load64, store64. kstep. rewrite (pt_leaf _ _ _ (vs_tab _ _ _ _ H1) p0 v Hp0) by lia. rewrite HA. cbn.
    exists (leaf_set s1 p0 v (Some (pa, perm))), fl', ts', 0. split; [done|]. split; [done|]. split.
    + split; [by eapply kmem_only_trans|]. eapply same_trans; [exact Hs|]. eapply same_mono; [|by apply leaf_set_same].
      intros x Hx. apply list_elem_of_singleton in Hx. subst x. rewrite <- (grew_sub _ _ _ _ p0 Hg).
      apply elem_of_app. right. by eapply list_elem_of_lookup_2.
    + left. split; [done|]. rewrite <- insert_leaf. apply leaf_set_space; [done..|].
      intros pa' perm' [= <- <-]. split; [done|]. split; [done|]. split; [by rewrite (grew_sub _ _ _ _ pa Hg)|].
      intros v' e He _. by eapply Hd.
  - rewrite Hnone. cbn. exists s1, fl', ts', (-1). split; [done|]. split; [done|]. split; [by split|]. right.
    split; [done|]. split; [done|]. split; [|done]. apply lookup_ge_None in Hnone. lia.
Qed.

(** Mapping over a mapping stops the kernel. *)
Lemma map_page_remap pa perm e :
  A !! v = Some e -> mappages root (v * PGSIZE) PGSIZE pa perm s = Panic "mappages: remap" s.
Proof.
  intros HA. destruct (page_va v Hv) as [Hva Hdiv].
  destruct (pt_dom _ _ _ (vs_tab _ _ _ _ H) v e HA) as (_ & Hlen & Hpa & Hperm).
  destruct (lookup_lt_is_Some_2 ts 3) as [p0 Hp0]; [lia|].
  rewrite mappages_unfold by done.
  assert (E : walk root (v * PGSIZE) true s = Done (p0 + 8 * v) s).
  { unfold walk. rewrite Z.geb_leb, (proj2 (Z.leb_gt _ _)) by lia. 
    by rewrite (walk_loop_full s fl ts A (v * PGSIZE) 3 0 root p0), Hdiv. }
  rewrite (bind_done _ _ _ _ _ E).
  assert (Hvp : valid_page p0) by (apply (vs_valid _ _ _ _ H); by eapply list_elem_of_lookup_2).
  rewrite (proj2 (Z.eqb_neq _ 0)) by (pose proof (valid_page_range p0 Hvp); lia).
  unfold load64. kstep. rewrite (pt_leaf _ _ _ (vs_tab _ _ _ _ H) p0 v Hp0), HA by lia.
  destruct e as [pa0 perm0]. cbn [leaf_of]. by rewrite pte_valid.
Qed.
End MapPage.

(** ** Taking pages and giving them back *)

Lemma vmspace_mem s fl ts A ps m' :
  vmspace s fl ts A -> same_outside ps (k_mem s) m' -> mem_ok m' ->
  (forall p, p ∈ ps -> valid_page p /\ p ∉ fl ++ ts) -> vmspace (set_k_mem (fun _ => m') s) fl ts A.
Proof.
  intros H Hs Hok Hps.
  split; [exact (vs_cpu _ _ _ _ H)|exact (vs_lock _ _ _ _ H)| | |exact (vs_valid _ _ _ _ H)|exact (vs_nodup _ _ _ _ H)
    |exact (vs_apart _ _ _ _ H)|exact (vs_inj _ _ _ _ H)].
  - apply (kmem_frame s fl ps); [exact (vs_free _ _ _ _ H)|done| |done].
    intros p Hp. destruct (Hps p Hp) as [Hv Hn]. rewrite not_elem_of_app in Hn. tauto.
  - cbn. eapply ptable_frame; [exact Hs|intros p Hp; by apply Hps| |exact (vs_tab _ _ _ _ H)].
    intros q Hq. split; [by apply (vs_valid _ _ _ _ H)|]. intros Hqp. destruct (Hps q Hqp) as [_ Hn].
    apply Hn, elem_of_app. by right.
Qed.

(** What an address space is does not depend on the rest of the kernel state. *)
Lemma vmspace_ext s s' fl ts A :
  cpu_ok s' -> k_locks s' = k_locks s -> k_mem s' = k_mem s -> k_freelist s' = k_freelist s -> vmspace s fl ts A -> vmspace s' fl ts A.
Proof.
  intros Hc Hl Hm Hf [H1 H2 H3 H4 H5 H6 H7 H8]. split; try done.
  - destruct H2 as [nm H2]. exists nm. by rewrite Hl.
  - unfold kmem_rep in *. by rewrite Hm, Hf.
  - by rewrite Hm.
Qed.

Lemma vmspace_acq s fl ts A l : l <> L_kmem -> vmspace s fl ts A -> vmspace (acq l s) fl ts A.
Proof.
  intros Hl [H1 H2 H3 H4 H5 H6 H7 H8]. split; try done; [by apply cpu_ok_acq|by apply lock_free_acq].
Qed.

Lemma freed_same pa s : same_outside [pa] (k_mem s) (k_mem (freed pa s)).
Proof.
  intros a Ha. cbn. rewrite ld8_st64_out.
  - by apply (same_memset pa).
  - specialize (Ha pa ltac:(left)). unfold in_page, PGSIZE in Ha. lia.
Qed.

Lemma freed_space s fl ts A pa :
  vmspace s fl ts A -> valid_page pa -> pa ∉ fl ++ ts -> (forall v e, A !! v = Some e -> e.1 <> pa) ->
  vmspace (freed pa s) (pa :: fl) ts A.
Proof.
  intros H Hv Hn HA. pose proof Hn as Hn'. rewrite not_elem_of_app in Hn. destruct Hn as [Hnf Hnt].
  split; [exact (vs_cpu _ _ _ _ H)|exact (vs_lock _ _ _ _ H)| | |exact (vs_valid _ _ _ _ H)| | |exact (vs_inj _ _ _ _ H)].
  - apply kfree_rep; [exact (vs_free _ _ _ _ H)|done|done].
  - eapply ptable_frame; [apply freed_same| | |exact (vs_tab _ _ _ _ H)].
    + intros p Hp. apply list_elem_of_singleton in Hp. by subst.
    + intros q Hq. split; [by apply (vs_valid _ _ _ _ H)|]. apply not_in_one. by intros ->.
  - cbn. constructor; [done|exact (vs_nodup _ _ _ _ H)].
  - intros v e He. cbn. rewrite not_elem_of_cons. split; [by eapply HA|by eapply (vs_apart _ _ _ _ H)].
Qed.

Lemma alloced_same p s : same_outside [p] (k_mem s) (k_mem (alloced p s)).
Proof. apply same_memset. Qed.

(** A page taken from the free list, and set to zero. *)
Definition zeroed (p : Z) (s : kstate) : kstate :=
  set_k_mem (fun m => memset m p 0 PGSIZE) (alloced p s).

Lemma zeroed_same p s : same_outside [p] (k_mem s) (k_mem (zeroed p s)).
Proof. eapply same_trans; [apply (alloced_same p s)|apply same_memset]. Qed.

Lemma taken_space s p fl ts A m' :
  vmspace s (p :: fl) ts A -> same_outside [p] (k_mem s) m' -> mem_ok m' ->
  vmspace (set_k_mem (fun _ => m') (alloced p s)) fl ts A /\
  valid_page p /\ p ∉ fl ++ ts /\ (forall v e, A !! v = Some e -> e.1 <> p).
Proof.
  intros H Hs Hok. pose proof (vs_nodup _ _ _ _ H) as Hnd. cbn in Hnd. apply NoDup_cons in Hnd as [Hp Hnd].
  assert (Hv : valid_page p) by (apply (vs_fl_valid H); left).
  assert (HA : forall v e, A !! v = Some e -> e.1 <> p /\ e.1 ∉ fl ++ ts).
  { intros v e He. pose proof (vs_apart _ _ _ _ H v e He) as Hn. cbn in Hn. by apply not_elem_of_cons in Hn. }
  split; [|split; [done|split; [done|intros v e He; by apply (HA v e He)]]].
  split; [exact (vs_cpu _ _ _ _ H)|exact (vs_lock _ _ _ _ H)| | |exact (vs_valid _ _ _ _ H)|done| |exact (vs_inj _ _ _ _ H)].
  - pose proof (kalloc_rep _ _ _ (vs_free _ _ _ _ H)) as Hrep.
    rewrite not_elem_of_app in Hp. destruct Hp as [Hpf Hpt].
    apply (kmem_frame (alloced p s) fl [p]); [exact Hrep| | |done].
    + intros a Ha. rewrite (Hs a Ha). symmetry. by apply (alloced_same p s).
    + intros x Hx. apply list_elem_of_singleton in Hx. by subst.
  - cbn. eapply ptable_frame; [exact Hs| | |exact (vs_tab _ _ _ _ H)].
    + intros x Hx. apply list_elem_of_singleton in Hx. by subst.
    + intros q Hq. split; [by apply (vs_valid _ _ _ _ H)|]. apply not_in_one. intros ->.
      apply Hp, elem_of_app. by right.
  - intros v e He. by apply (HA v e He).
Qed.

Lemma zeroed_space s p fl ts A :
  vmspace s (p :: fl) ts A ->
  vmspace (zeroed p s) fl ts A /\ valid_page p /\ p ∉ fl ++ ts /\ (forall v e, A !! v = Some e -> e.1 <> p).
Proof.
  intros H. apply (taken_space s p fl ts A (k_mem (zeroed p s)) H (zeroed_same p s)).
  cbn. apply mem_ok_memset, mem_ok_memset, (vs_free _ _ _ _ H).
Qed.

(** ** Unmapping *)

Lemma delete_leaf v (A : amap) : leaf_map A v None = delete v A.
Proof. done. Qed.

Lemma mem_last f g g' g'' h s :
  set_k_mem f (set_k_freelist h (set_k_mem g s)) =
  set_k_mem (fun _ => f (k_mem (set_k_freelist h (set_k_mem g s))))
    (set_k_freelist h (set_k_mem g' (set_k_mem g'' s))).
Proof. done. Qed.

Section UnmapPage.
Context (s : kstate) (fl ts : list Z) (A : amap) (H : vmspace s fl ts A).
Context (root v pa perm : Z) (Hroot : ts !! 0%nat = Some root) (HA : A !! v = Some (pa, perm)).

Lemma mapped_facts :
  0 <= v < 256 /\ valid_page pa /\ perm_ok perm /\ pa ∉ fl ++ ts /\
  exists p0, ts !! 3%nat = Some p0 /\ valid_page p0 /\ p0 <> pa.
Proof.
  destruct (pt_dom _ _ _ (vs_tab _ _ _ _ H) v _ HA) as (Hv & Hlen & Hpa & Hperm).
  pose proof (vs_apart _ _ _ _ H v _ HA) as Hn. split; [done|]. split; [done|]. split; [done|]. split; [done|].
  destruct (lookup_lt_is_Some_2 ts 3) as [p0 Hp0]; [lia|]. exists p0.
  assert (p0 ∈ ts) by (by eapply list_elem_of_lookup_2). split; [done|]. split; [by apply (vs_valid _ _ _ _ H)|].
  intros ->. apply Hn, elem_of_app. by right.
Qed.

(** Freeing the page first and then clearing the entry, as the code does, is
    the same as the other way round. *)
Lemma unmap_mem p0 a :
  valid_page p0 -> valid_page pa -> p0 <> pa -> 0 <= v < 256 ->
  ld8 (st64 (p0 + 8 * v) 0 (k_mem (freed pa s))) a = ld8 (k_mem (freed pa (leaf_set s p0 v None))) a.
Proof.
  clear HA. intros Hp0 Hpa Hne Hv. destruct (pages_apart p0 pa Hp0 Hpa Hne) as [Hd|Hd]; unfold PGSIZE in Hd; cbn.
  all: destruct (decide (p0 + 8 * v <= a < p0 + 8 * v + 8)) as [Hx|Hx];
    [rewrite (ld8_st64_out pa), ld8_memset, decide_False by (unfold PGSIZE; lia); by apply ld8_st64_in|].
  all: rewrite (ld8_st64_out (p0 + 8 * v)) by lia; destruct (decide (pa <= a < pa + 8)) as [Hy|Hy];
    [by apply ld8_st64_in|]; rewrite !(ld8_st64_out pa) by lia; rewrite !ld8_memset by (unfold PGSIZE; lia);
    case_decide; [done|]; by rewrite (ld8_st64_out (p0 + 8 * v)) by lia.
Qed.

Lemma unmapped_space p0 :
  ts !! 3%nat = Some p0 -> vmspace (leaf_set s p0 v None) fl ts (delete v A).
Proof.
  intros Hp0. destruct mapped_facts as (Hv & Hpa & Hperm & Hn & _).
  rewrite <- delete_leaf. apply leaf_set_space; [done..|]. intros ?? [=].
Qed.

Lemma freed_unmapped p0 :
  ts !! 3%nat = Some p0 -> vmspace (set_k_mem (st64 (p0 + 8 * v) 0) (freed pa s)) (pa :: fl) ts (delete v A).
Proof.
  intros Hp0. destruct mapped_facts as (Hv & Hpa & _ & Hn & p1 & Hp1 & Hvp & Hne).
  rewrite Hp0 in Hp1. injection Hp1 as <-.
  assert (Hf : vmspace (freed pa (leaf_set s p0 v None)) (pa :: fl) ts (delete v A)).
  { apply freed_space; [by apply unmapped_space|done|done|]. intros v' e He Heq. apply lookup_delete_Some in He as [Hvv He].
    by destruct Hvv; eapply (vs_inj _ _ _ _ H); [exact HA|exact He|]. }
  assert (E : set_k_mem (st64 (p0 + 8 * v) 0) (freed pa s) =
    set_k_mem (fun _ => st64 (p0 + 8 * v) 0 (k_mem (freed pa s))) (freed pa (leaf_set s p0 v None)))
    by apply mem_last.
  rewrite E. clear E. apply (vmspace_mem _ _ _ _ [] _ Hf).
  - intros a _. by apply unmap_mem.
  - apply mem_ok_st64. apply kfree_rep with (l := fl); [exact (vs_free _ _ _ _ H)|done|].
    intros Hi. apply Hn, elem_of_app. by left.
  - intros p Hp. destruct (not_elem_of_nil p Hp).
Qed.

Lemma freed_unmapped_same p0 :
  ts !! 3%nat = Some p0 ->
  same_outside (pa :: ts) (k_mem s) (k_mem (set_k_mem (st64 (p0 + 8 * v) 0) (freed pa s))).
Proof.
  intros Hp0. destruct mapped_facts as (Hv & _).
  eapply same_trans; [eapply same_mono; [|apply (freed_same pa s)]|eapply same_mono; [|apply (same_st64 p0 v); lia]].
  - intros x Hx. apply list_elem_of_singleton in Hx. subst. left.
  - intros x Hx. apply list_elem_of_singleton in Hx. subst. right. by eapply list_elem_of_lookup_2.
Qed.

Lemma unmap_page (do_free : bool) (f : K unit) :
  exists s', (pte <- walk root (v * PGSIZE) false;;
      if pte =? 0 then panic "uvmunmap: walk" else
      w <- load64 pte;;
      if Z.land w PTE_V =? 0 then panic "uvmunmap: not mapped" else
      if PTE_FLAGS w =? PTE_V then panic "uvmunmap: not a leaf" else
      when do_free (kfree (Z.lor (PTE2PA w) DMWIN_MASK));;
      store64 pte 0;;
      f) s = f s' /\
    vmspace s' (if do_free then pa :: fl else fl) ts (delete v A) /\ kmem_only s s' /\
    same_outside (if do_free then pa :: ts else ts) (k_mem s) (k_mem s').
Proof.
  destruct mapped_facts as (Hv & Hpa & (Hp1 & Hp2 & Hp3) & Hn & p0 & Hp0 & Hvp & Hne).
  destruct (page_va v Hv) as [Hva Hdiv].
  rewrite (bind_done _ _ _ _ _ (walk_false s fl ts A root _ H Hroot Hva)).
  rewrite (leaf_addr_full _ _ _ Hp0), Hdiv.
  rewrite (proj2 (Z.eqb_neq _ 0)) by (pose proof (valid_page_range p0 Hvp); lia).
  unfold load64, store64. kstep. rewrite (pt_leaf _ _ _ (vs_tab _ _ _ _ H) p0 v Hp0), HA by lia. cbn [leaf_of].
  rewrite pte_valid, pte_leaf, pte_page by done. destruct do_free.
  - unfold when. rewrite (bind_done _ _ _ _ _ (kfree_eq pa s (vs_cpu _ _ _ _ H) (vs_lock _ _ _ _ H) Hpa)). kstep.
    eexists. split; [reflexivity|]. split; [by apply freed_unmapped|]. split; [reflexivity|by apply freed_unmapped_same].
  - kstep. exists (leaf_set s p0 v None). split; [reflexivity|]. split; [by apply unmapped_space|]. split; [done|].
    eapply same_mono; [|by apply leaf_set_same]. intros x Hx. apply list_elem_of_singleton in Hx. subst.
    by eapply list_elem_of_lookup_2.
Qed.

(** The page may have been freed before its entry is cleared, as [freeproc]
    does with the trap frame. *)
Lemma unmap_freed (f : K unit) :
  exists s', (pte <- walk root (v * PGSIZE) false;;
      if pte =? 0 then panic "uvmunmap: walk" else
      w <- load64 pte;;
      if Z.land w PTE_V =? 0 then panic "uvmunmap: not mapped" else
      if PTE_FLAGS w =? PTE_V then panic "uvmunmap: not a leaf" else
      when false (kfree (Z.lor (PTE2PA w) DMWIN_MASK));;
      store64 pte 0;;
      f) (freed pa s) = f s' /\
    vmspace s' (pa :: fl) ts (delete v A) /\ kmem_only s s' /\ same_outside (pa :: ts) (k_mem s) (k_mem s').
Proof.
  destruct mapped_facts as (Hv & Hpa & (Hp1 & Hp2 & Hp3) & Hn & p0 & Hp0 & Hvp & Hne).
  destruct (page_va v Hv) as [Hva Hdiv].
  assert (Ht : ptable (k_mem (freed pa s)) ts A).
  { eapply ptable_frame; [apply freed_same| | |exact (vs_tab _ _ _ _ H)].
    - intros p Hp. apply list_elem_of_singleton in Hp. by subst.
    - intros q Hq. split; [by apply (vs_valid _ _ _ _ H)|]. intros Hx. apply list_elem_of_singleton in Hx. subst.
      apply Hn, elem_of_app. by right. }
  rewrite (bind_done _ _ _ _ _ (walk_reads _ ts A root _ Ht (vs_valid _ _ _ _ H) Hroot Hva)).
  rewrite (leaf_addr_full _ _ _ Hp0), Hdiv.
  rewrite (proj2 (Z.eqb_neq _ 0)) by (pose proof (valid_page_range p0 Hvp); lia).
  unfold load64, store64. kstep. rewrite (pt_leaf _ _ _ Ht p0 v Hp0), HA by lia. cbn [leaf_of].
  rewrite pte_valid, pte_leaf by done. kstep. eexists. split; [reflexivity|].
  split; [by apply freed_unmapped|]. split; [reflexivity|by apply freed_unmapped_same].
Qed.
End UnmapPage.

Fixpoint del_range (A : amap) (v : Z) (n : nat) : amap :=
  match n with
  | O => A
  | S n' => del_range (delete v A) (v + 1) n'
  end.

(** The physical pages of [n] mapped pages from [v] on. *)
Fixpoint range_pages (A : amap) (v : Z) (n : nat) : list Z :=
  match n with
  | O => []
  | S n' => match A !! v with Some e => [e.1] | None => [] end ++ range_pages (delete v A) (v + 1) n'
  end.

Lemma del_range_lookup A v n k :
  del_range A v n !! k = if decide (v <= k < v + Z.of_nat n) then None else A !! k.
Proof.
  revert A v. induction n as [|n IH]; intros A v; cbn [del_range]; [by rewrite decide_False by lia|].
  rewrite IH. destruct (decide (v + 1 <= k < v + 1 + Z.of_nat n)); [by rewrite decide_True by lia|].
  destruct (decide (v = k)) as [->|]; [by rewrite lookup_delete_eq, decide_True by lia|].
  by rewrite lookup_delete_ne, decide_False by lia.
Qed.

Lemma range_pages_in A v n p : p ∈ range_pages A v n -> exists k e, v <= k < v + Z.of_nat n /\ A !! k = Some e /\ e.1 = p.
Proof.
  revert A v. induction n as [|n IH]; intros A v Hp; [by apply not_elem_of_nil in Hp|]. cbn [range_pages] in Hp.
  apply elem_of_app in Hp as [Hp|Hp].
  - destruct (A !! v) as [e|] eqn:E; [|by apply not_elem_of_nil in Hp]. apply list_elem_of_singleton in Hp.
    exists v, e. split; [lia|by split].
  - destruct (IH _ _ Hp) as (k & e & Hk & He & Hep). apply lookup_delete_Some in He as [_ He].
    exists k, e. split; [lia|by split].
Qed.

Lemma page_next v : 0 <= v < 256 -> u64 (v * PGSIZE + PGSIZE) = (v + 1) * PGSIZE.
Proof. intros. rewrite u64_small by (unfold PGSIZE; lia). lia. Qed.

Lemma unmap_run n s fl ts A root v fuel :
  vmspace s fl ts A -> ts !! 0%nat = Some root ->
  (forall i, v <= i < v + Z.of_nat n -> is_Some (A !! i)) -> (n < fuel)%nat ->
  exists s', uvmunmap_loop root (v * PGSIZE) ((v + Z.of_nat n) * PGSIZE) true fuel s = Done tt s' /\
    vmspace s' (rev (range_pages A v n) ++ fl) ts (del_range A v n) /\ kmem_only s s' /\
    same_outside (range_pages A v n ++ ts) (k_mem s) (k_mem s').
Proof.
  intros H Hroot. revert s fl A v fuel H. induction n as [|n IH]; intros s fl A v fuel H Hm Hf;
    (destruct fuel as [|fuel]; [lia|]); cbn [uvmunmap_loop].
  - rewrite (proj2 (Z.ltb_ge _ _)) by lia. exists s. split; [done|]. split; [exact H|].
    split; [apply kmem_only_refl|apply same_refl].
  - rewrite (proj2 (Z.ltb_lt _ _)) by (unfold PGSIZE; lia). cbn [negb].
    destruct (Hm v) as [[pa perm] HA]; [lia|].
    destruct (unmap_page s fl ts A H root v pa perm Hroot HA true
      (uvmunmap_loop root (u64 (v * PGSIZE + PGSIZE)) ((v + Z.of_nat (S n)) * PGSIZE) true fuel))
      as (s1 & E & H1 & K1 & S1).
    rewrite E. rewrite page_next by (by destruct (pt_dom _ _ _ (vs_tab _ _ _ _ H) v _ HA)).
    replace (v + Z.of_nat (S n)) with (v + 1 + Z.of_nat n) by lia.
    destruct (IH s1 (pa :: fl) (delete v A) (v + 1) fuel H1) as (s2 & E2 & H2 & K2 & S2); [|lia|].
    { intros i Hi. rewrite lookup_delete_ne by lia. apply Hm. lia. }
    exists s2. split; [exact E2|]. cbn [range_pages del_range]. rewrite HA. cbn [fst app rev].
    split; [by rewrite <- app_assoc|]. split; [by eapply kmem_only_trans|].
    eapply same_trans; (eapply same_mono; [|eassumption]); intros x; rewrite !elem_of_cons, ?elem_of_app; tauto.
Qed.
