(* ===== verification/VmSpace.v ===== *)
(** * Growing, shrinking, freeing and copying address spaces

    The functions of [kernel/vm.c] that work on whole address spaces, on the
    page tables of [VmProps]: they do all of their work or none of it, and no
    page of memory is lost or used twice. *)

From stdpp Require Import gmap strings list.
From Stdlib Require Import ZArith Lia.
From S2P Require Import Prelude KState CString Spinlock Sched Kalloc Vm VmProps.
Open Scope Z_scope.
Import Spinlock Sched Kalloc CString Vm SpinlockProps KallocProps.

(** ** Sizes in pages *)

(** The number of pages that hold [sz] bytes. *)
Definition npages (sz : Z) : Z := (sz + PGSIZE - 1) / PGSIZE.

Lemma PGROUNDUP_eq sz : 0 <= sz <= MAXVA -> PGROUNDUP sz = npages sz * PGSIZE.
Proof.
  intros H. unfold PGROUNDUP. rewrite u64_small by (unfold MAXVA, PGSIZE in *; lia).
  change (Z.land ?a (Z.lnot (PGSIZE - 1))) with (PGROUNDDOWN a). by rewrite PGROUNDDOWN_eq.
Qed.

Lemma npages_range sz : 0 <= sz <= MAXVA -> 0 <= npages sz <= 256.
Proof. unfold npages, MAXVA, PGSIZE. change (2 ^ (9 + 12 - 1)) with 1048576. intros. dlia. Qed.

Lemma npages_mono a b : a <= b -> npages a <= npages b.
Proof. intros. unfold npages. apply Z.div_le_mono; [done|lia]. Qed.

(** The loops over pages compare byte addresses. *)
Lemma page_lt v sz : v * PGSIZE < sz <-> v < npages sz.
Proof. unfold npages, PGSIZE. split; intros; dlia. Qed.

Lemma npages_page v : npages (v * PGSIZE) = v.
Proof. unfold npages, PGSIZE. dlia. Qed.

(** ** Pages of an address space *)

Definition pages_of (A : amap) : list Z := (fun e => e.2.1) <$> map_to_list A.

Lemma pages_of_insert A v e : A !! v = None -> pages_of (<[v := e]> A) ≡ₚ e.1 :: pages_of A.
Proof. intros HA. unfold pages_of. by rewrite map_to_list_insert by done. Qed.

Lemma pages_of_delete A v e : A !! v = Some e -> pages_of A ≡ₚ e.1 :: pages_of (delete v A).
Proof.
  intros HA. rewrite <- (insert_delete_id A v e HA) at 1. apply pages_of_insert, lookup_delete_eq.
Qed.

Lemma pages_of_in A p : p ∈ pages_of A <-> exists v e, A !! v = Some e /\ e.1 = p.
Proof.
  unfold pages_of. rewrite list_elem_of_fmap. split.
  - intros ([v e] & -> & He). apply elem_of_map_to_list in He. by exists v, e.
  - intros (v & e & He & <-). exists (v, e). split; [done|]. by apply elem_of_map_to_list.
Qed.

Lemma pages_of_del_range A v n : range_pages A v n ++ pages_of (del_range A v n) ≡ₚ pages_of A.
Proof.
  revert A v. induction n as [|n IH]; intros A v; [done|]. cbn [range_pages del_range].
  rewrite <- app_assoc, IH. destruct (A !! v) as [e|] eqn:E; cbn.
  - symmetry. by apply pages_of_delete.
  - by rewrite delete_id.
Qed.

(** The pages of the allocator and of one address space. *)
Definition all_pages (fl ts : list Z) (A : amap) : list Z := fl ++ ts ++ pages_of A.

Lemma grew_pages fl ts fl' ts' A : grew fl ts fl' ts' -> all_pages fl' ts' A ≡ₚ all_pages fl ts A.
Proof.
  intros (new & -> & -> & _). unfold all_pages. rewrite <- !app_assoc, !(Permutation_app_comm fl').
  rewrite <- !app_assoc. rewrite (Permutation_app_comm (pages_of A)), !app_assoc.
  do 2 apply Permutation_app_tail. apply Permutation_app_comm.
Qed.

(** ** [uvmunmap] and [uvmdealloc] *)

Lemma uvmunmap_run s fl ts A root v n :
  vmspace s fl ts A -> ts !! 0%nat = Some root -> 0 <= v -> 0 <= n -> v + n <= 256 ->
  (forall i, v <= i < v + n -> is_Some (A !! i)) ->
  exists s' fl', uvmunmap root (v * PGSIZE) n true s = Done tt s' /\
    vmspace s' fl' ts (del_range A v (Z.to_nat n)) /\ kmem_only s s' /\
    all_pages fl' ts (del_range A v (Z.to_nat n)) ≡ₚ all_pages fl ts A /\
    same_outside (range_pages A v (Z.to_nat n) ++ ts) (k_mem s) (k_mem s').
Proof.
  intros H Hroot Hv Hn Hr Hm. unfold uvmunmap. rewrite Z.mod_mul by done. cbn [Z.eqb negb].
  replace (v * PGSIZE + n * PGSIZE) with ((v + Z.of_nat (Z.to_nat n)) * PGSIZE) by (rewrite Z2Nat.id by lia; ring).
  rewrite u64_small by (unfold PGSIZE; lia).
  destruct (unmap_run (Z.to_nat n) s fl ts A root v (S (Z.to_nat n)) H Hroot) as (s' & E & H' & K & S);
    [intros i Hi; apply Hm; lia|lia|].
  exists s', (rev (range_pages A v (Z.to_nat n)) ++ fl). split; [exact E|]. split; [exact H'|]. split; [exact K|].
  split; [|exact S]. unfold all_pages. rewrite <- Permutation_rev. rewrite <- (pages_of_del_range A v (Z.to_nat n)).
  rewrite <- !app_assoc. rewrite (Permutation_app_comm (range_pages _ _ _)), <- !app_assoc.
  apply Permutation_app_head, Permutation_app_head, Permutation_app_comm.
Qed.

Lemma uvmdealloc_run s fl ts A root oldsz newsz :
  vmspace s fl ts A -> ts !! 0%nat = Some root -> 0 <= newsz <= oldsz -> oldsz <= MAXVA ->
  (forall i, npages newsz <= i < npages oldsz -> is_Some (A !! i)) ->
  exists s' fl', let n := Z.to_nat (npages oldsz - npages newsz) in
    uvmdealloc root oldsz newsz s = Done newsz s' /\
    vmspace s' fl' ts (del_range A (npages newsz) n) /\ kmem_only s s' /\
    all_pages fl' ts (del_range A (npages newsz) n) ≡ₚ all_pages fl ts A /\
    same_outside (range_pages A (npages newsz) n ++ ts) (k_mem s) (k_mem s').
Proof.
  intros H Hroot Hn Ho Hm. unfold uvmdealloc. pose proof (npages_range oldsz ltac:(lia)) as Hro.
  pose proof (npages_range newsz ltac:(lia)) as Hrn. pose proof (npages_mono newsz oldsz ltac:(lia)).
  rewrite !PGROUNDUP_eq by lia. rewrite Z.geb_leb. destruct (Z.leb_spec oldsz newsz) as [Hle|Hlt].
  { assert (oldsz = newsz) as -> by lia. exists s, fl. rewrite Z.sub_diag. cbn [Z.to_nat del_range range_pages].
    split; [done|]. split; [exact H|]. split; [done|]. split; [done|apply same_refl]. }
  rewrite <- Z.mul_sub_distr_r, Z.div_mul, s32_small by (done || lia).
  destruct (Z.ltb_spec (npages newsz * PGSIZE) (npages oldsz * PGSIZE)) as [Hp|Hp]; cbn [when].
  - destruct (uvmunmap_run s fl ts A root (npages newsz) (npages oldsz - npages newsz)) as (s' & fl' & E & Hs);
      [done|done|lia|lia|lia|intros i Hi; apply Hm; lia|].
    exists s', fl'. rewrite (bind_done _ _ _ _ _ E). split; [done|exact Hs].
  - replace (npages oldsz - npages newsz) with 0 by (unfold PGSIZE in Hp; lia). exists s, fl.
    cbn [Z.to_nat del_range range_pages]. kstep.
    split; [done|]. split; [exact H|]. split; [done|]. split; [done|apply same_refl].
Qed.

(** ** [uvmalloc] *)

(** Page [p] holds the bytes [c]. *)
Definition page_is (m : mem) (p : Z) (c : Z -> Z) : Prop := forall o, 0 <= o < PGSIZE -> ld8 m (p + o) = c o.

(** What is to be mapped at each page number: permissions and contents. *)
Abbreviation plan := (Z -> Z * (Z -> Z)).

Definition zeros : plan := fun _ => (uperm, fun _ => 0).

(** [A] is [A0] with the pages from [v0] up to [v] added as planned. *)
Definition filled (W : plan) (A0 : amap) (v0 v : Z) (A : amap) (m : mem) : Prop :=
  forall k, if decide (v0 <= k < v) then exists p, A !! k = Some (p, (W k).1) /\ page_is m p (W k).2
            else A !! k = A0 !! k.

Lemma filled_in W A0 v0 v A m k :
  filled W A0 v0 v A m -> v0 <= k < v -> exists p, A !! k = Some (p, (W k).1) /\ page_is m p (W k).2.
Proof. intros Hf Hk. specialize (Hf k). by rewrite decide_True in Hf. Qed.

Lemma filled_out W A0 v0 v A m k : filled W A0 v0 v A m -> ~ (v0 <= k < v) -> A !! k = A0 !! k.
Proof. intros Hf Hk. specialize (Hf k). by rewrite decide_False in Hf. Qed.

Lemma filled_undo W A0 v0 v A m :
  filled W A0 v0 v A m -> v0 <= v -> (forall k, v0 <= k < v -> A0 !! k = None) ->
  del_range A v0 (Z.to_nat (v - v0)) = A0.
Proof.
  intros Hf Hv HN. apply map_eq. intros k. rewrite del_range_lookup, Z2Nat.id by lia.
  replace (v0 + (v - v0)) with v by lia. case_decide as Hk; [by rewrite HN|]. by eapply filled_out.
Qed.

Lemma all_pages_insert fl ts A v p perm :
  A !! v = None -> all_pages fl ts (<[v := (p, perm)]> A) ≡ₚ p :: all_pages fl ts A.
Proof.
  intros HA. unfold all_pages. rewrite pages_of_insert by done. cbn [fst].
  rewrite !app_assoc. symmetry. apply Permutation_middle.
Qed.

Lemma page_is_frame ps m m' q c :
  page_is m q c -> same_outside ps m m' -> valid_page q -> (forall p, p ∈ ps -> valid_page p) -> q ∉ ps -> page_is m' q c.
Proof.
  intros Hz Hs Hq Hps Hn o Ho. rewrite (same_page ps m m' q (q + o)); [by apply Hz|done..|]. unfold in_page. lia.
Qed.

(** What was filled stays so while only free pages and tables change. *)
Lemma filled_frame W s fl ts A A0 v0 v ps m' :
  vmspace s fl ts A -> filled W A0 v0 v A (k_mem s) -> same_outside ps (k_mem s) m' ->
  (forall p, p ∈ ps -> p ∈ fl ++ ts) -> filled W A0 v0 v A m'.
Proof.
  intros H Hf Hs Hps k. specialize (Hf k). case_decide; [|done]. destruct Hf as (p & HA & Hz).
  exists p. split; [done|]. destruct (pt_dom _ _ _ (vs_tab _ _ _ _ H) k _ HA) as (_ & _ & Hv & _).
  eapply page_is_frame; [exact Hz|exact Hs|exact Hv| |].
  - intros x [Hx|Hx]%Hps%elem_of_app; [by apply (vs_fl_valid H)|by apply (vs_valid _ _ _ _ H)].
  - intros Hx. by apply (vs_apart _ _ _ _ H k _ HA), Hps.
Qed.

Lemma zeroed_zero p s k : page_is (k_mem (zeroed p s)) p (zeros k).2.
Proof. intros o Ho. cbn. by rewrite ld8_memset, decide_True by (unfold PGSIZE in *; lia). Qed.

Section Grow.
Context (W : plan) (s0 : kstate) (fl0 ts0 : list Z) (A0 : amap) (root v0 vmax : Z).
Context (Hv0 : 0 <= v0) (Hmax : vmax <= 256).
Context (HN : forall k, v0 <= k < vmax -> A0 !! k = None) (HW : forall k, v0 <= k < vmax -> perm_ok (W k).1).

(** The state of a loop when it is about to map page [v]. *)
Record growing (v : Z) (s : kstate) (fl ts : list Z) (A : amap) : Prop := {
  gr_space : vmspace s fl ts A;
  gr_root : ts !! 0%nat = Some root;
  gr_fill : filled W A0 v0 v A (k_mem s);
  gr_pages : all_pages fl ts A ≡ₚ all_pages fl0 ts0 A0;
  gr_only : kmem_only s0 s;
  gr_same : same_outside (fl0 ++ ts0) (k_mem s0) (k_mem s);
  gr_own : forall p, p ∈ fl ++ ts -> p ∈ fl0 ++ ts0;
  gr_new : forall k e, v0 <= k < v -> A !! k = Some e -> e.1 ∈ fl0 ++ ts0;
  gr_count : Z.of_nat (length fl + length ts) + (v - v0) = Z.of_nat (length fl0 + length ts0) }.

(** How it ends: with the pages up to [vmax], or as it began. *)
Definition grow_done (ok : bool) (s' : kstate) : Prop :=
  exists fl' ts' A', vmspace s' fl' ts' A' /\ ts' !! 0%nat = Some root /\
    all_pages fl' ts' A' ≡ₚ all_pages fl0 ts0 A0 /\
    kmem_only s0 s' /\ same_outside (fl0 ++ ts0) (k_mem s0) (k_mem s') /\
    if ok then filled W A0 v0 vmax A' (k_mem s') else A' = A0.

(** There is memory for the new pages and for four page tables. *)
Definition fits : Prop := vmax <= v0 \/ vmax - v0 + 4 <= Z.of_nat (length fl0 + length ts0).

Lemma growing_fits s fl ts A : growing (Z.max v0 vmax) s fl ts A -> fits.
Proof.
  intros [H _ Hf _ _ _ _ _ Hc]. destruct (decide (vmax <= v0)) as [Hle|Hgt]; [by left|right].
  destruct (filled_in _ _ _ _ _ _ v0 Hf ltac:(lia)) as (p & Hp & _).
  destruct (pt_dom _ _ _ (vs_tab _ _ _ _ H) _ _ Hp) as (_ & Hl & _). lia.
Qed.

Lemma growing_short v s fl ts A : growing v s fl ts A -> v0 <= v < vmax -> (length fl + length ts <= 4)%nat -> ~ fits.
Proof. intros Hg Hv Hl Hf. pose proof (gr_count _ _ _ _ _ Hg). unfold fits in Hf. lia. Qed.

Lemma undo_done v s fl ts A s' fl' :
  growing v s fl ts A -> v0 <= v -> v <= vmax ->
  let n := Z.to_nat (v - v0) in
  vmspace s' fl' ts (del_range A v0 n) -> kmem_only s s' ->
  all_pages fl' ts (del_range A v0 n) ≡ₚ all_pages fl ts A ->
  same_outside (range_pages A v0 n ++ ts) (k_mem s) (k_mem s') -> grow_done false s'.
Proof.
  intros [H Hroot Hf Hp Ko Ss Hown Hnw _] Hv Hvn n H' K P S. unfold n in *.
  rewrite (filled_undo W A0 v0 v A _ Hf) in * by (done || (intros; apply HN; lia)).
  exists fl', ts, A0. split; [exact H'|]. split; [exact Hroot|]. split; [by rewrite P|].
  split; [by eapply kmem_only_trans|]. split; [|done].
  eapply same_trans; [exact Ss|]. eapply same_mono; [|exact S]. intros p [Hr|Ht]%elem_of_app.
  - apply range_pages_in in Hr as (k & e & Hk & He & <-). eapply Hnw; [|exact He]. lia.
  - apply Hown, elem_of_app. by right.
Qed.

Lemma growing_mapped v s fl ts A i : growing v s fl ts A -> v0 <= i < v -> is_Some (A !! i).
Proof. intros Hg Hi. destruct (filled_in _ _ _ _ _ _ i (gr_fill _ _ _ _ _ Hg) Hi) as (p & -> & _). eauto. Qed.

(** Page [p], taken from the free list and given its contents, is mapped. *)
Lemma growing_map v s p fl ts A m' :
  growing v s (p :: fl) ts A -> v0 <= v < vmax ->
  same_outside [p] (k_mem s) m' -> mem_ok m' -> page_is m' p (W v).2 ->
  exists s' r, mappages root (v * PGSIZE) PGSIZE p (W v).1 (set_k_mem (fun _ => m') (alloced p s)) = Done r s' /\
    exists fl' ts', grew fl ts fl' ts' /\ (r = 0 /\ growing (v + 1) s' fl' ts' (<[v := (p, (W v).1)]> A) \/
      r = -1 /\ (length (p :: fl') + length ts' <= 4)%nat /\ growing v (freed p s') (p :: fl') ts' A /\ cpu_ok s' /\ lock_free s' L_kmem /\ valid_page p).
Proof.
  intros [H Hroot Hf Hp Ko Ss Hown Hnw Hct] Hv Hsm Hokm Hpg0.
  assert (HAv : A !! v = None) by (rewrite (filled_out _ _ _ _ _ _ v Hf) by lia; apply HN; lia).
  assert (Hv256 : 0 <= v < 256) by lia.
  destruct (taken_space s p fl ts A m' H Hsm Hokm) as (Hz & Hpv & Hpn & HpA).
  set (s1 := set_k_mem (fun _ => m') (alloced p s)) in *.
  destruct (map_page s1 fl ts A Hz root v Hroot Hv256 p (W v).1 HAv Hpv (HW v Hv) Hpn HpA)
    as (s' & fl' & ts' & r & E & Hg & [Ko' Ss'] & Hr).
  exists s', r. split; [exact E|]. exists fl', ts'. split; [exact Hg|].
  assert (Hpin : p ∈ fl0 ++ ts0) by (apply Hown; left).
  assert (Hct' : Z.of_nat (length fl' + length ts') + (v + 1 - v0) = Z.of_nat (length fl0 + length ts0)).
  { destruct Hg as (new & -> & -> & _). cbn [length] in Hct. rewrite !length_app in *. lia. }
  assert (Hown' : forall x, x ∈ fl' ++ ts' -> x ∈ fl0 ++ ts0).
  { intros x Hx. rewrite (grew_sub _ _ _ _ x Hg) in Hx. apply Hown. cbn. by right. }
  assert (Hko : kmem_only s0 s') by (eapply kmem_only_trans; [exact Ko|]; by eapply kmem_only_trans).
  assert (Hstep : same_outside ((p :: fl) ++ ts) (k_mem s) (k_mem s')).
  { apply (same_trans _ _ m').
    - apply (same_mono [p]); [|exact Hsm]. intros x Hx. apply list_elem_of_singleton in Hx. subst. left.
    - apply (same_mono (fl ++ ts)); [|exact Ss']. intros x Hx. by right. }
  assert (Hss : same_outside (fl0 ++ ts0) (k_mem s0) (k_mem s')).
  { eapply same_trans; [exact Ss|]. exact (same_mono _ _ _ _ Hown Hstep). }
  assert (Hroot' : ts' !! 0%nat = Some root) by (by eapply grew_lookup).
  assert (Hfill : filled W A0 v0 v A (k_mem s'))
    by (exact (filled_frame _ _ _ _ _ _ _ _ _ _ H Hf Hstep (fun x Hx => Hx))).
  assert (Hpg : p :: all_pages fl' ts' A ≡ₚ all_pages fl0 ts0 A0).
  { rewrite (grew_pages _ _ _ _ A Hg). exact Hp. }
  destruct Hr as [[-> Hs']|(-> & Hfl & Hshort & Hs')]; [left; split; [done|]|right; split; [done|split; [rewrite Hfl; cbn; lia|]]].
  - split; [done..| | |done|done|done| |lia].
    + intros k. specialize (Hfill k). destruct (decide (k = v)) as [->|Hkv].
      * rewrite decide_True by lia. exists p. rewrite lookup_insert_eq. split; [done|].
        eapply page_is_frame; [exact Hpg0|exact Ss'|done| |done].
        intros x [Hx|Hx]%elem_of_app; [by apply (vs_fl_valid Hz)|by apply (vs_valid _ _ _ _ Hz)].
      * rewrite lookup_insert_ne by done. destruct (decide (v0 <= k < v)).
        -- by rewrite decide_True by lia.
        -- by rewrite decide_False by lia.
    + by rewrite all_pages_insert.
    + intros k e Hk He. destruct (decide (k = v)) as [->|Hkv].
      * rewrite lookup_insert_eq in He. by injection He as <-.
      * rewrite lookup_insert_ne in He by done. eapply Hnw; [|exact He]. lia.
  - split; [|split; [exact (vs_cpu _ _ _ _ Hs')|split; [exact (vs_lock _ _ _ _ Hs')|done]]].
    assert (Hpn' : p ∉ fl' ++ ts') by (by rewrite (grew_sub _ _ _ _ p Hg)).
    pose proof (freed_same p s') as Hfs.
    split; [by apply freed_space|done| | | | | |done|cbn [length] in *; lia].
    + intros k. specialize (Hfill k). case_decide; [|done]. destruct Hfill as (q & Hq & Hqz). exists q. split; [done|].
      destruct (pt_dom _ _ _ (vs_tab _ _ _ _ H) k _ Hq) as (_ & _ & Hqv & _).
      eapply page_is_frame; [exact Hqz|exact Hfs|exact Hqv| |].
      * intros x Hx. apply list_elem_of_singleton in Hx. by subst.
      * apply not_in_one. exact (HpA k _ Hq).
    + exact Hpg.
    + eapply kmem_only_trans; [exact Hko|]. reflexivity.
    + eapply same_trans; [exact Hss|]. eapply same_mono; [|exact Hfs]. intros x Hx.
      apply list_elem_of_singleton in Hx. by subst.
    + intros x [->|Hx]%elem_of_cons; [done|]. by apply Hown'.
Qed.
End Grow.

Section Alloc.
Context (s0 : kstate) (fl0 ts0 : list Z) (A0 : amap) (root v0 newsz : Z).
Context (Hv0 : 0 <= v0) (Hnew : 0 <= newsz <= TRAPFRAME).
Context (HN : forall k, v0 <= k < npages newsz -> A0 !! k = None).

Let growing := growing zeros s0 fl0 ts0 A0 root v0.
Let alloc_done := grow_done zeros s0 fl0 ts0 A0 root v0 (npages newsz).

Lemma newsz_pages : npages newsz <= 256.
Proof. apply npages_range. unfold TRAPFRAME, PGSIZE in *. lia. Qed.

Lemma give_back v s fl ts A :
  growing v s fl ts A -> v0 <= v -> v <= npages newsz ->
  exists s', (uvmdealloc root (v * PGSIZE) (v0 * PGSIZE);; ret 0) s = Done 0 s' /\ alloc_done false s'.
Proof.
  intros Hg Hv Hvn. pose proof newsz_pages as Hn256.
  destruct (uvmdealloc_run s fl ts A root (v * PGSIZE) (v0 * PGSIZE) (gr_space _ _ _ _ _ _ _ _ _ _ _ _ Hg)
    (gr_root _ _ _ _ _ _ _ _ _ _ _ _ Hg)) as (s' & fl' & E & H' & K & P & S).
  - unfold PGSIZE. lia.
  - unfold MAXVA, PGSIZE. change (2 ^ (9 + 12 - 1)) with 1048576. lia.
  - rewrite !npages_page. intros i Hi. by eapply growing_mapped.
  - rewrite !npages_page in *. exists s'. rewrite (bind_done _ _ _ _ _ E). split; [done|].
    by eapply undo_done.
Qed.

Lemma uvmalloc_loop_run n v s fl ts A fuel :
  growing v s fl ts A -> v0 <= v -> npages newsz - v = Z.of_nat n -> (n < fuel)%nat ->
  exists ok s', uvmalloc_loop root (v * PGSIZE) (v0 * PGSIZE) newsz fuel s = Done (if ok : bool then newsz else 0) s' /\ alloc_done ok s' /\
    if ok then fits fl0 ts0 v0 (npages newsz) else ~ fits fl0 ts0 v0 (npages newsz).
Proof.
  revert v s fl ts A fuel. induction n as [|n IH]; intros v s fl ts A fuel Hgr Hv Hn Hf;
    (destruct fuel as [|fuel]; [lia|]); cbn [uvmalloc_loop].
  - rewrite (proj2 (Z.ltb_ge _ _)) by (apply Z.le_ngt; rewrite page_lt; lia). cbn [negb]. exists true, s.
    split; [done|]. split.
    2: { eapply growing_fits. replace (Z.max v0 (npages newsz)) with v by lia. exact Hgr. }
    destruct Hgr as [H Hroot Hfl Hp Ko Ss _ _ _].
    exists fl, ts, A. do 5 (split; [done|]). by replace (npages newsz) with v by lia.
  - rewrite (proj2 (Z.ltb_lt _ _)) by (apply page_lt; lia). cbn [negb].
    pose proof (gr_space _ _ _ _ _ _ _ _ _ _ _ _ Hgr) as H. pose proof (vs_cpu _ _ _ _ H) as Hc.
    pose proof (vs_lock _ _ _ _ H) as Hl. destruct fl as [|p fl].
    + rewrite (bind_done _ _ _ _ _ (kalloc_none s Hc Hl (vs_free _ _ _ _ H))). cbn [Z.eqb].
      destruct (give_back v s [] ts A Hgr) as (s' & E & Hd); [lia|lia|]. exists false, s'. split; [exact E|]. split; [exact Hd|].
      eapply growing_short; [exact Hgr|lia|]. pose proof (pt_len _ _ _ (vs_tab _ _ _ _ H)). cbn. lia.
    + rewrite (bind_done _ _ _ _ _ (kalloc_take s p fl Hc Hl (vs_free _ _ _ _ H))).
      assert (Hpv : valid_page p) by (apply (vs_fl_valid H); left). pose proof (valid_page_range p Hpv).
      rewrite (proj2 (Z.eqb_neq p 0)) by lia.
      destruct (growing_map zeros s0 fl0 ts0 A0 root v0 (npages newsz) Hv0 newsz_pages HN (fun _ _ => perm_ok_u)
        v s p fl ts A (k_mem (zeroed p s)) Hgr) as (s1 & r & E & fl' & ts' & _ & Hr);
        [lia|apply zeroed_same|apply mem_ok_memset, mem_ok_memset, (vs_free _ _ _ _ H)|apply zeroed_zero|].
      unfold kmemset. rewrite bind_modify. change (set_k_mem (fun _ => k_mem (zeroed p s)) (alloced p s))
        with (set_k_mem (fun m => memset m p 0 PGSIZE) (alloced p s)) in E. rewrite (bind_done _ _ _ _ _ E).
      destruct Hr as [[-> Hg']|(-> & Hshort & Hg' & Hc1 & Hl1 & _)]; cbn [Z.eqb negb].
      * rewrite page_next. 2: { pose proof newsz_pages. lia. }
        apply (IH (v + 1) s1 _ _ _ fuel Hg'); lia.
      * rewrite (bind_done _ _ _ _ _ (kfree_eq p s1 Hc1 Hl1 Hpv)).
        destruct (give_back v _ _ ts' A Hg') as (s' & E' & Hd); [lia|lia|]. exists false, s'. split; [exact E'|]. split; [exact Hd|].
        eapply growing_short; [exact Hg'|lia|exact Hshort].
Qed.
End Alloc.

Lemma uvmalloc_run s fl ts A root oldsz newsz :
  vmspace s fl ts A -> ts !! 0%nat = Some root -> 0 <= oldsz <= newsz -> newsz <= TRAPFRAME ->
  (forall k, npages oldsz <= k < npages newsz -> A !! k = None) ->
  exists r s' fl' ts' A', uvmalloc root oldsz newsz s = Done r s' /\ vmspace s' fl' ts' A' /\
    ts' !! 0%nat = Some root /\ all_pages fl' ts' A' ≡ₚ all_pages fl ts A /\
    kmem_only s s' /\ same_outside (fl ++ ts) (k_mem s) (k_mem s') /\
    (r = newsz /\ filled zeros A (npages oldsz) (npages newsz) A' (k_mem s') /\ fits fl ts (npages oldsz) (npages newsz) \/
     r = 0 /\ A' = A /\ ~ fits fl ts (npages oldsz) (npages newsz)).
Proof.
  intros H Hroot Ho Hn HN. unfold uvmalloc. rewrite (proj2 (Z.ltb_ge _ _)) by lia. cbv zeta.
  assert (HT : TRAPFRAME <= MAXVA) by (unfold TRAPFRAME, PGSIZE; lia).
  rewrite PGROUNDUP_eq by lia. set (v0 := npages oldsz).
  pose proof (npages_range oldsz ltac:(lia)) as Hr0. pose proof (npages_mono oldsz newsz ltac:(lia)).
  destruct (uvmalloc_loop_run s fl ts A root v0 newsz ltac:(unfold v0; lia) ltac:(lia) HN
    (Z.to_nat (npages newsz - v0)) v0 s fl ts A (S (Z.to_nat ((newsz - v0 * PGSIZE + PGSIZE - 1) / PGSIZE))))
    as (ok & s' & E & (fl' & ts' & A' & H1 & H2 & H3 & H4 & H5 & H6) & Hfit).
  - split; [done|done| |done|done|apply same_refl|done|intros; lia|lia].
    intros k. by rewrite decide_False by lia.
  - lia.
  - unfold v0. lia.
  - replace ((newsz - v0 * PGSIZE + PGSIZE - 1) / PGSIZE) with (npages newsz - v0); [lia|].
    unfold npages. replace (newsz - v0 * PGSIZE + PGSIZE - 1) with (newsz + PGSIZE - 1 + (- v0) * PGSIZE) by lia.
    by rewrite Z.div_add by done.
  - exists (if ok then newsz else 0), s', fl', ts', A'. split; [exact E|]. do 5 (split; [done|]). destruct ok; [by left|by right].
Qed.

(** A zeroed page is a page table of the empty address space. *)
Lemma new_table s root fl :
  cpu_ok s -> lock_free s L_kmem -> kmem_rep s (root :: fl) -> vmspace (zeroed root s) fl [root] ∅.
Proof.
  intros Hc Hl Hrep. pose proof Hrep as ((_ & Hv & _) & Hnd & Hok). apply NoDup_cons in Hnd as [Hn Hnd].
  split; [exact Hc|exact Hl| | | | | |].
  - apply (kmem_frame (alloced root s) fl [root]); [by apply kalloc_rep|apply same_memset| |].
    + intros x Hx. apply list_elem_of_singleton in Hx. by subst.
    + by apply mem_ok_memset, mem_ok_memset.
  - split; [simpl; lia| |intros p i Hp; discriminate Hp|intros v e He; by rewrite lookup_empty in He].
    intros k p i Hp Hk Hi. apply list_lookup_singleton_Some in Hp as [-> ->]. cbn.
    rewrite zero_page by done. by destruct (i =? 0).
  - intros x Hx. apply list_elem_of_singleton in Hx. by subst.
  - apply NoDup_app. split; [done|]. split; [|apply NoDup_singleton].
    intros x Hx Hx'. apply list_elem_of_singleton in Hx'. by subst.
  - intros v e He. by rewrite lookup_empty in He.
  - intros v v' e e' He. by rewrite lookup_empty in He.
Qed.

(** ** A machine with a few free pages *)

Definition pool_base : kstate := set_k_locks (fun _ => {[L_kmem := mkspinlock 0 "kmem" None]}) (kstate0 ∅ [] []).
Definition pool (ps : list Z) : kstate := foldr freed pool_base ps.

Lemma pool_rep ps :
  NoDup ps -> (forall p, p ∈ ps -> valid_page p) ->
  cpu_ok (pool ps) /\ lock_free (pool ps) L_kmem /\ kmem_rep (pool ps) ps.
Proof.
  induction ps as [|p ps IH]; intros Hnd Hv; cbn [pool foldr].
  - split; [repeat split; done|]. split; [by exists "kmem"%string|]. split; [done|]. split; [constructor|apply mem_ok_empty].
  - apply NoDup_cons in Hnd as [Hn Hnd]. destruct IH as (Hc & Hl & Hr); [done|intros x Hx; apply Hv; by right|].
    split; [exact Hc|]. split; [exact Hl|]. apply kfree_rep; [exact Hr|apply Hv; left|done].
Qed.

Lemma pool_ok n : (n <= 100)%nat ->
  cpu_ok (pool (pages RAMBASE n)) /\ lock_free (pool (pages RAMBASE n)) L_kmem /\
  kmem_rep (pool (pages RAMBASE n)) (pages RAMBASE n).
Proof.
  intros Hn. apply pool_rep; [apply NoDup_pages|]. intros p (i & Hi & ->)%elem_of_pages. split.
  - rewrite Z.mod_add by done. done.
  - rewrite RAMBASE_val, RAMSTOP_val. unfold PGSIZE. lia.
Qed.

Definition vm_test : kstate := zeroed RAMBASE (pool (pages RAMBASE 9)).

Lemma vm_test_space : vmspace vm_test (pages (RAMBASE + PGSIZE) 8) [RAMBASE] ∅.
Proof. destruct (pool_ok 9 ltac:(lia)) as (Hc & Hl & Hr). by apply new_table. Qed.

(** One page mapped in it. *)
Lemma vm_test_map v p perm :
  0 <= v < 256 -> valid_page p -> perm_ok perm -> p ∉ pages RAMBASE 9 ->
  exists s q fl ts, vmspace s (q :: fl) ts {[v := (p, perm)]} /\ ts !! 0%nat = Some RAMBASE /\ (4 <= length fl)%nat.
Proof.
  intros Hv Hp Hperm Hn.
  destruct (map_page vm_test _ _ _ vm_test_space RAMBASE v eq_refl Hv p perm (lookup_empty _) Hp Hperm)
    as (s' & fl' & ts' & r & _ & Hg & _ & Hr).
  { intros Hx. apply Hn. apply elem_of_app in Hx as [Hx|Hx]; [by right|]. apply list_elem_of_singleton in Hx. subst. left. }
  { intros v' e He. by rewrite lookup_empty in He. }
  assert (Hlt : (length ts' <= 4)%nat).
  { destruct Hr as [[_ H]|(_ & _ & _ & H)]; apply (pt_len _ _ _ (vs_tab _ _ _ _ H)). }
  pose proof (grew_lookup _ _ _ _ 0 RAMBASE Hg eq_refl) as Hroot. destruct Hg as (new & E1 & E2 & _).
  assert (Hl : length (pages (RAMBASE + PGSIZE) 8) = length (new ++ fl')) by (by rewrite E1).
  rewrite length_pages, length_app in Hl. rewrite E2, length_app in Hlt. cbn [length] in Hlt.
  destruct fl' as [|q fl']; [simpl in Hl; lia|]. destruct Hr as [[_ H]|(_ & [=] & _)].
  exists s', q, fl', ts'. split; [exact H|]. split; [exact Hroot|]. cbn [length] in Hl. lia.
Qed.

Module VmGrow.

(** C12: [uvmalloc] from [oldsz] to [newsz] bytes (up to the trap frame), on an
    address space with nothing mapped in between, returns; either it returns
    [newsz] and has mapped a zeroed page of its own at each new page number
    and nothing else, when there are enough free pages for them and for the
    page tables ([fits]: four tables in all), or, when there are not, it returns
    0 and the address space is as before. In both cases the free pages, page-table pages and mapped pages together are
    the ones there were, no page is used twice ([vmspace]), and no byte
    outside the pages that were free or page tables has changed. *)
Theorem uvmalloc_all_or_nothing s fl ts A root oldsz newsz :
  vmspace s fl ts A -> ts !! 0%nat = Some root -> 0 <= oldsz <= newsz -> newsz <= TRAPFRAME ->
  (forall k, npages oldsz <= k < npages newsz -> A !! k = None) ->
  exists r s' fl' ts' A', uvmalloc root oldsz newsz s = Done r s' /\ vmspace s' fl' ts' A' /\
    ts' !! 0%nat = Some root /\ all_pages fl' ts' A' ≡ₚ all_pages fl ts A /\
    kmem_only s s' /\ same_outside (fl ++ ts) (k_mem s) (k_mem s') /\
    (r = newsz /\ filled zeros A (npages oldsz) (npages newsz) A' (k_mem s') /\ fits fl ts (npages oldsz) (npages newsz) \/
     r = 0 /\ A' = A /\ ~ fits fl ts (npages oldsz) (npages newsz)).
Proof. apply uvmalloc_run. Qed.

Lemma uvmalloc_all_or_nothing_witness :
  exists s' fl' ts' A', uvmalloc RAMBASE 0 5000 vm_test = Done 5000 s' /\ vmspace s' fl' ts' A' /\
    filled zeros ∅ 0 2 A' (k_mem s').
Proof.
  destruct (uvmalloc_all_or_nothing vm_test _ _ _ RAMBASE 0 5000 vm_test_space eq_refl)
    as (r & s' & fl' & ts' & A' & E & H & _ & _ & _ & _ & Hr).
  - lia.
  - vm_compute. congruence.
  - intros k _. apply lookup_empty.
  - change (npages 0) with 0 in Hr. change (npages 5000) with 2 in Hr.
    destruct Hr as [(-> & Hf & _)|(_ & _ & Hn)]; [exists s', fl', ts', A'; split; [exact E|]; by split|].
    destruct Hn. right. rewrite length_pages. cbn. lia.
Defined.
End VmGrow.
