(* ===== verification/VmCopy.v ===== *)
(** * Copying between the kernel and user memory

    [walkaddr], [copyout] and [copyin] against the memory a user process
    sees: a byte for each virtual address on a page mapped with user
    privilege. *)

From stdpp Require Import gmap strings list.
From Stdlib Require Import ZArith Lia.
From S2P Require Import Prelude KState CString Spinlock Sched Kalloc Vm VmProps VmSpace.
Open Scope Z_scope.
Import Spinlock Sched Kalloc CString Vm SpinlockProps KallocProps.

(** The physical page of user page [v]. *)
Definition upage (A : amap) (v : Z) : option Z :=
  match A !! v with
  | Some (pa, perm) => if Z.land perm PTE_PLV =? 0 then None else Some pa
  | None => None
  end.

(** The byte a user program sees at [va]. *)
Definition ubyte (m : mem) (A : amap) (va : Z) : option Z :=
  match upage A (va / PGSIZE) with
  | Some pa => Some (ld8 m (pa + va mod PGSIZE))
  | None => None
  end.

Lemma upage_Some A v pa : upage A v = Some pa -> exists perm, A !! v = Some (pa, perm) /\ (Z.land perm PTE_PLV =? 0) = false.
Proof. unfold upage. destruct (A !! v) as [[pa' perm]|]; [|done]. case_match eqn:E; [done|]. intros [= ->]. eauto. Qed.

Lemma window_add pa off : valid_page pa -> 0 <= off < PGSIZE -> Z.lor (pa - DMWIN_MASK + off) DMWIN_MASK = pa + off.
Proof.
  intros [_ Hr] Ho. rewrite RAMBASE_val, RAMSTOP_val in Hr. unfold DMWIN_MASK, PGSIZE in *.
  change 0x9000000000000000 with (9 * 2 ^ 60) in *. rewrite lor_add_high by lia. lia.
Qed.

Section Copy.
Context (fl ts : list Z) (A : amap) (root : Z) (Hroot : ts !! 0%nat = Some root).

Lemma upage_facts s v pa :
  vmspace s fl ts A -> upage A v = Some pa -> 0 <= v < 256 /\ valid_page pa /\ pa ∉ fl ++ ts.
Proof.
  intros H (perm & HA & _)%upage_Some. destruct (pt_dom _ _ _ (vs_tab _ _ _ _ H) v _ HA) as (Hv & _ & Hpa & _).
  pose proof (vs_apart _ _ _ _ H v _ HA). by split.
Qed.

Lemma walkaddr_run s va :
  vmspace s fl ts A -> 0 <= va ->
  walkaddr root va s = Done (match upage A (va / PGSIZE) with Some pa => pa - DMWIN_MASK | None => 0 end) s.
Proof.
  intros H Hva. unfold walkaddr, upage. rewrite Z.geb_leb. destruct (Z.leb_spec MAXVA va) as [Hge|Hlt].
  { destruct (A !! (va / PGSIZE)) as [[pa perm]|] eqn:E; [|done].
    destruct (pt_dom _ _ _ (vs_tab _ _ _ _ H) _ _ E) as (Hv & _). exfalso.
    unfold MAXVA, PGSIZE in *. change (2 ^ (9 + 12 - 1)) with 1048576 in Hge. revert Hv. dlia. }
  rewrite (bind_done _ _ _ _ _ (walk_false s fl ts A root va H Hroot ltac:(lia))).
  unfold leaf_addr. destruct (ts !! 3%nat) as [p0|] eqn:Hp0.
  - assert (Hvp : valid_page p0) by (apply (vs_valid _ _ _ _ H); by eapply list_elem_of_lookup_2).
    assert (Hi : 0 <= va / PGSIZE < 256).
    { unfold MAXVA, PGSIZE in *. change (2 ^ (9 + 12 - 1)) with 1048576 in Hlt. dlia. }
    rewrite (proj2 (Z.eqb_neq _ 0)) by (pose proof (valid_page_range p0 Hvp); lia).
    unfold load64. kstep. rewrite (pt_leaf _ _ _ (vs_tab _ _ _ _ H) p0 (va / PGSIZE) Hp0) by lia.
    destruct (A !! (va / PGSIZE)) as [[pa perm]|] eqn:E; [|done]. cbn [leaf_of].
    destruct (pt_dom _ _ _ (vs_tab _ _ _ _ H) _ _ E) as (_ & _ & Hpa & (_ & Hp2 & _)).
    rewrite pte_valid, pte_plv. cbn [fst snd] in *. destruct (Z.land perm PTE_PLV =? 0); [done|].
    unfold ret. by rewrite pte_pa.
  - destruct (A !! (va / PGSIZE)) as [e|] eqn:E; [|done].
    destruct (pt_dom _ _ _ (vs_tab _ _ _ _ H) _ _ E) as (_ & Hlen & _). apply lookup_ge_None in Hp0. lia.
Qed.

Lemma upage_nonzero s v pa : vmspace s fl ts A -> upage A v = Some pa -> (pa - DMWIN_MASK =? 0) = false.
Proof.
  intros H Hu. destruct (upage_facts s v pa H Hu) as (_ & [_ Hr] & _). rewrite RAMBASE_val, RAMSTOP_val in Hr.
  apply Z.eqb_neq. unfold DMWIN_MASK. lia.
Qed.

(** Two different user pages are different physical pages. *)
Lemma upage_inj s v v' pa : vmspace s fl ts A -> upage A v = Some pa -> upage A v' = Some pa -> v = v'.
Proof.
  intros H (p & Hp & _)%upage_Some (p' & Hp' & _)%upage_Some. by eapply (vs_inj _ _ _ _ H).
Qed.

(** The bytes at offset [off] of user page [v] replaced by [l]. *)
Lemma ubyte_write s v pa off l va :
  vmspace s fl ts A -> upage A v = Some pa -> 0 <= off -> off + Z.of_nat (length l) <= PGSIZE ->
  ubyte (stbytes (pa + off) l (k_mem s)) A va =
  if decide (v * PGSIZE + off <= va < v * PGSIZE + off + Z.of_nat (length l))
  then u8 <$> l !! Z.to_nat (va - (v * PGSIZE + off)) else ubyte (k_mem s) A va.
Proof.
  intros H Hu Ho Hl. unfold ubyte. destruct (upage_facts s v pa H Hu) as (Hv & Hpa & _).
  pose proof (Z.div_mod va PGSIZE ltac:(done)) as Hdm. pose proof (Z.mod_pos_bound va PGSIZE ltac:(done)) as Hmb.
  case_decide as Hr.
  - assert (va / PGSIZE = v) as Ev.
    { symmetry. apply (Z.div_unique va PGSIZE v (va - v * PGSIZE)); [left|]; unfold PGSIZE in *; lia. }
    rewrite Ev, Hu. destruct (lookup_lt_is_Some_2 l (Z.to_nat (va - (v * PGSIZE + off)))) as [x Hx]; [lia|].
    rewrite Hx. cbn. f_equal. rewrite <- (ld8_stbytes_in (pa + off) l (k_mem s) _ x Hx). f_equal.
    rewrite Ev in Hdm. unfold PGSIZE in *. lia.
  - destruct (upage A (va / PGSIZE)) as [pa'|] eqn:Hu'; [|done]. f_equal. apply ld8_stbytes_out.
    destruct (decide (pa' = pa)) as [->|Hne].
    + assert (va / PGSIZE = v) as Ev by (by eapply upage_inj). rewrite Ev in Hdm. unfold PGSIZE in *. lia.
    + destruct (upage_facts s _ pa' H Hu') as (_ & Hpa' & _).
      destruct (pages_apart pa pa' Hpa Hpa'); [done|..]; lia.
Qed.

(** The pages user programs can write. *)
Definition upages : list Z := (fun e => e.2.1) <$> filter (fun e => Z.land e.2.2 PTE_PLV <> 0) (map_to_list A).

Lemma upages_in v pa : upage A v = Some pa -> pa ∈ upages.
Proof.
  intros (perm & HA & Hp)%upage_Some. apply Z.eqb_neq in Hp. unfold upages. apply list_elem_of_fmap.
  exists (v, (pa, perm)). split; [done|]. apply list_elem_of_filter. split; [done|]. by apply elem_of_map_to_list.
Qed.

Lemma write_space s v pa off l :
  vmspace s fl ts A -> upage A v = Some pa -> 0 <= off -> off + Z.of_nat (length l) <= PGSIZE ->
  let s' := set_k_mem (stbytes (pa + off) l) s in
  vmspace s' fl ts A /\ same_outside upages (k_mem s) (k_mem s').
Proof.
  intros H Hu Ho Hl s'. destruct (upage_facts s v pa H Hu) as (_ & Hpa & Hn).
  assert (Hs : same_outside [pa] (k_mem s) (k_mem s')).
  { intros a Ha. apply ld8_stbytes_out. specialize (Ha pa ltac:(left)). unfold in_page in Ha. lia. }
  split.
  - apply (vmspace_mem s fl ts A [pa] (stbytes (pa + off) l (k_mem s)) H Hs).
    + apply mem_ok_stbytes, (vs_free _ _ _ _ H).
    + intros p Hp. apply list_elem_of_singleton in Hp. by subst.
  - eapply same_mono; [|exact Hs]. intros p Hp. apply list_elem_of_singleton in Hp. subst. by eapply upages_in.
Qed.

(** User memory with the first [k] bytes of [src] stored at [dst]. *)
Definition ustored (m m' : mem) (dst : Z) (src : list Z) (k : Z) : Prop :=
  forall va, ubyte m' A va =
    if decide (dst <= va < dst + k) then u8 <$> src !! Z.to_nat (va - dst) else ubyte m A va.

Lemma copyout_loop_run fuel s dst src :
  vmspace s fl ts A -> 0 <= dst < 2 ^ 64 ->
  Z.of_nat (length src) + dst mod PGSIZE <= (Z.of_nat fuel - 1) * PGSIZE ->
  exists r s' k, copyout_loop root dst src fuel s = Done r s' /\ vmspace s' fl ts A /\ kmem_only s s' /\
    same_outside upages (k_mem s) (k_mem s') /\ ustored (k_mem s) (k_mem s') dst src k /\
    (r = 0 /\ k = Z.of_nat (length src) \/
     r = -1 /\ 0 <= k < Z.of_nat (length src) /\ upage A ((dst + k) / PGSIZE) = None).
Proof.
  revert s dst src. induction fuel as [|fuel IH]; intros s dst src H Hd Hf.
  { pose proof (Z.mod_pos_bound dst PGSIZE ltac:(done)). unfold PGSIZE in *. lia. }
  cbn [copyout_loop]. rewrite Z.gtb_ltb. destruct (Z.ltb_spec 0 (Z.of_nat (length src))) as [Hlen|Hlen]; cbn [negb].
  2: { exists 0, s, 0. split; [done|]. split; [done|]. split; [done|]. split; [apply same_refl|].
    split; [intros va; by rewrite decide_False by lia|]. left. split; [done|lia]. }
  pose proof (Z.div_mod dst PGSIZE ltac:(done)) as Hdm. pose proof (Z.mod_pos_bound dst PGSIZE ltac:(done)) as Hmb.
  rewrite PGROUNDDOWN_eq. set (v := dst / PGSIZE) in *. set (off := dst mod PGSIZE) in *.
  assert (Hv : 0 <= v) by (apply Z.div_pos; [lia|done]).
  rewrite (bind_done _ _ _ _ _ (walkaddr_run s (v * PGSIZE) H ltac:(unfold PGSIZE; lia))). rewrite Z.div_mul by done.
  destruct (upage A v) as [pa|] eqn:Hu.
  2: { exists (-1), s, 0. split; [done|]. split; [done|]. split; [done|]. split; [apply same_refl|].
    split; [intros va; by rewrite decide_False by lia|]. right. rewrite Z.add_0_r. split; [done|]. split; [lia|done]. }
  rewrite (upage_nonzero s v pa H Hu). replace (dst - v * PGSIZE) with off by lia.
  destruct (upage_facts s v pa H Hu) as (Hv256 & Hpa & _).
  set (n := if PGSIZE - off >? Z.of_nat (length src) then Z.of_nat (length src) else PGSIZE - off).
  assert (Hn : n = Z.min (Z.of_nat (length src)) (PGSIZE - off)).
  { unfold n. rewrite Z.gtb_ltb. destruct (Z.ltb_spec (Z.of_nat (length src)) (PGSIZE - off)); lia. }
  rewrite window_add by (done || lia). kstep.
  set (l := take (Z.to_nat n) src). assert (Hl : Z.of_nat (length l) = n) by (unfold l; rewrite length_take; lia).
  destruct (write_space s v pa off l H Hu) as [H1 S1]; [lia|lia|].
  set (s1 := set_k_mem (stbytes (pa + off) l) s) in *.
  assert (Hb1 : ustored (k_mem s) (k_mem s1) dst src n).
  { intros va. unfold s1. cbn. rewrite (ubyte_write s v pa off l va H Hu) by lia. rewrite Hl.
    replace (v * PGSIZE + off) with dst by lia. case_decide; [|done]. unfold l. by rewrite lookup_take_lt by lia. }
  rewrite page_next by done.
  destruct (IH s1 ((v + 1) * PGSIZE) (drop (Z.to_nat n) src) H1) as (r & s2 & k & E2 & H2 & K2 & S2 & B2 & R2).
  { unfold PGSIZE. lia. }
  { rewrite Z.mod_mul, length_drop by done. unfold PGSIZE in *. lia. }
  rewrite length_drop in R2. exists r, s2, (n + k). split; [exact E2|]. split; [exact H2|].
  split; [eapply kmem_only_trans; [|exact K2]; reflexivity|]. split; [by eapply same_trans|].
  assert (Hk : k = 0 \/ n = PGSIZE - off) by lia.
  split.
  - intros va. rewrite B2. destruct (decide ((v + 1) * PGSIZE <= va < (v + 1) * PGSIZE + k)) as [Hi|Ho].
    + rewrite decide_True by lia. rewrite lookup_drop. do 2 f_equal. lia.
    + rewrite Hb1. destruct (decide (dst <= va < dst + n)); [by rewrite decide_True by lia|].
      rewrite decide_False; [done|]. lia.
  - destruct R2 as [[-> ->]|(-> & Hkr & Hnone)]; [left; split; [done|lia]|]. right. split; [done|]. split; [lia|].
    rewrite <- Hnone. f_equal. f_equal. lia.
Qed.

(** [bs] are the bytes user memory holds from [va] on. *)
Definition uloaded (m : mem) (va : Z) (bs : list Z) : Prop :=
  forall i x, bs !! i = Some x -> ubyte m A (va + Z.of_nat i) = Some x.

Lemma copyin_loop_run fuel s src len dst :
  vmspace s fl ts A -> 0 <= src < 2 ^ 64 -> 0 <= len -> len + src mod PGSIZE <= (Z.of_nat fuel - 1) * PGSIZE ->
  exists r bs, copyin_loop root src len dst fuel s = Done (r, dst ++ bs) s /\ uloaded (k_mem s) src bs /\
    (r = 0 /\ Z.of_nat (length bs) = len \/
     r = -1 /\ Z.of_nat (length bs) < len /\ upage A ((src + Z.of_nat (length bs)) / PGSIZE) = None).
Proof.
  intros H. revert src len dst. induction fuel as [|fuel IH]; intros src len dst Hs Hlen Hf.
  { pose proof (Z.mod_pos_bound src PGSIZE ltac:(done)). unfold PGSIZE in *. lia. }
  cbn [copyin_loop]. rewrite Z.gtb_ltb. destruct (Z.ltb_spec 0 len) as [Hpos|Hz]; cbn [negb].
  2: { exists 0, []. rewrite app_nil_r. split; [done|]. split; [done|]. left. split; [done|simpl; lia]. }
  pose proof (Z.div_mod src PGSIZE ltac:(done)) as Hdm. pose proof (Z.mod_pos_bound src PGSIZE ltac:(done)) as Hmb.
  rewrite PGROUNDDOWN_eq. set (v := src / PGSIZE) in *. set (off := src mod PGSIZE) in *.
  assert (Hv : 0 <= v) by (apply Z.div_pos; [lia|done]).
  rewrite (bind_done _ _ _ _ _ (walkaddr_run s (v * PGSIZE) H ltac:(unfold PGSIZE; lia))). rewrite Z.div_mul by done.
  destruct (upage A v) as [pa|] eqn:Hu.
  2: { exists (-1), []. rewrite app_nil_r, Z.add_0_r. split; [done|]. split; [done|]. right. split; [done|]. by split. }
  rewrite (upage_nonzero s v pa H Hu). replace (src - v * PGSIZE) with off by lia.
  destruct (upage_facts s v pa H Hu) as (Hv256 & Hpa & _).
  set (n := if PGSIZE - off >? len then len else PGSIZE - off).
  assert (Hn : n = Z.min len (PGSIZE - off)).
  { unfold n. rewrite Z.gtb_ltb. destruct (Z.ltb_spec len (PGSIZE - off)); lia. }
  rewrite window_add by (done || lia). kstep. set (bs := ldbytes (k_mem s) (pa + off) (Z.to_nat n)).
  assert (Hbl : Z.of_nat (length bs) = n) by (unfold bs; rewrite length_ldbytes; lia).
  assert (Hb : uloaded (k_mem s) src bs).
  { intros i x Hi. pose proof (lookup_lt_Some _ _ _ Hi) as Hlt. unfold bs in Hi.
    rewrite ldbytes_lookup in Hi by lia. injection Hi as <-. unfold ubyte.
    assert ((src + Z.of_nat i) / PGSIZE = v /\ (src + Z.of_nat i) mod PGSIZE = off + Z.of_nat i) as [-> ->].
    { rewrite Hdm. replace (PGSIZE * v + off + Z.of_nat i) with (off + Z.of_nat i + v * PGSIZE) by lia.
      rewrite Z.div_add, Z.mod_add, Z.div_small, Z.mod_small by (done || lia). lia. }
    rewrite Hu. do 2 f_equal. lia. }
  rewrite page_next by done.
  destruct (IH ((v + 1) * PGSIZE) (len - n) (dst ++ bs)) as (r & bs2 & E2 & B2 & R2).
  { unfold PGSIZE. lia. }
  { lia. }
  { rewrite Z.mod_mul by done. unfold PGSIZE in *. lia. }
  exists r, (bs ++ bs2). rewrite app_assoc. split; [exact E2|].
  assert (Hk : length bs2 = 0%nat \/ n = PGSIZE - off) by lia. split.
  - intros i x [Hi|[Hge Hi]]%lookup_app_Some; [by apply Hb|].
    rewrite <- (B2 _ _ Hi). f_equal. apply lookup_lt_Some in Hi. lia.
  - rewrite length_app. destruct R2 as [[-> Hr]|(-> & Hr & Hnone)]; [left; split; [done|lia]|].
    right. split; [done|]. split; [lia|]. rewrite <- Hnone. do 2 f_equal. lia.
Qed.

Lemma page_fuel_ok len a : 0 <= len -> len + a mod PGSIZE <= (Z.of_nat (page_fuel len) - 1) * PGSIZE.
Proof.
  intros Hl. unfold page_fuel. pose proof (Z.mod_pos_bound a PGSIZE ltac:(done)).
  pose proof (Z.div_mod len PGSIZE ltac:(done)). pose proof (Z.mod_pos_bound len PGSIZE ltac:(done)).
  pose proof (Z.div_pos len PGSIZE Hl ltac:(done)). unfold PGSIZE in *. lia.
Qed.
End Copy.

Module VmUser.

(** C17: [copyout] returns. It stores bytes of [src] at [dst] in the memory the
    user sees, up to the first page that is not mapped with user privilege,
    and nothing else; no byte of memory outside the user's pages changes, the
    page table included. It returns 0 when all of [src] was stored, and -1
    when it met such a page. *)
Theorem copyout_exact s fl ts A root dst src :
  vmspace s fl ts A -> ts !! 0%nat = Some root -> 0 <= dst < 2 ^ 64 ->
  exists r s' k, copyout root dst src s = Done r s' /\ vmspace s' fl ts A /\ kmem_only s s' /\
    same_outside (upages A) (k_mem s) (k_mem s') /\ ustored A (k_mem s) (k_mem s') dst src k /\
    (r = 0 /\ k = Z.of_nat (length src) \/
     r = -1 /\ 0 <= k < Z.of_nat (length src) /\ upage A ((dst + k) / PGSIZE) = None).
Proof.
  intros H Hroot Hd. apply copyout_loop_run; [done..|]. apply page_fuel_ok. lia.
Qed.

(** C18: what [copyout] has stored, [copyin] of the same range reads back. *)
Theorem copy_roundtrip s fl ts A root dst src s' :
  vmspace s fl ts A -> ts !! 0%nat = Some root -> 0 <= dst < 2 ^ 64 -> Forall byte_range src ->
  copyout root dst src s = Done 0 s' -> copyin root dst (Z.of_nat (length src)) s' = Done (0, src) s'.
Proof.
  intros H Hroot Hd Hbytes E.
  destruct (copyout_loop_run fl ts A root Hroot (page_fuel (Z.of_nat (length src))) s dst src H Hd)
    as (r & s1 & k & E1 & H1 & _ & _ & B1 & R1); [apply page_fuel_ok; lia|].
  unfold copyout in E. rewrite E in E1. injection E1 as <- <-. destruct R1 as [[_ ->]|[[=] _]].
  destruct (copyin_loop_run fl ts A root Hroot (page_fuel (Z.of_nat (length src))) s' dst (Z.of_nat (length src)) [] H1 Hd)
    as (r & bs & E2 & B2 & R2); [lia|apply page_fuel_ok; lia|].
  assert (Hby : forall i, (i < length src)%nat -> ubyte (k_mem s') A (dst + Z.of_nat i) = src !! i).
  { intros i Hi. rewrite B1, decide_True by lia. replace (Z.to_nat (dst + Z.of_nat i - dst)) with i by lia.
    destruct (lookup_lt_is_Some_2 src i Hi) as [x Hx]. rewrite Hx. cbn. f_equal.
    apply u8_small. rewrite Forall_lookup in Hbytes. by apply (Hbytes i). }
  destruct R2 as [[-> Hlen]|(_ & Hlt & Hnone)].
  - unfold copyin. rewrite E2. cbn [app]. f_equal. f_equal. apply list_eq. intros i.
    destruct (bs !! i) as [x|] eqn:Hx.
    + rewrite <- (Hby i) by (apply lookup_lt_Some in Hx; lia). symmetry. by apply B2.
    + symmetry. apply lookup_ge_None. apply lookup_ge_None in Hx. lia.
  - exfalso. pose proof (Hby (length bs) ltac:(lia)) as Hb. unfold ubyte in Hb. rewrite Hnone in Hb.
    symmetry in Hb. apply lookup_ge_None in Hb. lia.
Qed.

(** A machine with one user page. *)
Definition upage0 : Z := RAMBASE + 100 * PGSIZE.

Lemma vm_test_user :
  exists s fl ts, vmspace s fl ts {[0 := (upage0, uperm)]} /\ ts !! 0%nat = Some RAMBASE.
Proof.
  destruct (vm_test_map 0 upage0 uperm) as (s & q & fl & ts & H & Hroot & _).
  - lia.
  - split; [done|]. unfold upage0. rewrite RAMBASE_val, RAMSTOP_val. unfold PGSIZE. lia.
  - apply perm_ok_u.
  - rewrite elem_of_pages. unfold upage0. intros (i & Hi & Heq). unfold PGSIZE in Heq. lia.
  - exists s, (q :: fl), ts. by split.
Qed.

Lemma copyout_exact_witness :
  exists s r s', copyout RAMBASE 10 [1; 2; 3] s = Done r s' /\ (r = 0 \/ r = -1).
Proof.
  destruct vm_test_user as (s & fl & ts & H & Hroot).
  destruct (copyout_exact s fl ts _ RAMBASE 10 [1; 2; 3] H Hroot ltac:(lia)) as (r & s' & k & E & _ & _ & _ & _ & Hr).
  exists s, r, s'. split; [exact E|]. destruct Hr as [[-> _]|[-> _]]; [by left|by right].
Defined.

Lemma copy_roundtrip_witness :
  exists s s', copyout RAMBASE 10 [1; 2; 3] s = Done 0 s' /\ copyin RAMBASE 10 3 s' = Done (0, [1; 2; 3]) s'.
Proof.
  destruct vm_test_user as (s & fl & ts & H & Hroot).
  destruct (copyout_loop_run fl ts _ RAMBASE Hroot (page_fuel 3) s 10 [1; 2; 3] H ltac:(lia) ltac:(vm_compute; congruence))
    as (r & s' & k & E & _ & _ & _ & _ & [[-> _]|(_ & Hk & Hn)]).
  - exists s, s'. split; [exact E|].
    exact (copy_roundtrip s fl ts _ RAMBASE 10 [1; 2; 3] s' H Hroot ltac:(lia) ltac:(repeat constructor; lia) E).
  - exfalso. cbn in Hk. rewrite Z.div_small in Hn by (unfold PGSIZE; lia). unfold upage in Hn.
    rewrite lookup_singleton_eq in Hn. discriminate Hn.
Defined.
End VmUser.
