(* ===== verification/VmFree.v ===== *)
(** * Freeing address spaces

    [freewalk], [uvmfree], [proc_pagetable] and [proc_freepagetable]: every
    page of an address space goes back to the free list; and [uvmalloc] past the
    trap frame. *)

From stdpp Require Import gmap strings list.
From Stdlib Require Import ZArith Lia.
From S2P Require Import Prelude KState CString Spinlock Sched Kalloc Vm VmProps VmSpace.
Open Scope Z_scope.
Import Spinlock Sched Kalloc CString Vm SpinlockProps KallocProps.

(** A chain of tables in which nothing is mapped. *)
Fixpoint zchain (m : mem) (p : Z) (rest : list Z) : Prop :=
  match rest with
  | [] => forall i, 0 <= i < 512 -> ld64 m (p + 8 * i) = 0
  | q :: rest' =>
      (forall i, 0 <= i < 512 -> ld64 m (p + 8 * i) = if i =? 0 then pde_of q else 0) /\ zchain m q rest'
  end.

Lemma ptable_zchain m ts0 p rest :
  ptable m (ts0 ++ p :: rest) ∅ -> zchain m p rest.
Proof.
  revert ts0 p. induction rest as [|q rest IH]; intros ts0 p H; cbn [zchain].
  - intros i Hi. destruct H as [H1 H2 H3 _]. destruct (decide (length ts0 < 3)%nat).
    + rewrite (H2 (length ts0) p i) by (lia || by rewrite list_lookup_middle).
      rewrite lookup_ge_None_2 by (rewrite length_app; simpl; lia). by destruct (i =? 0).
    + rewrite length_app in H1. simpl in H1. rewrite (H3 p i); [by rewrite lookup_empty| |done].
      replace 3%nat with (length ts0) by lia. by rewrite list_lookup_middle.
  - split.
    + intros i Hi. destruct H as [H1 H2 _ _]. rewrite length_app in H1. simpl in H1.
      rewrite (H2 (length ts0) p i) by (lia || by rewrite list_lookup_middle).
      by rewrite lookup_app_r, Nat.sub_succ_l, Nat.sub_diag by lia.
    + apply (IH (ts0 ++ [p])). by rewrite <- app_assoc.
Qed.

Lemma zchain_frame ps m m' p rest :
  same_outside ps m m' -> (forall x, x ∈ ps -> valid_page x) ->
  (forall x, x ∈ p :: rest -> valid_page x /\ x ∉ ps) -> zchain m p rest -> zchain m' p rest.
Proof.
  intros Hs Hps. revert p. induction rest as [|q rest IH]; intros p Hx Hz; cbn [zchain] in *.
  - intros i Hi. destruct (Hx p) as [Hv Hn]; [left|]. rewrite (same_word ps m m' p i) by done. by apply Hz.
  - destruct Hz as [Hz Hc]. split.
    + intros i Hi. destruct (Hx p) as [Hv Hn]; [left|]. rewrite (same_word ps m m' p i) by done. by apply Hz.
    + apply IH; [|done]. intros x Hi. apply Hx. by right.
Qed.

Lemma freewalk_zeros rec p i k s :
  (forall j, i <= j < i + Z.of_nat k -> ld64 (k_mem s) (p + 8 * j) = 0) ->
  freewalk_entries rec p i k s = Done tt s.
Proof.
  revert i. induction k as [|k IH]; intros i Hz; cbn [freewalk_entries]; [done|].
  unfold load64. kstep. rewrite Hz by lia. cbn. apply IH. intros j Hj. apply Hz. lia.
Qed.

Lemma freewalk_step rec p q k s s1 :
  ld64 (k_mem s) p = pde_of q -> valid_page q -> rec q s = Done tt s1 ->
  freewalk_entries rec p 0 (S k) s = freewalk_entries rec p 1 k (set_k_mem (st64 p 0) s1).
Proof.
  intros Hp Hq E. cbn [freewalk_entries]. unfold load64. kstep. rewrite Z.mul_0_r, Z.add_0_r.
  prw Hp. rewrite next_valid, pde_flags, pde_page by done. cbn [negb andb]. change (0 + 1) with 1.
  by erewrite bind_done by (rewrite (bind_done _ _ _ _ _ E); reflexivity).
Qed.

Lemma freewalk_run rest p fuel s fl :
  cpu_ok s -> lock_free s L_kmem -> kmem_rep s fl -> zchain (k_mem s) p rest ->
  NoDup (fl ++ p :: rest) -> (forall x, x ∈ p :: rest -> valid_page x) -> (length rest < fuel)%nat ->
  exists s', freewalk fuel p s = Done tt s' /\ kmem_rep s' (p :: rest ++ fl) /\ kmem_only s s' /\
    same_outside (p :: rest) (k_mem s) (k_mem s').
Proof.
  revert p fuel s fl. induction rest as [|q rest IH]; intros p fuel s fl Hc Hl Hrep Hz Hnd Hv Hf;
    (destruct fuel as [|fuel]; [simpl in Hf; lia|]); cbn [freewalk].
  - assert (Hpv : valid_page p) by (apply Hv; left). rewrite (bind_done _ _ _ _ _ (freewalk_zeros (freewalk fuel) p 0 512 s ltac:(
      intros j Hj; apply Hz; lia))).
    rewrite (kfree_eq p s Hc Hl Hpv). exists (freed p s). split; [done|].
    apply NoDup_app in Hnd as (_ & Hd & _).
    split; [apply kfree_rep; [done|done|]; intros Hi; apply (Hd p Hi); left|]. split; [reflexivity|]. apply freed_same.
  - destruct Hz as [Hz Hch]. assert (Hpv : valid_page p) by (apply Hv; left).
    assert (Hqv : valid_page q) by (apply Hv; right; left).
    apply NoDup_app in Hnd as (Hndf & Hd & Hndt). apply NoDup_cons in Hndt as [Hpt Hndt].
    assert (Hpf : p ∉ fl) by (intros Hi; apply (Hd p Hi); left).
    pose proof (Hz 0 ltac:(lia)) as Hz0. rewrite Z.mul_0_r, Z.add_0_r in Hz0. change 512%nat with (S 511).
    destruct (IH q fuel s fl Hc Hl Hrep Hch) as (s1 & E1 & R1 & K1 & S1).
    { apply NoDup_app. split; [done|]. split; [|done]. intros x Hx Hx'. apply (Hd x Hx). by right. }
    { intros x Hx. apply Hv. by right. }
    { simpl in Hf. lia. }
    set (s2 := set_k_mem (st64 p 0) s1).
    assert (R2 : kmem_rep s2 (q :: rest ++ fl)).
    { apply (kmem_frame_mem s1 _ [p]); [exact R1|pose proof (same_st64 p 0 0 (k_mem s1) ltac:(lia)) as S; by rewrite Z.mul_0_r, Z.add_0_r in S| |].
      - intros x Hx. apply list_elem_of_singleton in Hx. subst x. split; [done|].
        rewrite app_comm_cons, not_elem_of_app. by split.
      - apply mem_ok_st64, R1. }
    assert (Hw : forall j, 0 <= j < 512 -> ld64 (k_mem s2) (p + 8 * j) = 0).
    { intros j Hj. cbn. destruct (decide (j = 0)) as [->|].
      - rewrite Z.mul_0_r, Z.add_0_r, ld64_st64_same. done.
      - rewrite ld64_st64_other by lia. rewrite (same_word (q :: rest) (k_mem s) (k_mem s1) p j); [| |done| |done|done].
        + rewrite Hz by done. by rewrite (proj2 (Z.eqb_neq _ _)).
        + done.
        + intros x Hx. apply Hv. by right. }
    assert (E2 : freewalk_entries (freewalk fuel) p 0 (S 511) s = Done tt s2).
    { rewrite (freewalk_step _ p q _ s s1 Hz0 Hqv E1). fold s2.
      apply freewalk_zeros. intros j Hj. apply Hw. lia. }
    rewrite (bind_done _ _ _ _ _ E2). clear E2.
    assert (K2 : kmem_only s s2) by (eapply kmem_only_trans; [exact K1|reflexivity]).
    pose proof (kmem_only_ok _ _ K2 Hc) as Hc2. pose proof (kmem_only_free _ _ _ K2 Hl) as Hl2.
    rewrite (kfree_eq p s2 Hc2 Hl2 Hpv). exists (freed p s2). split; [done|].
    split; [|split; [eapply kmem_only_trans; [exact K2|reflexivity]|]].
    + apply kfree_rep; [exact R2|done|]. rewrite not_elem_of_app. by split.
    + apply (same_trans _ _ (k_mem s1)); [eapply same_mono; [|exact S1]; intros x Hx; by right|].
      apply (same_mono [p]); [intros x Hx; apply list_elem_of_singleton in Hx; subst; left|].
      eapply same_trans; [|apply (freed_same p s2)]. pose proof (same_st64 p 0 0 (k_mem s1) ltac:(lia)) as S.
      by rewrite Z.mul_0_r, Z.add_0_r in S.
Qed.

(** ** [uvmfree] *)

Lemma freewalk_space s fl ts root :
  vmspace s fl ts ∅ -> ts !! 0%nat = Some root ->
  exists s' fl', freewalk walk_depth root s = Done tt s' /\ kmem_rep s' fl' /\ fl' ≡ₚ fl ++ ts /\ kmem_only s s' /\
    same_outside ts (k_mem s) (k_mem s').
Proof.
  intros H Hroot. destruct ts as [|p rest]; [done|]. injection Hroot as ->.
  pose proof (pt_len _ _ _ (vs_tab _ _ _ _ H)) as Hlen. simpl in Hlen.
  destruct (freewalk_run rest root walk_depth s fl (vs_cpu _ _ _ _ H) (vs_lock _ _ _ _ H) (vs_free _ _ _ _ H))
    as (s' & E & R & K & S).
  - apply (ptable_zchain _ []). exact (vs_tab _ _ _ _ H).
  - exact (vs_nodup _ _ _ _ H).
  - exact (vs_valid _ _ _ _ H).
  - unfold walk_depth. lia.
  - exists s', (root :: rest ++ fl). split; [exact E|]. split; [exact R|]. split; [|by split].
    rewrite app_comm_cons. apply Permutation_app_comm.
Qed.

Lemma uvmfree_run s fl ts A root sz :
  vmspace s fl ts A -> ts !! 0%nat = Some root -> 0 <= sz <= MAXVA ->
  (forall v, is_Some (A !! v) <-> 0 <= v < npages sz) ->
  exists s' fl', uvmfree root sz s = Done tt s' /\ kmem_rep s' fl' /\ fl' ≡ₚ all_pages fl ts A /\ kmem_only s s' /\
    same_outside (ts ++ pages_of A) (k_mem s) (k_mem s').
Proof.
  intros H Hroot Hsz Hdom. unfold uvmfree. pose proof (npages_range sz Hsz) as Hr.
  assert (Hdel : del_range A 0 (Z.to_nat (npages sz)) = ∅).
  { apply map_empty. intros k. rewrite del_range_lookup, Z2Nat.id by lia. case_decide as Hk; [done|].
    destruct (A !! k) as [e|] eqn:E; [|done]. exfalso. apply Hk. rewrite Z.add_0_l. apply Hdom. by rewrite E. }
  assert (exists s1 fl1, when (sz >? 0) (uvmunmap root 0 (PGROUNDUP sz / PGSIZE) true) s = Done tt s1 /\
    vmspace s1 fl1 ts ∅ /\ kmem_only s s1 /\ fl1 ++ ts ≡ₚ all_pages fl ts A /\
    same_outside (ts ++ pages_of A) (k_mem s) (k_mem s1)) as (s1 & fl1 & E1 & H1 & K1 & P1 & S1).
  { rewrite Z.gtb_ltb. destruct (Z.ltb_spec 0 sz) as [Hpos|Hpos]; cbn [when].
    - rewrite PGROUNDUP_eq, Z.div_mul by done. change 0 with (0 * PGSIZE) at 1.
      destruct (uvmunmap_run s fl ts A root 0 (npages sz)) as (s1 & fl1 & E & H1 & K & P & S);
        [done|done|lia|lia|lia|intros i Hi; apply Hdom; lia|].
      exists s1, fl1. rewrite Hdel in *. split; [exact E|]. split; [exact H1|]. split; [exact K|]. split.
      { rewrite <- P. unfold all_pages, pages_of. by rewrite map_to_list_empty, app_nil_r. }
      eapply same_mono; [|exact S]. intros p. rewrite !elem_of_app. intros [Hp|Hp]; [right|by left].
      rewrite <- (pages_of_del_range A 0 (Z.to_nat (npages sz))). apply elem_of_app. by left.
    - assert (sz = 0) as -> by lia. change (del_range A 0 (Z.to_nat (npages 0))) with A in Hdel. rewrite Hdel in H |- *.
      exists s, fl. split; [done|]. split; [done|]. split; [apply kmem_only_refl|].
      split; [|apply same_refl]. unfold all_pages, pages_of. by rewrite map_to_list_empty, app_nil_r. }
  rewrite (bind_done _ _ _ _ _ E1). destruct (freewalk_space s1 fl1 ts root H1 Hroot) as (s2 & fl2 & E2 & R2 & P2 & K2 & S2).
  exists s2, fl2. split; [exact E2|]. split; [exact R2|]. split; [by rewrite P2|]. split; [by eapply kmem_only_trans|].
  eapply same_trans; [exact S1|]. eapply same_mono; [|exact S2]. intros p Hp. apply elem_of_app. by left.
Qed.

(** ** The page table of a process *)

Definition TFPAGE : Z := 255.

Lemma TRAPFRAME_page : TRAPFRAME = TFPAGE * PGSIZE.
Proof. done. Qed.

(** Unmapping the trap frame is one round of the loop of [uvmunmap]. *)
Lemma uvmunmap_trapframe root :
  uvmunmap root TRAPFRAME 1 false = uvmunmap_loop root (TFPAGE * PGSIZE) (256 * PGSIZE) false 2.
Proof.
  unfold uvmunmap. rewrite TRAPFRAME_page.
  change (negb (TFPAGE * PGSIZE mod PGSIZE =? 0)) with false. cbv iota.
  change (u64 (TFPAGE * PGSIZE + 1 * PGSIZE)) with (256 * PGSIZE). change (S (Z.to_nat 1)) with 2%nat. done.
Qed.

Lemma unmap_trapframe s fl ts A root tf perm :
  vmspace s fl ts A -> ts !! 0%nat = Some root -> A !! TFPAGE = Some (tf, perm) ->
  exists s', uvmunmap root TRAPFRAME 1 false s = Done tt s' /\ vmspace s' fl ts (delete TFPAGE A) /\ kmem_only s s'.
Proof.
  intros H Hroot HA. rewrite uvmunmap_trapframe. cbn [uvmunmap_loop].
  change (TFPAGE * PGSIZE <? 256 * PGSIZE) with true. cbn [negb].
  destruct (unmap_page s fl ts A H root TFPAGE tf perm Hroot HA false
    (uvmunmap_loop root (u64 (TFPAGE * PGSIZE + PGSIZE)) (256 * PGSIZE) false 1)) as (s1 & E1 & H1 & K1 & _).
  exists s1. split; [|by split]. etransitivity; [exact E1|reflexivity].
Qed.

Lemma unmap_freed_trapframe s fl ts A root tf perm :
  vmspace s fl ts A -> ts !! 0%nat = Some root -> A !! TFPAGE = Some (tf, perm) ->
  exists s', uvmunmap root TRAPFRAME 1 false (freed tf s) = Done tt s' /\ vmspace s' (tf :: fl) ts (delete TFPAGE A) /\
    kmem_only s s' /\ same_outside (tf :: ts) (k_mem s) (k_mem s').
Proof.
  intros H Hroot HA. rewrite uvmunmap_trapframe. cbn [uvmunmap_loop].
  change (TFPAGE * PGSIZE <? 256 * PGSIZE) with true. cbn [negb].
  destruct (unmap_freed s fl ts A H root TFPAGE tf perm Hroot HA
    (uvmunmap_loop root (u64 (TFPAGE * PGSIZE + PGSIZE)) (256 * PGSIZE) false 1)) as (s1 & E1 & H1 & K1 & S1).
  exists s1. split; [|split; [exact H1|split; [exact K1|exact S1]]]. etransitivity; [exact E1|reflexivity].
Qed.

Lemma proc_freepagetable_rest s s1 fl ts A root sz :
  uvmunmap root TRAPFRAME 1 false s = Done tt s1 -> vmspace s1 fl ts (delete TFPAGE A) -> ts !! 0%nat = Some root ->
  0 <= sz <= TRAPFRAME -> (forall v, v <> TFPAGE -> is_Some (A !! v) <-> 0 <= v < npages sz) ->
  exists s' fl', proc_freepagetable root sz s = Done tt s' /\ kmem_rep s' fl' /\
    fl' ≡ₚ all_pages fl ts (delete TFPAGE A) /\ kmem_only s1 s' /\
    same_outside (ts ++ pages_of (delete TFPAGE A)) (k_mem s1) (k_mem s').
Proof.
  intros E1 H1 Hroot Hsz Hdom. unfold proc_freepagetable. rewrite (bind_done _ _ _ _ _ E1).
  rewrite TRAPFRAME_page in Hsz. apply uvmfree_run; [done|done| |].
  - unfold TFPAGE, PGSIZE, MAXVA in *. lia.
  - intros v. destruct (decide (v = TFPAGE)) as [->|Hv].
    + rewrite lookup_delete_eq. split; [by intros []|]. intros Hv.
      pose proof (npages_mono sz (TFPAGE * PGSIZE) ltac:(lia)) as Hm. rewrite npages_page in Hm. lia.
    + rewrite lookup_delete_ne by done. by apply Hdom.
Qed.

Lemma all_pages_delete fl ts A v e :
  A !! v = Some e -> e.1 :: all_pages fl ts (delete v A) ≡ₚ all_pages fl ts A.
Proof.
  intros HA. unfold all_pages. rewrite (pages_of_delete A v _ HA), !app_assoc. apply Permutation_middle.
Qed.

Lemma proc_freepagetable_run s fl ts A root sz tf perm :
  vmspace s fl ts A -> ts !! 0%nat = Some root -> 0 <= sz <= TRAPFRAME -> A !! TFPAGE = Some (tf, perm) ->
  (forall v, v <> TFPAGE -> is_Some (A !! v) <-> 0 <= v < npages sz) ->
  exists s' fl', proc_freepagetable root sz s = Done tt s' /\ kmem_rep s' fl' /\
    tf :: fl' ≡ₚ all_pages fl ts A /\ kmem_only s s'.
Proof.
  intros H Hroot Hsz HA Hdom. destruct (unmap_trapframe s fl ts A root tf perm H Hroot HA) as (s1 & E1 & H1 & K1).
  destruct (proc_freepagetable_rest s s1 fl ts A root sz E1 H1 Hroot Hsz Hdom) as (s2 & fl2 & E2 & R2 & P2 & K2 & _).
  exists s2, fl2. split; [exact E2|]. split; [exact R2|]. split; [|by eapply kmem_only_trans].
  rewrite P2. apply (all_pages_delete fl ts A TFPAGE _ HA).
Qed.

Lemma proc_pagetable_run s fl tf :
  cpu_ok s -> lock_free s L_kmem -> kmem_rep s fl -> valid_page tf -> tf ∉ fl ->
  exists r s', proc_pagetable tf s = Done r s' /\ kmem_only s s' /\
    ((r = 0 /\ (length fl < 4)%nat /\ exists fl', kmem_rep s' fl' /\ fl' ≡ₚ fl) \/
     (r <> 0 /\ exists fl' ts, vmspace s' fl' ts {[TFPAGE := (tf, kperm)]} /\ ts !! 0%nat = Some r /\ fl' ++ ts ≡ₚ fl)).
Proof.
  intros Hc Hl Hrep Htf Hn. unfold proc_pagetable, uvmcreate. destruct fl as [|root fl].
  - erewrite bind_done by (rewrite (bind_done _ _ _ _ _ (kalloc_none s Hc Hl Hrep)); reflexivity).
    exists 0, s. split; [done|]. split; [apply kmem_only_refl|]. left. split; [done|]. split; [simpl; lia|]. by exists [].
  - pose proof (new_table s root fl Hc Hl Hrep) as H1. pose proof Hrep as ((_ & Hv & _) & _).
    pose proof (valid_page_range root Hv) as Hrr. pose proof Hn as Hn'. apply not_elem_of_cons in Hn as [Hne Hnf].
    assert (E1 : (pagetable <- kalloc;; if pagetable =? 0 then ret 0 else kmemset pagetable 0 PGSIZE;; ret pagetable) s
      = Done root (zeroed root s)).
    { rewrite (bind_done _ _ _ _ _ (kalloc_take s root fl Hc Hl Hrep)). by rewrite (proj2 (Z.eqb_neq root 0)) by lia. }
    rewrite (bind_done _ _ _ _ _ E1). clear E1. rewrite (proj2 (Z.eqb_neq root 0)) by lia. rewrite TRAPFRAME_page.
    destruct (map_page (zeroed root s) fl [root] ∅ H1 root TFPAGE eq_refl ltac:(unfold TFPAGE; lia) tf kperm
      (lookup_empty _) Htf perm_ok_k) as (s2 & fl2 & ts2 & r & E2 & Hg & [K2 _] & Hr).
    { rewrite not_elem_of_app. split; [done|]. by apply not_in_one. }
    { intros v e He. by rewrite lookup_empty in He. }
    rewrite (bind_done _ _ _ _ _ E2).
    assert (Hp2 : fl2 ++ ts2 ≡ₚ root :: fl).
    { pose proof (grew_pages _ _ _ _ ∅ Hg) as P. unfold all_pages, pages_of in P.
      rewrite map_to_list_empty, !app_nil_r in P. rewrite P. symmetry. apply Permutation_cons_append. }
    assert (Hroot2 : ts2 !! 0%nat = Some root) by (by eapply grew_lookup).
    assert (K02 : kmem_only s s2) by (eapply kmem_only_trans; [|exact K2]; reflexivity).
    destruct Hr as [[-> H2]|(-> & Hnil & Hshort & H2)].
    + change (0 <? 0) with false. cbv iota. exists root, s2. split; [done|]. split; [exact K02|]. right.
      split; [lia|]. exists fl2, ts2. split; [exact H2|]. by split.
    + change (-1 <? 0) with true. cbv iota.
      destruct (uvmfree_run s2 fl2 ts2 ∅ root 0 H2 Hroot2) as (s3 & fl3 & E3 & R3 & P3 & K3 & _).
      { unfold MAXVA. lia. }
      { intros v. rewrite lookup_empty. change (npages 0) with 0. split; [by intros []|lia]. }
      rewrite (bind_done _ _ _ _ _ E3). exists 0, s3. split; [done|]. split; [by eapply kmem_only_trans|]. left.
      split; [done|]. split; [rewrite <- (Permutation_length Hp2), Hnil; exact Hshort|]. exists fl3. split; [exact R3|]. rewrite P3, <- Hp2. unfold all_pages, pages_of.
      by rewrite map_to_list_empty, app_nil_r.
Qed.

Module VmLife.

(** The life of an address space, as [exec] and [fork] go through it: make the
    page table, grow it to [sz] bytes, free it all. *)
Definition lifecycle (tf sz : Z) : K unit :=
  pt <- proc_pagetable tf;;
  if pt =? 0 then ret tt else
  n <- uvmalloc pt 0 sz;;
  proc_freepagetable pt n.

(** C14: making, growing and freeing an address space returns whether or not
    memory runs out on the way, and afterwards the free list holds the pages
    it held before: none is lost, and none is on it twice ([kmem_rep]). *)
Theorem address_space_no_leak s fl tf sz :
  cpu_ok s -> lock_free s L_kmem -> kmem_rep s fl -> valid_page tf -> tf ∉ fl -> 0 <= sz <= TRAPFRAME ->
  exists s' fl', lifecycle tf sz s = Done tt s' /\ kmem_rep s' fl' /\ fl' ≡ₚ fl /\ kmem_only s s'.
Proof.
  intros Hc Hl Hrep Htf Hn Hsz. unfold lifecycle.
  destruct (proc_pagetable_run s fl tf Hc Hl Hrep Htf Hn) as (r & s1 & E1 & K1 & [(-> & _ & fl1 & R1 & P1)|[Hr (fl1 & ts1 & H1 & Hroot & P1)]]);
    rewrite (bind_done _ _ _ _ _ E1).
  - exists s1, fl1. split; [reflexivity|]. split; [exact R1|]. split; [exact P1|exact K1].
  - rewrite (proj2 (Z.eqb_neq _ _)) by done.
    destruct (uvmalloc_run s1 fl1 ts1 {[TFPAGE := (tf, kperm)]} r 0 sz H1 Hroot) as
      (n & s2 & fl2 & ts2 & A2 & E2 & H2 & Hroot2 & P2 & K2 & _ & Hd); [lia|lia| |].
    { intros k Hk. rewrite lookup_singleton_ne; [done|]. intros <-.
      pose proof (npages_mono sz TRAPFRAME ltac:(lia)) as Hm. rewrite TRAPFRAME_page, npages_page in Hm. lia. }
    rewrite (bind_done _ _ _ _ _ E2).
    assert (HA2 : A2 !! TFPAGE = Some (tf, kperm) /\ 0 <= n <= TRAPFRAME /\
      forall v, v <> TFPAGE -> is_Some (A2 !! v) <-> 0 <= v < npages n).
    { pose proof (npages_mono sz TRAPFRAME ltac:(lia)) as Hm. rewrite TRAPFRAME_page, npages_page in Hm.
      destruct Hd as [(-> & Hf & _)|(-> & -> & _)].
      - split; [rewrite (filled_out _ _ _ _ _ _ TFPAGE Hf) by (change (npages 0) with 0; lia); by rewrite lookup_singleton_eq|].
        split; [lia|]. intros v Hv. destruct (decide (npages 0 <= v < npages sz)) as [Hi|Ho].
        + destruct (filled_in _ _ _ _ _ _ v Hf Hi) as (p & -> & _). split; [done|]. intros _. eauto.
        + rewrite (filled_out _ _ _ _ _ _ v Hf Ho), lookup_singleton_ne by done. split; [by intros []|done].
      - rewrite lookup_singleton_eq. split; [done|]. split; [lia|]. intros v Hv. rewrite lookup_singleton_ne by done.
        change (npages 0) with 0. split; [by intros []|lia]. }
    destruct HA2 as (HA2 & Hn2 & Hdom).
    destruct (proc_freepagetable_run s2 fl2 ts2 A2 r n tf kperm H2 Hroot2 Hn2 HA2 Hdom) as (s3 & fl3 & E3 & R3 & P3 & K3).
    exists s3, fl3. split; [exact E3|]. split; [exact R3|]. split; [|by do 2 (eapply kmem_only_trans; [eassumption|])].
    apply (Permutation_cons_inv (a := tf)). rewrite P3, P2. unfold all_pages.
    unfold pages_of. rewrite map_to_list_singleton. cbn. rewrite app_assoc, P1. symmetry. apply Permutation_cons_append.
Qed.

Lemma address_space_no_leak_witness :
  exists s' fl', lifecycle (RAMBASE + 100 * PGSIZE) 5000 (pool (pages RAMBASE 9)) = Done tt s' /\ kmem_rep s' fl' /\
    fl' ≡ₚ pages RAMBASE 9.
Proof.
  destruct (pool_ok 9 ltac:(lia)) as (Hc & Hl & Hr).
  destruct (address_space_no_leak (pool (pages RAMBASE 9)) (pages RAMBASE 9) (RAMBASE + 100 * PGSIZE) 5000 Hc Hl Hr)
    as (s' & fl' & E & R & P & _).
  - split; [done|]. rewrite RAMBASE_val, RAMSTOP_val. unfold PGSIZE. lia.
  - rewrite elem_of_pages. intros (i & Hi & Heq). unfold PGSIZE in Heq. lia.
  - unfold TRAPFRAME, MAXVA, PGSIZE. lia.
  - exists s', fl'. split; [exact E|]. split; [exact R|exact P].
Defined.

Section Past.
Context (s0 : kstate) (fl0 ts0 : list Z) (A0 : amap) (root v0 newsz : Z) (e : Z * Z).
Context (Hv0 : 0 <= v0) (Hnew : TRAPFRAME < newsz) (HT : A0 !! TFPAGE = Some e).
Context (HN : forall k, v0 <= k < TFPAGE -> A0 !! k = None).

Let growing := growing zeros s0 fl0 ts0 A0 root v0.

Lemma past_undo v s fl ts A :
  growing v s fl ts A -> v0 <= v -> v <= TFPAGE ->
  exists s', (uvmdealloc root (v * PGSIZE) (v0 * PGSIZE);; ret 0) s = Done 0 s' /\
    grow_done zeros s0 fl0 ts0 A0 root v0 TFPAGE false s'.
Proof.
  intros Hg Hv Hvn.
  assert (EN : npages TRAPFRAME = TFPAGE) by (by rewrite TRAPFRAME_page, npages_page).
  assert (Hp := give_back s0 fl0 ts0 A0 root v0 TRAPFRAME Hv0 ltac:(by unfold TRAPFRAME, MAXVA, PGSIZE)).
  rewrite EN in Hp. destruct (Hp HN v s fl ts A Hg Hv Hvn) as (s' & E & Hd).
  exists s'. split; [exact E|exact Hd].
Qed.

(** The pages below the trap frame are mapped one by one; the next one is the
    trap frame. *)
Lemma uvmalloc_loop_past n v s fl ts A fuel :
  growing v s fl ts A -> length ts = 4%nat -> v0 <= v -> TFPAGE - v = Z.of_nat n -> (n < fuel)%nat ->
  if (n <? length fl)%nat
  then exists s', uvmalloc_loop root (v * PGSIZE) (v0 * PGSIZE) newsz fuel s = Panic "mappages: remap" s'
  else exists s', uvmalloc_loop root (v * PGSIZE) (v0 * PGSIZE) newsz fuel s = Done 0 s' /\
    grow_done zeros s0 fl0 ts0 A0 root v0 TFPAGE false s'.
Proof.
  revert v s fl ts A fuel. induction n as [|n IH]; intros v s fl ts A fuel Hg Hts Hv Hn Hf;
    (destruct fuel as [|fuel]; [lia|]); cbn [uvmalloc_loop];
    (rewrite (proj2 (Z.ltb_lt _ _)) by (rewrite TRAPFRAME_page in Hnew; unfold PGSIZE in *; lia)); cbn [negb];
    pose proof (gr_space _ _ _ _ _ _ _ _ _ _ _ _ Hg) as H;
    (destruct fl as [|p fl];
     [rewrite (bind_done _ _ _ _ _ (kalloc_none s (vs_cpu _ _ _ _ H) (vs_lock _ _ _ _ H) (vs_free _ _ _ _ H)));
      cbn [Z.eqb length]; apply (past_undo v s [] ts A Hg); lia|]);
    rewrite (bind_done _ _ _ _ _ (kalloc_take s p fl (vs_cpu _ _ _ _ H) (vs_lock _ _ _ _ H) (vs_free _ _ _ _ H)));
    destruct (zeroed_space s p fl ts A H) as (Hz & Hpv & _); pose proof (valid_page_range p Hpv);
    rewrite (proj2 (Z.eqb_neq p 0)) by lia; unfold kmemset; rewrite bind_modify; fold (zeroed p s).
  - replace v with TFPAGE by lia. cbn [length Nat.ltb Nat.leb]. eexists. apply bind_panic.
    eapply (map_page_remap (zeroed p s) fl ts A Hz root TFPAGE (gr_root _ _ _ _ _ _ _ _ _ _ _ _ Hg) ltac:(unfold TFPAGE; lia) _ _ e).
    rewrite (filled_out _ _ _ _ _ _ TFPAGE (gr_fill _ _ _ _ _ _ _ _ _ _ _ _ Hg)) by lia. exact HT.
  - destruct (growing_map zeros s0 fl0 ts0 A0 root v0 TFPAGE Hv0 ltac:(done) HN (fun _ _ => perm_ok_u)
      v s p fl ts A (k_mem (zeroed p s)) Hg) as (s1 & r & E & fl' & ts' & Hgr & Hr);
      [lia|apply zeroed_same|apply mem_ok_memset, mem_ok_memset, (vs_free _ _ _ _ H)|apply zeroed_zero|].
    change (set_k_mem (fun _ => k_mem (zeroed p s)) (alloced p s)) with (zeroed p s) in E.
    rewrite (bind_done _ _ _ _ _ E). destruct Hgr as (new & -> & -> & _). rewrite length_app in Hr.
    destruct Hr as [[-> Hg']|(_ & Hshort & _)]; [|cbn in Hshort; lia]. cbn [Z.eqb negb].
    pose proof (pt_len _ _ _ (vs_tab _ _ _ _ (gr_space _ _ _ _ _ _ _ _ _ _ _ _ Hg'))) as Hle. rewrite length_app in Hle.
    destruct new as [|x new]; [|cbn in Hle; lia]. rewrite app_nil_r in Hg'.
    rewrite page_next by (unfold TFPAGE in *; lia). apply (IH (v + 1) s1 _ _ _ fuel Hg'); lia.
Qed.
End Past.

(** C36: [uvmalloc] does not check that the new size stays below the trap
    frame. Asked to grow an address space, which has its trap frame mapped and
    nothing between its size and the trap frame, to any size past [TRAPFRAME],
    it stops the kernel when there are enough free pages to get to the trap
    frame and one more; with fewer it returns 0 and leaves the address space
    as it was. *)
Theorem uvmalloc_past_trapframe s fl ts A root oldsz newsz e :
  vmspace s fl ts A -> ts !! 0%nat = Some root -> A !! TFPAGE = Some e ->
  0 <= oldsz <= TRAPFRAME -> TRAPFRAME < newsz < 2 ^ 64 ->
  (forall k, npages oldsz <= k < TFPAGE -> A !! k = None) ->
  if TFPAGE - npages oldsz <? Z.of_nat (length fl)
  then exists s', uvmalloc root oldsz newsz s = Panic "mappages: remap" s'
  else exists s' fl' ts', uvmalloc root oldsz newsz s = Done 0 s' /\ vmspace s' fl' ts' A /\
    ts' !! 0%nat = Some root /\ all_pages fl' ts' A ≡ₚ all_pages fl ts A.
Proof.
  intros H Hroot HA Ho Hn HN. unfold uvmalloc. rewrite (proj2 (Z.ltb_ge newsz oldsz)) by lia. cbv zeta.
  assert (HT : TRAPFRAME <= MAXVA) by (unfold TRAPFRAME, PGSIZE; lia).
  rewrite PGROUNDUP_eq by lia. set (v0 := npages oldsz) in *.
  pose proof (npages_range oldsz ltac:(lia)) as Hr0. pose proof (npages_mono oldsz TRAPFRAME ltac:(lia)) as Hm.
  rewrite TRAPFRAME_page, npages_page in Hm.
  assert (L := uvmalloc_loop_past s fl ts A root v0 newsz e ltac:(unfold v0; lia) ltac:(lia) HA HN
    (Z.to_nat (TFPAGE - v0)) v0 s fl ts A (S (Z.to_nat ((newsz - v0 * PGSIZE + PGSIZE - 1) / PGSIZE)))).
  destruct (pt_dom _ _ _ (vs_tab _ _ _ _ H) TFPAGE e HA) as (_ & Hlen & _).
  specialize (L ltac:(split; [done|done|intros k; by rewrite decide_False by lia|done|done|apply same_refl|done|intros; lia|lia]) Hlen
    ltac:(lia) ltac:(unfold v0; lia)).
  assert (Hfuel : TFPAGE - v0 <= (newsz - v0 * PGSIZE + PGSIZE - 1) / PGSIZE).
  { rewrite TRAPFRAME_page in Hn. unfold PGSIZE in *. dlia. }
  specialize (L ltac:(lia)).
  destruct (Z.ltb_spec (TFPAGE - v0) (Z.of_nat (length fl))) as [Hlt|Hge].
  - by rewrite (proj2 (Nat.ltb_lt _ _)) in L by lia.
  - rewrite (proj2 (Nat.ltb_ge _ _)) in L by lia. destruct L as (s' & E & fl' & ts' & A' & H1 & H2 & H3 & _ & _ & ->).
    by exists s', fl', ts'.
Qed.

(** From two pages below the trap frame. *)
Lemma uvmalloc_past_trapframe_witness :
  exists root s s', uvmalloc root (TRAPFRAME - 2 * PGSIZE) (TRAPFRAME + 1) s = Panic "mappages: remap" s'.
Proof.
  destruct (vm_test_map TFPAGE (RAMBASE + 100 * PGSIZE) kperm) as (s & q & fl & ts & H & Hroot & Hlen).
  - unfold TFPAGE. lia.
  - split; [done|]. rewrite RAMBASE_val, RAMSTOP_val. unfold PGSIZE. lia.
  - apply perm_ok_k.
  - rewrite elem_of_pages. intros (i & Hi & Heq). unfold PGSIZE in Heq. lia.
  - assert (L := uvmalloc_past_trapframe s (q :: fl) ts _ RAMBASE (TRAPFRAME - 2 * PGSIZE) (TRAPFRAME + 1) _ H Hroot
      (lookup_singleton_eq _ _) ltac:(by unfold TRAPFRAME, MAXVA, PGSIZE) ltac:(by unfold TRAPFRAME, MAXVA, PGSIZE)).
    rewrite (proj2 (Z.ltb_lt _ _)) in L by (cbn [length]; change (TFPAGE - npages (TRAPFRAME - 2 * PGSIZE)) with 2; lia).
    destruct L as [s' E]; [intros k Hk; apply lookup_singleton_ne; lia|]. exists RAMBASE, s, s'. exact E.
Defined.
End VmLife.
