(* ===== verification/VmFork.v ===== *)
(** * Copying an address space ([uvmcopy])

    [fork] gives the child a copy of the parent's memory. *)

From stdpp Require Import gmap strings list.
From Stdlib Require Import ZArith Lia.
From S2P Require Import Prelude KState CString Spinlock Sched Kalloc Vm VmProps VmSpace VmCopy.
Open Scope Z_scope.
Import Spinlock Sched Kalloc CString Vm SpinlockProps KallocProps.

(** The permissions [uvmcopy] gives the copy: the low flag bits of the entry. *)
Definition copied_perm (perm : Z) : Z := u32 (Z.lor (Z.land perm 0xE0000000000001FF) PTE_V).

Lemma copied_perm_eq perm : copied_perm perm = Z.lor (Z.land perm 0x1FF) PTE_V.
Proof.
  unfold copied_perm, u32. change (2 ^ 32) with (2 ^ 32). rewrite <- (Z.land_ones _ 32) by lia.
  rewrite Z.land_lor_distr_l, <- Z.land_assoc. done.
Qed.

Lemma flags_copied pa perm : valid_page pa -> u32 (PTE_FLAGS (pte_of pa perm)) = copied_perm perm.
Proof. intros Hpa. unfold PTE_FLAGS, copied_perm. by rewrite pte_land. Qed.

Lemma copied_perm_ok perm : perm_ok perm -> perm_ok (copied_perm perm).
Proof.
  intros (Hr & _ & Hb). split; [|split].
  - unfold copied_perm. pose proof (u32_range (Z.lor (Z.land perm 0xE0000000000001FF) PTE_V)). lia.
  - rewrite copied_perm_eq, Z.land_lor_distr_l, <- Z.land_assoc.
    change (Z.land 0x1FF PAMASK) with 0. by rewrite Z.land_0_r.
  - by rewrite copied_perm_eq, Z.lor_spec, Z.land_spec, Hb.
Qed.

Lemma copied_perm_plv perm : Z.land (copied_perm perm) PTE_PLV = Z.land perm PTE_PLV.
Proof. rewrite copied_perm_eq, Z.land_lor_distr_l, <- Z.land_assoc. change (Z.land PTE_V PTE_PLV) with 0. by rewrite Z.lor_0_r. Qed.

(** The copy of each page of [Ao]. *)
Definition copy_plan (Ao : amap) (m : mem) : plan := fun k =>
  match Ao !! k with
  | Some (pa, perm) => (copied_perm perm, fun o => ld8 m (pa + o))
  | None => (0, fun _ => 0)
  end.

Section Fork.
Context (s0 : kstate) (fl0 ts0 : list Z) (A0 : amap) (new old sz : Z).
Context (tso : list Z) (Ao : amap).
Context (Ho : vmspace s0 fl0 tso Ao) (Hold : tso !! 0%nat = Some old).
Context (Hts : forall q, q ∈ tso -> q ∉ ts0) (HAo : forall v e, Ao !! v = Some e -> e.1 ∉ ts0).
Context (Hsz : 0 <= sz <= TRAPFRAME).
Context (Hmap : forall k, 0 <= k < npages sz -> is_Some (Ao !! k)).
Context (HN : forall k, 0 <= k < npages sz -> A0 !! k = None).

Let W := copy_plan Ao (k_mem s0).
Let growing := growing W s0 fl0 ts0 A0 new 0.

Lemma sz_pages : npages sz <= 256.
Proof. apply npages_range. unfold TRAPFRAME, PGSIZE in *. lia. Qed.

Lemma plan_ok k : 0 <= k < npages sz -> perm_ok (W k).1.
Proof.
  intros Hk. destruct (Hmap k Hk) as [[pa perm] E]. unfold W, copy_plan. rewrite E. cbn.
  destruct (pt_dom _ _ _ (vs_tab _ _ _ _ Ho) k _ E) as (_ & _ & _ & Hp). by apply copied_perm_ok.
Qed.

Lemma old_tables q : q ∈ tso -> valid_page q /\ q ∉ fl0 ++ ts0.
Proof.
  intros Hq. split; [by apply (vs_valid _ _ _ _ Ho)|]. rewrite not_elem_of_app.
  split; [by apply (vs_dirs_sep Ho)|by apply Hts].
Qed.

Lemma old_pages v e : Ao !! v = Some e -> valid_page e.1 /\ e.1 ∉ fl0 ++ ts0.
Proof.
  intros He. destruct (pt_dom _ _ _ (vs_tab _ _ _ _ Ho) v e He) as (_ & _ & Hv & _). split; [done|].
  pose proof (vs_apart _ _ _ _ Ho v e He) as Hn. rewrite not_elem_of_app in *. split; [tauto|by eapply HAo].
Qed.

Section Loop.
Context (v : Z) (s : kstate) (fl ts : list Z) (A : amap) (Hg : growing v s fl ts A).
Context (Hts0 : forall p, p ∈ ts0 -> valid_page p).

Lemma pool_valid p : p ∈ fl0 ++ ts0 -> valid_page p.
Proof. intros [Hp|Hp]%elem_of_app; [by apply (vs_fl_valid Ho)|by apply Hts0]. Qed.

(** The parent's address space is not touched. *)
Lemma old_space : vmspace s fl tso Ao.
Proof.
  destruct Hg as [H Hroot Hf Hp Ko Ss Hown Hnw].
  split; [exact (vs_cpu _ _ _ _ H)|exact (vs_lock _ _ _ _ H)|exact (vs_free _ _ _ _ H)| |
    exact (vs_valid _ _ _ _ Ho)| | |exact (vs_inj _ _ _ _ Ho)].
  - eapply ptable_frame; [exact Ss|exact pool_valid|exact old_tables|exact (vs_tab _ _ _ _ Ho)].
  - apply NoDup_app. pose proof (vs_nodup _ _ _ _ H) as N1. apply NoDup_app in N1 as (N1 & _ & _).
    pose proof (vs_nodup _ _ _ _ Ho) as N2. apply NoDup_app in N2 as (_ & _ & N2).
    split; [done|]. split; [|done]. intros x Hx Hxo. destruct (old_tables x Hxo) as [_ Hn]. apply Hn, Hown, elem_of_app. by left.
  - intros k e He. destruct (old_pages k e He) as [_ Hn]. rewrite not_elem_of_app. split.
    + intros Hx. apply Hn, Hown, elem_of_app. by left.
    + pose proof (vs_apart _ _ _ _ Ho k e He) as Hn'. rewrite not_elem_of_app in Hn'. tauto.
Qed.

Lemma old_byte k e o : Ao !! k = Some e -> 0 <= o < PGSIZE -> ld8 (k_mem s) (e.1 + o) = ld8 (k_mem s0) (e.1 + o).
Proof.
  intros He Hbo. destruct (old_pages k e He) as [Hv Hn].
  eapply same_page; [exact (gr_same _ _ _ _ _ _ _ _ _ _ _ _ Hg)|exact Hv|exact pool_valid|exact Hn|]. unfold in_page. lia.
Qed.

(** The loop body up to the allocation. *)
Lemma uvmcopy_entry f pa perm :
  0 <= v < npages sz -> Ao !! v = Some (pa, perm) ->
  uvmcopy_loop old new (v * PGSIZE) sz (S f) s =
  (mem <- kalloc;;
   if mem =? 0 then uvmunmap new 0 v true;; ret (-1) else
   modify (set_k_mem (fun m => memmove m mem pa PGSIZE));;
   r <- mappages new (v * PGSIZE) PGSIZE mem (copied_perm perm);;
   if negb (r =? 0) then kfree mem;; uvmunmap new 0 v true;; ret (-1)
   else uvmcopy_loop old new ((v + 1) * PGSIZE) sz f) s.
Proof.
  intros Hv He. pose proof sz_pages as Hmax. cbn [uvmcopy_loop].
  rewrite (proj2 (Z.ltb_lt _ _)) by (apply page_lt; lia). cbn [negb].
  destruct (page_va v ltac:(lia)) as [Hva Hdiv].
  rewrite (bind_done _ _ _ _ _ (walk_false s fl tso Ao old _ old_space Hold Hva)).
  destruct (pt_dom _ _ _ (vs_tab _ _ _ _ Ho) v _ He) as (_ & Hlen & Hpa & (Hp1 & Hp2 & Hp3)). cbn [fst snd] in *.
  destruct (lookup_lt_is_Some_2 tso 3) as [p0 Hp0]; [lia|].
  assert (Hvp : valid_page p0) by (apply (vs_valid _ _ _ _ Ho); by eapply list_elem_of_lookup_2).
  rewrite (leaf_addr_full _ _ _ Hp0), Hdiv.
  rewrite (proj2 (Z.eqb_neq _ 0)) by (pose proof (valid_page_range p0 Hvp); lia).
  unfold load64. kstep. rewrite (pt_leaf _ _ _ (vs_tab _ _ _ _ old_space) p0 v Hp0), He by lia. cbn [leaf_of].
  rewrite pte_valid, pte_page, flags_copied by done. by rewrite page_next by lia.
Qed.

Lemma mem_ok_memmove m d src n : mem_ok m -> 0 <= n < 2 ^ 32 -> mem_ok (memmove m d src n).
Proof. intros Hm Hn a. rewrite ld8_memmove by done. case_decide; apply Hm. Qed.

Lemma copied_page p pa perm fl1 :
  fl = p :: fl1 -> Ao !! v = Some (pa, perm) ->
  let m' := memmove (k_mem (alloced p s)) p pa PGSIZE in
  same_outside [p] (k_mem s) m' /\ mem_ok m' /\ page_is m' p (W v).2 /\ (W v).1 = copied_perm perm.
Proof.
  intros Efl He m'. pose proof (gr_space _ _ _ _ _ _ _ _ _ _ _ _ Hg) as H.
  assert (Hpv : valid_page p) by (apply (vs_fl_valid H); rewrite Efl; left).
  pose proof (vs_free _ _ _ _ H) as (_ & _ & Hok).
  assert (Hok5 : mem_ok (k_mem (alloced p s))) by (by apply mem_ok_memset).
  assert (Hne : pa <> p).
  { intros ->. destruct (old_pages v _ He) as [_ Hn]. apply Hn.
    apply (gr_own _ _ _ _ _ _ _ _ _ _ _ _ Hg). rewrite Efl. left. }
  destruct (old_pages v _ He) as [Hpa _]. cbn [fst] in Hpa.
  split; [|split; [|split]].
  - intros a Ha. unfold m'. rewrite ld8_memmove by (done || (unfold PGSIZE; lia)). rewrite decide_False.
    + by apply (alloced_same p s).
    + exact (Ha p ltac:(left)).
  - apply mem_ok_memmove; [done|unfold PGSIZE; lia].
  - intros o Hbo. unfold m'. rewrite ld8_memmove by (done || (unfold PGSIZE; lia)). rewrite decide_True by lia.
    replace (pa + (p + o - p)) with (pa + o) by lia.
    rewrite (same_page [p] (k_mem s) (k_mem (alloced p s)) pa (pa + o) (alloced_same p s) Hpa).
    + unfold W, copy_plan. rewrite He. cbn [snd]. exact (old_byte v _ o He Hbo).
    + intros x Hx. apply list_elem_of_singleton in Hx. by subst.
    + by apply not_in_one.
    + unfold in_page. lia.
  - unfold W, copy_plan. by rewrite He.
Qed.

Lemma fork_undo :
  0 <= v <= npages sz ->
  exists s', (uvmunmap new 0 v true;; ret (-1)) s = Done (-1) s' /\
    grow_done W s0 fl0 ts0 A0 new 0 (npages sz) false s'.
Proof.
  intros Hv. pose proof sz_pages as Hmax.
  destruct (uvmunmap_run s fl ts A new 0 v (gr_space _ _ _ _ _ _ _ _ _ _ _ _ Hg) (gr_root _ _ _ _ _ _ _ _ _ _ _ _ Hg))
    as (s' & fl' & E & H' & K & P & S); [lia|lia|lia|intros i Hi; eapply growing_mapped; [exact Hg|lia]|].
  exists s'. change (0 * PGSIZE) with 0 in E. rewrite (bind_done _ _ _ _ _ E). split; [done|].
  eapply (undo_done W s0 fl0 ts0 A0 new 0 (npages sz) HN v s fl ts A s' fl' Hg); rewrite ?Z.sub_0_r; try done; lia.
Qed.
End Loop.

Lemma uvmcopy_loop_run n v s fl ts A fuel :
  (forall p, p ∈ ts0 -> valid_page p) ->
  growing v s fl ts A -> 0 <= v -> npages sz - v = Z.of_nat n -> (n < fuel)%nat ->
  exists ok s', uvmcopy_loop old new (v * PGSIZE) sz fuel s = Done (if ok : bool then 0 else -1) s' /\
    grow_done W s0 fl0 ts0 A0 new 0 (npages sz) ok s' /\
    if ok then fits fl0 ts0 0 (npages sz) else ~ fits fl0 ts0 0 (npages sz).
Proof.
  intros Hts0. revert v s fl ts A fuel. induction n as [|n IH]; intros v s fl ts A fuel Hg Hv Hn Hf;
    (destruct fuel as [|fuel]; [lia|]).
  - cbn [uvmcopy_loop]. rewrite (proj2 (Z.ltb_ge _ _)) by (apply Z.le_ngt; rewrite page_lt; lia). cbn [negb].
    exists true, s. split; [done|]. split.
    2: { eapply growing_fits. replace (Z.max 0 (npages sz)) with v by lia. exact Hg. }
    destruct Hg as [H Hroot Hfl Hp Ko Ss _ _ _].
    exists fl, ts, A. do 5 (split; [done|]). by replace (npages sz) with v by lia.
  - destruct (Hmap v) as [[pa perm] He]; [lia|].
    rewrite (uvmcopy_entry v s fl ts A Hg Hts0 fuel pa perm) by (done || lia).
    pose proof (gr_space _ _ _ _ _ _ _ _ _ _ _ _ Hg) as H. pose proof (vs_cpu _ _ _ _ H) as Hc.
    pose proof (vs_lock _ _ _ _ H) as Hl. destruct fl as [|p fl].
    + rewrite (bind_done _ _ _ _ _ (kalloc_none s Hc Hl (vs_free _ _ _ _ H))). cbn [Z.eqb].
      destruct (fork_undo v s [] ts A Hg) as (s' & E & Hd); [lia|]. exists false, s'. split; [exact E|]. split; [exact Hd|].
      eapply growing_short; [exact Hg|lia|]. pose proof (pt_len _ _ _ (vs_tab _ _ _ _ H)). cbn. lia.
    + rewrite (bind_done _ _ _ _ _ (kalloc_take s p fl Hc Hl (vs_free _ _ _ _ H))).
      assert (Hpv : valid_page p) by (apply (vs_fl_valid H); left). pose proof (valid_page_range p Hpv).
      rewrite (proj2 (Z.eqb_neq p 0)) by lia. kstep.
      destruct (copied_page v s (p :: fl) ts A Hg Hts0 p pa perm fl eq_refl He) as (Hs & Hok & Hpg & Hperm).
      destruct (growing_map W s0 fl0 ts0 A0 new 0 (npages sz) ltac:(lia) sz_pages HN plan_ok v s p fl ts A _ Hg ltac:(lia) Hs Hok Hpg)
        as (s1 & r & E & fl' & ts' & _ & Hr).
      rewrite Hperm in E. rewrite (set_k_mem_ext _ (fun _ => memmove (k_mem (alloced p s)) p pa PGSIZE)) by done.
      rewrite (bind_done _ _ _ _ _ E). destruct Hr as [[-> Hg']|(-> & Hshort & Hg' & Hc1 & Hl1 & _)]; cbn [Z.eqb negb].
      * apply (IH (v + 1) s1 _ _ _ fuel Hg'); lia.
      * rewrite (bind_done _ _ _ _ _ (kfree_eq p s1 Hc1 Hl1 Hpv)).
        destruct (fork_undo v _ _ ts' A Hg') as (s' & E' & Hd); [lia|]. exists false, s'. split; [exact E'|]. split; [exact Hd|].
        eapply growing_short; [exact Hg'|lia|exact Hshort].
Qed.
End Fork.

(** An address space apart from the one that changed. *)
Lemma other_space s fl tso Ao s' fl' ts A ts' A' :
  vmspace s fl tso Ao -> vmspace s fl ts A -> vmspace s' fl' ts' A' ->
  all_pages fl' ts' A' ≡ₚ all_pages fl ts A -> same_outside (fl ++ ts) (k_mem s) (k_mem s') ->
  (forall q, q ∈ tso ++ pages_of Ao -> q ∉ ts ++ pages_of A) ->
  vmspace s' fl' tso Ao /\ forall va, ubyte (k_mem s') Ao va = ubyte (k_mem s) Ao va.
Proof.
  intros Ho H H' HP Hs Hsep.
  assert (Hown : forall p, p ∈ fl' -> p ∈ fl \/ p ∈ ts ++ pages_of A).
  { intros p Hp. assert (Hx : p ∈ all_pages fl' ts' A') by (apply elem_of_app; by left).
    rewrite HP in Hx. by apply elem_of_app in Hx. }
  assert (Hpool : forall p, p ∈ fl ++ ts -> valid_page p).
  { intros p [Hp|Hp]%elem_of_app; [by apply (vs_fl_valid H)|by apply (vs_valid _ _ _ _ H)]. }
  assert (Htab : forall q, q ∈ tso -> valid_page q /\ q ∉ fl ++ ts /\ q ∉ fl').
  { intros q Hq. pose proof (Hsep q ltac:(apply elem_of_app; by left)) as Hn. pose proof (vs_dirs_sep Ho q Hq) as Hf.
    split; [by apply (vs_valid _ _ _ _ Ho)|]. split.
    - rewrite not_elem_of_app in *. tauto.
    - intros Hx. destruct (Hown q Hx); [done|]. done. }
  assert (Hpag : forall v e, Ao !! v = Some e -> valid_page e.1 /\ e.1 ∉ fl ++ ts /\ e.1 ∉ fl').
  { intros v e He. pose proof (Hsep e.1 ltac:(apply elem_of_app; right; apply pages_of_in; eauto)) as Hn.
    pose proof (vs_apart _ _ _ _ Ho v e He) as Hf. rewrite not_elem_of_app in Hf.
    destruct (pt_dom _ _ _ (vs_tab _ _ _ _ Ho) v e He) as (_ & _ & Hv & _). split; [done|]. split.
    - rewrite not_elem_of_app in *. tauto.
    - intros Hx. destruct (Hown _ Hx); [tauto|done]. }
  split.
  - split; [exact (vs_cpu _ _ _ _ H')|exact (vs_lock _ _ _ _ H')|exact (vs_free _ _ _ _ H')| |
      exact (vs_valid _ _ _ _ Ho)| | |exact (vs_inj _ _ _ _ Ho)].
    + eapply ptable_frame; [exact Hs|exact Hpool| |exact (vs_tab _ _ _ _ Ho)]. intros q Hq. destruct (Htab q Hq). tauto.
    + pose proof (vs_nodup _ _ _ _ H') as N1. apply NoDup_app in N1 as (N1 & _ & _).
      pose proof (vs_nodup _ _ _ _ Ho) as N2. apply NoDup_app in N2 as (_ & _ & N2).
      apply NoDup_app. split; [done|]. split; [|done]. intros x Hx Hxo. destruct (Htab x Hxo). tauto.
    + intros k e He. destruct (Hpag k e He) as (_ & _ & Hn). rewrite not_elem_of_app. split; [done|].
      pose proof (vs_apart _ _ _ _ Ho k e He) as Hn'. rewrite not_elem_of_app in Hn'. tauto.
  - intros va. unfold ubyte. destruct (upage Ao (va / PGSIZE)) as [pa|] eqn:Hu; [|done]. f_equal.
    apply upage_Some in Hu as (perm & He & _). destruct (Hpag _ _ He) as (Hv & Hn & _).
    pose proof (Z.mod_pos_bound va PGSIZE ltac:(done)).
    eapply same_page; [exact Hs|exact Hv|exact Hpool|exact Hn|]. unfold in_page. cbn [fst]. lia.
Qed.

(** The child's memory is the parent's. *)
Lemma copied_bytes Ao A0 A m m' n va :
  filled (copy_plan Ao m) A0 0 n A m' -> (forall k, 0 <= k < n -> is_Some (Ao !! k)) ->
  0 <= va < n * PGSIZE -> ubyte m' A va = ubyte m Ao va.
Proof.
  intros Hf Hm Hva. assert (Hk : 0 <= va / PGSIZE < n).
  { split; [apply Z.div_pos; [lia|done]|]. apply Z.div_lt_upper_bound; [done|lia]. }
  destruct (filled_in _ _ _ _ _ _ _ Hf Hk) as (p & HA & Hp). destruct (Hm _ Hk) as [[pa perm] He].
  unfold ubyte, upage. rewrite HA, He. unfold copy_plan in *. rewrite He in *. cbn [fst snd] in *.
  rewrite copied_perm_plv. destruct (Z.land perm PTE_PLV =? 0); [done|]. f_equal. apply Hp.
  apply Z.mod_pos_bound. done.
Qed.

Lemma copied_pages Ao A0 A m m' n :
  filled (copy_plan Ao m) A0 0 n A m' ->
  forall k pa perm, 0 <= k < n -> Ao !! k = Some (pa, perm) ->
    exists p, A !! k = Some (p, Z.lor (Z.land perm 0x1FF) PTE_V) /\ forall o, 0 <= o < PGSIZE -> ld8 m' (p + o) = ld8 m (pa + o).
Proof.
  intros Hf k pa perm Hk He. destruct (filled_in _ _ _ _ _ _ _ Hf Hk) as (p & HA & Hp). unfold copy_plan in HA, Hp.
  rewrite He in HA, Hp. cbn [fst snd] in HA, Hp. rewrite copied_perm_eq in HA. by exists p.
Qed.

Module VmForkProps.

(** C13: take a parent with all pages below [sz] mapped and a child with none, and
    [sz] up to the trap frame. [uvmcopy] returns. When there are enough free pages for the copies and
    the page tables ([fits]) it returns 0, and for each page of the parent below
    [sz] the child has a page of its own with the same bytes. The child's page
    has the low nine flag bits of the parent's entry (valid, dirty, privilege
    level, memory type, global, present, writeable), and not the flags above
    bit 60 (not readable, not executable, restricted privilege), which the
    32-bit variable that carries the flags cannot hold; so a user sees the same
    byte, or none, at each address in the child as in the parent. The child's
    address space is unchanged elsewhere. When there are not enough pages it
    returns -1 and the child's address space is as before. Either way the
    parent's address space and every byte it sees are untouched, and no page is
    lost. *)
Theorem uvmcopy_copies s fl tso Ao old tsn An new sz :
  vmspace s fl tso Ao -> tso !! 0%nat = Some old -> vmspace s fl tsn An -> tsn !! 0%nat = Some new ->
  (forall q, q ∈ tso ++ pages_of Ao -> q ∉ tsn ++ pages_of An) -> 0 <= sz <= TRAPFRAME ->
  (forall k, 0 <= k < npages sz -> is_Some (Ao !! k)) -> (forall k, 0 <= k < npages sz -> An !! k = None) ->
  exists r s' fl' ts' A', uvmcopy old new sz s = Done r s' /\
    vmspace s' fl' ts' A' /\ ts' !! 0%nat = Some new /\ all_pages fl' ts' A' ≡ₚ all_pages fl tsn An /\ kmem_only s s' /\
    vmspace s' fl' tso Ao /\ (forall va, ubyte (k_mem s') Ao va = ubyte (k_mem s) Ao va) /\
    (r = 0 /\ fits fl tsn 0 (npages sz) /\
       (forall k pa perm, 0 <= k < npages sz -> Ao !! k = Some (pa, perm) ->
          exists p, A' !! k = Some (p, Z.lor (Z.land perm 0x1FF) PTE_V) /\
            forall o, 0 <= o < PGSIZE -> ld8 (k_mem s') (p + o) = ld8 (k_mem s) (pa + o)) /\
       (forall va, 0 <= va < npages sz * PGSIZE -> ubyte (k_mem s') A' va = ubyte (k_mem s) Ao va) /\
       (forall k, ~ 0 <= k < npages sz -> A' !! k = An !! k)
     \/ r = -1 /\ A' = An /\ ~ fits fl tsn 0 (npages sz)).
Proof.
  intros Ho Hold Hn Hnew Hsep Hsz Hmap HN. unfold uvmcopy.
  assert (Hr : 0 <= npages sz) by (apply Z.div_pos; unfold PGSIZE; lia).
  destruct (uvmcopy_loop_run s fl tsn An new old sz tso Ao Ho Hold) with
    (n := Z.to_nat (npages sz)) (v := 0) (s := s) (fl := fl) (ts := tsn) (A := An)
    (fuel := S (Z.to_nat ((sz + PGSIZE - 1) / PGSIZE))) as (ok & s' & E & (fl' & ts' & A' & H1 & H2 & H3 & H4 & H5 & H6) & Hfit).
  - intros q Hq Hx. apply (Hsep q); apply elem_of_app; by left.
  - intros v e He Hx. apply (Hsep e.1); apply elem_of_app; [right; apply pages_of_in; eauto|by left].
  - done.
  - done.
  - done.
  - exact (vs_valid _ _ _ _ Hn).
  - split; [done|done| |done|apply kmem_only_refl|apply same_refl|done|intros; lia|lia]. intros k. by rewrite decide_False by lia.
  - lia.
  - lia.
  - fold (npages sz). lia.
  - destruct (other_space s fl tso Ao s' fl' tsn An ts' A' Ho Hn H1 H3 H5 Hsep) as [Hold' Hby].
    exists (if ok then 0 else -1), s', fl', ts', A'. split; [exact E|]. do 6 (split; [done|]).
    destruct ok; [left|by right]. split; [done|]. split; [done|]. split; [by eapply copied_pages|]. split.
    + intros va Hva. by eapply copied_bytes.
    + intros k Hk. by eapply filled_out.
Qed.

(** A machine with a parent that has one page and a child that has none. *)
Lemma uvmcopy_copies_witness :
  exists s new s' (A' : amap) p, uvmcopy RAMBASE new 10 s = Done 0 s' /\ A' !! 0 = Some (p, Z.lor uperm PTE_V) /\
    forall o, 0 <= o < PGSIZE -> ld8 (k_mem s') (p + o) = ld8 (k_mem s) (RAMBASE + 100 * PGSIZE + o).
Proof.
  destruct (vm_test_map 0 (RAMBASE + 100 * PGSIZE) uperm) as (s & q & fl & ts & H & Hroot & Hlen).
  - lia.
  - split; [done|]. rewrite RAMBASE_val, RAMSTOP_val. unfold PGSIZE. lia.
  - apply perm_ok_u.
  - rewrite elem_of_pages. intros (i & Hi & Heq). unfold PGSIZE in Heq. lia.
  - pose proof (new_table s q fl (vs_cpu _ _ _ _ H) (vs_lock _ _ _ _ H) (vs_free _ _ _ _ H)) as Hn.
    destruct (zeroed_space s q fl ts _ H) as (Ho & _ & Hq & HqA). rewrite not_elem_of_app in Hq.
    destruct (uvmcopy_copies (zeroed q s) fl ts _ RAMBASE [q] ∅ q 10 Ho Hroot Hn eq_refl)
      as (r & s' & fl' & ts' & A' & E & _ & _ & _ & _ & _ & _ & Hr).
    + intros x Hx. unfold pages_of at 1. rewrite map_to_list_empty. cbn. apply not_in_one. intros ->.
      apply elem_of_app in Hx as [Hx|Hx]; [tauto|]. apply pages_of_in in Hx as (v & e & He & Heq). exact (HqA v e He Heq).
    + vm_compute. split; congruence.
    + change (npages 10) with 1. intros k Hk. assert (k = 0) as -> by lia. rewrite lookup_singleton_eq. eauto.
    + intros k _. apply lookup_empty.
    + change (npages 10) with 1 in Hr. destruct Hr as [(-> & _ & Hc & _)|(_ & _ & Hn')].
      * destruct (Hc 0 (RAMBASE + 100 * PGSIZE) uperm ltac:(lia) (lookup_singleton_eq _ _)) as (p & Hp & Hb).
        exists (zeroed q s), q, s', A', p. split; [exact E|]. split; [exact Hp|exact Hb].
      * destruct Hn'. right. cbn [length]. lia.
Defined.
End VmForkProps.
