(* ===== verification/Bio.v ===== *)
(** * The buffer cache and the RAM disk ([kernel/bio.c], [kernel/ramdisk.c])

    Buffers are linked in a doubly linked list through their [prev] and [next]
    fields; [NBUF] is the index of the head. The theorems relate that list to
    the sequence of buffers it stands for, most recently used first, and the
    cache to the disk it caches. *)

From stdpp Require Import gmap strings list.
From Stdlib Require Import ZArith Lia.
From S2P Require Import Prelude KState Spinlock Sched SleepLock.
Open Scope Z_scope.
Import Spinlock Sched SleepLock.

Module Bio.

(** [ramdisk.c]: the disk image [fs_img] is an array of blocks in memory. *)
Definition disk_block (s : kstate) (bno : Z) : list Z := default zeroblock (k_disk s !! bno).

Definition ramdiskrw (b : nat) (write : bool) : K unit :=
  h <- holdingsleep (SL_buf b);;
  if negb h then panic "ramdiskrw: buf not locked" else
  bf <- getbuf b;;
  if b_blockno bf >=? FSSIZE then panic "ramdiskrw: blockno too big" else
  if write then
    modify (set_k_disk (insert (b_blockno bf) (b_data bf)));;
    modify (set_k_dtrace (cons (b_blockno bf, b_data bf)))
  else
    data <- gets (fun s => disk_block s (b_blockno bf));;
    setbuf b (set_b_data (fun _ => data)).

(** Insert buffer [b] after the head of the list. *)
Definition link_front (b : nat) : K unit :=
  hd <- getbuf NBUF;;
  setbuf b (set_b_next (fun _ => b_next hd));;
  setbuf b (set_b_prev (fun _ => NBUF)).

Fixpoint binit_loop (b k : nat) : K unit :=
  match k with
  | O => ret tt
  | S k' =>
      link_front b;;
      initsleeplock (SL_buf b) "buffer";;
      hd <- getbuf NBUF;;
      setbuf (b_next hd) (set_b_prev (fun _ => b));;
      setbuf NBUF (set_b_next (fun _ => b));;
      binit_loop (S b) k'
  end.

Definition binit : K unit :=
  initlock L_bcache "bcache";;
  setbuf NBUF (set_b_prev (fun _ => NBUF));;
  setbuf NBUF (set_b_next (fun _ => NBUF));;
  binit_loop 0 NBUF.

(** The two scans of [bget]. The list has [NBUF] buffers, so that the fuel
    [S NBUF] of the calls is enough when the links are in order. *)
Fixpoint bget_cached (dev blockno : Z) (b fuel : nat) (s : kstate) : option nat :=
  match fuel with
  | O => None
  | S f =>
      if bool_decide (b = NBUF) then None else
      let bf := k_bufs s !!! b in
      if (b_dev bf =? dev) && (b_blockno bf =? blockno) then Some b
      else bget_cached dev blockno (b_next bf) f s
  end.

Fixpoint bget_unused (b fuel : nat) (s : kstate) : option nat :=
  match fuel with
  | O => None
  | S f =>
      if bool_decide (b = NBUF) then None else
      let bf := k_bufs s !!! b in
      if b_refcnt bf =? 0 then Some b else bget_unused (b_prev bf) f s
  end.

Definition bget (dev blockno : Z) : K nat :=
  acquire L_bcache;;
  hd <- getbuf NBUF;;
  found <- gets (bget_cached dev blockno (b_next hd) (S NBUF));;
  match found with
  | Some b =>
      setbuf b (set_b_refcnt (fun n => u32 (n + 1)));;
      release L_bcache;;
      acquiresleep (SL_buf b);;
      ret b
  | None =>
      lru <- gets (bget_unused (b_prev hd) (S NBUF));;
      match lru with
      | Some b =>
          setbuf b (set_b_dev (fun _ => dev));;
          setbuf b (set_b_blockno (fun _ => blockno));;
          setbuf b (set_b_valid (fun _ => false));;
          setbuf b (set_b_refcnt (fun _ => 1));;
          release L_bcache;;
          acquiresleep (SL_buf b);;
          ret b
      | None => panic "bget: no buffers"
      end
  end.

Definition bread (dev blockno : Z) : K nat :=
  b <- bget dev blockno;;
  bf <- getbuf b;;
  when (negb (b_valid bf))
    (ramdiskrw b false;;
     setbuf b (set_b_valid (fun _ => true)));;
  ret b.

Definition bwrite (b : nat) : K unit :=
  h <- holdingsleep (SL_buf b);;
  if negb h then panic "bwrite" else
  ramdiskrw b true.

Definition brelse (b : nat) : K unit :=
  h <- holdingsleep (SL_buf b);;
  if negb h then panic "brelse" else
  releasesleep (SL_buf b);;
  acquire L_bcache;;
  setbuf b (set_b_refcnt (fun n => u32 (n - 1)));;
  bf <- getbuf b;;
  when (b_refcnt bf =? 0)
    (setbuf (b_next bf) (set_b_prev (fun _ => b_prev bf));;
     setbuf (b_prev bf) (set_b_next (fun _ => b_next bf));;
     link_front b;;
     hd <- getbuf NBUF;;
     setbuf (b_next hd) (set_b_prev (fun _ => b));;
     setbuf NBUF (set_b_next (fun _ => b)));;
  release L_bcache.

Definition bpin (b : nat) : K unit :=
  acquire L_bcache;;
  setbuf b (set_b_refcnt (fun n => u32 (n + 1)));;
  release L_bcache.

Definition bunpin (b : nat) : K unit :=
  acquire L_bcache;;
  setbuf b (set_b_refcnt (fun n => u32 (n - 1)));;
  release L_bcache.

End Bio.

(** ** The list of buffers *)
Module BioProps.
Import SpinlockProps SchedProps SleepLockProps Bio.

(** [dll bufs a l z]: following [next] from [a] one meets the buffers [l] and
    then [z], and following [prev] from [z] the same in reverse. *)
Fixpoint dll (bufs : list buf) (a : nat) (l : list nat) (z : nat) : Prop :=
  match l with
  | [] => b_next (bufs !!! a) = z /\ b_prev (bufs !!! z) = a
  | b :: l' => b_next (bufs !!! a) = b /\ b_prev (bufs !!! b) = a /\ dll bufs b l' z
  end.

(** The cache holds all buffers in the order [order], most recently used
    first. *)
Definition blist (bufs : list buf) (order : list nat) : Prop :=
  length bufs = S NBUF /\ dll bufs NBUF order NBUF /\ order ≡ₚ seq 0 NBUF.

Definition matches (bufs : list buf) (dev bno : Z) (b : nat) : bool :=
  (b_dev (bufs !!! b) =? dev) && (b_blockno (bufs !!! b) =? bno).
Definition unused (bufs : list buf) (b : nat) : bool := b_refcnt (bufs !!! b) =? 0.

Lemma dll_app bufs a l1 b l2 z :
  dll bufs a (l1 ++ b :: l2) z <-> dll bufs a l1 b /\ dll bufs b l2 z.
Proof.
  revert a. induction l1 as [|c l1 IH]; intros a; simpl; [tauto|]. rewrite IH. tauto.
Qed.

Lemma dll_frame bufs bufs' a l z :
  (forall i, i ∈ a :: l -> b_next (bufs' !!! i) = b_next (bufs !!! i)) ->
  (forall i, i ∈ l ++ [z] -> b_prev (bufs' !!! i) = b_prev (bufs !!! i)) ->
  dll bufs a l z -> dll bufs' a l z.
Proof.
  revert a. induction l as [|b l IH]; intros a Hn Hp; simpl.
  - rewrite Hn, Hp by set_solver. done.
  - intros (H1 & H2 & H3). rewrite Hn, Hp by set_solver.
    split_and!; [done..|]. apply IH; [|intros; apply Hp; set_solver|done].
    intros; apply Hn; set_solver.
Qed.

(** The last buffer of a segment that starts at [a]. *)
Fixpoint lastd (a : nat) (l : list nat) : nat :=
  match l with [] => a | b :: l' => lastd b l' end.

Lemma lastd_elem a l : lastd a l ∈ a :: l.
Proof. revert a. induction l as [|b l IH]; intros a; simpl; set_solver. Qed.

Lemma dll_last bufs a l z :
  dll bufs a l z -> b_next (bufs !!! lastd a l) = z /\ b_prev (bufs !!! z) = lastd a l.
Proof. revert a. induction l as [|b l IH]; intros a; simpl; [done|]. intros (_ & _ & H). by apply IH. Qed.

(** Redirect the end of a segment from [b] to [n]. *)
Lemma dll_relink bufs bufs' a l b n :
  NoDup (a :: l) ->
  (forall i, i ∈ a :: l -> i <> lastd a l -> b_next (bufs' !!! i) = b_next (bufs !!! i)) ->
  (forall i, i ∈ l -> b_prev (bufs' !!! i) = b_prev (bufs !!! i)) ->
  b_next (bufs' !!! lastd a l) = n -> b_prev (bufs' !!! n) = lastd a l ->
  dll bufs a l b -> dll bufs' a l n.
Proof.
  revert a. induction l as [|c l IH]; intros a Hnd Hn Hp H1 H2; simpl in *; [done|].
  intros (E1 & E2 & E3). apply NoDup_cons in Hnd as [Ha Hnd].
  assert (a <> lastd c l) by (intros ->; apply Ha, lastd_elem).
  rewrite Hn, Hp by set_solver. split_and!; [done..|].
  apply IH; try done; [|set_solver]. intros i Hi Hne. apply Hn; set_solver.
Qed.

(** Traversals. *)
Lemma bget_cached_find dev bno s a l fuel :
  dll (k_bufs s) a l NBUF -> NBUF ∉ l -> (length l < fuel)%nat ->
  bget_cached dev bno (b_next (k_bufs s !!! a)) fuel s = List.find (matches (k_bufs s) dev bno) l.
Proof.
  revert a fuel. induction l as [|b l IH]; intros a [|fuel] Hd Hn Hf; simpl in Hf; try lia;
    cbn [bget_cached List.find].
  - destruct Hd as [-> _]. by rewrite bool_decide_true.
  - destruct Hd as (-> & _ & Hd). rewrite bool_decide_false by set_solver.
    change ((b_dev (k_bufs s !!! b) =? dev) && (b_blockno (k_bufs s !!! b) =? bno))
      with (matches (k_bufs s) dev bno b).
    destruct (matches _ _ _ b); [done|]. apply IH; [done|set_solver|lia].
Qed.

Lemma bget_unused_find s a l fuel :
  dll (k_bufs s) NBUF l a -> NBUF ∉ l -> (length l < fuel)%nat ->
  bget_unused (b_prev (k_bufs s !!! a)) fuel s = List.find (unused (k_bufs s)) (rev l).
Proof.
  revert a fuel. induction l as [|b l IH] using rev_ind; intros a [|fuel] Hd Hn Hf;
    rewrite ?length_app in Hf; simpl in Hf; try lia; cbn [bget_unused].
  - destruct Hd as [_ ->]. by rewrite bool_decide_true.
  - apply dll_app in Hd as [Hd [_ ->]]. rewrite rev_unit. cbn [List.find].
    rewrite bool_decide_false by set_solver.
    change (b_refcnt (k_bufs s !!! b) =? 0) with (unused (k_bufs s) b).
    destruct (unused _ b); [done|]. apply IH; [done|set_solver|lia].
Qed.

Lemma blist_lt bufs order b : blist bufs order -> b ∈ order <-> (b < NBUF)%nat.
Proof. intros (_ & _ & H). rewrite H, elem_of_seq. lia. Qed.

Lemma blist_nodup bufs order : blist bufs order -> NoDup (NBUF :: order).
Proof.
  intros H. apply NoDup_cons. split.
  - rewrite (blist_lt _ _ _ H). lia.
  - destruct H as (_ & _ & ->). apply NoDup_seq.
Qed.

(** ** Moving a buffer to the front *)

Definition unlink (b : nat) (bufs : list buf) : list buf :=
  let bf := bufs !!! b in
  alter (set_b_next (fun _ => b_next bf)) (b_prev bf)
    (alter (set_b_prev (fun _ => b_prev bf)) (b_next bf) bufs).

Definition push_front (b : nat) (bufs : list buf) : list buf :=
  let bufs1 := alter (set_b_prev (fun _ => NBUF)) b
                 (alter (set_b_next (fun _ => b_next (bufs !!! NBUF))) b bufs) in
  alter (set_b_next (fun _ => b)) NBUF
    (alter (set_b_prev (fun _ => b)) (b_next (bufs1 !!! NBUF)) bufs1).

Section Links.
Implicit Types (bufs : list buf) (i j b : nat).

Lemma proj_alter {B} (pr : buf -> B) f i j bufs :
  (forall x, pr (f x) = pr x) -> pr (alter f i bufs !!! j) = pr (bufs !!! j).
Proof.
  intros Hf. destruct (decide (i = j)) as [<-|Hne].
  - destruct (decide (i < length bufs)%nat).
    + rewrite lookup_total_alter_eq by done. apply Hf.
    + rewrite list_alter_same; [done|]. intros x Hx%lookup_lt_Some. lia.
  - by rewrite lookup_total_alter_ne.
Qed.

Lemma next_set_next v i j bufs :
  (i < length bufs)%nat ->
  b_next (alter (set_b_next (fun _ => v)) i bufs !!! j) = if decide (i = j) then v else b_next (bufs !!! j).
Proof.
  intros Hi. destruct (decide (i = j)) as [<-|Hne].
  - by rewrite lookup_total_alter_eq.
  - by rewrite lookup_total_alter_ne.
Qed.

Lemma prev_set_prev v i j bufs :
  (i < length bufs)%nat ->
  b_prev (alter (set_b_prev (fun _ => v)) i bufs !!! j) = if decide (i = j) then v else b_prev (bufs !!! j).
Proof.
  intros Hi. destruct (decide (i = j)) as [<-|Hne].
  - by rewrite lookup_total_alter_eq.
  - by rewrite lookup_total_alter_ne.
Qed.

Lemma next_set_prev v i j bufs :
  b_next (alter (set_b_prev v) i bufs !!! j) = b_next (bufs !!! j).
Proof. by apply (proj_alter b_next). Qed.
Lemma prev_set_next v i j bufs :
  b_prev (alter (set_b_next v) i bufs !!! j) = b_prev (bufs !!! j).
Proof. by apply (proj_alter b_prev). Qed.

End Links.

Ltac links :=
  repeat first
    [ rewrite next_set_prev | rewrite prev_set_next
    | rewrite next_set_next by (rewrite ?length_alter; assumption)
    | rewrite prev_set_prev by (rewrite ?length_alter; assumption) ];
  repeat case_decide; try congruence.

Lemma blist_split bufs order b :
  blist bufs order -> (b < NBUF)%nat ->
  exists l1 l2, order = l1 ++ b :: l2 /\ NoDup (NBUF :: l1 ++ b :: l2).
Proof.
  intros H Hb. apply (blist_lt _ _ _ H) in Hb. apply list_elem_of_split in Hb as (l1 & l2 & ->).
  exists l1, l2. split; [done|]. by eapply blist_nodup.
Qed.

Lemma dll_bound bufs order i : blist bufs order -> i ∈ NBUF :: order -> (i < length bufs)%nat.
Proof.
  intros H. rewrite elem_of_cons, (blist_lt _ _ _ H). destruct H as (-> & _). lia.
Qed.

Lemma unlink_dll bufs l1 b l2 :
  (forall i, i ∈ NBUF :: l1 ++ b :: l2 -> (i < length bufs)%nat) ->
  NoDup (NBUF :: l1 ++ b :: l2) -> dll bufs NBUF (l1 ++ b :: l2) NBUF ->
  dll (unlink b bufs) NBUF (l1 ++ l2) NBUF.
Proof.
  intros Hlt Hnd Hd. apply dll_app in Hd as [H1 H2].
  destruct (dll_last _ _ _ _ H1) as [Hpn Hp].
  pose proof (lastd_elem NBUF l1) as Hin. set (p := lastd NBUF l1) in *.
  assert (Hpl : (p < length bufs)%nat).
  { apply Hlt. rewrite app_comm_cons. by apply elem_of_app; left. }
  assert (HNl : (NBUF < length bufs)%nat) by (apply Hlt; by left).
  rewrite app_comm_cons in Hnd. apply NoDup_app in Hnd as (Hnd1 & H12 & Hnd2).
  assert (HN1 : NBUF ∉ l1) by (by apply NoDup_cons in Hnd1 as [? _]).
  unfold unlink. rewrite Hp. destruct l2 as [|c l2]; simpl in H2.
  - destruct H2 as [-> _]. rewrite app_nil_r.
    apply (dll_relink bufs _ _ _ b); try done; fold p; intros; links.
  - destruct H2 as (-> & H3 & H4). apply dll_app.
    assert (Hcl : (c < length bufs)%nat).
    { apply Hlt. rewrite app_comm_cons. apply elem_of_app; right. by right; left. }
    assert (Hc1 : c ∉ NBUF :: l1) by (intros Hc; apply (H12 _ Hc); by right; left).
    assert (Hc2 : c ∉ l2) by (by apply NoDup_cons in Hnd2 as [_ [? _]%NoDup_cons]).
    assert (Hp2 : p ∉ c :: l2) by (intros Hx; apply (H12 p); [done|by right]).
    assert (c <> p) by (intros ->; apply Hc1; done).
    assert (c <> NBUF) by (intros ->; apply Hc1; by left).
    split.
    + apply (dll_relink bufs _ _ _ b); try done; fold p; intros; links.
      subst. exfalso. apply Hc1. by right.
    + eapply dll_frame; [..|exact H4]; intros i Hi; links.
      apply elem_of_app in Hi as [?|?%list_elem_of_singleton]; congruence.
Qed.

Lemma length_unlink b bufs : length (unlink b bufs) = length bufs.
Proof. unfold unlink. by rewrite !length_alter. Qed.
Lemma length_push_front b bufs : length (push_front b bufs) = length bufs.
Proof. unfold push_front. by rewrite !length_alter. Qed.

Lemma push_front_dll bufs l b :
  (forall i, i ∈ NBUF :: b :: l -> (i < length bufs)%nat) ->
  NoDup (NBUF :: b :: l) -> dll bufs NBUF l NBUF ->
  dll (push_front b bufs) NBUF (b :: l) NBUF.
Proof.
  intros Hlt Hnd Hd. rewrite !NoDup_cons in Hnd. destruct Hnd as (HN & Hb & Hl).
  apply not_elem_of_cons in HN as [HNb HNl].
  assert (Hbl : (b < length bufs)%nat) by (apply Hlt; by right; left).
  assert (HNlt : (NBUF < length bufs)%nat) by (apply Hlt; by left).
  unfold push_front.
  assert (b_next (alter (set_b_prev (fun _ => NBUF)) b
    (alter (set_b_next (fun _ => b_next (bufs !!! NBUF))) b bufs) !!! NBUF) = b_next (bufs !!! NBUF))
    as -> by links.
  destruct l as [|c l]; simpl in *.
  - destruct Hd as [-> _]. split_and!; links.
  - destruct Hd as (-> & H1 & H2). apply NoDup_cons in Hl as [Hc _].
    apply not_elem_of_cons in HNl as [HNc HNl]. apply not_elem_of_cons in Hb as [Hbc Hb].
    assert (c < length bufs)%nat by (apply Hlt; by right; right; left).
    split_and!; [links..|].
    eapply dll_frame; [..|exact H2]; intros i Hi; links.
    + exfalso. apply elem_of_cons in Hi as [->|Hi]; congruence.
    + exfalso. apply elem_of_cons in Hi as [->|Hi]; congruence.
    + apply elem_of_app in Hi as [?|?%list_elem_of_singleton]; congruence.
    + apply elem_of_app in Hi as [?|?%list_elem_of_singleton]; congruence.
Qed.

Definition front (b : nat) (order : list nat) : list nat :=
  b :: filter (fun i => i <> b) order.

Lemma filter_ne_id (b : nat) (l : list nat) : b ∉ l -> filter (fun i => i <> b) l = l.
Proof.
  induction l as [|c l IH]; intros Hb; [done|]. apply not_elem_of_cons in Hb as [Hc Hb].
  rewrite filter_cons_True by congruence. by rewrite IH.
Qed.

Lemma front_split (b : nat) l1 l2 :
  NoDup (l1 ++ b :: l2) -> front b (l1 ++ b :: l2) = b :: l1 ++ l2.
Proof.
  intros Hnd. unfold front. f_equal. rewrite filter_app, filter_cons_False by (intros H; by apply H).
  apply NoDup_app in Hnd as (_ & Hx & Hy). apply NoDup_cons in Hy as [Hb _].
  rewrite !filter_ne_id; [done|done|]. intros Hx'. apply (Hx b Hx'). by left.
Qed.

Lemma blist_front bufs order b :
  blist bufs order -> (b < NBUF)%nat ->
  blist (push_front b (unlink b bufs)) (front b order).
Proof.
  intros H Hb. destruct (blist_split _ _ _ H Hb) as (l1 & l2 & -> & Hnd).
  assert (Hlt := fun i => dll_bound bufs _ i H).
  rewrite front_split by (by apply NoDup_cons in Hnd as [_ ?]).
  assert (Hperm : b :: l1 ++ l2 ≡ₚ l1 ++ b :: l2) by apply Permutation_middle.
  split_and!.
  - by rewrite length_push_front, length_unlink, (proj1 H).
  - apply push_front_dll.
    + intros i Hi. rewrite length_unlink. apply Hlt. by rewrite <- Hperm.
    + by rewrite Hperm.
    + apply unlink_dll; [done|done|apply H].
  - rewrite Hperm. apply H.
Qed.

(** ** The operations, run by a process that holds no spin lock *)

Definition bworld (s : kstate) (me : nat) : Prop :=
  quiet s me /\ lock_free s L_bcache /\
  (forall i, (i < NBUF)%nat -> lock_free s (L_sl (SL_buf i))).

Lemma bworld_bufs f s me : bworld s me -> bworld (set_k_bufs f s) me.
Proof. intros (Hq & Hl & Hsl). split_and!; [exact Hq|exact Hl|exact Hsl]. Qed.

Definition ref_taken (pid : Z) (b : buf) : buf :=
  set_b_lock (sl_taken pid) (set_b_refcnt (fun n => u32 (n + 1)) b).
Definition recycled (dev bno pid : Z) (b : buf) : buf :=
  mkbuf false (b_disk b) dev bno (sl_taken pid (b_lock b)) 1 (b_prev b) (b_next b) (b_data b).

Lemma locksleep_after s me b g :
  bworld s me -> (b < NBUF)%nat -> length (k_bufs s) = S NBUF ->
  sl_locked (b_lock (g (k_bufs s !!! b))) = 0 ->
  acquiresleep (SL_buf b) (set_k_bufs (alter g b) s) =
  Done tt (set_k_bufs (alter (fun x => set_b_lock (sl_taken (mypid s me)) (g x)) b) s).
Proof.
  intros (Hq & Hl & Hsl) Hb Hlen Hz.
  rewrite (acquiresleep_spec _ _ me); [|exact Hq|exact (Hsl b Hb)|].
  - cbn [setsl]. rewrite set_set_k_bufs. f_equal. apply set_k_bufs_ext.
    by rewrite list_alter_alter.
  - cbn [getsl]. change (k_bufs (set_k_bufs ?f s)) with (f (k_bufs s)).
    by rewrite lookup_total_alter_eq by lia.
Qed.

Section Get.
Context (s : kstate) (me : nat) (order : list nat) (dev bno : Z).
Context (Hw : bworld s me) (Hbl : blist (k_bufs s) order).

Lemma bget_start :
  bget dev bno s =
  (match List.find (matches (k_bufs s) dev bno) order with
   | Some b =>
      setbuf b (set_b_refcnt (fun n => u32 (n + 1)));;
      release L_bcache;; acquiresleep (SL_buf b);; ret b
   | None =>
      match List.find (unused (k_bufs s)) (rev order) with
      | Some b =>
          setbuf b (set_b_dev (fun _ => dev));;
          setbuf b (set_b_blockno (fun _ => bno));;
          setbuf b (set_b_valid (fun _ => false));;
          setbuf b (set_b_refcnt (fun _ => 1));;
          release L_bcache;; acquiresleep (SL_buf b);; ret b
      | None => panic "bget: no buffers"
      end
   end) (acq L_bcache s).
Proof.
  destruct Hw as (Hq & Hl & Hsl). unfold bget.
  rewrite (bind_done _ _ _ _ _ (acquire_spec _ _ Hl)). unfold getbuf. kstep.
  destruct Hbl as (Hlen & Hd & Hp). rewrite acq_k_bufs.
  assert (HN : NBUF ∉ order) by (rewrite Hp, elem_of_seq; lia).
  assert (length order = NBUF) as Hlo by (rewrite Hp; apply length_seq).
  rewrite <- (acq_k_bufs L_bcache s) in Hd.
  assert (E : bget_cached dev bno (b_next (k_bufs s !!! NBUF)) (S NBUF) (acq L_bcache s) =
              List.find (matches (k_bufs s) dev bno) order)
    by (apply (bget_cached_find dev bno (acq L_bcache s)); [done|done|lia]).
  assert (E' : bget_unused (b_prev (k_bufs s !!! NBUF)) (S NBUF) (acq L_bcache s) =
              List.find (unused (k_bufs s)) (rev order))
    by (apply (bget_unused_find (acq L_bcache s)); [done|done|lia]).
  rewrite E. destruct (List.find (matches _ _ _) order); [done|]. kstep. by rewrite E'.
Qed.

Lemma bget_hit b :
  List.find (matches (k_bufs s) dev bno) order = Some b ->
  sl_locked (b_lock (k_bufs s !!! b)) = 0 ->
  bget dev bno s = Done b (set_k_bufs (alter (ref_taken (mypid s me)) b) s).
Proof.
  intros Hf Hz. rewrite bget_start, Hf. unfold setbuf. kstep. rewrite acq_set_k_bufs.
  pose proof Hw as ((Hc & _) & Hl & Hsl).
  assert (Hb : (b < NBUF)%nat).
  { apply find_some in Hf as [Hf _]. by rewrite <- (blist_lt _ _ _ Hbl), list_elem_of_In. }
  erewrite bind_done by (apply release_acq; [exact Hc|exact Hl]).
  erewrite bind_done by (apply (locksleep_after _ me); [done|done|apply Hbl|done]).
  done.
Qed.

Lemma bget_miss b :
  List.find (matches (k_bufs s) dev bno) order = None ->
  List.find (unused (k_bufs s)) (rev order) = Some b ->
  sl_locked (b_lock (k_bufs s !!! b)) = 0 ->
  bget dev bno s = Done b (set_k_bufs (alter (recycled dev bno (mypid s me)) b) s).
Proof.
  intros Hf Hu Hz. rewrite bget_start, Hf, Hu. unfold setbuf. kstep.
  rewrite !acq_set_k_bufs, !set_set_k_bufs.
  pose proof Hw as ((Hc & _) & Hl & Hsl).
  assert (Hb : (b < NBUF)%nat).
  { apply find_some in Hu as [Hu _]. rewrite <- in_rev in Hu.
    by rewrite <- (blist_lt _ _ _ Hbl), list_elem_of_In. }
  erewrite bind_done by (apply release_acq; [exact Hc|exact Hl]).
  rewrite (set_k_bufs_ext _ (alter (fun x => set_b_refcnt (fun _ => 1) (set_b_valid (fun _ => false)
     (set_b_blockno (fun _ => bno) (set_b_dev (fun _ => dev) x)))) b)).
  2: { by rewrite !list_alter_alter. }
  erewrite bind_done by (apply (locksleep_after _ me); [done|done|apply Hbl|done]).
  done.
Qed.

Lemma bget_full :
  List.find (matches (k_bufs s) dev bno) order = None ->
  List.find (unused (k_bufs s)) (rev order) = None ->
  bget dev bno s = Panic "bget: no buffers" (acq L_bcache s).
Proof. intros Hf Hu. by rewrite bget_start, Hf, Hu. Qed.

End Get.

Definition held (s : kstate) (me b : nat) : Prop :=
  (b < NBUF)%nat /\ length (k_bufs s) = S NBUF /\
  sl_locked (b_lock (k_bufs s !!! b)) <> 0 /\ sl_pid (b_lock (k_bufs s !!! b)) = mypid s me.

Lemma holdingsleep_held s me b :
  bworld s me -> held s me b -> holdingsleep (SL_buf b) s = Done true s.
Proof.
  intros (Hq & Hl & Hsl) (Hb & Hlen & H1 & H2).
  rewrite (holdingsleep_spec _ _ me) by auto. cbn [getsl].
  apply Z.eqb_neq in H1. by rewrite H1, H2, Z.eqb_refl.
Qed.

Definition disk_put (bno : Z) (d : list Z) (s : kstate) : kstate :=
  set_k_dtrace (cons (bno, d)) (set_k_disk (insert bno d) s).

Lemma bwrite_eq s me b :
  bworld s me -> held s me b -> b_blockno (k_bufs s !!! b) < FSSIZE ->
  bwrite b s = Done tt (disk_put (b_blockno (k_bufs s !!! b)) (b_data (k_bufs s !!! b)) s).
Proof.
  intros Hw Hh Hlt. unfold bwrite, ramdiskrw.
  rewrite (bind_done _ _ _ _ _ (holdingsleep_held _ _ _ Hw Hh)). kstep.
  rewrite (bind_done _ _ _ _ _ (holdingsleep_held _ _ _ Hw Hh)). unfold getbuf. kstep.
  rewrite Z.geb_leb, (proj2 (Z.leb_gt _ _)) by lia. by kstep.
Qed.

(** The buffer after a read from disk, if it needs one. *)
Definition loaded (disk : gmap Z (list Z)) (b : buf) : buf :=
  if b_valid b then b else
  set_b_valid (fun _ => true)
    (set_b_data (fun _ => default zeroblock (disk !! b_blockno b)) b).

Lemma ramdisk_read_eq s me b :
  bworld s me -> held s me b -> b_blockno (k_bufs s !!! b) < FSSIZE ->
  ramdiskrw b false s =
  Done tt (set_k_bufs (alter (set_b_data (fun _ => disk_block s (b_blockno (k_bufs s !!! b)))) b) s).
Proof.
  intros Hw Hh Hlt. unfold ramdiskrw.
  rewrite (bind_done _ _ _ _ _ (holdingsleep_held _ _ _ Hw Hh)). unfold getbuf. kstep.
  rewrite Z.geb_leb, (proj2 (Z.leb_gt _ _)) by lia. by kstep.
Qed.

Lemma bread_after_bget s me dev bno b g :
  bworld s me -> bget dev bno s = Done b (set_k_bufs (alter g b) s) ->
  held (set_k_bufs (alter g b) s) me b ->
  (b_valid (g (k_bufs s !!! b)) = false -> b_blockno (g (k_bufs s !!! b)) < FSSIZE) ->
  bread dev bno s = Done b (set_k_bufs (alter (fun x => loaded (k_disk s) (g x)) b) s).
Proof.
  intros Hw Hg Hh Hlt. unfold bread. rewrite (bind_done _ _ _ _ _ Hg).
  unfold getbuf. kstep. change (k_bufs (set_k_bufs ?f s)) with (f (k_bufs s)).
  pose proof Hh as (Hb & Hlen & _). change (k_bufs (set_k_bufs ?f s)) with (f (k_bufs s)) in Hlen.
  rewrite length_alter in Hlen. rewrite lookup_total_alter_eq by lia.
  assert (Hx : forall h, h (g (k_bufs s !!! b)) = loaded (k_disk s) (g (k_bufs s !!! b)) ->
     set_k_bufs (alter (fun x => h (g x)) b) s = set_k_bufs (alter (fun x => loaded (k_disk s) (g x)) b) s).
  { intros h Hh'. apply set_k_bufs_ext, list_alter_ext; [|done]. intros x Hx.
    rewrite list_lookup_lookup_total_nat in Hx by lia. by injection Hx as <-. }
  destruct (b_valid (g (k_bufs s !!! b))) eqn:Ev; kstep.
  - f_equal. rewrite <- (Hx (fun x => x)); [done|]. unfold loaded. by rewrite Ev.
  - assert (Hr := ramdisk_read_eq (set_k_bufs (alter g b) s) me b (bworld_bufs _ _ _ Hw) Hh).
    change (k_bufs (set_k_bufs ?f s)) with (f (k_bufs s)) in Hr.
    rewrite lookup_total_alter_eq in Hr by lia. specialize (Hr (Hlt eq_refl)).
    erewrite bind_done; [reflexivity|]. rewrite (bind_done _ _ _ _ _ Hr).
    unfold setbuf, modify. f_equal. rewrite !set_set_k_bufs.
    rewrite <- (Hx (fun x => set_b_valid (fun _ => true) (set_b_data (fun _ =>
      default zeroblock (k_disk s !! b_blockno (g (k_bufs s !!! b)))) x))).
    + apply set_k_bufs_ext. by rewrite !list_alter_alter.
    + unfold loaded. by rewrite Ev.
Qed.

Definition wake_buf (me b : nat) (s : kstate) : kstate :=
  set_k_procs (woken (CH_sl (SL_buf b)) (Some me) 0 NPROC) s.

(** [brelse] on the array of buffers. *)
Definition dropped (b : nat) (bufs : list buf) : list buf :=
  alter (fun x => set_b_refcnt (fun n => u32 (n - 1)) (set_b_lock sl_given x)) b bufs.
Definition released (b : nat) (bufs : list buf) : list buf :=
  if b_refcnt (dropped b bufs !!! b) =? 0 then push_front b (unlink b (dropped b bufs))
  else dropped b bufs.

Lemma bworld_woken s me b : bworld s me -> bworld (wake_buf me b s) me.
Proof.
  intros ((Hc & Hp & H0 & Hlen & Hme & Hl) & Hb & Hsl). split_and!; [|exact Hb|exact Hsl].
  split_and!; [exact Hc|exact Hp|exact H0| |exact Hme|exact Hl].
  change (k_procs (wake_buf me b s)) with (woken (CH_sl (SL_buf b)) (Some me) 0 NPROC (k_procs s)).
  by rewrite length_woken.
Qed.

Lemma relink_eq b s (k : K unit) :
  (bf <- getbuf b;;
   when (b_refcnt bf =? 0)
    (setbuf (b_next bf) (set_b_prev (fun _ => b_prev bf));;
     setbuf (b_prev bf) (set_b_next (fun _ => b_next bf));;
     link_front b;;
     hd <- getbuf NBUF;;
     setbuf (b_next hd) (set_b_prev (fun _ => b));;
     setbuf NBUF (set_b_next (fun _ => b)));; k) s =
  k (set_k_bufs (fun bufs => if b_refcnt (bufs !!! b) =? 0 then push_front b (unlink b bufs)
                                   else bufs) s).
Proof.
  unfold getbuf, link_front, setbuf. kstep.
  destruct (b_refcnt (k_bufs s !!! b) =? 0) eqn:E; kstep.
  - erewrite bind_done; [reflexivity|]. kstep.
    erewrite bind_done by (unfold getbuf, setbuf; kstep; reflexivity).
    kstep. unfold modify. f_equal. rewrite !set_set_k_bufs. apply set_k_bufs_ext. by rewrite E.
  - f_equal. symmetry. apply set_k_bufs_id. by rewrite E.
Qed.

Lemma brelse_eq s me b :
  bworld s me -> held s me b ->
  brelse b s = Done tt (set_k_bufs (released b) (wake_buf me b s)).
Proof.
  intros Hw Hh. unfold brelse.
  rewrite (bind_done _ _ _ _ _ (holdingsleep_held _ _ _ Hw Hh)). kstep.
  pose proof Hw as (Hq & Hl & Hsl). pose proof Hh as (Hb & Hlen & _).
  erewrite bind_done by (apply (releasesleep_spec _ _ me); [exact Hq|exact (Hsl b Hb)]).
  cbn [setsl].
  change (set_k_procs ?f (set_k_bufs ?g s)) with (set_k_bufs g (wake_buf me b s)).
  pose proof (bworld_bufs (alter (set_b_lock sl_given) b) _ _ (bworld_woken _ _ b Hw)) as Hw'.
  destruct Hw' as ((Hc' & _) & Hl' & _).
  rewrite (bind_done _ _ _ _ _ (acquire_spec _ _ Hl')). unfold setbuf at 1. kstep.
  rewrite relink_eq, !acq_set_k_bufs, !set_set_k_bufs.
  rewrite release_acq; [|exact Hc'|exact Hl']. f_equal. apply set_k_bufs_ext.
  unfold released, dropped. by rewrite list_alter_alter.
Qed.

Lemma bpin_eq s me b :
  bworld s me -> bpin b s = Done tt (set_k_bufs (alter (set_b_refcnt (fun n => u32 (n + 1))) b) s).
Proof.
  intros ((Hc & _) & Hl & _). unfold bpin, setbuf.
  rewrite (bind_done _ _ _ _ _ (acquire_spec _ _ Hl)). kstep. rewrite acq_set_k_bufs.
  by rewrite release_acq.
Qed.

Lemma bunpin_eq s me b :
  bworld s me -> bunpin b s = Done tt (set_k_bufs (alter (set_b_refcnt (fun n => u32 (n - 1))) b) s).
Proof.
  intros ((Hc & _) & Hl & _). unfold bunpin, setbuf.
  rewrite (bind_done _ _ _ _ _ (acquire_spec _ _ Hl)). kstep. rewrite acq_set_k_bufs.
  by rewrite release_acq.
Qed.
End BioProps.
