(* ===== verification/Bcache.v ===== *)
(** * The buffer cache refines a block store

    Abstractly the cache is a finite map from block numbers to the blocks in
    use: their contents, how many references there are and who has locked
    them. A block that is not in use is what the disk says. The functions of
    [bio.c] implement the operations on this map; which buffer holds which
    block, the LRU list and the reuse of buffers are invisible, as long as
    fewer than [NBUF] blocks are in use. [BcacheLru] is about the list: which
    buffer is reused. *)

From stdpp Require Import gmap strings list.
From Stdlib Require Import ZArith Lia.
From S2P Require Import Prelude KState Spinlock Sched SleepLock Bio.
Open Scope Z_scope.
#[local] Opaque NPROC.
Import Spinlock Sched SleepLock Bio SpinlockProps SchedProps SleepLockProps BioProps.

(** A block in use. *)
Record bent := mkbent { be_data : list Z; be_ref : Z; be_lock : option Z }.

Definition lock_is (lk : sleeplock) (o : option Z) : Prop :=
  match o with
  | None => sl_locked lk = 0
  | Some pid => sl_locked lk = 1 /\ sl_pid lk = pid
  end.

(** Buffer [x] holds block [bno], in use as [e] says. *)
Record holds (x : buf) (bno : Z) (e : bent) : Prop := {
  ho_dev : b_dev x = ROOTDEV;
  ho_bno : b_blockno x = bno;
  ho_valid : b_valid x = true;
  ho_data : b_data x = be_data e;
  ho_ref : b_refcnt x = be_ref e;
  ho_lock : lock_is (b_lock x) (be_lock e) }.

Definition on_disk (disk : gmap Z (list Z)) (bno : Z) : list Z := default zeroblock (disk !! bno).

(** Buffer [x] is not in use: if it caches a block, it agrees with the disk. *)
Record idle (x : buf) (disk : gmap Z (list Z)) : Prop := {
  id_ref : b_refcnt x = 0;
  id_lock : sl_locked (b_lock x) = 0;
  id_data : b_dev x = ROOTDEV -> b_valid x = true -> b_data x = on_disk disk (b_blockno x) }.

Abbreviation bmap_t := (gmap Z bent).

Record brep_bufs (bufs : list buf) (disk : gmap Z (list Z)) (act : bmap_t) : Prop := {
  br_list : exists order, blist bufs order;
  br_act : forall bno e, act !! bno = Some e ->
    exists b, (b < NBUF)%nat /\ holds (bufs !!! b) bno e;
  br_all : forall b, (b < NBUF)%nat ->
    (exists bno e, act !! bno = Some e /\ holds (bufs !!! b) bno e) \/ idle (bufs !!! b) disk;
  br_uniq : forall a b, (a < NBUF)%nat -> (b < NBUF)%nat ->
    b_dev (bufs !!! a) = ROOTDEV -> b_dev (bufs !!! b) = ROOTDEV ->
    b_blockno (bufs !!! a) = b_blockno (bufs !!! b) -> a = b;
  br_ref : forall bno e, act !! bno = Some e -> 0 < be_ref e < 2 ^ 31 }.

(** The cache of state [s] stands for the blocks [act]. *)
Definition brep (s : kstate) (act : bmap_t) : Prop := brep_bufs (k_bufs s) (k_disk s) act.

(** Buffer [b] is the one that holds block [bno]. *)
Definition handle (s : kstate) (b : nat) (bno : Z) : Prop :=
  (b < NBUF)%nat /\ b_dev (k_bufs s !!! b) = ROOTDEV /\ b_blockno (k_bufs s !!! b) = bno.

Section Rep.
Context {bufs : list buf} {disk : gmap Z (list Z)} {act : bmap_t}.
Context (H : brep_bufs bufs disk act).

Lemma rep_len : length bufs = S NBUF.
Proof. by destruct (br_list _ _ _ H) as [o [? _]]. Qed.

Lemma rep_holds b bno e :
  (b < NBUF)%nat -> b_dev (bufs !!! b) = ROOTDEV -> b_blockno (bufs !!! b) = bno ->
  act !! bno = Some e -> holds (bufs !!! b) bno e.
Proof.
  intros Hb Hd Hn He. destruct (br_act _ _ _ H _ _ He) as (c & Hc & Hh).
  assert (b = c) as ->; [|done].
  apply (br_uniq _ _ _ H); try done; [apply Hh|]. by rewrite (ho_bno _ _ _ Hh).
Qed.

Lemma rep_idle b bno :
  (b < NBUF)%nat -> b_dev (bufs !!! b) = ROOTDEV -> b_blockno (bufs !!! b) = bno ->
  act !! bno = None -> idle (bufs !!! b) disk.
Proof.
  intros Hb Hd Hn He. destruct (br_all _ _ _ H b Hb) as [(bno' & e & He' & Hh)|]; [|done].
  rewrite (ho_bno _ _ _ Hh) in Hn. congruence.
Qed.

(** A block in use is found, a block not cached is not. *)
Lemma rep_find order bno :
  blist bufs order ->
  match List.find (matches bufs ROOTDEV bno) order with
  | Some b => (b < NBUF)%nat /\ b_dev (bufs !!! b) = ROOTDEV /\ b_blockno (bufs !!! b) = bno
  | None => act !! bno = None /\
            forall b, (b < NBUF)%nat -> b_dev (bufs !!! b) = ROOTDEV -> b_blockno (bufs !!! b) <> bno
  end.
Proof.
  intros Hbl. destruct (List.find _ order) as [b|] eqn:E.
  - apply find_some in E as [Hin Hm]. unfold matches in Hm.
    rewrite andb_true_iff, !Z.eqb_eq in Hm.
    split; [|done]. by rewrite <- (blist_lt _ _ _ Hbl), list_elem_of_In.
  - assert (Hno : forall b, (b < NBUF)%nat -> b_dev (bufs !!! b) = ROOTDEV -> b_blockno (bufs !!! b) <> bno).
    { intros b Hb Hd Hn. eapply find_none in E; [|apply list_elem_of_In, (blist_lt _ _ _ Hbl), Hb].
      unfold matches in E. rewrite Hd, Hn, !Z.eqb_refl in E. done. }
    split; [|done]. destruct (act !! bno) as [e|] eqn:Ea; [|done].
    destruct (br_act _ _ _ H _ _ Ea) as (b & Hb & Hh).
    destruct (Hno b Hb (ho_dev _ _ _ Hh) (ho_bno _ _ _ Hh)).
Qed.

(** With fewer than [NBUF] blocks in use there is a buffer to recycle. *)
Lemma rep_free order :
  blist bufs order -> (size act < NBUF)%nat ->
  exists b, List.find (unused bufs) (rev order) = Some b /\ (b < NBUF)%nat /\ idle (bufs !!! b) disk.
Proof.
  intros Hbl Hsz. destruct (List.find (unused bufs) (rev order)) as [b|] eqn:E.
  - apply find_some in E as [Hin Hu]. rewrite <- in_rev, <- list_elem_of_In, (blist_lt _ _ _ Hbl) in Hin.
    exists b. split_and!; [done..|]. unfold unused in Hu. apply Z.eqb_eq in Hu.
    destruct (br_all _ _ _ H b Hin) as [(bno & e & He & Hh)|]; [|done].
    rewrite (ho_ref _ _ _ Hh) in Hu. pose proof (br_ref _ _ _ H _ _ He). lia.
  - exfalso. set (f := fun b => b_blockno (bufs !!! b)).
    assert (Hall : forall b, (b < NBUF)%nat -> b_dev (bufs !!! b) = ROOTDEV /\ is_Some (act !! f b)).
    { intros b Hb. destruct (br_all _ _ _ H b Hb) as [(bno & e & He & Hh)|Hi].
      - split; [apply Hh|]. unfold f. rewrite (ho_bno _ _ _ Hh). by exists e.
      - eapply find_none in E;
          [|rewrite <- in_rev; apply list_elem_of_In, (blist_lt _ _ _ Hbl), Hb].
        unfold unused in E. by rewrite (id_ref _ _ Hi) in E. }
    assert (Hnd : NoDup (f <$> seq 0 NBUF)).
    { apply NoDup_fmap_2_strong; [|apply NoDup_seq]. intros a b Ha Hb Hab.
      rewrite elem_of_seq in Ha, Hb. apply (br_uniq _ _ _ H); try apply Hall; try lia; done. }
    assert (Hsub : f <$> seq 0 NBUF ⊆ elements (dom act : gset Z)).
    { intros x Hx. apply list_elem_of_fmap in Hx as (b & -> & Hb). rewrite elem_of_seq in Hb.
      apply elem_of_elements, elem_of_dom, Hall. lia. }
    pose proof (submseteq_length _ _ (NoDup_submseteq _ _ Hnd Hsub)) as Hle.
    rewrite length_fmap, length_seq in Hle.
    assert (Es : length (elements (dom act : gset Z)) = size act) by exact (size_dom act). lia.
Qed.

End Rep.

(** ** How changes of the array change the map *)

(** Everything of a buffer but its links. *)
Definition strip (x : buf) : buf := set_b_prev (fun _ => O) (set_b_next (fun _ => O) x).

Lemma strip_fields x y :
  strip x = strip y ->
  b_valid x = b_valid y /\ b_dev x = b_dev y /\ b_blockno x = b_blockno y /\
  b_lock x = b_lock y /\ b_refcnt x = b_refcnt y /\ b_data x = b_data y.
Proof. intros E. unfold strip, set_b_prev, set_b_next in E. by injection E. Qed.

Lemma holds_strip x y bno e : strip x = strip y -> holds x bno e -> holds y bno e.
Proof.
  intros (E1 & E2 & E3 & E4 & E5 & E6)%strip_fields [H1 H2 H3 H4 H5 H6].
  split; congruence || by rewrite <- E4.
Qed.

Lemma idle_strip x y disk : strip x = strip y -> idle x disk -> idle y disk.
Proof.
  intros (E1 & E2 & E3 & E4 & E5 & E6)%strip_fields [H1 H2 H3].
  split; [congruence|congruence|]. intros. rewrite <- E6, <- E3. apply H3; congruence.
Qed.

Lemma strip_unlink b i bufs : strip (unlink b bufs !!! i) = strip (bufs !!! i).
Proof. unfold unlink. by rewrite !(proj_alter strip) by done. Qed.
Lemma strip_push_front b i bufs : strip (push_front b bufs !!! i) = strip (bufs !!! i).
Proof. unfold push_front. by rewrite !(proj_alter strip) by done. Qed.

Lemma rep_strip bufs bufs' disk act :
  brep_bufs bufs disk act -> (exists order, blist bufs' order) ->
  (forall i, strip (bufs' !!! i) = strip (bufs !!! i)) ->
  brep_bufs bufs' disk act.
Proof.
  intros H Ho Hs. split; [done| | | |apply H].
  - intros bno e He. destruct (br_act _ _ _ H _ _ He) as (b & Hb & Hh).
    exists b. split; [done|]. by eapply holds_strip; [symmetry; apply Hs|].
  - intros b Hb. destruct (br_all _ _ _ H b Hb) as [(bno & e & He & Hh)|Hi].
    + left. exists bno, e. split; [done|]. by eapply holds_strip; [symmetry; apply Hs|].
    + right. by eapply idle_strip; [symmetry; apply Hs|].
  - intros a b Ha Hb. pose proof (strip_fields _ _ (Hs a)) as (_ & -> & -> & _).
    pose proof (strip_fields _ _ (Hs b)) as (_ & -> & -> & _). by apply (br_uniq _ _ _ H).
Qed.

Lemma dll_alter bufs g b a l z :
  (forall x, b_prev (g x) = b_prev x) -> (forall x, b_next (g x) = b_next x) ->
  dll bufs a l z -> dll (alter g b bufs) a l z.
Proof.
  intros Hp Hn. apply dll_frame; intros i _; [by apply (proj_alter b_next)|by apply (proj_alter b_prev)].
Qed.

Lemma blist_alter bufs g b order :
  (forall x, b_prev (g x) = b_prev x) -> (forall x, b_next (g x) = b_next x) ->
  blist bufs order -> blist (alter g b bufs) order.
Proof.
  intros Hp Hn (H1 & H2 & H3). split_and!; [by rewrite length_alter|by apply dll_alter|done].
Qed.

Section Change.
Context (bufs : list buf) (disk : gmap Z (list Z)) (act : bmap_t) (b : nat) (g : buf -> buf).
Context (H : brep_bufs bufs disk act) (Hb : (b < NBUF)%nat).
Context (Hgp : forall x, b_prev (g x) = b_prev x) (Hgn : forall x, b_next (g x) = b_next x).

Lemma alter_eq : alter g b bufs !!! b = g (bufs !!! b).
Proof. apply lookup_total_alter_eq. rewrite (rep_len H). lia. Qed.

Lemma alter_ne c : c <> b -> alter g b bufs !!! c = bufs !!! c.
Proof. intros. by apply lookup_total_alter_ne. Qed.

Lemma blist_alter' : exists order, blist (alter g b bufs) order.
Proof. destruct (br_list _ _ _ H) as [o Ho]. exists o. by apply blist_alter. Qed.

(** Buffer [b] was idle or held [bno], no other caches [bno]; now it holds it
    as [e]. *)
Lemma rep_set bno e :
  holds (g (bufs !!! b)) bno e -> 0 < be_ref e < 2 ^ 31 ->
  (forall c, (c < NBUF)%nat -> c <> b -> b_dev (bufs !!! c) = ROOTDEV -> b_blockno (bufs !!! c) <> bno) ->
  (idle (bufs !!! b) disk \/ b_dev (bufs !!! b) = ROOTDEV /\ b_blockno (bufs !!! b) = bno) ->
  brep_bufs (alter g b bufs) disk (<[bno := e]> act).
Proof.
  intros Hh Hr Hoth Hwas. split.
  - apply blist_alter'.
  - intros bno' e' He. apply lookup_insert_Some in He as [[<- <-]|[Hne He]].
    + exists b. by rewrite alter_eq.
    + destruct (br_act _ _ _ H _ _ He) as (c & Hc & Hhc). exists c. split; [done|].
      destruct (decide (c = b)) as [->|]; [|by rewrite alter_ne].
      exfalso. destruct Hwas as [Hi|[_ Hw]]; [|rewrite (ho_bno _ _ _ Hhc) in Hw; congruence].
      pose proof (br_ref _ _ _ H _ _ He). pose proof (ho_ref _ _ _ Hhc).
      pose proof (id_ref _ _ Hi). lia.
  - intros c Hc. destruct (decide (c = b)) as [->|Hne].
    + left. exists bno, e. by rewrite lookup_insert_eq, alter_eq.
    + rewrite alter_ne by done. destruct (br_all _ _ _ H c Hc) as [(bno' & e' & He & Hhc)|]; [|by right].
      left. exists bno', e'. split; [|done]. rewrite lookup_insert_ne; [done|].
      intros <-. apply (Hoth c Hc Hne); apply Hhc.
  - intros a c Ha Hc. destruct (decide (a = b)) as [->|Hne]; destruct (decide (c = b)) as [->|Hne']; try done.
    + rewrite alter_eq, alter_ne by done. rewrite (ho_bno _ _ _ Hh). intros _ Hd Hx.
      by destruct (Hoth c Hc Hne' Hd).
    + rewrite alter_eq, alter_ne by done. rewrite (ho_bno _ _ _ Hh). intros Hd _ Hx.
      by destruct (Hoth a Ha Hne Hd).
    + rewrite !alter_ne by done. by apply (br_uniq _ _ _ H).
  - intros bno' e' He. apply lookup_insert_Some in He as [[<- <-]|[Hne He]]; [done|].
    by apply (br_ref _ _ _ H bno').
Qed.

(** Buffer [b] held [bno] and is idle now. *)
Lemma rep_drop bno e :
  act !! bno = Some e -> holds (bufs !!! b) bno e -> idle (g (bufs !!! b)) disk ->
  b_dev (g (bufs !!! b)) = ROOTDEV -> b_blockno (g (bufs !!! b)) = bno ->
  brep_bufs (alter g b bufs) disk (delete bno act).
Proof.
  intros Ha Hh Hi Hgd Hgb. split.
  - apply blist_alter'.
  - intros bno' e' He. apply lookup_delete_Some in He as [Hne He].
    destruct (br_act _ _ _ H _ _ He) as (c & Hc & Hhc). exists c. split; [done|].
    destruct (decide (c = b)) as [->|]; [|by rewrite alter_ne].
    exfalso. apply Hne. rewrite <- (ho_bno _ _ _ Hh). apply Hhc.
  - intros c Hc. destruct (decide (c = b)) as [->|Hne]; [right; by rewrite alter_eq|].
    rewrite alter_ne by done. destruct (br_all _ _ _ H c Hc) as [(bno' & e' & He & Hhc)|]; [|by right].
    left. exists bno', e'. split; [|done]. rewrite lookup_delete_ne; [done|].
    intros <-. apply Hne. apply (br_uniq _ _ _ H); try done; try apply Hh; try apply Hhc.
    by rewrite (ho_bno _ _ _ Hh), (ho_bno _ _ _ Hhc).
  - assert (Hself : b_dev (bufs !!! b) = ROOTDEV /\ b_blockno (bufs !!! b) = bno) by (split; apply Hh).
    destruct Hself as [Hd1 Hd2].
    intros a c Ha' Hc. destruct (decide (a = b)) as [->|Hne]; destruct (decide (c = b)) as [->|Hne']; try done.
    + rewrite alter_eq, alter_ne by done. rewrite Hgb, <- Hd2. intros _ ??. by apply (br_uniq _ _ _ H).
    + rewrite alter_eq, alter_ne by done. rewrite Hgb, <- Hd2. intros. by apply (br_uniq _ _ _ H).
    + rewrite !alter_ne by done. by apply (br_uniq _ _ _ H).
  - intros bno' e' He. apply lookup_delete_Some in He as [_ He]. by apply (br_ref _ _ _ H bno').
Qed.

End Change.

(** Writing a block that is in use to the disk. *)
Lemma rep_write bufs disk act bno e :
  brep_bufs bufs disk act -> act !! bno = Some e ->
  brep_bufs bufs (<[bno := be_data e]> disk) act.
Proof.
  intros H Ha. split; [apply H|apply H| |apply H|apply H].
  intros b Hb. destruct (br_all _ _ _ H b Hb) as [|[H1 H2 H3]]; [by left|right].
  split; [done|done|]. intros Hd Hv. unfold on_disk. rewrite lookup_insert_ne; [by apply H3|].
  intros Hn. pose proof (rep_holds H b bno e Hb Hd (eq_sym Hn) Ha) as Hh.
  pose proof (br_ref _ _ _ H _ _ Ha). pose proof (ho_ref _ _ _ Hh). lia.
Qed.

(** ** Frame: what the block layer leaves alone *)

Definition same_proc (p q : proc) : Prop :=
  set_p_state (fun _ => UNUSED) p = set_p_state (fun _ => UNUSED) q.

(** [s'] differs from [s] in the cache, the disk and the scheduling states. *)
Definition bframe (s s' : kstate) : Prop :=
  exists bufs disk tr procs,
    s' = set_k_procs (fun _ => procs) (set_k_bufs (fun _ => bufs)
           (set_k_disk (fun _ => disk) (set_k_dtrace (fun _ => tr) s))) /\
    length procs = length (k_procs s) /\
    forall i, same_proc (procs !!! i) (k_procs s !!! i).

Lemma bframe_refl s : bframe s s.
Proof. by exists (k_bufs s), (k_disk s), (k_dtrace s), (k_procs s). Qed.

Lemma bframe_trans s1 s2 s3 : bframe s1 s2 -> bframe s2 s3 -> bframe s1 s3.
Proof.
  intros (b & d & t & p & -> & Hl & Hp) (b' & d' & t' & p' & -> & Hl' & Hp').
  exists b', d', t', p'. split_and!; [reflexivity|by rewrite Hl'|].
  intros i. unfold same_proc in *. by rewrite Hp', Hp.
Qed.

Lemma bframe_bufs s f : bframe s (set_k_bufs f s).
Proof. by exists (f (k_bufs s)), (k_disk s), (k_dtrace s), (k_procs s). Qed.

Lemma bframe_disk s bno d : bframe s (disk_put bno d s).
Proof. by exists (k_bufs s), (<[bno := d]> (k_disk s)), ((bno, d) :: k_dtrace s), (k_procs s). Qed.

Lemma wake_one_same ch p : same_proc (wake_one ch p) p.
Proof. unfold wake_one. by case_match. Qed.

Lemma same_proc_refl p : same_proc p p.
Proof. done. Qed.

Lemma woken_same ch me i k ps j : same_proc (woken ch me i k ps !!! j) (ps !!! j).
Proof.
  rewrite !list_lookup_total_alt, woken_lookup. destruct (ps !! j) as [p|]; repeat case_match; try done.
  apply wake_one_same.
Qed.

Lemma bframe_woken s me b : bframe s (wake_buf me b s).
Proof.
  unfold wake_buf. rewrite (set_k_procs_ext _ (fun _ => woken (CH_sl (SL_buf b)) (Some me) 0 NPROC (k_procs s)))
    by reflexivity.
  pose proof (length_woken (CH_sl (SL_buf b)) (Some me) 0 NPROC (k_procs s)) as Hl.
  pose proof (woken_same (CH_sl (SL_buf b)) (Some me) 0 NPROC (k_procs s)) as Hs.
  revert Hl Hs. generalize (woken (CH_sl (SL_buf b)) (Some me) 0 NPROC (k_procs s)). intros ps Hl Hs.
  by exists (k_bufs s), (k_disk s), (k_dtrace s), ps.
Qed.

Lemma bframe_world s s' me : bframe s s' -> bworld s me -> bworld s' me.
Proof.
  intros (b & d & t & p & -> & Hl & _) ((H1 & H2 & H3 & H4 & H5 & H6) & Hb & Hs).
  split_and!; [|exact Hb|exact Hs].
  split_and!; [exact H1|exact H2|exact H3|by transitivity (length (k_procs s))|exact H5|exact H6].
Qed.

Lemma bframe_pid s s' me : bframe s s' -> mypid s' me = mypid s me.
Proof.
  intros (b & d & t & p & -> & _ & Hp). exact (f_equal p_pid (Hp me)).
Qed.

Lemma bframe_log s s' : bframe s s' -> k_log s' = k_log s.
Proof. by intros (b & d & t & p & -> & _). Qed.

(** ** The block store *)

(** The operations of the abstract store, run by the process with number
    [pid]; [None] when the operation would block, panic or lose data. *)
Module Store.

Record t := mkstore { act : bmap_t; disk : gmap Z (list Z) }.

(** A block just read: contents, references, lock. *)
Definition got (pid : Z) (st : t) (bno : Z) : option bent :=
  match act st !! bno with
  | Some e =>
      if bool_decide (be_lock e = None) && (be_ref e <? 2 ^ 31 - 1)
      then Some (mkbent (be_data e) (be_ref e + 1) (Some pid)) else None
  | None =>
      if (size (act st) <? NBUF)%nat then Some (mkbent (on_disk (disk st) bno) 1 (Some pid)) else None
  end.

Definition bread (pid bno : Z) (st : t) : option t :=
  if (0 <=? bno) && (bno <? FSSIZE) then
    e ← got pid st bno; Some (mkstore (<[bno := e]> (act st)) (disk st))
  else None.

(** A block that [pid] has locked. *)
Definition mine (pid bno : Z) (st : t) : option bent :=
  e ← act st !! bno; if bool_decide (be_lock e = Some pid) then Some e else None.

Definition update (pid bno : Z) (f : list Z -> list Z) (st : t) : option t :=
  e ← mine pid bno st;
  Some (mkstore (<[bno := mkbent (f (be_data e)) (be_ref e) (be_lock e)]> (act st)) (disk st)).

Definition bwrite (pid bno : Z) (st : t) : option t :=
  e ← mine pid bno st;
  if bno <? FSSIZE then Some (mkstore (act st) (<[bno := be_data e]> (disk st))) else None.

(** The last reference may go only if the disk has the block. *)
Definition brelse (pid bno : Z) (st : t) : option t :=
  e ← mine pid bno st;
  if be_ref e =? 1 then
    if bool_decide (be_data e = on_disk (disk st) bno)
    then Some (mkstore (delete bno (act st)) (disk st)) else None
  else Some (mkstore (<[bno := mkbent (be_data e) (be_ref e - 1) None]> (act st)) (disk st)).

Definition bpin (bno : Z) (st : t) : option t :=
  e ← act st !! bno;
  if be_ref e <? 2 ^ 31 - 1
  then Some (mkstore (<[bno := mkbent (be_data e) (be_ref e + 1) (be_lock e)]> (act st)) (disk st))
  else None.

Definition bunpin (bno : Z) (st : t) : option t :=
  e ← act st !! bno;
  if 1 <? be_ref e
  then Some (mkstore (<[bno := mkbent (be_data e) (be_ref e - 1) (be_lock e)]> (act st)) (disk st))
  else None.

End Store.

(** The store that a kernel state represents. *)
Definition store_rep (s : kstate) (st : Store.t) : Prop :=
  brep s (Store.act st) /\ k_disk s = Store.disk st.

(** Handles of blocks in use stay handles. *)
Definition keeps (st : Store.t) (s s' : kstate) : Prop :=
  forall b bno, handle s b bno -> is_Some (Store.act st !! bno) -> handle s' b bno.

Lemma handle_alter s b g c bno :
  handle s c bno -> (forall x, b_dev (g x) = b_dev x) -> (forall x, b_blockno (g x) = b_blockno x) ->
  handle (set_k_bufs (alter g b) s) c bno.
Proof.
  intros (Hc & Hd & Hn) Hgd Hgn. change (k_bufs (set_k_bufs ?f s)) with (f (k_bufs s)).
  split_and!; [done|..]; change (k_bufs (set_k_bufs (alter g b) s)) with (alter g b (k_bufs s)).
  - by rewrite (proj_alter b_dev).
  - by rewrite (proj_alter b_blockno).
Qed.

Section Ops.
Context (s : kstate) (me : nat) (st : Store.t) (bno : Z).
Context (Hw : bworld s me) (Hs : store_rep s st).

Lemma bread_finish b g e :
  (b < NBUF)%nat -> bget ROOTDEV bno s = Done b (set_k_bufs (alter g b) s) -> 0 <= bno < FSSIZE ->
  (forall x, b_prev (g x) = b_prev x) -> (forall x, b_next (g x) = b_next x) ->
  holds (loaded (k_disk s) (g (k_bufs s !!! b))) bno e -> 0 < be_ref e < 2 ^ 31 ->
  be_lock e = Some (mypid s me) ->
  (forall c, (c < NBUF)%nat -> c <> b -> b_dev (k_bufs s !!! c) = ROOTDEV -> b_blockno (k_bufs s !!! c) <> bno) ->
  (idle (k_bufs s !!! b) (k_disk s) \/ b_dev (k_bufs s !!! b) = ROOTDEV /\ b_blockno (k_bufs s !!! b) = bno) ->
  exists b s', bread ROOTDEV bno s = Done b s' /\ bframe s s' /\
    store_rep s' (Store.mkstore (<[bno := e]> (Store.act st)) (Store.disk st)) /\
    handle s' b bno /\ keeps st s s' /\ k_dtrace s' = k_dtrace s.
Proof.
  intros Hb Hg Hbno Hgp Hgn Hh Hre Hle Hoth Hwas. destruct Hs as [Hr Hd].
  assert (Hlk : b_lock (loaded (k_disk s) (g (k_bufs s !!! b))) = b_lock (g (k_bufs s !!! b)) /\
                b_blockno (loaded (k_disk s) (g (k_bufs s !!! b))) = b_blockno (g (k_bufs s !!! b)))
    by (unfold loaded; by case_match).
  destruct Hlk as [Hlk Hbk]. pose proof (ho_lock _ _ _ Hh) as Hl. rewrite Hlk, Hle in Hl.
  destruct Hl as [Hl1 Hl2]. rewrite (ho_bno _ _ _ Hh) in Hbk.
  assert (Hhe : held (set_k_bufs (alter g b) s) me b).
  { split_and!; [done| | |]; change (k_bufs (set_k_bufs (alter g b) s)) with (alter g b (k_bufs s)).
    - by rewrite length_alter, (rep_len Hr).
    - rewrite (alter_eq _ _ _ _ _ Hr Hb). lia.
    - by rewrite (alter_eq _ _ _ _ _ Hr Hb). }
  exists b. eexists. split; [apply (bread_after_bget s me _ _ b g Hw Hg Hhe); lia|].
  set (h := fun x => loaded (k_disk s) (g x)).
  assert (Hhp : forall x, b_prev (h x) = b_prev x) by (intros x; unfold h, loaded; case_match; apply Hgp).
  assert (Hhn : forall x, b_next (h x) = b_next x) by (intros x; unfold h, loaded; case_match; apply Hgn).
  split_and!; [apply bframe_bufs| | | |done].
  - split; [|exact Hd]. exact (rep_set _ _ _ b h Hr Hb Hhp Hhn bno e Hh Hre Hoth Hwas).
  - split_and!; [done| |]; change (k_bufs (set_k_bufs (alter h b) s)) with (alter h b (k_bufs s));
      rewrite (alter_eq _ _ _ _ _ Hr Hb); apply Hh.
  - intros c bno' (Hc & Hcd & Hcn) [e' He'].
    split_and!; [done| |]; change (k_bufs (set_k_bufs (alter h b) s)) with (alter h b (k_bufs s));
      (destruct (decide (c = b)) as [->|Hne];
       [rewrite (alter_eq _ _ _ _ _ Hr Hb)|by rewrite lookup_total_alter_ne by done]); [apply Hh|].
    etransitivity; [exact (ho_bno _ _ _ Hh)|]. destruct Hwas as [Hi|[_ Hx]]; [|congruence].
    pose proof (rep_holds Hr b bno' e' Hb Hcd Hcn He') as Hh'.
    pose proof (br_ref _ _ _ Hr _ _ He'). pose proof (ho_ref _ _ _ Hh'). pose proof (id_ref _ _ Hi). lia.
Qed.

Lemma bread_ref st' :
  Store.bread (mypid s me) bno st = Some st' ->
  exists b s', bread ROOTDEV bno s = Done b s' /\ bframe s s' /\ store_rep s' st' /\
    handle s' b bno /\ keeps st s s' /\ k_dtrace s' = k_dtrace s.
Proof.
  unfold Store.bread. destruct ((0 <=? bno) && (bno <? FSSIZE)) eqn:Er; [|done].
  apply andb_true_iff in Er as [Hr1%Z.leb_le Hr2%Z.ltb_lt].
  intros (e & He & [= <-])%bind_Some. unfold Store.got in He.
  pose proof Hs as [Hr Hd]. destruct (br_list _ _ _ Hr) as [order Ho].
  pose proof (rep_find Hr order bno Ho) as Hf.
  destruct (List.find (matches (k_bufs s) ROOTDEV bno) order) as [b|] eqn:Ef.
  - (* cached *)
    destruct Hf as (Hb & Hbd & Hbn).
    assert (Hx : holds (loaded (k_disk s) (ref_taken (mypid s me) (k_bufs s !!! b))) bno e /\
                 0 < be_ref e < 2 ^ 31 /\ be_lock e = Some (mypid s me) /\
                 sl_locked (b_lock (k_bufs s !!! b)) = 0).
    { destruct (Store.act st !! bno) as [e0|] eqn:Ea.
      - case_match eqn:Eg; [|done]. injection He as <-.
        apply andb_true_iff in Eg as [El%bool_decide_eq_true Er%Z.ltb_lt].
        pose proof (rep_holds Hr b bno e0 Hb Hbd Hbn Ea) as Hh.
        pose proof (br_ref _ _ _ Hr _ _ Ea). pose proof (ho_lock _ _ _ Hh) as Hl. rewrite El in Hl.
        split_and!; simpl; try lia; [|done|done].
        unfold loaded. change (b_valid (ref_taken ?p ?x)) with (b_valid x).
        rewrite (ho_valid _ _ _ Hh). split; try apply Hh; try done.
        change (b_refcnt (ref_taken ?p ?x)) with (u32 (b_refcnt x + 1)).
        rewrite (ho_ref _ _ _ Hh). by rewrite u32_small by lia.
      - case_match eqn:Eg; [|done]. injection He as <-.
        pose proof (rep_idle Hr b bno Hb Hbd Hbn Ea) as Hi.
        split_and!; simpl; try lia; [|done|apply Hi].
        rewrite <- Hd, <- Hbn. unfold loaded. change (b_valid (ref_taken ?p ?x)) with (b_valid x).
        destruct (b_valid (k_bufs s !!! b)) eqn:Ev; split; try done; simpl;
          try (change (b_refcnt (ref_taken ?p ?x)) with (u32 (b_refcnt x + 1))); rewrite ?(id_ref _ _ Hi); try done.
        by apply Hi. }
    destruct Hx as (Hh & Hre & Hle & Hl).
    apply (bread_finish b (ref_taken (mypid s me)) e); try done; [| |by right].
    + by apply (bget_hit s me order).
    + intros c Hc Hne Hcd Hcn. apply Hne, (br_uniq _ _ _ Hr); congruence.
  - (* recycled *)
    destruct Hf as [Ha Hno]. rewrite Ha in He. case_match eqn:Esz; [|done]. injection He as <-.
    apply Nat.ltb_lt in Esz. destruct (rep_free Hr order Ho Esz) as (b & Hu & Hb & Hi).
    apply (bread_finish b (recycled ROOTDEV bno (mypid s me))); try done; [| |by intros; apply Hno|by left].
    + by apply (bget_miss s me order); [..|apply Hi].
    + rewrite <- Hd. by split.
Qed.


(** The operations on a block the process has read. *)
Context (b : nat) (Hb : handle s b bno).

Lemma mine_held e :
  Store.mine (mypid s me) bno st = Some e ->
  Store.act st !! bno = Some e /\ be_lock e = Some (mypid s me) /\
  holds (k_bufs s !!! b) bno e /\ held s me b.
Proof.
  intros (e0 & Ha & He)%bind_Some. case_bool_decide as Hl; [|done]. injection He as <-.
  destruct Hs as [Hr Hd]. destruct Hb as (Hlt & Hbd & Hbn).
  pose proof (rep_holds Hr b bno e0 Hlt Hbd Hbn Ha) as Hh.
  pose proof (ho_lock _ _ _ Hh) as Hlk. rewrite Hl in Hlk. destruct Hlk as [H1 H2].
  split_and!; [done..|]. split_and!; [done|apply (rep_len Hr)|lia|done].
Qed.

Lemma others c : (c < NBUF)%nat -> c <> b -> b_dev (k_bufs s !!! c) = ROOTDEV -> b_blockno (k_bufs s !!! c) <> bno.
Proof.
  intros Hc Hne Hcd Hcn. destruct Hs as [Hr _]. destruct Hb as (Hlt & Hbd & Hbn).
  apply Hne, (br_uniq _ _ _ Hr); congruence.
Qed.

(** A change of the data, the reference count or the lock of the buffer. *)
Lemma change_ref g e e' :
  Store.act st !! bno = Some e -> holds (k_bufs s !!! b) bno e -> holds (g (k_bufs s !!! b)) bno e' ->
  0 < be_ref e' < 2 ^ 31 ->
  (forall x, b_prev (g x) = b_prev x) -> (forall x, b_next (g x) = b_next x) ->
  (forall x, b_dev (g x) = b_dev x) -> (forall x, b_blockno (g x) = b_blockno x) ->
  let s' := set_k_bufs (alter g b) s in
  bframe s s' /\ store_rep s' (Store.mkstore (<[bno := e']> (Store.act st)) (Store.disk st)) /\
  keeps st s s' /\ k_dtrace s' = k_dtrace s.
Proof.
  intros Ha Hh Hh' Hre Hgp Hgn Hgd Hgb s'. destruct Hs as [Hr Hd]. pose proof Hb as (Hlt & Hbd & Hbn).
  split_and!; [apply bframe_bufs| | |done].
  - split; [|exact Hd].
    apply (rep_set _ _ _ b g Hr Hlt Hgp Hgn bno e' Hh' Hre others). by right.
  - intros c bno' Hc _. by apply handle_alter.
Qed.

Lemma update_ref f st' :
  Store.update (mypid s me) bno f st = Some st' ->
  exists s', setbuf b (set_b_data f) s = Done tt s' /\ bframe s s' /\ store_rep s' st' /\
    keeps st s s' /\ k_dtrace s' = k_dtrace s.
Proof.
  intros (e & He & [= <-])%bind_Some. destruct (mine_held _ He) as (Ha & Hl & Hh & _).
  eexists. split; [reflexivity|].
  apply (change_ref (set_b_data f) e); try done.
  - destruct Hh. split; try done. simpl. by f_equal.
  - destruct Hs as [Hr _]. exact (br_ref _ _ _ Hr _ _ Ha).
Qed.

Lemma bwrite_ref st' :
  Store.bwrite (mypid s me) bno st = Some st' ->
  exists s', bwrite b s = Done tt s' /\ bframe s s' /\ store_rep s' st' /\ keeps st s s' /\
    k_dtrace s' = (bno, on_disk (Store.disk st') bno) :: k_dtrace s.
Proof.
  intros (e & He & Hx)%bind_Some. destruct (mine_held _ He) as (Ha & Hl & Hh & Hhe).
  case_match eqn:El; [|done]. injection Hx as <-. apply Z.ltb_lt in El.
  pose proof (ho_bno _ _ _ Hh) as Hbn. pose proof (ho_data _ _ _ Hh) as Hdt.
  destruct Hs as [Hr Hd]. eexists. split; [apply (bwrite_eq s me b Hw Hhe); lia|].
  rewrite Hbn, Hdt. split_and!; [apply bframe_disk| | |].
  - split; [|simpl; change (k_disk (disk_put bno (be_data e) s)) with (<[bno:=be_data e]> (k_disk s)); by rewrite Hd].
    exact (rep_write _ _ _ _ _ Hr Ha).
  - intros c bno' Hc _. exact Hc.
  - unfold on_disk. simpl. by rewrite lookup_insert_eq.
Qed.

Lemma bpin_ref st' :
  Store.bpin bno st = Some st' ->
  exists s', bpin b s = Done tt s' /\ bframe s s' /\ store_rep s' st' /\ keeps st s s' /\
    k_dtrace s' = k_dtrace s.
Proof.
  intros (e & Ha & Hx)%bind_Some. case_match eqn:El; [|done]. injection Hx as <-. apply Z.ltb_lt in El.
  destruct Hs as [Hr Hd]. pose proof Hb as (Hlt & Hbd & Hbn).
  pose proof (rep_holds Hr b bno e Hlt Hbd Hbn Ha) as Hh. pose proof (br_ref _ _ _ Hr _ _ Ha).
  eexists. split; [by apply (bpin_eq s me)|]. apply (change_ref _ e); try done; simpl; [|lia].
  destruct Hh as [H1 H2 H3 H4 H5 H6]. split; try done. simpl. rewrite H5, u32_small by lia. done.
Qed.

Lemma bunpin_ref st' :
  Store.bunpin bno st = Some st' ->
  exists s', bunpin b s = Done tt s' /\ bframe s s' /\ store_rep s' st' /\ keeps st s s' /\
    k_dtrace s' = k_dtrace s.
Proof.
  intros (e & Ha & Hx)%bind_Some. case_match eqn:El; [|done]. injection Hx as <-. apply Z.ltb_lt in El.
  destruct Hs as [Hr Hd]. pose proof Hb as (Hlt & Hbd & Hbn).
  pose proof (rep_holds Hr b bno e Hlt Hbd Hbn Ha) as Hh. pose proof (br_ref _ _ _ Hr _ _ Ha).
  eexists. split; [by apply (bunpin_eq s me)|]. apply (change_ref _ e); try done; simpl; [|lia].
  destruct Hh as [H1 H2 H3 H4 H5 H6]. split; try done. simpl. rewrite H5, u32_small by lia. done.
Qed.

(** What [dropped] does to the map, before the list is changed. *)
Lemma dropped_rep st' :
  Store.brelse (mypid s me) bno st = Some st' ->
  brep_bufs (dropped b (k_bufs s)) (k_disk s) (Store.act st') /\ Store.disk st' = Store.disk st.
Proof.
  intros (e & He & Hx)%bind_Some. destruct (mine_held _ He) as (Ha & Hl & Hh & _).
  destruct Hs as [Hr Hd]. pose proof Hb as (Hlt & Hbd & Hbn). pose proof (br_ref _ _ _ Hr _ _ Ha) as Hre.
  case_match eqn:E1.
  - case_bool_decide as Hdk; [|done]. injection Hx as <-. split; [|done]. apply Z.eqb_eq in E1.
    apply (rep_drop _ _ _ b _ Hr Hlt) with e; try done. destruct Hh as [H1 H2 H3 H4 H5 H6].
    split; simpl; [by rewrite H5, E1|done|]. intros _ _. by rewrite H4, H2, Hd.
  - injection Hx as <-. split; [|done]. apply Z.eqb_neq in E1.
    apply (rep_set _ _ _ b _ Hr Hlt); try done; simpl; [|lia|apply others|by right].
    destruct Hh as [H1 H2 H3 H4 H5 H6]. split; try done. simpl. rewrite H5, u32_small by lia. done.
Qed.

Lemma released_strip i : strip (released b (k_bufs s) !!! i) = strip (dropped b (k_bufs s) !!! i).
Proof. unfold released. case_match; [|done]. by rewrite strip_push_front, strip_unlink. Qed.

Lemma brelse_ref st' :
  Store.brelse (mypid s me) bno st = Some st' ->
  exists s', brelse b s = Done tt s' /\ bframe s s' /\ store_rep s' st' /\ keeps st s s' /\
    k_dtrace s' = k_dtrace s.
Proof.
  intros Hx. destruct (dropped_rep _ Hx) as [Hdr Hdd]. pose proof Hb as (Hlt & _).
  apply bind_Some in Hx as (e & He & _). destruct (mine_held _ He) as (Ha & Hl & Hh & Hhe).
  eexists. split; [by apply (brelse_eq s me)|]. split_and!; [| | |done].
  - eapply bframe_trans; [apply bframe_woken|apply bframe_bufs].
  - split; [|destruct Hs as [_ Hd]; by rewrite Hdd, <- Hd].
    eapply rep_strip; [exact Hdr| |exact released_strip].
    destruct (br_list _ _ _ Hdr) as [o Ho].
    change (exists order, blist (released b (k_bufs s)) order). unfold released. case_match; [|by exists o].
    exists (front b o). by apply blist_front.
  - intros c bno' (Hc & Hcd & Hcn) _.
    destruct (strip_fields _ _ (released_strip c)) as (_ & Ed & En & _).
    split_and!; [done| |]; change (k_bufs (set_k_bufs (released b) (wake_buf me b s))) with (released b (k_bufs s)).
    + rewrite Ed. unfold dropped. by rewrite (proj_alter b_dev).
    + rewrite En. unfold dropped. by rewrite (proj_alter b_blockno).
Qed.

End Ops.

(** ** [binit] builds the empty store *)

Definition fresh_lock : sleeplock -> sleeplock := fun _ => mksleeplock 0 "buffer" 0.

Lemma alter_comm (f g : buf -> buf) i j (l : list buf) :
  (forall x, f (g x) = g (f x)) -> alter f i (alter g j l) = alter g j (alter f i l).
Proof.
  intros Hfg. apply list_eq. intros k.
  destruct (decide (i = k)) as [->|]; destruct (decide (j = k)) as [->|];
    rewrite ?list_lookup_alter_eq, ?list_lookup_alter_ne, ?list_lookup_alter_eq,
      ?list_lookup_alter_ne by done; try done.
  destruct (l !! k); simpl; by rewrite ?Hfg.
Qed.

Lemma setlock_bufs l g f s : setlock l g (set_k_bufs f s) = set_k_bufs f (setlock l g s).
Proof. reflexivity. Qed.

Definition slock_init (b : nat) (s : kstate) : kstate :=
  setlock (L_sl (SL_buf b)) (fun _ => mkspinlock 0 "sleep lock" None) s.

Definition binit_buf (b : nat) (bufs : list buf) : list buf :=
  alter (set_b_lock fresh_lock) b (push_front b bufs).

(** One iteration of the loop. *)
Lemma binit_loop_step b k s :
  b <> NBUF ->
  binit_loop b (S k) s = binit_loop (S b) k (set_k_bufs (binit_buf b) (slock_init b s)).
Proof.
  intros Hb. cbn [binit_loop]. unfold link_front, initsleeplock, initlock, getbuf, setbuf, setsl.
  erewrite bind_done by (kstep; reflexivity).
  erewrite bind_done by (kstep; reflexivity). kstep. f_equal.
  rewrite !set_set_k_bufs, setlock_bufs, !set_set_k_bufs. apply set_k_bufs_ext.
  change (k_bufs (set_k_bufs ?f ?x)) with (f (k_bufs x)).
  change (k_bufs (setlock _ _ s)) with (k_bufs s). unfold binit_buf, push_front.
  set (bufs1 := alter (set_b_prev (fun _ => NBUF)) b _).
  rewrite !list_alter_alter.
  assert (b_next (alter (fun x => set_b_lock (set_sl_pid (fun _ => 0)) (set_b_lock (set_sl_locked (fun _ => 0))
      (set_b_lock (set_sl_name (fun _ => "buffer"%string)) x))) b bufs1 !!! NBUF) = b_next (bufs1 !!! NBUF)) as ->
    by (by apply (proj_alter b_next)).
  rewrite (alter_comm (set_b_lock fresh_lock)), (alter_comm (set_b_lock fresh_lock)) by done.
  done.
Qed.

(** The buffers [0 .. i-1] are linked, all buffers are unused. *)
Definition binit_inv (i : nat) (bufs : list buf) : Prop :=
  length bufs = S NBUF /\ dll bufs NBUF (rev (seq 0 i)) NBUF /\
  forall b, (b < NBUF)%nat -> b_refcnt (bufs !!! b) = 0 /\ b_dev (bufs !!! b) = 0 /\
    sl_locked (b_lock (bufs !!! b)) = 0.

Lemma binit_inv_step i bufs :
  binit_inv i bufs -> (i < NBUF)%nat -> binit_inv (S i) (binit_buf i bufs).
Proof.
  intros (Hlen & Hd & Hz) Hi. unfold binit_buf.
  assert (Hlp : length (push_front i bufs) = S NBUF) by (by rewrite length_push_front).
  split_and!.
  - by rewrite length_alter.
  - rewrite seq_S, rev_app_distr. change (rev [0 + i]%nat ++ rev (seq 0 i)) with (i :: rev (seq 0 i)).
    apply (dll_alter (push_front i bufs)); [done..|].
    apply push_front_dll; [|constructor|done].
    + intros j Hj. rewrite elem_of_cons, elem_of_cons, list_elem_of_In, <- in_rev, in_seq in Hj. lia.
    + rewrite elem_of_cons, list_elem_of_In, <- in_rev, in_seq. lia.
    + constructor; [rewrite list_elem_of_In, <- in_rev, in_seq; lia|].
      apply NoDup_ListNoDup, List.NoDup_rev, seq_NoDup.
  - intros b Hb. pose proof (strip_fields _ _ (strip_push_front i b bufs)) as (_ & Ed & _ & El & Er & _).
    destruct (Hz b Hb) as (Z1 & Z2 & Z3). split_and!.
    { etransitivity; [by apply (proj_alter b_refcnt)|]. etransitivity; [exact Er|exact Z1]. }
    { etransitivity; [by apply (proj_alter b_dev)|]. etransitivity; [exact Ed|exact Z2]. }
    destruct (decide (b = i)) as [->|]; [by rewrite lookup_total_alter_eq by lia|].
    rewrite lookup_total_alter_ne by done. etransitivity; [exact (f_equal sl_locked El)|exact Z3].
Qed.

(** What [binit] changes: the buffers and the locks. *)
Definition initialised (s s' : kstate) (L : lockid -> Prop) : Prop :=
  (exists bufs locks, s' = set_k_locks (fun _ => locks) (set_k_bufs (fun _ => bufs) s)) /\
  forall l, lock_free s l \/ L l -> lock_free s' l.

Lemma initialised_trans s1 s2 s3 (L1 L2 : lockid -> Prop) :
  initialised s1 s2 L1 -> initialised s2 s3 L2 -> initialised s1 s3 (fun l => L1 l \/ L2 l).
Proof.
  intros ((b & k & ->) & H1) ((b' & k' & ->) & H2). split; [by exists b', k'|].
  intros l [Hl|[Hl|Hl]]; apply H2; auto.
Qed.

Lemma initialised_lock s l nm f :
  initialised s (set_k_bufs f (setlock l (fun _ => mkspinlock 0 nm None) s)) (eq l).
Proof.
  split; [by exists (f (k_bufs s)), (<[l := mkspinlock 0 nm None]> (k_locks s))|].
  intros l' Hl. unfold lock_free.
  change (k_locks (set_k_bufs f (setlock l ?g s))) with (<[l := g (default spinlock0 (k_locks s !! l))]> (k_locks s)).
  destruct (decide (l = l')) as [<-|Hne]; [exists nm; by rewrite lookup_insert_eq|].
  rewrite lookup_insert_ne by done. by destruct Hl as [[nm' Hl]|]; [exists nm'|].
Qed.

Lemma binit_loop_spec k i s :
  (i + k = NBUF)%nat -> binit_inv i (k_bufs s) ->
  exists s', binit_loop i k s = Done tt s' /\ binit_inv NBUF (k_bufs s') /\
    initialised s s' (fun l => exists j, (i <= j < NBUF)%nat /\ l = L_sl (SL_buf j)).
Proof.
  revert i s. induction k as [|k IH]; intros i s Hik Hi.
  - exists s. split_and!; [done|by replace NBUF with i by lia|]. split; [by exists (k_bufs s), (k_locks s)|].
    intros l [?|(j & ? & _)]; [done|lia].
  - rewrite binit_loop_step by lia.
    destruct (IH (S i) (set_k_bufs (binit_buf i) (slock_init i s))) as (s' & E & Hinv & Hin); [lia| |].
    { apply (binit_inv_step i (k_bufs s)); [done|lia]. }
    exists s'. split_and!; [done..|].
    destruct (initialised_trans _ _ _ _ _ (initialised_lock s _ _ (binit_buf i)) Hin) as [H1 H2].
    split; [done|]. intros l Hl. apply H2. destruct Hl as [?|(j & Hj & ->)]; [by left|right].
    destruct (decide (i = j)) as [->|]; [by left|]. right. exists j. split; [lia|done].
Qed.

Lemma binit_spec s me :
  quiet s me -> k_bufs s = replicate (S NBUF) buf0 ->
  exists s', binit s = Done tt s' /\ bworld s' me /\ store_rep s' (Store.mkstore ∅ (k_disk s)) /\
    k_procs s' = k_procs s /\ k_log s' = k_log s /\ blist (k_bufs s') (rev (seq 0 NBUF)).
Proof.
  intros Hq Hz. unfold binit, initlock, setbuf. kstep.
  set (s1 := set_k_bufs _ (set_k_bufs _ (setlock L_bcache _ s))).
  assert (Hb1 : k_bufs s1 = alter (set_b_next (fun _ => NBUF)) NBUF
                 (alter (set_b_prev (fun _ => NBUF)) NBUF (replicate (S NBUF) buf0))) by (by rewrite <- Hz).
  destruct (binit_loop_spec NBUF 0 s1) as (s' & E & (Hlen & Hd & Hall) & Hin); [lia| |].
  { rewrite Hb1. split_and!.
    - by rewrite !length_alter, length_replicate.
    - split; links; rewrite ?length_alter, ?length_replicate; try (unfold NBUF; lia); done.
    - intros b Hb. rewrite !lookup_total_alter_ne by lia.
      rewrite lookup_total_replicate_2 by lia. done. }
  assert (Hin1 : initialised s s1 (eq L_bcache)) by (unfold s1; rewrite set_set_k_bufs; apply initialised_lock).
  destruct (initialised_trans _ _ _ _ _ Hin1 Hin) as [(bufs & locks & Es') Hfree].
  assert (Hbl : blist (k_bufs s') (rev (seq 0 NBUF))) by (split_and!; [done|done|by rewrite <- Permutation_rev]).
  exists s'. split_and!; [exact E| | |by rewrite Es'|by rewrite Es'|exact Hbl].
  - destruct Hq as (H1 & H2 & H3 & H4 & H5 & H6).
    split; [|split; [apply Hfree; right; by left|]].
    + split; [rewrite Es'; exact H1|]. split; [rewrite Es'; exact H2|]. split; [rewrite Es'; exact H3|].
      split; [rewrite Es'; exact H4|]. split; [exact H5|].
      intros i Hi. apply Hfree. left. exact (H6 i Hi).
    + intros i Hi. apply Hfree. right. right. exists i. split; [lia|done].
  - split; [|by rewrite Es']. split.
    + by exists (rev (seq 0 NBUF)).
    + intros bno e He. cbn [Store.act] in He. by rewrite lookup_empty in He.
    + intros b Hb. right. destruct (Hall b Hb) as (R1 & R2 & R3). split; [done|done|].
      rewrite R2. done.
    + intros a b Ha Hb Hda. destruct (Hall a Ha) as (_ & R2 & _). rewrite R2 in Hda. done.
    + intros bno e He. cbn [Store.act] in He. by rewrite lookup_empty in He.
Qed.

(** ** Simulation *)
Module BcacheRefines.

(** A client of the cache: it reads blocks, changes and writes the ones it
    has locked, releases and pins them. *)
Inductive bop :=
| Oread (bno : Z)
| Oupdate (bno : Z) (f : list Z -> list Z)
| Owrite (bno : Z)
| Orelse (bno : Z)
| Opin (bno : Z)
| Ounpin (bno : Z).

Definition astep (pid : Z) (o : bop) (st : Store.t) : option Store.t :=
  match o with
  | Oread bno => Store.bread pid bno st
  | Oupdate bno f => Store.update pid bno f st
  | Owrite bno => Store.bwrite pid bno st
  | Orelse bno => Store.brelse pid bno st
  | Opin bno => Store.bpin bno st
  | Ounpin bno => Store.bunpin bno st
  end.

Fixpoint aruns (pid : Z) (ops : list bop) (st : Store.t) : option Store.t :=
  match ops with
  | [] => Some st
  | o :: ops' => st' ← astep pid o st; aruns pid ops' st'
  end.

(** The same with the kernel's functions; [h] is where the client keeps the
    buffer pointers it was given. *)
Definition on (h : gmap Z nat) (bno : Z) (m : nat -> K unit) : K (gmap Z nat) :=
  match h !! bno with
  | Some b => m b;; ret h
  | None => panic "no such buffer"
  end.

Definition cstep (o : bop) (h : gmap Z nat) : K (gmap Z nat) :=
  match o with
  | Oread bno => b <- bread ROOTDEV bno;; ret (<[bno := b]> h)
  | Oupdate bno f => on h bno (fun b => setbuf b (set_b_data f))
  | Owrite bno => on h bno bwrite
  | Orelse bno => on h bno brelse
  | Opin bno => on h bno bpin
  | Ounpin bno => on h bno bunpin
  end.

Fixpoint cruns (ops : list bop) (h : gmap Z nat) : K (gmap Z nat) :=
  match ops with
  | [] => ret h
  | o :: ops' => h' <- cstep o h;; cruns ops' h'
  end.

(** The client has the buffer of every block in use. *)
Definition covers (h : gmap Z nat) (s : kstate) (st : Store.t) : Prop :=
  forall bno, is_Some (Store.act st !! bno) -> exists b, h !! bno = Some b /\ handle s b bno.

(** The blocks in use after a step were in use before, except a block read. *)
Lemma astep_dom pid o st st' bno :
  astep pid o st = Some st' -> is_Some (Store.act st' !! bno) ->
  is_Some (Store.act st !! bno) \/ o = Oread bno.
Proof.
  intros Hs Hi.
  destruct o as [b|b f|b|b|b|b]; simpl in Hs;
    [unfold Store.bread in Hs; case_match; [|done]; apply bind_Some in Hs as (e & He & [= <-])|
     unfold Store.update in Hs; apply bind_Some in Hs as (e & (e0 & He & _)%bind_Some & [= <-])|
     unfold Store.bwrite in Hs; apply bind_Some in Hs as (e & He & Hs); case_match; [|done]; injection Hs as <-; by left|
     unfold Store.brelse in Hs; apply bind_Some in Hs as (e & (e0 & He & _)%bind_Some & Hs)|
     unfold Store.bpin in Hs; apply bind_Some in Hs as (e & He & Hs); case_match; [|done]; injection Hs as <-|
     unfold Store.bunpin in Hs; apply bind_Some in Hs as (e & He & Hs); case_match; [|done]; injection Hs as <-];
    simpl in *.
  - destruct (decide (b = bno)) as [->|]; [by right|]. rewrite lookup_insert_ne in Hi by done. by left.
  - left. destruct (decide (b = bno)) as [->|]; [by rewrite He|]. by rewrite lookup_insert_ne in Hi.
  - left. destruct (decide (b = bno)) as [->|]; [by rewrite He|].
    repeat case_match; simplify_eq; simpl in *;
      [by rewrite lookup_delete_ne in Hi|by rewrite lookup_insert_ne in Hi].
  - left. destruct (decide (b = bno)) as [->|]; [by rewrite He|]. by rewrite lookup_insert_ne in Hi.
  - left. destruct (decide (b = bno)) as [->|]; [by rewrite He|]. by rewrite lookup_insert_ne in Hi.
Qed.

(** A step that works on a block in use. *)
Lemma astep_block pid o st st' :
  astep pid o st = Some st' ->
  match o with
  | Oread _ => True
  | Oupdate bno _ | Owrite bno | Orelse bno | Opin bno | Ounpin bno => is_Some (Store.act st !! bno)
  end.
Proof.
  destruct o; simpl; unfold Store.update, Store.bwrite, Store.brelse, Store.bpin, Store.bunpin, Store.mine;
    intros Hs; repeat (apply bind_Some in Hs as (? & Hs & _)); try done; by rewrite Hs.
Qed.

Lemma on_ref h s me st st' bno m :
  bworld s me -> covers h s st -> is_Some (Store.act st !! bno) ->
  (forall b, handle s b bno -> exists s', m b s = Done tt s' /\ bframe s s' /\ store_rep s' st' /\ keeps st s s') ->
  exists s', on h bno m s = Done h s' /\ bframe s s' /\ store_rep s' st' /\ keeps st s s'.
Proof.
  intros Hw Hc Hi Hm. destruct (Hc bno Hi) as (b & Hh & Hb). unfold on. rewrite Hh.
  destruct (Hm b Hb) as (s' & E & Hf). exists s'. by rewrite (bind_done _ _ _ _ _ E).
Qed.

Lemma cstep_ref o h s me st st' :
  bworld s me -> store_rep s st -> covers h s st -> astep (mypid s me) o st = Some st' ->
  exists h' s', cstep o h s = Done h' s' /\ bframe s s' /\ store_rep s' st' /\ covers h' s' st'.
Proof.
  intros Hw Hs Hc Ha. pose proof (astep_block _ _ _ _ Ha) as Hblk.
  pose proof (fun bno => astep_dom _ _ _ _ bno Ha) as Hdom.
  assert (Hon : forall bno m, cstep o h = on h bno m -> (forall x, o <> Oread x) ->
    is_Some (Store.act st !! bno) ->
    (forall b, handle s b bno -> exists s', m b s = Done tt s' /\ bframe s s' /\ store_rep s' st' /\ keeps st s s') ->
    exists h' s', cstep o h s = Done h' s' /\ bframe s s' /\ store_rep s' st' /\ covers h' s' st').
  { intros bno m -> Hno Hi Hm. destruct (on_ref h s me st st' bno m Hw Hc Hi Hm) as (s' & E & Hf & Hs' & Hk).
    exists h, s'. split_and!; [done..|]. intros x Hx. destruct (Hdom x Hx) as [Hx'|Hx']; [|by destruct (Hno x)].
    destruct (Hc x Hx') as (b & Hb & Hbh). exists b. split; [done|]. by apply Hk. }
  destruct o as [bno|bno f|bno|bno|bno|bno]; simpl in Ha.
  - destruct (bread_ref s me st bno Hw Hs _ Ha) as (b & s' & E & Hf & Hs' & Hb & Hk & _).
    exists (<[bno := b]> h), s'. split_and!; [simpl; by rewrite (bind_done _ _ _ _ _ E)|done..|].
    intros x Hx. destruct (decide (bno = x)) as [<-|Hne].
    + exists b. by rewrite lookup_insert_eq.
    + rewrite lookup_insert_ne by done. destruct (Hdom x Hx) as [Hx'|]; [|congruence].
      destruct (Hc x Hx') as (c & Hch & Hcb). exists c. split; [done|]. by apply Hk.
  - eapply Hon; [reflexivity|done|done|]. intros b Hb.
    destruct (update_ref s me st bno Hs b Hb _ _ Ha) as (s' & ? & ? & ? & ? & _). by exists s'.
  - eapply Hon; [reflexivity|done|done|]. intros b Hb.
    destruct (bwrite_ref s me st bno Hw Hs b Hb _ Ha) as (s' & ? & ? & ? & ? & _). by exists s'.
  - eapply Hon; [reflexivity|done|done|]. intros b Hb.
    destruct (brelse_ref s me st bno Hw Hs b Hb _ Ha) as (s' & ? & ? & ? & ? & _). by exists s'.
  - eapply Hon; [reflexivity|done|done|]. intros b Hb.
    destruct (bpin_ref s me st bno Hw Hs b Hb _ Ha) as (s' & ? & ? & ? & ? & _). by exists s'.
  - eapply Hon; [reflexivity|done|done|]. intros b Hb.
    destruct (bunpin_ref s me st bno Hw Hs b Hb _ Ha) as (s' & ? & ? & ? & ? & _). by exists s'.
Qed.

Lemma cruns_ref ops h s me st st' :
  bworld s me -> store_rep s st -> covers h s st -> aruns (mypid s me) ops st = Some st' ->
  exists h' s', cruns ops h s = Done h' s' /\ bframe s s' /\ store_rep s' st' /\ covers h' s' st'.
Proof.
  revert h s st. induction ops as [|o ops IH]; intros h s st Hw Hs Hc Ha; simpl in Ha.
  - injection Ha as <-. exists h, s. split_and!; try done. apply bframe_refl.
  - apply bind_Some in Ha as (st1 & H1 & H2).
    destruct (cstep_ref o h s me st st1 Hw Hs Hc H1) as (h1 & s1 & E1 & Hf1 & Hs1 & Hc1).
    rewrite <- (bframe_pid _ _ _ Hf1) in H2.
    destruct (IH h1 s1 st1 (bframe_world _ _ _ Hf1 Hw) Hs1 Hc1 H2) as (h2 & s2 & E2 & Hf2 & Hs2 & Hc2).
    exists h2, s2. cbn [cruns]. rewrite (bind_done _ _ _ _ _ E1).
    split_and!; [done| |done|done]. by eapply bframe_trans.
Qed.

(** C5: the buffer cache refines the block store. From a kernel with zeroed
    buffers, [binit] followed by any sequence of [bread], [bwrite], [brelse],
    [bpin], [bunpin] and changes of locked buffers that the abstract store
    accepts runs to completion (no panic, no blocking) and leaves the cache and
    the disk representing the abstract result: contents, reference counts and
    locks of the blocks in use, and the disk. *)
Theorem bcache_refines ops s me st' :
  quiet s me -> k_bufs s = replicate (S NBUF) buf0 ->
  aruns (mypid s me) ops (Store.mkstore ∅ (k_disk s)) = Some st' ->
  exists h' s', (binit;; cruns ops ∅) s = Done h' s' /\ store_rep s' st' /\
    (forall bno e, Store.act st' !! bno = Some e ->
       exists b, h' !! bno = Some b /\ b_data (k_bufs s' !!! b) = be_data e /\
         b_refcnt (k_bufs s' !!! b) = be_ref e).
Proof.
  intros Hq Hz Ha. destruct (binit_spec s me Hq Hz) as (s1 & E1 & Hw1 & Hs1 & Hp1 & _).
  assert (Hpid : mypid s1 me = mypid s me) by (unfold mypid; by rewrite Hp1).
  rewrite <- Hpid in Ha.
  destruct (cruns_ref ops ∅ s1 me _ st' Hw1 Hs1) as (h2 & s2 & E2 & _ & Hs2 & Hc2); [|done|].
  { intros bno [e He]. cbn [Store.act] in He. by rewrite lookup_empty in He. }
  exists h2, s2. rewrite (bind_done _ _ _ _ _ E1). split_and!; [done..|].
  intros bno e He. destruct (Hc2 bno (mk_is_Some _ _ He)) as (b & Hb & Hlt & Hd & Hn).
  exists b. split; [done|]. destruct Hs2 as [Hr2 _].
  pose proof (rep_holds Hr2 b bno e Hlt Hd Hn He) as Hh.
  split; [exact (ho_data _ _ _ Hh)|exact (ho_ref _ _ _ Hh)].
Qed.

(** Read block 5, change it, write it, release it, read it again. *)
Definition test_ops : list bop :=
  [Oread 5; Oupdate 5 (fun _ => [1; 2; 3]); Owrite 5; Orelse 5; Oread 5].

Lemma bcache_refines_witness :
  exists h' s', (binit;; cruns test_ops ∅) sl_test_state = Done h' s' /\
    k_disk s' !! 5 = Some [1; 2; 3].
Proof.
  assert (Ha : exists st', aruns (mypid sl_test_state 3) test_ops
      (Store.mkstore ∅ (k_disk sl_test_state)) = Some st' /\ Store.disk st' !! 5 = Some [1; 2; 3])
    by (eexists; split; [vm_compute; reflexivity|vm_compute; reflexivity]).
  destruct Ha as (st' & Ha & Hd).
  destruct (bcache_refines test_ops sl_test_state 3 st' quiet_sl_test eq_refl Ha) as (h' & s' & E & [_ Hs] & _).
  exists h', s'. split; [exact E|]. by rewrite Hs.
Defined.
End BcacheRefines.

(** ** The replacement policy *)
Module BcacheLru.

(** The list of buffers after the releases [rel], newest first, from the order
    [init]. *)
Definition after_releases (init rel : list nat) : list nat := foldr front init rel.

(** Going back in time from the newest release, [c] is met before [b]; buffers
    that have not been released count in the order [init]. *)
Fixpoint more_recent (init rel : list nat) (c b : nat) : Prop :=
  match rel with
  | [] => exists l1 l2 l3, init = l1 ++ c :: l2 ++ b :: l3
  | a :: rel' => c = a \/ b <> a /\ more_recent init rel' c b
  end.

Lemma filter_split (a : nat) l1 l2 l : filter (fun i => i <> a) l = l1 ++ l2 ->
  exists k1 k2, l = k1 ++ k2 /\ filter (fun i => i <> a) k1 = l1 /\ filter (fun i => i <> a) k2 = l2.
Proof.
  revert l1. induction l as [|x l IH]; intros l1 E.
  - symmetry in E. apply app_nil in E as [-> ->]. by exists [], [].
  - destruct (decide (x <> a)) as [Hx|Hx].
    + rewrite filter_cons_True in E by done. destruct l1 as [|y l1].
      * exists [], (x :: l). split; [done|]. split; [done|]. by rewrite filter_cons_True.
      * injection E as -> E. destruct (IH l1 E) as (k1 & k2 & -> & H1 & H2). exists (y :: k1), k2.
        split; [done|]. split; [|done]. rewrite filter_cons_True by done. by rewrite H1.
    + rewrite filter_cons_False in E by done. destruct (IH l1 E) as (k1 & k2 & -> & H1 & H2). exists (x :: k1), k2.
      split; [done|]. split; [|done]. by rewrite filter_cons_False.
Qed.

Lemma filter_before (a c b : nat) l l1 l2 l3 : filter (fun i => i <> a) l = l1 ++ c :: l2 ++ b :: l3 ->
  exists k1 k2 k3, l = k1 ++ c :: k2 ++ b :: k3.
Proof.
  intros E. apply filter_split in E as (k1 & k2 & -> & _ & E2).
  assert (Hx : forall (x : nat) m r, filter (fun i => i <> a) m = x :: r -> exists p q, m = p ++ x :: q /\ filter (fun i => i <> a) q = r).
  { intros x m r. induction m as [|y m IH]; [done|]. destruct (decide (y <> a)) as [Hy|Hy].
    - rewrite filter_cons_True by done. intros [= -> <-]. by exists [], m.
    - rewrite filter_cons_False by done. intros Em. destruct (IH Em) as (p & q & -> & Hq). by exists (y :: p), q. }
  apply Hx in E2 as (p & q & -> & E2). apply filter_split in E2 as (m1 & m2 & -> & _ & E2).
  apply Hx in E2 as (p' & q' & -> & _). exists (k1 ++ p), (m1 ++ p'), q'. by rewrite <- !app_assoc.
Qed.

Lemma after_releases_recent init rel c b l1 l2 l3 : after_releases init rel = l1 ++ c :: l2 ++ b :: l3 -> more_recent init rel c b.
Proof.
  revert l1 l2 l3. induction rel as [|a rel IH]; intros l1 l2 l3 E; cbn [after_releases foldr more_recent] in *; [by exists l1, l2, l3|].
  fold (after_releases init rel) in *. unfold front in *. destruct l1 as [|x l1]; injection E as -> E; [by left|].
  right. split.
  - assert (Hb : b ∈ filter (fun i => i <> x) (after_releases init rel)).
    { rewrite E. apply elem_of_app. right. right. apply elem_of_app. right. left. }
    by apply list_elem_of_filter in Hb as [Hb _].
  - destruct (filter_before _ _ _ _ _ _ _ E) as (k1 & k2 & k3 & E'). by eapply IH.
Qed.


(** The order [binit] leaves: it pushes buffer 0 first. *)
Definition boot_order : list nat := rev (seq 0 NBUF).

Lemma find_rev_last (P : nat -> bool) order b :
  List.find P (rev order) = Some b -> exists l1 l2, order = l1 ++ b :: l2 /\ forall c, c ∈ l2 -> P c = false.
Proof.
  induction order as [|x order IH] using rev_ind; [done|]. rewrite rev_app_distr. cbn.
  destruct (P x) eqn:Ex; [intros [= <-]; exists order, []; by split; [|intros c Hc%elem_of_nil]|].
  intros (l1 & l2 & -> & Hl)%IH. exists l1, (l2 ++ [x]). rewrite <- app_assoc. split; [done|].
  intros c [Hc| ->%list_elem_of_singleton]%elem_of_app; auto.
Qed.

Section Order.
Context (s : kstate) (me : nat) (rel : list nat).
Context (Hw : bworld s me) (Ho : blist (k_bufs s) (after_releases boot_order rel)).

Lemma matches_none dev bno :
  (forall b, (b < NBUF)%nat -> matches (k_bufs s) dev bno b = false) ->
  List.find (matches (k_bufs s) dev bno) (after_releases boot_order rel) = None.
Proof.
  intros H. destruct (List.find _ _) as [b|] eqn:E; [|done]. apply find_some in E as [Hin Hm].
  rewrite <- list_elem_of_In, (blist_lt _ _ _ Ho) in Hin. by rewrite H in Hm.
Qed.

(** The buffer [bget] takes is the unreferenced one released longest ago. *)
Lemma unused_oldest b :
  List.find (unused (k_bufs s)) (rev (after_releases boot_order rel)) = Some b ->
  (b < NBUF)%nat /\ b_refcnt (k_bufs s !!! b) = 0 /\
  forall c, (c < NBUF)%nat -> c <> b -> b_refcnt (k_bufs s !!! c) = 0 -> more_recent boot_order rel c b.
Proof.
  intros E. pose proof E as E'. apply find_some in E' as [Hin Hu].
  rewrite <- in_rev, <- list_elem_of_In, (blist_lt _ _ _ Ho) in Hin. apply Z.eqb_eq in Hu.
  split_and!; [done|done|]. intros c Hc Hne Hr. apply find_rev_last in E as (l1 & l2 & El & Hl).
  apply (blist_lt _ _ _ Ho) in Hc. rewrite El in Hc. apply elem_of_app in Hc as [Hc|[->|Hc]%elem_of_cons]; [|done|].
  - apply list_elem_of_split in Hc as (p & q & ->). eapply after_releases_recent. by rewrite El, <- app_assoc.
  - specialize (Hl c Hc). unfold unused in Hl. by rewrite Hr in Hl.
Qed.

Lemma unused_none :
  List.find (unused (k_bufs s)) (rev (after_releases boot_order rel)) = None ->
  forall c, (c < NBUF)%nat -> b_refcnt (k_bufs s !!! c) <> 0.
Proof.
  intros E c Hc Hr. apply (blist_lt _ _ _ Ho) in Hc.
  assert (Hu := find_none _ _ E c ltac:(by rewrite <- in_rev, <- list_elem_of_In)). unfold unused in Hu. by rewrite Hr in Hu.
Qed.

Lemma brelse_order b :
  held s me b -> 0 < b_refcnt (k_bufs s !!! b) < 2 ^ 32 ->
  exists s', brelse b s = Done tt s' /\ 
    blist (k_bufs s') (after_releases boot_order (if b_refcnt (k_bufs s !!! b) =? 1 then b :: rel else rel)) /\
    forall c, (c < NBUF)%nat -> b_refcnt (k_bufs s' !!! c) = b_refcnt (k_bufs s !!! c) - (if (c =? b)%nat then 1 else 0).
Proof.
  intros Hh Hr. eexists. split; [by apply (brelse_eq s me b)|].
  change (k_bufs (set_k_bufs (released b) ?x)) with (released b (k_bufs s)).
  destruct Hh as (Hb & Hlen & _).
  assert (Ed : b_refcnt (dropped b (k_bufs s) !!! b) = b_refcnt (k_bufs s !!! b) - 1).
  { unfold dropped. rewrite lookup_total_alter_eq by lia. cbn. unfold u32. apply Z.mod_small. lia. }
  assert (Hd : blist (dropped b (k_bufs s)) (after_releases boot_order rel)) by (by apply blist_alter).
  split.
  - unfold released. rewrite Ed. destruct (Z.eqb_spec (b_refcnt (k_bufs s !!! b)) 1) as [E|E].
    + rewrite E. by apply blist_front.
    + rewrite (proj2 (Z.eqb_neq _ 0)) by lia. done.
  - intros c Hc. destruct (strip_fields _ _ (released_strip s b c)) as (_ & _ & _ & _ & -> & _).
    destruct (Nat.eqb_spec c b) as [-> | Hne]; [exact Ed|]. unfold dropped. rewrite lookup_total_alter_ne by done. lia.
Qed.
End Order.

(** C33: replacement is least-recently-used. The history [rel] lists the
    buffers whose last reference was dropped, newest first; [binit] starts with
    none. [bget] of a block that is not cached takes an unreferenced buffer such
    that every other unreferenced buffer was released more recently, and panics
    exactly when every buffer is referenced. [bget] of a cached block whose
    buffer is not locked takes one more reference. Neither changes the history.
    [brelse] of a buffer the process holds drops one reference of that buffer
    and of no other: it adds the buffer to the history when that was its last
    reference, and leaves the history alone when it was not. *)
Theorem bcache_lru s me rel :
  bworld s me -> blist (k_bufs s) (after_releases boot_order rel) ->
  (forall b, (b < NBUF)%nat -> b_refcnt (k_bufs s !!! b) = 0 -> sl_locked (b_lock (k_bufs s !!! b)) = 0) ->
  (forall s0, quiet s0 me -> k_bufs s0 = replicate (S NBUF) buf0 ->
     exists s1, binit s0 = Done tt s1 /\ bworld s1 me /\ blist (k_bufs s1) (after_releases boot_order [])) /\
  (forall dev bno, (forall b, (b < NBUF)%nat -> matches (k_bufs s) dev bno b = false) ->
     (exists b s', (b < NBUF)%nat /\ b_refcnt (k_bufs s !!! b) = 0 /\
        (forall c, (c < NBUF)%nat -> c <> b -> b_refcnt (k_bufs s !!! c) = 0 -> more_recent boot_order rel c b) /\
        bget dev bno s = Done b s' /\ blist (k_bufs s') (after_releases boot_order rel) /\
        b_dev (k_bufs s' !!! b) = dev /\ b_blockno (k_bufs s' !!! b) = bno /\
        b_valid (k_bufs s' !!! b) = false /\ b_refcnt (k_bufs s' !!! b) = 1) \/
     (forall c, (c < NBUF)%nat -> b_refcnt (k_bufs s !!! c) <> 0) /\
     exists s', bget dev bno s = Panic "bget: no buffers" s') /\
  (forall dev bno b, List.find (matches (k_bufs s) dev bno) (after_releases boot_order rel) = Some b ->
     sl_locked (b_lock (k_bufs s !!! b)) = 0 ->
     exists s', bget dev bno s = Done b s' /\ blist (k_bufs s') (after_releases boot_order rel) /\
       b_refcnt (k_bufs s' !!! b) = u32 (b_refcnt (k_bufs s !!! b) + 1)) /\
  (forall b, held s me b -> 0 < b_refcnt (k_bufs s !!! b) < 2 ^ 32 ->
     exists s', brelse b s = Done tt s' /\
       blist (k_bufs s') (after_releases boot_order (if b_refcnt (k_bufs s !!! b) =? 1 then b :: rel else rel)) /\
       forall c, (c < NBUF)%nat -> b_refcnt (k_bufs s' !!! c) = b_refcnt (k_bufs s !!! c) - (if (c =? b)%nat then 1 else 0)).
Proof.
  intros Hw Ho Hun. pose proof Ho as (Hlen & _). split_and!.
  - intros s0 Hq0 Hz. destruct (binit_spec s0 me Hq0 Hz) as (s1 & E & Hw1 & _ & _ & _ & Hl).
    exists s1. split; [exact E|]. split; [exact Hw1|exact Hl].
  - intros dev bno Hm. apply (matches_none _ _ Ho) in Hm.
    destruct (List.find (unused (k_bufs s)) (rev (after_releases boot_order rel))) as [b|] eqn:Eu.
    + left. destruct (unused_oldest _ _ Ho _ Eu) as (Hb & Hr & Hold). exists b. eexists. do 3 (split; [done|]).
      split; [eapply bget_miss; eauto|]. cbn [k_bufs set_k_bufs].
      rewrite lookup_total_alter_eq by lia. split_and!; try done. by apply blist_alter.
    + right. split; [by apply (unused_none _ _ Ho)|]. eexists. by eapply bget_full.
  - intros dev bno b Hf Hl. eexists. split; [by eapply bget_hit|]. pose proof Hf as [Hin _]%find_some.
    rewrite <- list_elem_of_In, (blist_lt _ _ _ Ho) in Hin. cbn [k_bufs set_k_bufs]. split; [by apply blist_alter|].
    by rewrite lookup_total_alter_eq by lia.
  - by apply brelse_order.
Qed.

(** The kernel after [binit]. *)
Definition lru_boot_state : kstate :=
  match binit sl_test_state with Done _ s => s | _ => sl_test_state end.

Lemma lru_boot_world : bworld lru_boot_state 3.
Proof.
  destruct (binit_spec sl_test_state 3 quiet_sl_test eq_refl) as (s1 & E & Hw & _).
  unfold lru_boot_state. by rewrite E.
Qed.

(** Block 5 was read into buffer 0 and released, then block 6 was read into
    buffer 1, which the process still holds. *)
Definition lru_test_state : kstate :=
  set_k_bufs (fun bufs =>
    match (b <- bget 1 5 ;; brelse b ;; bget 1 6) lru_boot_state with Done _ s => k_bufs s | _ => bufs end) lru_boot_state.

Lemma lru_test_world : bworld lru_test_state 3.
Proof. apply bworld_bufs, lru_boot_world. Qed.

Lemma lru_test_list : blist (k_bufs lru_test_state) (after_releases boot_order [0%nat]).
Proof.
  split_and!; [vm_compute; reflexivity|vm_compute; repeat split|].
  change (after_releases boot_order [0%nat]) with (0%nat :: rev (seq 1 29)). by rewrite <- Permutation_rev.
Qed.

Lemma lru_test_unlocked b :
  (b < NBUF)%nat -> b_refcnt (k_bufs lru_test_state !!! b) = 0 -> sl_locked (b_lock (k_bufs lru_test_state !!! b)) = 0.
Proof.
  assert (H : Forall (fun x => b_refcnt x = 0 -> sl_locked (b_lock x) = 0) (take NBUF (k_bufs lru_test_state)))
    by (vm_compute; repeat constructor; discriminate).
  intros Hb. rewrite Forall_lookup in H. apply (H b). rewrite lookup_take_lt by done.
  apply list_lookup_lookup_total_nat. rewrite (proj1 lru_test_list). lia.
Qed.

Lemma lru_test_absent b : (b < NBUF)%nat -> matches (k_bufs lru_test_state) 1 7 b = false.
Proof.
  assert (H : Forall (fun b => matches (k_bufs lru_test_state) 1 7 b = false) (seq 0 NBUF))
    by (vm_compute; repeat constructor).
  intros Hb. rewrite Forall_forall in H. apply (H b), elem_of_seq. lia.
Qed.

(** Block 7 goes to buffer 2, since buffer 1 is referenced and buffer 0 was
    released after it; releasing buffer 1 makes it the newest release. *)
Lemma bcache_lru_witness :
  (exists s', bget 1 7 lru_test_state = Done 2%nat s') /\
  exists s', brelse 1 lru_test_state = Done tt s' /\ blist (k_bufs s') (after_releases boot_order [1%nat; 0%nat]).
Proof.
  destruct (bcache_lru lru_test_state 3 _ lru_test_world lru_test_list lru_test_unlocked) as (_ & Hg & _ & Hr). split.
  - destruct (Hg 1 7) as [(b & s' & Hb & Hz & Hold & E & _)|[H _]].
    + exact lru_test_absent.
    + exists s'. destruct (decide (b = 2%nat)) as [-> | Hne]; [exact E|].
      assert (Ht : exists s2, bget 1 7 lru_test_state = Done 2%nat s2) by (eexists; vm_compute; reflexivity).
      destruct Ht as [s2 E2]. rewrite E2 in E. injection E as <- _. by destruct Hne.
    + exfalso. apply (H 2%nat); [unfold NBUF; lia|vm_compute; reflexivity].
  - destruct (Hr 1%nat) as (s' & E & Hl & _).
    + split_and!; [unfold NBUF; lia|vm_compute; reflexivity|vm_compute; discriminate|vm_compute; reflexivity].
    + vm_compute. done.
    + exists s'. split; [exact E|].
      replace (b_refcnt (k_bufs lru_test_state !!! 1%nat)) with 1 in Hl by (vm_compute; reflexivity). exact Hl.
Defined.
End BcacheLru.
