(* ===== verification/Log.v ===== *)
(** * The redo log ([kernel/log.c])

    The in-memory log header, the transactions [begin_op]/[end_op], the
    on-disk log and its recovery. The theorems are about the sequence of disk
    writes a commit makes, and what recovery does after a crash between any
    two of them. *)

From stdpp Require Import gmap strings list.
From Stdlib Require Import ZArith Lia.
From S2P Require Import Prelude KState Spinlock Sched SleepLock Bio.
Open Scope Z_scope.
Import Spinlock Sched SleepLock Bio.

Module Log.

Definition getlog : K log := gets k_log.
Definition setlog (g : log -> log) : K unit := modify (set_k_log g).

(** [log.lh.block[i]], an array of [LOGSIZE] ints. *)
Definition log_block (l : log) (i : Z) : K Z :=
  if i <? LOGSIZE then ret (lg_block l !!! Z.to_nat i) else out_of_bounds "log.lh.block".
Definition set_log_block (i v : Z) : K unit :=
  if i <? LOGSIZE then setlog (set_lg_block (insert (Z.to_nat i) (s32 v)))
  else out_of_bounds "log.lh.block".

(** Copy the contents of one buffer to another. *)
Definition buf_copy (dst src : nat) : K unit :=
  sb <- getbuf src;;
  setbuf dst (set_b_data (fun _ => b_data sb)).

Fixpoint install_trans_loop (recovering : bool) (tail : Z) (fuel : nat) : K unit :=
  match fuel with
  | O => nofuel
  | S f =>
      l <- getlog;;
      if negb (tail <? lg_n l) then ret tt else
      lbuf <- bread (u32 (lg_dev l)) (u32 (lg_start l + tail + 1));;
      l <- getlog;;
      blk <- log_block l tail;;
      dbuf <- bread (u32 (lg_dev l)) (u32 blk);;
      buf_copy dbuf lbuf;;
      bwrite dbuf;;
      when (negb recovering) (bunpin dbuf);;
      brelse lbuf;;
      brelse dbuf;;
      install_trans_loop recovering (tail + 1) f
  end.

(** Loops over the log header run at most [LOGSIZE] times: the header array
    has that many entries, and going past it stops the model. *)
Definition log_fuel : nat := S (S (Z.to_nat LOGSIZE)).

Definition install_trans (recovering : bool) : K unit :=
  install_trans_loop recovering 0 log_fuel.

(** [struct logheader] on disk: [n], then the block numbers. *)
Fixpoint read_head_loop (data : list Z) (i : Z) (fuel : nat) : K unit :=
  match fuel with
  | O => nofuel
  | S f =>
      l <- getlog;;
      if negb (i <? lg_n l) then ret tt else
      set_log_block i (get32 data (4 + 4 * i));;
      read_head_loop data (i + 1) f
  end.

Definition read_head : K unit :=
  l <- getlog;;
  b <- bread (u32 (lg_dev l)) (u32 (lg_start l));;
  bf <- getbuf b;;
  setlog (set_lg_n (fun _ => s32 (get32 (b_data bf) 0)));;
  read_head_loop (b_data bf) 0 log_fuel;;
  brelse b.

Fixpoint write_head_loop (b : nat) (i : Z) (fuel : nat) : K unit :=
  match fuel with
  | O => nofuel
  | S f =>
      l <- getlog;;
      if negb (i <? lg_n l) then ret tt else
      blk <- log_block l i;;
      setbuf b (set_b_data (put32 (4 + 4 * i) (u32 blk)));;
      write_head_loop b (i + 1) f
  end.

Definition write_head : K unit :=
  l <- getlog;;
  b <- bread (u32 (lg_dev l)) (u32 (lg_start l));;
  l <- getlog;;
  setbuf b (set_b_data (put32 0 (u32 (lg_n l))));;
  write_head_loop b 0 log_fuel;;
  bwrite b;;
  brelse b.

Definition recover_from_log : K unit :=
  read_head;;
  install_trans true;;
  setlog (set_lg_n (fun _ => 0));;
  write_head.

(** [sizeof(struct logheader)] is [4 + 4 * LOGSIZE]. *)
Definition initlog (dev : Z) (sb : superblock) : K unit :=
  if 4 + 4 * LOGSIZE >=? BSIZE then panic "initlog: too big logheader" else
  initlock L_log "log";;
  setlog (set_lg_start (fun _ => s32 (sb_logstart sb)));;
  setlog (set_lg_size (fun _ => s32 (sb_nlog sb)));;
  setlog (set_lg_dev (fun _ => dev));;
  recover_from_log.

Fixpoint begin_op_loop (fuel : nat) : K unit :=
  match fuel with
  | O => nofuel
  | S f =>
      l <- getlog;;
      if lg_committing l then sleep CH_log L_log;; begin_op_loop f
      else if lg_n l + (lg_outstanding l + 1) * MAXOPBLOCKS >? LOGSIZE then
        sleep CH_log L_log;; begin_op_loop f
      else
        setlog (set_lg_outstanding (fun n => n + 1));;
        release L_log
  end.

Definition begin_op : K unit :=
  acquire L_log;;
  begin_op_loop sleep_fuel.

Fixpoint write_log_loop (tail : Z) (fuel : nat) : K unit :=
  match fuel with
  | O => nofuel
  | S f =>
      l <- getlog;;
      if negb (tail <? lg_n l) then ret tt else
      to <- bread (u32 (lg_dev l)) (u32 (lg_start l + tail + 1));;
      l <- getlog;;
      blk <- log_block l tail;;
      from <- bread (u32 (lg_dev l)) (u32 blk);;
      buf_copy to from;;
      bwrite to;;
      brelse from;;
      brelse to;;
      write_log_loop (tail + 1) f
  end.

Definition write_log : K unit := write_log_loop 0 log_fuel.

Definition commit : K unit :=
  l <- getlog;;
  when (lg_n l >? 0)
    (write_log;;
     write_head;;
     install_trans false;;
     setlog (set_lg_n (fun _ => 0));;
     write_head).

Definition end_op : K unit :=
  acquire L_log;;
  setlog (set_lg_outstanding (fun n => n - 1));;
  l <- getlog;;
  if lg_committing l then panic "log.committing" else
  do_commit <-
    (if lg_outstanding l =? 0 then
       setlog (set_lg_committing (fun _ => true));; ret true
     else wakeup CH_log;; ret false);;
  release L_log;;
  when do_commit
    (commit;;
     acquire L_log;;
     setlog (set_lg_committing (fun _ => false));;
     wakeup CH_log;;
     release L_log).

(** The absorption scan of [log_write]: the first index holding [blockno], or
    [lh.n]. *)
Fixpoint log_absorb (blocks : list Z) (blockno i : Z) (k : nat) : Z :=
  match k with
  | O => i
  | S k' => if u32 (blocks !!! Z.to_nat i) =? blockno then i
            else log_absorb blocks blockno (i + 1) k'
  end.

Definition log_write (b : nat) : K unit :=
  acquire L_log;;
  l <- getlog;;
  if (lg_n l >=? LOGSIZE) || (lg_n l >=? lg_size l - 1) then
    panic "too big a transaction" else
  if lg_outstanding l <? 1 then panic "log_write outside of trans" else
  bf <- getbuf b;;
  let i := log_absorb (lg_block l) (b_blockno bf) 0 (Z.to_nat (lg_n l)) in
  set_log_block i (b_blockno bf);;
  when (i =? lg_n l)
    (bpin b;;
     setlog (set_lg_n (fun n => n + 1)));;
  release L_log.

End Log.
