(* ===== verification/LogProps.v ===== *)
(** * What the log guarantees

    A commit is a fixed sequence of block writes; whichever prefix of it
    reaches the disk before a crash, [initlog] brings the disk to the state
    before or after the whole transaction. The proofs work on the block store
    of [Bcache]. *)

From stdpp Require Import gmap strings list.
From Stdlib Require Import ZArith Lia.
From S2P Require Import Prelude KState Spinlock Sched SleepLock Bio Bcache Log.
Open Scope Z_scope.
Import Spinlock Sched SleepLock Bio Log SpinlockProps SchedProps SleepLockProps BioProps.

#[local] Opaque NPROC.

(** ** Runs on the block store *)

Section Run.
Context (s0 : kstate) (me : nat) (Hw0 : bworld s0 me).

(** The kernel has come from [s0] to [s] through the buffer cache alone: the
    store is now [act] and [disk], the buffers [hs] are handles of blocks in
    use, and the blocks [ws] were written, in that order. *)
Record run (act : bmap_t) (disk : gmap Z (list Z)) (hs : list (nat * Z))
    (ws : list (Z * list Z)) (s : kstate) : Prop := {
  r_frame : bframe s0 s;
  r_rep : store_rep s (Store.mkstore act disk);
  r_hs : forall b bno, In (b, bno) hs -> handle s b bno /\ is_Some (act !! bno);
  r_tr : k_dtrace s = rev ws ++ k_dtrace s0 }.

Let pid := mypid s0 me.

Section Step.
Context (act : bmap_t) (disk : gmap Z (list Z)) (hs : list (nat * Z)) (ws : list (Z * list Z)).
Context (s : kstate) (R : run act disk hs ws s).

Lemma run_world : bworld s me.
Proof. exact (bframe_world _ _ _ (r_frame _ _ _ _ _ R) Hw0). Qed.

Lemma run_pid : mypid s me = pid.
Proof. exact (bframe_pid _ _ _ (r_frame _ _ _ _ _ R)). Qed.

Lemma run_log : k_log s = k_log s0.
Proof. exact (bframe_log _ _ (r_frame _ _ _ _ _ R)). Qed.

(** One operation on block [bno]: the handles kept are among the old ones and
    the one it returns. *)
Lemma run_next act' disk' hs' w s' :
  bframe s s' -> store_rep s' (Store.mkstore act' disk') -> keeps (Store.mkstore act disk) s s' ->
  k_dtrace s' = rev w ++ k_dtrace s ->
  (forall b bno, In (b, bno) hs' -> is_Some (act' !! bno) /\ (In (b, bno) hs \/ handle s' b bno)) ->
  run act' disk' hs' (ws ++ w) s'.
Proof.
  intros F R' Kp T Hhs. constructor; [by eapply bframe_trans, F; apply (r_frame _ _ _ _ _ R)|done|..].
  - intros b bno Hi. destruct (Hhs b bno Hi) as [Ha [Ho|Ho]]; [|done].
    split; [|done]. destruct (r_hs _ _ _ _ _ R b bno Ho). by apply Kp.
  - by rewrite T, (r_tr _ _ _ _ _ R), rev_app_distr, app_assoc.
Qed.

Lemma run_same act' disk' hs' s' :
  bframe s s' -> store_rep s' (Store.mkstore act' disk') -> keeps (Store.mkstore act disk) s s' ->
  k_dtrace s' = k_dtrace s ->
  (forall b bno, In (b, bno) hs' -> is_Some (act' !! bno) /\ (In (b, bno) hs \/ handle s' b bno)) ->
  run act' disk' hs' ws s'.
Proof.
  intros F R' Kp T Hhs. rewrite <- (app_nil_r ws). by apply (run_next _ _ _ [] s').
Qed.

Lemma grown bno e (b : nat) x : In (b, x) hs -> is_Some (<[bno := e]> act !! x).
Proof.
  intros Hi. destruct (r_hs _ _ _ _ _ R b x Hi) as [_ H].
  apply lookup_insert_is_Some. destruct (decide (bno = x)); eauto.
Qed.

(** Reading a block that nobody uses, and a block that is pinned. *)
Lemma run_new bno :
  0 <= bno < FSSIZE -> act !! bno = None -> (size act < NBUF)%nat ->
  exists b s', bread ROOTDEV bno s = Done b s' /\
    run (<[bno := mkbent (on_disk disk bno) 1 (Some pid)]> act) disk ((b, bno) :: hs) ws s'.
Proof.
  intros Hb Ha Hsz.
  destruct (bread_ref s me _ bno run_world (r_rep _ _ _ _ _ R) (Store.mkstore
     (<[bno := mkbent (on_disk disk bno) 1 (Some pid)]> act) disk)) as (b & s' & E & F & R' & H1 & Kp & T).
  { unfold Store.bread, Store.got. cbn [Store.act Store.disk]. rewrite Ha, run_pid.
    rewrite (proj2 (Z.leb_le _ _)), (proj2 (Z.ltb_lt _ _)) by lia. cbn [andb].
    by rewrite (proj2 (Nat.ltb_lt _ _)). }
  exists b, s'. split; [exact E|]. apply (run_same _ _ _ _ F R' Kp T).
  intros b' x [[= -> ->]|Hi]; [|by split; [eapply grown|left]].
  split; [rewrite lookup_insert_eq; eauto|by right].
Qed.

Lemma run_pinned bno D r :
  0 <= bno < FSSIZE -> act !! bno = Some (mkbent D r None) -> r < 2 ^ 31 - 1 ->
  exists b s', bread ROOTDEV bno s = Done b s' /\
    run (<[bno := mkbent D (r + 1) (Some pid)]> act) disk ((b, bno) :: hs) ws s'.
Proof.
  intros Hb Ha Hr.
  destruct (bread_ref s me _ bno run_world (r_rep _ _ _ _ _ R) (Store.mkstore
     (<[bno := mkbent D (r + 1) (Some pid)]> act) disk)) as (b & s' & E & F & R' & H1 & Kp & T).
  { unfold Store.bread, Store.got. cbn [Store.act Store.disk]. rewrite Ha, run_pid.
    rewrite (proj2 (Z.leb_le _ _)), (proj2 (Z.ltb_lt _ _)) by lia. cbn [andb be_lock be_ref].
    by rewrite bool_decide_true, (proj2 (Z.ltb_lt _ _)) by done. }
  exists b, s'. split; [exact E|]. apply (run_same _ _ _ _ F R' Kp T).
  intros b' x [[= -> ->]|Hi]; [|by split; [eapply grown|left]].
  split; [rewrite lookup_insert_eq; eauto|by right].
Qed.

(** Operations on a block whose lock the process holds. *)
Context (b : nat) (bno : Z) (D : list Z) (r : Z).
Context (Hb : In (b, bno) hs) (Ha : act !! bno = Some (mkbent D r (Some pid))).

Lemma run_handle : handle s b bno.
Proof. exact (proj1 (r_hs _ _ _ _ _ R b bno Hb)). Qed.

Lemma mine_eq : Store.mine (mypid s me) bno (Store.mkstore act disk) = Some (mkbent D r (Some pid)).
Proof. unfold Store.mine. cbn [Store.act]. rewrite Ha, run_pid. simpl. by rewrite bool_decide_true. Qed.

Lemma run_data : b_data (k_bufs s !!! b) = D.
Proof.
  destruct (r_rep _ _ _ _ _ R) as [Hr _]. destruct run_handle as (Hb' & Hd & Hn).
  exact (ho_data _ _ _ (rep_holds Hr b bno _ Hb' Hd Hn Ha)).
Qed.

Lemma run_set f :
  exists s', setbuf b (set_b_data f) s = Done tt s' /\
    run (<[bno := mkbent (f D) r (Some pid)]> act) disk hs ws s'.
Proof.
  destruct (update_ref s me _ bno (r_rep _ _ _ _ _ R) b run_handle f (Store.mkstore
     (<[bno := mkbent (f D) r (Some pid)]> act) disk)) as (s' & E & F & R' & Kp & T).
  { unfold Store.update. by rewrite mine_eq. }
  exists s'. split; [exact E|]. apply (run_same _ _ _ _ F R' Kp T).
  intros b' x Hi. split; [by eapply grown|by left].
Qed.

Lemma run_write :
  bno < FSSIZE ->
  exists s', bwrite b s = Done tt s' /\ run act (<[bno := D]> disk) hs (ws ++ [(bno, D)]) s'.
Proof.
  intros Hlt. destruct (bwrite_ref s me _ bno run_world (r_rep _ _ _ _ _ R) b run_handle
    (Store.mkstore act (<[bno := D]> disk))) as (s' & E & F & R' & Kp & T).
  { unfold Store.bwrite. rewrite mine_eq. simpl. by rewrite (proj2 (Z.ltb_lt _ _)). }
  exists s'. split; [exact E|]. apply (run_next _ _ _ [(bno, D)] s' F R' Kp).
  - rewrite T. unfold on_disk. cbn [Store.disk]. by rewrite lookup_insert_eq.
  - intros b' x Hi. split; [exact (proj2 (r_hs _ _ _ _ _ R b' x Hi))|by left].
Qed.

Lemma run_drop_last hs' :
  r = 1 -> D = on_disk disk bno ->
  (forall b' x, In (b', x) hs' -> In (b', x) hs /\ x <> bno) ->
  exists s', brelse b s = Done tt s' /\ run (delete bno act) disk hs' ws s'.
Proof.
  intros Hr Hd Hhs. destruct (brelse_ref s me _ bno run_world (r_rep _ _ _ _ _ R) b run_handle
    (Store.mkstore (delete bno act) disk)) as (s' & E & F & R' & Kp & T).
  { unfold Store.brelse. rewrite mine_eq. simpl. by rewrite Hr, bool_decide_true. }
  exists s'. split; [exact E|]. apply (run_same _ _ _ _ F R' Kp T).
  intros b' x Hi. destruct (Hhs b' x Hi) as [Hi' Hx]. split; [|by left].
  rewrite lookup_delete_ne by congruence. exact (proj2 (r_hs _ _ _ _ _ R b' x Hi')).
Qed.

Lemma run_drop_one :
  r <> 1 ->
  exists s', brelse b s = Done tt s' /\ run (<[bno := mkbent D (r - 1) None]> act) disk hs ws s'.
Proof.
  intros Hr. destruct (brelse_ref s me _ bno run_world (r_rep _ _ _ _ _ R) b run_handle (Store.mkstore
     (<[bno := mkbent D (r - 1) None]> act) disk)) as (s' & E & F & R' & Kp & T).
  { unfold Store.brelse. rewrite mine_eq. simpl. by rewrite (proj2 (Z.eqb_neq _ _)). }
  exists s'. split; [exact E|]. apply (run_same _ _ _ _ F R' Kp T).
  intros b' x Hi. split; [by eapply grown|by left].
Qed.

Lemma run_unpin :
  1 < r ->
  exists s', bunpin b s = Done tt s' /\ run (<[bno := mkbent D (r - 1) (Some pid)]> act) disk hs ws s'.
Proof.
  intros Hr. destruct (bunpin_ref s me _ bno run_world (r_rep _ _ _ _ _ R) b run_handle (Store.mkstore
     (<[bno := mkbent D (r - 1) (Some pid)]> act) disk)) as (s' & E & F & R' & Kp & T).
  { unfold Store.bunpin. cbn [Store.act Store.disk]. rewrite Ha. simpl. by rewrite (proj2 (Z.ltb_lt _ _)). }
  exists s'. split; [exact E|]. apply (run_same _ _ _ _ F R' Kp T).
  intros b' x Hi. split; [by eapply grown|by left].
Qed.

Lemma run_pin :
  r < 2 ^ 31 - 1 ->
  exists s', bpin b s = Done tt s' /\ run (<[bno := mkbent D (r + 1) (Some pid)]> act) disk hs ws s'.
Proof.
  intros Hr. destruct (bpin_ref s me _ bno run_world (r_rep _ _ _ _ _ R) b run_handle (Store.mkstore
     (<[bno := mkbent D (r + 1) (Some pid)]> act) disk)) as (s' & E & F & R' & Kp & T).
  { unfold Store.bpin. cbn [Store.act Store.disk]. rewrite Ha. simpl. by rewrite (proj2 (Z.ltb_lt _ _)). }
  exists s'. split; [exact E|]. apply (run_same _ _ _ _ F R' Kp T).
  intros b' x Hi. split; [by eapply grown|by left].
Qed.
End Step.

(** ** The loops of the log *)

(** What the header of the log holds: the home blocks of the transaction. *)
Record log_at (l : log) (start : Z) (blocks : list Z) : Prop := {
  la_dev : lg_dev l = ROOTDEV;
  la_start : lg_start l = start;
  la_n : lg_n l = Z.of_nat (length blocks);
  la_len : length (lg_block l) = Z.to_nat LOGSIZE;
  la_block : take (length blocks) (lg_block l) = blocks;
  la_max : Z.of_nat (length blocks) < LOGSIZE;
  la_range : 0 <= start /\ start + LOGSIZE <= FSSIZE }.

Lemma la_lookup l start blocks i h :
  log_at l start blocks -> blocks !! i = Some h -> lg_block l !!! i = h.
Proof.
  intros Hl Hi. apply list_lookup_total_correct. rewrite <- (la_block _ _ _ Hl) in Hi.
  apply lookup_take_Some in Hi. tauto.
Qed.

Section Iter.
Context (start : Z) (blocks : list Z) (Hlog : log_at (k_log s0) start blocks).
Context (i : nat) (h : Z) (Hi : blocks !! i = Some h) (Hh : 0 <= h < FSSIZE).
Context (act : bmap_t) (disk : gmap Z (list Z)) (ws : list (Z * list Z)) (s : kstate).
Context (R : run act disk [] ws s) (Hsz : (size act < NBUF)%nat).

Let lb := start + Z.of_nat i + 1.
Context (Hlb : act !! lb = None) (Hne : lb <> h).

Lemma i_lt : (i < length blocks)%nat.
Proof using Hi. by eapply lookup_lt_Some. Qed.

Lemma lb_range : 0 <= lb < FSSIZE.
Proof.
  pose proof i_lt. pose proof (la_max _ _ _ Hlog). pose proof (la_range _ _ _ Hlog). unfold lb. lia.
Qed.

Lemma lb_u32 : u32 (start + Z.of_nat i + 1) = lb.
Proof. pose proof lb_range. apply u32_small. unfold lb in *. unfold FSSIZE in *. lia. Qed.

Lemma h_u32 : u32 h = h.
Proof. apply u32_small. unfold FSSIZE in *. lia. Qed.

Lemma log_block_eq s' : log_block (k_log s0) (Z.of_nat i) s' = Done h s'.
Proof using Hlog Hi pid.
  clear Hsz. unfold log_block. pose proof i_lt. pose proof (la_max _ _ _ Hlog).
  rewrite (proj2 (Z.ltb_lt _ _)) by lia. unfold ret. rewrite Nat2Z.id.
  by rewrite (la_lookup _ _ _ _ _ Hlog Hi).
Qed.

(** The two reads both loops start with: the log block, then the home block. *)
Lemma log_reads act' (f : nat -> nat -> K unit) :
  (forall lbuf s1, run (<[lb := mkbent (on_disk disk lb) 1 (Some pid)]> act) disk [(lbuf, lb)] ws s1 ->
     exists hbuf s2, bread ROOTDEV h s1 = Done hbuf s2 /\
       run act' disk [(hbuf, h); (lbuf, lb)] ws s2) ->
  exists lbuf hbuf s2, run act' disk [(hbuf, h); (lbuf, lb)] ws s2 /\
    (l <- getlog;;
     if negb (Z.of_nat i <? lg_n l) then ret tt else
     x <- bread (u32 (lg_dev l)) (u32 (lg_start l + Z.of_nat i + 1));;
     l <- getlog;;
     blk <- log_block l (Z.of_nat i);;
     y <- bread (u32 (lg_dev l)) (u32 blk);;
     f x y) s = f lbuf hbuf s2.
Proof.
  intros Hrd. unfold getlog. kstep. prw (run_log _ _ _ _ _ R).
  prw (la_n _ _ _ Hlog). rewrite (proj2 (Z.ltb_lt _ _)) by (pose proof i_lt; lia). kstep.
  prw (la_dev _ _ _ Hlog). prw (la_start _ _ _ Hlog). rewrite lb_u32.
  change (u32 ROOTDEV) with ROOTDEV.
  destruct (run_new _ _ _ _ _ R lb lb_range Hlb Hsz) as (lbuf & s1 & E1 & R1).
  destruct (Hrd lbuf s1 R1) as (hbuf & s2 & E2 & R2). exists lbuf, hbuf, s2. split; [exact R2|].
  rewrite (bind_done _ _ _ _ _ E1). kstep. prw (run_log _ _ _ _ _ R1).
  rewrite (bind_done _ _ _ _ _ (log_block_eq s1)). prw (la_dev _ _ _ Hlog). rewrite h_u32.
  change (u32 ROOTDEV) with ROOTDEV. by rewrite (bind_done _ _ _ _ _ E2).
Qed.

(** [buf_copy] onto a block whose lock the process holds. *)
Lemma copy_step act1 disk1 hs ws1 s1 dst src d e D D' r r' :
  run act1 disk1 hs ws1 s1 -> In (dst, d) hs -> In (src, e) hs ->
  act1 !! d = Some (mkbent D r (Some pid)) -> act1 !! e = Some (mkbent D' r' (Some pid)) ->
  exists s2, buf_copy dst src s1 = Done tt s2 /\
    run (<[d := mkbent D' r (Some pid)]> act1) disk1 hs ws1 s2.
Proof.
  intros R1 Hd He Ad Ae. unfold buf_copy, getbuf. kstep.
  destruct (run_set _ _ _ _ _ R1 dst d D r Hd Ad (fun _ => b_data (k_bufs s1 !!! src))) as (s2 & E & R2).
  exists s2. split; [exact E|]. by rewrite (run_data _ _ _ _ _ R1 src e D' r' He Ae) in R2.
Qed.

(** An iteration of [write_log] copies a pinned home block to its log block. *)
Lemma write_log_iter D r fuel :
  act !! h = Some (mkbent D r None) -> 0 < r < 2 ^ 31 - 1 ->
  exists s', write_log_loop (Z.of_nat i) (S fuel) s = write_log_loop (Z.of_nat i + 1) fuel s' /\
    run act (<[lb := D]> disk) [] (ws ++ [(lb, D)]) s'.
Proof.
  intros Hah Hr. cbn [write_log_loop]. pose proof lb_range as Hlr.
  edestruct log_reads as (to & from & s2 & R2 & ->).
  { intros lbuf s1 R1. apply (run_pinned _ _ _ _ _ R1 h D r Hh); [by rewrite lookup_insert_ne|lia]. }
  edestruct (copy_step _ _ _ _ _ to from lb h (on_disk disk lb) D 1 (r + 1) R2) as (s3 & E3 & R3);
    [simpl; auto|simpl; auto|rewrite lookup_insert_ne, lookup_insert_eq by done; reflexivity
    |by rewrite lookup_insert_eq|].
  rewrite (bind_done _ _ _ _ _ E3).
  edestruct (run_write _ _ _ _ _ R3 to lb) as (s4 & E4 & R4);
    [simpl; auto|by rewrite lookup_insert_eq|lia|].
  rewrite (bind_done _ _ _ _ _ E4).
  edestruct (run_drop_one _ _ _ _ _ R4 from h) as (s5 & E5 & R5);
    [simpl; auto|rewrite lookup_insert_ne, lookup_insert_eq by done; reflexivity|lia|].
  rewrite (bind_done _ _ _ _ _ E5).
  edestruct (run_drop_last _ _ _ _ _ R5 to lb) with (hs' := @nil (nat * Z)) as (s6 & E6 & R6);
    [simpl; auto|rewrite lookup_insert_ne, lookup_insert_eq by done; reflexivity|done
    |unfold on_disk; by rewrite lookup_insert_eq|done|].
  rewrite (bind_done _ _ _ _ _ E6). exists s6. split; [reflexivity|].
  replace act with (delete lb (<[h:=mkbent D (r + 1 - 1) None]> (<[lb:=mkbent D 1 (Some pid)]>
      (<[h:=mkbent D (r + 1) (Some pid)]> (<[lb:=mkbent (on_disk disk lb) 1 (Some pid)]> act))))); [exact R6|].
  replace (r + 1 - 1) with r by lia. apply map_eq. intros x.
  destruct (decide (x = lb)) as [->|]; [by rewrite lookup_delete_eq|].
  rewrite lookup_delete_ne by done. destruct (decide (x = h)) as [->|]; [by rewrite lookup_insert_eq|].
  by rewrite !lookup_insert_ne by done.
Qed.

(** An iteration of [install_trans] copies a log block to its home block, and
    gives up the pin that [log_write] took, except during recovery. *)
Definition installable (recovering : bool) : Prop :=
  if recovering then act !! h = None /\ (S (size act) < NBUF)%nat
  else exists D, act !! h = Some (mkbent D 1 None).

Lemma install_iter recovering fuel :
  installable recovering ->
  exists s', install_trans_loop recovering (Z.of_nat i) (S fuel) s
             = install_trans_loop recovering (Z.of_nat i + 1) fuel s' /\
    run (delete h act) (<[h := on_disk disk lb]> disk) [] (ws ++ [(h, on_disk disk lb)]) s'.
Proof.
  intros Hin. cbn [install_trans_loop]. pose proof lb_range as Hlr.
  set (C := on_disk disk lb). set (r0 := if recovering then 1 else 2).
  assert (Hrd : exists D, forall lbuf s1,
    run (<[lb := mkbent C 1 (Some pid)]> act) disk [(lbuf, lb)] ws s1 ->
    exists hbuf s2, bread ROOTDEV h s1 = Done hbuf s2 /\
      run (<[h := mkbent D r0 (Some pid)]> (<[lb := mkbent C 1 (Some pid)]> act)) disk
        [(hbuf, h); (lbuf, lb)] ws s2).
  { destruct recovering.
    - exists (on_disk disk h). intros lbuf s1 R1. destruct Hin as [Hn Hsz'].
      apply (run_new _ _ _ _ _ R1 h Hh); [by rewrite lookup_insert_ne|].
      by rewrite map_size_insert_None.
    - destruct Hin as [D HD]. exists D. intros lbuf s1 R1.
      apply (run_pinned _ _ _ _ _ R1 h D 1 Hh); [by rewrite lookup_insert_ne|lia]. }
  destruct Hrd as [D Hrd]. destruct (log_reads _ (fun lbuf dbuf => buf_copy dbuf lbuf;; bwrite dbuf;;
    when (negb recovering) (bunpin dbuf);; brelse lbuf;; brelse dbuf;;
    install_trans_loop recovering (Z.of_nat i + 1) fuel) Hrd) as (lbuf & dbuf & s2 & R2 & ->).
  edestruct (copy_step _ _ _ _ _ dbuf lbuf h lb D C r0 1 R2) as (s3 & E3 & R3);
    [simpl; auto|simpl; auto|by rewrite lookup_insert_eq
    |by rewrite lookup_insert_ne, lookup_insert_eq by done|].
  rewrite (bind_done _ _ _ _ _ E3), insert_insert_eq in *.
  edestruct (run_write _ _ _ _ _ R3 dbuf h C r0) as (s4 & E4 & R4);
    [simpl; auto|by rewrite lookup_insert_eq|lia|].
  rewrite (bind_done _ _ _ _ _ E4).
  assert (exists s5, when (negb recovering) (bunpin dbuf) s4 = Done tt s5 /\
    run (<[h := mkbent C 1 (Some pid)]> (<[lb := mkbent C 1 (Some pid)]> act)) (<[h := C]> disk)
      [(dbuf, h); (lbuf, lb)] (ws ++ [(h, C)]) s5) as (s5 & E5 & R5).
  { destruct recovering; [by exists s4|]. simpl negb. unfold when.
    destruct (run_unpin _ _ _ _ _ R4 dbuf h C r0) as (s5 & E5 & R5);
      [simpl; auto|by rewrite lookup_insert_eq|done|].
    exists s5. split; [exact E5|]. by rewrite insert_insert_eq in R5. }
  rewrite (bind_done _ _ _ _ _ E5).
  edestruct (run_drop_last _ _ _ _ _ R5 lbuf lb C 1) with (hs' := [(dbuf, h)]) as (s6 & E6 & R6);
    [simpl; auto|by rewrite lookup_insert_ne, lookup_insert_eq by done|done
    |unfold on_disk; by rewrite lookup_insert_ne by done
    |intros b' x [[= <- <-]|[]]; simpl; auto|].
  rewrite (bind_done _ _ _ _ _ E6).
  rewrite delete_insert_ne, delete_insert_eq, (delete_id act lb) in R6 by done.
  edestruct (run_drop_last _ _ _ _ _ R6 dbuf h C 1) with (hs' := @nil (nat * Z)) as (s7 & E7 & R7);
    [simpl; auto|by rewrite lookup_insert_eq|done|unfold on_disk; by rewrite lookup_insert_eq|done|].
  rewrite (bind_done _ _ _ _ _ E7). exists s7. split; [reflexivity|].
  by rewrite delete_insert_eq in R7.
Qed.
End Iter.

(** ** The loops *)

Section Loops.
Context (start : Z) (tx : list (Z * list Z)) (Hlog : log_at (k_log s0) start tx.*1).

(** The log covers the header block and one block per entry. *)
Definition in_log (x : Z) : Prop := start <= x < start + LOGSIZE.

Context (Hhome : forall h, h ∈ tx.*1 -> 0 <= h < FSSIZE /\ ~ in_log h).

Lemma tx_at pre h D rest :
  tx = pre ++ (h, D) :: rest ->
  tx.*1 !! length pre = Some h /\ 0 <= h < FSSIZE /\ ~ in_log h /\
  in_log (start + Z.of_nat (length pre) + 1).
Proof.
  intros Etx. assert (Hi : tx.*1 !! length pre = Some h).
  { rewrite Etx, fmap_app, lookup_app_r; rewrite length_fmap; [|lia]. by rewrite Nat.sub_diag. }
  split; [done|]. destruct (Hhome h) as [Hr Hn]; [by eapply list_elem_of_lookup_2|]. split; [done|].
  split; [done|]. apply lookup_lt_Some in Hi. pose proof (la_max _ _ _ Hlog). unfold in_log. lia.
Qed.

Lemma loop_end s :
  k_log s = k_log s0 -> (Z.of_nat (length tx) <? lg_n (k_log s)) = false.
Proof.
  intros ->. apply Z.ltb_ge. rewrite (la_n _ _ _ Hlog), length_fmap. lia.
Qed.

Definition apply_writes (ws : list (Z * list Z)) (disk : gmap Z (list Z)) : gmap Z (list Z) :=
  foldl (fun d w => <[w.1 := w.2]> d) disk ws.

(** The writes of [write_log]: entry [i] goes to block [start + i + 1]. *)
Fixpoint log_writes (i : nat) (l : list (Z * list Z)) : list (Z * list Z) :=
  match l with
  | [] => []
  | p :: l' => (start + Z.of_nat i + 1, p.2) :: log_writes (S i) l'
  end.

Lemma write_log_run act ws disk s pre rest fuel :
  tx = pre ++ rest -> run act disk [] ws s -> (size act < NBUF)%nat ->
  (forall x, in_log x -> act !! x = None) ->
  (forall h D, (h, D) ∈ rest -> exists r, act !! h = Some (mkbent D r None) /\ 0 < r < 2 ^ 31 - 1) ->
  (length rest < fuel)%nat ->
  exists s', write_log_loop (Z.of_nat (length pre)) fuel s = Done tt s' /\
    run act (apply_writes (log_writes (length pre) rest) disk) [] (ws ++ log_writes (length pre) rest) s'.
Proof.
  revert ws disk s pre fuel. induction rest as [|[h D] rest IH];
    intros ws disk s pre fuel Etx R Hsz Hin Hp Hf; (destruct fuel as [|fuel]; [simpl in Hf; lia|]).
  - exists s. rewrite app_nil_r in Etx. subst pre. cbn [log_writes]. rewrite app_nil_r. split; [|exact R].
    cbn [write_log_loop]. unfold getlog. kstep. prw (loop_end s (run_log _ _ _ _ _ R)). done.
  - destruct (tx_at _ _ _ _ Etx) as (Hi & Hr & Hn & Hl).
    destruct (Hp h D) as (r & Ha & Hr'); [left|].
    destruct (write_log_iter start tx.*1 Hlog (length pre) h Hi Hr act disk ws s R Hsz (Hin _ Hl))
      with (D := D) (r := r) (fuel := fuel) as (s1 & -> & R1); [by intros <-|done|done|].
    replace (Z.of_nat (length pre) + 1) with (Z.of_nat (length (pre ++ [(h, D)])))
      by (rewrite length_app; simpl; lia).
    edestruct (fun ws d => IH ws d s1 (pre ++ [(h, D)]) fuel) as (s2 & E2 & R2);
      [by rewrite <- app_assoc|exact R1|done|done|intros h' D' Hi'; apply Hp; by right|simpl in Hf; lia|].
    exists s2. split; [exact E2|]. rewrite length_app, Nat.add_1_r in R2.
    cbn [log_writes apply_writes foldl fst snd]. by rewrite <- app_assoc in R2.
Qed.

Definition unpin_all (l : list (Z * list Z)) (act : bmap_t) : bmap_t :=
  foldl (fun m p => delete p.1 m) act l.

Lemma install_run recovering act ws disk s pre rest fuel :
  tx = pre ++ rest -> NoDup rest.*1 -> run act disk [] ws s -> (size act < NBUF)%nat ->
  (forall x, in_log x -> act !! x = None) ->
  (forall p, p ∈ rest -> installable p.1 act recovering) ->
  (forall k p, rest !! k = Some p -> on_disk disk (start + Z.of_nat (length pre + k) + 1) = p.2) ->
  (length rest < fuel)%nat ->
  exists s', install_trans_loop recovering (Z.of_nat (length pre)) fuel s = Done tt s' /\
    run (unpin_all rest act) (apply_writes rest disk) [] (ws ++ rest) s'.
Proof.
  revert act ws disk s pre fuel. induction rest as [|[h D] rest IH];
    intros act ws disk s pre fuel Etx Hnd R Hsz Hin Hp Hd Hf; (destruct fuel as [|fuel]; [simpl in Hf; lia|]).
  - exists s. rewrite app_nil_r in Etx. subst pre. rewrite app_nil_r. split; [|exact R].
    cbn [install_trans_loop]. unfold getlog. kstep. prw (loop_end s (run_log _ _ _ _ _ R)). done.
  - destruct (tx_at _ _ _ _ Etx) as (Hi & Hr & Hn & Hl). rewrite fmap_cons in Hnd. apply NoDup_cons in Hnd as [Hni Hnd].
    destruct (install_iter start tx.*1 Hlog (length pre) h Hi Hr act disk ws s R Hsz (Hin _ Hl))
      with (recovering := recovering) (fuel := fuel) as (s1 & -> & R1);
      [by intros <-|exact (Hp (h, D) ltac:(left))|].
    pose proof (Hd 0%nat (h, D) eq_refl) as HD. rewrite Nat.add_0_r in HD. rewrite HD in R1. cbn [snd] in R1.
    assert (size (delete h act) <= size act)%nat by (apply map_subseteq_size, delete_subseteq).
    replace (Z.of_nat (length pre) + 1) with (Z.of_nat (length (pre ++ [(h, D)])))
      by (rewrite length_app; simpl; lia).
    edestruct (fun a ws d => IH a ws d s1 (pre ++ [(h, D)]) fuel) as (s2 & E2 & R2);
      [by rewrite <- app_assoc|done|exact R1|lia|..|simpl in Hf; lia|].
    + intros x Hx. rewrite lookup_delete_ne by (by intros <-). by apply Hin.
    + intros p Hpi. cbn [fst] in Hni. assert (h <> p.1) by (intros ->; apply Hni; exact (list_elem_of_fmap_2 fst _ _ Hpi)).
      pose proof (Hp p ltac:(by right)) as Hq. unfold installable in *.
      rewrite lookup_delete_ne by done. destruct recovering; [|exact Hq]. split; [tauto|]. lia.
    + intros k p Hk. rewrite <- (Hd (S k) p Hk). unfold on_disk. rewrite lookup_insert_ne.
      * rewrite length_app. simpl. do 3 f_equal. lia.
      * intros Eh. apply Hn. rewrite Eh. apply lookup_lt_Some in Hk. pose proof (la_max _ _ _ Hlog) as Hm.
        rewrite Etx, length_fmap, !length_app in Hm. rewrite length_app. cbn [length] in *. unfold in_log. lia.
    + exists s2. split; [exact E2|]. by rewrite <- app_assoc in R2.
Qed.
End Loops.

(** ** The header block *)

Fixpoint put_blocks (i : Z) (bs : list Z) (d : list Z) : list Z :=
  match bs with
  | [] => d
  | x :: bs' => put_blocks (i + 1) bs' (put32 (4 + 4 * i) (u32 x) d)
  end.

(** The header block [write_head] writes over the old contents [d]. *)
Definition head_data (bs : list Z) (d : list Z) : list Z :=
  put_blocks 0 bs (put32 0 (u32 (Z.of_nat (length bs))) d).

Section Head.
Context (start : Z) (blocks : list Z) (Hlog : log_at (k_log s0) start blocks).
Context (Hbl : forall h, h ∈ blocks -> 0 <= h < FSSIZE).

Lemma write_head_loop_run act disk ws s b pre rest D fuel :
  blocks = pre ++ rest -> run act disk [(b, start)] ws s ->
  act !! start = Some (mkbent D 1 (Some pid)) -> (length rest < fuel)%nat ->
  exists s', write_head_loop b (Z.of_nat (length pre)) fuel s = Done tt s' /\
    run (<[start := mkbent (put_blocks (Z.of_nat (length pre)) rest D) 1 (Some pid)]> act)
      disk [(b, start)] ws s'.
Proof.
  revert act s pre D fuel. induction rest as [|h rest IH];
    intros act s pre D fuel Ebl R Ha Hf; (destruct fuel as [|fuel]; [simpl in Hf; lia|]);
    cbn [write_head_loop put_blocks]; unfold getlog; kstep; prw (run_log _ _ _ _ _ R); prw (la_n _ _ _ Hlog).
  - exists s. rewrite Ebl, app_nil_r, Z.ltb_irrefl. split; [done|]. by rewrite insert_id.
  - assert (Hi : blocks !! length pre = Some h) by (by rewrite Ebl, list_lookup_middle).
    rewrite (proj2 (Z.ltb_lt _ _)) by (apply lookup_lt_Some in Hi; lia). kstep.
    rewrite (bind_done _ _ _ _ _ (log_block_eq start blocks Hlog _ h Hi s)).
    destruct (run_set _ _ _ _ _ R b start D 1) with (f := put32 (4 + 4 * Z.of_nat (length pre)) (u32 h))
      as (s1 & E1 & R1); [simpl; auto|done|].
    rewrite (bind_done _ _ _ _ _ E1).
    replace (Z.of_nat (length pre) + 1) with (Z.of_nat (length (pre ++ [h])))
      by (rewrite length_app; simpl; lia).
    edestruct (fun a d => IH a s1 (pre ++ [h]) d fuel) as (s2 & E2 & R2);
      [by rewrite <- app_assoc|exact R1|by rewrite lookup_insert_eq|simpl in Hf; lia|].
    exists s2. split; [exact E2|]. by rewrite insert_insert_eq in R2.
Qed.

Lemma hstart_range : 0 <= start < FSSIZE.
Proof. pose proof (la_range _ _ _ Hlog) as H. unfold LOGSIZE, MAXOPBLOCKS in H. lia. Qed.

Lemma write_head_run act disk ws s :
  run act disk [] ws s -> act !! start = None -> (size act < NBUF)%nat ->
  exists s', write_head s = Done tt s' /\
    run act (<[start := head_data blocks (on_disk disk start)]> disk) []
      (ws ++ [(start, head_data blocks (on_disk disk start))]) s'.
Proof.
  intros R Ha Hsz. pose proof hstart_range as Hr. unfold write_head, getlog. kstep.
  prw (run_log _ _ _ _ _ R). prw (la_dev _ _ _ Hlog). prw (la_start _ _ _ Hlog).
  rewrite (u32_small start) by (unfold FSSIZE in *; lia). change (u32 ROOTDEV) with ROOTDEV.
  destruct (run_new _ _ _ _ _ R start Hr Ha Hsz) as (b & s1 & E1 & R1).
  rewrite (bind_done _ _ _ _ _ E1). kstep. prw (run_log _ _ _ _ _ R1). prw (la_n _ _ _ Hlog).
  edestruct (run_set _ _ _ _ _ R1 b start) as (s2 & E2 & R2); [simpl; auto|by rewrite lookup_insert_eq|].
  rewrite (bind_done _ _ _ _ _ E2). rewrite insert_insert_eq in R2.
  edestruct (fun D => write_head_loop_run _ _ _ _ _ [] blocks D log_fuel eq_refl R2) as (s3 & E3 & R3);
    [by rewrite lookup_insert_eq|pose proof (la_max _ _ _ Hlog); unfold log_fuel; lia|].
  rewrite (bind_done _ _ _ _ _ E3). rewrite insert_insert_eq in R3.
  change (put_blocks _ blocks _) with (head_data blocks (on_disk disk start)) in R3.
  edestruct (run_write _ _ _ _ _ R3 b start) as (s4 & E4 & R4);
    [simpl; auto|by rewrite lookup_insert_eq|lia|].
  rewrite (bind_done _ _ _ _ _ E4).
  edestruct (run_drop_last _ _ _ _ _ R4 b start) with (hs' := @nil (nat * Z)) as (s5 & E5 & R5);
    [simpl; auto|by rewrite lookup_insert_eq|done|unfold on_disk; by rewrite lookup_insert_eq|done|].
  exists s5. split; [exact E5|]. by rewrite delete_insert_eq, delete_id in R5.
Qed.
End Head.
End Run.

(** Changing the log in memory does not touch the store. *)
Lemma run_setlog s0 g act disk hs ws s :
  run s0 act disk hs ws s -> run (set_k_log g s0) act disk hs ws (set_k_log g s).
Proof.
  intros [F R H T]. constructor; [|exact R|exact H|exact T].
  destruct F as (b & d & t & p & -> & Hl & Hp). by exists b, d, t, p.
Qed.

Lemma bworld_setlog s me g : bworld s me -> bworld (set_k_log g s) me.
Proof. intros (Hq & Hl & Hsl). split; [exact Hq|]. split; [exact Hl|exact Hsl]. Qed.

(** ** Reading the header back *)

Lemma length_put_blocks i bs d :
  0 <= i -> (Z.to_nat (4 + 4 * (i + Z.of_nat (length bs))) <= length d)%nat ->
  length (put_blocks i bs d) = length d.
Proof.
  revert i d. induction bs as [|x bs IH]; intros i d Hi Hl; [done|]. simpl length in Hl. cbn [put_blocks].
  rewrite IH; [apply length_put32; lia|lia|]. rewrite length_put32; lia.
Qed.

Lemma get32_put_blocks_before i bs d off :
  0 <= off -> off + 4 <= 4 + 4 * i -> (Z.to_nat (4 + 4 * (i + Z.of_nat (length bs))) <= length d)%nat ->
  get32 (put_blocks i bs d) off = get32 d off.
Proof.
  revert i d. induction bs as [|x bs IH]; intros i d Ho Hi Hl; [done|]. simpl length in Hl. cbn [put_blocks].
  rewrite IH; [apply get32_put32_other; lia|lia|lia|]. rewrite length_put32; lia.
Qed.

Lemma get32_put_blocks i bs d j x :
  0 <= i -> bs !! j = Some x -> (Z.to_nat (4 + 4 * (i + Z.of_nat (length bs))) <= length d)%nat ->
  get32 (put_blocks i bs d) (4 + 4 * (i + Z.of_nat j)) = u32 x.
Proof.
  revert i j d. induction bs as [|y bs IH]; intros i j d Hi Hj Hl; [done|]. simpl length in Hl. cbn [put_blocks].
  destruct j as [|j].
  - injection Hj as ->. rewrite Z.add_0_r, get32_put_blocks_before; [|lia|lia|rewrite length_put32; lia].
    rewrite get32_put32_same by lia. apply u32_small, u32_range.
  - replace (i + Z.of_nat (S j)) with (i + 1 + Z.of_nat j) by lia.
    apply IH; [lia|done|]. rewrite length_put32; lia.
Qed.

(** The header as [read_head] reads it. *)
Record head_is (d : list Z) (bs : list Z) : Prop := {
  hi_n : s32 (get32 d 0) = Z.of_nat (length bs);
  hi_max : Z.of_nat (length bs) < LOGSIZE;
  hi_block : forall j x, bs !! j = Some x -> s32 (get32 d (4 + 4 * Z.of_nat j)) = x }.

Lemma head_data_is bs d :
  length d = Z.to_nat BSIZE -> Z.of_nat (length bs) < LOGSIZE -> (forall x, x ∈ bs -> 0 <= x < FSSIZE) ->
  head_is (head_data bs d) bs.
Proof.
  intros Hd Hn Hb. assert (Hl : (4 + 4 * length bs <= length d)%nat)
    by (rewrite Hd; unfold LOGSIZE, MAXOPBLOCKS, BSIZE in *; lia).
  constructor; [|done|].
  - unfold head_data. rewrite get32_put_blocks_before by (rewrite ?length_put32; lia).
    rewrite get32_put32_same by lia. rewrite u32_small by apply u32_range.
    unfold LOGSIZE, MAXOPBLOCKS in Hn. rewrite u32_small by lia. apply s32_small. lia.
  - intros j x Hj. unfold head_data. rewrite <- (Z.add_0_l (Z.of_nat j)).
    rewrite (get32_put_blocks 0 bs _ j x) by (rewrite ?length_put32; lia || done).
    pose proof (Hb x ltac:(by eapply list_elem_of_lookup_2)) as Hx. unfold FSSIZE in Hx.
    rewrite u32_small by lia. apply s32_small. lia.
Qed.

(** [read_head] leaves these fields alone. *)
Definition log_kept (l l' : log) : Prop :=
  lg_size l' = lg_size l /\ lg_outstanding l' = lg_outstanding l /\ lg_committing l' = lg_committing l.

Section ReadHead.
Context (d : list Z) (bs : list Z) (Hd : head_is d bs) (start : Z).
Context (Hrange : 0 <= start /\ start + LOGSIZE <= FSSIZE).

(** The log after [i] entries were read. *)
Record log_part (l : log) (i : nat) : Prop := {
  lp_dev : lg_dev l = ROOTDEV;
  lp_start : lg_start l = start;
  lp_n : lg_n l = Z.of_nat (length bs);
  lp_len : length (lg_block l) = Z.to_nat LOGSIZE;
  lp_block : take i (lg_block l) = take i bs }.

Lemma read_head_loop_run pre rest fuel s :
  bs = pre ++ rest -> log_part (k_log s) (length pre) -> (length rest < fuel)%nat ->
  exists l, read_head_loop d (Z.of_nat (length pre)) fuel s = Done tt (set_k_log (fun _ => l) s) /\
    log_at l start bs /\ log_kept (k_log s) l.
Proof.
  revert pre fuel s. induction rest as [|h rest IH]; intros pre fuel s Ebs [Ld Ls Ln Ll Lb] Hf;
    (destruct fuel as [|fuel]; [simpl in Hf; lia|]); cbn [read_head_loop]; unfold getlog; kstep; prw Ln.
  - rewrite app_nil_r in Ebs. subst pre. rewrite Z.ltb_irrefl. exists (k_log s). split; [by rewrite set_k_log_id|].
    split; [|done]. split; [exact Ld|exact Ls|exact Ln|exact Ll| |apply (hi_max _ _ Hd)|exact Hrange].
    by rewrite Lb, take_ge.
  - assert (Hi : bs !! length pre = Some h) by (by rewrite Ebs, list_lookup_middle).
    pose proof (lookup_lt_Some _ _ _ Hi) as Hlt. pose proof (hi_max _ _ Hd) as Hm.
    rewrite (proj2 (Z.ltb_lt _ _)) by lia. kstep. unfold set_log_block.
    rewrite (proj2 (Z.ltb_lt _ _)) by lia. unfold setlog. kstep. rewrite (hi_block _ _ Hd _ _ Hi), Nat2Z.id.
    replace (Z.of_nat (length pre) + 1) with (Z.of_nat (length (pre ++ [h])))
      by (rewrite length_app; simpl; lia).
    edestruct (fun x => IH (pre ++ [h]) fuel x) as (l & E & Hl & Hk);
      [by rewrite <- app_assoc| |simpl in Hf; lia|].
    2: { exists l. split; [rewrite E; by rewrite set_set_k_log|split; [exact Hl|exact Hk]]. }
    split; [exact Ld|exact Ls|exact Ln|cbn; by rewrite length_insert|]. cbn.
    rewrite length_app, Nat.add_1_r. erewrite !take_S_r; [|exact Hi|apply list_lookup_insert_eq; lia].
    by rewrite take_insert_ge, Lb by lia.
Qed.
End ReadHead.

(** ** Recovery and commit as wholes *)

Lemma run_refl s0 act disk : store_rep s0 (Store.mkstore act disk) -> run s0 act disk [] [] s0.
Proof. intros R. constructor; [apply bframe_refl|exact R|done|done]. Qed.

Lemma read_head_run s0 me act disk start bs :
  bworld s0 me -> store_rep s0 (Store.mkstore act disk) ->
  lg_dev (k_log s0) = ROOTDEV -> lg_start (k_log s0) = start ->
  length (lg_block (k_log s0)) = Z.to_nat LOGSIZE -> 0 <= start /\ start + LOGSIZE <= FSSIZE ->
  head_is (on_disk disk start) bs -> act !! start = None -> (size act < NBUF)%nat ->
  exists l s', read_head s0 = Done tt s' /\ log_at l start bs /\ log_kept (k_log s0) l /\
    run (set_k_log (fun _ => l) s0) act disk [] [] s'.
Proof.
  intros Hw Hs Ld Ls Ll Hr Hh Ha Hsz. unfold read_head, getlog. kstep. prw Ld. prw Ls.
  assert (Hrs : 0 <= start < FSSIZE) by (unfold LOGSIZE, MAXOPBLOCKS in Hr; lia).
  rewrite (u32_small start) by (unfold FSSIZE in *; lia). change (u32 ROOTDEV) with ROOTDEV.
  destruct (run_new s0 me Hw _ _ _ _ _ (run_refl _ _ _ Hs) start Hrs Ha Hsz) as (b & s1 & E1 & R1).
  rewrite (bind_done _ _ _ _ _ E1). unfold getbuf. kstep. unfold setlog. kstep.
  rewrite (run_data s0 me _ _ _ _ _ R1 b start (on_disk disk start) 1)
    by (simpl; auto || by rewrite lookup_insert_eq).
  rewrite (hi_n _ _ Hh). set (g := set_lg_n _).
  pose proof (run_log _ _ _ _ _ _ R1) as El.
  destruct (read_head_loop_run (on_disk disk start) bs Hh start Hr [] bs log_fuel (set_k_log g s1))
    as (l & E2 & Hl & Hk); [done| |pose proof (hi_max _ _ Hh); unfold log_fuel; lia|].
  { split; change (k_log (set_k_log g s1)) with (g (k_log s1)); rewrite El; try done. }
  change 0 with (Z.of_nat (length (@nil Z))). rewrite (bind_done _ _ _ _ _ E2), set_set_k_log.
  pose proof (run_setlog _ (fun _ => l) _ _ _ _ _ R1) as R2.
  edestruct (run_drop_last _ me (bworld_setlog _ _ _ Hw) _ _ _ _ _ R2 b start) with (hs' := @nil (nat * Z))
    as (s3 & E3 & R3); [simpl; auto|by rewrite lookup_insert_eq|done|done|done|].
  exists l, s3. split; [exact E3|]. split; [exact Hl|]. split.
  { change (k_log (set_k_log g s1)) with (g (k_log s1)) in Hk. rewrite El in Hk. exact Hk. }
  by rewrite delete_insert_eq, delete_id in R3.
Qed.

(** The transaction the on-disk log holds. *)
Fixpoint logged (disk : gmap Z (list Z)) (start : Z) (i : nat) (bs : list Z) : list (Z * list Z) :=
  match bs with
  | [] => []
  | h :: bs' => (h, on_disk disk (start + Z.of_nat i + 1)) :: logged disk start (S i) bs'
  end.

Lemma logged_fst disk start i bs : (logged disk start i bs).*1 = bs.
Proof. revert i. induction bs as [|h bs IH]; intros i; [done|]. cbn. f_equal. apply IH. Qed.

Lemma logged_lookup disk start i bs k p :
  logged disk start i bs !! k = Some p -> on_disk disk (start + Z.of_nat (i + k) + 1) = p.2.
Proof.
  revert i k. induction bs as [|h bs IH]; intros i k Hk; [done|]. destruct k as [|k].
  - injection Hk as <-. by rewrite Nat.add_0_r.
  - rewrite Nat.add_succ_r. exact (IH (S i) k Hk).
Qed.

Lemma log_at_empty l start bs : log_at l start bs -> log_at (set_lg_n (fun _ => 0) l) start [].
Proof. intros [H1 H2 H3 H4 H5 H6 H7]. by split. Qed.

Lemma apply_writes_app l1 l2 disk : apply_writes (l1 ++ l2) disk = apply_writes l2 (apply_writes l1 disk).
Proof. apply foldl_app. Qed.

Lemma unpin_all_empty l : unpin_all l ∅ = ∅.
Proof. induction l as [|p l IH]; [done|]. unfold unpin_all in *. cbn. by rewrite delete_empty. Qed.

(** [install_trans], then [lh.n = 0], then [write_head]: the end of a commit,
    and of a recovery. *)
Definition finish (recovering : bool) : K unit :=
  install_trans recovering;; setlog (set_lg_n (fun _ => 0));; write_head.

Lemma finish_run s0 me start tx recovering act disk ws s :
  bworld s0 me -> log_at (k_log s0) start tx.*1 ->
  (forall h, h ∈ tx.*1 -> 0 <= h < FSSIZE /\ ~ in_log start h) -> NoDup tx.*1 ->
  run s0 act disk [] ws s -> (size act < NBUF)%nat ->
  (forall x, in_log start x -> act !! x = None) ->
  (forall p, p ∈ tx -> installable p.1 act recovering) ->
  (forall k p, tx !! k = Some p -> on_disk disk (start + Z.of_nat k + 1) = p.2) ->
  exists s', finish recovering s = Done tt s' /\
    let d := apply_writes tx disk in
    let w := (start, head_data [] (on_disk d start)) in
    run (set_k_log (set_lg_n (fun _ => 0)) s0) (unpin_all tx act) (apply_writes (tx ++ [w]) disk) []
      (ws ++ tx ++ [w]) s'.
Proof.
  intros Hw Hl Hh Hnd R Hsz Hin Hp Hd. unfold finish, install_trans.
  destruct (install_run s0 me Hw start tx Hl Hh recovering act ws disk s [] tx log_fuel)
    as (s1 & E1 & R1); [done..| |].
  { pose proof (la_max _ _ _ Hl) as Hm. rewrite length_fmap in Hm. unfold log_fuel. lia. }
  change 0 with (Z.of_nat (length (@nil (Z * list Z)))) at 1. rewrite (bind_done _ _ _ _ _ E1).
  unfold setlog. kstep. pose proof (run_setlog _ (set_lg_n (fun _ => 0)) _ _ _ _ _ R1) as R2.
  assert (Hsub : unpin_all tx act ⊆ act).
  { clear. revert act. induction tx as [|p tx IH]; intros act; [done|].
    etransitivity; [apply (IH (delete p.1 act))|apply delete_subseteq]. }
  edestruct (write_head_run _ me (bworld_setlog _ _ _ Hw) start [] (log_at_empty _ _ _ Hl)) as (s3 & E3 & R3).
  - exact R2.
  - eapply lookup_weaken_None; [|exact Hsub]. apply Hin. unfold in_log, LOGSIZE, MAXOPBLOCKS. lia.
  - apply map_subseteq_size in Hsub. lia.
  - exists s3. split; [exact E3|]. cbv zeta. by rewrite apply_writes_app, app_assoc.
Qed.

Lemma recover_run s0 me disk start bs :
  bworld s0 me -> store_rep s0 (Store.mkstore ∅ disk) ->
  lg_dev (k_log s0) = ROOTDEV -> lg_start (k_log s0) = start ->
  length (lg_block (k_log s0)) = Z.to_nat LOGSIZE -> 0 <= start /\ start + LOGSIZE <= FSSIZE ->
  head_is (on_disk disk start) bs -> (forall h, h ∈ bs -> 0 <= h < FSSIZE /\ ~ in_log start h) -> NoDup bs ->
  exists s', recover_from_log s0 = Done tt s' /\ bframe (set_k_log (fun _ => k_log s') s0) s' /\
    log_at (k_log s') start [] /\ log_kept (k_log s0) (k_log s') /\
    let tx := logged disk start 0 bs in
    let ws := tx ++ [(start, head_data [] (on_disk (apply_writes tx disk) start))] in
    store_rep s' (Store.mkstore ∅ (apply_writes ws disk)) /\ k_dtrace s' = rev ws ++ k_dtrace s0.
Proof.
  intros Hw Hs Ld Ls Ll Hr Hh Hb Hnd. set (tx := logged disk start 0 bs).
  destruct (read_head_run s0 me ∅ disk start bs) as (l & s1 & E1 & Hl & Hk & R1);
    [done..|by rewrite lookup_empty|rewrite map_size_empty; unfold NBUF; lia|].
  assert (Etx : tx.*1 = bs) by apply logged_fst.
  destruct (finish_run _ me start tx true ∅ disk [] s1 (bworld_setlog s0 me (fun _ => l) Hw)) with (4 := R1)
    as (s2 & E2 & R2); rewrite ?Etx; try done.
  - rewrite map_size_empty. unfold NBUF. lia.
  - intros p _. split; [by rewrite lookup_empty|rewrite map_size_empty; unfold NBUF; lia].
  - intros k p Hp. exact (logged_lookup _ _ 0 _ _ _ Hp).
  - exists s2. unfold recover_from_log. rewrite (bind_done _ _ _ _ _ E1). split; [exact E2|].
    pose proof (run_log _ _ _ _ _ _ R2) as El.
    split; [rewrite El; exact (r_frame _ _ _ _ _ _ R2)|].
    split; [rewrite El; exact (log_at_empty _ _ _ Hl)|]. split; [rewrite El; exact Hk|].
    pose proof (r_rep _ _ _ _ _ _ R2) as R3. rewrite unpin_all_empty in R3. split; [exact R3|].
    exact (r_tr _ _ _ _ _ _ R2).
Qed.

(** ** Writes to the disk *)

Lemma on_disk_insert disk x d : on_disk (<[x := d]> disk) x = d.
Proof. unfold on_disk. by rewrite lookup_insert_eq. Qed.

Lemma on_disk_insert_ne disk x y d : x <> y -> on_disk (<[x := d]> disk) y = on_disk disk y.
Proof. intros. unfold on_disk. by rewrite lookup_insert_ne. Qed.

Lemma apply_writes_other ws disk x : x ∉ ws.*1 -> on_disk (apply_writes ws disk) x = on_disk disk x.
Proof.
  revert disk. induction ws as [|[y d] ws IH]; intros disk Hx; [done|].
  rewrite fmap_cons in Hx. apply not_elem_of_cons in Hx as [Hy Hx].
  change (apply_writes ((y, d) :: ws) disk) with (apply_writes ws (<[y := d]> disk)).
  rewrite IH by done. by apply on_disk_insert_ne.
Qed.

(** The result at [x] depends on the old contents only where nothing is written. *)
Lemma apply_writes_agree ws d1 d2 x :
  (x ∉ ws.*1 -> on_disk d1 x = on_disk d2 x) -> on_disk (apply_writes ws d1) x = on_disk (apply_writes ws d2) x.
Proof.
  revert d1 d2. induction ws as [|[y d] ws IH]; intros d1 d2 Hx; [apply Hx, not_elem_of_nil|].
  apply (IH (<[y := d]> d1) (<[y := d]> d2)). intros Hn.
  destruct (decide (y = x)) as [->|Hne]; [by rewrite !on_disk_insert|].
  rewrite !on_disk_insert_ne by done. apply Hx. rewrite fmap_cons. apply not_elem_of_cons. by split.
Qed.

Lemma apply_writes_prefix ws k disk x :
  on_disk (apply_writes ws (apply_writes (take k ws) disk)) x = on_disk (apply_writes ws disk) x.
Proof.
  apply apply_writes_agree. intros Hx. apply apply_writes_other. intros Hi. apply Hx.
  rewrite <- (take_drop k ws), fmap_app. apply elem_of_app. by left.
Qed.

Lemma log_writes_fst start i tx x :
  x ∈ (log_writes start i tx).*1 -> start + Z.of_nat i + 1 <= x <= start + Z.of_nat (i + length tx).
Proof.
  revert i. induction tx as [|p tx IH]; intros i Hx; [by apply not_elem_of_nil in Hx|].
  cbn [log_writes] in Hx. rewrite fmap_cons in Hx. apply elem_of_cons in Hx as [->|Hx]; [simpl; lia|].
  apply IH in Hx. simpl. lia.
Qed.

Lemma log_writes_lookup start i tx disk k p :
  tx !! k = Some p ->
  on_disk (apply_writes (log_writes start i tx) disk) (start + Z.of_nat (i + k) + 1) = p.2.
Proof.
  revert i disk k. induction tx as [|q tx IH]; intros i disk k Hk; [done|].
  change (apply_writes (log_writes start i (q :: tx)) disk) with
    (apply_writes (log_writes start (S i) tx) (<[start + Z.of_nat i + 1 := q.2]> disk)).
  destruct k as [|k].
  - injection Hk as ->. rewrite Nat.add_0_r, apply_writes_other; [apply on_disk_insert|].
    intros Hx%log_writes_fst. lia.
  - rewrite Nat.add_succ_r. exact (IH (S i) _ k Hk).
Qed.

(** The log on a disk that holds [tx] is [tx]. *)
Lemma logged_tx disk start i tx :
  (forall k p, tx !! k = Some p -> on_disk disk (start + Z.of_nat (i + k) + 1) = p.2) ->
  logged disk start i tx.*1 = tx.
Proof.
  revert i. induction tx as [|[h D] tx IH]; intros i Hk; [done|]. cbn. f_equal.
  - pose proof (Hk 0%nat _ eq_refl) as H0. rewrite Nat.add_0_r in H0. by rewrite H0.
  - apply IH. intros k p Hp. rewrite <- (Hk (S k) p Hp). do 3 f_equal. lia.
Qed.

(** ** A commit *)

(** The writes of [commit] for the transaction [tx]: the log blocks, the
    header, the home blocks, the empty header. *)
Definition commit_writes (start : Z) (tx : list (Z * list Z)) (disk : gmap Z (list Z)) : list (Z * list Z) :=
  let hd := head_data tx.*1 (on_disk disk start) in
  log_writes start 0 tx ++ [(start, hd)] ++ tx ++ [(start, head_data [] hd)].

(** What is known of the kernel when [end_op] calls [commit]: the header in
    memory names the blocks of [tx], which are in the cache, pinned once and
    unlocked, and not part of the log; the log itself is not in the cache, and
    the log on disk is empty. *)
Record ready (s : kstate) (me : nat) (act : bmap_t) (disk : gmap Z (list Z)) (start : Z)
    (tx : list (Z * list Z)) : Prop := {
  rd_world : bworld s me;
  rd_rep : store_rep s (Store.mkstore act disk);
  rd_log : log_at (k_log s) start tx.*1;
  rd_home : forall h, h ∈ tx.*1 -> 0 <= h < FSSIZE /\ ~ in_log start h;
  rd_nodup : NoDup tx.*1;
  rd_pin : forall h D, (h, D) ∈ tx -> act !! h = Some (mkbent D 1 None);
  rd_free : forall x, in_log start x -> act !! x = None;
  rd_size : (size act < NBUF)%nat;
  rd_len : length (on_disk disk start) = Z.to_nat BSIZE;
  rd_empty : head_is (on_disk disk start) [] }.

Section Commit.
Context {s : kstate} {me : nat} {act : bmap_t} {disk : gmap Z (list Z)} {start : Z} {tx : list (Z * list Z)}.
Context (Hr : ready s me act disk start tx).

Lemma tx_len : Z.of_nat (length tx) < LOGSIZE.
Proof. pose proof (la_max _ _ _ (rd_log _ _ _ _ _ _ Hr)) as H. by rewrite length_fmap in H. Qed.

Lemma start_in_log : in_log start start.
Proof. unfold in_log, LOGSIZE, MAXOPBLOCKS. lia. Qed.

Lemma start_not_home : start ∉ tx.*1.
Proof. intros Hi. apply (rd_home _ _ _ _ _ _ Hr) in Hi as [_ Hn]. apply Hn, start_in_log. Qed.

Lemma start_not_logged l : start ∉ (log_writes start 0 l).*1.
Proof. intros Hi%log_writes_fst. lia. Qed.

Lemma commit_run :
  tx <> [] ->
  exists s', commit s = Done tt s' /\
    run (set_k_log (set_lg_n (fun _ => 0)) s) (unpin_all tx act)
      (apply_writes (commit_writes start tx disk) disk) [] (commit_writes start tx disk) s'.
Proof.
  destruct Hr as [Hw Hs Hl Hh Hnd Hpin Hfree Hsz Hlen _]. intros Hne.
  unfold commit, getlog. kstep. prw (la_n _ _ _ Hl).
  rewrite (proj2 (Z.gtb_lt _ _)) by (rewrite length_fmap; destruct tx; [done|simpl; lia]). unfold when, write_log.
  destruct (write_log_run s me Hw start tx Hl Hh act [] disk s [] tx log_fuel eq_refl (run_refl _ _ _ Hs) Hsz Hfree)
    as (s1 & E1 & R1).
  { intros h D Hi. exists 1. split; [by apply Hpin|lia]. }
  { pose proof tx_len. unfold log_fuel. lia. }
  change 0 with (Z.of_nat (length (@nil (Z * list Z)))) at 1. rewrite (bind_done _ _ _ _ _ E1).
  edestruct (write_head_run s me Hw start tx.*1 Hl) as (s2 & E2 & R2);
    [exact R1|apply Hfree, start_in_log|done|].
  rewrite (bind_done _ _ _ _ _ E2). rewrite (apply_writes_other _ _ _ (start_not_logged tx)) in R2.
  destruct (finish_run s me start tx false act _ _ s2 Hw Hl Hh Hnd R2 Hsz Hfree) as (s3 & E3 & R3).
  { intros [h D] Hi. exists D. by apply Hpin. }
  { intros k p Hk. rewrite on_disk_insert_ne by lia. exact (log_writes_lookup start 0 tx disk k p Hk). }
  exists s3. split; [exact E3|]. cbv zeta in R3.
  rewrite (apply_writes_other tx _ start start_not_home), on_disk_insert in R3.
  unfold commit_writes. rewrite !apply_writes_app in *. cbn [length app] in R3. rewrite <- !app_assoc in R3. exact R3.
Qed.
End Commit.

(** ** Crashes *)

(** Outside the log, the disks [d] and [t] hold the same blocks. *)
Definition same_fs (start : Z) (d t : gmap Z (list Z)) : Prop :=
  forall x, ~ in_log start x -> on_disk d x = on_disk t x.

(** Replaying the log found on [d] makes the file system of [t]. *)
Definition recovers_to (start : Z) (d t : gmap Z (list Z)) : Prop :=
  length (on_disk d start) = Z.to_nat BSIZE /\
  exists bs, head_is (on_disk d start) bs /\
    (forall h, h ∈ bs -> 0 <= h < FSSIZE /\ ~ in_log start h) /\ NoDup bs /\
    same_fs start (apply_writes (logged d start 0 bs) d) t.

Lemma head_data_len bs d :
  Z.of_nat (length bs) < LOGSIZE -> length d = Z.to_nat BSIZE -> length (head_data bs d) = Z.to_nat BSIZE.
Proof.
  intros Hm Hd. unfold LOGSIZE, MAXOPBLOCKS, BSIZE in *. unfold head_data.
  rewrite length_put_blocks; rewrite ?length_put32; lia.
Qed.

Lemma recovers_empty start d t :
  length (on_disk d start) = Z.to_nat BSIZE -> head_is (on_disk d start) [] -> same_fs start d t ->
  recovers_to start d t.
Proof.
  intros Hl Hh Ht. split; [done|]. exists []. split; [done|].
  split; [by intros h Hi%not_elem_of_nil|]. split; [constructor|exact Ht].
Qed.

(** A disk whose log holds [tx], some of it installed already. *)
Lemma recovers_logged start d t tx k :
  length (on_disk d start) = Z.to_nat BSIZE -> head_is (on_disk d start) tx.*1 ->
  (forall h, h ∈ tx.*1 -> 0 <= h < FSSIZE /\ ~ in_log start h) -> NoDup tx.*1 ->
  (forall j p, tx !! j = Some p -> on_disk d (start + Z.of_nat j + 1) = p.2) ->
  same_fs start (apply_writes tx d) t ->
  recovers_to start (apply_writes (take k tx) d) t.
Proof.
  intros Hl Hh Hb Hnd Hk Ht.
  assert (Hsame : forall x, in_log start x -> on_disk (apply_writes (take k tx) d) x = on_disk d x).
  { intros x Hx. apply apply_writes_other. intros Hi. destruct (Hb x) as [_ Hn]; [|by apply Hn].
    rewrite <- (take_drop k tx), fmap_app. apply elem_of_app. by left. }
  pose proof (hi_max _ _ Hh) as Hm. rewrite length_fmap in Hm.
  assert (Hst : in_log start start) by (unfold in_log; lia).
  split; [by rewrite Hsame|]. exists tx.*1. rewrite Hsame by done. split; [done|]. split; [done|]. split; [done|].
  rewrite logged_tx.
  - intros x Hx. rewrite <- (Ht x Hx). apply apply_writes_prefix.
  - intros j p Hj. rewrite Nat.add_0_l, <- (Hk j p Hj). apply Hsame.
    apply lookup_lt_Some in Hj. unfold in_log. lia.
Qed.

Section CommitCrash.
Context {s : kstate} {me : nat} {act : bmap_t} {disk : gmap Z (list Z)} {start : Z} {tx : list (Z * list Z)}.
Context (Hr : ready s me act disk start tx).

Let hd := head_data tx.*1 (on_disk disk start).

Lemma logs_len : length (log_writes start 0 tx) = length tx.
Proof. clear. generalize 0%nat. induction tx; intros; [done|]. simpl. by f_equal. Qed.

Lemma head_full : length hd = Z.to_nat BSIZE /\ head_is hd tx.*1.
Proof.
  destruct Hr as [_ _ Hl Hh _ _ _ _ Hlen _]. pose proof (la_max _ _ _ Hl). split; [by apply head_data_len|].
  apply head_data_is; [done|done|]. intros x Hx. exact (proj1 (Hh x Hx)).
Qed.

Lemma log_writes_same ws : (forall x, x ∈ ws.*1 -> x ∈ (log_writes start 0 tx).*1) ->
  same_fs start (apply_writes ws disk) disk.
Proof.
  intros Hws x Hx. apply apply_writes_other. intros Hi. apply Hx. apply Hws, log_writes_fst in Hi.
  pose proof (tx_len Hr). unfold in_log. lia.
Qed.

(** Whatever prefix of a commit's writes reached the disk, recovery makes the
    file system before the transaction, or the one after it. *)
Lemma commit_prefix k :
  let d := apply_writes (take k (commit_writes start tx disk)) disk in
  (k <= length tx -> recovers_to start d disk)%nat /\
  (length tx < k -> recovers_to start d (apply_writes tx disk))%nat.
Proof.
  intros d. subst d. unfold commit_writes. fold hd. pose proof (start_not_home Hr) as Hsh.
  destruct head_full as [Hhl Hhi]. split; intros Hk.
  - rewrite take_app_le by (rewrite logs_len; lia).
    assert (Hsub : forall x, x ∈ (take k (log_writes start 0 tx)).*1 -> x ∈ (log_writes start 0 tx).*1).
    { intros x Hx. rewrite <- (take_drop k (log_writes start 0 tx)), fmap_app. apply elem_of_app. by left. }
    assert (Est : on_disk (apply_writes (take k (log_writes start 0 tx)) disk) start = on_disk disk start).
    { apply apply_writes_other. intros Hi. exact (start_not_logged tx (Hsub _ Hi)). }
    apply recovers_empty; rewrite ?Est; [apply (rd_len _ _ _ _ _ _ Hr)|apply (rd_empty _ _ _ _ _ _ Hr)|].
    by apply log_writes_same.
  - set (d1 := <[start := hd]> (apply_writes (log_writes start 0 tx) disk)).
    assert (Hd1 : on_disk d1 start = hd) by apply on_disk_insert.
    assert (Hfs : same_fs start d1 disk).
    { intros x Hx. unfold d1. rewrite on_disk_insert_ne by (intros <-; apply Hx, start_in_log).
      by apply log_writes_same. }
    assert (Hfs' : same_fs start (apply_writes tx d1) (apply_writes tx disk)).
    { intros x Hx. apply apply_writes_agree. intros _. by apply Hfs. }
    rewrite take_app_ge, logs_len by (rewrite logs_len; lia).
    replace (k - length tx)%nat with (S (k - length tx - 1)) by lia. cbn [app take].
    rewrite apply_writes_app. change (apply_writes (?w :: ?l) ?x) with (apply_writes l (<[w.1 := w.2]> x)).
    cbn [fst snd]. fold d1. destruct (decide (k - length tx - 1 <= length tx)%nat).
    + rewrite take_app_le by done. apply recovers_logged; rewrite ?Hd1; try done;
        [apply (rd_home _ _ _ _ _ _ Hr)|apply (rd_nodup _ _ _ _ _ _ Hr)|].
      intros j p Hj. unfold d1. rewrite on_disk_insert_ne by lia. exact (log_writes_lookup start 0 tx disk j p Hj).
    + rewrite take_ge by (rewrite length_app; simpl; lia).
      rewrite apply_writes_app. cbn [apply_writes foldl fst snd].
      apply recovers_empty; rewrite ?on_disk_insert; [by apply head_data_len|by apply head_data_is; [..|intros ? ?%not_elem_of_nil]|].
      intros x Hx. rewrite on_disk_insert_ne by (intros <-; apply Hx, start_in_log). by apply Hfs'.
Qed.
End CommitCrash.
