(* ===== verification/LogTx.v ===== *)
(** * Transactions through the log

    [begin_op], a group of block updates each passed to [log_write], and
    [end_op]: the group reaches the disk as a whole or not at all, whenever
    the machine stops, and the log is ready for the next group. [LogSpace] is
    about the room in the log that [begin_op] reserves. *)

From stdpp Require Import gmap strings list.
From Stdlib Require Import ZArith Lia.
From S2P Require Import Prelude KState Spinlock Sched SleepLock Bio Bcache Log LogProps.
Open Scope Z_scope.
Import Spinlock Sched SleepLock Bio Log SpinlockProps SchedProps SleepLockProps BioProps.

#[local] Opaque NPROC.

Lemma geb_false x y : x < y -> (x >=? y) = false.
Proof. intros. rewrite Z.geb_leb. apply Z.leb_gt. lia. Qed.

(** ** [log_write] *)

Section Absorb.
Context (l : log) (start : Z) (bs : list Z) (Hl : log_at l start bs) (bno : Z).
Context (Hbs : forall h, h ∈ bs -> 0 <= h < FSSIZE).

(** The scan returns the place of [bno], or [lh.n]. *)
Lemma log_absorb_spec pre rest :
  bs = pre ++ rest -> bno ∉ pre ->
  let i := log_absorb (lg_block l) bno (Z.of_nat (length pre)) (length rest) in
  (bno ∉ bs /\ i = Z.of_nat (length bs)) \/ (exists j, bs !! j = Some bno /\ i = Z.of_nat j).
Proof.
  revert pre. induction rest as [|h rest IH]; intros pre Ebs Hn; cbn [log_absorb length].
  - left. rewrite app_nil_r in Ebs. by subst pre.
  - assert (Hi : bs !! length pre = Some h) by (by rewrite Ebs, list_lookup_middle).
    rewrite Nat2Z.id, (la_lookup _ _ _ _ _ Hl Hi).
    pose proof (Hbs h ltac:(by eapply list_elem_of_lookup_2)) as Hh. rewrite u32_small by (unfold FSSIZE in *; lia).
    destruct (Z.eqb_spec h bno) as [->|Hne]; [right; by exists (length pre)|].
    replace (Z.of_nat (length pre) + 1) with (Z.of_nat (length (pre ++ [h])))
      by (rewrite length_app; simpl; lia).
    apply IH; [by rewrite <- app_assoc|]. rewrite elem_of_app, list_elem_of_singleton. intros [?|?]; [done|congruence].
Qed.
End Absorb.

Section LogWrite.
Context (s : kstate) (me b : nat) (start : Z) (bs : list Z) (bno : Z).
Context (Hw : bworld s me) (Hlk : lock_free s L_log) (Hl : log_at (k_log s) start bs).
Context (Hsize : lg_size (k_log s) = LOGSIZE)
  (Hroom : Z.of_nat (length bs) < LOGSIZE - 1) (Hout : 1 <= lg_outstanding (k_log s)).
Context (Hb : 0 <= bno < FSSIZE) (Hbs : forall h, h ∈ bs -> 0 <= h < FSSIZE).
Context (Hh : handle s b bno).

Lemma bpin_acq g :
  bpin b (acq L_log (set_k_log g s)) = Done tt (acq L_log (set_k_log g
    (set_k_bufs (alter (set_b_refcnt (fun n => u32 (n + 1))) b) s))).
Proof.
  destruct Hw as ((Hc & _) & Hf & _).
  unfold bpin, setbuf.
  rewrite (bind_done _ _ _ _ _ (acquire_spec _ _ (lock_free_acq L_log L_bcache (set_k_log g s) ltac:(done) Hf))).
  kstep. rewrite acq_set_k_bufs, acq_set_k_bufs.
  rewrite release_acq; [done|by apply cpu_ok_acq|by apply lock_free_acq].
Qed.

Let absorbed := log_absorb (lg_block (k_log s)) bno 0 (length bs).

(** Up to the scan, [log_write] only takes the lock. *)
Lemma log_write_scan :
  log_write b s =
  (set_log_block absorbed bno;;
   when (absorbed =? Z.of_nat (length bs)) (bpin b;; setlog (set_lg_n (fun n => n + 1)));;
   release L_log) (acq L_log s).
Proof.
  unfold log_write. rewrite (bind_done _ _ _ _ _ (acquire_spec _ _ Hlk)). unfold getlog, getbuf. kstep.
  rewrite acq_k_log. pose proof (la_max _ _ _ Hl) as Hm. prw (la_n _ _ _ Hl).
  rewrite (geb_false (Z.of_nat (length bs)) LOGSIZE) by lia.
  rewrite (geb_false (Z.of_nat (length bs)) (lg_size (k_log s) - 1)) by (rewrite Hsize; lia). cbn [orb].
  rewrite (proj2 (Z.ltb_ge _ _)) by lia. kstep. rewrite acq_k_bufs.
  destruct Hh as (_ & _ & ->). by rewrite Nat2Z.id.
Qed.

(** A block already in the transaction is absorbed. *)
Lemma log_write_absorb : bno ∈ bs -> log_write b s = Done tt s.
Proof.
  intros Hi. rewrite log_write_scan. pose proof (la_max _ _ _ Hl) as Hm.
  destruct (log_absorb_spec _ _ _ Hl bno Hbs [] bs eq_refl (not_elem_of_nil _)) as [[? _]|(j & Hj & Ej)]; [done|].
  fold absorbed in Ej. cbn [length] in Ej. change (Z.of_nat 0) with 0 in Ej. fold absorbed in Ej. rewrite Ej.
  pose proof (lookup_lt_Some _ _ _ Hj). unfold set_log_block.
  rewrite (proj2 (Z.ltb_lt _ _)) by lia. unfold setlog. kstep.
  rewrite (proj2 (Z.eqb_neq _ _)) by lia. unfold when. kstep. rewrite acq_set_k_log.
  rewrite (set_k_log_id _ s).
  - apply release_acq; [apply Hw|done].
  - rewrite Nat2Z.id. rewrite (s32_small bno) by (unfold FSSIZE in *; lia).
    destruct (k_log s) as [a1 a2 a3 a4 a5 a6 blk] eqn:E. unfold set_lg_block. cbn. f_equal.
    apply list_insert_id. pose proof (la_block _ _ _ Hl) as Ht. cbn in Ht.
    rewrite <- Ht in Hj. apply lookup_take_Some in Hj. tauto.
Qed.

(** A block new to the transaction is pinned and added to the header. *)
Lemma log_write_new :
  bno ∉ bs ->
  exists s1 l', bpin b s = Done tt s1 /\ log_write b s = Done tt (set_k_log (fun _ => l') s1) /\
    log_at l' start (bs ++ [bno]) /\ lg_size l' = lg_size (k_log s) /\
    lg_outstanding l' = lg_outstanding (k_log s) /\ lg_committing l' = lg_committing (k_log s).
Proof.
  intros Hi. rewrite log_write_scan. pose proof (la_max _ _ _ Hl) as Hm.
  destruct (log_absorb_spec _ _ _ Hl bno Hbs [] bs eq_refl (not_elem_of_nil _)) as [[_ Ej]|(j & Hj & _)].
  2: { by apply list_elem_of_lookup_2 in Hj. }
  change (Z.of_nat (length [])) with 0 in Ej. fold absorbed in Ej. rewrite Ej.
  unfold set_log_block. rewrite (proj2 (Z.ltb_lt _ _)) by lia. unfold setlog. kstep.
  rewrite Z.eqb_refl. unfold when. rewrite acq_set_k_log.
  erewrite bind_done by (rewrite (bind_done _ _ _ _ _ (bpin_acq _)); reflexivity).
  rewrite acq_set_k_log, set_set_k_log.
  eexists _, _. split; [by apply (bpin_eq s me)|]. split.
  { rewrite release_acq; [|apply Hw|done]. apply f_equal, set_k_log_ext. reflexivity. }
  rewrite (s32_small bno) by (unfold FSSIZE in *; lia). rewrite Nat2Z.id.
  destruct Hl as [L1 L2 L3 L4 L5 L6 L7]. split; [|done]. cbn.
  split; cbn; try done.
  - rewrite length_app. change (lg_n (k_log s)) with (lg_n (k_log s)). rewrite L3. simpl. lia.
  - by rewrite length_insert.
  - rewrite length_app, Nat.add_1_r. erewrite take_S_r; [|apply list_lookup_insert_eq; lia].
    rewrite take_insert_ge by done. by rewrite L5.
  - rewrite length_app. simpl. lia.
Qed.
End LogWrite.

(** ** The blocks of a transaction *)

(** The cache during a transaction: the blocks written so far, pinned. *)
Definition pin (p : Z * list Z) : Z * bent := (p.1, mkbent p.2 1 None).
Definition pins (tx : list (Z * list Z)) : bmap_t := list_to_map (pin <$> tx).

(** What a reader inside the transaction sees. *)
Definition tx_get (disk : gmap Z (list Z)) (tx : list (Z * list Z)) (h : Z) : list Z :=
  on_disk (apply_writes tx disk) h.

Definition tx_set (h : Z) (d : list Z) (tx : list (Z * list Z)) : list (Z * list Z) :=
  (fun p => if p.1 =? h then (h, d) else p) <$> tx.

Definition tx_put (h : Z) (d : list Z) (tx : list (Z * list Z)) : list (Z * list Z) :=
  if decide (h ∈ tx.*1) then tx_set h d tx else tx ++ [(h, d)].

Lemma pins_fst tx : (pin <$> tx).*1 = tx.*1.
Proof. rewrite <- list_fmap_compose. by apply list_fmap_ext. Qed.

Lemma tx_set_fst h d tx : (tx_set h d tx).*1 = tx.*1.
Proof.
  unfold tx_set. rewrite <- list_fmap_compose. apply list_fmap_ext. intros i p _. simpl.
  destruct (Z.eqb_spec p.1 h); simpl; congruence.
Qed.

Lemma tx_set_other h d tx : h ∉ tx.*1 -> tx_set h d tx = tx.
Proof.
  intros Hn. unfold tx_set. rewrite <- (list_fmap_id tx) at 2. apply list_fmap_ext. intros i p Hp. simpl.
  destruct (Z.eqb_spec p.1 h) as [<-|]; [|done]. destruct Hn. apply list_elem_of_fmap.
  exists p. split; [done|by eapply list_elem_of_lookup_2].
Qed.

Lemma pins_None tx h : h ∉ tx.*1 -> pins tx !! h = None.
Proof. intros Hn. apply not_elem_of_list_to_map_1. by rewrite pins_fst. Qed.

Lemma pins_Some tx h D : NoDup tx.*1 -> (h, D) ∈ tx -> pins tx !! h = Some (mkbent D 1 None).
Proof.
  intros Hnd Hi. apply elem_of_list_to_map_1; [by rewrite pins_fst|].
  apply list_elem_of_fmap. by exists (h, D).
Qed.

Lemma pins_size tx : (size (pins tx) <= length tx)%nat.
Proof.
  induction tx as [|p tx IH]; [done|]. unfold pins in *. cbn. rewrite map_size_insert. case_match; simpl; lia.
Qed.

Lemma apply_writes_cons w ws disk : apply_writes (w :: ws) disk = apply_writes ws (<[w.1 := w.2]> disk).
Proof. done. Qed.

Lemma tx_get_in disk tx h D : NoDup tx.*1 -> (h, D) ∈ tx -> tx_get disk tx h = D.
Proof.
  unfold tx_get. revert disk. induction tx as [|[y d] tx IH]; intros disk Hnd Hi; [by apply not_elem_of_nil in Hi|].
  rewrite fmap_cons in Hnd. apply NoDup_cons in Hnd as [Hn Hnd]. rewrite apply_writes_cons.
  apply elem_of_cons in Hi as [[= -> ->]|Hi]; [|by apply IH].
  rewrite apply_writes_other by done. apply on_disk_insert.
Qed.

Lemma tx_put_fst h d tx x : x ∈ (tx_put h d tx).*1 -> x = h \/ x ∈ tx.*1.
Proof.
  unfold tx_put. case_decide; [rewrite tx_set_fst; auto|].
  rewrite fmap_app, elem_of_app. intros [?|Hx]; [by right|]. apply list_elem_of_singleton in Hx. by left.
Qed.

Lemma tx_put_nodup h d tx : NoDup tx.*1 -> NoDup (tx_put h d tx).*1.
Proof.
  intros Hnd. unfold tx_put. case_decide as Hd; [by rewrite tx_set_fst|].
  rewrite fmap_app. apply NoDup_app. split; [done|]. split; [|apply NoDup_singleton].
  intros x Hx Hy. apply list_elem_of_singleton in Hy. simpl in Hy. by subst.
Qed.

Lemma pins_put h d tx : NoDup tx.*1 -> pins (tx_put h d tx) = <[h := mkbent d 1 None]> (pins tx).
Proof.
  intros Hnd. unfold tx_put. case_decide as Hd.
  - unfold pins. induction tx as [|[y e] tx IH]; [by apply not_elem_of_nil in Hd|].
    rewrite fmap_cons in Hnd, Hd. apply NoDup_cons in Hnd as [Hn Hnd]. cbn [fst] in Hn.
    unfold tx_set. rewrite fmap_cons. cbn [fst]. fold (tx_set h d tx). destruct (Z.eqb_spec y h) as [->|Hne].
    + rewrite tx_set_other by done. cbn. by rewrite insert_insert_eq.
    + cbn. rewrite insert_insert_ne by congruence. f_equal. apply IH; [done|].
      apply elem_of_cons in Hd as [Heq|]; [by cbn in Heq|done].
  - unfold pins. rewrite fmap_app. cbn. apply list_to_map_snoc. by rewrite pins_fst.
Qed.

Lemma tx_get_put disk h d tx x :
  NoDup tx.*1 -> tx_get disk (tx_put h d tx) x = if decide (x = h) then d else tx_get disk tx x.
Proof.
  intros Hnd. unfold tx_get, tx_put. case_decide as Hd.
  - revert disk. induction tx as [|[y e] tx IH]; intros disk; [by apply not_elem_of_nil in Hd|].
    rewrite fmap_cons in Hnd, Hd. apply NoDup_cons in Hnd as [Hn Hnd]. cbn [fst] in Hn.
    unfold tx_set. rewrite fmap_cons. cbn [fst]. fold (tx_set h d tx). destruct (Z.eqb_spec y h) as [->|Hne].
    + rewrite tx_set_other by done. rewrite !apply_writes_cons. cbn [fst snd]. case_decide as Hx.
      * subst x. rewrite apply_writes_other by done. apply on_disk_insert.
      * apply apply_writes_agree. intros _. by rewrite !on_disk_insert_ne by congruence.
    + rewrite !apply_writes_cons. cbn [fst snd]. apply IH; [done|]. apply elem_of_cons in Hd as [Heq|]; [|done].
      by cbn in Heq.
  - rewrite apply_writes_app. cbn. case_decide as Hx; [subst x; apply on_disk_insert|].
    apply on_disk_insert_ne. congruence.
Qed.

(** ** Transactions *)

(** A caller's update of one block: read it, change it, hand it to the log. *)
Definition update_block (u : Z * (list Z -> list Z)) : K unit :=
  b <- bread ROOTDEV u.1;;
  setbuf b (set_b_data u.2);;
  log_write b;;
  brelse b.

Fixpoint updates (us : list (Z * (list Z -> list Z))) : K unit :=
  match us with
  | [] => ret tt
  | u :: us' => update_block u;; updates us'
  end.

Definition transaction (us : list (Z * (list Z -> list Z))) : K unit :=
  begin_op;; updates us;; end_op.

(** What the updates mean on a disk. *)
Definition updated (us : list (Z * (list Z -> list Z))) (disk : gmap Z (list Z)) : gmap Z (list Z) :=
  foldl (fun d u => <[u.1 := u.2 (on_disk d u.1)]> d) disk us.

(** The state inside a transaction that has written [tx] so far. *)
Record intx (s : kstate) (me : nat) (disk : gmap Z (list Z)) (start : Z) (tx : list (Z * list Z)) : Prop := {
  it_world : bworld s me;
  it_lock : lock_free s L_log;
  it_rep : store_rep s (Store.mkstore (pins tx) disk);
  it_log : log_at (k_log s) start tx.*1;
  it_size : lg_size (k_log s) = LOGSIZE;
  it_out : lg_outstanding (k_log s) = 1;
  it_comm : lg_committing (k_log s) = false;
  it_home : forall h, h ∈ tx.*1 -> 0 <= h < FSSIZE /\ ~ in_log start h;
  it_nodup : NoDup tx.*1;
  it_len : length (on_disk disk start) = Z.to_nat BSIZE;
  it_empty : head_is (on_disk disk start) [] }.

Lemma run_locks s0 act disk hs ws s : run s0 act disk hs ws s -> k_locks s = k_locks s0.
Proof. intros R. destruct (r_frame _ _ _ _ _ _ R) as (b & d & t & p & -> & _). done. Qed.

(** A run from a state inside a transaction to another. *)
Lemma intx_run s0 me disk start tx s l act tx' :
  intx s0 me disk start tx -> run (set_k_log (fun _ => l) s0) act disk [] [] s ->
  act = pins tx' -> log_at l start tx'.*1 -> lg_size l = LOGSIZE -> lg_outstanding l = 1 ->
  lg_committing l = false -> (forall h, h ∈ tx'.*1 -> 0 <= h < FSSIZE /\ ~ in_log start h) -> NoDup tx'.*1 ->
  intx s me disk start tx' /\ k_dtrace s = k_dtrace s0.
Proof.
  intros Hi R -> Hl H1 H2 H3 H4 H5. destruct Hi.
  pose proof (run_log _ _ _ _ _ _ R) as El. change (k_log (set_k_log ?g s0)) with (g (k_log s0)) in El.
  split; [|exact (r_tr _ _ _ _ _ _ R)]. split; rewrite ?El; try done.
  - exact (run_world _ me (bworld_setlog _ _ _ it_world0) _ _ _ _ _ R).
  - unfold lock_free. rewrite (run_locks _ _ _ _ _ _ R). exact it_lock0.
  - exact (r_rep _ _ _ _ _ _ R).
Qed.

Lemma run_nohandles s0 act disk hs ws s : run s0 act disk hs ws s -> run s0 act disk [] ws s.
Proof. intros [F R _ T]. by split. Qed.

Section Update.
Context (s : kstate) (me : nat) (disk : gmap Z (list Z)) (start : Z) (tx : list (Z * list Z)).
Context (Hi : intx s me disk start tx) (h : Z) (f : list Z -> list Z).
Context (Hh : 0 <= h < FSSIZE) (Hlog : ~ in_log start h).

Let pid := mypid s me.
Let D := tx_get disk tx h.

(** [bread] gives the block as the transaction sees it, with one reference
    more than the pin, if any. *)
Lemma update_read :
  (h ∈ tx.*1 \/ Z.of_nat (length tx) < LOGSIZE - 1) ->
  exists b s1, bread ROOTDEV h s = Done b s1 /\
    run s (<[h := mkbent D (if decide (h ∈ tx.*1) then 2 else 1) (Some pid)]> (pins tx)) disk [(b, h)] [] s1.
Proof.
  intros Hroom. pose proof (run_refl _ _ _ (it_rep _ _ _ _ _ Hi)) as R0. case_decide as Hd.
  - apply list_elem_of_fmap in Hd as ([h' D'] & [= <-] & Hin).
    replace D with D' by (symmetry; apply tx_get_in; [apply (it_nodup _ _ _ _ _ Hi)|done]).
    apply (run_pinned s me (it_world _ _ _ _ _ Hi) _ _ _ _ _ R0 h D' 1 Hh); [|lia].
    by apply pins_Some; [apply (it_nodup _ _ _ _ _ Hi)|].
  - unfold D, tx_get. rewrite apply_writes_other by done.
    apply (run_new s me (it_world _ _ _ _ _ Hi) _ _ _ _ _ R0 h Hh); [by apply pins_None|].
    destruct Hroom as [?|Hroom]; [done|]. pose proof (pins_size tx). unfold LOGSIZE, MAXOPBLOCKS, NBUF in *. lia.
Qed.

(** [log_write] on the buffer of [h], then [brelse]. *)
Lemma update_log b s2 :
  Z.of_nat (length tx) < LOGSIZE - 1 ->
  run s (<[h := mkbent (f D) (if decide (h ∈ tx.*1) then 2 else 1) (Some pid)]> (pins tx)) disk [(b, h)] [] s2 ->
  exists l s3, log_write b s2 = Done tt s3 /\
    run (set_k_log (fun _ => l) s) (<[h := mkbent (f D) 2 (Some pid)]> (pins tx)) disk [(b, h)] [] s3 /\
    log_at l start (tx_put h (f D) tx).*1 /\ lg_size l = LOGSIZE /\ lg_outstanding l = 1 /\
    lg_committing l = false.
Proof.
  intros Hroom R2. destruct Hi as [Hw Hlk Hrep Hl Hsz Hout Hcm Hhome Hnd _ _].
  pose proof (run_log _ _ _ _ _ _ R2) as El. pose proof (run_world s me Hw _ _ _ _ _ R2) as Hw2.
  assert (Hlk2 : lock_free s2 L_log) by (unfold lock_free; rewrite (run_locks _ _ _ _ _ _ R2); exact Hlk).
  assert (Hl2 : log_at (k_log s2) start tx.*1) by (by rewrite El).
  assert (Hbs : forall x, x ∈ tx.*1 -> 0 <= x < FSSIZE) by (intros x Hx; exact (proj1 (Hhome x Hx))).
  pose proof (proj1 (r_hs _ _ _ _ _ _ R2 b h ltac:(simpl; auto))) as Hhd.
  assert (Hroom2 : Z.of_nat (length tx.*1) < LOGSIZE - 1) by (by rewrite length_fmap).
  assert (Hsz2 : lg_size (k_log s2) = LOGSIZE) by (by rewrite El).
  assert (Hout2 : 1 <= lg_outstanding (k_log s2)) by (rewrite El, Hout; lia).
  unfold tx_put. case_decide as Hd.
  - exists (k_log s), s2. split; [by eapply log_write_absorb|]. rewrite tx_set_fst, (set_k_log_id _ s) by done.
    by split.
  - destruct (log_write_new s2 me b start tx.*1 h) as (s3 & l & E3 & E4 & Hl' & H1 & H2 & H3); try done.
    destruct (run_pin s me Hw _ _ _ _ _ R2 b h (f D) 1) as (s3' & E3' & R3);
      [simpl; auto|by rewrite lookup_insert_eq|lia|].
    assert (s3' = s3) as -> by congruence. rewrite insert_insert_eq in R3.
    exists l, (set_k_log (fun _ => l) s3). split; [exact E4|]. split; [exact (run_setlog _ _ _ _ _ _ _ R3)|].
    rewrite fmap_app. split; [exact Hl'|]. rewrite H1, H2, H3, El. by split.
Qed.

Lemma update_block_run :
  Z.of_nat (length tx) < LOGSIZE - 1 ->
  exists s', update_block (h, f) s = Done tt s' /\ intx s' me disk start (tx_put h (f D) tx) /\
    k_dtrace s' = k_dtrace s.
Proof.
  intros Hroom. destruct update_read as (b & s1 & E1 & R1); [by right|].
  unfold update_block. cbn [fst snd]. rewrite (bind_done _ _ _ _ _ E1).
  edestruct (run_set s me _ _ _ _ _ R1 b h) with (f := f) as (s2 & E2 & R2);
    [simpl; auto|by rewrite lookup_insert_eq|].
  rewrite (bind_done _ _ _ _ _ E2). rewrite insert_insert_eq in R2.
  destruct (update_log b s2 Hroom R2) as (l & s3 & E3 & R3 & Hl & H1 & H2 & H3).
  rewrite (bind_done _ _ _ _ _ E3).
  edestruct (run_drop_one _ me (bworld_setlog _ _ _ (it_world _ _ _ _ _ Hi)) _ _ _ _ _ R3 b h (f D) 2)
    as (s4 & E4 & R4); [simpl; auto|by rewrite lookup_insert_eq|lia|].
  exists s4. split; [exact E4|]. rewrite insert_insert_eq in R4.
  eapply intx_run; [exact Hi| | |exact Hl|done..| |].
  - apply run_nohandles with (hs := [(b, h)]). exact R4.
  - symmetry. by apply pins_put; apply (it_nodup _ _ _ _ _ Hi).
  - intros x [->|Hx]%tx_put_fst; [by split|]. by apply (it_home _ _ _ _ _ Hi).
  - apply tx_put_nodup, (it_nodup _ _ _ _ _ Hi).
Qed.
End Update.

Lemma updated_agree us d1 d2 :
  (forall x, on_disk d1 x = on_disk d2 x) -> forall x, on_disk (updated us d1) x = on_disk (updated us d2) x.
Proof.
  revert d1 d2. induction us as [|[h f] us IH]; intros d1 d2 Hd x; [apply Hd|].
  apply (IH (<[h := f (on_disk d1 h)]> d1) (<[h := f (on_disk d2 h)]> d2)). intros y.
  destruct (decide (h = y)) as [->|]; [by rewrite !on_disk_insert, Hd|]. by rewrite !on_disk_insert_ne.
Qed.

Lemma nodup_size (X : gset Z) (l : list Z) : NoDup l -> (forall x, x ∈ l -> x ∈ X) -> (length l <= size X)%nat.
Proof.
  intros Hnd Hs. rewrite <- (size_list_to_set (C := gset Z) l Hnd). apply subseteq_size.
  intros x Hx. apply Hs. by apply elem_of_list_to_set in Hx.
Qed.

(** A group of updates that touch at most [MAXOPBLOCKS] blocks. *)
Definition small (start : Z) (us : list (Z * (list Z -> list Z))) : Prop :=
  Z.of_nat (size (list_to_set us.*1 : gset Z)) <= MAXOPBLOCKS /\
  forall h, h ∈ us.*1 -> 0 <= h < FSSIZE /\ ~ in_log start h.

Lemma updates_run (X : gset Z) us s me disk start tx :
  Z.of_nat (size X) <= MAXOPBLOCKS ->
  intx s me disk start tx -> (forall h, h ∈ tx.*1 -> h ∈ X) ->
  (forall h, h ∈ us.*1 -> h ∈ X /\ 0 <= h < FSSIZE /\ ~ in_log start h) ->
  exists s' tx', updates us s = Done tt s' /\ intx s' me disk start tx' /\ k_dtrace s' = k_dtrace s /\
    forall x, tx_get disk tx' x = on_disk (updated us (apply_writes tx disk)) x.
Proof.
  intros HX. revert s tx. induction us as [|[h f] us IH]; intros s tx Hi Ht Hu; [by exists s, tx|].
  rewrite fmap_cons in Hu. destruct (Hu h) as (HhX & Hr & Hn); [left|].
  pose proof (nodup_size X _ (it_nodup _ _ _ _ _ Hi) Ht) as Hlen. rewrite length_fmap in Hlen.
  destruct (update_block_run s me disk start tx Hi h f Hr Hn) as (s1 & E1 & Hi1 & T1);
    [unfold LOGSIZE, MAXOPBLOCKS in *; lia|].
  destruct (IH s1 _ Hi1) as (s2 & tx2 & E2 & Hi2 & T2 & Hg).
  - intros x [->|Hx]%tx_put_fst; [done|by apply Ht].
  - intros x Hx. apply Hu. by right.
  - exists s2, tx2. cbn [updates]. rewrite (bind_done _ _ _ _ _ E1). split; [exact E2|]. split; [exact Hi2|].
    split; [by rewrite T2|]. intros x. rewrite Hg. apply (updated_agree us). clear x. intros x.
    fold (tx_get disk (tx_put h (f (tx_get disk tx h)) tx) x). rewrite tx_get_put by apply (it_nodup _ _ _ _ _ Hi).
    case_decide as Hx; [subst x; cbn; by rewrite on_disk_insert|]. cbn. by rewrite on_disk_insert_ne.
Qed.

(** ** [begin_op] and [end_op] *)

(** The buffers, the disk, the log in memory and the scheduling states may
    have changed, nothing else. *)
Definition lframe (s s' : kstate) : Prop := exists l, bframe (set_k_log (fun _ => l) s) s'.

Lemma bframe_setlog s s' g : bframe s s' -> bframe (set_k_log g s) (set_k_log g s').
Proof. intros (b & d & t & p & -> & Hl & Hp). by exists b, d, t, p. Qed.

Lemma lframe_trans s1 s2 s3 : lframe s1 s2 -> lframe s2 s3 -> lframe s1 s3.
Proof.
  intros [l F] [l' F']. exists l'. eapply bframe_trans, F'. exact (bframe_setlog _ _ (fun _ => l') F).
Qed.

Lemma lframe_log s g : lframe s (set_k_log g s).
Proof. exists (g (k_log s)). apply bframe_refl. Qed.


(** The log between transactions. *)
Record log_ok (s : kstate) (me : nat) (start : Z) : Prop := {
  ok_world : bworld s me;
  ok_lock : lock_free s L_log;
  ok_rep : store_rep s (Store.mkstore ∅ (k_disk s));
  ok_log : log_at (k_log s) start [];
  ok_size : lg_size (k_log s) = LOGSIZE;
  ok_out : lg_outstanding (k_log s) = 0;
  ok_comm : lg_committing (k_log s) = false;
  ok_len : length (on_disk (k_disk s) start) = Z.to_nat BSIZE;
  ok_empty : head_is (on_disk (k_disk s) start) [] }.

Lemma log_locked s me g (m : K unit) :
  bworld s me -> lock_free s L_log ->
  m (acq L_log s) = Done tt (acq L_log (set_k_log g s)) ->
  (acquire L_log;; m;; release L_log) s = Done tt (set_k_log g s).
Proof.
  intros Hw Hl Hm. rewrite (bind_done _ _ _ _ _ (acquire_spec _ _ Hl)), (bind_done _ _ _ _ _ Hm).
  apply release_acq; [apply Hw|exact Hl].
Qed.

Lemma begin_op_run s me start :
  log_ok s me start ->
  exists s', begin_op s = Done tt s' /\ intx s' me (k_disk s) start [] /\ k_dtrace s' = k_dtrace s /\ lframe s s'.
Proof.
  intros [Hw Hlk Hrep Hl Hsz Hout Hcm Hlen Hemp].
  exists (set_k_log (set_lg_outstanding (fun n => n + 1)) s). split.
  - unfold begin_op. rewrite (bind_done _ _ _ _ _ (acquire_spec _ _ Hlk)).
    unfold sleep_fuel. change 1000%nat with (S 999). generalize 999%nat. intros fuel. cbn [begin_op_loop]. unfold getlog. kstep. rewrite acq_k_log. prw Hcm.
    prw (la_n _ _ _ Hl). prw Hout. change (_ >? LOGSIZE) with false. unfold setlog. kstep.
    rewrite acq_set_k_log. apply release_acq; [apply Hw|exact Hlk].
  - split; [|split; [done|apply lframe_log]]. destruct Hl as [L1 L2 L3 L4 L5 L6 L7].
    assert (Hb : forall h, h ∈ ([] : list (Z * list Z)).*1 -> 0 <= h < FSSIZE /\ ~ in_log start h)
      by (intros h Hx; by apply not_elem_of_nil in Hx).
    split; [by apply bworld_setlog|exact Hlk|exact Hrep|by split|exact Hsz| |exact Hcm|exact Hb|constructor|done|done].
    cbn. change (lg_outstanding (k_log s)) with (lg_outstanding (k_log s)). rewrite Hout. done.
Qed.

Lemma bworld_procs f s me : length (f (k_procs s)) = length (k_procs s) -> bworld s me -> bworld (set_k_procs f s) me.
Proof.
  intros Hf ((H1 & H2 & H3 & H4 & H5 & H6) & Hb & Hs). split; [|split; [exact Hb|exact Hs]].
  split; [exact H1|]. split; [exact H2|]. split; [exact H3|]. split; [by rewrite <- H4|]. split; [exact H5|exact H6].
Qed.

Lemma unpin_pins tx : NoDup tx.*1 -> unpin_all tx (pins tx) = ∅.
Proof.
  unfold unpin_all, pins. induction tx as [|[h d] tx IH]; intros Hnd; [done|].
  rewrite fmap_cons in Hnd. apply NoDup_cons in Hnd as [Hn Hnd]. cbn.
  rewrite delete_insert_id by (apply not_elem_of_list_to_map_1; by rewrite pins_fst). by apply IH.
Qed.

(** The end of [end_op]: change the log, wake the processes that wait for it. *)
Lemma log_wake s me g :
  bworld s me -> lock_free s L_log ->
  exists ps,
    (acquire L_log;; modify (set_k_log g);; wakeup CH_log;; release L_log) s =
      Done tt (set_k_procs (fun _ => ps) (set_k_log g s)) /\ length ps = length (k_procs s) /\
    forall i, same_proc (ps !!! i) (k_procs s !!! i).
Proof.
  intros ((Hc & Hm & H0 & Hlen & Hme & Hp) & _ & _) Hlk. eexists. split.
  - rewrite (bind_done _ _ _ _ _ (acquire_spec _ _ Hlk)). kstep. rewrite acq_set_k_log.
    erewrite bind_done.
    2: { apply wakeup_spec; [by apply cpu_ok_acq|]. intros i Hi _. apply lock_free_acq; [done|]. by apply Hp. }
    rewrite acq_set_k_procs, release_acq; [|exact Hc|exact Hlk]. apply f_equal, set_k_procs_ext. reflexivity.
  - cbv beta. split; [by rewrite length_woken|]. intros i. apply woken_same.
Qed.

Section EndOp.
Context (s : kstate) (me : nat) (disk : gmap Z (list Z)) (start : Z) (tx : list (Z * list Z)).
Context (Hi : intx s me disk start tx).

Definition tx_writes : list (Z * list Z) := if decide (tx = []) then [] else commit_writes start tx disk.

(** The log while [end_op] commits. *)
Definition committing (l : log) : log :=
  set_lg_committing (fun _ => true) (set_lg_outstanding (fun n => n - 1) l).

Lemma ready_tx : ready (set_k_log committing s) me (pins tx) disk start tx.
Proof.
  destruct Hi as [Hw Hlk Hrep Hl Hsz Hout Hcm Hhome Hnd Hlen Hemp].
  split; [by apply bworld_setlog|exact Hrep|destruct Hl; by split|exact Hhome|exact Hnd| | | |exact Hlen|exact Hemp].
  - intros h D Hin. by apply pins_Some.
  - intros x Hx. apply pins_None. intros Hin. exact (proj2 (Hhome x Hin) Hx).
  - pose proof (pins_size tx). pose proof (la_max _ _ _ Hl) as Hm. rewrite length_fmap in Hm.
    unfold LOGSIZE, MAXOPBLOCKS, NBUF in *. lia.
Qed.

Lemma commit_any :
  exists s1, commit (set_k_log committing s) = Done tt s1 /\
    run (set_k_log (set_lg_n (fun _ => 0)) (set_k_log committing s)) ∅ (apply_writes tx_writes disk) [] tx_writes s1.
Proof.
  unfold tx_writes. pose proof (it_log _ _ _ _ _ Hi) as Hl. case_decide as Hne.
  - exists (set_k_log committing s). split.
    + unfold commit, getlog. kstep. change (k_log (set_k_log committing s)) with (committing (k_log s)).
      change (lg_n (committing (k_log s))) with (lg_n (k_log s)). prw (la_n _ _ _ Hl). rewrite Hne. done.
    + rewrite set_set_k_log, (set_k_log_ext _ committing).
      * pose proof (it_rep _ _ _ _ _ Hi) as Hrep. rewrite Hne in Hrep. apply run_refl. exact Hrep.
      * pose proof (la_n _ _ _ Hl) as Hn. rewrite Hne in Hn. destruct (k_log s). cbn in *. by rewrite Hn.
  - destruct (commit_run ready_tx Hne) as (s1 & E & R). exists s1. split; [exact E|].
    by rewrite unpin_pins in R by apply (it_nodup _ _ _ _ _ Hi).
Qed.

(** The log header on disk is empty again. *)
Lemma tx_writes_head :
  length (on_disk (apply_writes tx_writes disk) start) = Z.to_nat BSIZE /\
  head_is (on_disk (apply_writes tx_writes disk) start) [].
Proof.
  unfold tx_writes. case_decide as Hne; [split; [apply (it_len _ _ _ _ _ Hi)|apply (it_empty _ _ _ _ _ Hi)]|].
  unfold commit_writes. rewrite !apply_writes_app. cbn [apply_writes foldl fst snd]. rewrite on_disk_insert.
  destruct (head_full ready_tx) as [Hhl _].
  split; [by apply head_data_len|by apply head_data_is; [..|intros ? ?%not_elem_of_nil]].
Qed.

Lemma tx_writes_fs : same_fs start (apply_writes tx_writes disk) (apply_writes tx disk).
Proof.
  intros x Hx. unfold tx_writes. case_decide as Hne; [by rewrite Hne|].
  unfold commit_writes. rewrite !apply_writes_app. cbn [apply_writes foldl fst snd].
  assert (start <> x) by (intros <-; apply Hx, start_in_log). rewrite on_disk_insert_ne by done.
  apply apply_writes_agree. intros _. rewrite on_disk_insert_ne by done.
  by apply (log_writes_same ready_tx).
Qed.

Lemma tx_writes_len : ((if decide (tx = []) then 0 else S (length tx)) <= length tx_writes)%nat.
Proof.
  unfold tx_writes. case_decide; [done|]. unfold commit_writes. rewrite !length_app, logs_len. simpl. lia.
Qed.

Lemma end_op_run :
  exists s', end_op s = Done tt s' /\ log_ok s' me start /\ k_disk s' = apply_writes tx_writes disk /\
    k_dtrace s' = rev tx_writes ++ k_dtrace s /\ lframe s s'.
Proof.
  destruct commit_any as (s1 & E1 & R1). destruct tx_writes_head as [Hhl Hhe].
  destruct Hi as [Hw Hlk Hrep Hl Hsz Hout Hcm Hhome Hnd Hlen Hemp].
  unfold end_op. rewrite (bind_done _ _ _ _ _ (acquire_spec _ _ Hlk)). unfold setlog, getlog. kstep.
  rewrite acq_set_k_log, acq_k_log. change (k_log (set_k_log ?g s)) with (g (k_log s)).
  change (lg_committing (set_lg_outstanding ?g (k_log s))) with (lg_committing (k_log s)). prw Hcm.
  change (lg_outstanding (set_lg_outstanding ?g (k_log s))) with (g (lg_outstanding (k_log s))). cbv beta. prw Hout.
  change (1 - 1 =? 0) with true. cbv iota. erewrite bind_done by (kstep; reflexivity).
  rewrite acq_set_k_log, set_set_k_log. fold committing.
  rewrite (bind_done _ _ _ _ _ (release_acq L_log (set_k_log committing s) (proj1 (proj1 Hw)) Hlk)).
  unfold when. rewrite (bind_done _ _ _ _ _ E1).
  pose proof (run_world _ me (bworld_setlog _ _ _ (bworld_setlog _ _ _ Hw)) _ _ _ _ _ R1) as Hw1.
  assert (Hlk1 : lock_free s1 L_log) by (unfold lock_free; rewrite (run_locks _ _ _ _ _ _ R1); exact Hlk).
  destruct (log_wake s1 me (set_lg_committing (fun _ => false)) Hw1 Hlk1) as (ps & E2 & Hps & Hsp).
  eexists. split; [exact E2|]. destruct (r_rep _ _ _ _ _ _ R1) as [Hrep1 Hd1]. cbn [Store.disk] in Hd1.
  pose proof (run_log _ _ _ _ _ _ R1) as El. set (s2 := set_k_procs _ _).
  assert (El2 : k_log s2 = set_lg_committing (fun _ => false) (set_lg_n (fun _ => 0) (committing (k_log s))))
    by (exact (f_equal (set_lg_committing (fun _ => false)) El)).
  assert (Ed2 : k_disk s2 = apply_writes tx_writes disk) by (exact Hd1).
  split; [|split; [exact Ed2|split; [exact (r_tr _ _ _ _ _ _ R1)|]]].
  2: { apply (lframe_trans _ s1); [exists (k_log s1); rewrite El; exact (r_frame _ _ _ _ _ _ R1)|].
    exists (set_lg_committing (fun _ => false) (k_log s1)). exists (k_bufs s1), (k_disk s1), (k_dtrace s1), ps.
    split; [done|]. split; [exact Hps|exact Hsp]. }
  split; rewrite ?El2, ?Ed2; [apply bworld_procs; [exact Hps|by apply bworld_setlog]|exact Hlk1|
    |by destruct Hl; split|exact Hsz| |done|exact Hhl|exact Hhe].
  - split; [exact Hrep1|exact Hd1].
  - cbn. change (lg_outstanding (k_log s)) with (lg_outstanding (k_log s)). by rewrite Hout.
Qed.
End EndOp.

(** ** Recovery *)

(** The kernel when [fsinit] calls [initlog]: the cache is empty, the log in
    memory is as the loader left it, and the superblock places the log. *)
Record booted (s : kstate) (me : nat) (sb : superblock) (start : Z) (disk : gmap Z (list Z)) : Prop := {
  bt_world : bworld s me;
  bt_rep : store_rep s (Store.mkstore ∅ disk);
  bt_block : length (lg_block (k_log s)) = Z.to_nat LOGSIZE;
  bt_out : lg_outstanding (k_log s) = 0;
  bt_comm : lg_committing (k_log s) = false;
  bt_start : sb_logstart sb = start;
  bt_nlog : sb_nlog sb = LOGSIZE;
  bt_range : 0 <= start /\ start + LOGSIZE <= FSSIZE }.

Lemma lock_free_init s l l' nm :
  lock_free s l' \/ l = l' -> lock_free (setlock l (fun _ => mkspinlock 0 nm None) s) l'.
Proof.
  intros Hl. exact (proj2 (initialised_lock s l nm (fun x => x)) l' Hl).
Qed.

Lemma bworld_initlock s me nm : bworld s me -> bworld (setlock L_log (fun _ => mkspinlock 0 nm None) s) me.
Proof.
  intros ((H1 & H2 & H3 & H4 & H5 & H6) & Hb & Hs).
  split; [|split; [by apply lock_free_init; left|intros i Hi; apply lock_free_init; left; by apply Hs]].
  split; [exact H1|]. split; [exact H2|]. split; [exact H3|]. split; [exact H4|]. split; [exact H5|].
  intros i Hi. apply lock_free_init. left. by apply H6.
Qed.

Lemma recovery_prefix start d t bs k :
  length (on_disk d start) = Z.to_nat BSIZE -> head_is (on_disk d start) bs ->
  (forall h, h ∈ bs -> 0 <= h < FSSIZE /\ ~ in_log start h) -> NoDup bs ->
  same_fs start (apply_writes (logged d start 0 bs) d) t ->
  let tx := logged d start 0 bs in
  let ws := tx ++ [(start, head_data [] (on_disk (apply_writes tx d) start))] in
  recovers_to start (apply_writes (take k ws) d) t.
Proof.
  intros Hl Hh Hb Hnd Ht tx ws. assert (Etx : tx.*1 = bs) by apply logged_fst.
  assert (Hst : start ∉ tx.*1).
  { rewrite Etx. intros Hi. apply (proj2 (Hb _ Hi)). unfold in_log, LOGSIZE, MAXOPBLOCKS. lia. }
  destruct (decide (k <= length tx)%nat) as [Hk|Hk]; unfold ws.
  - rewrite take_app_le by done. apply recovers_logged; rewrite ?Etx; try done.
    intros j p Hj. exact (logged_lookup _ _ 0 _ _ _ Hj).
  - rewrite take_ge by (rewrite length_app; simpl; lia). rewrite apply_writes_app.
    cbn [apply_writes foldl fst snd]. fold (apply_writes tx d).
    rewrite (apply_writes_other tx d start Hst).
    apply recovers_empty; rewrite ?on_disk_insert; [by apply head_data_len|by apply head_data_is; [..|intros ? ?%not_elem_of_nil]|].
    intros x Hx. rewrite on_disk_insert_ne; [by apply Ht|]. intros <-. apply Hx. unfold in_log, LOGSIZE, MAXOPBLOCKS. lia.
Qed.

Lemma initlog_run s me sb start disk t :
  booted s me sb start disk -> recovers_to start disk t ->
  exists s' ws, initlog ROOTDEV sb s = Done tt s' /\ log_ok s' me start /\ same_fs start (k_disk s') t /\
    k_disk s' = apply_writes ws disk /\ k_dtrace s' = rev ws ++ k_dtrace s /\
    (forall k, recovers_to start (apply_writes (take k ws) disk) t) /\
    bframe (set_k_log (fun _ => k_log s') (setlock L_log (fun _ => mkspinlock 0 "log" None) s)) s'.
Proof.
  intros [Hw Hrep Hblk Hout Hcm Hst Hnl Hr] (Hlen & bs & Hh & Hb & Hnd & Ht).
  assert (Hs32 : s32 start = start) by (apply s32_small; unfold FSSIZE, LOGSIZE, MAXOPBLOCKS in *; lia).
  unfold initlog. change (4 + 4 * LOGSIZE >=? BSIZE) with false. cbv iota.
  unfold initlock, setlog. kstep. rewrite Hst, Hnl, Hs32. set (s0 := set_k_log _ (set_k_log _ _)).
  destruct (recover_run s0 me disk start bs) as (s' & E & F & Hl' & (K1 & K2 & K3) & Hrep' & Htr);
    [by repeat apply bworld_setlog; apply bworld_initlock|exact Hrep|done|done|exact Hblk|exact Hr|done..|].
  set (tx := logged disk start 0 bs) in *. set (ws := tx ++ _) in *. cbv zeta in *.
  destruct Hrep' as [Hrep' Hd']. cbn [Store.disk] in Hd'.
  assert (Hstx : start ∉ tx.*1).
  { unfold tx. rewrite logged_fst. intros Hi. apply (proj2 (Hb _ Hi)), start_in_log. }
  assert (Ews : apply_writes ws disk = <[start := head_data [] (on_disk disk start)]> (apply_writes tx disk)).
  { unfold ws. rewrite apply_writes_app. cbn [apply_writes foldl fst snd]. fold (apply_writes tx disk).
    by rewrite (apply_writes_other tx disk start Hstx). }
  assert (Hlk : lock_free s' L_log).
  { destruct F as (b & d & tr & p & -> & _). exact (lock_free_init s L_log L_log "log" (or_intror eq_refl)). }
  exists s', ws. split; [exact E|]. split; [|split; [|split; [exact Hd'|split; [exact Htr|split]]]].
  - split; rewrite ?K1, ?K2, ?K3, ?Hd', ?Ews, ?on_disk_insert.
    + eapply bframe_world; [exact F|]. by repeat apply bworld_setlog; apply bworld_initlock.
    + exact Hlk.
    + rewrite <- Ews. split; [exact Hrep'|exact Hd'].
    + exact Hl'.
    + done.
    + exact Hout.
    + exact Hcm.
    + by apply head_data_len.
    + by apply head_data_is; [..|intros ? ?%not_elem_of_nil].
  - intros x Hx. rewrite Hd', Ews, on_disk_insert_ne by (intros <-; apply Hx, start_in_log). by apply Ht.
  - intros k. by apply recovery_prefix.
  - unfold s0 in F. by rewrite !set_set_k_log in F.
Qed.

(** ** Atomicity and durability *)
(** [end_op] of the only operation: whenever the machine stops, the disk
    recovers to the state before or after all of the operation's writes. *)
Lemma end_op_atomic s me disk start tx :
  intx s me disk start tx ->
  exists s' ws c, end_op s = Done tt s' /\ log_ok s' me start /\
    same_fs start (k_disk s') (apply_writes tx disk) /\
    k_dtrace s' = rev ws ++ k_dtrace s /\ k_disk s' = apply_writes ws disk /\ lframe s s' /\ (c <= length ws)%nat /\
    forall k, recovers_to start (apply_writes (take k ws) disk) (if (k <? c)%nat then disk else apply_writes tx disk).
Proof.
  intros Hi. destruct (end_op_run s me disk start tx Hi) as (s' & E & Hok & Hd & T & F).
  exists s', (tx_writes disk start tx), (if decide (tx = []) then 0%nat else S (length tx)).
  split; [exact E|]. split; [exact Hok|].
  split; [intros x Hx; rewrite Hd; exact (tx_writes_fs s me disk start tx Hi x Hx)|].
  split; [exact T|]. split; [exact Hd|]. split; [exact F|]. split; [apply tx_writes_len|].
  intros k. unfold tx_writes. case_decide as Hne.
  - rewrite take_nil. apply recovers_empty; [exact (it_len _ _ _ _ _ Hi)|exact (it_empty _ _ _ _ _ Hi)|].
    intros x _. rewrite (proj2 (Nat.ltb_ge _ _)) by lia. by rewrite Hne.
  - destruct (commit_prefix (ready_tx _ _ _ _ _ Hi) k) as [H1 H2].
    destruct (Nat.ltb_spec k (S (length tx))); [apply H1; lia|apply H2; lia].
Qed.

Lemma recovers_same start disk t t' : recovers_to start disk t -> same_fs start t t' -> recovers_to start disk t'.
Proof.
  intros (Hl & bs & Hh & Hb & Hnd & Hs) Ht. split; [exact Hl|]. exists bs. split; [exact Hh|]. split; [exact Hb|].
  split; [exact Hnd|]. intros x Hx. by rewrite (Hs x Hx), (Ht x Hx).
Qed.

Module LogAtomic.

(** C2: a group of block updates between [begin_op] and [end_op] that touches
    at most [MAXOPBLOCKS] blocks returns, leaves the log ready for the next
    group, and installs the updates. It makes a sequence [ws] of block writes
    with a commit point [c]: if the machine stops after any [k] of them and
    boots again, [initlog] returns with the log ready, and the file system is
    the old one when [k < c], the updated one when [c <= k]; never a mixture. *)
Theorem transaction_atomic s me start us :
  log_ok s me start -> small start us ->
  exists s' ws c, transaction us s = Done tt s' /\ log_ok s' me start /\
    same_fs start (k_disk s') (updated us (k_disk s)) /\
    k_dtrace s' = rev ws ++ k_dtrace s /\ k_disk s' = apply_writes ws (k_disk s) /\ (c <= length ws)%nat /\
    forall k b me' sb, booted b me' sb start (apply_writes (take k ws) (k_disk s)) ->
      exists b', initlog ROOTDEV sb b = Done tt b' /\ log_ok b' me' start /\
        same_fs start (k_disk b') (if (k <? c)%nat then k_disk s else updated us (k_disk s)).
Proof.
  intros Hok [HX Hu]. destruct (begin_op_run s me start Hok) as (s1 & E1 & Hi1 & T1 & _).
  destruct (updates_run (list_to_set us.*1) us s1 me _ start [] HX Hi1) as (s2 & tx & E2 & Hi2 & T2 & Hg).
  { intros h Hx. by apply not_elem_of_nil in Hx. }
  { intros h Hx. split; [by apply elem_of_list_to_set|by apply Hu]. }
  destruct (end_op_atomic s2 me _ start tx Hi2) as (s3 & ws & c & E3 & Hok3 & Hfs & T3 & Hd3 & _ & Hc & Hcrash).
  assert (Hsame : same_fs start (apply_writes tx (k_disk s)) (updated us (k_disk s))) by (intros x _; apply Hg).
  exists s3, ws, c. split; [unfold transaction; by rewrite (bind_done _ _ _ _ _ E1), (bind_done _ _ _ _ _ E2)|].
  split; [exact Hok3|]. split; [intros x Hx; by rewrite (Hfs x Hx), (Hsame x Hx)|].
  split; [by rewrite T3, T2, T1|]. split; [exact Hd3|]. split; [exact Hc|]. intros k b me' sb Hb.
  assert (Hr : recovers_to start (apply_writes (take k ws) (k_disk s))
    (if (k <? c)%nat then k_disk s else updated us (k_disk s))).
  { eapply recovers_same; [apply Hcrash|]. by destruct (k <? c)%nat. }
  destruct (initlog_run b me' sb start _ _ Hb Hr) as (b' & ws' & E & Hk & Hs & _).
  exists b'. split; [exact E|]. split; [exact Hk|exact Hs].
Qed.

(** C7: recovery can itself be interrupted. If replaying the log on the disk
    makes the file system [t], [initlog] returns with the log ready and the
    file system [t], and so does any later recovery that starts after only
    the first [k] of its block writes reached the disk. *)
Theorem recovery_restartable s me sb start disk t :
  booted s me sb start disk -> recovers_to start disk t ->
  exists s' ws, initlog ROOTDEV sb s = Done tt s' /\ log_ok s' me start /\ same_fs start (k_disk s') t /\
    k_dtrace s' = rev ws ++ k_dtrace s /\
    forall k, recovers_to start (apply_writes (take k ws) disk) t.
Proof.
  intros Hb Ht. destruct (initlog_run s me sb start disk t Hb Ht) as (s' & ws & E & Ho & Hs & _ & T & Hk & _).
  exists s', ws. split; [exact E|]. split; [exact Ho|]. split; [exact Hs|]. split; [exact T|exact Hk].
Qed.

(** ** A machine to run it on *)

Definition test_sb : superblock := mksb 270544960 FSSIZE 954 200 LOGSIZE 2 32 45.

Definition boot_state (disk : gmap Z (list Z)) : kstate :=
  match binit (set_k_disk (fun _ => disk) sl_test_state) with Done _ s => s | _ => sl_test_state end.

Lemma boot_state_booted disk : booted (boot_state disk) 3 test_sb 2 disk.
Proof.
  destruct (binit_spec (set_k_disk (fun _ => disk) sl_test_state) 3 quiet_sl_test eq_refl)
    as (s1 & E & Hw & Hs & _ & Hl & _).
  unfold boot_state. rewrite E. clear E.
  split; [exact Hw|exact Hs|rewrite Hl; reflexivity|rewrite Hl; reflexivity|rewrite Hl; reflexivity|done|done|].
  by vm_compute.
Qed.

Lemma zero_head : length (on_disk ∅ 2) = Z.to_nat BSIZE /\ head_is (on_disk ∅ 2) [].
Proof.
  split; [vm_compute; reflexivity|]. split; [vm_compute; reflexivity|vm_compute; reflexivity|done].
Qed.

Lemma zero_recovers : recovers_to 2 ∅ ∅.
Proof. destruct zero_head. by apply recovers_empty. Qed.

(** Two blocks written, one of them twice. *)
Definition test_updates : list (Z * (list Z -> list Z)) :=
  [(100, fun _ => [1]); (200, fun _ => [2]); (100, cons 3)].

Lemma test_small : small 2 test_updates.
Proof.
  split; [vm_compute; done|]. intros h Hh. unfold in_log.
  repeat (apply elem_of_cons in Hh as [->|Hh]; [vm_compute; split; [split; congruence|intros []; congruence]|]).
  by apply not_elem_of_nil in Hh.
Qed.

(** The machine boots on an empty disk, runs the transaction, stops after
    three block writes and boots again. *)
Lemma transaction_atomic_witness :
  exists s s' b' disk, initlog ROOTDEV test_sb (boot_state ∅) = Done tt s /\
    transaction test_updates s = Done tt s' /\ on_disk (k_disk s') 100 = [3; 1] /\
    initlog ROOTDEV test_sb (boot_state disk) = Done tt b' /\
    (on_disk (k_disk b') 100 = zeroblock /\ on_disk (k_disk b') 200 = zeroblock \/
     on_disk (k_disk b') 100 = [3; 1] /\ on_disk (k_disk b') 200 = [2]).
Proof.
  destruct (initlog_run _ 3 test_sb 2 ∅ ∅ (boot_state_booted ∅) zero_recovers) as (s & ws0 & E0 & Hok & Hs0 & _).
  destruct (transaction_atomic s 3 2 test_updates Hok test_small)
    as (s' & ws & c & E & _ & Hfs & _ & _ & _ & Hcrash).
  destruct (Hcrash 3%nat _ 3%nat test_sb (boot_state_booted _)) as (b' & Eb & _ & Hb).
  assert (H1 : ~ in_log 2 100) by (unfold in_log, LOGSIZE, MAXOPBLOCKS; lia).
  assert (H2 : ~ in_log 2 200) by (unfold in_log, LOGSIZE, MAXOPBLOCKS; lia).
  assert (Hu1 : on_disk (updated test_updates (k_disk s)) 100 = [3; 1]).
  { unfold updated, test_updates. cbn [foldl fst snd]. by rewrite on_disk_insert, on_disk_insert_ne, on_disk_insert. }
  assert (Hu2 : on_disk (updated test_updates (k_disk s)) 200 = [2]).
  { unfold updated, test_updates. cbn [foldl fst snd]. by rewrite on_disk_insert_ne, on_disk_insert. }
  eexists s, s', b', _. split; [exact E0|]. split; [exact E|]. split; [by rewrite (Hfs 100 H1)|].
  split; [exact Eb|]. pose proof (Hb 100 H1) as B1. pose proof (Hb 200 H2) as B2.
  destruct (3 <? c)%nat; [left|right].
  - rewrite B1, B2, (Hs0 100 H1), (Hs0 200 H2). split; reflexivity.
  - rewrite B1, B2. split; [exact Hu1|exact Hu2].
Defined.

Lemma recovery_restartable_witness :
  exists s', initlog ROOTDEV test_sb (boot_state ∅) = Done tt s' /\ log_ok s' 3 2.
Proof.
  destruct (recovery_restartable (boot_state ∅) 3 test_sb 2 ∅ ∅ (boot_state_booted ∅) zero_recovers)
    as (s' & ws & E & Hok & _).
  exists s'. split; [exact E|exact Hok].
Defined.
End LogAtomic.

(** ** Admission *)
Module LogSpace.

(** Room in the log for one more transaction. *)
Definition has_room (l : log) : Prop :=
  lg_committing l = false /\ lg_n l + (lg_outstanding l + 1) * MAXOPBLOCKS <= LOGSIZE.

(** What [begin_op] does between two switches: it sleeps and leaves the log as
    it is when there is no room, and otherwise counts itself and returns. *)
Definition refused (s0 s : kstate) : Prop := ~ has_room (k_log s0) /\ k_log s = k_log s0.
Definition admitted (_ : unit) (s0 s : kstate) : Prop :=
  has_room (k_log s0) /\ k_log s = set_lg_outstanding (fun n => n + 1) (k_log s0).

Lemma unmoved_log me s s' : unmoved me s s' -> k_log s' = k_log s.
Proof. by intros (_ & _ & H & _). Qed.

Lemma begin_op_loop_segments me fuel s s0 :
  quiet s me -> lock_free s L_log -> unmoved me s0 s ->
  segments fuel (begin_op_loop fuel (acq L_log s)) s0 refused (handed_on L_log me) (fun _ => admitted).
Proof.
  revert s s0. induction fuel as [|f IH]; intros s s0 Hq Hl Hu; cbn [begin_op_loop]; [done|].
  pose proof (unmoved_log _ _ _ Hu) as El.
  assert (Hsleep : ~ has_room (k_log s0) ->
    segments (S f) ((sleep CH_log L_log;; begin_op_loop f) (acq L_log s)) s0 refused (handed_on L_log me) (fun _ => admitted)).
  { intros Hno. eapply segments_bind.
    - apply (sleep_segments _ CH_log L_log me s s0 _ _ (fun n _ s0 s' =>
        n = f /\ exists s1, s' = acq L_log s1 /\ unmoved me s0 s1 /\ quiet s1 me /\ lock_free s1 L_log)); [done..| |].
      + split; [done|]. exact El.
      + intros s' s1 _ H1 H2 H3. split; [done|]. exists s1. by split_and!.
    - intros n [] s1 s' (-> & s2 & -> & Hu2 & Hq2 & Hl2). by apply IH. }
  unfold getlog. kstep. rewrite acq_k_log, El. unfold has_room in Hsleep.
  destruct (lg_committing (k_log s0)) eqn:Ec; [apply Hsleep; by intros [? _]|].
  destruct (_ >? LOGSIZE) eqn:En; rewrite Z.gtb_ltb in En.
  - apply Z.ltb_lt in En. apply Hsleep. intros [_ ?]. lia.
  - apply Z.ltb_ge in En. unfold setlog. kstep. rewrite acq_set_k_log, release_acq; [|apply Hq|exact Hl]. cbn [segments].
    split; [by split|]. simpl. by rewrite El.
Qed.

(** C34: [begin_op] reserves log space. However often it sleeps (the model bounds
    how often it is woken in vain), and whatever the other processes do
    meanwhile: when it was called or resumed in a state with a commit running, or
    without room in the log for [MAXOPBLOCKS] blocks of every admitted
    transaction and of this one, it sleeps and leaves the log's state alone; otherwise it counts itself as admitted, changes nothing
    else of the log's state, and returns. *)
Theorem begin_op_reserves me s :
  quiet s me -> lock_free s L_log ->
  segments sleep_fuel (begin_op s) s refused (handed_on L_log me) (fun _ => admitted).
Proof.
  intros Hq Hl. unfold begin_op. rewrite (bind_done _ _ _ _ _ (acquire_spec _ _ Hl)).
  by apply begin_op_loop_segments.
Qed.

Fixpoint logging (bs : list nat) : K unit :=
  match bs with
  | [] => ret tt
  | b :: bs' => log_write b;; logging bs'
  end.

Lemma begin_op_admits me s :
  quiet s me -> lock_free s L_log -> has_room (k_log s) ->
  begin_op s = Done tt (set_k_log (set_lg_outstanding (fun n => n + 1)) s).
Proof.
  intros Hq Hl [Hc Hn]. unfold begin_op. rewrite (bind_done _ _ _ _ _ (acquire_spec _ _ Hl)).
  change sleep_fuel with (S (pred sleep_fuel)). generalize (pred sleep_fuel). intros f. cbn [begin_op_loop].
  unfold getlog. kstep. rewrite acq_k_log. prw Hc.
  destruct (_ >? LOGSIZE) eqn:En; rewrite Z.gtb_ltb in En; [apply Z.ltb_lt in En; lia|].
  unfold setlog. kstep. rewrite acq_set_k_log. apply release_acq; [apply Hq|exact Hl].
Qed.

Lemma handle_pinned s b b' h :
  handle s b' h -> handle (set_k_bufs (alter (set_b_refcnt (fun n => u32 (n + 1))) b) s) b' h.
Proof.
  intros (H1 & H2 & H3). unfold handle. cbn. rewrite !list_lookup_total_alt in *. destruct (decide (b' = b)) as [->|Hne].
  - rewrite list_lookup_alter_eq. by destruct (k_bufs s !! b).
  - by rewrite list_lookup_alter_ne.
Qed.

(** Blocks are logged until the log holds [LOGSIZE - 1] of them. *)
Lemma logging_full me start bl s done_ :
  bworld s me -> lock_free s L_log -> log_at (k_log s) start done_ -> lg_size (k_log s) = LOGSIZE ->
  1 <= lg_outstanding (k_log s) -> (forall b h, (b, h) ∈ bl -> handle s b h /\ 0 <= h < FSSIZE) ->
  (forall h, h ∈ done_ -> 0 <= h < FSSIZE) -> NoDup (done_ ++ bl.*2) ->
  LOGSIZE <= Z.of_nat (length done_ + length bl) -> Z.of_nat (length done_) <= LOGSIZE - 1 ->
  exists s', logging bl.*1 s = Panic "too big a transaction" s' /\ lg_n (k_log s') = LOGSIZE - 1.
Proof.
  revert s done_. induction bl as [|[b h] bl IH]; intros s dn Hw Hlk Hl Hsz Hout Hh Hd Hnd Hlen Hmax; cbn [length] in Hlen; [lia|].
  rewrite !fmap_cons in *. cbn [fst snd logging] in *. destruct (Hh b h) as [Hhd Hr]; [left|].
  destruct (decide (Z.of_nat (length dn) = LOGSIZE - 1)) as [Efull|Hroom].
  - exists (acq L_log s). split; [|rewrite acq_k_log, (la_n _ _ _ Hl); done].
    unfold bind, log_write, bind at 1. rewrite (acquire_spec _ _ Hlk). cbn [rbind]. unfold getlog. rewrite bind_gets, acq_k_log.
    prw (la_n _ _ _ Hl). prw Hsz. rewrite Efull. rewrite orb_true_r. done.
  - assert (Hni : h ∉ dn) by (apply NoDup_app in Hnd as (_ & Hx & _); intros Hi; apply (Hx h Hi); left).
    destruct (log_write_new s me b start dn h Hw Hlk Hl Hsz ltac:(lia) Hout Hr Hd Hhd Hni) as (s1 & l & E1 & E2 & Hl' & H1 & H2 & _).
    rewrite (bpin_eq s me b Hw) in E1. injection E1 as <-. rewrite (bind_done _ _ _ _ _ E2).
    apply (IH _ (dn ++ [h])); try done.
    + cbn. by rewrite H1.
    + cbn. by rewrite H2.
    + intros b' h' Hin. destruct (Hh b' h') as [Hb' Hr']; [by right|]. split; [|done]. by apply (handle_pinned s b b' h').
    + intros x [Hx|Hx]%elem_of_app; [by apply Hd|]. apply list_elem_of_singleton in Hx. by subst.
    + by rewrite <- app_assoc.
    + rewrite length_app. simpl. lia.
    + rewrite length_app. simpl. lia.
Qed.

(** C35: [begin_op] admits three transactions to an empty log and so promises
    them [LOGSIZE] blocks; but when they write that many different blocks,
    [log_write] panics at the last of them, with one place of the log still
    free: its test allows one block less. *)
Theorem log_write_one_short s me start bl :
  bworld s me -> lock_free s L_log -> log_at (k_log s) start [] -> lg_size (k_log s) = LOGSIZE ->
  lg_outstanding (k_log s) = 0 -> lg_committing (k_log s) = false ->
  (forall b h, (b, h) ∈ bl -> handle s b h /\ 0 <= h < FSSIZE) -> NoDup bl.*2 -> Z.of_nat (length bl) = LOGSIZE ->
  exists s3 s', (begin_op;; begin_op;; begin_op) s = Done tt s3 /\ lg_outstanding (k_log s3) = 3 /\
    Z.of_nat (length bl) <= lg_outstanding (k_log s3) * MAXOPBLOCKS /\
    logging bl.*1 s3 = Panic "too big a transaction" s' /\ lg_n (k_log s') = LOGSIZE - 1.
Proof.
  intros Hw Hlk Hl Hsz Hout Hcm Hh Hnd Hlen. pose proof (la_n _ _ _ Hl) as Hn. cbn in Hn.
  set (g := set_lg_outstanding (fun n => n + 1)).
  assert (Hadm : forall l, lg_n l = 0 -> lg_committing l = false -> lg_outstanding l <= 2 -> has_room l).
  { intros l H1 H2 H3. split; [done|]. rewrite H1. unfold LOGSIZE, MAXOPBLOCKS. lia. }
  assert (E : (begin_op;; begin_op;; begin_op) s = Done tt (set_k_log g (set_k_log g (set_k_log g s)))).
  { assert (Hq : quiet s me) by apply Hw.
    rewrite (bind_done _ _ _ _ _ (begin_op_admits me s Hq Hlk ltac:(apply Hadm; [done|done|lia]))).
    rewrite (bind_done _ _ _ _ _ (begin_op_admits me (set_k_log g s) Hq Hlk ltac:(apply Hadm; [done|done|cbn; lia]))).
    apply (begin_op_admits me (set_k_log g (set_k_log g s)) Hq Hlk). apply Hadm; [done|done|cbn; lia]. }
  set (s3 := set_k_log g (set_k_log g (set_k_log g s))) in *.
  assert (Ho3 : lg_outstanding (k_log s3) = 3) by (cbn; lia).
  destruct (logging_full me start bl s3 []) as (s' & Ep & En'); try done.
  - destruct Hl as [L1 L2 L3 L4 L5 L6 L7]. by split.
  - lia.
  - intros h Hx. by apply not_elem_of_nil in Hx.
  - rewrite <- Hlen. simpl. lia.
  - exists s3, s'. rewrite Ho3, Hlen. by split_and!.
Qed.

Definition log_test_state : kstate := setlock L_log (fun _ => mkspinlock 0 "log" None) sl_test_state.

Lemma log_test_quiet : quiet log_test_state 3.
Proof.
  destruct quiet_sl_test as (H1 & H2 & H3 & H4 & H5 & H6).
  split; [exact H1|]. split; [exact H2|]. split; [exact H3|]. split; [exact H4|]. split; [exact H5|].
  intros i Hi. apply lock_free_init. left. by apply H6.
Qed.

Lemma log_test_free : lock_free log_test_state L_log.
Proof. apply lock_free_init. by right. Qed.

Lemma begin_op_reserves_witness :
  segments sleep_fuel (begin_op log_test_state) log_test_state refused (handed_on L_log 3) (fun _ => admitted).
Proof. exact (begin_op_reserves 3 log_test_state log_test_quiet log_test_free). Defined.

(** Buffer [i] holds block [100 + i], and the log is empty. *)
Definition full_test_state : kstate :=
  let s := match binit log_test_state with Done _ s => s | _ => log_test_state end in
  set_k_log (fun _ => mklog 2 LOGSIZE 0 false ROOTDEV 0 (replicate (Z.to_nat LOGSIZE) 0))
    (set_k_bufs (imap (fun i b => set_b_dev (fun _ => ROOTDEV) (set_b_blockno (fun _ => 100 + Z.of_nat i) b))) s).

Lemma full_test_world : bworld full_test_state 3.
Proof.
  destruct (binit_spec log_test_state 3 log_test_quiet eq_refl) as (s1 & E & Hw & _).
  unfold full_test_state. rewrite E. cbv zeta. by apply bworld_setlog, bworld_bufs.
Qed.

Definition full_blocks : list (nat * Z) := (fun i => (i, 100 + Z.of_nat i)) <$> seq 0 (Z.to_nat LOGSIZE).

Lemma log_write_one_short_witness :
  exists s3 s', (begin_op;; begin_op;; begin_op) full_test_state = Done tt s3 /\
    logging (seq 0 30) s3 = Panic "too big a transaction" s' /\ lg_n (k_log s') = 29.
Proof.
  destruct (log_write_one_short full_test_state 3 2 full_blocks) as (s3 & s' & E & _ & _ & Ep & En).
  - apply full_test_world.
  - exists "log"%string. vm_compute. reflexivity.
  - split; try done.
  - reflexivity.
  - reflexivity.
  - reflexivity.
  - intros b h Hin. assert (Hall : Forall (fun x => (x.1 < NBUF)%nat /\ b_dev (k_bufs full_test_state !!! x.1) = ROOTDEV /\
        b_blockno (k_bufs full_test_state !!! x.1) = x.2 /\ 0 <= x.2 < FSSIZE) full_blocks).
    { apply (bool_decide_unpack _). vm_compute. exact I. }
    rewrite Forall_forall in Hall. destruct (Hall _ Hin) as (H1 & H2 & H3 & H4 & H5).
    split; [exact (conj H1 (conj H2 H3))|exact (conj H4 H5)].
  - apply (bool_decide_unpack _). vm_compute. exact I.
  - reflexivity.
  - exists s3, s'. split; [exact E|]. split; [exact Ep|exact En].
Defined.
End LogSpace.
