(* ===== verification/FsTx.v ===== *)
(** * Block operations inside a transaction

    What the file system does between [begin_op] and [end_op]: [bread] a
    block, change it and pass it to [log_write], [brelse] it, while it may
    hold other blocks. [inop] is the state of the kernel there; the file
    system's theorems are proved from the lemmas on it alone. *)

From stdpp Require Import gmap strings list.
From Stdlib Require Import ZArith Lia.
From S2P Require Import Prelude KState Spinlock Sched SleepLock Bio Bcache Log LogProps LogTx.
Open Scope Z_scope.
Import Spinlock Sched SleepLock Bio Log SpinlockProps SchedProps SleepLockProps BioProps.

#[local] Opaque NPROC.

Lemma bind_same {S A B} (m m' : M S A) (f : A -> M S B) s : m s = m' s -> bind m f s = bind m' f s.
Proof. unfold bind. by intros ->. Qed.

(** ** The blocks in use *)

Section Opens.
Context (pid : Z) (disk : gmap Z (list Z)).

(** A block the process has locked: one reference more than the pin, if any. *)
Definition held_ent (tx : list (Z * list Z)) (h : Z) : bent :=
  mkbent (tx_get disk tx h) (if decide (h ∈ tx.*1) then 2 else 1) (Some pid).

Fixpoint opens (tx : list (Z * list Z)) (hs : list Z) : bmap_t :=
  match hs with
  | [] => pins tx
  | h :: hs' => <[h := held_ent tx h]> (opens tx hs')
  end.

Lemma opens_lookup tx hs x :
  opens tx hs !! x = if decide (x ∈ hs) then Some (held_ent tx x) else pins tx !! x.
Proof.
  induction hs as [|h hs IH]; cbn [opens]; [by rewrite decide_False by apply not_elem_of_nil|].
  destruct (decide (h = x)) as [->|Hne].
  - by rewrite lookup_insert_eq, decide_True by left.
  - rewrite lookup_insert_ne, IH by done. apply decide_ext. rewrite elem_of_cons. naive_solver.
Qed.

Lemma opens_size tx hs : (size (opens tx hs) <= length tx + length hs)%nat.
Proof.
  induction hs as [|h hs IH]; cbn [opens length]; [pose proof (pins_size tx); lia|].
  rewrite map_size_insert. case_match; simpl; lia.
Qed.

(** Writing a block that is held. *)
Lemma opens_put tx hs h d :
  NoDup tx.*1 -> h ∈ hs ->
  <[h := mkbent d 2 (Some pid)]> (opens tx hs) = opens (tx_put h d tx) hs.
Proof.
  intros Hnd Hh. apply map_eq. intros x. rewrite opens_lookup, pins_put by done. unfold held_ent.
  rewrite tx_get_put by done. destruct (decide (h = x)) as [<-|Hne].
  - rewrite lookup_insert_eq, (decide_True (P := h ∈ hs)), (decide_True (P := h = h)) by done.
    rewrite decide_True; [done|]. unfold tx_put. case_decide; [by rewrite tx_set_fst|]. rewrite fmap_app. apply elem_of_app. right. by left.
  - rewrite !lookup_insert_ne, opens_lookup by done. unfold held_ent. case_decide; [|done].
    rewrite (decide_False (P := x = h)) by congruence. do 2 f_equal. apply decide_ext. unfold tx_put.
    case_decide; [by rewrite tx_set_fst|]. rewrite fmap_app, elem_of_app. cbn. rewrite list_elem_of_singleton. naive_solver.
Qed.

(** Giving up a block that is held: it stays if it is pinned. *)
Lemma opens_close tx hs h :
  h ∉ hs -> NoDup tx.*1 -> h ∈ tx.*1 ->
  <[h := mkbent (tx_get disk tx h) 1 None]> (opens tx hs) = opens tx hs.
Proof.
  intros Hn Hnd Hh. apply map_eq. intros x. destruct (decide (h = x)) as [<-|Hne].
  - rewrite lookup_insert_eq, opens_lookup, decide_False by done. symmetry.
    apply list_elem_of_fmap in Hh as ([h' D] & [= ->] & Hin). rewrite (tx_get_in _ _ _ _ Hnd Hin).
    by apply pins_Some.
  - by rewrite lookup_insert_ne.
Qed.
End Opens.

(** ** The state inside an operation *)

(** The kernel runs an operation that has written [tx] so far; its process
    holds the buffers [hs]. *)
Record inop (s : kstate) (me : nat) (disk : gmap Z (list Z)) (start : Z) (tx : list (Z * list Z))
    (hs : list (nat * Z)) : Prop := {
  op_world : bworld s me;
  op_lock : lock_free s L_log;
  op_rep : store_rep s (Store.mkstore (opens (mypid s me) disk tx hs.*2) disk);
  op_log : log_at (k_log s) start tx.*1;
  op_size : lg_size (k_log s) = LOGSIZE;
  op_home : forall h, h ∈ tx.*1 -> 0 <= h < FSSIZE /\ ~ in_log start h;
  op_nodup : NoDup tx.*1;
  op_hs : forall b h, In (b, h) hs -> handle s b h;
  op_hsnd : NoDup hs.*2 }.

(** What an operation leaves alone: everything but the buffers, the log's
    header and, of other processes, whether they sleep. *)
Definition opframe (s s' : kstate) : Prop :=
  exists l, bframe (set_k_log (fun _ => l) s) s' /\ k_disk s' = k_disk s /\ k_dtrace s' = k_dtrace s /\
    lg_outstanding l = lg_outstanding (k_log s) /\ lg_committing l = lg_committing (k_log s).

Lemma opframe_refl s : opframe s s.
Proof.
  exists (k_log s). rewrite set_k_log_id by done. split; [apply bframe_refl|done].
Qed.

Lemma opframe_trans s1 s2 s3 : opframe s1 s2 -> opframe s2 s3 -> opframe s1 s3.
Proof.
  intros (l & F & D & T & O & C) (l' & F' & D' & T' & O' & C'). exists l'.
  pose proof (bframe_log _ _ F) as El. rewrite El in O', C'. change (k_log (set_k_log (fun _ => l) s1)) with l in O', C'.
  split; [|split_and!; congruence].
  eapply bframe_trans, F'. apply (bframe_setlog _ _ (fun _ => l')) in F. by rewrite set_set_k_log in F.
Qed.

Lemma opframe_lframe s s' : opframe s s' -> lframe s s'.
Proof. intros (l & F & _). by exists l. Qed.

Lemma opframe_out s s' : opframe s s' -> lg_outstanding (k_log s') = lg_outstanding (k_log s).
Proof. intros (l & F & _ & _ & O & _). by rewrite (bframe_log _ _ F). Qed.

Lemma opframe_comm s s' : opframe s s' -> lg_committing (k_log s') = lg_committing (k_log s).
Proof. intros (l & F & _ & _ & _ & C). by rewrite (bframe_log _ _ F). Qed.

(** Fields that no block operation touches. *)
Lemma opframe_field {A} (f : kstate -> A) s s' :
  (forall s l b d t p, f (set_k_procs (fun _ => p) (set_k_bufs (fun _ => b) (set_k_disk (fun _ => d)
     (set_k_dtrace (fun _ => t) (set_k_log (fun _ => l) s))))) = f s) ->
  opframe s s' -> f s' = f s.
Proof. intros Hf (l & (b & d & t & p & -> & _) & _). apply Hf. Qed.

Lemma opframe_sb s s' : opframe s s' -> k_sb s' = k_sb s.
Proof. by apply (opframe_field k_sb). Qed.
Lemma opframe_inodes s s' : opframe s s' -> k_inodes s' = k_inodes s.
Proof. by apply (opframe_field k_inodes). Qed.
Lemma opframe_mem s s' : opframe s s' -> k_mem s' = k_mem s.
Proof. by apply (opframe_field k_mem). Qed.

Lemma opframe_pid s s' me : opframe s s' -> mypid s' me = mypid s me.
Proof. intros (l & F & _). exact (bframe_pid _ _ me F). Qed.

(** ** Steps *)

Section Steps.
Context (s : kstate) (me : nat) (disk : gmap Z (list Z)) (start : Z) (tx : list (Z * list Z)).
Context (hs : list (nat * Z)) (Hi : inop s me disk start tx hs).

Let pid := mypid s me.

Lemma op_run : run s (opens pid disk tx hs.*2) disk hs [] s.
Proof.
  constructor; [apply bframe_refl|apply (op_rep _ _ _ _ _ _ Hi)| |done].
  intros b h Hb. split; [by apply (op_hs _ _ _ _ _ _ Hi)|]. rewrite opens_lookup.
  rewrite decide_True; [eauto|]. apply list_elem_of_fmap. exists (b, h). by rewrite list_elem_of_In.
Qed.

(** A run from a state inside an operation to another. *)
Lemma op_ran s' l tx' hs' :
  run (set_k_log (fun _ => l) s) (opens pid disk tx' hs'.*2) disk hs' [] s' ->
  log_at l start tx'.*1 -> lg_size l = LOGSIZE ->
  lg_outstanding l = lg_outstanding (k_log s) -> lg_committing l = lg_committing (k_log s) ->
  (forall h, h ∈ tx'.*1 -> 0 <= h < FSSIZE /\ ~ in_log start h) -> NoDup tx'.*1 -> NoDup hs'.*2 ->
  inop s' me disk start tx' hs' /\ opframe s s'.
Proof.
  intros R Hl H1 H2 H3 H4 H5 H6. pose proof (run_log _ _ _ _ _ _ R) as El.
  change (k_log (set_k_log (fun _ => l) s)) with l in El. split.
  - split; rewrite ?El; try done.
    + exact (run_world _ me (bworld_setlog _ _ _ (op_world _ _ _ _ _ _ Hi)) _ _ _ _ _ R).
    + unfold lock_free. rewrite (run_locks _ _ _ _ _ _ R). exact (op_lock _ _ _ _ _ _ Hi).
    + rewrite (bframe_pid _ _ me (r_frame _ _ _ _ _ _ R)). exact (r_rep _ _ _ _ _ _ R).
    + intros b h Hb. exact (proj1 (r_hs _ _ _ _ _ _ R b h Hb)).
  - exists l. split; [exact (r_frame _ _ _ _ _ _ R)|]. split; [|by split; [exact (r_tr _ _ _ _ _ _ R)|]].
    transitivity disk; [exact (proj2 (r_rep _ _ _ _ _ _ R))|].
    symmetry. exact (proj2 (op_rep _ _ _ _ _ _ Hi)).
Qed.

(** The same when the log did not change. *)
Lemma op_ran_same s' hs' :
  run s (opens pid disk tx hs'.*2) disk hs' [] s' -> NoDup hs'.*2 ->
  inop s' me disk start tx hs' /\ opframe s s'.
Proof.
  intros R Hn. apply (op_ran s' (k_log s)); try done; apply Hi.
Qed.

Lemma op_bread h :
  0 <= h < FSSIZE -> h ∉ hs.*2 -> (length tx + length hs < NBUF)%nat ->
  exists b s', bread ROOTDEV h s = Done b s' /\ inop s' me disk start tx ((b, h) :: hs) /\ opframe s s' /\
    b_data (k_bufs s' !!! b) = tx_get disk tx h.
Proof.
  intros Hh Hn Hroom.
  assert (exists b s', bread ROOTDEV h s = Done b s' /\
    run s (opens pid disk tx (h :: hs.*2)) disk ((b, h) :: hs) [] s') as (b & s' & E & R).
  { cbn [opens]. unfold held_ent. case_decide as Hd.
    - apply list_elem_of_fmap in Hd as ([h' D'] & [= <-] & Hin).
      pose proof (op_nodup _ _ _ _ _ _ Hi) as Hnd. rewrite (tx_get_in _ _ _ _ Hnd Hin).
      apply (run_pinned s me (op_world _ _ _ _ _ _ Hi) _ _ _ _ _ op_run h D' 1 Hh); [|lia].
      rewrite opens_lookup, decide_False by done. by apply pins_Some.
    - unfold tx_get. rewrite apply_writes_other by done.
      apply (run_new s me (op_world _ _ _ _ _ _ Hi) _ _ _ _ _ op_run h Hh).
      + rewrite opens_lookup, decide_False by done. by apply pins_None.
      + pose proof (opens_size pid disk tx hs.*2) as Hsz. rewrite length_fmap in Hsz. lia. }
  exists b, s'. split; [exact E|].
  destruct (op_ran_same s' ((b, h) :: hs)) as [Hi' F]; [exact R|apply NoDup_cons; split; [exact Hn|apply Hi]|].
  split; [exact Hi'|]. split; [exact F|].
  apply (run_data s me _ _ _ _ _ R b h _ (if decide (h ∈ tx.*1) then 2 else 1)); [by left|].
  cbn [opens]. by rewrite lookup_insert_eq.
Qed.

Context (b : nat) (h : Z) (Hb : In (b, h) hs).

Lemma op_held : opens pid disk tx hs.*2 !! h = Some (held_ent pid disk tx h).
Proof.
  rewrite opens_lookup, decide_True; [done|]. apply list_elem_of_fmap. exists (b, h). by rewrite list_elem_of_In.
Qed.

Lemma op_data : b_data (k_bufs s !!! b) = tx_get disk tx h.
Proof. exact (run_data s me _ _ _ _ _ op_run b h _ _ Hb op_held). Qed.

(** Change a held block and pass it to [log_write]. *)
Lemma op_write f :
  ~ in_log start h -> 0 <= h < FSSIZE -> 1 <= lg_outstanding (k_log s) ->
  Z.of_nat (length tx) < LOGSIZE - 1 ->
  exists s1 s', setbuf b (set_b_data f) s = Done tt s1 /\ log_write b s1 = Done tt s' /\
    inop s' me disk start (tx_put h (f (tx_get disk tx h)) tx) hs /\ opframe s s'.
Proof.
  intros Hlog Hh Hout Hroom. pose proof Hi as [Hw Hlk _ Hl Hsz Hhome Hnd _ Hhnd].
  assert (Hin : h ∈ hs.*2) by (apply list_elem_of_fmap; exists (b, h); by rewrite list_elem_of_In).
  set (d := f (tx_get disk tx h)).
  destruct (run_set s me _ _ _ _ _ (op_run) b h _ _ Hb op_held f) as (s1 & E1 & R1).
  exists s1. fold d in R1. pose proof (run_log _ _ _ _ _ _ R1) as El.
  pose proof (run_world s me Hw _ _ _ _ _ R1) as Hw1.
  assert (Hlk1 : lock_free s1 L_log) by (unfold lock_free; rewrite (run_locks _ _ _ _ _ _ R1); exact Hlk).
  assert (Hl1 : log_at (k_log s1) start tx.*1) by (by rewrite El).
  assert (Hbs : forall x, x ∈ tx.*1 -> 0 <= x < FSSIZE) by (intros x Hx; exact (proj1 (Hhome x Hx))).
  pose proof (proj1 (r_hs _ _ _ _ _ _ R1 b h Hb)) as Hhd.
  assert (Hroom1 : Z.of_nat (length tx.*1) < LOGSIZE - 1) by (by rewrite length_fmap).
  assert (Hsz1 : lg_size (k_log s1) = LOGSIZE) by (by rewrite El).
  assert (Hout1 : 1 <= lg_outstanding (k_log s1)) by (by rewrite El).
  assert (Hnew : forall x, x ∈ (tx_put h d tx).*1 -> 0 <= x < FSSIZE /\ ~ in_log start x).
  { intros x [->|Hx]%tx_put_fst; [by split|by apply Hhome]. }
  destruct (decide (h ∈ tx.*1)) as [Hd|Hd].
  - exists s1. split; [exact E1|]. split; [by eapply log_write_absorb|].
    apply (op_ran s1 (k_log s)); try done.
    + rewrite <- opens_put by done. exact R1.
    + unfold tx_put. by rewrite decide_True, tx_set_fst by done.
    + by apply tx_put_nodup.
  - destruct (log_write_new s1 me b start tx.*1 h) as (s3 & l & E3 & E4 & Hl' & H1 & H2 & H3); try done.
    destruct (run_pin s me Hw _ _ _ _ _ R1 b h d 1) as (s3' & E3' & R3);
      [exact Hb|by rewrite lookup_insert_eq|lia|].
    assert (s3' = s3) as -> by congruence. rewrite insert_insert_eq in R3.
    exists (set_k_log (fun _ => l) s3). split; [exact E1|]. split; [exact E4|].
    apply (op_ran _ l); try done.
    + rewrite <- opens_put by done. exact (run_setlog _ _ _ _ _ _ _ R3).
    + unfold tx_put. rewrite decide_False, fmap_app by done. exact Hl'.
    + by rewrite H1, El.
    + by rewrite H2, El.
    + by rewrite H3, El.
    + by apply tx_put_nodup.
Qed.
End Steps.

Lemma op_brelse s me disk start tx b h hs :
  inop s me disk start tx ((b, h) :: hs) ->
  exists s', brelse b s = Done tt s' /\ inop s' me disk start tx hs /\ opframe s s'.
Proof.
  intros Hi. pose proof (op_run _ _ _ _ _ _ Hi) as R. pose proof Hi as [Hw _ _ _ _ _ Hnd _ Hhnd].
  rewrite fmap_cons in Hhnd. apply NoDup_cons in Hhnd as [Hn Hhnd]. cbn [snd] in Hn.
  pose proof (op_held s me disk tx _ b h (or_introl eq_refl : In (b, h) ((b, h) :: hs))) as Hheld.
  assert (exists s', brelse b s = Done tt s' /\ run s (opens (mypid s me) disk tx hs.*2) disk hs [] s')
    as (s' & E & R').
  { unfold held_ent in Hheld. case_decide as Hd.
    - destruct (run_drop_one s me Hw _ _ _ _ _ R b h _ 2 (or_introl eq_refl) Hheld) as (s' & E & R'); [lia|].
      exists s'. split; [exact E|]. cbn [opens fmap list_fmap snd] in R'. rewrite insert_insert_eq in R'.
      change (2 - 1) with 1 in R'. rewrite opens_close in R' by done.
      constructor; [apply R'|apply R'| |apply R']. intros b' x Hx. apply R'. by right.
    - destruct (run_drop_last s me Hw _ _ _ _ _ R b h _ 1 (or_introl eq_refl) Hheld hs) as (s' & E & R').
      + done.
      + unfold tx_get. by rewrite apply_writes_other.
      + intros b' x Hx. split; [by right|]. intros ->. apply Hn, list_elem_of_fmap.
        exists (b', h). by rewrite list_elem_of_In.
      + exists s'. split; [exact E|]. cbn [opens fmap list_fmap snd] in R'. rewrite delete_insert_eq in R'.
        rewrite delete_id in R'; [exact R'|]. rewrite opens_lookup, decide_False by done. by apply pins_None. }
  exists s'. split; [exact E|]. by apply (op_ran_same s me disk start tx _ Hi).
Qed.

(** ** Entering and leaving *)

(** State that the block layer does not use. *)
Lemma inop_inodes s me disk start tx hs g :
  inop s me disk start tx hs -> inop (set_k_inodes g s) me disk start tx hs.
Proof.
  intros [((H1 & H2 & H3 & H4 & H5 & H6) & Hb & Hs) Hlk Hr Hl Hz Hh Hn Hhs Hnd].
  split; [|exact Hlk|exact Hr|exact Hl|exact Hz|exact Hh|exact Hn|exact Hhs|exact Hnd].
  split; [split_and!; [exact H1|exact H2|exact H3|exact H4|exact H5|exact H6]|split; [exact Hb|exact Hs]].
Qed.

Lemma inop_mem s me disk start tx hs g :
  inop s me disk start tx hs -> inop (set_k_mem g s) me disk start tx hs.
Proof.
  intros [((H1 & H2 & H3 & H4 & H5 & H6) & Hb & Hs) Hlk Hr Hl Hz Hh Hn Hhs Hnd].
  split; [|exact Hlk|exact Hr|exact Hl|exact Hz|exact Hh|exact Hn|exact Hhs|exact Hnd].
  split; [split_and!; [exact H1|exact H2|exact H3|exact H4|exact H5|exact H6]|split; [exact Hb|exact Hs]].
Qed.

Lemma intx_inop s me disk start tx : intx s me disk start tx -> inop s me disk start tx [].
Proof. intros []. split; try done. constructor. Qed.

Lemma inop_intx s me disk start tx :
  inop s me disk start tx [] -> lg_outstanding (k_log s) = 1 -> lg_committing (k_log s) = false ->
  length (on_disk disk start) = Z.to_nat BSIZE -> head_is (on_disk disk start) [] ->
  intx s me disk start tx.
Proof. intros [] ? ? ? ?. by split. Qed.

Lemma log_ok_inop s me start : log_ok s me start -> inop s me (k_disk s) start [] [].
Proof.
  intros []. split; try done; [|constructor|constructor]. intros h Hh. by apply not_elem_of_nil in Hh.
Qed.
