(* ===== verification/Fs.v ===== *)
(** * The file system ([kernel/fs.c])

    Block allocator, inodes, file contents, directories and path names, on top
    of the buffer cache and the log. *)

From stdpp Require Import gmap strings list.
From Stdlib Require Import ZArith Lia.
From S2P Require Import Prelude KState CString Spinlock Sched SleepLock Kalloc Vm Bio Log.
Open Scope Z_scope.
Import CString Spinlock Sched SleepLock Vm Bio Log.

Module Fs.

Definition getsb : K superblock := gets k_sb.

(** [struct superblock] as it is on disk: eight [uint]s. *)
Definition sb_dec (d : list Z) : superblock :=
  mksb (get32 d 0) (get32 d 4) (get32 d 8) (get32 d 12) (get32 d 16) (get32 d 20)
       (get32 d 24) (get32 d 28).

Definition readsb (dev : Z) : K unit :=
  bp <- bread (u32 dev) 1;;
  bf <- getbuf bp;;
  modify (set_k_sb (fun _ => sb_dec (b_data bf)));;
  brelse bp.

Definition fsinit (dev : Z) : K unit :=
  readsb dev;;
  sb <- getsb;;
  if negb (sb_magic sb =? FSMAGIC) then panic "invalid file system" else
  initlog dev sb.

Definition zeroblk : list Z := replicate (Z.to_nat BSIZE) 0.

Definition bzero (dev bno : Z) : K unit :=
  bp <- bread (u32 dev) (u32 bno);;
  setbuf bp (set_b_data (fun _ => zeroblk));;
  log_write bp;;
  brelse bp.

(** ** Blocks *)

Definition BBLOCK (b : Z) (sb : superblock) : Z := u32 (b / BPB + sb_bmapstart sb).

Definition bitmask (bi : Z) : Z := Z.shiftl 1 (bi mod 8).
Definition bit_free (data : list Z) (bi : Z) : bool :=
  Z.land (data !!! Z.to_nat (bi / 8)) (bitmask bi) =? 0.
Definition bit_set (bi : Z) (data : list Z) : list Z :=
  alter (fun x => u8 (Z.lor x (bitmask bi))) (Z.to_nat (bi / 8)) data.
Definition bit_clear (bi : Z) (data : list Z) : list Z :=
  alter (fun x => u8 (Z.land x (Z.lnot (bitmask bi)))) (Z.to_nat (bi / 8)) data.

(** The inner loop of [balloc]: the first free bit of one bitmap block. *)
Fixpoint balloc_scan (data : list Z) (b size bi : Z) (k : nat) : option Z :=
  match k with
  | O => None
  | S k' =>
      if negb (b + bi <? size) then None
      else if bit_free data bi then Some bi
      else balloc_scan data b size (bi + 1) k'
  end.

Fixpoint balloc_loop (dev b : Z) (fuel : nat) : K Z :=
  match fuel with
  | O => nofuel
  | S f =>
      sb <- getsb;;
      if negb (b <? sb_size sb) then panic "balloc: out of blocks" else
      bp <- bread dev (BBLOCK b sb);;
      bf <- getbuf bp;;
      match balloc_scan (b_data bf) b (sb_size sb) 0 (Z.to_nat BPB) with
      | Some bi =>
          setbuf bp (set_b_data (bit_set bi));;
          log_write bp;;
          brelse bp;;
          bzero dev (b + bi);;
          ret (b + bi)
      | None =>
          brelse bp;;
          balloc_loop dev (b + BPB) f
      end
  end.

Definition balloc (dev : Z) : K Z :=
  sb <- getsb;;
  balloc_loop dev 0 (S (S (Z.to_nat (sb_size sb / BPB)))).

Definition bfree (dev b : Z) : K unit :=
  sb <- getsb;;
  bp <- bread (u32 dev) (BBLOCK b sb);;
  let bi := b mod BPB in
  bf <- getbuf bp;;
  if bit_free (b_data bf) bi then panic "freeing free block" else
  setbuf bp (set_b_data (bit_clear bi));;
  log_write bp;;
  brelse bp.

(** ** Inodes *)

Fixpoint iinit_loop (i k : nat) : K unit :=
  match k with
  | O => ret tt
  | S k' => initsleeplock (SL_inode i) "inode";; iinit_loop (S i) k'
  end.

Definition iinit : K unit :=
  initlock L_itable "itable";;
  iinit_loop 0 NINODE.

Definition IBLOCK (i : Z) (sb : superblock) : Z := u32 (i / IPB + sb_inodestart sb).

(** Where inode [inum] is in its block. *)
Definition ioff (inum : Z) : Z := (inum mod IPB) * sizeof_dinode.

(** [struct dinode] as it is on disk. *)
Fixpoint get32s (d : list Z) (off : Z) (k : nat) : list Z :=
  match k with
  | O => []
  | S k' => get32 d off :: get32s d (off + 4) k'
  end.
Fixpoint put32s (off : Z) (vs : list Z) (d : list Z) : list Z :=
  match vs with
  | [] => d
  | v :: vs' => put32s (off + 4) vs' (put32 off v d)
  end.

Definition dinode_get (d : list Z) (off : Z) : dinode :=
  mkdinode (s16 (get16 d off)) (s16 (get16 d (off + 2))) (s16 (get16 d (off + 4)))
           (s16 (get16 d (off + 6))) (get32 d (off + 8)) (get32s d (off + 12) 13).
Definition dinode_put (off : Z) (di : dinode) (d : list Z) : list Z :=
  put32s (off + 12) (di_addrs di) (put32 (off + 8) (di_size di)
    (put16 (off + 6) (u16 (di_nlink di)) (put16 (off + 4) (u16 (di_minor di))
      (put16 (off + 2) (u16 (di_major di)) (put16 off (u16 (di_type di)) d))))).

(** The scan of [iget]: the entry that holds the inode, or else the first
    empty one. *)
Fixpoint iget_scan (dev inum : Z) (i k : nat) (empty : option nat) (s : kstate)
    : nat + option nat :=
  match k with
  | O => inr empty
  | S k' =>
      let ip := k_inodes s !!! i in
      if (i_ref ip >? 0) && (i_dev ip =? dev) && (i_inum ip =? inum) then inl i
      else
        let empty := match empty with
                     | None => if i_ref ip =? 0 then Some i else None
                     | Some e => Some e
                     end in
        iget_scan dev inum (S i) k' empty s
  end.

Definition iget (dev inum : Z) : K nat :=
  acquire L_itable;;
  r <- gets (iget_scan dev inum 0 NINODE None);;
  match r with
  | inl ip =>
      setinode ip (set_i_ref (fun n => n + 1));;
      release L_itable;;
      ret ip
  | inr None => panic "iget: no inodes"
  | inr (Some ip) =>
      setinode ip (set_i_dev (fun _ => dev));;
      setinode ip (set_i_inum (fun _ => inum));;
      setinode ip (set_i_ref (fun _ => 1));;
      setinode ip (set_i_valid (fun _ => false));;
      release L_itable;;
      ret ip
  end.

Definition dinode0 : dinode := mkdinode 0 0 0 0 0 (replicate 13 0).

Fixpoint ialloc_loop (dev type inum : Z) (fuel : nat) : K nat :=
  match fuel with
  | O => nofuel
  | S f =>
      sb <- getsb;;
      if negb (inum <? sb_ninodes sb) then panic "ialloc: no inodes" else
      bp <- bread dev (IBLOCK inum sb);;
      bf <- getbuf bp;;
      if di_type (dinode_get (b_data bf) (ioff inum)) =? 0 then
        setbuf bp (set_b_data (dinode_put (ioff inum) (set_di_type (fun _ => type) dinode0)));;
        log_write bp;;
        brelse bp;;
        iget dev inum
      else
        brelse bp;;
        ialloc_loop dev type (inum + 1) f
  end.

Definition ialloc (dev type : Z) : K nat :=
  sb <- getsb;;
  ialloc_loop dev type 1 (S (Z.to_nat (sb_ninodes sb))).

Definition iupdate (ip : nat) : K unit :=
  i <- getinode ip;;
  sb <- getsb;;
  bp <- bread (i_dev i) (IBLOCK (i_inum i) sb);;
  i <- getinode ip;;
  setbuf bp (set_b_data (dinode_put (ioff (i_inum i))
    (mkdinode (i_type i) (i_major i) (i_minor i) (i_nlink i) (i_size i) (i_addrs i))));;
  log_write bp;;
  brelse bp.

Definition idup (ip : nat) : K nat :=
  acquire L_itable;;
  setinode ip (set_i_ref (fun n => n + 1));;
  release L_itable;;
  ret ip.

(** Fill the in-memory inode from its disk copy. *)
Definition inode_load (di : dinode) (i : inode) : inode :=
  mkinode (i_dev i) (i_inum i) (i_ref i) (i_lock i) (i_valid i)
          (di_type di) (di_major di) (di_minor di) (di_nlink di) (di_size di) (di_addrs di).

Definition ilock (ip : option nat) : K unit :=
  match ip with
  | None => panic "ilock"
  | Some ip =>
      i <- getinode ip;;
      if i_ref i <? 1 then panic "ilock" else
      acquiresleep (SL_inode ip);;
      i <- getinode ip;;
      when (negb (i_valid i))
        (sb <- getsb;;
         bp <- bread (i_dev i) (IBLOCK (i_inum i) sb);;
         bf <- getbuf bp;;
         setinode ip (fun i => inode_load (dinode_get (b_data bf) (ioff (i_inum i))) i);;
         brelse bp;;
         setinode ip (set_i_valid (fun _ => true));;
         i <- getinode ip;;
         when (i_type i =? 0) (panic "ilock: no type"))
  end.

Definition iunlock (ip : option nat) : K unit :=
  match ip with
  | None => panic "iunlock"
  | Some ip =>
      h <- holdingsleep (SL_inode ip);;
      i <- getinode ip;;
      if negb h || (i_ref i <? 1) then panic "iunlock" else
      releasesleep (SL_inode ip)
  end.

(** ** Inode content *)

Definition addr_at (ip : nat) (k : Z) : K Z :=
  i <- getinode ip;; ret (i_addrs i !!! Z.to_nat k).
Definition set_addr (ip : nat) (k v : Z) : K unit :=
  setinode ip (set_i_addrs (insert (Z.to_nat k) v)).

(** [ip->addrs[k]], allocated if it is zero. *)
Definition addr_alloc (ip : nat) (k : Z) : K Z :=
  addr <- addr_at ip k;;
  if addr =? 0 then
    i <- getinode ip;;
    addr <- balloc (i_dev i);;
    set_addr ip k addr;;
    ret addr
  else ret addr.

Definition bmap (ip : nat) (bn : Z) : K Z :=
  if bn <? NDIRECT then addr_alloc ip bn
  else
    let bn := u32 (bn - NDIRECT) in
    if bn <? NINDIRECT then
      addr <- addr_alloc ip NDIRECT;;
      i <- getinode ip;;
      bp <- bread (i_dev i) addr;;
      bf <- getbuf bp;;
      let addr := get32 (b_data bf) (4 * bn) in
      addr <-
        (if addr =? 0 then
           i <- getinode ip;;
           addr <- balloc (i_dev i);;
           setbuf bp (set_b_data (put32 (4 * bn) addr));;
           log_write bp;;
           ret addr
         else ret addr);;
      brelse bp;;
      ret addr
    else panic "bmap: out of range".

Fixpoint itrunc_direct (ip : nat) (i : Z) (k : nat) : K unit :=
  match k with
  | O => ret tt
  | S k' =>
      a <- addr_at ip i;;
      when (negb (a =? 0))
        (ino <- getinode ip;;
         bfree (i_dev ino) a;;
         set_addr ip i 0);;
      itrunc_direct ip (i + 1) k'
  end.

Fixpoint itrunc_indirect (ip bp : nat) (j : Z) (k : nat) : K unit :=
  match k with
  | O => ret tt
  | S k' =>
      bf <- getbuf bp;;
      let a := get32 (b_data bf) (4 * j) in
      when (negb (a =? 0))
        (ino <- getinode ip;;
         bfree (i_dev ino) a);;
      itrunc_indirect ip bp (j + 1) k'
  end.

Definition itrunc (ip : nat) : K unit :=
  itrunc_direct ip 0 (Z.to_nat NDIRECT);;
  a <- addr_at ip NDIRECT;;
  when (negb (a =? 0))
    (ino <- getinode ip;;
     bp <- bread (i_dev ino) a;;
     itrunc_indirect ip bp 0 (Z.to_nat NINDIRECT);;
     brelse bp;;
     ino <- getinode ip;;
     a <- addr_at ip NDIRECT;;
     bfree (i_dev ino) a;;
     set_addr ip NDIRECT 0);;
  setinode ip (set_i_size (fun _ => 0));;
  iupdate ip.

Definition iput (ip : nat) : K unit :=
  acquire L_itable;;
  i <- getinode ip;;
  when ((i_ref i =? 1) && i_valid i && (i_nlink i =? 0))
    (acquiresleep (SL_inode ip);;
     release L_itable;;
     itrunc ip;;
     setinode ip (set_i_type (fun _ => 0));;
     iupdate ip;;
     setinode ip (set_i_valid (fun _ => false));;
     releasesleep (SL_inode ip);;
     acquire L_itable);;
  setinode ip (set_i_ref (fun n => n - 1));;
  release L_itable.

Definition iunlockput (ip : nat) : K unit :=
  iunlock (Some ip);;
  iput ip.

(** [struct stat] in memory at [st]: [dev], [ino], [type], [nlink], four bytes
    of padding that [stati] leaves as they are, [size]. *)
Definition sizeof_stat : Z := 24.

Definition stati (ip : nat) (st : Z) : K unit :=
  i <- getinode ip;;
  modify (set_k_mem (stbytes st (le_enc 4 (i_dev i))));;
  modify (set_k_mem (stbytes (st + 4) (le_enc 4 (i_inum i))));;
  modify (set_k_mem (stbytes (st + 8) (le_enc 2 (u16 (i_type i)))));;
  modify (set_k_mem (stbytes (st + 10) (le_enc 2 (u16 (i_nlink i)))));;
  modify (set_k_mem (stbytes (st + 16) (le_enc 8 (i_size i)))).

(** How much of a transfer falls in the block of [off]. *)
Definition chunk (n tot off : Z) : Z := Z.min (u32 (n - tot)) (BSIZE - off mod BSIZE).

Fixpoint readi_loop (ip : nat) (user_dst : bool) (dst off n tot : Z) (fuel : nat) : K Z :=
  match fuel with
  | O => nofuel
  | S f =>
      if negb (tot <? n) then ret tot else
      addr <- bmap ip (off / BSIZE);;
      i <- getinode ip;;
      bp <- bread (i_dev i) addr;;
      let m := chunk n tot off in
      bf <- getbuf bp;;
      r <- either_copyout user_dst dst
             (slice (Z.to_nat (off mod BSIZE)) (Z.to_nat m) (b_data bf));;
      brelse bp;;
      if r =? -1 then ret (u32 (-1)) else
      readi_loop ip user_dst (u64 (dst + m)) (u32 (off + m)) n (u32 (tot + m)) f
  end.

(** The number of blocks a transfer of [n] bytes touches, and the test that
    ends the loop. *)
Definition blk_fuel (n : Z) : nat := (3 + Z.to_nat (n / BSIZE))%nat.

Definition readi (ip : nat) (user_dst : bool) (dst off n : Z) : K Z :=
  i <- getinode ip;;
  if (off >? i_size i) || (u32 (off + n) <? off) then ret 0 else
  let n := if u32 (off + n) >? i_size i then u32 (i_size i - off) else n in
  tot <- readi_loop ip user_dst dst off n 0 (blk_fuel n);;
  ret (s32 tot).

Fixpoint writei_loop (ip : nat) (user_src : bool) (src off n tot : Z) (fuel : nat) : K (Z * Z) :=
  match fuel with
  | O => nofuel
  | S f =>
      if negb (tot <? n) then ret (tot, off) else
      addr <- bmap ip (off / BSIZE);;
      i <- getinode ip;;
      bp <- bread (i_dev i) addr;;
      let m := chunk n tot off in
      r <- either_copyin user_src src m;;
      setbuf bp (set_b_data (splice (Z.to_nat (off mod BSIZE)) r.2));;
      if r.1 =? -1 then brelse bp;; ret (tot, off) else
      log_write bp;;
      brelse bp;;
      writei_loop ip user_src (u64 (src + m)) (u32 (off + m)) n (u32 (tot + m)) f
  end.

Definition writei (ip : nat) (user_src : bool) (src off n : Z) : K Z :=
  i <- getinode ip;;
  if (off >? i_size i) || (u32 (off + n) <? off) then ret (-1) else
  if u32 (off + n) >? MAXFILE * BSIZE then ret (-1) else
  r <- writei_loop ip user_src src off n 0 (blk_fuel n);;
  i <- getinode ip;;
  when (r.2 >? i_size i) (setinode ip (set_i_size (fun _ => r.2)));;
  iupdate ip;;
  ret (s32 r.1).

(** ** Directories *)

Definition namecmp (m : mem) (s t : Z) : Z := strncmp m s t DIRSIZ.

(** The local [struct dirent de] of each function: [inum] at offset 0, [name]
    at offset 2. *)
Definition loc_dirlookup_de : Z := 0.
Definition loc_dirlink_de : Z := 16.

Definition de_inum (de : Z) : K Z := gets (fun s => le_dec (ldbytes (k_mem s) de 2)).

Fixpoint dirlookup_loop (dp : nat) (name de off : Z) (fuel : nat) : K (option (nat * Z)) :=
  match fuel with
  | O => nofuel
  | S f =>
      d <- getinode dp;;
      if negb (off <? i_size d) then ret None else
      r <- readi dp false de off sizeof_dirent;;
      if negb (r =? sizeof_dirent) then panic "dirlookup read" else
      inum <- de_inum de;;
      if inum =? 0 then dirlookup_loop dp name de (off + sizeof_dirent) f else
      c <- gets (fun s => namecmp (k_mem s) name (de + 2));;
      if c =? 0 then
        d <- getinode dp;;
        ip <- iget (i_dev d) inum;;
        ret (Some (ip, off))
      else dirlookup_loop dp name de (off + sizeof_dirent) f
  end.

(** One iteration per entry and one to see the end. *)
Definition dir_fuel (size : Z) : nat := S (S (Z.to_nat (size / sizeof_dirent))).

(** The result is the inode and the offset stored through [poff]. *)
Definition dirlookup (dp : nat) (name : Z) : K (option (nat * Z)) :=
  d <- getinode dp;;
  if negb (i_type d =? T_DIR) then panic "dirlookup not DIR" else
  de <- local loc_dirlookup_de;;
  dirlookup_loop dp name de 0 (dir_fuel (i_size d)).

Fixpoint dirlink_scan (dp : nat) (de off : Z) (fuel : nat) : K Z :=
  match fuel with
  | O => nofuel
  | S f =>
      d <- getinode dp;;
      if negb (off <? i_size d) then ret off else
      r <- readi dp false de off sizeof_dirent;;
      if negb (r =? sizeof_dirent) then panic "dirlink read" else
      inum <- de_inum de;;
      if inum =? 0 then ret off else dirlink_scan dp de (off + sizeof_dirent) f
  end.

Definition dirlink (dp : nat) (name inum : Z) : K Z :=
  r <- dirlookup dp name;;
  match r with
  | Some (ip, _) => iput ip;; ret (-1)
  | None =>
      de <- local loc_dirlink_de;;
      d <- getinode dp;;
      off <- dirlink_scan dp de 0 (dir_fuel (i_size d));;
      modify (set_k_mem (fun m => strncpy m (de + 2) name DIRSIZ));;
      modify (set_k_mem (stbytes de (le_enc 2 (u16 inum))));;
      r <- writei dp false de off sizeof_dirent;;
      if negb (r =? sizeof_dirent) then panic "dirlink" else ret 0
  end.

(** ** Paths *)

(** A path is in a buffer of [MAXPATH] bytes, terminated inside it. *)
Definition path_fuel : nat := S (Z.to_nat MAXPATH).

Definition SLASH : Z := 47.

(** [while ( *path == '/') path++;] *)
Fixpoint skip_slashes (m : mem) (path : Z) (fuel : nat) : option Z :=
  match fuel with
  | O => None
  | S f => if ld8 m path =? SLASH then skip_slashes m (path + 1) f else Some path
  end.

(** [while ( *path != '/' && *path != 0) path++;] *)
Fixpoint skip_name (m : mem) (path : Z) (fuel : nat) : option Z :=
  match fuel with
  | O => None
  | S f => if negb (ld8 m path =? SLASH) && negb (ld8 m path =? 0)
           then skip_name m (path + 1) f else Some path
  end.

Definition orfuel {A : Type} (o : option A) : K A :=
  match o with Some a => ret a | None => nofuel end.

Definition skipelem (path name : Z) : K (option Z) :=
  m <- gets k_mem;;
  path <- orfuel (skip_slashes m path path_fuel);;
  if ld8 m path =? 0 then ret None else
  let s := path in
  path <- orfuel (skip_name m path path_fuel);;
  let len := path - s in
  (if len >=? DIRSIZ then
     modify (set_k_mem (fun m => memmove m name s DIRSIZ))
   else
     modify (set_k_mem (fun m => memmove m name s len));;
     modify (set_k_mem (st8 (name + len) 0)));;
  m <- gets k_mem;;
  path <- orfuel (skip_slashes m path path_fuel);;
  ret (Some path).

Fixpoint namex_loop (ip : nat) (path : Z) (nameiparent : bool) (name : Z) (fuel : nat)
    : K (option nat) :=
  match fuel with
  | O => nofuel
  | S f =>
      r <- skipelem path name;;
      match r with
      | None => if nameiparent then iput ip;; ret None else ret (Some ip)
      | Some path =>
          ilock (Some ip);;
          i <- getinode ip;;
          if negb (i_type i =? T_DIR) then iunlockput ip;; ret None else
          c <- gets (fun s => ld8 (k_mem s) path);;
          if nameiparent && (c =? 0) then iunlock (Some ip);; ret (Some ip) else
          next <- dirlookup ip name;;
          match next with
          | None => iunlockput ip;; ret None
          | Some (next, _) =>
              iunlockput ip;;
              namex_loop next path nameiparent name f
          end
      end
  end.

Definition namex (path : Z) (nameiparent : bool) (name : Z) : K (option nat) :=
  c <- gets (fun s => ld8 (k_mem s) path);;
  ip <- (if c =? SLASH then iget ROOTDEV ROOTINO
         else p <- curproc;; pr <- getproc p;; cwd <- deref (p_cwd pr);; idup cwd);;
  namex_loop ip path nameiparent name path_fuel.

Definition loc_namei_name : Z := 32.

Definition namei (path : Z) : K (option nat) :=
  name <- local loc_namei_name;;
  namex path false name.

Definition nameiparent (path name : Z) : K (option nat) := namex path true name.

End Fs.
