(* ===== verification/FsBlocks.v ===== *)
(** * The block allocator

    [balloc] finds the first free block of the bitmap, marks it and zeroes
    it; [bfree] gives a block back. Both are specified on the view a
    transaction has of the disk: [tx_get disk tx] gives each block as the
    operation would read it. *)

From stdpp Require Import gmap strings list.
From Stdlib Require Import ZArith Lia.
From S2P Require Import Prelude KState Spinlock Sched SleepLock Bio Bcache Log LogProps LogTx FsTx Fs.
Open Scope Z_scope.
Import Bio Log Fs.

(** ** Bits of the bitmap *)

Lemma bitmask_bit bi k : 0 <= k -> Z.testbit (bitmask bi) k = (k =? bi mod 8).
Proof.
  intros Hk. pose proof (Z.mod_pos_bound bi 8 ltac:(lia)) as Hm. unfold bitmask. rewrite Z.shiftl_spec by lia.
  destruct (Z.eqb_spec k (bi mod 8)) as [->|Hne]; [by rewrite Z.sub_diag|].
  destruct (decide (k < bi mod 8)); [by apply Z.testbit_neg_r; lia|].
  apply Z.bits_above_log2; cbn; lia.
Qed.

Lemma bitmask_testbit x bi : (Z.land x (bitmask bi) =? 0) = negb (Z.testbit x (bi mod 8)).
Proof.
  pose proof (Z.mod_pos_bound bi 8 ltac:(lia)) as Hm.
  destruct (Z.testbit x (bi mod 8)) eqn:E; cbn [negb].
  - apply Z.eqb_neq. intros H. apply (f_equal (fun z => Z.testbit z (bi mod 8))) in H.
    rewrite Z.land_spec, E, bitmask_bit, Z.eqb_refl, Z.bits_0 in H by lia. done.
  - apply Z.eqb_eq, Z.bits_inj'. intros n Hn. rewrite Z.land_spec, Z.bits_0, bitmask_bit by lia.
    destruct (Z.eqb_spec n (bi mod 8)) as [->|]; [by rewrite E|apply andb_false_r].
Qed.

Lemma bit_free_testbit d bi : bit_free d bi = negb (Z.testbit (d !!! Z.to_nat (bi / 8)) (bi mod 8)).
Proof. apply bitmask_testbit. Qed.

Lemma u8_testbit x k : 0 <= k < 8 -> Z.testbit (u8 x) k = Z.testbit x k.
Proof. intros. unfold u8. by rewrite Z.mod_pow2_bits_low by lia. Qed.

Lemma bit_index bi bj : 0 <= bi -> 0 <= bj -> Z.to_nat (bi / 8) = Z.to_nat (bj / 8) -> bi mod 8 = bj mod 8 -> bi = bj.
Proof. intros. dlia. Qed.

Lemma bit_free_set d bi bj :
  0 <= bi < 8 * Z.of_nat (length d) -> 0 <= bj ->
  bit_free (bit_set bi d) bj = if decide (bi = bj) then false else bit_free d bj.
Proof.
  intros Hi Hj. rewrite !bit_free_testbit. unfold bit_set.
  pose proof (Z.mod_pos_bound bi 8 ltac:(lia)) as Hmi. pose proof (Z.mod_pos_bound bj 8 ltac:(lia)) as Hmj.
  assert (Hlt : (Z.to_nat (bi / 8) < length d)%nat) by dlia.
  destruct (decide (Z.to_nat (bi / 8) = Z.to_nat (bj / 8))) as [Eq|Ne].
  - rewrite <- Eq, lookup_total_alter_eq, u8_testbit, Z.lor_spec, bitmask_bit by lia. case_decide as Hd.
    + subst. by rewrite Z.eqb_refl, orb_true_r.
    + destruct (Z.eqb_spec (bj mod 8) (bi mod 8)) as [E|E]; [destruct Hd; apply bit_index; [lia|lia|exact Eq|by symmetry]|by rewrite orb_false_r].
  - rewrite lookup_total_alter_ne by done. by rewrite decide_False by congruence.
Qed.

Lemma bit_free_clear d bi bj :
  0 <= bi < 8 * Z.of_nat (length d) -> 0 <= bj ->
  bit_free (bit_clear bi d) bj = if decide (bi = bj) then true else bit_free d bj.
Proof.
  intros Hi Hj. rewrite !bit_free_testbit. unfold bit_clear.
  pose proof (Z.mod_pos_bound bi 8 ltac:(lia)) as Hmi. pose proof (Z.mod_pos_bound bj 8 ltac:(lia)) as Hmj.
  assert (Hlt : (Z.to_nat (bi / 8) < length d)%nat) by dlia.
  destruct (decide (Z.to_nat (bi / 8) = Z.to_nat (bj / 8))) as [Eq|Ne].
  - rewrite <- Eq, lookup_total_alter_eq, u8_testbit, Z.land_spec, Z.lnot_spec, bitmask_bit by lia.
    case_decide as Hd.
    + subst. by rewrite Z.eqb_refl, andb_false_r.
    + destruct (Z.eqb_spec (bj mod 8) (bi mod 8)) as [E|E]; [destruct Hd; apply bit_index; [lia|lia|exact Eq|by symmetry]|by rewrite andb_true_r].
  - rewrite lookup_total_alter_ne by done. by rewrite decide_False by congruence.
Qed.

Lemma length_bit_set bi d : length (bit_set bi d) = length d.
Proof. apply length_alter. Qed.
Lemma length_bit_clear bi d : length (bit_clear bi d) = length d.
Proof. apply length_alter. Qed.

(** ** The search *)

Lemma balloc_scan_spec d size bi k :
  match balloc_scan d 0 size bi k with
  | Some b => bi <= b < size /\ b < bi + Z.of_nat k /\ bit_free d b = true /\
      forall j, bi <= j < b -> bit_free d j = false
  | None => forall j, bi <= j < Z.min size (bi + Z.of_nat k) -> bit_free d j = false
  end.
Proof.
  revert bi. induction k as [|k IH]; intros bi; cbn [balloc_scan]; [intros; lia|].
  destruct (Z.ltb_spec (0 + bi) size) as [Hlt|Hge]; cbn [negb]; [|intros; lia].
  destruct (bit_free d bi) eqn:E; [split_and!; try done; intros; lia|].
  specialize (IH (bi + 1)). destruct (balloc_scan d 0 size (bi + 1) k) as [b|].
  - destruct IH as (H1 & H2 & H3 & H4). split_and!; try done; try lia. intros j Hj.
    destruct (decide (j = bi)) as [->|]; [done|]. apply H4. lia.
  - intros j Hj. destruct (decide (j = bi)) as [->|]; [done|]. apply IH. lia.
Qed.

(** ** The disk's layout *)

(** What [mkfs] writes in the superblock: boot block, superblock, log,
    inodes, one bitmap block, data. *)
Record layout (sb : superblock) (start : Z) : Prop := {
  ly_log : sb_logstart sb = start;
  ly_start : 2 <= start;
  ly_ninodes : 0 < sb_ninodes sb;
  ly_inode : sb_inodestart sb = start + LOGSIZE;
  ly_bmap : sb_bmapstart sb = sb_inodestart sb + sb_ninodes sb / IPB + 1;
  ly_size : sb_bmapstart sb < sb_size sb <= FSSIZE }.

(** The bitmap block and the first data block. *)
Definition bmblock (sb : superblock) : Z := sb_bmapstart sb.
Definition datastart (sb : superblock) : Z := sb_bmapstart sb + 1.

(** A block that the bitmap marks, in the view [v] of the disk. *)
Definition used (sb : superblock) (v : Z -> list Z) (b : Z) : Prop := bit_free (v (bmblock sb)) b = false.

(** Blocks outside the log have their size, and the blocks before the data
    are marked. *)
Record blocks_ok (sb : superblock) (v : Z -> list Z) : Prop := {
  bo_meta : forall b, 0 <= b < datastart sb -> used sb v b;
  bo_len : forall b, sb_inodestart sb <= b < FSSIZE -> length (v b) = Z.to_nat BSIZE }.

(** A view with one block replaced. *)
Definition vput (h : Z) (d : list Z) (v : Z -> list Z) (x : Z) : list Z := if decide (x = h) then d else v x.

(** [lia] with the constants of the layout. *)
Ltac fslia :=
  unfold in_log, datastart, bmblock, FSSIZE, LOGSIZE, MAXOPBLOCKS, BPB, BSIZE, NBUF in *; lia.

Definition same_view (v w : Z -> list Z) : Prop := forall x, v x = w x.

Lemma vput_eq h d v : vput h d v h = d.
Proof. unfold vput. by rewrite decide_True. Qed.
Lemma vput_ne h d v x : x <> h -> vput h d v x = v x.
Proof. unfold vput. intros. by rewrite decide_False. Qed.

Lemma blocks_ok_view sb v w : same_view v w -> blocks_ok sb v -> blocks_ok sb w.
Proof. intros E [H1 H2]. split; intros b Hb; [unfold used; rewrite <- E; by apply H1|rewrite <- E; by apply H2]. Qed.

Lemma blocks_ok_put sb v h d :
  blocks_ok sb v -> h <> bmblock sb -> length d = Z.to_nat BSIZE -> blocks_ok sb (vput h d v).
Proof.
  intros [H1 H2] Hne Hl. split; intros b Hb.
  - unfold used. rewrite vput_ne by congruence. by apply H1.
  - unfold vput. case_decide; [done|by apply H2].
Qed.

Section Layout.
Context (sb : superblock) (start : Z) (Hly : layout sb start).

Lemma layout_bounds :
  2 <= start /\ start + LOGSIZE = sb_inodestart sb /\ sb_inodestart sb < bmblock sb /\
  datastart sb <= sb_size sb /\ sb_size sb <= FSSIZE.
Proof.
  destruct Hly. pose proof (Z.div_pos (sb_ninodes sb) IPB ltac:(lia) ltac:(done)).
  fslia.
Qed.

Lemma data_not_log b : datastart sb <= b -> ~ in_log start b.
Proof. pose proof layout_bounds. fslia. Qed.

Lemma bmblock_ok : 0 <= bmblock sb < FSSIZE /\ ~ in_log start (bmblock sb).
Proof. pose proof layout_bounds. fslia. Qed.

Lemma bmblock_len : sb_inodestart sb <= bmblock sb < FSSIZE.
Proof. pose proof layout_bounds. fslia. Qed.

Lemma bblock_eq b : 0 <= b < FSSIZE -> BBLOCK b sb = bmblock sb.
Proof.
  intros Hb. pose proof bmblock_ok. unfold BBLOCK, bmblock in *.
  rewrite Z.div_small by fslia. apply u32_small. fslia.
Qed.

Section View.
Context (v : Z -> list Z) (Hv : blocks_ok sb v).

Lemma bitmap_bit b : 0 <= b < FSSIZE -> 0 <= b < 8 * Z.of_nat (length (v (bmblock sb))).
Proof. intros Hb. rewrite (bo_len _ _ Hv) by apply bmblock_len. fslia. Qed.

(** The block [b] taken from the bitmap, and zeroed. *)
Definition taken (b : Z) : Z -> list Z :=
  vput b zeroblk (vput (bmblock sb) (bit_set b (v (bmblock sb))) v).

Definition given (b : Z) : Z -> list Z := vput (bmblock sb) (bit_clear b (v (bmblock sb))) v.

Lemma used_taken b x :
  datastart sb <= b < FSSIZE -> 0 <= x -> (used sb (taken b) x <-> x = b \/ used sb v x).
Proof.
  intros Hb Hx. pose proof layout_bounds as Hl. unfold used, taken.
  rewrite vput_ne, vput_eq by fslia.
  rewrite bit_free_set by (done || apply bitmap_bit; fslia).
  case_decide; naive_solver.
Qed.

Lemma blocks_ok_taken b : datastart sb <= b < FSSIZE -> blocks_ok sb (taken b).
Proof.
  intros Hb. pose proof layout_bounds as Hl. split.
  - intros x Hx. apply used_taken; [done|fslia|]. right. by apply (bo_meta _ _ Hv).
  - intros x Hx. unfold taken, vput. case_decide; [done|]. case_decide; [|by apply (bo_len _ _ Hv)].
    rewrite length_bit_set. apply (bo_len _ _ Hv), bmblock_len.
Qed.

Lemma used_given b x :
  datastart sb <= b < FSSIZE -> 0 <= x -> (used sb (given b) x <-> x <> b /\ used sb v x).
Proof.
  intros Hb Hx. pose proof layout_bounds as Hl. unfold used, given. rewrite vput_eq.
  rewrite bit_free_clear by (done || apply bitmap_bit; fslia).
  case_decide; naive_solver.
Qed.

Lemma blocks_ok_given b : datastart sb <= b < FSSIZE -> blocks_ok sb (given b).
Proof.
  intros Hb. pose proof layout_bounds as Hl. split.
  - intros x Hx. apply used_given; [done|fslia|]. split; [fslia|]. by apply (bo_meta _ _ Hv).
  - intros x Hx. unfold given, vput. case_decide; [|by apply (bo_len _ _ Hv)].
    rewrite length_bit_clear. apply (bo_len _ _ Hv), bmblock_len.
Qed.
End View.
End Layout.

(** ** The free blocks *)

Definition freeset (sb : superblock) (v : Z -> list Z) : gset Z :=
  filter (fun b => bit_free (v (bmblock sb)) b = true) (list_to_set (seqZ 0 (sb_size sb))).

Lemma elem_of_freeset sb v b : b ∈ freeset sb v <-> 0 <= b < sb_size sb /\ ~ used sb v b.
Proof.
  unfold freeset, used. rewrite elem_of_filter, elem_of_list_to_set, elem_of_seqZ.
  rewrite not_false_iff_true. split; intros [? ?]; split; (done || lia).
Qed.

Lemma freeset_view sb v w : same_view v w -> freeset sb v = freeset sb w.
Proof. intros E. unfold freeset. by rewrite E. Qed.

Lemma freeset_taken sb start v b :
  layout sb start -> blocks_ok sb v -> datastart sb <= b < sb_size sb -> ~ used sb v b ->
  size (freeset sb (taken sb v b)) = (size (freeset sb v) - 1)%nat.
Proof.
  intros Hly Hv Hb Hu. pose proof (layout_bounds _ _ Hly) as Hl.
  replace (freeset sb (taken sb v b)) with (freeset sb v ∖ {[b]}).
  - rewrite size_difference, size_singleton; [done|]. apply singleton_subseteq_l, elem_of_freeset. split; [fslia|done].
  - apply set_eq. intros x. rewrite elem_of_difference, elem_of_singleton, !elem_of_freeset. split.
    + intros [[Hx Hn] Hne]. split; [done|]. rewrite (used_taken _ _ Hly _ Hv) by fslia. naive_solver.
    + intros [Hx Hn]. rewrite (used_taken _ _ Hly _ Hv) in Hn by fslia. naive_solver.
Qed.

(** There is a first free block unless all are used. *)
Lemma freeset_scan sb start v :
  layout sb start -> (0 < size (freeset sb v))%nat ->
  exists b, balloc_scan (v (bmblock sb)) 0 (sb_size sb) 0 (Z.to_nat BPB) = Some b.
Proof.
  intros Hly Hs. pose proof (layout_bounds _ _ Hly) as Hl.
  pose proof (balloc_scan_spec (v (bmblock sb)) (sb_size sb) 0 (Z.to_nat BPB)) as H.
  destruct (balloc_scan _ _ _ _ _) as [b|]; [by exists b|]. exfalso.
  destruct (set_choose_or_empty (freeset sb v)) as [[x Hx]|He]; [|apply size_empty_iff in He; lia].
  apply elem_of_freeset in Hx as [Hx Hu]. apply Hu, H. fslia.
Qed.

(** ** The file system inside an operation *)

(** The state of an operation that writes, on a disk with layout [sb]. *)
Record fsop (s : kstate) (me : nat) (disk : gmap Z (list Z)) (sb : superblock) (start : Z)
    (tx : list (Z * list Z)) (hs : list (nat * Z)) : Prop := {
  fo_op : inop s me disk start tx hs;
  fo_sb : k_sb s = sb;
  fo_out : 1 <= lg_outstanding (k_log s);
  fo_layout : layout sb start;
  fo_blocks : blocks_ok sb (tx_get disk tx) }.

Lemma fsop_step s s' me disk sb start tx tx' hs hs' :
  fsop s me disk sb start tx hs -> inop s' me disk start tx' hs' -> opframe s s' ->
  blocks_ok sb (tx_get disk tx') -> fsop s' me disk sb start tx' hs'.
Proof.
  intros [Hi Hs Ho Hl Hb] Hi' F Hb'. split; [done|by rewrite (opframe_sb _ _ F)|by rewrite (opframe_out _ _ F)|done..].
Qed.

Lemma tx_put_len h d tx : (length (tx_put h d tx) <= S (length tx))%nat.
Proof.
  unfold tx_put, tx_set. case_decide; [rewrite length_fmap; lia|]. rewrite length_app. simpl. lia.
Qed.

Lemma tx_view_put disk h d tx : NoDup tx.*1 -> same_view (tx_get disk (tx_put h d tx)) (vput h d (tx_get disk tx)).
Proof. intros Hnd x. by apply tx_get_put. Qed.

(** What [balloc] and [bfree] add to a transaction. *)
Definition tx_take (sb : superblock) (disk : gmap Z (list Z)) (tx : list (Z * list Z)) (b : Z) : list (Z * list Z) :=
  tx_put b zeroblk (tx_put (bmblock sb) (bit_set b (tx_get disk tx (bmblock sb))) tx).
Definition tx_give (sb : superblock) (disk : gmap Z (list Z)) (tx : list (Z * list Z)) (b : Z) : list (Z * list Z) :=
  tx_put (bmblock sb) (bit_clear b (tx_get disk tx (bmblock sb))) tx.

Section Alloc.
Context (s : kstate) (me : nat) (disk : gmap Z (list Z)) (sb : superblock) (start : Z).
Context (tx : list (Z * list Z)) (hs : list (nat * Z)) (Hf : fsop s me disk sb start tx hs).

Let v := tx_get disk tx.

Lemma tx_take_view b : same_view (tx_get disk (tx_take sb disk tx b)) (taken sb v b).
Proof.
  pose proof (op_nodup _ _ _ _ _ _ (fo_op _ _ _ _ _ _ _ Hf)) as Hnd. intros x. unfold tx_take.
  rewrite tx_view_put by (by apply tx_put_nodup). unfold taken, vput. case_decide; [done|]. by apply tx_view_put.
Qed.

Lemma tx_give_view b : same_view (tx_get disk (tx_give sb disk tx b)) (given sb v b).
Proof. apply tx_view_put, (op_nodup _ _ _ _ _ _ (fo_op _ _ _ _ _ _ _ Hf)). Qed.

Context (Hlen : (length hs <= 1)%nat).

(** Change one block that is not held. *)
Lemma bwrite_run h f :
  0 <= h < FSSIZE -> ~ in_log start h -> h ∉ hs.*2 -> Z.of_nat (length tx) < LOGSIZE - 1 ->
  exists b s1 s2 s3 s', bread ROOTDEV h s = Done b s1 /\ b_data (k_bufs s1 !!! b) = v h /\ opframe s s1 /\
    setbuf b (set_b_data f) s1 = Done tt s2 /\ log_write b s2 = Done tt s3 /\ brelse b s3 = Done tt s' /\
    inop s' me disk start (tx_put h (f (v h)) tx) hs /\ opframe s s'.
Proof.
  intros Hh Hn Hm Hroom. pose proof Hf as [Hi _ Ho _ _].
  destruct (op_bread _ _ _ _ _ _ Hi h Hh Hm) as (b & s1 & E1 & Hi1 & F1 & D1); [fslia|].
  destruct (op_write _ _ _ _ _ _ Hi1 b h (or_introl eq_refl) f Hn Hh) as (s2 & s3 & E2 & E3 & Hi3 & F3);
    [by rewrite (opframe_out _ _ F1)|done|].
  destruct (op_brelse _ _ _ _ _ _ _ _ Hi3) as (s4 & E4 & Hi4 & F4).
  exists b, s1, s2, s3, s4. split_and!; try done. by eapply opframe_trans, opframe_trans.
Qed.

(** The bitmap is not among the blocks held. *)
Context (Hbm : bmblock sb ∉ hs.*2).

Let free := balloc_scan (v (bmblock sb)) 0 (sb_size sb) 0 (Z.to_nat BPB).

(** A free block is a data block. *)
Lemma free_data b : free = Some b -> datastart sb <= b < sb_size sb /\ ~ used sb v b.
Proof using Hf.
  clear Hlen Hbm. intros E. pose proof (balloc_scan_spec (v (bmblock sb)) (sb_size sb) 0 (Z.to_nat BPB)) as H.
  fold free in H. rewrite E in H. destruct H as (H1 & _ & H3 & _). unfold used. split; [|congruence].
  destruct (decide (b < datastart sb)); [|lia].
  pose proof (bo_meta _ _ (fo_blocks _ _ _ _ _ _ _ Hf) b ltac:(lia)) as Hu. unfold used in Hu. fold v in Hu. congruence.
Qed.

Lemma balloc_read :
  Z.of_nat (length tx) < LOGSIZE - 1 ->
  exists bp s1, bread ROOTDEV (bmblock sb) s = Done bp s1 /\ inop s1 me disk start tx ((bp, bmblock sb) :: hs) /\
    opframe s s1 /\
    balloc ROOTDEV s =
      match free with
      | Some bi =>
          (setbuf bp (set_b_data (bit_set bi));; log_write bp;; brelse bp;;
           bzero ROOTDEV bi;; ret bi) s1
      | None => (brelse bp;; balloc_loop ROOTDEV BPB (S (Z.to_nat (sb_size sb / BPB)))) s1
      end.
Proof.
  intros Hroom. pose proof Hf as [Hi Hs _ Hly _]. pose proof (layout_bounds _ _ Hly) as Hb.
  pose proof (bmblock_ok _ _ Hly) as [Hbr Hbn].
  destruct (op_bread _ _ _ _ _ _ Hi (bmblock sb) Hbr Hbm) as (b & s1 & E1 & Hi1 & F1 & D1); [fslia|].
  exists b, s1. split; [done|]. split; [done|]. split; [done|].
  unfold balloc, getsb. kstep. prw Hs. cbn [balloc_loop]. unfold getsb. kstep. prw Hs.
  rewrite (proj2 (Z.ltb_lt 0 (sb_size sb))) by fslia. cbn [negb].
  rewrite (bblock_eq _ _ Hly) by fslia. rewrite (bind_done _ _ _ _ _ E1). unfold getbuf. kstep. prw D1.
  fold v. fold free. by destruct free.
Qed.

Lemma balloc_run b :
  free = Some b -> b ∉ hs.*2 -> Z.of_nat (length tx) + 1 < LOGSIZE - 1 ->
  exists s', balloc ROOTDEV s = Done b s' /\ fsop s' me disk sb start (tx_take sb disk tx b) hs /\ opframe s s'.
Proof.
  intros Efree Hbh Hroom. destruct (free_data b Efree) as [Hb _]. pose proof Hf as [Hi Hs Ho Hly Hbo].
  pose proof (bmblock_ok _ _ Hly) as [Hbr Hbn]. pose proof (layout_bounds _ _ Hly) as Hlb.
  destruct balloc_read as (bp & s1 & E1 & Hi1 & F1 & ->); [lia|]. rewrite Efree.
  destruct (bwrite_run (bmblock sb) (bit_set b) Hbr Hbn Hbm)
    as (bp' & s1' & sa & sb' & s2 & E1' & _ & _ & Ea & Eb & E2 & Hi2 & F2); [lia|].
  rewrite E1 in E1'. injection E1' as <- <-.
  rewrite (bind_done _ _ _ _ _ Ea), (bind_done _ _ _ _ _ Eb), (bind_done _ _ _ _ _ E2).
  pose proof (tx_put_len (bmblock sb) (bit_set b (v (bmblock sb))) tx) as Hl2.
  destruct (op_bread _ _ _ _ _ _ Hi2 b ltac:(fslia) Hbh) as (bq & s3 & E3 & Hi3 & F3 & _); [fslia|].
  destruct (op_write _ _ _ _ _ _ Hi3 bq b (or_introl eq_refl) (fun _ => zeroblk)) as (s4 & s5 & E4 & E5 & Hi5 & F5);
    [apply (data_not_log sb _ Hly); lia|fslia|by rewrite (opframe_out _ _ F3), (opframe_out _ _ F2)|lia|].
  destruct (op_brelse _ _ _ _ _ _ _ _ Hi5) as (s6 & E6 & Hi6 & F6).
  exists s6. split.
  - unfold bzero. change (u32 ROOTDEV) with ROOTDEV. rewrite u32_small by fslia.
    erewrite bind_done; [reflexivity|].
    by rewrite (bind_done _ _ _ _ _ E3), (bind_done _ _ _ _ _ E4), (bind_done _ _ _ _ _ E5).
  - assert (F : opframe s s6) by (by eapply opframe_trans, opframe_trans, opframe_trans).
    split; [|done]. eapply fsop_step; [exact Hf|exact Hi6|exact F|].
    eapply blocks_ok_view; [intros x; symmetry; apply tx_take_view|]. eapply blocks_ok_taken; [done..|fslia].
Qed.

Lemma balloc_full :
  free = None -> Z.of_nat (length tx) < LOGSIZE - 1 ->
  exists s', balloc ROOTDEV s = Panic "balloc: out of blocks" s'.
Proof.
  intros Efree Hroom. pose proof Hf as [Hi Hs Ho Hly Hbo]. pose proof (layout_bounds _ _ Hly) as Hlb.
  destruct (balloc_read Hroom) as (bp & s1 & E1 & Hi1 & F1 & ->). rewrite Efree.
  destruct (op_brelse _ _ _ _ _ _ _ _ Hi1) as (s2 & E2 & Hi2 & F2). rewrite (bind_done _ _ _ _ _ E2).
  exists s2. cbn [balloc_loop]. unfold getsb. kstep.
  prw (opframe_sb _ _ F2). prw (opframe_sb _ _ F1). prw Hs. rewrite (proj2 (Z.ltb_ge BPB (sb_size sb))) by fslia. done.
Qed.

Lemma bfree_run b :
  datastart sb <= b < FSSIZE -> used sb v b -> Z.of_nat (length tx) < LOGSIZE - 1 ->
  exists s', bfree ROOTDEV b s = Done tt s' /\ fsop s' me disk sb start (tx_give sb disk tx b) hs /\ opframe s s'.
Proof.
  intros Hb Hu Hroom. pose proof Hf as [Hi Hs Ho Hly Hbo]. pose proof (layout_bounds _ _ Hly) as Hlb.
  pose proof (bmblock_ok _ _ Hly) as [Hbr Hbn].
  destruct (bwrite_run (bmblock sb) (bit_clear b) Hbr Hbn Hbm Hroom)
    as (bp & s1 & sa & sb' & s2 & E1 & D1 & _ & Ea & Eb & E2 & Hi2 & F2).
  exists s2. split.
  - unfold bfree, getsb. kstep. prw Hs. change (u32 ROOTDEV) with ROOTDEV.
    rewrite (bblock_eq _ _ Hly) by fslia. rewrite (bind_done _ _ _ _ _ E1). unfold getbuf. kstep. prw D1.
    rewrite (Z.mod_small b) by fslia. rewrite Hu.
    by rewrite (bind_done _ _ _ _ _ Ea), (bind_done _ _ _ _ _ Eb).
  - split; [|done]. eapply fsop_step; [exact Hf|exact Hi2|exact F2|].
    eapply blocks_ok_view; [intros x; symmetry; apply tx_give_view|]. eapply blocks_ok_given; [done..|fslia].
Qed.

Lemma bfree_free b :
  datastart sb <= b < FSSIZE -> ~ used sb v b -> Z.of_nat (length tx) < LOGSIZE - 1 ->
  exists s', bfree ROOTDEV b s = Panic "freeing free block" s'.
Proof.
  intros Hb Hu Hroom. pose proof Hf as [Hi Hs Ho Hly Hbo]. pose proof (layout_bounds _ _ Hly) as Hlb.
  pose proof (bmblock_ok _ _ Hly) as [Hbr Hbn].
  destruct (op_bread _ _ _ _ _ _ Hi (bmblock sb) Hbr Hbm) as (bp & s1 & E1 & Hi1 & F1 & D1); [fslia|].
  exists s1. unfold bfree, getsb. kstep. prw Hs. change (u32 ROOTDEV) with ROOTDEV.
  rewrite (bblock_eq _ _ Hly) by fslia. rewrite (bind_done _ _ _ _ _ E1). unfold getbuf. kstep. prw D1.
  rewrite (Z.mod_small b) by fslia. apply not_false_is_true in Hu. fold v. rewrite Hu. done.
Qed.
End Alloc.
