(* ===== verification/FsFile.v ===== *)
(** * The contents of files

    An inode names its blocks through twelve direct addresses and one
    indirect block. [bmap] finds or allocates a block, [readi] and [writei]
    move bytes. The theorems relate them to the file seen as a sequence of
    bytes. *)

From stdpp Require Import gmap strings list.
From Stdlib Require Import ZArith Lia.
From S2P Require Import Prelude KState CString Spinlock Sched SleepLock Vm Bio Bcache Log LogProps LogTx FsTx Fs FsBlocks.
Open Scope Z_scope.
Import Spinlock Sched Vm Bio Log Fs.

(** ** Addresses *)

(** The indirect block. *)
Definition iblk (ino : inode) : Z := i_addrs ino !!! Z.to_nat NDIRECT.

(** The address of block [k] of the file, 0 if it has none. *)
Definition faddr (v : Z -> list Z) (ino : inode) (k : Z) : Z :=
  if k <? NDIRECT then i_addrs ino !!! Z.to_nat k
  else if iblk ino =? 0 then 0 else get32 (v (iblk ino)) (4 * (k - NDIRECT)).

(** Block [k] as the file's reader sees it. *)
Definition fblock (v : Z -> list Z) (ino : inode) (k : Z) : list Z :=
  if faddr v ino k =? 0 then zeroblk else v (faddr v ino k).

Definition fbyte (v : Z -> list Z) (ino : inode) (i : Z) : Z :=
  fblock v ino (i / BSIZE) !!! Z.to_nat (i mod BSIZE).

(** The blocks of the file. *)
Definition owns (v : Z -> list Z) (ino : inode) (x : Z) : Prop :=
  x <> 0 /\ (x = iblk ino \/ exists k, 0 <= k < MAXFILE /\ x = faddr v ino k).

(** A data block that the bitmap marks. *)
Definition alloced (sb : superblock) (v : Z -> list Z) (x : Z) : Prop :=
  datastart sb <= x < sb_size sb /\ used sb v x.

(** A well-formed inode: its blocks are data blocks, marked in the bitmap,
    each with one use, and there is one for every byte of the file. *)
Record file_ok (sb : superblock) (v : Z -> list Z) (ino : inode) : Prop := {
  fk_dev : i_dev ino = ROOTDEV;
  fk_len : length (i_addrs ino) = 13%nat;
  fk_own : forall x, owns v ino x -> alloced sb v x;
  fk_inj : forall j k, 0 <= j < MAXFILE -> 0 <= k < MAXFILE -> faddr v ino j <> 0 ->
    faddr v ino j = faddr v ino k -> j = k;
  fk_ind : forall k, 0 <= k < MAXFILE -> iblk ino <> 0 -> faddr v ino k <> iblk ino;
  fk_dense : forall k, 0 <= k -> k * BSIZE < i_size ino -> faddr v ino k <> 0;
  fk_size : 0 <= i_size ino <= MAXFILE * BSIZE }.

(** [lia] with the constants of the file format. *)
Ltac filia :=
  unfold MAXFILE, NINDIRECT, NDIRECT in *; change (BSIZE / 4) with 256 in *; fslia.

(** What [bmap] may do to the disk and the inode. *)
Record grew (sb : superblock) (v : Z -> list Z) (ino : inode) (v' : Z -> list Z) (ino' : inode) : Prop := {
  gr_ino : ino' = set_i_addrs (fun _ => i_addrs ino') ino;
  gr_used : forall x, 0 <= x -> used sb v x -> used sb v' x;
  gr_addr : forall k, 0 <= k < MAXFILE -> faddr v ino k <> 0 -> faddr v' ino' k = faddr v ino k;
  gr_own : forall x, owns v' ino' x -> owns v ino x \/ (0 <= x /\ ~ used sb v x);
  gr_frame : forall x, 0 <= x -> used sb v x -> x <> bmblock sb -> ~ owns v ino x -> v' x = v x }.

Section Pure.
Context (sb : superblock) (start : Z) (Hly : layout sb start).

Lemma owns_faddr v ino k : 0 <= k < MAXFILE -> faddr v ino k <> 0 -> owns v ino (faddr v ino k).
Proof. intros Hk Hn. split; [done|]. right. by exists k. Qed.

Lemma owns_iblk v ino : iblk ino <> 0 -> owns v ino (iblk ino).
Proof. intros Hn. split; [done|by left]. Qed.

Lemma fgrew_refl v ino : grew sb v ino v ino.
Proof. split; auto. Qed.

Lemma grew_trans v0 i0 v1 i1 v2 i2 :
  grew sb v0 i0 v1 i1 -> grew sb v1 i1 v2 i2 -> grew sb v0 i0 v2 i2.
Proof.
  intros [A1 A2 A3 A4 A5] [B1 B2 B3 B4 B5]. split.
  - rewrite B1, A1. done.
  - auto.
  - intros k Hk Hn. rewrite B3, A3; auto. by rewrite A3.
  - intros x Hx. destruct (B4 x Hx) as [H|[Hx0 H]]; [by apply A4|]. right. auto.
  - intros x Hx Hu Hb Ho. rewrite B5, A5; auto. intros Ho'. destruct (A4 x Ho') as [?|[_ ?]]; done.
Qed.

(** One block [b] more for the file. *)
Section Grow.
Context (v v' : Z -> list Z) (ino ino' : inode) (b : Z).
Context (Hok : file_ok sb v ino) (Hb : datastart sb <= b < sb_size sb) (Hfree : ~ used sb v b).
Context (Hused : forall x, 0 <= x -> (used sb v' x <-> x = b \/ used sb v x)).
Context (Hino : ino' = set_i_addrs (fun _ => i_addrs ino') ino) (Hlen : length (i_addrs ino') = 13%nat).
Context (Hv : forall x, x <> bmblock sb -> x <> b -> (iblk ino = 0 \/ x <> iblk ino) -> v' x = v x) (Hz : v' b = zeroblk).

Lemma owned_old x : owns v ino x -> x <> b /\ x <> bmblock sb /\ datastart sb <= x < sb_size sb /\ used sb v x.
Proof.
  intros Hx. destruct (fk_own _ _ _ Hok x Hx) as [Hr Hu]. split; [by intros ->|]. split; [fslia|done].
Qed.

Lemma b_pos : 0 <= b /\ b <> 0 /\ b <> bmblock sb.
Proof. pose proof (layout_bounds _ _ Hly). fslia. Qed.

Lemma used_old x : 0 <= x -> used sb v x -> used sb v' x.
Proof. intros. apply Hused; auto. Qed.

(** [b] is block [bn] of the file. *)
Section Data.
Context (bn : Z) (Hbn : 0 <= bn < MAXFILE) (Hbn0 : faddr v ino bn = 0) (Hib : iblk ino' = iblk ino).
Context (Hfa : forall k, 0 <= k < MAXFILE -> faddr v' ino' k = if decide (k = bn) then b else faddr v ino k).

Lemma grow_data_own x : owns v' ino' x -> x = b \/ owns v ino x.
Proof.
  intros [Hx [->|(k & Hk & ->)]].
  - right. rewrite Hib in *. by apply owns_iblk.
  - rewrite Hfa in * by done. case_decide; [by left|]. right. by apply owns_faddr.
Qed.

Lemma grow_data_block k : 0 <= k < MAXFILE -> fblock v' ino' k = fblock v ino k.
Proof.
  intros Hk. pose proof b_pos as (Hb0 & Hb1 & Hb2). unfold fblock. rewrite Hfa by done. case_decide as Hd.
  - subst. rewrite Hbn0, (proj2 (Z.eqb_neq b 0)) by done. done.
  - destruct (Z.eqb_spec (faddr v ino k) 0) as [|Hn]; [done|].
    destruct (owned_old _ (owns_faddr _ _ _ Hk Hn)) as (H1 & H2 & _). apply Hv; [done|done|].
    destruct (decide (iblk ino = 0)) as [|Hi]; [by left|]. right. by apply (fk_ind _ _ _ Hok).
Qed.

Lemma grow_data_ok :
  file_ok sb v' ino' /\ grew sb v ino v' ino' /\
  forall k, 0 <= k < MAXFILE -> fblock v' ino' k = fblock v ino k.
Proof.
  enough (file_ok sb v' ino' /\ grew sb v ino v' ino') as [? ?] by (split_and!; [done|done|apply grow_data_block]).
  pose proof b_pos as (Hb0 & Hb1 & Hb2). pose proof Hok as [K1 K2 K3 K4 K5 K6 K7]. split; [split|split].
  - by rewrite Hino.
  - done.
  - intros x [->|Hx]%grow_data_own; [split; [done|apply Hused; auto]|].
    destruct (owned_old x Hx) as (_ & _ & Hr & Hu). split; [done|]. apply used_old; [|done].
    pose proof (layout_bounds _ _ Hly). fslia.
  - intros j k Hj Hk. rewrite !Hfa by done. repeat case_decide; subst; try done; intros Hn E.
    + destruct (owned_old (faddr v ino k)) as [Hne _]; [apply owns_faddr; congruence|congruence].
    + destruct (owned_old (faddr v ino j)) as [Hne _]; [by apply owns_faddr|congruence].
    + by apply K4.
  - intros k Hk. rewrite Hib, Hfa by done. intros Hi. case_decide; [|by apply K5].
    destruct (owned_old _ (owns_iblk v _ Hi)) as [Hne _]. congruence.
  - intros k Hk. rewrite Hino. cbn. intros Hs. rewrite <- Hino, Hfa by filia. case_decide; [done|by apply K6].
  - by rewrite Hino.
  - done.
  - apply used_old.
  - intros k Hk Hn. rewrite Hfa by done. rewrite decide_False; [done|congruence].
  - intros x [->|Hx]%grow_data_own; [right; by split|by left].
  - intros x Hx Hu Hbm Ho. apply Hv; [done|congruence|]. destruct (decide (iblk ino = 0)) as [|Hi]; [by left|].
    right. intros ->. by apply Ho, owns_iblk.
Qed.
End Data.

(** [b] is the indirect block. *)
Section Ind.
Context (Hi0 : iblk ino = 0) (Hib : iblk ino' = b).
Context (Hfa : forall k, 0 <= k < MAXFILE -> faddr v' ino' k = faddr v ino k).

Lemma grow_ind_own x : owns v' ino' x -> x = b \/ owns v ino x.
Proof.
  intros [Hx [->|(k & Hk & ->)]]; [left; congruence|]. rewrite Hfa in * by done. right. by apply owns_faddr.
Qed.

Lemma grow_ind_block k : 0 <= k < MAXFILE -> fblock v' ino' k = fblock v ino k.
Proof.
  intros Hk. unfold fblock. rewrite Hfa by done. destruct (Z.eqb_spec (faddr v ino k) 0) as [|Hn]; [done|].
  destruct (owned_old _ (owns_faddr _ _ _ Hk Hn)) as (H1 & H2 & _). apply Hv; auto.
Qed.

Lemma grow_ind_ok :
  file_ok sb v' ino' /\ grew sb v ino v' ino' /\
  forall k, 0 <= k < MAXFILE -> fblock v' ino' k = fblock v ino k.
Proof.
  enough (file_ok sb v' ino' /\ grew sb v ino v' ino') as [? ?] by (split_and!; [done|done|apply grow_ind_block]).
  pose proof b_pos as (Hb0 & Hb1 & Hb2). pose proof Hok as [K1 K2 K3 K4 K5 K6 K7]. split; [split|split].
  - by rewrite Hino.
  - done.
  - intros x [->|Hx]%grow_ind_own; [split; [done|apply Hused; auto]|].
    destruct (owned_old x Hx) as (_ & _ & Hr & Hu). split; [done|]. apply used_old; [|done].
    pose proof (layout_bounds _ _ Hly). fslia.
  - intros j k Hj Hk. rewrite !Hfa by done. by apply K4.
  - intros k Hk _. rewrite Hib, Hfa by done. intros E.
    destruct (owned_old (faddr v ino k)) as [Hne _]; [apply owns_faddr; congruence|congruence].
  - intros k Hk. rewrite Hino. cbn. intros Hs. rewrite <- Hino, Hfa by filia. by apply K6.
  - by rewrite Hino.
  - done.
  - apply used_old.
  - intros k Hk Hn. by rewrite Hfa.
  - intros x [->|Hx]%grow_ind_own; [right; by split|by left].
  - intros x Hx Hu Hbm Ho. apply Hv; [done|congruence|by left].
Qed.
End Ind.
End Grow.
End Pure.

(** ** Log slots and free blocks that a file needs *)

Definition keys (tx : list (Z * list Z)) : gset Z := list_to_set tx.*1.

Definition ibset (ino : inode) : gset Z := if iblk ino =? 0 then ∅ else {[iblk ino]}.

(** One block is set aside for an indirect block that does not exist yet. *)
Definition reserve (ino : inode) : nat := if iblk ino =? 0 then 1%nat else 0%nat.

(** The log slots taken by the blocks [ks], the bitmap and the indirect block. *)
Definition cost (sb : superblock) (ks : gset Z) (ino : inode) : nat :=
  (size (ks ∪ {[bmblock sb]} ∪ ibset ino) + reserve ino)%nat.

Definition avail (sb : superblock) (v : Z -> list Z) (ino : inode) : Z :=
  Z.of_nat (size (freeset sb v)) - Z.of_nat (reserve ino).

Lemma union_swap (X Y W : gset Z) : X ∪ Y ∪ W = X ∪ W ∪ Y.
Proof. set_solver. Qed.

Lemma union_again (X Y : gset Z) : X ∪ Y ∪ Y = X ∪ Y.
Proof. set_solver. Qed.

Lemma keys_put h d tx : keys (tx_put h d tx) = keys tx ∪ {[h]}.
Proof.
  apply set_eq. intros x. unfold keys. rewrite elem_of_union, elem_of_singleton, !elem_of_list_to_set.
  unfold tx_put. case_decide.
  - rewrite tx_set_fst. naive_solver.
  - rewrite fmap_app, elem_of_app. cbn. by rewrite list_elem_of_singleton.
Qed.

Lemma keys_take sb disk tx b : keys (tx_take sb disk tx b) = keys tx ∪ {[bmblock sb]} ∪ {[b]}.
Proof. unfold tx_take. by rewrite !keys_put. Qed.

Lemma keys_len tx : NoDup tx.*1 -> length tx = size (keys tx).
Proof. intros Hnd. unfold keys. by rewrite size_list_to_set, length_fmap. Qed.

Lemma cost_len sb tx ino : NoDup tx.*1 -> (length tx <= cost sb (keys tx) ino)%nat.
Proof. intros Hnd. rewrite keys_len by done. unfold cost. trans (size (keys tx ∪ {[bmblock sb]} ∪ ibset ino)); [|lia]. apply subseteq_size. set_solver. Qed.

Lemma cost_add sb ks x ino : (cost sb (ks ∪ {[x]}) ino <= S (cost sb ks ino))%nat.
Proof.
  unfold cost. set (X := ks ∪ {[bmblock sb]} ∪ ibset ino).
  replace (ks ∪ {[x]} ∪ {[bmblock sb]} ∪ ibset ino) with (X ∪ {[x]}) by set_solver.
  pose proof (size_union_alt X {[x]}) as E. rewrite E.
  assert (size ({[x]} ∖ X) <= 1)%nat; [|lia].
  rewrite <- (size_singleton (C := gset Z) x). apply subseteq_size. set_solver.
Qed.

Lemma cost_bm sb ks ino : cost sb (ks ∪ {[bmblock sb]}) ino = cost sb ks ino.
Proof. unfold cost. do 2 f_equal. set_solver. Qed.

Lemma cost_ib sb ks ino : iblk ino <> 0 -> cost sb (ks ∪ {[iblk ino]}) ino = cost sb ks ino.
Proof.
  intros Hn. unfold cost, ibset. rewrite (proj2 (Z.eqb_neq _ 0)) by done. do 2 f_equal. set_solver.
Qed.

(** Allocating the indirect block uses the slot that was set aside. *)
Lemma cost_new_ib sb ks ino ino' :
  iblk ino = 0 -> iblk ino' <> 0 -> (cost sb (ks ∪ {[iblk ino']}) ino' <= cost sb ks ino)%nat.
Proof.
  intros H0 Hn. rewrite cost_ib by done. unfold cost, ibset, reserve. rewrite H0. cbn [Z.eqb].
  rewrite (proj2 (Z.eqb_neq _ 0)) by done. rewrite union_empty_r_L.
  pose proof (cost_add sb ks (iblk ino') ino) as Hc. unfold cost, ibset, reserve in Hc. rewrite H0 in Hc. cbn [Z.eqb] in Hc.
  rewrite !union_empty_r_L in Hc.
  rewrite union_swap. lia.
Qed.

Lemma reserve_same ino ino' : iblk ino' = iblk ino -> reserve ino' = reserve ino.
Proof. unfold reserve. by intros ->. Qed.

(** ** [bmap] *)

(** Frame of an operation on inode [ip]. *)
Definition ifr (ip : nat) (ino' : inode) (s s' : kstate) : Prop :=
  opframe (set_k_inodes (fun _ => <[ip := ino']> (k_inodes s)) s) s'.

Lemma opframe_set_inodes s s' x :
  opframe s s' -> opframe (set_k_inodes (fun _ => x) s) (set_k_inodes (fun _ => x) s').
Proof.
  intros (l & (b & d & t & p & -> & Hl & Hp) & H). exists l. split; [|exact H]. by exists b, d, t, p.
Qed.

Lemma ifr_inodes ip ino' s s' : ifr ip ino' s s' -> k_inodes s' = <[ip := ino']> (k_inodes s).
Proof. intros F. exact (opframe_inodes _ _ F). Qed.

Lemma ifr_trans ip i1 i2 s0 s1 s2 : ifr ip i1 s0 s1 -> ifr ip i2 s1 s2 -> ifr ip i2 s0 s2.
Proof.
  unfold ifr. intros F1 F2. eapply opframe_trans, F2. rewrite (ifr_inodes _ _ _ _ F1).
  apply (opframe_set_inodes _ _ (<[ip := i2]> (<[ip := i1]> (k_inodes s0)))) in F1.
  rewrite set_set_k_inodes in F1. rewrite list_insert_same in *. exact F1.
Qed.

Lemma opframe_ifr ip ino s s' : k_inodes s !! ip = Some ino -> opframe s s' -> ifr ip ino s s'.
Proof. intros Hi F. unfold ifr. rewrite list_insert_id by done. by rewrite set_k_inodes_id. Qed.

Lemma ifr_at ip ino ino' s s' : k_inodes s !! ip = Some ino -> ifr ip ino' s s' -> k_inodes s' !! ip = Some ino'.
Proof.
  intros Hi F. rewrite (ifr_inodes _ _ _ _ F). apply list_lookup_insert_eq. by eapply lookup_lt_Some.
Qed.

Lemma fsop_inodes s me disk sb start tx hs g :
  fsop s me disk sb start tx hs -> fsop (set_k_inodes g s) me disk sb start tx hs.
Proof. intros [Hi Hs Ho Hl Hb]. split; [by apply inop_inodes|exact Hs|exact Ho|exact Hl|exact Hb]. Qed.

(** Inode [ip] and the transaction have come from [ino] and [tx] to [ino']
    and [tx'] by allocating blocks that the file's contents do not show. *)
Record extended (s : kstate) (me : nat) (disk : gmap Z (list Z)) (sb : superblock) (start : Z)
    (tx : list (Z * list Z)) (ip : nat) (ino : inode) (s' : kstate) (tx' : list (Z * list Z)) (ino' : inode) : Prop := {
  ex_op : fsop s' me disk sb start tx' [];
  ex_frame : ifr ip ino' s s';
  ex_ok : file_ok sb (tx_get disk tx') ino';
  ex_grew : grew sb (tx_get disk tx) ino (tx_get disk tx') ino';
  ex_block : forall k, 0 <= k < MAXFILE -> fblock (tx_get disk tx') ino' k = fblock (tx_get disk tx) ino k }.

Section Bmap.
Context (s : kstate) (me : nat) (disk : gmap Z (list Z)) (sb : superblock) (start : Z).
Context (tx : list (Z * list Z)) (ip : nat) (ino : inode).
Context (Hf : fsop s me disk sb start tx []) (Hip : k_inodes s !! ip = Some ino).

Let v := tx_get disk tx.
Context (Hok : file_ok sb v ino).

Lemma ino_at : k_inodes s !!! ip = ino.
Proof. by apply list_lookup_total_correct. Qed.

Lemma extended_refl : extended s me disk sb start tx ip ino s tx ino.
Proof. split; [done|by apply opframe_ifr, opframe_refl|done|apply fgrew_refl|done]. Qed.

Lemma addr_at_run k : addr_at ip k s = Done (i_addrs ino !!! Z.to_nat k) s.
Proof. unfold addr_at, getinode. kstep. prw ino_at. done. Qed.

(** A slot of the inode that has an address. *)
Lemma addr_alloc_have k : i_addrs ino !!! Z.to_nat k <> 0 ->
  addr_alloc ip k s = Done (i_addrs ino !!! Z.to_nat k) s.
Proof.
  intros Hn. unfold addr_alloc. rewrite (bind_done _ _ _ _ _ (addr_at_run k)).
  by rewrite (proj2 (Z.eqb_neq _ 0)).
Qed.

Definition with_addr (k b : Z) : inode := set_i_addrs (insert (Z.to_nat k) b) ino.

Lemma addr_alloc_new k :
  i_addrs ino !!! Z.to_nat k = 0 -> Z.of_nat (length tx) + 1 < LOGSIZE - 1 -> (0 < size (freeset sb v))%nat ->
  exists b s', addr_alloc ip k s = Done b s' /\ datastart sb <= b < sb_size sb /\ ~ used sb v b /\
    fsop s' me disk sb start (tx_take sb disk tx b) [] /\ ifr ip (with_addr k b) s s'.
Proof.
  intros H0 Hroom Hfr. pose proof Hf as [Hi Hs Ho Hly Hbo].
  destruct (freeset_scan _ _ _ Hly Hfr) as (b & Eb).
  destruct (free_data _ _ _ _ _ _ _ Hf b Eb) as [Hb Hu].
  destruct (balloc_run _ _ _ _ _ _ _ Hf ltac:(simpl; lia) ltac:(apply not_elem_of_nil) b Eb) as (s1 & E1 & Hf1 & F1);
    [apply not_elem_of_nil|done|].
  exists b, (set_k_inodes (alter (set_i_addrs (insert (Z.to_nat k) b)) ip) s1). split.
  - unfold addr_alloc. rewrite (bind_done _ _ _ _ _ (addr_at_run k)), H0. cbn [Z.eqb]. unfold getinode. kstep.
    prw ino_at. prw (fk_dev _ _ _ Hok). rewrite (bind_done _ _ _ _ _ E1). done.
  - split; [done|]. split; [done|]. split; [by apply fsop_inodes|].
    unfold ifr. pose proof (opframe_inodes _ _ F1) as E2. apply (opframe_set_inodes _ _ (<[ip := with_addr k b]> (k_inodes s))) in F1.
    rewrite (set_k_inodes_ext (alter _ ip) (fun _ => <[ip := with_addr k b]> (k_inodes s))); [exact F1|].
    rewrite E2. apply list_eq. intros j. destruct (decide (ip = j)) as [<-|Hne].
    + rewrite list_lookup_alter_eq, list_lookup_insert_eq, Hip by (by eapply lookup_lt_Some). done.
    + by rewrite list_lookup_alter_ne, list_lookup_insert_ne.
Qed.
(** The view after block [b] was taken. *)
Section Take.
Context (b : Z) (Hb : datastart sb <= b < sb_size sb) (Hu : ~ used sb v b).
Let v' := tx_get disk (tx_take sb disk tx b).

Lemma take_used x : 0 <= x -> (used sb v' x <-> x = b \/ used sb v x).
Proof.
  intros Hx. pose proof Hf as [Hi Hs Ho Hly Hbo]. pose proof (layout_bounds _ _ Hly).
  unfold used at 1, v'. rewrite (tx_take_view _ _ _ _ _ _ _ Hf). apply (used_taken _ _ Hly _ Hbo); [fslia|done].
Qed.

Lemma take_same x : x <> bmblock sb -> x <> b -> v' x = v x.
Proof. intros H1 H2. unfold v'. rewrite (tx_take_view _ _ _ _ _ _ _ Hf). unfold taken. by rewrite !vput_ne. Qed.

Lemma take_new : v' b = zeroblk.
Proof. unfold v'. rewrite (tx_take_view _ _ _ _ _ _ _ Hf). unfold taken. by rewrite vput_eq. Qed.

Lemma take_free : size (freeset sb v') = (size (freeset sb v) - 1)%nat.
Proof.
  pose proof Hf as [Hi Hs Ho Hly Hbo]. rewrite (freeset_view _ _ _ (tx_take_view _ _ _ _ _ _ _ Hf b)).
  by eapply freeset_taken.
Qed.

Lemma with_addr_len k : length (i_addrs (with_addr k b)) = 13%nat.
Proof. unfold with_addr. cbn. rewrite length_insert. apply (fk_len _ _ _ Hok). Qed.

Lemma with_addr_direct k : 0 <= k < NDIRECT -> iblk (with_addr k b) = iblk ino.
Proof. intros Hk. unfold iblk, with_addr. cbn. apply list_lookup_total_insert_ne. unfold NDIRECT in *. lia. Qed.

Lemma iblk_old : iblk ino <> 0 -> iblk ino <> bmblock sb /\ iblk ino <> b /\ datastart sb <= iblk ino < sb_size sb.
Proof.
  intros Hn. destruct (fk_own _ _ _ Hok _ (owns_iblk v ino Hn)) as [Hr Hu']. split; [fslia|]. split; [congruence|done].
Qed.

Lemma faddr_direct bn k :
  0 <= bn < NDIRECT -> 0 <= k < MAXFILE ->
  faddr v' (with_addr bn b) k = if decide (k = bn) then b else faddr v ino k.
Proof.
  intros Hbn Hk. unfold faddr. rewrite with_addr_direct by done.
  destruct (Z.ltb_spec k NDIRECT) as [Hlt|Hge].
  - unfold with_addr. cbn. case_decide as Hd.
    + subst. apply list_lookup_total_insert_eq. rewrite (fk_len _ _ _ Hok). unfold NDIRECT in *. lia.
    + rewrite list_lookup_total_insert_ne by lia. done.
  - rewrite decide_False by lia. destruct (Z.eqb_spec (iblk ino) 0) as [|Hn]; [done|].
    destruct (iblk_old Hn) as (H1 & H2 & _). by rewrite take_same.
Qed.

Lemma iblk_new : iblk (with_addr NDIRECT b) = b.
Proof. unfold iblk, with_addr. cbn. apply list_lookup_total_insert_eq. rewrite (fk_len _ _ _ Hok). unfold NDIRECT. lia. Qed.

Lemma faddr_new_ind k : iblk ino = 0 -> 0 <= k < MAXFILE -> faddr v' (with_addr NDIRECT b) k = faddr v ino k.
Proof.
  intros H0 Hk. unfold faddr. rewrite iblk_new, H0. cbn [Z.eqb].
  destruct (Z.ltb_spec k NDIRECT) as [Hlt|Hge].
  - unfold with_addr. cbn. apply list_lookup_total_insert_ne. unfold NDIRECT in *. lia.
  - case_match; [done|]. rewrite take_new. unfold get32, zeroblk.
    assert (forall n off, slice off n (replicate (Z.to_nat BSIZE) 0) = replicate (n `min` (Z.to_nat BSIZE - off)) 0) as ->.
    { intros n off. unfold slice. by rewrite drop_replicate, take_replicate. }
    generalize (4 `min` (Z.to_nat BSIZE - Z.to_nat (4 * (k - NDIRECT))))%nat. intros n.
    induction n as [|n IH]; [done|]. cbn. rewrite IH. done.
Qed.
End Take.

Context (Hroom : Z.of_nat (cost sb (keys tx) ino) + 1 < LOGSIZE - 1) (Hav : 1 <= avail sb v ino).

Lemma tx_room : Z.of_nat (length tx) + 1 < LOGSIZE - 1.
Proof.
  pose proof (cost_len sb tx ino (op_nodup _ _ _ _ _ _ (fo_op _ _ _ _ _ _ _ Hf))). lia.
Qed.

(** The slot of a direct block. *)
Lemma slot_direct bn :
  0 <= bn < NDIRECT ->
  exists a s' tx' ino', addr_alloc ip bn s = Done a s' /\ extended s me disk sb start tx ip ino s' tx' ino' /\
    faddr (tx_get disk tx') ino' bn = a /\ a <> 0 /\
    (cost sb (keys tx' ∪ {[a]}) ino' <= S (cost sb (keys tx) ino))%nat /\
    avail sb v ino - 1 <= avail sb (tx_get disk tx') ino'.
Proof.
  intros Hbn. pose proof Hf as [Hi Hs Ho Hly Hbo].
  assert (Hfa : faddr v ino bn = i_addrs ino !!! Z.to_nat bn) by (unfold faddr; by rewrite (proj2 (Z.ltb_lt _ _)) by lia).
  destruct (decide (i_addrs ino !!! Z.to_nat bn = 0)) as [H0|Hn].
  - destruct (addr_alloc_new bn H0 tx_room) as (b & s' & E & Hb & Hu & Hf' & F); [unfold avail in Hav; lia|].
    destruct (grow_data_ok sb start Hly v (tx_get disk (tx_take sb disk tx b)) ino (with_addr bn b) b Hok Hb Hu
      (take_used b Hb) eq_refl (with_addr_len b bn)) with (bn := bn) as (Hok' & Hgr & Hblk);
      [intros; by apply take_same|apply take_new|congruence|by apply with_addr_direct|intros; by apply faddr_direct|].
    exists b, s', (tx_take sb disk tx b), (with_addr bn b). split; [done|]. split; [by split|].
    rewrite faddr_direct, decide_True by (done || filia). split; [done|]. pose proof (layout_bounds _ _ Hly).
      split; [fslia|]. rewrite keys_take. split.
      * rewrite union_again, union_swap, cost_bm. etrans; [apply cost_add|]. unfold cost, ibset, reserve. rewrite with_addr_direct by done. lia.
      * unfold avail. rewrite take_free, (reserve_same ino (with_addr bn b)) by (done || by apply with_addr_direct). unfold avail in Hav. lia.
  - exists (i_addrs ino !!! Z.to_nat bn), s, tx, ino. split; [by apply addr_alloc_have|]. split; [apply extended_refl|].
    split; [done|]. split; [done|]. split; [apply cost_add|fold v; lia].
Qed.

(** The slot of the indirect block. *)
Lemma slot_indirect :
  exists a s' tx' ino', addr_alloc ip NDIRECT s = Done a s' /\ extended s me disk sb start tx ip ino s' tx' ino' /\
    iblk ino' = a /\ a <> 0 /\ (cost sb (keys tx') ino' <= cost sb (keys tx) ino)%nat /\
    avail sb v ino <= avail sb (tx_get disk tx') ino'.
Proof.
  pose proof Hf as [Hi Hs Ho Hly Hbo]. pose proof (layout_bounds _ _ Hly) as Hlb.
  destruct (decide (iblk ino = 0)) as [H0|Hn].
  - assert (Hres : reserve ino = 1%nat) by (unfold reserve; by rewrite H0).
    destruct (addr_alloc_new NDIRECT H0 tx_room) as (b & s' & E & Hb & Hu & Hf' & F); [unfold avail in Hav; lia|].
    destruct (grow_ind_ok sb start Hly v (tx_get disk (tx_take sb disk tx b)) ino (with_addr NDIRECT b) b Hok Hb Hu
      (take_used b Hb) eq_refl (with_addr_len b NDIRECT)) as (Hok' & Hgr & Hblk);
      [intros; by apply take_same|done|apply iblk_new|intros; by apply faddr_new_ind|].
    assert (Hib : iblk (with_addr NDIRECT b) <> 0) by (rewrite iblk_new; fslia).
    exists b, s', (tx_take sb disk tx b), (with_addr NDIRECT b). split; [done|]. split; [by split|].
    split; [apply iblk_new|]. split; [fslia|]. rewrite keys_take. split.
      * pose proof (cost_new_ib sb (keys tx ∪ {[bmblock sb]}) ino (with_addr NDIRECT b) H0 Hib) as Hc.
        rewrite iblk_new, cost_bm in Hc. exact Hc.
      * unfold avail. rewrite take_free by done. unfold reserve. rewrite H0, (proj2 (Z.eqb_neq (iblk (with_addr NDIRECT b)) 0)) by exact Hib.
        unfold avail in Hav. cbn. lia.
  - exists (iblk ino), s, tx, ino. split; [by apply addr_alloc_have|]. split; [apply extended_refl|].
    split; [done|]. split; [done|]. split; [lia|fold v; lia].
Qed.
End Bmap.

(** [bmap] after it has found or allocated the indirect block. *)
Definition bmap_entry (ip : nat) (addr bn : Z) : K Z :=
  i <- getinode ip;;
  bp <- bread (i_dev i) addr;;
  bf <- getbuf bp;;
  let addr := get32 (b_data bf) (4 * bn) in
  addr <-
    (if addr =? 0 then
       i <- getinode ip;;
       addr <- balloc (i_dev i);;
       setbuf bp (set_b_data (put32 (4 * bn) addr));;
       log_write bp;;
       ret addr
     else ret addr);;
  brelse bp;;
  ret addr.

Lemma bmap_indirect ip bn :
  NDIRECT <= bn < MAXFILE ->
  bmap ip bn = (addr <- addr_alloc ip NDIRECT;; bmap_entry ip addr (bn - NDIRECT)).
Proof.
  intros Hbn. unfold bmap. rewrite (proj2 (Z.ltb_ge _ _)) by lia. cbv zeta.
  rewrite u32_small, (proj2 (Z.ltb_lt _ _)) by filia. done.
Qed.

Section Entry.
Context (s : kstate) (me : nat) (disk : gmap Z (list Z)) (sb : superblock) (start : Z).
Context (tx : list (Z * list Z)) (ip : nat) (ino : inode).
Context (Hi : inop s me disk start tx []) (Hip : k_inodes s !! ip = Some ino).
Let v := tx_get disk tx.
Context (Hly : layout sb start) (Hok : file_ok sb v ino) (Hib : iblk ino <> 0).
Context (bn : Z) (Hbn : NDIRECT <= bn < MAXFILE).

Lemma entry_addr : faddr v ino bn = get32 (v (iblk ino)) (4 * (bn - NDIRECT)).
Proof. unfold faddr. by rewrite (proj2 (Z.ltb_ge _ _)), (proj2 (Z.eqb_neq _ 0)) by (done || lia). Qed.

Lemma iblk_range : 0 <= iblk ino < FSSIZE /\ ~ in_log start (iblk ino) /\ iblk ino <> bmblock sb /\ used sb v (iblk ino).
Proof.
  destruct (fk_own _ _ _ Hok _ (owns_iblk v ino Hib)) as [Hr Hu]. pose proof (layout_bounds _ _ Hly).
  split; [fslia|]. split; [apply (data_not_log sb _ Hly); lia|]. split; [fslia|done].
Qed.

Lemma entry_read :
  (length tx < NBUF)%nat ->
  exists bp s1, bread ROOTDEV (iblk ino) s = Done bp s1 /\ inop s1 me disk start tx [(bp, iblk ino)] /\ opframe s s1 /\
    bmap_entry ip (iblk ino) (bn - NDIRECT) s =
    (addr <- (if faddr v ino bn =? 0 then
       addr <- balloc ROOTDEV;;
       setbuf bp (set_b_data (put32 (4 * (bn - NDIRECT)) addr));; log_write bp;; ret addr
     else ret (faddr v ino bn));; brelse bp;; ret addr) s1.
Proof.
  intros Hroom. destruct iblk_range as (Hr & _).
  destruct (op_bread _ _ _ _ _ _ Hi (iblk ino) Hr) as (bp & s1 & E1 & Hi1 & F1 & D1); [apply not_elem_of_nil|simpl; lia|].
  exists bp, s1. split; [done|]. split; [done|]. split; [done|].
  assert (E0 : k_inodes s !!! ip = ino) by (by apply list_lookup_total_correct).
  assert (E2 : k_inodes s1 !!! ip = ino) by (by rewrite (opframe_inodes _ _ F1)).
  unfold bmap_entry, getinode. kstep. prw E0. prw (fk_dev _ _ _ Hok). rewrite (bind_done _ _ _ _ _ E1).
  unfold getbuf. kstep. prw D1. fold v. rewrite <- entry_addr.
  destruct (faddr v ino bn =? 0); [|done]. apply bind_same. kstep. prw E2. prw (fk_dev _ _ _ Hok). done.
Qed.

Lemma entry_have :
  (length tx < NBUF)%nat -> faddr v ino bn <> 0 ->
  exists s', bmap_entry ip (iblk ino) (bn - NDIRECT) s = Done (faddr v ino bn) s' /\
    inop s' me disk start tx [] /\ opframe s s'.
Proof.
  intros Hroom Hn. destruct (entry_read Hroom) as (bp & s1 & E1 & Hi1 & F1 & ->).
  rewrite (proj2 (Z.eqb_neq _ 0)) by done. kstep.
  destruct (op_brelse _ _ _ _ _ _ _ _ Hi1) as (s2 & E2 & Hi2 & F2). rewrite (bind_done _ _ _ _ _ E2).
  exists s2. split; [done|]. split; [done|]. by eapply opframe_trans.
Qed.
End Entry.

Section EntryNew.
Context (s : kstate) (me : nat) (disk : gmap Z (list Z)) (sb : superblock) (start : Z).
Context (tx : list (Z * list Z)) (ip : nat) (ino : inode).
Context (Hf : fsop s me disk sb start tx []) (Hip : k_inodes s !! ip = Some ino).
Let v := tx_get disk tx.
Context (Hok : file_ok sb v ino) (Hib : iblk ino <> 0).
Context (bn : Z) (Hbn : NDIRECT <= bn < MAXFILE) (H0 : faddr v ino bn = 0).

(** The transaction when block [b] is taken and entered in the indirect block. *)
Definition tx_enter (b : Z) : list (Z * list Z) :=
  tx_put (iblk ino) (put32 (4 * (bn - NDIRECT)) b (tx_get disk (tx_take sb disk tx b) (iblk ino))) (tx_take sb disk tx b).

Section View.
Context (b : Z) (Hb : datastart sb <= b < sb_size sb) (Hu : ~ used sb v b).
Let v' := tx_get disk (tx_enter b).

Lemma enter_view x :
  v' x = if decide (x = iblk ino) then put32 (4 * (bn - NDIRECT)) b (v (iblk ino)) else tx_get disk (tx_take sb disk tx b) x.
Proof.
  pose proof (op_nodup _ _ _ _ _ _ (fo_op _ _ _ _ _ _ _ Hf)) as Hnd. unfold v', tx_enter, tx_take.
  rewrite tx_get_put by (by apply tx_put_nodup, tx_put_nodup). case_decide; [|done]. f_equal.
  destruct (iblk_old disk sb tx ino Hok b Hu Hib) as (H1 & H2 & _).
  by apply (take_same _ _ _ _ _ _ Hf).
Qed.

Lemma enter_len : length (v (iblk ino)) = Z.to_nat BSIZE.
Proof.
  pose proof Hf as [_ _ _ Hly Hbo]. destruct (fk_own _ _ _ Hok _ (owns_iblk v ino Hib)) as [Hr _].
  pose proof (layout_bounds _ _ Hly). apply (bo_len _ _ Hbo). fslia.
Qed.

Lemma enter_faddr k : 0 <= k < MAXFILE -> faddr v' ino k = if decide (k = bn) then b else faddr v ino k.
Proof.
  intros Hk. pose proof Hf as [_ _ _ Hly _]. pose proof (layout_bounds _ _ Hly) as Hlb. pose proof enter_len as Hlen.
  unfold faddr. destruct (Z.ltb_spec k NDIRECT); [by rewrite decide_False by lia|].
  rewrite (proj2 (Z.eqb_neq _ 0)) by done. rewrite enter_view, decide_True by done. case_decide as Hd.
  - subst. rewrite get32_put32_same by (rewrite Hlen; filia). apply u32_small. fslia.
  - apply get32_put32_other; [filia|filia| |rewrite Hlen; filia]. filia.
Qed.

Lemma enter_ok :
  file_ok sb v' ino /\ grew sb v ino v' ino /\ (forall k, 0 <= k < MAXFILE -> fblock v' ino k = fblock v ino k) /\
  blocks_ok sb v' /\ size (freeset sb v') = (size (freeset sb v) - 1)%nat.
Proof.
  pose proof Hf as [Hi Hs Ho Hly Hbo]. pose proof (layout_bounds _ _ Hly) as Hlb.
  destruct (iblk_old disk sb tx ino Hok b Hu Hib) as (N1 & N2 & _).
  assert (Hsame : forall x, x <> iblk ino -> v' x = taken sb v b x).
  { intros x Hx. rewrite enter_view, decide_False by done. by apply (tx_take_view _ _ _ _ _ _ _ Hf). }
  assert (Hus : forall x, used sb v' x <-> used sb (taken sb v b) x) by (intros x; unfold used; by rewrite Hsame).
  assert (Hbm : bmblock sb <> b) by fslia.
  edestruct (grow_data_ok sb start Hly v v' ino ino b Hok Hb Hu) with (bn := bn) as (K1 & K2 & K3).
  - intros x Hx. rewrite Hus. apply (used_taken _ _ Hly _ Hbo); [fslia|done].
  - done.
  - apply (fk_len _ _ _ Hok).
  - intros x H1 H2 [?|H3]; [done|]. rewrite Hsame by done. unfold taken. by rewrite !vput_ne.
  - rewrite Hsame by done. unfold taken. by rewrite vput_eq.
  - done.
  - done.
  - exact enter_faddr.
  - split; [done|]. split; [done|]. split; [done|]. split.
    + eapply blocks_ok_view; [intros x; symmetry; apply enter_view|].
      apply (blocks_ok_view _ (vput (iblk ino) (put32 (4 * (bn - NDIRECT)) b (v (iblk ino))) (taken sb v b))).
      * intros x. unfold vput at 1. case_decide; [done|]. symmetry. apply (tx_take_view _ _ _ _ _ _ _ Hf).
      * apply blocks_ok_put; [by eapply blocks_ok_taken; [..|fslia]|done|].
        rewrite length_put32; [apply enter_len|filia|rewrite enter_len; filia].
    + rewrite <- (freeset_taken sb start v b Hly Hbo Hb Hu). unfold freeset. rewrite Hsame by done. done.
Qed.
End View.

Lemma entry_new :
  Z.of_nat (cost sb (keys tx) ino) + 1 < LOGSIZE - 1 -> (0 < size (freeset sb v))%nat ->
  exists b s', bmap_entry ip (iblk ino) (bn - NDIRECT) s = Done b s' /\ datastart sb <= b < sb_size sb /\
    ~ used sb v b /\ fsop s' me disk sb start (tx_enter b) [] /\ opframe s s'.
Proof.
  intros Hroom Hfr. pose proof Hf as [Hi Hs Ho Hly Hbo]. destruct (iblk_range disk sb start tx ino Hly Hok Hib) as (R1 & R2 & R3 & R4).
  pose proof (cost_len sb tx ino (op_nodup _ _ _ _ _ _ Hi)) as Hlen.
  destruct (entry_read s me disk sb start tx ip ino Hi Hip Hly Hok Hib bn Hbn) as (bp & s1 & E1 & Hi1 & F1 & ->); [fslia|].
  fold v. rewrite H0. cbn [Z.eqb].
  assert (Hf1 : fsop s1 me disk sb start tx [(bp, iblk ino)]) by (by eapply fsop_step).
  destruct (freeset_scan _ _ _ Hly Hfr) as (b & Eb). destruct (free_data _ _ _ _ _ _ _ Hf b Eb) as [Hb Hu].
  destruct (balloc_run _ _ _ _ _ _ _ Hf1) with (b := b) as (s2 & E2 & Hf2 & F2);
    [simpl; lia|cbn; rewrite list_elem_of_singleton; congruence|done
    |cbn; rewrite list_elem_of_singleton; intros ->; done|lia|].
  pose proof (cost_len sb _ ino (op_nodup _ _ _ _ _ _ (fo_op _ _ _ _ _ _ _ Hf2))) as L2.
  rewrite keys_take in L2.
  rewrite union_swap, cost_bm in L2. pose proof (cost_add sb (keys tx) b ino) as L3.
  destruct (op_write _ _ _ _ _ _ (fo_op _ _ _ _ _ _ _ Hf2) bp (iblk ino) (or_introl eq_refl)
    (put32 (4 * (bn - NDIRECT)) b) R2 R1 (fo_out _ _ _ _ _ _ _ Hf2)) as (s3 & s4 & E3 & E4 & Hi4 & F4);
    [lia|].
  destruct (op_brelse _ _ _ _ _ _ _ _ Hi4) as (s5 & E5 & Hi5 & F5).
  assert (F : opframe s s5) by (by eapply opframe_trans, opframe_trans, opframe_trans).
  exists b, s5. split.
  - erewrite bind_done; [by rewrite (bind_done _ _ _ _ _ E5)|].
    by rewrite (bind_done _ _ _ _ _ E2), (bind_done _ _ _ _ _ E3), (bind_done _ _ _ _ _ E4).
  - split; [done|]. split; [done|]. split; [|done]. eapply fsop_step; [exact Hf|exact Hi5|exact F|].
    by apply enter_ok.
Qed.
End EntryNew.

Lemma extended_trans s0 s1 s2 me disk sb start tx0 tx1 tx2 ip i0 i1 i2 :
  extended s0 me disk sb start tx0 ip i0 s1 tx1 i1 -> extended s1 me disk sb start tx1 ip i1 s2 tx2 i2 ->
  extended s0 me disk sb start tx0 ip i0 s2 tx2 i2.
Proof.
  intros [A1 A2 A3 A4 A5] [B1 B2 B3 B4 B5]. split; [done|by eapply ifr_trans|done|by eapply grew_trans|].
  intros k Hk. by rewrite B5, A5.
Qed.

(** The result of [bmap]: block [bn] has address [a]; one more log slot has
    been used at most, and one free block if it had none. *)
Record bmapped (s : kstate) (me : nat) (disk : gmap Z (list Z)) (sb : superblock) (start : Z)
    (tx : list (Z * list Z)) (ip : nat) (ino : inode) (bn a : Z) (s' : kstate) (tx' : list (Z * list Z))
    (ino' : inode) : Prop := {
  bm_ext : extended s me disk sb start tx ip ino s' tx' ino';
  bm_addr : faddr (tx_get disk tx') ino' bn = a;
  bm_nz : a <> 0;
  bm_cost : (cost sb (keys tx' ∪ {[a]}) ino' <= S (cost sb (keys tx) ino))%nat;
  bm_avail : avail sb (tx_get disk tx) ino - (if decide (faddr (tx_get disk tx) ino bn = 0) then 1 else 0) <=
    avail sb (tx_get disk tx') ino' }.

Lemma bmap_alloc s me disk sb start tx ip ino bn :
  fsop s me disk sb start tx [] -> k_inodes s !! ip = Some ino -> file_ok sb (tx_get disk tx) ino ->
  Z.of_nat (cost sb (keys tx) ino) + 1 < LOGSIZE - 1 -> 1 <= avail sb (tx_get disk tx) ino -> 0 <= bn < MAXFILE ->
  faddr (tx_get disk tx) ino bn = 0 ->
  exists a s' tx' ino', bmap ip bn s = Done a s' /\ bmapped s me disk sb start tx ip ino bn a s' tx' ino'.
Proof.
  intros Hf Hip Hok Hroom Hav Hbn Hz. destruct (decide (bn < NDIRECT)) as [Hd|Hd].
  - destruct (slot_direct s me disk sb start tx ip ino Hf Hip Hok Hroom Hav bn) as (a & s' & tx' & ino' & E & He & Ha & Hn & Hc & Hv);
      [lia|]. exists a, s', tx', ino'. split; [|split; try done; by rewrite decide_True]. unfold bmap. by rewrite (proj2 (Z.ltb_lt _ _)).
  - rewrite bmap_indirect by lia.
    destruct (slot_indirect s me disk sb start tx ip ino Hf Hip Hok Hroom Hav)
      as (a & s1 & tx1 & ino1 & E1 & He1 & Ha & Hn & Hc & Hv). rewrite (bind_done _ _ _ _ _ E1). subst a.
    pose proof He1 as [Hf1 F1 Hok1 _ _]. pose proof (ifr_at _ _ _ _ _ Hip F1) as Hip1.
    pose proof (fo_op _ _ _ _ _ _ _ Hf1) as Hi1. pose proof (fo_layout _ _ _ _ _ _ _ Hf1) as Hly.
    pose proof (cost_len sb tx1 ino1 (op_nodup _ _ _ _ _ _ Hi1)) as Hlen.
    destruct (decide (faddr (tx_get disk tx1) ino1 bn = 0)) as [H0|Hnz].
    + destruct (entry_new s1 me disk sb start tx1 ip ino1 Hf1 Hip1 Hok1 Hn bn ltac:(lia) H0) as (b & s2 & E2 & Hb & Hu & Hf2 & F2).
      { fslia. }
      { unfold avail in *. lia. }
      destruct (enter_ok s1 me disk sb start tx1 ino1 Hf1 Hok1 Hn bn ltac:(lia) H0 b Hb Hu) as (K1 & K2 & K3 & _ & K5).
      exists b, s2, (tx_enter disk sb tx1 ino1 bn b), ino1. split; [exact E2|]. split.
      * eapply extended_trans; [exact He1|]. split; [done|by apply opframe_ifr|done|done|done].
      * rewrite (enter_faddr s1 me disk sb start tx1 ino1 Hf1 Hok1 Hn bn ltac:(lia) b Hb Hu) by lia. by rewrite decide_True.
      * pose proof (layout_bounds _ _ Hly). fslia.
      * unfold tx_enter. rewrite keys_put, keys_take.
        rewrite union_swap, union_again, cost_ib, union_swap, cost_bm by done. etrans; [apply cost_add|]. lia.
      * rewrite decide_True by done. unfold avail in *. rewrite K5. lia.
    + destruct (entry_have s1 me disk sb start tx1 ip ino1 Hi1 Hip1 Hly Hok1 Hn bn ltac:(lia)) as (s2 & E2 & Hi2 & F2);
        [fslia|done|]. eexists _, s2, tx1, ino1. split; [exact E2|].
      assert (Hf2 : fsop s2 me disk sb start tx1 []) by (eapply fsop_step; [exact Hf1|exact Hi2|exact F2|apply Hf1]).
      split; [|done|done|etrans; [apply cost_add|]; lia|rewrite decide_True by done; unfold avail in *; lia].
      eapply extended_trans; [exact He1|]. split; [done|by apply opframe_ifr|done|apply fgrew_refl|done].
Qed.

(** A block the file has is found without any change. *)
Lemma bmap_mapped s me disk sb start tx ip ino bn :
  inop s me disk start tx [] -> k_inodes s !! ip = Some ino -> layout sb start -> file_ok sb (tx_get disk tx) ino ->
  (length tx < NBUF)%nat -> 0 <= bn < MAXFILE -> faddr (tx_get disk tx) ino bn <> 0 ->
  exists s', bmap ip bn s = Done (faddr (tx_get disk tx) ino bn) s' /\ inop s' me disk start tx [] /\ opframe s s'.
Proof.
  intros Hi Hip Hly Hok Hroom Hbn Hn. destruct (decide (bn < NDIRECT)) as [Hd|Hd].
  - exists s. unfold bmap. rewrite (proj2 (Z.ltb_lt _ _)) by done. unfold faddr in *. rewrite (proj2 (Z.ltb_lt bn _)) in * by done.
    split; [|split; [done|apply opframe_refl]]. by eapply addr_alloc_have.
  - assert (Hib : iblk ino <> 0).
    { intros H0. apply Hn. unfold faddr. by rewrite (proj2 (Z.ltb_ge _ _)), H0 by lia. }
    rewrite bmap_indirect by lia. erewrite bind_done; [|by eapply addr_alloc_have].
    eapply entry_have; [done|done|done|exact Hok|done|lia|done|done].
Qed.

Lemma bmap_run s me disk sb start tx ip ino bn :
  fsop s me disk sb start tx [] -> k_inodes s !! ip = Some ino -> file_ok sb (tx_get disk tx) ino ->
  Z.of_nat (cost sb (keys tx) ino) + 1 < LOGSIZE - 1 ->
  (faddr (tx_get disk tx) ino bn = 0 -> 1 <= avail sb (tx_get disk tx) ino) -> 0 <= bn < MAXFILE ->
  exists a s' tx' ino', bmap ip bn s = Done a s' /\ bmapped s me disk sb start tx ip ino bn a s' tx' ino'.
Proof.
  intros Hf Hip Hok Hroom Hav Hbn. destruct (decide (faddr (tx_get disk tx) ino bn = 0)) as [H0|Hn].
  { apply bmap_alloc; auto. }
  pose proof Hf as [Hi _ _ Hly Hbo]. pose proof (cost_len sb tx ino (op_nodup _ _ _ _ _ _ Hi)) as Hlen.
  destruct (bmap_mapped s me disk sb start tx ip ino bn Hi Hip Hly Hok) as (s' & E & Hi' & F); [fslia|done|done|].
  eexists _, s', tx, ino. split; [exact E|]. split; [|done|done|apply cost_add|rewrite decide_False by done; lia].
  split; [by eapply fsop_step|by apply opframe_ifr|done|apply fgrew_refl|done].
Qed.
