(* ===== verification/FsInode.v ===== *)
(** * Inodes on disk

    [struct dinode] as bytes of an inode block: what [iupdate] stores,
    [ilock] reads back, and the other inodes of the block stay as they are. *)

From stdpp Require Import gmap strings list.
From Stdlib Require Import ZArith Lia.
From S2P Require Import Prelude KState CString Spinlock Sched SleepLock Vm Bio Bcache Log LogProps LogTx FsTx Fs FsBlocks FsFile.
Open Scope Z_scope.
Import Spinlock Sched Vm Bio Log Fs.

(** ** Lists of bytes *)

Lemma splice_app off a b d :
  (off <= length d)%nat -> splice (off + length a) b (splice off a d) = splice off (a ++ b) d.
Proof.
  intros Hl. assert (Ht : length (take off d) = off) by (rewrite length_take; lia).
  unfold splice. rewrite (app_assoc (take off d)), take_app_length' by (rewrite length_app; lia).
  rewrite drop_app_ge by (rewrite length_app; lia). rewrite !length_app, Ht, drop_drop, <- !app_assoc.
  do 4 f_equal. lia.
Qed.

Lemma slice_slice off n o k (l : list Z) : (o + k <= n)%nat -> slice o k (slice off n l) = slice (off + o) k l.
Proof.
  intros H. unfold slice. rewrite skipn_firstn_comm, take_take, drop_drop. f_equal. lia.
Qed.

Lemma slice_app_mid (a b c : list Z) : slice (length a) (length b) (a ++ b ++ c) = b.
Proof. unfold slice. by rewrite drop_app_length, take_app_length. Qed.

Lemma slice_splice_other off n o src l :
  (off + n <= o \/ o + length src <= off)%nat -> (o + length src <= length l)%nat ->
  slice off n (splice o src l) = slice off n l.
Proof. intros [H|H] Hl; [by apply slice_splice_before|by apply slice_splice_after]. Qed.

(** ** [struct dinode] *)

Fixpoint enc32s (vs : list Z) : list Z :=
  match vs with [] => [] | v :: vs' => le_enc 4 v ++ enc32s vs' end.

Lemma length_enc32s vs : length (enc32s vs) = (4 * length vs)%nat.
Proof. induction vs as [|x vs IH]; [done|]. cbn [enc32s]. rewrite length_app, length_le_enc, IH. simpl. lia. Qed.

Lemma put32s_splice off vs a d :
  (off + length a + 4 * length vs <= length d)%nat ->
  put32s (Z.of_nat (off + length a)) vs (splice off a d) = splice off (a ++ enc32s vs) d.
Proof.
  revert a. induction vs as [|x vs IH]; intros a Hl; cbn [put32s enc32s length] in *; [by rewrite app_nil_r|].
  unfold put32 at 1. rewrite Nat2Z.id, splice_app by lia.
  replace (Z.of_nat (off + length a) + 4) with (Z.of_nat (off + length (a ++ le_enc 4 x)))
    by (rewrite length_app, length_le_enc; lia).
  rewrite IH by (rewrite length_app, length_le_enc; lia). by rewrite <- app_assoc.
Qed.

Lemma get32s_enc a vs c k :
  k = length vs -> get32s (a ++ enc32s vs ++ c) (Z.of_nat (length a)) k = u32 <$> vs.
Proof.
  intros ->. revert a. induction vs as [|x vs IH]; intros a; cbn [get32s enc32s length]; [done|].
  rewrite fmap_cons. f_equal.
  - unfold get32. rewrite Nat2Z.id, <- app_assoc.
    pose proof (slice_app_mid a (le_enc 4 x) (enc32s vs ++ c)) as E. rewrite length_le_enc in E. rewrite E. apply (le_dec_enc 4).
  - replace (Z.of_nat (length a) + 4) with (Z.of_nat (length (a ++ le_enc 4 x))) by (rewrite length_app, length_le_enc; lia).
    rewrite <- (IH (a ++ le_enc 4 x)). f_equal. by rewrite <- !app_assoc.
Qed.

Definition dinode_enc (di : dinode) : list Z :=
  le_enc 2 (u16 (di_type di)) ++ le_enc 2 (u16 (di_major di)) ++ le_enc 2 (u16 (di_minor di)) ++
  le_enc 2 (u16 (di_nlink di)) ++ le_enc 4 (di_size di) ++ enc32s (di_addrs di).

(** The fields are in the range of their C types. *)
Record dinode_ok (di : dinode) : Prop := {
  dk_type : - 2 ^ 15 <= di_type di < 2 ^ 15;
  dk_major : - 2 ^ 15 <= di_major di < 2 ^ 15;
  dk_minor : - 2 ^ 15 <= di_minor di < 2 ^ 15;
  dk_nlink : - 2 ^ 15 <= di_nlink di < 2 ^ 15;
  dk_size : 0 <= di_size di < 2 ^ 32;
  dk_len : length (di_addrs di) = 13%nat;
  dk_addrs : Forall (fun a => 0 <= a < 2 ^ 32) (di_addrs di) }.

Lemma length_dinode_enc di : length (di_addrs di) = 13%nat -> length (dinode_enc di) = 64%nat.
Proof. intros Hl. unfold dinode_enc. rewrite !length_app, !length_le_enc, length_enc32s, Hl. done. Qed.

Lemma dinode_put_splice off di d :
  length (di_addrs di) = 13%nat -> (off + 64 <= length d)%nat ->
  dinode_put (Z.of_nat off) di d = splice off (dinode_enc di) d.
Proof.
  intros Hl Hd. unfold dinode_put, dinode_enc, put16. rewrite Nat2Z.id.
  set (t := le_enc 2 (u16 (di_type di))). set (mj := le_enc 2 (u16 (di_major di))).
  set (mn := le_enc 2 (u16 (di_minor di))). set (nl := le_enc 2 (u16 (di_nlink di))).
  assert (Lt : length t = 2%nat) by apply length_le_enc. assert (Lj : length mj = 2%nat) by apply length_le_enc.
  assert (Ln : length mn = 2%nat) by apply length_le_enc. assert (Ll : length nl = 2%nat) by apply length_le_enc.
  replace (Z.to_nat (Z.of_nat off + 2)) with (off + length t)%nat by lia.
  rewrite splice_app by lia.
  replace (Z.to_nat (Z.of_nat off + 4)) with (off + length (t ++ mj))%nat by (rewrite length_app; lia).
  rewrite splice_app by lia.
  replace (Z.to_nat (Z.of_nat off + 6)) with (off + length ((t ++ mj) ++ mn))%nat by (rewrite !length_app; lia).
  rewrite splice_app by lia.
  unfold put32. replace (Z.to_nat (Z.of_nat off + 8)) with (off + length (((t ++ mj) ++ mn) ++ nl))%nat by (rewrite !length_app; lia).
  rewrite splice_app by lia.
  replace (Z.of_nat off + 12) with (Z.of_nat (off + length ((((t ++ mj) ++ mn) ++ nl) ++ le_enc 4 (di_size di))))
    by (rewrite !length_app, length_le_enc; lia).
  rewrite put32s_splice by (rewrite !length_app, length_le_enc, Hl; lia). by rewrite <- !app_assoc.
Qed.

Lemma get32s_slice d off n o k :
  (o + 4 * k <= n)%nat -> get32s (slice off n d) (Z.of_nat o) k = get32s d (Z.of_nat (off + o)) k.
Proof.
  revert o. induction k as [|k IH]; intros o Hl; cbn [get32s]; [done|]. f_equal.
  - unfold get32. rewrite !Nat2Z.id, slice_slice by lia. done.
  - replace (Z.of_nat o + 4) with (Z.of_nat (o + 4)) by lia. rewrite IH by lia. f_equal. lia.
Qed.

(** Only the 64 bytes of the inode matter. *)
Lemma dinode_get_slice d off : dinode_get d (Z.of_nat off) = dinode_get (slice off 64 d) 0.
Proof.
  assert (H16 : forall o, (o + 2 <= 64)%nat -> get16 d (Z.of_nat off + Z.of_nat o) = get16 (slice off 64 d) (0 + Z.of_nat o)).
  { intros o Ho. unfold get16. rewrite slice_slice by lia. f_equal. f_equal. lia. }
  unfold dinode_get. f_equal.
  - f_equal. rewrite <- (Z.add_0_r (Z.of_nat off)). apply (H16 0%nat). lia.
  - f_equal. apply (H16 2%nat). lia.
  - f_equal. apply (H16 4%nat). lia.
  - f_equal. apply (H16 6%nat). lia.
  - unfold get32. rewrite slice_slice by lia. do 2 f_equal. lia.
  - change (0 + 12) with (Z.of_nat 12). rewrite get32s_slice by lia. f_equal. lia.
Qed.

Lemma s16_u16 x : - 2 ^ 15 <= x < 2 ^ 15 -> s16 (u16 (u16 x)) = x.
Proof.
  intros Hx. unfold s16, u16, swrap. rewrite Z.mod_mod by done.
  change (2 ^ (16 - 1)) with 32768. change (2 ^ 16) with 65536. change (2 ^ 15) with 32768 in Hx. dlia.
Qed.

Lemma dinode_dec_enc di c : dinode_ok di -> dinode_get (dinode_enc di ++ c) 0 = di.
Proof.
  intros [K1 K2 K3 K4 K5 K6 K7]. unfold dinode_enc. rewrite <- !app_assoc. destruct di as [t mj mn nl sz ad].
  cbn [di_type di_major di_minor di_nlink di_size di_addrs] in *.
  assert (Hg : forall a x r, get16 (a ++ le_enc 2 x ++ r) (Z.of_nat (length a)) = u16 x).
  { intros a x r. unfold get16. rewrite Nat2Z.id. pose proof (slice_app_mid a (le_enc 2 x) r) as E.
    rewrite length_le_enc in E. rewrite E. apply (le_dec_enc 2). }
  unfold dinode_get. set (T := le_enc 2 (u16 t)) in *. set (J := le_enc 2 (u16 mj)) in *.
  set (N := le_enc 2 (u16 mn)) in *. set (L := le_enc 2 (u16 nl)) in *. set (S := le_enc 4 sz) in *.
  f_equal.
  - transitivity (s16 (u16 (u16 t))); [f_equal|by apply s16_u16]. apply (Hg []).
  - transitivity (s16 (u16 (u16 mj))); [f_equal|by apply s16_u16]. apply (Hg T).
  - transitivity (s16 (u16 (u16 mn))); [f_equal|by apply s16_u16]. rewrite (app_assoc T). apply (Hg (T ++ J)).
  - transitivity (s16 (u16 (u16 nl))); [f_equal|by apply s16_u16]. rewrite (app_assoc T), (app_assoc (T ++ J)). apply (Hg ((T ++ J) ++ N)).
  - rewrite (app_assoc T), (app_assoc (T ++ J)), (app_assoc ((T ++ J) ++ N)). unfold get32.
    pose proof (slice_app_mid (((T ++ J) ++ N) ++ L) S (enc32s ad ++ c)) as E. change (length S) with 4%nat in E.
    change (Z.to_nat (0 + 8)) with (length (((T ++ J) ++ N) ++ L)). rewrite E. unfold S. rewrite (le_dec_enc 4).
    by apply Z.mod_small.
  - rewrite (app_assoc T), (app_assoc (T ++ J)), (app_assoc ((T ++ J) ++ N)), (app_assoc (((T ++ J) ++ N) ++ L)).
    change (0 + 12) with (Z.of_nat (length ((((T ++ J) ++ N) ++ L) ++ S))). rewrite get32s_enc by done.
    rewrite <- (list_fmap_id ad) at 2. apply list_fmap_ext. intros i x Hx. rewrite Forall_lookup in K7.
    by apply u32_small, (K7 i).
Qed.

Lemma dinode_get_put_same off di d :
  dinode_ok di -> (off + 64 <= length d)%nat -> dinode_get (dinode_put (Z.of_nat off) di d) (Z.of_nat off) = di.
Proof.
  intros Hd Hl. pose proof (length_dinode_enc di (dk_len _ Hd)) as Le.
  rewrite dinode_put_splice, dinode_get_slice by (done || apply (dk_len _ Hd)).
  pose proof (slice_splice_same off (dinode_enc di) d) as E. rewrite Le in E. rewrite E by lia.
  rewrite <- (app_nil_r (dinode_enc di)). by apply dinode_dec_enc.
Qed.

Lemma dinode_get_put_other off off' di d :
  length (di_addrs di) = 13%nat -> (off + 64 <= length d)%nat -> (off + 64 <= off' \/ off' + 64 <= off)%nat ->
  dinode_get (dinode_put (Z.of_nat off) di d) (Z.of_nat off') = dinode_get d (Z.of_nat off').
Proof.
  intros Hd Hl Ho. pose proof (length_dinode_enc di Hd) as Le.
  rewrite dinode_put_splice, !dinode_get_slice by done. rewrite slice_splice_other by lia. done.
Qed.

(** ** [iupdate] *)

Definition dinode_of (i : inode) : dinode :=
  mkdinode (i_type i) (i_major i) (i_minor i) (i_nlink i) (i_size i) (i_addrs i).

(** The inode block is neither in the log nor the bitmap nor data. *)
Lemma iblock_ok sb start inum :
  layout sb start -> 0 <= inum < sb_ninodes sb ->
  sb_inodestart sb <= IBLOCK inum sb < bmblock sb /\ ~ in_log start (IBLOCK inum sb).
Proof.
  intros Hly Hi. pose proof (layout_bounds _ _ Hly) as Hb. pose proof Hly as [L1 L2 L3 L4 L5 L6].
  pose proof (Z.div_pos inum IPB ltac:(lia) ltac:(done)). pose proof (Z.div_le_mono inum (sb_ninodes sb) IPB ltac:(done) ltac:(lia)).
  unfold IBLOCK. rewrite u32_small by fslia. fslia.
Qed.

Lemma ioff_range inum : 0 <= inum -> exists o : nat, ioff inum = Z.of_nat o /\ (o + 64 <= Z.to_nat BSIZE)%nat.
Proof.
  intros Hi. exists (Z.to_nat (ioff inum)). pose proof (Z.mod_pos_bound inum IPB ltac:(done)) as Hm.
  unfold ioff, sizeof_dinode. unfold IPB, BSIZE, sizeof_dinode in *. change (1024 / 64) with 16 in *. lia.
Qed.

(** What [iupdate] adds to a transaction. *)
Definition tx_inode (sb : superblock) (disk : gmap Z (list Z)) (tx : list (Z * list Z)) (i : inode) : list (Z * list Z) :=
  tx_put (IBLOCK (i_inum i) sb)
    (dinode_put (ioff (i_inum i)) (dinode_of i) (tx_get disk tx (IBLOCK (i_inum i) sb))) tx.

Lemma iupdate_run s me disk sb start tx ip ino :
  fsop s me disk sb start tx [] -> k_inodes s !! ip = Some ino -> i_dev ino = ROOTDEV ->
  length (i_addrs ino) = 13%nat -> 0 <= i_inum ino < sb_ninodes sb -> Z.of_nat (length tx) < LOGSIZE - 1 ->
  exists s', iupdate ip s = Done tt s' /\ fsop s' me disk sb start (tx_inode sb disk tx ino) [] /\ opframe s s'.
Proof.
  intros Hf Hip Hdev Hlen Hin Hroom. pose proof Hf as [Hi Hs Ho Hly Hbo].
  destruct (iblock_ok _ _ _ Hly Hin) as [Hb Hnl]. pose proof (layout_bounds _ _ Hly) as Hlb.
  assert (E0 : k_inodes s !!! ip = ino) by (by apply list_lookup_total_correct).
  destruct (bwrite_run s me disk sb start tx [] Hf ltac:(simpl; lia) (IBLOCK (i_inum ino) sb)
    (dinode_put (ioff (i_inum ino)) (dinode_of ino))) as (bp & s1 & s2 & s3 & s4 & E1 & _ & F1 & E2 & E3 & E4 & Hi4 & F4);
    [fslia|done|apply not_elem_of_nil|done|].
  exists s4. split.
  - unfold iupdate, getinode, getsb. kstep. prw E0. prw Hs. prw Hdev. rewrite (bind_done _ _ _ _ _ E1). kstep.
    rewrite (opframe_inodes _ _ F1). prw E0. rewrite (bind_done _ _ _ _ _ E2), (bind_done _ _ _ _ _ E3). exact E4.
  - split; [|done]. eapply fsop_step; [exact Hf|exact Hi4|exact F4|].
    eapply blocks_ok_view; [intros x; symmetry; apply tx_view_put, (op_nodup _ _ _ _ _ _ Hi)|].
    pose proof (bo_len _ _ Hbo (IBLOCK (i_inum ino) sb) ltac:(fslia)) as Hbl.
    apply blocks_ok_put; [done|fslia|]. destruct (ioff_range (i_inum ino)) as (o & -> & Hor); [lia|].
    rewrite dinode_put_splice by (done || lia). rewrite length_splice; [done|]. rewrite length_dinode_enc by done. lia.
Qed.

(** Inode [i] written to its block: its disk copy, and those of the other inodes. *)
Lemma dinode_view sb start v v' i di j :
  layout sb start -> blocks_ok sb v -> dinode_ok di -> 0 <= i < sb_ninodes sb -> 0 <= j < sb_ninodes sb ->
  same_view v' (vput (IBLOCK i sb) (dinode_put (ioff i) di (v (IBLOCK i sb))) v) ->
  dinode_get (v' (IBLOCK j sb)) (ioff j) = if decide (j = i) then di else dinode_get (v (IBLOCK j sb)) (ioff j).
Proof.
  intros Hly Hbo Hdk Hi Hj Hv. rewrite Hv. unfold vput.
  destruct (iblock_ok _ _ _ Hly Hi) as [Hb _]. pose proof (layout_bounds _ _ Hly) as Hlb.
  pose proof (bo_len _ _ Hbo (IBLOCK i sb) ltac:(fslia)) as Hbl.
  destruct (ioff_range i) as (o & Eo & Ho); [lia|]. destruct (ioff_range j) as (o' & Eo' & Ho'); [lia|].
  destruct (decide (j = i)) as [->|Hne].
  - rewrite decide_True by done. rewrite Eo. apply dinode_get_put_same; [done|lia].
  - case_decide as Hd; [|done]. rewrite Eo, Eo', Hd.
    apply dinode_get_put_other; [apply (dk_len _ Hdk)|lia|].
    unfold IBLOCK in Hd. pose proof Hly as [L1 L2 L3 L4 L5 L6].
    assert (j / IPB = i / IPB).
    { rewrite !u32_small in Hd; [lia|..].
      all: pose proof (Z.div_pos j IPB ltac:(lia) ltac:(done)); pose proof (Z.div_pos i IPB ltac:(lia) ltac:(done));
        pose proof (Z.div_le_mono j (sb_ninodes sb) IPB ltac:(done) ltac:(lia));
        pose proof (Z.div_le_mono i (sb_ninodes sb) IPB ltac:(done) ltac:(lia)); fslia. }
    unfold ioff, IPB, sizeof_dinode in *. change (BSIZE / 64) with 16 in *. dlia.
Qed.

(** The inodes on disk after [iupdate]. *)
Lemma tx_inode_get sb start disk tx ino j :
  layout sb start -> blocks_ok sb (tx_get disk tx) -> NoDup tx.*1 -> dinode_ok (dinode_of ino) ->
  0 <= i_inum ino < sb_ninodes sb -> 0 <= j < sb_ninodes sb ->
  dinode_get (tx_get disk (tx_inode sb disk tx ino) (IBLOCK j sb)) (ioff j) =
  if decide (j = i_inum ino) then dinode_of ino else dinode_get (tx_get disk tx (IBLOCK j sb)) (ioff j).
Proof. intros Hly Hbo Hnd Hdk Hi Hj. apply (dinode_view _ start); try done. by apply tx_view_put. Qed.
