(* ===== verification/FsWrite.v ===== *)
(** * Writing a file

    [writei] replaces a run of bytes of a file, allocating blocks as the file
    grows, and brings the inode's disk copy up to date. *)

From stdpp Require Import gmap strings list.
From Stdlib Require Import ZArith Lia.
From S2P Require Import Prelude KState CString Spinlock Sched SleepLock Vm Bio Bcache Log LogProps LogTx FsTx Fs FsBlocks FsFile FsInode.
Open Scope Z_scope.
Import Spinlock Sched Vm Bio Log Fs.

(** ** Where the bytes come from *)

(** Nothing but blocks, the log, inodes, open files and scheduling states has
    changed. *)
Definition fsframe (s s' : kstate) : Prop :=
  exists ins fs, lframe (set_k_files (fun _ => fs) (set_k_inodes (fun _ => ins) s)) s'.

Lemma lframe_fsframe s s' : lframe s s' -> fsframe s s'.
Proof. intros F. exists (k_inodes s), (k_files s). exact F. Qed.

Lemma opframe_fsframe s s' : opframe s s' -> fsframe s s'.
Proof. intros F. by apply lframe_fsframe, opframe_lframe. Qed.

Lemma ifr_fsframe ip ino s s' : ifr ip ino s s' -> fsframe s s'.
Proof. intros F. exists (<[ip := ino]> (k_inodes s)), (k_files s). exact (opframe_lframe _ _ F). Qed.

Lemma lframe_set_tables s s' x y :
  lframe s s' -> lframe (set_k_files (fun _ => y) (set_k_inodes (fun _ => x) s))
                        (set_k_files (fun _ => y) (set_k_inodes (fun _ => x) s')).
Proof. intros (l & b & d & t & p & -> & Hl & Hp). exists l. by exists b, d, t, p. Qed.

Lemma fsframe_trans s0 s1 s2 : fsframe s0 s1 -> fsframe s1 s2 -> fsframe s0 s2.
Proof.
  intros (i1 & f1 & F1) (i2 & f2 & F2). exists i2, f2. eapply lframe_trans, F2. exact (lframe_set_tables _ _ i2 f2 F1).
Qed.

Lemma fsframe_files s g : fsframe s (set_k_files g s).
Proof. exists (k_inodes s), (g (k_files s)). exists (k_log s). apply bframe_refl. Qed.

Lemma fsframe_inodes s g : fsframe s (set_k_inodes g s).
Proof. exists (g (k_inodes s)), (k_files s). exists (k_log s). apply bframe_refl. Qed.

(** In a state with [P], [either_copyin] reads [data] at [src]. *)
Class Source (user : bool) (src : Z) (data : list Z) (P : kstate -> Prop) : Prop := {
  source_get : forall s o m, P s -> 0 <= o -> 0 < m -> o + m <= Z.of_nat (length data) ->
    either_copyin user (u64 (src + o)) m s = Done (0, slice (Z.to_nat o) (Z.to_nat m) data) s;
  source_frame : forall s s', P s -> fsframe s s' -> P s' }.

(** A part of the bytes. *)
Lemma source_sub user src data P i m :
  Source user src data P -> 0 <= i -> 0 <= m -> i + m <= Z.of_nat (length data) ->
  Source user (u64 (src + i)) (slice (Z.to_nat i) (Z.to_nat m) data) P.
Proof.
  intros [Hg Hf] Hi Hm Hl. split; [|exact Hf]. intros s o k HP Ho Hk Hok. rewrite length_slice in Hok by lia.
  replace (u64 (u64 (src + i) + o)) with (u64 (src + (i + o))) by (unfold u64; rewrite Z.add_mod_idemp_l by done; f_equal; lia).
  rewrite Hg by (done || lia). do 2 f_equal. unfold slice. rewrite skipn_firstn_comm, take_take, drop_drop. f_equal; [lia|]. f_equal. lia.
Qed.

(** ** One block *)

(** The number of blocks that [r] bytes from [off] on touch. *)
Definition nblk (off r : Z) : Z := if r <=? 0 then 0 else (off mod BSIZE + r + BSIZE - 1) / BSIZE.

Lemma nblk_step off r m :
  0 <= off -> 0 < r -> m = Z.min r (BSIZE - off mod BSIZE) -> nblk off r = 1 + nblk (off + m) (r - m) /\ 0 < m.
Proof.
  intros Ho Hr Hm. unfold nblk. pose proof (Z.mod_pos_bound off BSIZE ltac:(done)) as Hb.
  rewrite (proj2 (Z.leb_gt r 0)) by lia. destruct (Z.leb_spec (r - m) 0) as [Hle|Hgt].
  - split; [|lia]. assert (m = r) by lia.
    replace (off mod BSIZE + r + BSIZE - 1) with (off mod BSIZE + r - 1 + 1 * BSIZE) by lia.
    rewrite Z.div_add, Z.div_small by (done || lia). lia.
  - split; [|lia]. assert (m = BSIZE - off mod BSIZE) as -> by lia.
    assert ((off + (BSIZE - off mod BSIZE)) mod BSIZE = 0) as ->.
    { pose proof (Z.div_mod off BSIZE ltac:(done)). replace (off + (BSIZE - off mod BSIZE)) with ((off / BSIZE + 1) * BSIZE) by lia.
      by apply Z.mod_mul. }
    replace (off mod BSIZE + r + BSIZE - 1) with (0 + (r - (BSIZE - off mod BSIZE)) + BSIZE - 1 + 1 * BSIZE) by lia.
    rewrite Z.div_add by done. lia.
Qed.

Lemma nblk_pos off r : 0 <= nblk off r.
Proof.
  unfold nblk. case_match; [done|]. apply Z.div_pos; [|done]. pose proof (Z.mod_pos_bound off BSIZE ltac:(done)). lia.
Qed.

Lemma nblk_fuel off r : 0 <= off -> nblk off r < Z.of_nat (blk_fuel r).
Proof.
  intros Ho. unfold nblk, blk_fuel. pose proof (Z.mod_pos_bound off BSIZE ltac:(done)).
  case_match; [lia|]. unfold BSIZE in *. dlia.
Qed.

(** The blocks of [r] bytes from [off] on that the file does not have yet. *)
Definition missing (v : Z -> list Z) (ino : inode) (off r : Z) : gset Z :=
  filter (fun k => faddr v ino k = 0) (set_map (fun i => i / BSIZE) (list_to_set (seqZ off r) : gset Z)).

Lemma elem_of_missing v ino off r k :
  k ∈ missing v ino off r <-> faddr v ino k = 0 /\ exists i, off <= i < off + r /\ k = i / BSIZE.
Proof.
  unfold missing. rewrite elem_of_filter, elem_of_map. setoid_rewrite elem_of_list_to_set. setoid_rewrite elem_of_seqZ.
  naive_solver.
Qed.

Lemma missing_le v ino off a r : a <= r -> (size (missing v ino off a) <= size (missing v ino off r))%nat.
Proof.
  intros Ha. apply subseteq_size. intros k. rewrite !elem_of_missing. intros (H0 & i & Hi & ->). split; [done|].
  exists i. split; [lia|done].
Qed.

(** A run of bytes inside one block. *)
Lemma missing_one v ino off r :
  0 <= off -> 0 < r -> off mod BSIZE + r <= BSIZE ->
  size (missing v ino off r) = if decide (faddr v ino (off / BSIZE) = 0) then 1%nat else 0%nat.
Proof.
  intros Ho Hr Hb. pose proof (Z.div_mod off BSIZE ltac:(done)). pose proof (Z.mod_pos_bound off BSIZE ltac:(done)).
  assert (Hi : forall i, off <= i < off + r -> i / BSIZE = off / BSIZE).
  { intros i Hi. symmetry. apply (Z.div_unique_pos i BSIZE _ (i - BSIZE * (off / BSIZE))); lia. }
  case_decide as Hd.
  - rewrite <- (size_singleton (C := gset Z) (off / BSIZE)). f_equal. apply set_eq. intros k.
    rewrite elem_of_missing, elem_of_singleton. split; [intros (_ & i & Hr' & ->); by apply Hi|].
    intros ->. split; [done|]. exists off. split; [lia|done].
  - apply size_empty_iff. intros k. rewrite elem_of_missing. split; [|set_solver].
    intros (H0' & i & Hr' & ->). rewrite Hi in H0' by done. done.
Qed.

(** What the first [a] bytes needed is not needed again. *)
Lemma missing_split v ino v1 ino1 off a b :
  0 <= off -> 0 <= a -> 0 <= b -> off + a + b <= MAXFILE * BSIZE ->
  (forall k, 0 <= k < MAXFILE -> faddr v ino k <> 0 -> faddr v1 ino1 k = faddr v ino k) ->
  (forall i, off <= i < off + a -> faddr v1 ino1 (i / BSIZE) <> 0) ->
  (size (missing v ino off a) + size (missing v1 ino1 (off + a) b) <= size (missing v ino off (a + b)))%nat.
Proof.
  intros Ho Ha Hb Hmax G Hm. rewrite <- size_union.
  - apply subseteq_size. intros k. rewrite elem_of_union, !elem_of_missing. intros [(H0 & i & Hi & ->)|(H0 & i & Hi & ->)].
    + split; [done|]. exists i. split; [lia|done].
    + split; [|exists i; split; [lia|done]]. apply dec_stable. intros Hn. apply Hn. rewrite <- H0. symmetry.
      apply G; [|done]. split; [apply Z.div_pos; [lia|done]|]. apply Z.div_lt_upper_bound; [done|lia].
  - intros k. rewrite !elem_of_missing. intros (_ & i & Hi & ->) (H1 & _). by apply (Hm i Hi).
Qed.

(** Replacing the contents of a file's block. *)
Section PutBlock.
Context (sb : superblock) (start : Z) (Hly : layout sb start) (v v' : Z -> list Z) (ino : inode) (Hok : file_ok sb v ino).
Context (k : Z) (Hk : 0 <= k < MAXFILE) (Hn : faddr v ino k <> 0) (d : list Z).
Context (Hv : same_view v' (vput (faddr v ino k) d v)).

Let a := faddr v ino k.

Lemma put_block_facts : datastart sb <= a < sb_size sb /\ a <> bmblock sb /\ (iblk ino <> 0 -> a <> iblk ino).
Proof.
  destruct (fk_own _ _ _ Hok a) as [Hr _]; [by apply owns_faddr|]. split; [done|]. split; [fslia|].
  intros Hi. by apply (fk_ind _ _ _ Hok).
Qed.

Lemma put_block_faddr j : faddr v' ino j = faddr v ino j.
Proof.
  destruct put_block_facts as (_ & _ & Hi). unfold faddr. case_match; [done|].
  destruct (Z.eqb_spec (iblk ino) 0) as [|Hne]; [done|]. rewrite Hv, vput_ne; [done|]. by apply not_eq_sym, Hi.
Qed.

Lemma put_block_used x : used sb v' x <-> used sb v x.
Proof. destruct put_block_facts as (_ & Hb & _). unfold used. rewrite Hv, vput_ne by (by apply not_eq_sym). done. Qed.

Lemma put_block_owns x : owns v' ino x <-> owns v ino x.
Proof. unfold owns. by setoid_rewrite put_block_faddr. Qed.

Lemma put_block_fblock j : 0 <= j < MAXFILE -> fblock v' ino j = if decide (j = k) then d else fblock v ino j.
Proof.
  intros Hj. unfold fblock. rewrite put_block_faddr. case_decide as Hd.
  - subst. rewrite (proj2 (Z.eqb_neq _ 0)) by done. by rewrite Hv, vput_eq.
  - destruct (Z.eqb_spec (faddr v ino j) 0) as [|Hnz]; [done|]. rewrite Hv, vput_ne; [done|].
    intros E. by apply Hd, (fk_inj _ _ _ Hok).
Qed.

Lemma put_block_ok : file_ok sb v' ino /\ grew sb v ino v' ino /\ freeset sb v' = freeset sb v.
Proof.
  pose proof Hok as [K1 K2 K3 K4 K5 K6 K7]. destruct put_block_facts as (Ha & Hb & Hi). split; [split|split; [split|]]; try done.
  - intros x Hx%put_block_owns. destruct (K3 x Hx). split; [done|by apply put_block_used].
  - intros i j Hi' Hj'. rewrite !put_block_faddr. auto.
  - intros j Hj Hi'. rewrite put_block_faddr. auto.
  - intros j Hj Hs. rewrite put_block_faddr. auto.
  - intros x _. apply put_block_used.
  - intros j _ _. apply put_block_faddr.
  - intros x Hx%put_block_owns. by left.
  - intros x _ Hu Hbm Ho. rewrite Hv, vput_ne; [done|]. intros ->. by apply Ho, owns_faddr.
  - unfold freeset. rewrite Hv, vput_ne by (by apply not_eq_sym). done.
Qed.
End PutBlock.

(** ** Runs of bytes *)

(** The bytes [d] have been written to inode [ip] from offset [off] on. *)
Record wrote (s : kstate) (me : nat) (disk : gmap Z (list Z)) (sb : superblock) (start : Z)
    (tx : list (Z * list Z)) (ip : nat) (ino : inode) (off : Z) (d : list Z)
    (s' : kstate) (tx' : list (Z * list Z)) (ino' : inode) : Prop := {
  wr_op : fsop s' me disk sb start tx' [];
  wr_frame : ifr ip ino' s s';
  wr_ok : file_ok sb (tx_get disk tx') ino';
  wr_grew : grew sb (tx_get disk tx) ino (tx_get disk tx') ino';
  wr_byte : forall i, 0 <= i < MAXFILE * BSIZE -> fbyte (tx_get disk tx') ino' i =
    if decide (off <= i < off + Z.of_nat (length d)) then d !!! Z.to_nat (i - off)
    else fbyte (tx_get disk tx) ino i;
  wr_map : forall i, off <= i < off + Z.of_nat (length d) -> faddr (tx_get disk tx') ino' (i / BSIZE) <> 0;
  wr_cost : Z.of_nat (cost sb (keys tx') ino') <= Z.of_nat (cost sb (keys tx) ino) + nblk off (Z.of_nat (length d));
  wr_avail : avail sb (tx_get disk tx) ino - Z.of_nat (size (missing (tx_get disk tx) ino off (Z.of_nat (length d)))) <=
    avail sb (tx_get disk tx') ino' }.

Lemma wrote_nil s me disk sb start tx ip ino off :
  fsop s me disk sb start tx [] -> k_inodes s !! ip = Some ino -> file_ok sb (tx_get disk tx) ino ->
  wrote s me disk sb start tx ip ino off [] s tx ino.
Proof.
  intros Hf Hip Hok. change (nblk off (Z.of_nat (length []))) with 0.
  split; [done|by apply opframe_ifr, opframe_refl|done|apply fgrew_refl| | | |]; cbn [length];
    [|intros; lia|change (nblk off (Z.of_nat 0)) with 0; lia|lia].
  intros i Hi. by rewrite decide_False by lia.
Qed.

Lemma wrote_app s0 s1 s2 me disk sb start tx0 tx1 tx2 ip i0 i1 i2 off d1 d2 :
  0 <= off -> off + Z.of_nat (length (d1 ++ d2)) <= MAXFILE * BSIZE ->
  nblk off (Z.of_nat (length (d1 ++ d2))) =
    nblk off (Z.of_nat (length d1)) + nblk (off + Z.of_nat (length d1)) (Z.of_nat (length d2)) ->
  wrote s0 me disk sb start tx0 ip i0 off d1 s1 tx1 i1 ->
  wrote s1 me disk sb start tx1 ip i1 (off + Z.of_nat (length d1)) d2 s2 tx2 i2 ->
  wrote s0 me disk sb start tx0 ip i0 off (d1 ++ d2) s2 tx2 i2.
Proof.
  intros Ho Hmax Hn [A1 A2 A3 A4 A5 A6 A7 A8] [B1 B2 B3 B4 B5 B6 B7 B8].
  split; [done|by eapply ifr_trans|done|by eapply grew_trans| | |lia|]; rewrite length_app in *.
  - intros i Hi. rewrite B5 by done. case_decide as H1.
    + rewrite decide_True by lia. rewrite lookup_total_app_r by lia. f_equal. lia.
    + rewrite A5 by done. case_decide as H2; [|by rewrite decide_False by lia].
      rewrite decide_True by lia. by rewrite lookup_total_app_l by lia.
  - intros i Hi. destruct (decide (i < off + Z.of_nat (length d1))); [|apply B6; lia].
    assert (0 <= i / BSIZE < MAXFILE) by (unfold BSIZE in *; filia || dlia).
    rewrite (gr_addr _ _ _ _ _ B4); [apply A6; lia|done|apply A6; lia].
  - rewrite Nat2Z.inj_add in *. pose proof (missing_split _ _ _ _ off (Z.of_nat (length d1)) (Z.of_nat (length d2))
      Ho ltac:(lia) ltac:(lia) ltac:(lia) (gr_addr _ _ _ _ _ A4) A6). lia.
Qed.

Lemma block_of i : 0 <= i < MAXFILE * BSIZE -> 0 <= i / BSIZE < MAXFILE.
Proof. intros Hi. split; [apply Z.div_pos; [lia|done]|]. apply Z.div_lt_upper_bound; [done|]. lia. Qed.

(** Bytes replaced inside one block. *)
Lemma put_bytes sb start v v' ino off d :
  layout sb start -> file_ok sb v ino -> blocks_ok sb v -> 0 <= off < MAXFILE * BSIZE ->
  off mod BSIZE + Z.of_nat (length d) <= BSIZE -> faddr v ino (off / BSIZE) <> 0 ->
  same_view v' (vput (faddr v ino (off / BSIZE)) (splice (Z.to_nat (off mod BSIZE)) d (v (faddr v ino (off / BSIZE)))) v) ->
  forall i, 0 <= i < MAXFILE * BSIZE -> fbyte v' ino i =
    if decide (off <= i < off + Z.of_nat (length d)) then d !!! Z.to_nat (i - off) else fbyte v ino i.
Proof.
  intros Hly Hok Hbo Ho Hlen Hn Hv i Hi. pose proof (block_of off Ho) as Hk. pose proof (block_of i Hi) as Hj.
  assert (Hal : length (v (faddr v ino (off / BSIZE))) = Z.to_nat BSIZE).
  { destruct (fk_own _ _ _ Hok _ (owns_faddr _ _ _ Hk Hn)) as [Hr _]. pose proof (layout_bounds _ _ Hly).
    apply (bo_len _ _ Hbo). fslia. }
  pose proof (Z.div_mod off BSIZE ltac:(done)) as D1. pose proof (Z.div_mod i BSIZE ltac:(done)) as D2.
  pose proof (Z.mod_pos_bound off BSIZE ltac:(done)) as M1. pose proof (Z.mod_pos_bound i BSIZE ltac:(done)) as M2.
  unfold fbyte. rewrite (put_block_fblock sb v v' ino Hok (off / BSIZE) Hk Hn _ Hv) by done.
  case_decide as Hd.
  - unfold fblock. rewrite Hd, (proj2 (Z.eqb_neq _ 0)) by done. rewrite Hd in D2.
    rewrite !list_lookup_total_alt. case_decide as Hr.
    + rewrite lookup_splice_in by lia. do 2 f_equal. lia.
    + rewrite lookup_splice_out by lia. done.
  - rewrite decide_False; [done|]. intros Hr. apply Hd. symmetry. apply (Z.div_unique_pos i BSIZE _ (i - BSIZE * (off / BSIZE))); lia.
Qed.

Section WriteStep.
Context (user : bool) (src : Z) (data : list Z) (P : kstate -> Prop) `{!Source user src data P}.
Context (s : kstate) (me : nat) (disk : gmap Z (list Z)) (sb : superblock) (start : Z).
Context (tx : list (Z * list Z)) (ip : nat) (ino : inode).
Context (Hf : fsop s me disk sb start tx []) (Hip : k_inodes s !! ip = Some ino).
Context (Hok : file_ok sb (tx_get disk tx) ino) (HP : P s).

(** One iteration of the loop of [writei]. *)
Lemma write_step off tot m :
  0 <= tot -> 0 < m -> tot + m <= Z.of_nat (length data) -> 0 <= off -> off + m <= MAXFILE * BSIZE ->
  off mod BSIZE + m <= BSIZE ->
  Z.of_nat (cost sb (keys tx) ino) + 1 < LOGSIZE - 1 ->
  Z.of_nat (size (missing (tx_get disk tx) ino off m)) <= avail sb (tx_get disk tx) ino ->
  let d := slice (Z.to_nat tot) (Z.to_nat m) data in
  exists a s1 bp s2 s3 s4 s' tx' ino', bmap ip (off / BSIZE) s = Done a s1 /\
    bread (i_dev (k_inodes s1 !!! ip)) a s1 = Done bp s2 /\ either_copyin user (u64 (src + tot)) m s2 = Done (0, d) s2 /\
    setbuf bp (set_b_data (splice (Z.to_nat (off mod BSIZE)) d)) s2 = Done tt s3 /\
    log_write bp s3 = Done tt s4 /\ brelse bp s4 = Done tt s' /\
    wrote s me disk sb start tx ip ino off d s' tx' ino' /\ P s'.
Proof.
  intros Ht Hm Htm Ho Hom Hmod Hroom Hav d. assert (Hor : 0 <= off < MAXFILE * BSIZE) by lia.
  pose proof (block_of off Hor) as Hk.
  rewrite (missing_one _ _ off m Ho Hm Hmod) in Hav.
  destruct (bmap_run s me disk sb start tx ip ino (off / BSIZE) Hf Hip Hok Hroom)
    as (a & s1 & tx1 & ino1 & E1 & [[Hf1 F1 Hok1 G1 Hb1] Ha Hnz Hc Hv]);
    [intros H0; rewrite decide_True in Hav by done; lia|done|].
  pose proof Hf1 as [Hi1 _ Ho1 Hly Hbo1].
  destruct (fk_own _ _ _ Hok1 a) as [Har _]; [rewrite <- Ha; apply owns_faddr; congruence|].
  pose proof (layout_bounds _ _ Hly) as Hlb. pose proof (ifr_at _ _ _ _ _ Hip F1) as Hip1.
  pose proof (cost_len sb tx1 ino1 (op_nodup _ _ _ _ _ _ Hi1)) as Hlen1.
  assert (Hc1 : (cost sb (keys tx1) ino1 <= S (cost sb (keys tx) ino))%nat).
  { etrans; [|exact Hc]. unfold cost. apply Nat.add_le_mono_r, subseteq_size. set_solver +. }
  destruct (op_bread _ _ _ _ _ _ Hi1 a) as (bp & s2 & E2 & Hi2 & F2 & D2);
    [fslia|apply not_elem_of_nil|cbn; fslia|].
  assert (HP2 : P s2).
  { eapply source_frame; [exact HP|]. exact (fsframe_trans _ _ _ (ifr_fsframe _ _ _ _ F1) (opframe_fsframe _ _ F2)). }
  destruct (op_write _ _ _ _ _ _ Hi2 bp a (or_introl eq_refl) (splice (Z.to_nat (off mod BSIZE)) d))
    as (s3 & s4 & E3 & E4 & Hi4 & F4);
    [apply (data_not_log sb _ Hly); lia|fslia|by rewrite (opframe_out _ _ F2)|lia|].
  destruct (op_brelse _ _ _ _ _ _ _ _ Hi4) as (s5 & E5 & Hi5 & F5).
  assert (F : opframe s1 s5) by (by eapply opframe_trans, opframe_trans).
  exists a, s1, bp, s2, s3, s4, s5, (tx_put a (splice (Z.to_nat (off mod BSIZE)) d (tx_get disk tx1 a)) tx1), ino1.
  split; [done|]. split. { rewrite (list_lookup_total_correct _ _ _ Hip1). by rewrite (fk_dev _ _ _ Hok1). }
  split; [by apply (source_get s2)|]. split; [done|]. split; [done|]. split; [done|].
  assert (Hdl : Z.of_nat (length d) = m) by (unfold d; rewrite length_slice; lia).
  assert (Hnb : nblk off m = 1).
  { destruct (nblk_step off m m Ho Hm) as [-> _]; [lia|]. by rewrite Z.sub_diag. }
  set (b' := splice (Z.to_nat (off mod BSIZE)) d (tx_get disk tx1 a)) in *.
  assert (Hv2 : same_view (tx_get disk (tx_put a b' tx1)) (vput (faddr (tx_get disk tx1) ino1 (off / BSIZE)) b' (tx_get disk tx1))).
  { rewrite Ha. apply tx_view_put, (op_nodup _ _ _ _ _ _ Hi1). }
  assert (Hn2 : faddr (tx_get disk tx1) ino1 (off / BSIZE) <> 0) by congruence.
  destruct (put_block_ok sb (tx_get disk tx1) _ ino1 Hok1 _ Hk Hn2 b' Hv2) as (Hok2 & G2 & Hfs).
  assert (Hb'l : length b' = Z.to_nat BSIZE).
  { pose proof (bo_len _ _ Hbo1 a ltac:(fslia)) as Hl. pose proof (Z.mod_pos_bound off BSIZE ltac:(done)).
    unfold b'. rewrite length_splice; lia. }
  split; [|eapply source_frame; [exact HP2|exact (opframe_fsframe _ _ (opframe_trans _ _ _ F4 F5))]].
  split; rewrite ?Hdl, ?Hnb.
  - eapply fsop_step; [exact Hf1|exact Hi5|exact F|]. eapply blocks_ok_view; [intros x; symmetry; apply Hv2|].
    apply blocks_ok_put; [done|rewrite Ha; fslia|done].
  - eapply ifr_trans; [exact F1|]. by apply opframe_ifr.
  - done.
  - by eapply grew_trans.
  - intros i Hi. rewrite (put_bytes sb start (tx_get disk tx1) _ ino1 off d), Hdl; try done; [|lia|by rewrite Ha in Hv2 |- *].
    destruct (decide (off <= i < off + m)); [done|]. unfold fbyte. rewrite Hb1 by (by apply block_of). done.
  - intros i Hi. assert (i / BSIZE = off / BSIZE) as ->.
    { pose proof (Z.div_mod off BSIZE ltac:(done)). pose proof (Z.mod_pos_bound off BSIZE ltac:(done)).
      symmetry. apply (Z.div_unique_pos i BSIZE _ (i - BSIZE * (off / BSIZE))); lia. }
    rewrite (gr_addr _ _ _ _ _ G2); done.
  - rewrite keys_put. lia.
  - rewrite (missing_one _ _ off m Ho Hm Hmod). unfold avail in *. rewrite Hfs. case_decide; lia.
Qed.
End WriteStep.

Section WriteLoop.
Context (user : bool) (src : Z) (data : list Z) (P : kstate -> Prop) `{!Source user src data P}.
Context (me : nat) (disk : gmap Z (list Z)) (sb : superblock) (start : Z) (ip : nat).

Let n := Z.of_nat (length data).
Context (Hn : n < 2 ^ 32).

Lemma u64_add_step x y : u64 (u64 x + y) = u64 (x + y).
Proof. unfold u64. by rewrite Z.add_mod_idemp_l. Qed.

Lemma writei_loop_run fuel s tx ino off tot :
  fsop s me disk sb start tx [] -> k_inodes s !! ip = Some ino -> file_ok sb (tx_get disk tx) ino -> P s ->
  0 <= tot <= n -> 0 <= off -> off + (n - tot) <= MAXFILE * BSIZE ->
  Z.of_nat (cost sb (keys tx) ino) + nblk off (n - tot) < LOGSIZE - 1 ->
  Z.of_nat (size (missing (tx_get disk tx) ino off (n - tot))) <= avail sb (tx_get disk tx) ino ->
  nblk off (n - tot) < Z.of_nat fuel ->
  exists s' tx' ino', writei_loop ip user (u64 (src + tot)) off n tot fuel s = Done (n, off + (n - tot)) s' /\
    wrote s me disk sb start tx ip ino off (drop (Z.to_nat tot) data) s' tx' ino' /\ P s'.
Proof.
  revert s tx ino off tot. induction fuel as [|fuel IH]; intros s tx ino off tot Hf Hip Hok HP Ht Ho Hmax Hroom Hav Hfuel.
  { pose proof (nblk_pos off (n - tot)). lia. }
  cbn [writei_loop]. destruct (Z.ltb_spec tot n) as [Hlt|Hge]; cbn [negb].
  2: { assert (tot = n) as -> by lia. exists s, tx, ino. rewrite Z.sub_diag, Z.add_0_r. split; [done|]. split; [|done].
    rewrite drop_ge by (unfold n; lia). by apply wrote_nil. }
  assert (Hch : chunk n tot off = Z.min (n - tot) (BSIZE - off mod BSIZE)).
  { unfold chunk. by rewrite u32_small by lia. }
  rewrite Hch. set (m := Z.min (n - tot) (BSIZE - off mod BSIZE)) in *.
  destruct (nblk_step off (n - tot) m Ho ltac:(lia) eq_refl) as [Hnb Hm].
  pose proof (nblk_pos (off + m) (n - tot - m)) as Hpos.
  pose proof (missing_le (tx_get disk tx) ino off m (n - tot) ltac:(lia)) as Hms.
  edestruct (write_step user src data P s me disk sb start tx ip ino Hf Hip Hok HP off tot m)
    as (a & s1 & bp & s2 & s3 & s4 & s5 & tx5 & ino5 & E1 & E2 & E3 & E4 & E5 & E6 & W & HP5); [lia..|].
  rewrite (bind_done _ _ _ _ _ E1). unfold getinode. kstep. rewrite (bind_done _ _ _ _ _ E2), (bind_done _ _ _ _ _ E3).
  cbn [fst snd]. rewrite (bind_done _ _ _ _ _ E4). change (0 =? -1) with false. cbv iota.
  rewrite (bind_done _ _ _ _ _ E5), (bind_done _ _ _ _ _ E6).
  set (d := slice (Z.to_nat tot) (Z.to_nat m) data) in *.
  assert (Hdl : Z.of_nat (length d) = m) by (unfold d; rewrite length_slice; unfold n in *; lia).
  assert (Hn1 : nblk off m = 1) by (destruct (nblk_step off m m Ho Hm) as [-> _]; [lia|by rewrite Z.sub_diag]).
  pose proof W as [W1 W2 W3 W4 W5 W6 W7 W8]. rewrite Hdl in W6, W7, W8. rewrite Hn1 in W7.
  pose proof (missing_split _ _ _ _ off m (n - tot - m) Ho ltac:(lia) ltac:(lia) ltac:(lia) (gr_addr _ _ _ _ _ W4) W6) as Hsp.
  replace (m + (n - tot - m)) with (n - tot) in Hsp by lia.
  rewrite u64_add_step, <- Z.add_assoc, (u32_small (off + m)), (u32_small (tot + m)) by filia.
  destruct (IH s5 tx5 ino5 (off + m) (tot + m) W1 (ifr_at _ _ _ _ _ Hip W2) W3 HP5) as (s' & tx' & ino' & E & W' & HP');
    [lia|lia|lia|replace (n - (tot + m)) with (n - tot - m) by lia; lia..|].
  exists s', tx', ino'. rewrite E. split; [do 2 f_equal; lia|]. split; [|done].
  assert (Hsplit : drop (Z.to_nat tot) data = d ++ drop (Z.to_nat (tot + m)) data).
  { unfold d, slice. replace (Z.to_nat (tot + m)) with (Z.to_nat tot + Z.to_nat m)%nat by lia.
    rewrite <- drop_drop. by rewrite take_drop. }
  assert (Hdl2 : Z.of_nat (length (drop (Z.to_nat (tot + m)) data)) = n - tot - m) by (rewrite length_drop; unfold n in *; lia).
  rewrite Hsplit. eapply wrote_app; [done| | |exact W|by rewrite Hdl]; rewrite length_app, Nat2Z.inj_add, Hdl, Hdl2; [lia|].
  rewrite Hn1. replace (m + (n - tot - m)) with (n - tot) by lia. lia.
Qed.
End WriteLoop.

(** ** [writei] *)

(** Replacing a block before the data changes no file. *)
Section PutMeta.
Context (sb : superblock) (start : Z) (Hly : layout sb start) (v v' : Z -> list Z) (ino : inode) (Hok : file_ok sb v ino).
Context (h : Z) (d : list Z) (Hh : h < bmblock sb) (Hv : same_view v' (vput h d v)).

Lemma put_meta_faddr k : faddr v' ino k = faddr v ino k.
Proof.
  unfold faddr. case_match; [done|]. destruct (Z.eqb_spec (iblk ino) 0) as [|Hn]; [done|].
  destruct (fk_own _ _ _ Hok _ (owns_iblk v ino Hn)) as [Hr _]. rewrite Hv, vput_ne; [done|]. fslia.
Qed.

Lemma put_meta_owns x : owns v' ino x <-> owns v ino x.
Proof. unfold owns. by setoid_rewrite put_meta_faddr. Qed.

Lemma put_meta_used x : used sb v' x <-> used sb v x.
Proof. unfold used. rewrite Hv, vput_ne by lia. done. Qed.

Lemma put_meta_fbyte i : 0 <= i < MAXFILE * BSIZE -> fbyte v' ino i = fbyte v ino i.
Proof.
  intros Hi. unfold fbyte, fblock. rewrite put_meta_faddr. destruct (Z.eqb_spec (faddr v ino (i / BSIZE)) 0) as [|Hn]; [done|].
  destruct (fk_own _ _ _ Hok _ (owns_faddr v ino _ (block_of i Hi) Hn)) as [Hr _]. rewrite Hv, vput_ne; [done|]. fslia.
Qed.

Lemma put_meta_ok : file_ok sb v' ino.
Proof.
  pose proof Hok as [K1 K2 K3 K4 K5 K6 K7]. split; try done.
  - intros x Hx%put_meta_owns. destruct (K3 x Hx). split; [done|by apply put_meta_used].
  - intros i j. rewrite !put_meta_faddr. auto.
  - intros j. rewrite put_meta_faddr. auto.
  - intros j. rewrite put_meta_faddr. auto.
Qed.
End PutMeta.

(** The inode's addresses fit in a [uint]. *)
Lemma file_addrs sb start v ino :
  layout sb start -> file_ok sb v ino -> Forall (fun a => 0 <= a < 2 ^ 32) (i_addrs ino).
Proof.
  intros Hly Hok. pose proof (layout_bounds _ _ Hly) as Hb. apply Forall_lookup. intros i a Hi.
  pose proof (lookup_lt_Some _ _ _ Hi) as Hlt. rewrite (fk_len _ _ _ Hok) in Hlt.
  apply list_lookup_total_correct in Hi. destruct (decide (a = 0)) as [->|Hn]; [lia|].
  assert (Ho : owns v ino a).
  { split; [done|]. destruct (decide (i = 12%nat)) as [->|]; [left; by rewrite <- Hi|]. right.
    exists (Z.of_nat i). split; [filia|]. unfold faddr. rewrite (proj2 (Z.ltb_lt _ _)) by (unfold NDIRECT; lia).
    by rewrite Nat2Z.id. }
  destruct (fk_own _ _ _ Hok a Ho). fslia.
Qed.

Lemma dinode_ok_same sb start v ino ino' :
  layout sb start -> file_ok sb v ino' -> dinode_ok (dinode_of ino) ->
  ino' = set_i_size (fun _ => i_size ino') (set_i_addrs (fun _ => i_addrs ino') ino) -> dinode_ok (dinode_of ino').
Proof.
  intros Hly Hok [D1 D2 D3 D4 _ _ _] E. pose proof (file_addrs _ _ _ _ Hly Hok) as Ha. pose proof (fk_size _ _ _ Hok) as Hs.
  pose proof (fk_len _ _ _ Hok) as Hl. rewrite E. split; [exact D1|exact D2|exact D3|exact D4| |exact Hl|exact Ha]. cbn. filia.
Qed.

(** The inode with the size [writei] gives it. *)
Definition resized (end_ : Z) (ino : inode) : inode :=
  if end_ >? i_size ino then set_i_size (fun _ => end_) ino else ino.

Lemma resized_size end_ ino : i_size (resized end_ ino) = Z.max (i_size ino) end_.
Proof. unfold resized. rewrite Z.gtb_ltb. destruct (Z.ltb_spec (i_size ino) end_); cbn; lia. Qed.

Lemma resized_same end_ ino : i_dev (resized end_ ino) = i_dev ino /\ i_inum (resized end_ ino) = i_inum ino /\
  i_addrs (resized end_ ino) = i_addrs ino /\ i_type (resized end_ ino) = i_type ino /\
  i_major (resized end_ ino) = i_major ino /\ i_minor (resized end_ ino) = i_minor ino /\
  i_nlink (resized end_ ino) = i_nlink ino.
Proof. unfold resized. by destruct (end_ >? i_size ino). Qed.

Lemma resized_faddr v end_ ino k : faddr v (resized end_ ino) k = faddr v ino k.
Proof. unfold faddr, iblk. by destruct (resized_same end_ ino) as (_ & _ & -> & _). Qed.

Lemma resized_owns v end_ ino x : owns v (resized end_ ino) x <-> owns v ino x.
Proof. unfold owns, iblk. setoid_rewrite resized_faddr. by destruct (resized_same end_ ino) as (_ & _ & -> & _). Qed.

Lemma resized_fbyte v end_ ino i : fbyte v (resized end_ ino) i = fbyte v ino i.
Proof. unfold fbyte, fblock. by rewrite resized_faddr. Qed.

Lemma resized_ok sb v end_ ino :
  file_ok sb v ino -> end_ <= MAXFILE * BSIZE ->
  (forall i, i_size ino <= i < end_ -> faddr v ino (i / BSIZE) <> 0) -> file_ok sb v (resized end_ ino).
Proof.
  intros [K1 K2 K3 K4 K5 K6 K7] He Hm. destruct (resized_same end_ ino) as (E1 & _ & E2 & _). split.
  - by rewrite E1.
  - by rewrite E2.
  - intros x Hx. apply K3. revert Hx. apply resized_owns.
  - intros i j. rewrite !resized_faddr. apply K4.
  - intros j. unfold iblk. rewrite E2, resized_faddr. apply K5.
  - intros k Hk. rewrite resized_size, resized_faddr. intros Hs.
    destruct (decide (k * BSIZE < i_size ino)); [by apply K6|]. rewrite <- (Z.div_mul k BSIZE) by done. apply Hm. lia.
  - rewrite resized_size. lia.
Qed.

(** What [writei] promises: the file has [d] at [off] and is otherwise as it
    was, the inode's disk copy agrees with the one in memory, and no other
    inode or block in use has changed. *)
Record written (s : kstate) (me : nat) (disk : gmap Z (list Z)) (sb : superblock) (start : Z)
    (tx : list (Z * list Z)) (ip : nat) (ino : inode) (off : Z) (d : list Z)
    (s' : kstate) (tx' : list (Z * list Z)) (ino' : inode) : Prop := {
  wt_op : fsop s' me disk sb start tx' [];
  wt_frame : ifr ip ino' s s';
  wt_ino : ino' = set_i_size (fun _ => i_size ino') (set_i_addrs (fun _ => i_addrs ino') ino);
  wt_ok : file_ok sb (tx_get disk tx') ino';
  wt_size : i_size ino' = Z.max (i_size ino) (off + Z.of_nat (length d));
  wt_byte : forall i, 0 <= i < MAXFILE * BSIZE -> fbyte (tx_get disk tx') ino' i =
    if decide (off <= i < off + Z.of_nat (length d)) then d !!! Z.to_nat (i - off)
    else fbyte (tx_get disk tx) ino i;
  wt_disk : forall j, 0 <= j < sb_ninodes sb ->
    dinode_get (tx_get disk tx' (IBLOCK j sb)) (ioff j) =
    if decide (j = i_inum ino) then dinode_of ino' else dinode_get (tx_get disk tx (IBLOCK j sb)) (ioff j);
  wt_others : forall x, datastart sb <= x -> used sb (tx_get disk tx) x -> ~ owns (tx_get disk tx) ino x ->
    tx_get disk tx' x = tx_get disk tx x /\ used sb (tx_get disk tx') x;
  wt_len : Z.of_nat (length tx') <=
    Z.of_nat (cost sb (keys tx) ino) + nblk off (Z.of_nat (length d)) + 1;
  wt_addr : forall k, 0 <= k < MAXFILE -> faddr (tx_get disk tx) ino k <> 0 ->
    faddr (tx_get disk tx') ino' k = faddr (tx_get disk tx) ino k;
  wt_avail : avail sb (tx_get disk tx) ino - Z.of_nat (size (missing (tx_get disk tx) ino off (Z.of_nat (length d)))) <=
    avail sb (tx_get disk tx') ino';
  wt_own : forall x, owns (tx_get disk tx') ino' x -> owns (tx_get disk tx) ino x \/ ~ used sb (tx_get disk tx) x;
  wt_used : forall x, 0 <= x -> used sb (tx_get disk tx) x -> used sb (tx_get disk tx') x }.

Section Writei.
Context (user : bool) (src : Z) (data : list Z) (P : kstate -> Prop) `{!Source user src data P}.
Context (s : kstate) (me : nat) (disk : gmap Z (list Z)) (sb : superblock) (start : Z).
Context (tx : list (Z * list Z)) (ip : nat) (ino : inode).
Context (Hf : fsop s me disk sb start tx []) (Hip : k_inodes s !! ip = Some ino).
Context (Hok : file_ok sb (tx_get disk tx) ino) (HP : P s).
Context (Hinum : 0 <= i_inum ino < sb_ninodes sb) (Hdk : dinode_ok (dinode_of ino)).

Let n := Z.of_nat (length data).
Let v := tx_get disk tx.

Context (off : Z) (Hsrc : 0 <= src < 2 ^ 64) (Hoff : 0 <= off <= i_size ino) (Hmax : off + n <= MAXFILE * BSIZE).
Context (Hroom : Z.of_nat (cost sb (keys tx) ino) + nblk off n < LOGSIZE - 1) (Hav : Z.of_nat (size (missing v ino off n)) <= avail sb v ino).

(** The last part of [writei], from the state the loop leaves. *)
Lemma writei_end s1 tx1 ino1 :
  wrote s me disk sb start tx ip ino off data s1 tx1 ino1 ->
  exists s' ino', (i <- getinode ip;;
    when (off + n >? i_size i) (setinode ip (set_i_size (fun _ => off + n)));;
    iupdate ip;; ret (s32 n)) s1 = Done n s' /\
    written s me disk sb start tx ip ino off data s' (tx_inode sb disk tx1 ino') ino' /\ fsframe s s'.
Proof.
  intros [W1 W2 W3 W4 W5 W6 W7 W8]. set (ino2 := resized (off + n) ino1).
  assert (Hip1 : k_inodes s1 !! ip = Some ino1) by (by eapply ifr_at).
  assert (E1 : k_inodes s1 !!! ip = ino1) by (by apply list_lookup_total_correct).
  destruct (resized_same (off + n) ino1) as (R1 & R2 & R3 & R4 & R5 & R6 & R7). fold ino2 in R1, R2, R3, R4, R5, R6, R7.
  assert (Hino1 : i_inum ino1 = i_inum ino /\ i_size ino1 = i_size ino /\ i_dev ino1 = i_dev ino)
    by (rewrite (gr_ino _ _ _ _ _ W4); done).
  destruct Hino1 as (N1 & N2 & N3).
  set (s2 := set_k_inodes (fun _ => <[ip := ino2]> (k_inodes s1)) s1).
  assert (E2 : forall K : unit -> K Z,
    (when (off + n >? i_size ino1) (setinode ip (set_i_size (fun _ => off + n)));; K tt) s1 = K tt s2).
  { intros K. unfold s2, ino2, resized. destruct (off + n >? i_size ino1); unfold when, setinode.
    - kstep. f_equal. apply set_k_inodes_ext. apply list_eq. intros j. destruct (decide (ip = j)) as [<-|Hne].
      + rewrite list_lookup_alter_eq, list_lookup_insert_eq, Hip1 by (by eapply lookup_lt_Some). done.
      + by rewrite list_lookup_alter_ne, list_lookup_insert_ne.
    - kstep. f_equal. rewrite set_k_inodes_id; [done|]. by apply list_insert_id. }
  assert (Hf2 : fsop s2 me disk sb start tx1 []) by (by apply fsop_inodes).
  assert (Hip2 : k_inodes s2 !! ip = Some ino2) by (apply list_lookup_insert_eq; by eapply lookup_lt_Some).
  assert (Hok2 : file_ok sb (tx_get disk tx1) ino2).
  { apply resized_ok; [done|done|]. intros i Hi. apply W6. fold n. rewrite N2 in Hi. lia. }
  pose proof Hf2 as [Hi2 Hs2 Ho2 Hly Hbo2]. pose proof (op_nodup _ _ _ _ _ _ Hi2) as Hnd.
  pose proof (cost_len sb tx1 ino1 Hnd) as Hl1. fold n in W7.
  destruct (iupdate_run s2 me disk sb start tx1 ip ino2 Hf2 Hip2) as (s3 & E3 & Hf3 & F3);
    [apply (fk_dev _ _ _ Hok2)|apply (fk_len _ _ _ Hok2)|by rewrite R2, N1|lia|].
  exists s3, ino2. split.
  { unfold getinode. kstep. prw E1. rewrite (E2 (fun _ => iupdate ip;; ret (s32 n))), (bind_done _ _ _ _ _ E3).
    unfold ret. f_equal. apply s32_small. unfold n in *. filia. }
  assert (Hino2 : ino2 = set_i_size (fun _ => i_size ino2) (set_i_addrs (fun _ => i_addrs ino2) ino))
    by (unfold ino2, resized; rewrite (gr_ino _ _ _ _ _ W4); by case_match).
  pose proof (dinode_ok_same _ _ _ _ _ Hly Hok2 Hdk Hino2) as Hdk2.
  assert (Hb : IBLOCK (i_inum ino2) sb < bmblock sb) by (apply (iblock_ok _ _ _ Hly); by rewrite R2, N1).
  assert (Hv3 : same_view (tx_get disk (tx_inode sb disk tx1 ino2))
    (vput (IBLOCK (i_inum ino2) sb) (dinode_put (ioff (i_inum ino2)) (dinode_of ino2) (tx_get disk tx1 (IBLOCK (i_inum ino2) sb)))
      (tx_get disk tx1))) by (by apply tx_view_put).
  assert (F : ifr ip ino2 s s3).
  { eapply ifr_trans; [exact W2|]. unfold ifr. eapply opframe_trans, F3. apply opframe_refl. }
  split; [|by eapply ifr_fsframe].
  split; fold n v.
  - done.
  - done.
  - exact Hino2.
  - by apply (put_meta_ok sb (tx_get disk tx1) _ ino2 Hok2 _ _ Hb Hv3).
  - unfold ino2. by rewrite resized_size, N2.
  - intros i Hi. rewrite (put_meta_fbyte sb (tx_get disk tx1) _ ino2 Hok2 _ _ Hb Hv3) by done.
    unfold ino2. rewrite resized_fbyte. by apply W5.
  - intros j Hj. rewrite (tx_inode_get sb start) by (done || by rewrite R2, N1). rewrite R2, N1. case_decide; [done|].
    assert (Hbj : sb_inodestart sb <= IBLOCK j sb < bmblock sb) by (apply (iblock_ok _ _ _ Hly); done).
    pose proof (layout_bounds _ _ Hly).
    f_equal. apply (gr_frame _ _ _ _ _ W4); [fslia| |lia|].
    + apply (bo_meta _ _ (fo_blocks _ _ _ _ _ _ _ Hf)). fslia.
    + intros Ho. destruct (fk_own _ _ _ Hok _ Ho). fslia.
  - intros x Hx Hu Ho. pose proof (layout_bounds _ _ Hly). split.
    + rewrite Hv3, vput_ne by fslia. apply (gr_frame _ _ _ _ _ W4); [fslia|done|fslia|done].
    + apply (put_meta_used sb (tx_get disk tx1) _ _ _ Hb Hv3). apply (gr_used _ _ _ _ _ W4); [fslia|done].
  - unfold tx_inode. pose proof (tx_put_len (IBLOCK (i_inum ino2) sb)
      (dinode_put (ioff (i_inum ino2)) (dinode_of ino2) (tx_get disk tx1 (IBLOCK (i_inum ino2) sb))) tx1). lia.
  - intros k Hk Hn. rewrite (put_meta_faddr sb (tx_get disk tx1) _ ino2 Hok2 _ _ Hb Hv3). unfold ino2.
    rewrite resized_faddr. by apply (gr_addr _ _ _ _ _ W4).
  - fold n in W8. etrans; [exact W8|]. unfold avail, freeset, reserve, iblk. rewrite R3, Hv3, vput_ne by lia. done.
  - intros x Hx%(put_meta_owns sb (tx_get disk tx1) _ ino2 Hok2 _ _ Hb Hv3). unfold ino2 in Hx. rewrite resized_owns in Hx.
    destruct (gr_own _ _ _ _ _ W4 x Hx) as [?|[_ ?]]; [by left|by right].
  - intros x Hx Hu. apply (put_meta_used sb (tx_get disk tx1) _ _ _ Hb Hv3). by apply (gr_used _ _ _ _ _ W4).
Qed.

Lemma writei_run :
  exists s' tx' ino', writei ip user src off n s = Done n s' /\
    written s me disk sb start tx ip ino off data s' tx' ino' /\ P s'.
Proof.
  assert (Hn : n < 2 ^ 32) by (unfold n in *; filia).
  destruct (writei_loop_run user src data P me disk sb start ip Hn (blk_fuel n) s tx ino off 0 Hf Hip Hok HP)
    as (s1 & tx1 & ino1 & E1 & W & HP1); fold n; rewrite ?Z.sub_0_r;
    [unfold n; lia|lia|exact Hmax|exact Hroom|exact Hav|apply nblk_fuel; lia|].
  rewrite drop_0 in W. destruct (writei_end s1 tx1 ino1 W) as (s2 & ino2 & E2 & W2 & F2).
  exists s2, (tx_inode sb disk tx1 ino2), ino2. split; [|split; [done|]].
  - assert (E0 : k_inodes s !!! ip = ino) by (by apply list_lookup_total_correct).
    pose proof (fk_size _ _ _ Hok) as Hsz. rewrite Z.add_0_r, (u64_small src) in E1 by done. fold n in E1.
    unfold writei, getinode. kstep. prw E0. rewrite Z.gtb_ltb, (proj2 (Z.ltb_ge _ _)) by lia. cbn [orb].
    rewrite u32_small, (proj2 (Z.ltb_ge _ off)) by (unfold n in *; filia).
    rewrite Z.gtb_ltb, (proj2 (Z.ltb_ge _ _)) by (unfold n in *; lia).
    rewrite (bind_done _ _ _ _ _ E1). rewrite Z.sub_0_r. exact E2.
  - eapply source_frame; [exact HP|exact F2].
Qed.
End Writei.
