(* ===== verification/FsRead.v ===== *)
(** * Reading a file

    [readi] delivers the bytes of a file, as many as there are. It works
    inside and outside a transaction: it only reads blocks. *)

From stdpp Require Import gmap strings list.
From Stdlib Require Import ZArith Lia.
From S2P Require Import Prelude KState CString Spinlock Sched SleepLock Vm Bio Bcache Log LogProps LogTx FsTx Fs FsBlocks FsFile FsInode FsWrite.
Open Scope Z_scope.
Import Spinlock Sched Vm Bio Log Fs.

(** ** Where the bytes go *)

(** [P l s]: in [s] the bytes [l] have been delivered at [dst]. There is room
    for [cap] bytes. *)
Class Sink (user : bool) (dst cap : Z) (P : list Z -> kstate -> Prop) : Prop := {
  sink_put : forall s l d, P l s -> Z.of_nat (length l + length d) <= cap ->
    exists m, either_copyout user (u64 (dst + Z.of_nat (length l))) d s = Done 0 (set_k_mem (fun _ => m) s) /\
      P (l ++ d) (set_k_mem (fun _ => m) s);
  sink_frame : forall l s s', P l s -> opframe s s' -> P l s' }.

(** Nothing but memory, buffers and sleeping processes has changed. *)
Definition rframe (s s' : kstate) : Prop := exists m, opframe (set_k_mem (fun _ => m) s) s'.

Lemma opframe_set_mem s s' m :
  opframe s s' -> opframe (set_k_mem (fun _ => m) s) (set_k_mem (fun _ => m) s').
Proof.
  intros (l & (b & d & t & p & -> & Hl & Hp) & H). exists l. split; [|exact H]. by exists b, d, t, p.
Qed.

Lemma opframe_rframe s s' : opframe s s' -> rframe s s'.
Proof. intros F. exists (k_mem s). by rewrite set_k_mem_id. Qed.

Lemma rframe_trans s0 s1 s2 : rframe s0 s1 -> rframe s1 s2 -> rframe s0 s2.
Proof.
  intros [m1 F1] [m2 F2]. exists m2. eapply opframe_trans, F2.
  apply (opframe_set_mem _ _ m2) in F1. by rewrite set_set_k_mem in F1.
Qed.

Lemma rframe_inodes s s' : rframe s s' -> k_inodes s' = k_inodes s.
Proof. intros [m F]. exact (opframe_inodes _ _ F). Qed.

(** ** The bytes of a file *)

Definition fbytes (v : Z -> list Z) (ino : inode) (off n : Z) : list Z := fbyte v ino <$> seqZ off n.

Lemma length_fbytes v ino off n : length (fbytes v ino off n) = Z.to_nat n.
Proof. unfold fbytes. by rewrite length_fmap, length_seqZ. Qed.

Lemma fbytes_app v ino off a b :
  0 <= a -> 0 <= b -> fbytes v ino off (a + b) = fbytes v ino off a ++ fbytes v ino (off + a) b.
Proof. intros Ha Hb. unfold fbytes. rewrite seqZ_app by lia. by rewrite fmap_app. Qed.

(** A run of bytes inside one block. *)
Lemma fbytes_block v ino off m :
  0 <= off -> 0 <= m -> off mod BSIZE + m <= BSIZE -> faddr v ino (off / BSIZE) <> 0 ->
  length (v (faddr v ino (off / BSIZE))) = Z.to_nat BSIZE ->
  slice (Z.to_nat (off mod BSIZE)) (Z.to_nat m) (v (faddr v ino (off / BSIZE))) = fbytes v ino off m.
Proof.
  intros Ho Hm Hb Hn Hl. pose proof (Z.mod_pos_bound off BSIZE ltac:(done)) as M1.
  pose proof (Z.div_mod off BSIZE ltac:(done)) as D1.
  apply list_eq. intros i. destruct (decide (i < Z.to_nat m)%nat) as [Hi|Hi].
  - rewrite lookup_slice by done. unfold fbytes. rewrite list_lookup_fmap, lookup_seqZ_lt by lia. cbn.
    unfold fbyte, fblock. assert ((off + Z.of_nat i) / BSIZE = off / BSIZE /\
      (off + Z.of_nat i) mod BSIZE = off mod BSIZE + Z.of_nat i) as [-> ->].
    { replace (off + Z.of_nat i) with (off mod BSIZE + Z.of_nat i + (off / BSIZE) * BSIZE) by lia.
      rewrite Z.div_add, Z.mod_add, Z.div_small, Z.mod_small by (done || lia). lia. }
    rewrite (proj2 (Z.eqb_neq _ 0)) by done. rewrite list_lookup_lookup_total_lt by lia. do 2 f_equal. lia.
  - rewrite !lookup_ge_None_2; [done|rewrite length_fbytes; lia|rewrite length_slice; lia].
Qed.

Section Readi.
Context (user : bool) (dst cap : Z) (P : list Z -> kstate -> Prop) `{!Sink user dst cap P}.
Context (me : nat) (disk : gmap Z (list Z)) (sb : superblock) (start : Z) (tx : list (Z * list Z)) (ip : nat) (ino : inode).
Context (Hly : layout sb start).

Let v := tx_get disk tx.
Context (Hbo : blocks_ok sb v) (Hok : file_ok sb v ino) (Hroom : (length tx < NBUF)%nat).

(** One iteration of the loop of [readi]. *)
Lemma read_step s off m l :
  inop s me disk start tx [] -> k_inodes s !! ip = Some ino -> P l s ->
  0 <= off -> 0 < m -> off + m <= i_size ino -> off mod BSIZE + m <= BSIZE -> Z.of_nat (length l) + m <= cap ->
  exists a s1 bp s2 s3 s', bmap ip (off / BSIZE) s = Done a s1 /\
    bread (i_dev (k_inodes s1 !!! ip)) a s1 = Done bp s2 /\
    either_copyout user (u64 (dst + Z.of_nat (length l)))
      (slice (Z.to_nat (off mod BSIZE)) (Z.to_nat m) (b_data (k_bufs s2 !!! bp))) s2 = Done 0 s3 /\
    brelse bp s3 = Done tt s' /\ inop s' me disk start tx [] /\ rframe s s' /\ P (l ++ fbytes v ino off m) s'.
Proof.
  intros Hi Hip HP Ho Hm Hsz Hmod Hcap. pose proof (fk_size _ _ _ Hok) as Hfs.
  assert (Hk : 0 <= off / BSIZE < MAXFILE) by (apply block_of; lia).
  assert (Hn : faddr v ino (off / BSIZE) <> 0).
  { apply (fk_dense _ _ _ Hok); [lia|]. pose proof (Z.div_mod off BSIZE ltac:(done)).
    pose proof (Z.mod_pos_bound off BSIZE ltac:(done)). lia. }
  destruct (bmap_mapped s me disk sb start tx ip ino _ Hi Hip Hly Hok Hroom Hk Hn) as (s1 & E1 & Hi1 & F1).
  fold v in E1. set (a := faddr v ino (off / BSIZE)) in *.
  destruct (fk_own _ _ _ Hok a) as [Har _]; [by apply owns_faddr|]. pose proof (layout_bounds _ _ Hly) as Hlb.
  destruct (op_bread _ _ _ _ _ _ Hi1 a) as (bp & s2 & E2 & Hi2 & F2 & D2); [fslia|apply not_elem_of_nil|cbn; lia|].
  assert (HP2 : P l s2) by (eapply sink_frame, (opframe_trans _ _ _ F1 F2); exact HP).
  assert (Hal : length (v a) = Z.to_nat BSIZE) by (apply (bo_len _ _ Hbo); fslia).
  pose proof (fbytes_block v ino off m Ho ltac:(lia) Hmod Hn Hal) as Eb. fold a in Eb.
  destruct (sink_put s2 l (fbytes v ino off m) HP2) as (mm & E3 & HP3); [rewrite length_fbytes; lia|].
  set (s3 := set_k_mem (fun _ => mm) s2) in *.
  destruct (op_brelse s3 me disk start tx bp a []) as (s4 & E4 & Hi4 & F4); [exact (inop_mem _ _ _ _ _ _ _ Hi2)|].
  exists a, s1, bp, s2, s3, s4. split; [done|]. split.
  { rewrite (opframe_inodes _ _ F1), (list_lookup_total_correct _ _ _ Hip). by rewrite (fk_dev _ _ _ Hok). }
  split; [rewrite D2; fold v; by rewrite Eb|]. split; [done|]. split; [done|]. split.
  - apply (rframe_trans s s2 s4); [exact (opframe_rframe _ _ (opframe_trans _ _ _ F1 F2))|]. exists mm. exact F4.
  - eapply sink_frame, F4. exact HP3.
Qed.

Lemma readi_loop_run fuel s off n tot l :
  inop s me disk start tx [] -> k_inodes s !! ip = Some ino -> P l s -> Z.of_nat (length l) = tot ->
  0 <= tot <= n -> n <= cap -> n < 2 ^ 32 -> 0 <= off -> off + (n - tot) <= i_size ino -> nblk off (n - tot) < Z.of_nat fuel ->
  exists s', readi_loop ip user (u64 (dst + tot)) off n tot fuel s = Done n s' /\
    inop s' me disk start tx [] /\ rframe s s' /\ P (l ++ fbytes v ino off (n - tot)) s'.
Proof.
  revert s off tot l. induction fuel as [|fuel IH]; intros s off tot l Hi Hip HP Hl Ht Hcap Hn Ho Hsz Hfuel.
  { pose proof (nblk_pos off (n - tot)). lia. }
  cbn [readi_loop]. destruct (Z.ltb_spec tot n) as [Hlt|Hge]; cbn [negb].
  2: { assert (tot = n) as -> by lia. exists s. rewrite Z.sub_diag. cbn. rewrite app_nil_r.
    split; [done|]. split; [done|]. split; [apply opframe_rframe, opframe_refl|done]. }
  assert (Hch : chunk n tot off = Z.min (n - tot) (BSIZE - off mod BSIZE)).
  { unfold chunk. by rewrite u32_small by lia. }
  rewrite Hch. set (m := Z.min (n - tot) (BSIZE - off mod BSIZE)) in *.
  destruct (nblk_step off (n - tot) m Ho ltac:(lia) eq_refl) as [Hnb Hm].
  pose proof (nblk_pos (off + m) (n - tot - m)) as Hpos. pose proof (fk_size _ _ _ Hok) as Hfs.
  destruct (read_step s off m l Hi Hip HP) as (a & s1 & bp & s2 & s3 & s4 & E1 & E2 & E3 & E4 & Hi4 & F4 & HP4); [lia..|].
  rewrite Hl in E3. rewrite (bind_done _ _ _ _ _ E1). unfold getinode, getbuf. kstep. rewrite (bind_done _ _ _ _ _ E2). kstep.
  rewrite (bind_done _ _ _ _ _ E3), (bind_done _ _ _ _ _ E4). change (0 =? -1) with false. cbv iota.
  rewrite u64_add_step, <- Z.add_assoc, (u32_small (off + m)), (u32_small (tot + m)) by filia.
  destruct (IH s4 (off + m) (tot + m) (l ++ fbytes v ino off m)) as (s' & E & Hi' & F' & HP');
    [done|by rewrite (rframe_inodes _ _ F4)|done|rewrite length_app, length_fbytes; lia|lia..
    |replace (n - (tot + m)) with (n - tot - m) by lia; lia|].
  exists s'. split; [done|]. split; [done|]. split; [by eapply rframe_trans|].
  replace (n - tot) with (m + (n - (tot + m))) by lia. rewrite fbytes_app by lia. by rewrite app_assoc.
Qed.

(** How much of a request there is to read. *)
Definition readable (off n : Z) : Z := Z.min n (i_size ino - off).

Lemma readi_run s off n :
  inop s me disk start tx [] -> k_inodes s !! ip = Some ino -> P [] s -> 0 <= dst < 2 ^ 64 ->
  0 <= off <= i_size ino -> 0 <= n -> off + n < 2 ^ 32 -> readable off n <= cap ->
  exists s', readi ip user dst off n s = Done (readable off n) s' /\ inop s' me disk start tx [] /\ rframe s s' /\
    P (fbytes v ino off (readable off n)) s'.
Proof.
  intros Hi Hip HP Hd Ho Hn Hon Hcap. pose proof (fk_size _ _ _ Hok) as Hfs. unfold readable in *.
  assert (E0 : k_inodes s !!! ip = ino) by (by apply list_lookup_total_correct).
  set (c := Z.min n (i_size ino - off)) in *.
  destruct (readi_loop_run (blk_fuel c) s off c 0 [] Hi Hip HP) as (s' & E & Hi' & F' & HP');
    [done|lia|lia|filia|lia|lia|rewrite Z.sub_0_r; apply nblk_fuel; lia|].
  rewrite Z.sub_0_r, Z.add_0_r, (u64_small dst) in * by done. exists s'. split; [|done].
  unfold readi, getinode. kstep. prw E0. rewrite Z.gtb_ltb, (proj2 (Z.ltb_ge _ _)) by lia. cbn [orb].
  rewrite u32_small, (proj2 (Z.ltb_ge _ off)) by lia. rewrite Z.gtb_ltb.
  assert ((if i_size ino <? off + n then u32 (i_size ino - off) else n) = c) as ->.
  { destruct (Z.ltb_spec (i_size ino) (off + n)); [rewrite u32_small by filia|]; lia. }
  rewrite (bind_done _ _ _ _ _ E). unfold ret. f_equal. apply s32_small. filia.
Qed.

(** Past the end there is nothing to read. *)
Lemma readi_past s off n :
  k_inodes s !! ip = Some ino -> i_size ino < off -> readi ip user dst off n s = Done 0 s.
Proof.
  intros Hip Ho. assert (E0 : k_inodes s !!! ip = ino) by (by apply list_lookup_total_correct).
  unfold readi, getinode. kstep. prw E0. by rewrite Z.gtb_ltb, (proj2 (Z.ltb_lt _ _)).
Qed.
End Readi.
