(* ===== verification/FsCopy.v ===== *)
(** * The two ends of a transfer

    [readi] and [writei] move bytes to or from kernel memory (directories,
    program headers) or the memory of the process that called. Both kinds
    satisfy the interfaces [Source] and [Sink] the file system relies on. *)

From stdpp Require Import gmap strings list.
From Stdlib Require Import ZArith Lia.
From S2P Require Import Prelude KState CString Spinlock Sched SleepLock Kalloc Vm VmProps VmCopy Bio Bcache Log LogProps LogTx FsTx Fs FsBlocks FsFile FsInode FsWrite FsRead.
Open Scope Z_scope.
Import Spinlock Sched Vm Bio Log Fs SpinlockProps KallocProps.

(** ** Frames *)

Lemma fsframe_field {A} (f : kstate -> A) s s' :
  (forall s l b d t p i o, f (set_k_procs (fun _ => p) (set_k_bufs (fun _ => b) (set_k_disk (fun _ => d)
     (set_k_dtrace (fun _ => t) (set_k_log (fun _ => l) (set_k_files (fun _ => o)
       (set_k_inodes (fun _ => i) s))))))) = f s) ->
  fsframe s s' -> f s' = f s.
Proof. intros Hf (i & o & l & b & d & t & p & -> & _). apply Hf. Qed.

Lemma fsframe_cpu s s' : fsframe s s' -> cpu_ok s -> cpu_ok s'.
Proof. intros F H. by rewrite (fsframe_field cpu_ok _ _ ltac:(done) F). Qed.

Lemma fsframe_mem s s' : fsframe s s' -> k_mem s' = k_mem s.
Proof. by apply (fsframe_field k_mem). Qed.

Lemma fsframe_kcpu s s' : fsframe s s' -> k_cpu s' = k_cpu s.
Proof. by apply (fsframe_field k_cpu). Qed.

Lemma fsframe_proc s s' i : fsframe s s' -> p_pagetable (k_procs s' !!! i) = p_pagetable (k_procs s !!! i).
Proof. intros (x & o & l & b & d & t & p & -> & _ & Hp). exact (f_equal p_pagetable (Hp i)). Qed.

Lemma fsframe_space s s' fl ts A : fsframe s s' -> vmspace s fl ts A -> vmspace s' fl ts A.
Proof.
  intros F [H1 H2 H3 H4 H5 H6 H7 H8]. split; try done.
  - by apply (fsframe_cpu s).
  - by rewrite (fsframe_field (fun s => lock_free s L_kmem) s s' ltac:(done) F).
  - by rewrite (fsframe_field (fun s => kmem_rep s fl) s s' ltac:(done) F).
  - by rewrite (fsframe_mem _ _ F).
Qed.

(** ** Kernel memory *)

Lemma slice_ldbytes m a n o k : (o + k <= n)%nat -> slice o k (ldbytes m a n) = ldbytes m (a + Z.of_nat o) k.
Proof.
  intros H. apply list_eq. intros i. destruct (decide (i < k)%nat) as [Hi|Hi].
  - rewrite lookup_slice, !ldbytes_lookup by lia. do 2 f_equal. lia.
  - rewrite !lookup_ge_None_2; [done|rewrite length_ldbytes; lia|rewrite length_slice; rewrite ?length_ldbytes; lia].
Qed.

Lemma stbytes_app a l1 l2 m : stbytes a (l1 ++ l2) m = stbytes (a + Z.of_nat (length l1)) l2 (stbytes a l1 m).
Proof.
  revert a m. induction l1 as [|x l1 IH]; intros a m; [by rewrite Z.add_0_r|].
  cbn [app stbytes length]. rewrite IH. f_equal. lia.
Qed.

Definition kernel_src (m : mem) (s : kstate) : Prop := cpu_ok s /\ k_mem s = m.

#[export] Instance kernel_source m src n :
  0 <= src -> src + Z.of_nat n <= 2 ^ 64 -> Source false src (ldbytes m src n) (kernel_src m).
Proof.
  intros Hs Hn. split.
  - intros s o k [Hc Hm] Ho Hk Hok. rewrite length_ldbytes in Hok. unfold either_copyin.
    rewrite (bind_done _ _ _ _ _ (myproc_spec s Hc)). kstep. rewrite Hm, slice_ldbytes, u64_small, Z2Nat.id by lia. done.
  - intros s s' [Hc Hm] F. split; [by eapply fsframe_cpu|by rewrite (fsframe_mem _ _ F)].
Qed.

Definition kernel_dst (m : mem) (dst : Z) (l : list Z) (s : kstate) : Prop := cpu_ok s /\ k_mem s = stbytes dst l m.

#[export] Instance kernel_sink m dst cap :
  0 <= dst -> dst + cap <= 2 ^ 64 -> Sink false dst cap (kernel_dst m dst).
Proof.
  intros Hd Hc. split.
  - intros s l d [Hk Hm] Hl. exists (stbytes dst (l ++ d) m). destruct (decide (d = [])) as [->|Hne].
    + rewrite app_nil_r. unfold either_copyout. rewrite (bind_done _ _ _ _ _ (myproc_spec s Hk)). kstep.
      rewrite (set_k_mem_ext _ (fun _ => stbytes dst l m)) by (cbn; done). split; [done|]. by split.
    + assert (0 < Z.of_nat (length d)) by (destruct d; [done|cbn; lia]).
      unfold either_copyout. rewrite (bind_done _ _ _ _ _ (myproc_spec s Hk)). kstep.
      rewrite (set_k_mem_ext _ (fun _ => stbytes dst (l ++ d) m)); [split; [done|by split]|].
      rewrite Hm, stbytes_app, u64_small by lia. done.
  - intros l s s' [Hk Hm] F. apply opframe_fsframe in F. split; [by eapply fsframe_cpu|by rewrite (fsframe_mem _ _ F)].
Qed.

(** ** The memory of the calling process *)

(** The address space of process [me] is [A], and [me] runs. *)
Record at_user (s : kstate) (fl ts : list Z) (A : amap) (me : nat) (root : Z) : Prop := {
  au_space : vmspace s fl ts A;
  au_root : ts !! 0%nat = Some root;
  au_cur : c_proc (k_cpu s) = Some me;
  au_pt : p_pagetable (k_procs s !!! me) = root }.

Lemma at_user_frame s s' fl ts A me root : fsframe s s' -> at_user s fl ts A me root -> at_user s' fl ts A me root.
Proof.
  intros F [H1 H2 H3 H4]. split; [by eapply fsframe_space|done|by rewrite (fsframe_kcpu _ _ F)|by rewrite (fsframe_proc _ _ _ F)].
Qed.

Lemma user_copyin s fl ts A me root src len :
  at_user s fl ts A me root -> either_copyin true src len s = copyin root src len s.
Proof.
  intros [H1 H2 H3 H4]. unfold either_copyin. rewrite (bind_done _ _ _ _ _ (myproc_spec s (vs_cpu _ _ _ _ H1))), H3.
  unfold deref, getproc. kstep. by prw H4.
Qed.

Lemma user_copyout s fl ts A me root dst l :
  at_user s fl ts A me root -> either_copyout true dst l s = copyout root dst l s.
Proof.
  intros [H1 H2 H3 H4]. unfold either_copyout. rewrite (bind_done _ _ _ _ _ (myproc_spec s (vs_cpu _ _ _ _ H1))), H3.
  unfold deref, getproc. kstep. by prw H4.
Qed.

Definition user_src (fl ts : list Z) (A : amap) (me : nat) (root src : Z) (data : list Z) (s : kstate) : Prop :=
  at_user s fl ts A me root /\ uloaded A (k_mem s) src data.

#[export] Instance user_source fl ts A me root src data :
  0 <= src -> src + Z.of_nat (length data) < 2 ^ 64 -> Source true src data (user_src fl ts A me root src data).
Proof.
  intros Hs Hn. split.
  - intros s o k [Hu Hl] Ho Hk Hok. rewrite u64_small by lia. rewrite (user_copyin _ _ _ _ _ _ _ _ Hu). unfold copyin.
    destruct (copyin_loop_run fl ts A root (au_root _ _ _ _ _ _ Hu) (page_fuel k) s (src + o) k [] (au_space _ _ _ _ _ _ Hu))
      as (r & bs & E & Hb & Hr); [lia|lia|apply page_fuel_ok; lia|].
    assert (Hd : forall i x, data !! (Z.to_nat o + i)%nat = Some x -> ubyte (k_mem s) A (src + o + Z.of_nat i) = Some x).
    { intros i x Hx. rewrite <- (Hl _ _ Hx). f_equal. lia. }
    destruct Hr as [[-> Hlen]|(_ & Hlt & Hnone)].
    + rewrite E. cbn [app]. f_equal. f_equal. apply list_eq. intros i. destruct (decide (i < Z.to_nat k)%nat) as [Hi|Hi].
      * rewrite lookup_slice by done. destruct (lookup_lt_is_Some_2 data (Z.to_nat o + i)) as [x Hx]; [lia|].
        destruct (lookup_lt_is_Some_2 bs i) as [y Hy]; [lia|]. rewrite Hx, Hy. pose proof (Hb _ _ Hy) as H1.
        rewrite (Hd _ _ Hx) in H1. congruence.
      * rewrite !lookup_ge_None_2; [done|rewrite length_slice; lia|lia].
    + exfalso. destruct (lookup_lt_is_Some_2 data (Z.to_nat o + length bs)) as [x Hx]; [lia|].
      pose proof (Hd _ _ Hx) as H1. unfold ubyte in H1. by rewrite Hnone in H1.
  - intros s s' [Hu Hl] F. split; [by eapply at_user_frame|by rewrite (fsframe_mem _ _ F)].
Qed.

Definition user_dst (fl ts : list Z) (A : amap) (me : nat) (root : Z) (m : mem) (dst : Z) (l : list Z) (s : kstate) : Prop :=
  at_user s fl ts A me root /\ ustored A m (k_mem s) dst l (Z.of_nat (length l)).

Lemma chain_head m p q l : chain m p l -> forall m', chain m' q l -> p = q.
Proof. destruct l; cbn; intros H m' H'; [by rewrite H, H'|]. destruct H as [-> _], H' as [-> _]. done. Qed.

Lemma only_memory s s' fl : kmem_only s s' -> kmem_rep s fl -> kmem_rep s' fl -> s' = set_k_mem (fun _ => k_mem s') s.
Proof.
  intros K [H _] [H' _]. assert (E : k_freelist s = k_freelist s') by (by eapply chain_head).
  unfold kmem_only in K. rewrite K at 1. rewrite <- E. done.
Qed.

Lemma ustored_app A m0 m1 m2 dst l d :
  ustored A m0 m1 dst l (Z.of_nat (length l)) -> ustored A m1 m2 (dst + Z.of_nat (length l)) d (Z.of_nat (length d)) ->
  ustored A m0 m2 dst (l ++ d) (Z.of_nat (length (l ++ d))).
Proof.
  intros H1 H2 va. rewrite H2, H1, length_app, Nat2Z.inj_add. repeat case_decide; try lia; try done.
  - rewrite lookup_app_r by lia. do 2 f_equal. lia.
  - by rewrite lookup_app_l by lia.
Qed.

#[export] Instance user_sink fl ts A me root m dst cap :
  0 <= dst -> dst + cap < 2 ^ 64 -> (forall i, 0 <= i < cap -> upage A ((dst + i) / PGSIZE) <> None) ->
  Sink true dst cap (user_dst fl ts A me root m dst).
Proof.
  intros Hd Hc Hmap. split.
  - intros s l d [Hu Hl] Hlen. rewrite u64_small by lia. rewrite (user_copyout _ _ _ _ _ _ _ _ Hu). unfold copyout.
    destruct (copyout_loop_run fl ts A root (au_root _ _ _ _ _ _ Hu) (page_fuel (Z.of_nat (length d))) s
      (dst + Z.of_nat (length l)) d (au_space _ _ _ _ _ _ Hu)) as (r & s' & k & E & Hv' & K & _ & B & Hr);
      [lia|apply page_fuel_ok; lia|].
    destruct Hr as [[-> ->]|(_ & Hk & Hnone)].
    + pose proof (only_memory s s' fl K (vs_free _ _ _ _ (au_space _ _ _ _ _ _ Hu)) (vs_free _ _ _ _ Hv')) as Es.
      exists (k_mem s'). rewrite <- Es. split; [done|]. split; [|by eapply ustored_app].
      destruct Hu as [U1 U2 U3 U4]. split; [done|done|rewrite Es; done|rewrite Es; done].
    + exfalso. apply (Hmap (Z.of_nat (length l) + k)); [lia|]. by rewrite Z.add_assoc.
  - intros l s s' [Hu Hl] F. apply opframe_fsframe in F. split; [by eapply at_user_frame|by rewrite (fsframe_mem _ _ F)].
Qed.
