(* ===== verification/Uart.v ===== *)
(** * The UART driver ([kernel/uart.c]) and kernel output ([kernel/printf.c])

    The device is a list of answers to reads of its line status register, a
    list of the characters it receives, and the list of register writes it
    has seen (newest first). After the given answers it is idle: it can send
    and has received nothing. *)

From stdpp Require Import gmap strings list.
From Stdlib Require Import ZArith Lia.
From S2P Require Import Prelude KState Spinlock Sched SleepLock.
Open Scope Z_scope.
Import Spinlock Sched SleepLock.

Module Uart.

Definition RHR : Z := 0.
Definition THR : Z := 0.
Definition IER : Z := 1.
Definition FCR : Z := 2.
Definition LCR : Z := 3.
Definition LSR : Z := 5.
Definition LSR_RX_READY : Z := 1.
Definition LSR_TX_IDLE : Z := 32.
Definition UART_TX_BUF_SIZE : Z := 32.

Definition ReadLSR : K Z :=
  u <- gets k_uart;;
  match u_lsr u with
  | v :: rest => modify (set_k_uart (set_u_lsr (fun _ => rest)));; ret v
  | [] => ret LSR_TX_IDLE
  end.

Definition ReadRHR : K Z :=
  u <- gets k_uart;;
  match u_rhr u with
  | v :: rest => modify (set_k_uart (set_u_rhr (fun _ => rest)));; ret (u8 v)
  | [] => ret 0
  end.

Definition WriteReg (reg v : Z) : K unit :=
  modify (set_k_uart (set_u_writes (cons (reg, u8 v)))).

Definition uartinit : K unit :=
  WriteReg IER 0x00;;
  WriteReg LCR 0x80;;
  WriteReg 0 0x03;;
  WriteReg 1 0x00;;
  WriteReg LCR 3;;
  WriteReg FCR 7;;
  WriteReg IER 3;;
  initlock L_uart "uart".

(** One character per iteration leaves the buffer, which holds at most
    [UART_TX_BUF_SIZE]. *)
Fixpoint uartstart_loop (fuel : nat) : K unit :=
  match fuel with
  | O => nofuel
  | S f =>
      u <- gets k_uart;;
      if uart_tx_w u =? uart_tx_r u then ret tt else
      lsr <- ReadLSR;;
      if Z.land lsr LSR_TX_IDLE =? 0 then ret tt else
      u <- gets k_uart;;
      let c := s8 (uart_tx_buf u !!! Z.to_nat (uart_tx_r u mod UART_TX_BUF_SIZE)) in
      modify (set_k_uart (set_uart_tx_r (fun n => u64 (n + 1))));;
      wakeup CH_uart;;
      WriteReg THR c;;
      uartstart_loop f
  end.

Definition uartstart : K unit := uartstart_loop (S (Z.to_nat UART_TX_BUF_SIZE)).

Fixpoint uartputc_loop (c : Z) (fuel : nat) : K unit :=
  match fuel with
  | O => nofuel
  | S f =>
      u <- gets k_uart;;
      if uart_tx_w u =? u64 (uart_tx_r u + UART_TX_BUF_SIZE) then
        sleep CH_uart L_uart;;
        uartputc_loop c f
      else
        modify (set_k_uart (fun u =>
          set_uart_tx_buf (insert (Z.to_nat (uart_tx_w u mod UART_TX_BUF_SIZE)) (u8 c)) u));;
        modify (set_k_uart (set_uart_tx_w (fun n => u64 (n + 1))));;
        uartstart;;
        release L_uart
  end.

Definition uartputc (c : Z) : K unit :=
  acquire L_uart;;
  panicked <- gets k_panicked;;
  if panicked : bool then hang else
  uartputc_loop c sleep_fuel.

Fixpoint wait_tx_idle (fuel : nat) : K unit :=
  match fuel with
  | O => nofuel
  | S f =>
      lsr <- ReadLSR;;
      if Z.land lsr LSR_TX_IDLE =? 0 then wait_tx_idle f else ret tt
  end.

(** The wait ends at the latest when the listed answers run out. *)
Definition uartputc_sync (c : Z) : K unit :=
  push_off;;
  panicked <- gets k_panicked;;
  if panicked : bool then hang else
  u <- gets k_uart;;
  wait_tx_idle (S (length (u_lsr u)));;
  WriteReg THR c;;
  pop_off.

Definition uartgetc : K Z :=
  lsr <- ReadLSR;;
  if negb (Z.land lsr 0x01 =? 0) then ReadRHR else ret (-1).

End Uart.

Module Printf.
Import Uart.

Definition BACKSPACE : Z := 0x100.

Definition consputc (c : Z) : K unit :=
  if c =? BACKSPACE then
    uartputc_sync 8;; uartputc_sync 32;; uartputc_sync 8
  else uartputc_sync c.

Fixpoint consputs (l : list Z) : K unit :=
  match l with
  | [] => ret tt
  | c :: l' => consputc c;; consputs l'
  end.

(** The characters of a string literal. *)
Definition chars (s : string) : list Z :=
  map (fun c => Z.of_nat (Ascii.nat_of_ascii c)) (String.list_ascii_of_string s).

Definition digits : list Z := chars "0123456789abcdef".

(** The [do ... while] of [printint]: the digits from the lowest on. The
    local [buf] has 16 bytes. *)
Fixpoint digit_loop (x base : Z) (fuel : nat) : list Z :=
  match fuel with
  | O => []
  | S f =>
      digits !!! Z.to_nat (x mod base) ::
      (if x / base =? 0 then [] else digit_loop (x / base) base f)
  end.

(** What [printint] leaves in [buf]. *)
Definition printint_buf (xx base : Z) (sign : bool) : list Z :=
  let neg := sign && (xx <? 0) in
  let x := if neg then u32 (- xx) else u32 xx in
  digit_loop x base 16 ++ (if neg then [45] else []).

Definition printint (xx base : Z) (sign : bool) : K unit :=
  consputs (rev (printint_buf xx base sign)).

Fixpoint printptr_loop (x : Z) (k : nat) : K unit :=
  match k with
  | O => ret tt
  | S k' =>
      consputc (digits !!! Z.to_nat (Z.shiftr x 60));;
      printptr_loop (u64 (Z.shiftl x 4)) k'
  end.

Definition printptr (x : Z) : K unit :=
  consputc 48;; consputc 120;; printptr_loop x 16.

(** The variable arguments of [printf]. *)
Inductive varg :=
| VA_int (n : Z)
| VA_ptr (p : Z)
| VA_str (s : option (list Z)).

(** [for(; *s; s++) consputc( *s);] *)
Fixpoint put_cstr (s : list Z) : K unit :=
  match s with
  | [] => ret tt
  | c :: s' => if c =? 0 then ret tt else consputc (s8 c);; put_cstr s'
  end.

Definition va_int (ap : list varg) : K (Z * list varg) :=
  match ap with
  | VA_int n :: ap' => ret (n, ap')
  | _ => out_of_bounds "va_arg"
  end.
Definition va_ptr (ap : list varg) : K (Z * list varg) :=
  match ap with
  | VA_ptr n :: ap' => ret (n, ap')
  | _ => out_of_bounds "va_arg"
  end.
Definition va_str (ap : list varg) : K (option (list Z) * list varg) :=
  match ap with
  | VA_str n :: ap' => ret (n, ap')
  | _ => out_of_bounds "va_arg"
  end.

(** The loop over the format; [fmt] is what is left of it, without the
    terminating zero. *)
Fixpoint printf_loop (fmt : list Z) (ap : list varg) : K unit :=
  match fmt with
  | [] => ret tt
  | c :: fmt1 =>
      if c =? 0 then ret tt else
      if negb (c =? 37) then consputc c;; printf_loop fmt1 ap else
      match fmt1 with
      | [] => ret tt
      | c :: fmt2 =>
          if c =? 0 then ret tt
          else if c =? 100 then
            a <- va_int ap;; printint a.1 10 true;; printf_loop fmt2 a.2
          else if c =? 120 then
            a <- va_int ap;; printint a.1 16 true;; printf_loop fmt2 a.2
          else if c =? 112 then
            a <- va_ptr ap;; printptr a.1;; printf_loop fmt2 a.2
          else if c =? 115 then
            a <- va_str ap;;
            put_cstr (default (chars "(null)") a.1);;
            printf_loop fmt2 a.2
          else if c =? 37 then
            consputc 37;; printf_loop fmt2 ap
          else
            consputc 37;; consputc c;; printf_loop fmt2 ap
      end
  end.

Definition printf (fmt : option (list Z)) (ap : list varg) : K unit :=
  locking <- gets k_prlocking;;
  when locking (acquire L_pr);;
  match fmt with
  | None => panic "null fmt"
  | Some fmt => printf_loop fmt ap
  end;;
  when locking (release L_pr).

(** What [panic] does before it stops: [Panic] stands for the endless loop. *)
Definition panic_message (s : string) : K unit :=
  modify (set_k_prlocking (fun _ => false));;
  printf (Some (chars "panic: ")) [];;
  printf (Some (chars s)) [];;
  printf (Some [10]) [];;
  modify (set_k_panicked (fun _ => true));;
  hang.

Definition printfinit : K unit :=
  initlock L_pr "pr";;
  modify (set_k_prlocking (fun _ => true)).

(** [proc.c]: the table [states] has no entry for [USED]. *)
Definition state_name (st : procstate) : string :=
  match st with
  | UNUSED => "unused"
  | USED => "???"
  | SLEEPING => "sleep "
  | RUNNABLE => "runble"
  | RUNNING => "run   "
  | ZOMBIE => "zombie"
  end.

Fixpoint procdump_loop (i k : nat) : K unit :=
  match k with
  | O => ret tt
  | S k' =>
      p <- getproc i;;
      when (negb (bool_decide (p_state p = UNUSED)))
        (printf (Some (chars "%d %s %s"))
           [VA_int (p_pid p); VA_str (Some (chars (state_name (p_state p))));
            VA_str (Some (p_name p))];;
         printf (Some [10]) []);;
      procdump_loop (S i) k'
  end.

Definition procdump : K unit :=
  printf (Some [10]) [];;
  procdump_loop 0 NPROC.

End Printf.
