(* ===== verification/Console.v ===== *)
(** * The console ([kernel/console.c]) and the UART interrupt

    A ring buffer of input characters with a read, a write and an edit index,
    filled by the interrupt handler and emptied line by line by
    [consoleread]. *)

From stdpp Require Import gmap strings list.
From Stdlib Require Import ZArith Lia.
From S2P Require Import Prelude KState CString Spinlock Sched SleepLock Kalloc Vm Uart.
Open Scope Z_scope.
Import Spinlock Sched SleepLock Vm Uart Printf.

Module Console.

Definition INPUT_BUF : Z := 128.

(** [C(x)] of the source. *)
Definition CTRL_P : Z := 16.
Definition CTRL_U : Z := 21.
Definition CTRL_H : Z := 8.
Definition CTRL_D : Z := 4.

Definition getcons : K console := gets k_cons.
Definition setcons (g : console -> console) : K unit := modify (set_k_cons g).

(** [cons.buf[i % INPUT_BUF]] as a (signed) [char]. *)
Definition cons_at (c : console) (i : Z) : Z := s8 (cons_buf c !!! Z.to_nat (i mod INPUT_BUF)).

Fixpoint consolewrite_loop (user_src : bool) (src i n : Z) (fuel : nat) : K Z :=
  match fuel with
  | O => nofuel
  | S f =>
      if negb (i <? n) then ret i else
      r <- either_copyin user_src (u64 (src + i)) 1;;
      if r.1 =? -1 then ret i else
      uartputc (s8 (r.2 !!! O));;
      consolewrite_loop user_src src (i + 1) n f
  end.

Definition consolewrite (user_src : bool) (src n : Z) : K Z :=
  consolewrite_loop user_src src 0 n (S (Z.to_nat n)).

(** The inner wait of [consoleread]; [false] if the process was killed (the
    lock is released then). *)
Fixpoint consoleread_wait (fuel : nat) : K bool :=
  match fuel with
  | O => nofuel
  | S f =>
      c <- getcons;;
      if cons_r c =? cons_w c then
        p <- curproc;;
        pr <- getproc p;;
        if negb (p_killed pr =? 0) then release L_cons;; ret false else
        sleep CH_cons L_cons;;
        consoleread_wait f
      else ret true
  end.

Fixpoint consoleread_loop (user_dst : bool) (dst n target : Z) (fuel : nat) : K Z :=
  match fuel with
  | O => nofuel
  | S f =>
      if negb (n >? 0) then release L_cons;; ret (s32 (target - n)) else
      ok <- consoleread_wait sleep_fuel;;
      if negb ok then ret (-1) else
      cs <- getcons;;
      let c := cons_at cs (cons_r cs) in
      setcons (set_cons_r (fun r => u32 (r + 1)));;
      if c =? CTRL_D then
        when (n <? target) (setcons (set_cons_r (fun r => u32 (r - 1))));;
        release L_cons;; ret (s32 (target - n))
      else
      r <- either_copyout user_dst dst [u8 c];;
      if r =? -1 then release L_cons;; ret (s32 (target - n)) else
      if c =? 10 then release L_cons;; ret (s32 (target - (n - 1)))
      else consoleread_loop user_dst (u64 (dst + 1)) (n - 1) target f
  end.

Definition consoleread (user_dst : bool) (dst n : Z) : K Z :=
  acquire L_cons;;
  consoleread_loop user_dst dst n (u32 n) (S (Z.to_nat n)).

(** The loop of control-U erases at most the [INPUT_BUF] characters being
    edited. *)
Fixpoint kill_line (fuel : nat) : K unit :=
  match fuel with
  | O => nofuel
  | S f =>
      c <- getcons;;
      if negb (cons_e c =? cons_w c) && negb (cons_at c (u32 (cons_e c - 1)) =? 10) then
        setcons (set_cons_e (fun e => u32 (e - 1)));;
        consputc BACKSPACE;;
        kill_line f
      else ret tt
  end.

Definition consoleintr (c : Z) : K unit :=
  acquire L_cons;;
  (if c =? CTRL_P then procdump
   else if c =? CTRL_U then kill_line (S (Z.to_nat INPUT_BUF))
   else if (c =? CTRL_H) || (c =? 0x7f) then
     cs <- getcons;;
     when (negb (cons_e cs =? cons_w cs))
       (setcons (set_cons_e (fun e => u32 (e - 1)));;
        consputc BACKSPACE)
   else
     cs <- getcons;;
     when (negb (c =? 0) && (u32 (cons_e cs - cons_r cs) <? INPUT_BUF))
       (let c := if c =? 13 then 10 else c in
        consputc c;;
        setcons (fun cs => set_cons_buf (insert (Z.to_nat (cons_e cs mod INPUT_BUF)) (u8 c)) cs);;
        setcons (set_cons_e (fun e => u32 (e + 1)));;
        cs <- getcons;;
        when ((c =? 10) || (c =? CTRL_D) || (cons_e cs =? u32 (cons_r cs + INPUT_BUF)))
          (setcons (fun cs => set_cons_w (fun _ => cons_e cs) cs);;
           wakeup CH_cons)));;
  release L_cons.

Definition CONSOLE : nat := 1.

Definition consoleinit : K unit :=
  initlock L_cons "cons";;
  uartinit;;
  modify (set_k_devsw (alter (set_d_read (fun _ => Some DEV_console)) CONSOLE));;
  modify (set_k_devsw (alter (set_d_write (fun _ => Some DEV_console)) CONSOLE)).

(** [uart.c]: a character is read as long as the listed answers say so. *)
Fixpoint uartintr_loop (fuel : nat) : K unit :=
  match fuel with
  | O => nofuel
  | S f =>
      c <- uartgetc;;
      if c =? -1 then ret tt else
      consoleintr c;;
      uartintr_loop f
  end.

Definition uartintr : K unit :=
  u <- gets k_uart;;
  uartintr_loop (S (length (u_lsr u)));;
  acquire L_uart;;
  uartstart;;
  release L_uart.

End Console.
