(* ===== verification/File.v ===== *)
(** * Open files and pipes ([kernel/file.c], [kernel/pipe.c])

    The system-wide file table with its reference counts, the pipes (each in
    a page of its own, named by the page's address), and the dispatch of
    reads and writes to pipes, devices and inodes. *)

From stdpp Require Import gmap strings list.
From Stdlib Require Import ZArith Lia.
From S2P Require Import Prelude KState CString Spinlock Sched SleepLock Kalloc Vm Bio Log Fs Uart Console.
Open Scope Z_scope.
Import Spinlock Sched SleepLock Kalloc Vm Log Fs Console.

Module File.

Definition fileinit : K unit := initlock L_ftable "ftable".

Fixpoint filealloc_loop (f k : nat) : K (option nat) :=
  match k with
  | O => release L_ftable;; ret None
  | S k' =>
      fl <- getfile f;;
      if f_ref fl =? 0 then
        setfile f (set_f_ref (fun _ => 1));;
        release L_ftable;;
        ret (Some f)
      else filealloc_loop (S f) k'
  end.

Definition filealloc : K (option nat) :=
  acquire L_ftable;;
  filealloc_loop 0 NFILE.

Definition filedup (f : nat) : K nat :=
  acquire L_ftable;;
  fl <- getfile f;;
  if f_ref fl <? 1 then panic "filedup" else
  setfile f (set_f_ref (fun n => n + 1));;
  release L_ftable;;
  ret f.

Definition PIPESIZE : Z := 512.

(** Freeing the page of a pipe overwrites the pipe. *)
Definition pipeclose (pi : Z) (writable : bool) : K unit :=
  acquire (L_pipe pi);;
  (if writable then
     setpipe pi (set_pi_writeopen (fun _ => 0));;
     wakeup (CH_nread pi)
   else
     setpipe pi (set_pi_readopen (fun _ => 0));;
     wakeup (CH_nwrite pi));;
  p <- getpipe pi;;
  if (pi_readopen p =? 0) && (pi_writeopen p =? 0) then
    release (L_pipe pi);;
    modify (set_k_pipes (delete pi));;
    kfree pi
  else release (L_pipe pi).

Definition fileclose (f : nat) : K unit :=
  acquire L_ftable;;
  fl <- getfile f;;
  if f_ref fl <? 1 then panic "fileclose" else
  setfile f (set_f_ref (fun n => n - 1));;
  fl <- getfile f;;
  if f_ref fl >? 0 then release L_ftable else
  let ff := fl in
  setfile f (set_f_ref (fun _ => 0));;
  setfile f (set_f_type (fun _ => FD_NONE));;
  release L_ftable;;
  match f_type ff with
  | FD_PIPE => pipeclose (f_pipe ff) (f_writable ff)
  | FD_INODE | FD_DEVICE =>
      begin_op;;
      ip <- deref (f_ip ff);;
      iput ip;;
      end_op
  | FD_NONE => ret tt
  end.

(** The [bad] exit of [pipealloc]. *)
Definition pipealloc_bad (f0 f1 : option nat) : K (option (nat * nat)) :=
  match f0 with Some f => fileclose f | None => ret tt end;;
  match f1 with Some f => fileclose f | None => ret tt end;;
  ret None.

(** A page fresh from [kalloc] is filled with fives. *)
Definition fresh_pipe : pipe := mkpipe (replicate (Z.to_nat PIPESIZE) 5) 0 0 1 1.

(** The two files, or [None] for the result [-1]. *)
Definition pipealloc : K (option (nat * nat)) :=
  f0 <- filealloc;;
  match f0 with
  | None => pipealloc_bad None None
  | Some a =>
      f1 <- filealloc;;
      match f1 with
      | None => pipealloc_bad (Some a) None
      | Some b =>
          pi <- kalloc;;
          if pi =? 0 then pipealloc_bad (Some a) (Some b) else
          modify (set_k_pipes (insert pi fresh_pipe));;
          initlock (L_pipe pi) "pipe";;
          setfile a (set_f_type (fun _ => FD_PIPE));;
          setfile a (set_f_readable (fun _ => true));;
          setfile a (set_f_writable (fun _ => false));;
          setfile a (set_f_pipe (fun _ => pi));;
          setfile b (set_f_type (fun _ => FD_PIPE));;
          setfile b (set_f_readable (fun _ => false));;
          setfile b (set_f_writable (fun _ => true));;
          setfile b (set_f_pipe (fun _ => pi));;
          ret (Some (a, b))
      end
  end.

Fixpoint pipewrite_loop (pi : Z) (pr : nat) (addr i n : Z) (fuel : nat) : K Z :=
  match fuel with
  | O => nofuel
  | S f =>
      if negb (i <? n) then
        wakeup (CH_nread pi);; release (L_pipe pi);; ret i
      else
      p <- getpipe pi;;
      q <- getproc pr;;
      if (pi_readopen p =? 0) || negb (p_killed q =? 0) then
        release (L_pipe pi);; ret (-1)
      else if pi_nwrite p =? u32 (pi_nread p + PIPESIZE) then
        wakeup (CH_nread pi);;
        sleep (CH_nwrite pi) (L_pipe pi);;
        pipewrite_loop pi pr addr i n f
      else
        r <- copyin (p_pagetable q) (u64 (addr + i)) 1;;
        if r.1 =? -1 then
          wakeup (CH_nread pi);; release (L_pipe pi);; ret i
        else
          setpipe pi (fun p =>
            set_pi_data (insert (Z.to_nat (pi_nwrite p mod PIPESIZE)) (r.2 !!! O)) p);;
          setpipe pi (set_pi_nwrite (fun w => u32 (w + 1)));;
          pipewrite_loop pi pr addr (i + 1) n f
  end.

(** [n] bytes to store, and the waits for space. *)
Definition pipewrite (pi addr n : Z) : K Z :=
  pr <- curproc;;
  acquire (L_pipe pi);;
  pipewrite_loop pi pr addr 0 n (S (Z.to_nat n + sleep_fuel)).

(** The wait for data; [false] if the process was killed. *)
Fixpoint piperead_wait (pi : Z) (pr : nat) (fuel : nat) : K bool :=
  match fuel with
  | O => nofuel
  | S f =>
      p <- getpipe pi;;
      if (pi_nread p =? pi_nwrite p) && negb (pi_writeopen p =? 0) then
        q <- getproc pr;;
        if negb (p_killed q =? 0) then release (L_pipe pi);; ret false else
        sleep (CH_nread pi) (L_pipe pi);;
        piperead_wait pi pr f
      else ret true
  end.

Fixpoint piperead_copy (pi : Z) (pr : nat) (addr i n : Z) (fuel : nat) : K Z :=
  match fuel with
  | O => nofuel
  | S f =>
      if negb (i <? n) then ret i else
      p <- getpipe pi;;
      if pi_nread p =? pi_nwrite p then ret i else
      let ch := pi_data p !!! Z.to_nat (pi_nread p mod PIPESIZE) in
      setpipe pi (set_pi_nread (fun r => u32 (r + 1)));;
      q <- getproc pr;;
      r <- copyout (p_pagetable q) (u64 (addr + i)) [ch];;
      if r =? -1 then ret i else
      piperead_copy pi pr addr (i + 1) n f
  end.

Definition piperead (pi addr n : Z) : K Z :=
  pr <- curproc;;
  acquire (L_pipe pi);;
  ok <- piperead_wait pi pr sleep_fuel;;
  if negb ok then ret (-1) else
  i <- piperead_copy pi pr addr 0 n (S (Z.to_nat n));;
  wakeup (CH_nwrite pi);;
  release (L_pipe pi);;
  ret i.

(** The local [struct stat st]. *)
Definition loc_filestat_st : Z := 64.

Definition filestat (f : nat) (addr : Z) : K Z :=
  p <- myproc;;
  fl <- getfile f;;
  match f_type fl with
  | FD_INODE | FD_DEVICE =>
      st <- local loc_filestat_st;;
      ilock (f_ip fl);;
      ip <- deref (f_ip fl);;
      stati ip st;;
      iunlock (f_ip fl);;
      p <- deref p;;
      pr <- getproc p;;
      bs <- gets (fun s => ldbytes (k_mem s) st (Z.to_nat sizeof_stat));;
      r <- copyout (p_pagetable pr) addr bs;;
      if r <? 0 then ret (-1) else ret 0
  | _ => ret (-1)
  end.

(** [devsw[major]] for a [major] that passes the bounds check. *)
Definition devsw_at (major : Z) : K (option devsw) :=
  if (major <? 0) || (major >=? NDEV) then ret None
  else gets (fun s => k_devsw s !! Z.to_nat major).

Definition fileread (f : nat) (addr n : Z) : K Z :=
  fl <- getfile f;;
  if negb (f_readable fl) then ret (-1) else
  match f_type fl with
  | FD_PIPE => piperead (f_pipe fl) addr n
  | FD_DEVICE =>
      d <- devsw_at (f_major fl);;
      match d ≫= d_read with
      | None => ret (-1)
      | Some DEV_console => consoleread true addr n
      end
  | FD_INODE =>
      ilock (f_ip fl);;
      ip <- deref (f_ip fl);;
      fl <- getfile f;;
      r <- readi ip true addr (f_off fl) (u32 n);;
      when (r >? 0) (setfile f (set_f_off (fun o => u32 (o + r))));;
      iunlock (f_ip fl);;
      ret r
  | FD_NONE => panic "fileread"
  end.

(** [((MAXOPBLOCKS-1-1-2) / 2) * BSIZE] *)
Definition write_max : Z := (MAXOPBLOCKS - 1 - 1 - 2) / 2 * BSIZE.

(** How many bytes were written by the complete chunks. *)
Fixpoint filewrite_loop (f : nat) (addr i n : Z) (fuel : nat) : K Z :=
  match fuel with
  | O => nofuel
  | S fu =>
      if negb (i <? n) then ret i else
      let n1 := if n - i >? write_max then write_max else n - i in
      begin_op;;
      fl <- getfile f;;
      ilock (f_ip fl);;
      ip <- deref (f_ip fl);;
      fl <- getfile f;;
      r <- writei ip true (u64 (addr + i)) (f_off fl) (u32 n1);;
      when (r >? 0) (setfile f (set_f_off (fun o => u32 (o + r))));;
      iunlock (f_ip fl);;
      end_op;;
      if negb (r =? n1) then ret i else
      filewrite_loop f addr (i + r) n fu
  end.

Definition filewrite (f : nat) (addr n : Z) : K Z :=
  fl <- getfile f;;
  if negb (f_writable fl) then ret (-1) else
  match f_type fl with
  | FD_PIPE => pipewrite (f_pipe fl) addr n
  | FD_DEVICE =>
      d <- devsw_at (f_major fl);;
      match d ≫= d_write with
      | None => ret (-1)
      | Some DEV_console => consolewrite true addr n
      end
  | FD_INODE =>
      i <- filewrite_loop f addr 0 n (S (S (Z.to_nat (n / write_max))));;
      ret (if i =? n then n else -1)
  | FD_NONE => panic "filewrite"
  end.

End File.
