(* ===== verification/PipeProps.v ===== *)
(** * Pipes are first-in first-out queues ([kernel/pipe.c])

    A pipe stands for the queue of the bytes between its read and its write
    counter. [pipewrite] and [piperead] sleep, so between any two of their
    steps other processes use the same pipe: the theorems say what each does
    to the queue between two switches, and what it has done in all when it
    returns. *)

From stdpp Require Import gmap strings list.
From Stdlib Require Import ZArith Lia.
From S2P Require Import Prelude KState CString Spinlock Sched SleepLock Kalloc Vm VmProps VmCopy Bio Bcache Log LogProps LogTx FsTx Fs FsBlocks FsFile FsInode FsWrite FsRead FsCopy Uart Console File.
Open Scope Z_scope.
Import Spinlock Sched SleepLock Vm File SpinlockProps SchedProps SleepLockProps KallocProps.

(** ** The queue *)

(** The counters wrap at [2 ^ 32], a multiple of [PIPESIZE]. *)
Definition qlen (p : pipe) : Z := u32 (pi_nwrite p - pi_nread p).

Definition qbyte (p : pipe) (k : Z) : Z := pi_data p !!! Z.to_nat ((pi_nread p + k) mod PIPESIZE).

Definition queue (p : pipe) : list Z := (fun k => qbyte p (Z.of_nat k)) <$> seq 0 (Z.to_nat (qlen p)).

Record pipe_ok (p : pipe) : Prop := {
  po_data : length (pi_data p) = Z.to_nat PIPESIZE;
  po_nread : 0 <= pi_nread p < 2 ^ 32;
  po_nwrite : 0 <= pi_nwrite p < 2 ^ 32;
  po_len : qlen p <= PIPESIZE }.

Definition push (ch : Z) (p : pipe) : pipe :=
  set_pi_nwrite (fun w => u32 (w + 1)) (set_pi_data (insert (Z.to_nat (pi_nwrite p mod PIPESIZE)) ch) p).
Definition pop (p : pipe) : pipe := set_pi_nread (fun r => u32 (r + 1)) p.

Lemma u32_mod x : u32 x mod PIPESIZE = x mod PIPESIZE.
Proof.
  unfold u32, PIPESIZE. symmetry. apply (Znumtheory.Zmod_div_mod 512 (2 ^ 32) x); [lia|lia|].
  by exists (2 ^ 23).
Qed.

Lemma qlen_range p : 0 <= qlen p.
Proof. apply u32_range. Qed.

Lemma length_queue p : Z.of_nat (length (queue p)) = qlen p.
Proof. unfold queue. rewrite length_fmap, length_seq. pose proof (qlen_range p). lia. Qed.

Lemma lookup_queue p k : (k < length (queue p))%nat -> queue p !! k = Some (qbyte p (Z.of_nat k)).
Proof.
  intros Hk. unfold queue in *. rewrite length_fmap, length_seq in Hk.
  by rewrite list_lookup_fmap, lookup_seq_lt.
Qed.

(** The test for a full pipe. *)
Lemma full_test p : pipe_ok p -> (pi_nwrite p =? u32 (pi_nread p + PIPESIZE)) = (qlen p =? PIPESIZE).
Proof.
  intros [_ Hr Hw _]. unfold qlen, u32, PIPESIZE in *.
  destruct (Z.eqb_spec ((pi_nwrite p - pi_nread p) mod 2 ^ 32) 512) as [E|E].
  - apply Z.eqb_eq. pose proof (Z.div_mod (pi_nwrite p - pi_nread p) (2 ^ 32)). 
    rewrite <- (Z.mod_small (pi_nwrite p) (2 ^ 32)) by lia.
    replace (pi_nwrite p) with (pi_nread p + (pi_nwrite p - pi_nread p)) at 1 by lia.
    rewrite <- Zplus_mod_idemp_r, E. done.
  - apply Z.eqb_neq. intros E'. apply E. rewrite E', Zminus_mod_idemp_l.
    replace (pi_nread p + 512 - pi_nread p) with 512 by lia. done.
Qed.

Lemma empty_test p : pipe_ok p -> (pi_nread p =? pi_nwrite p) = (qlen p =? 0).
Proof.
  intros [_ Hr Hw _]. unfold qlen, u32. destruct (Z.eqb_spec (pi_nread p) (pi_nwrite p)) as [E|E].
  - by rewrite E, Z.sub_diag.
  - symmetry. apply Z.eqb_neq. intros E'. apply E. pose proof (Z.div_mod (pi_nwrite p - pi_nread p) (2 ^ 32)). lia.
Qed.

Lemma tail_index p : (pi_nread p + qlen p) mod PIPESIZE = pi_nwrite p mod PIPESIZE.
Proof.
  rewrite <- (Zplus_mod_idemp_r (qlen p)). unfold qlen. rewrite u32_mod, Zplus_mod_idemp_r. f_equal. lia.
Qed.

Lemma index_range x : (Z.to_nat (x mod PIPESIZE) < Z.to_nat PIPESIZE)%nat.
Proof. pose proof (Z.mod_pos_bound x PIPESIZE ltac:(done)). lia. Qed.

Lemma push_len ch p : qlen p < PIPESIZE -> qlen (push ch p) = qlen p + 1.
Proof.
  intros H. pose proof (qlen_range p) as H0. unfold qlen at 1. simpl. unfold u32 at 1 2. rewrite Zminus_mod_idemp_l.
  replace (pi_nwrite p + 1 - pi_nread p) with (pi_nwrite p - pi_nread p + 1) by lia.
  rewrite <- Zplus_mod_idemp_l. fold (u32 (pi_nwrite p - pi_nread p)). fold (qlen p). apply Z.mod_small. unfold PIPESIZE in H. lia.
Qed.

Lemma push_ok ch p : pipe_ok p -> qlen p < PIPESIZE -> pipe_ok (push ch p).
Proof.
  intros [H1 H2 H3 H4] H. split; [simpl; by rewrite length_insert|done|apply u32_range|]. rewrite push_len by done. lia.
Qed.

Lemma mod_add_inj a j k : 0 <= j < PIPESIZE -> 0 <= k < PIPESIZE -> (a + j) mod PIPESIZE = (a + k) mod PIPESIZE -> j = k.
Proof.
  unfold PIPESIZE. intros Hj Hk E. pose proof (Z.div_mod (a + j) 512). pose proof (Z.div_mod (a + k) 512). lia.
Qed.

Lemma push_queue ch p : pipe_ok p -> qlen p < PIPESIZE -> queue (push ch p) = queue p ++ [ch].
Proof.
  intros Hp H. pose proof (qlen_range p) as H0. pose proof (push_len ch p H) as Hl. pose proof (length_queue p) as Hq.
  pose proof (length_queue (push ch p)) as Hq'. apply list_eq_same_length with (length (queue p) + 1)%nat; [rewrite length_app; simpl; lia|lia|].
  intros k x y Hk Hx Hy. rewrite lookup_queue in Hx by lia. injection Hx as <-. unfold qbyte. simpl.
  pose proof (po_data _ Hp) as Hd. destruct (decide (k = length (queue p))) as [->|Hne].
  - rewrite list_lookup_middle in Hy by done. injection Hy as <-. rewrite Hq, tail_index.
    apply list_lookup_total_insert_eq. rewrite Hd. apply index_range.
  - rewrite lookup_app_l, lookup_queue in Hy by lia. injection Hy as <-. unfold qbyte.
    apply list_lookup_total_insert_ne. intros E. apply Hne. rewrite <- tail_index in E.
    assert (E' : (pi_nread p + qlen p) mod PIPESIZE = (pi_nread p + Z.of_nat k) mod PIPESIZE).
    { pose proof (Z.mod_pos_bound (pi_nread p + qlen p) PIPESIZE ltac:(done)).
      pose proof (Z.mod_pos_bound (pi_nread p + Z.of_nat k) PIPESIZE ltac:(done)). lia. }
    apply mod_add_inj in E'; lia.
Qed.

Lemma pop_len p : 0 < qlen p -> qlen (pop p) = qlen p - 1.
Proof.
  intros H. pose proof (u32_range (pi_nwrite p - pi_nread p)) as H0. unfold qlen at 1. simpl. unfold u32 at 1 2. rewrite Zminus_mod_idemp_r.
  replace (pi_nwrite p - (pi_nread p + 1)) with (pi_nwrite p - pi_nread p - 1) by lia.
  rewrite <- Zminus_mod_idemp_l. fold (u32 (pi_nwrite p - pi_nread p)). fold (qlen p) in *. apply Z.mod_small. lia.
Qed.

Lemma pop_ok p : pipe_ok p -> 0 < qlen p -> pipe_ok (pop p).
Proof. intros [H1 H2 H3 H4] H. split; [done|apply u32_range|done|]. rewrite pop_len by done. lia. Qed.

Lemma pop_queue p : 0 < qlen p -> queue p = qbyte p 0 :: queue (pop p).
Proof.
  intros H. pose proof (pop_len p H) as Hl. pose proof (length_queue p) as Hq.
  pose proof (length_queue (pop p)) as Hq'. apply list_eq_same_length with (length (queue p)); [simpl; lia|done|].
  intros k x y Hk Hx Hy. rewrite lookup_queue in Hx by lia. injection Hx as <-. destruct k as [|k]; [by injection Hy|].
  cbn [lookup list_lookup] in Hy. rewrite lookup_queue in Hy by lia. injection Hy as <-. unfold qbyte. simpl pi_data. simpl pi_nread.
  f_equal. f_equal. rewrite <- (Zplus_mod_idemp_l (u32 _)), u32_mod, Zplus_mod_idemp_l. f_equal. lia.
Qed.

(** ** A process at a pipe *)

Lemma NPROC_4 : (4 < NPROC)%nat.
Proof. unfold NPROC. lia. Qed.

#[local] Opaque NPROC.

Definition queue_at (s : kstate) (pi : Z) : list Z := queue (default pipe0 (k_pipes s !! pi)).

Section User.
Context (me : nat) (pi : Z) (ts : list Z) (A : amap) (root : Z) (P : mem -> Prop).
Hypothesis (Hroot : ts !! 0%nat = Some root).

(** Process [me] runs and holds no lock; [pi] is a pipe; [me] has the address
    space [A], and its memory satisfies [P]. *)
Record at_pipe (s : kstate) : Prop := {
  ap_quiet : quiet s me;
  ap_lock : lock_free s (L_pipe pi);
  ap_space : exists fl, vmspace s fl ts A;
  ap_root : p_pagetable (k_procs s !!! me) = root;
  ap_pipe : exists p, k_pipes s !! pi = Some p /\ pipe_ok p;
  ap_mem : P (k_mem s) }.

(** The states in which [me] is switched away from and back to: its own lock
    is held, the pipe's is not. *)
Definition parked (s : kstate) : Prop := exists s2, s = acq (L_proc me) s2 /\ at_pipe s2.

(** A change of processes other than [me], of the pipe, or of the interrupt flag. *)
Lemma at_pipe_ext s s' :
  at_pipe s -> cpu_ok s' -> c_proc (k_cpu s') = c_proc (k_cpu s) -> c_noff (k_cpu s') = c_noff (k_cpu s) ->
  length (k_procs s') = length (k_procs s) -> k_locks s' = k_locks s -> k_mem s' = k_mem s -> k_freelist s' = k_freelist s ->
  p_pagetable (k_procs s' !!! me) = p_pagetable (k_procs s !!! me) ->
  (exists p, k_pipes s' !! pi = Some p /\ pipe_ok p) -> at_pipe s'.
Proof.
  intros [(Q1 & Q2 & Q3 & Q4 & Q5 & Q6) Hl (fl & Hv) Hr _ Hm] Hc E1 E2 E3 E4 E5 E6 E7 Hp. split.
  - split_and!; try congruence. intros i Hi. destruct (Q6 i Hi) as [nm H]. exists nm. by rewrite E4.
  - destruct Hl as [nm H]. exists nm. by rewrite E4.
  - exists fl. by apply (vmspace_ext s).
  - by rewrite E7.
  - done.
  - by rewrite E5.
Qed.

Definition put (p : pipe) (s : kstate) : kstate := set_k_pipes (insert pi p) s.

Lemma at_pipe_put p s : at_pipe s -> pipe_ok p -> at_pipe (put p s).
Proof.
  intros H Hp. apply (at_pipe_ext s); try done; [apply H|]. exists p. simpl. by rewrite lookup_insert_eq.
Qed.

Lemma at_pipe_woken ch s : at_pipe s -> at_pipe (set_k_procs (woken ch (Some me) 0 NPROC) s).
Proof.
  intros H. apply (at_pipe_ext s); try done; [apply H| | |apply H].
  - simpl. apply length_woken.
  - simpl. do 1 f_equal. rewrite !list_lookup_total_alt, woken_lookup. rewrite bool_decide_false by (intros Hn; by apply Hn).
    by case_decide.
Qed.

Lemma at_pipe_resumed b s g :
  (forall p, p_pagetable (g p) = p_pagetable p) -> at_pipe s -> at_pipe (set_k_procs (alter g me) (with_ie b s)).
Proof.
  intros Hg H. apply (at_pipe_ext s); try done.
  - apply cpu_ok_with_ie. apply H.
  - simpl. apply length_alter.
  - simpl. destruct (ap_quiet _ H) as (_ & _ & _ & Hlen & Hme & _). rewrite lookup_total_alter_eq by lia. apply Hg.
  - apply H.
Qed.

Lemma at_pipe_asleep ch s : at_pipe s -> at_pipe (set_k_procs (alter (asleep ch) me) s).
Proof.
  intros H. apply (at_pipe_ext s); try done; [apply H| | |apply H].
  - simpl. apply length_alter.
  - simpl. destruct (ap_quiet _ H) as (_ & _ & _ & Hlen & Hme & _). by rewrite lookup_total_alter_eq by lia.
Qed.

(** *** The steps *)

Lemma wakeup_pipe ch s :
  at_pipe s -> wakeup ch (acq (L_pipe pi) s) = Done tt (acq (L_pipe pi) (set_k_procs (woken ch (Some me) 0 NPROC) s)).
Proof.
  intros H. destruct (ap_quiet _ H) as (Hc & Hm & H0 & Hlen & Hme & Hp). rewrite wakeup_spec.
  - change (c_proc (k_cpu (acq (L_pipe pi) s))) with (c_proc (k_cpu s)). by rewrite Hm, acq_set_k_procs.
  - by apply cpu_ok_acq.
  - intros i Hi _. apply lock_free_acq; [done|]. by apply Hp.
Qed.

Lemma release_pipe s : at_pipe s -> release (L_pipe pi) (acq (L_pipe pi) s) = Done tt s.
Proof. intros H. apply release_acq; apply H. Qed.

Lemma sleep_pipe ch s :
  at_pipe s ->
  exists s1 k, sleep ch (L_pipe pi) (acq (L_pipe pi) s) = Swtch s1 k /\ parked s1 /\ k_pipes s1 = k_pipes s /\ queue_at s1 pi = queue_at s pi /\ k_mem s1 = k_mem s /\
    forall s', parked s' -> exists s2, k s' = Done tt (acq (L_pipe pi) s2) /\ at_pipe s2 /\ queue_at s2 pi = queue_at s' pi /\ k_mem s2 = k_mem s'.
Proof.
  intros H. pose proof (ap_quiet _ H) as (Hc & Hm & H0 & Hlen & Hme & Hp).
  destruct (sleep_spec ch (L_pipe pi) s me) as (k & E & Hk); [done|done|done|done|lia|apply H|by apply Hp|].
  eexists _, k. split; [exact E|]. split_and!.
  - eexists. split; [done|]. by apply at_pipe_asleep.
  - done.
  - done.
  - done.
  - intros s' (s2 & -> & H2). pose proof (ap_quiet _ H2) as (Hc2 & Hm2 & H02 & Hlen2 & Hme2 & Hp2).
    eexists. split; [apply Hk; [done|apply H2|by apply Hp2]|]. split_and!; [|done|done]. by apply at_pipe_resumed.
Qed.

Lemma getpipe_at s p l : k_pipes s !! pi = Some p -> getpipe pi (acq l s) = Done p (acq l s).
Proof. intros H. unfold getpipe, gets. simpl. by rewrite H. Qed.

Lemma setpipe_at s p g l : k_pipes s !! pi = Some p -> setpipe pi g (acq l s) = Done tt (acq l (put (g p) s)).
Proof.
  intros H. unfold setpipe, modify. rewrite acq_set_k_pipes. f_equal. f_equal. apply set_k_pipes_ext. by rewrite H.
Qed.

Lemma copyin_byte s fl va :
  vmspace s fl ts A -> 0 <= va < 2 ^ 64 ->
  (exists x, copyin root va 1 s = Done (0, [x]) s /\ ubyte (k_mem s) A va = Some x) \/
  (exists bs, copyin root va 1 s = Done (-1, bs) s /\ upage A (va / PGSIZE) = None).
Proof.
  intros H Hva. unfold copyin.
  destruct (copyin_loop_run fl ts A root Hroot (page_fuel 1) s va 1 [] H Hva) as (r & bs & E & Hb & Hr); [lia|by apply page_fuel_ok|].
  destruct Hr as [[-> Hlen]|(-> & Hlen & Hnone)]; [left|right].
  - destruct bs as [|x [|y bs]]; simpl in Hlen; try lia. exists x. split; [exact E|]. rewrite <- (Hb 0%nat x eq_refl). f_equal. simpl. lia.
  - destruct bs as [|x bs]; simpl in Hlen; [|lia]. exists []. split; [exact E|]. rewrite <- Hnone. f_equal. simpl. f_equal. lia.
Qed.

Lemma put_put p q s : put p (put q s) = put p s.
Proof. unfold put. rewrite set_set_k_pipes. apply set_k_pipes_ext. apply insert_insert_eq. Qed.

Lemma queue_put p s : queue_at (put p s) pi = queue p.
Proof. unfold queue_at. simpl. by rewrite lookup_insert_eq. Qed.
End User.

(** ** Writing *)

(** [feeds pi J so_far cnt r s0 sent Q]: the computation [r], which started (or was
    resumed) in [s0] after it had put the bytes [sent] into the pipe, only
    appends to the queue between two switches and changes no memory. What it
    has put into the pipe satisfies [so_far] at each switch, and it returns
    with [Q] of its result, all it has put into the pipe and the final state.
    Whenever it is resumed, it is in an arbitrary state that satisfies [J]. It
    may run out of fuel only after more than [cnt] switches. *)
Fixpoint feeds (pi : Z) (J : kstate -> Prop) (so_far : list Z -> Prop) (cnt : nat) (r : res kstate Z) (s0 : kstate) (sent : list Z)
    (Q : Z -> list Z -> kstate -> Prop) {struct r} : Prop :=
  match r with
  | Done i s => exists c, queue_at s pi = queue_at s0 pi ++ c /\ k_mem s = k_mem s0 /\ Q i (sent ++ c) s
  | Swtch s k =>
      exists c, queue_at s pi = queue_at s0 pi ++ c /\ k_mem s = k_mem s0 /\ J s /\ so_far (sent ++ c) /\
        forall s', J s' -> feeds pi J so_far (pred cnt) (k s') s' (sent ++ c) Q
  | NoFuel => cnt = O
  | _ => False
  end.

Section Write.
Context (me : nat) (pi : Z) (ts : list Z) (A : amap) (root addr n : Z) (U : Z -> option Z).
Hypothesis (Hroot : ts !! 0%nat = Some root) (Haddr : 0 <= addr) (Hn : 0 <= n) (Hend : addr + n < 2 ^ 64).

(** The buffer of the caller: byte [i] of it, if it can be accessed. *)
Definition buffer (m : mem) : Prop := forall i, 0 <= i < n -> ubyte m A (addr + i) = U i.

Notation at_pipe := (at_pipe me pi ts A root buffer).
Notation parked := (parked me pi ts A root buffer).

(** [l] are the first [i] bytes of the buffer. *)
Definition copied (i : Z) (l : list Z) : Prop :=
  length l = Z.to_nat i /\ forall k x, l !! k = Some x -> U (Z.of_nat k) = Some x.

Definition begun (l : list Z) : Prop := exists k, 0 <= k <= n /\ copied k l.

(** The possible results of [pipewrite]. *)
Definition wrote (i : Z) (l : list Z) (s : kstate) : Prop :=
  at_pipe s /\
  (i = n /\ copied n l \/
   0 <= i < n /\ copied i l /\ upage A ((addr + i) / PGSIZE) = None \/
   i = -1 /\ (exists k, 0 <= k < n /\ copied k l) /\
     (pi_readopen (default pipe0 (k_pipes s !! pi)) = 0 \/ p_killed (k_procs s !!! me) <> 0)).

Lemma copied_snoc i l x : 0 <= i -> copied i l -> U i = Some x -> copied (i + 1) (l ++ [x]).
Proof.
  intros Hi [H1 H2] Hx. split; [rewrite length_app; simpl; lia|]. intros k y [Hk|[Hge Hk]]%lookup_app_Some; [by apply H2|].
  apply list_lookup_singleton_Some in Hk as [Hk <-]. replace (Z.of_nat k) with i by lia. done.
Qed.

Lemma wrote_begun i l s : wrote i l s -> begun l.
Proof.
  intros (_ & [(-> & Hc)|[(Hi & Hc & _)|(_ & (k & Hk & Hc) & _)]]); [exists n|exists i|exists k]; (split; [lia|done]).
Qed.

Lemma finish_write s (i : Z) :
  at_pipe s ->
  (wakeup (CH_nread pi);; release (L_pipe pi);; ret i) (acq (L_pipe pi) s) =
    Done i (set_k_procs (woken (CH_nread pi) (Some me) 0 NPROC) s).
Proof.
  intros H. rewrite (bind_done _ _ _ _ _ (wakeup_pipe _ _ _ _ _ _ _ _ H)).
  rewrite (bind_done _ _ _ _ _ (release_pipe _ _ _ _ _ _ _ (at_pipe_woken _ _ _ _ _ _ _ _ H))). done.
Qed.

Lemma pipewrite_loop_feeds fuel cnt s i c sent s0 :
  at_pipe s -> 0 <= i <= n -> cnt = O \/ (Z.to_nat (n - i) + cnt < fuel)%nat ->
  queue_at s pi = queue_at s0 pi ++ c -> copied i (sent ++ c) -> k_mem s = k_mem s0 ->
  feeds pi parked begun cnt (pipewrite_loop pi me addr i n fuel (acq (L_pipe pi) s)) s0 sent wrote.
Proof.
  revert cnt s i c sent s0. induction fuel as [|f IH]; intros cnt s i c sent s0 H Hi Hf Hq Hc Hm; [destruct Hf; [done|lia]|]. cbn [pipewrite_loop].
  destruct (Z.ltb_spec i n) as [Hlt|Hge]; cbn [negb].
  2: { rewrite finish_write by done. cbn [feeds]. exists c. split_and!; [done|done|]. split; [by apply at_pipe_woken|]. left. replace i with n in * by lia. done. }
  pose proof (ap_pipe _ _ _ _ _ _ _ H) as (p & Hp & Hok). rewrite (bind_done _ _ _ _ _ (getpipe_at _ _ _ _ Hp)).
  unfold getproc. kstep. rewrite acq_k_procs. pose proof (ap_root _ _ _ _ _ _ _ H) as Hr.
  destruct ((pi_readopen p =? 0) || negb (p_killed (k_procs s !!! me) =? 0)) eqn:Eb.
  { rewrite (bind_done _ _ _ _ _ (release_pipe _ _ _ _ _ _ _ H)). cbn [feeds ret]. exists c. split_and!; [done|done|]. split; [done|].
    right. right. split; [done|]. split; [exists i; by split; [lia|]|]. rewrite Hp. simpl. apply orb_true_iff in Eb as [Eb|Eb]; [left|right]; lia. }
  rewrite full_test by done. destruct (Z.eqb_spec (qlen p) PIPESIZE) as [Ef|Ef].
  - rewrite (bind_done _ _ _ _ _ (wakeup_pipe _ _ _ _ _ _ _ _ H)). pose proof (at_pipe_woken _ _ _ _ _ _ (CH_nread pi) _ H) as Hw.
    destruct (sleep_pipe _ _ _ _ _ _ (CH_nwrite pi) _ Hw) as (s1 & k & E & Hpk & _ & Hq1 & Hm1 & Hk).
    unfold bind at 1. rewrite E. cbn [rbind feeds]. exists c. split_and!; [by rewrite Hq1|by rewrite Hm1|done|by exists i|].
    intros s' Hs'. destruct (Hk s' Hs') as (s2 & -> & H2 & Hq2 & Hm2). cbn [rbind].
    apply (IH (pred cnt) s2 i []); [done|done|lia|by rewrite app_nil_r|by rewrite app_nil_r|done].
  - pose proof (ap_space _ _ _ _ _ _ _ H) as (fl & Hv). rewrite Hr, u64_small by lia.
    apply (vmspace_acq _ _ _ _ (L_pipe pi)) in Hv; [|done].
    destruct (copyin_byte ts A root Hroot _ fl (addr + i) Hv ltac:(lia)) as [(x & E & Hx)|(bs & E & Hnone)]; rewrite (bind_done _ _ _ _ _ E); cbn [fst snd].
    + change (0 =? -1) with false. cbv iota. pose proof (po_len _ Hok) as Hlen. rewrite (bind_done _ _ _ _ _ (setpipe_at _ _ _ _ _ Hp)).
      erewrite bind_done by (apply setpipe_at; simpl; apply lookup_insert_eq).
      rewrite put_put. change (set_pi_nwrite _ _) with (push x p).
      apply (IH cnt _ (i + 1) (c ++ [x])); [apply at_pipe_put; [done|by apply push_ok; [|lia]]|lia|lia| | |done].
      * rewrite queue_put, push_queue by (done || lia). unfold queue_at in Hq at 1. rewrite Hp in Hq. simpl in Hq. by rewrite Hq, app_assoc.
      * rewrite app_assoc. apply copied_snoc; [lia|done|]. rewrite <- (ap_mem _ _ _ _ _ _ _ H i) by lia. exact Hx.
    + change (-1 =? -1) with true. cbv iota. rewrite finish_write by done. cbn [feeds]. exists c. split_and!; [done|done|].
      split; [by apply at_pipe_woken|]. right. left. by split_and!; [lia|lia|..].
Qed.

(** A buffer for which there is room is written without sleeping. *)
Lemma pipewrite_loop_room fuel s i :
  at_pipe s -> 0 <= i <= n -> (Z.to_nat (n - i) < fuel)%nat -> Z.of_nat (length (queue_at s pi)) + (n - i) <= PIPESIZE ->
  pi_readopen (default pipe0 (k_pipes s !! pi)) <> 0 -> p_killed (k_procs s !!! me) = 0 ->
  exists j s', pipewrite_loop pi me addr i n fuel (acq (L_pipe pi) s) = Done j s' /\ 0 <= j.
Proof.
  revert s i. induction fuel as [|f IH]; intros s i H Hi Hf Hq Hro Hk; [lia|]. cbn [pipewrite_loop].
  destruct (Z.ltb_spec i n) as [Hlt|Hge]; cbn [negb]; [|rewrite finish_write by done; eexists _, _; split; [done|lia]].
  pose proof (ap_pipe _ _ _ _ _ _ _ H) as (p & Hp & Hok). rewrite (bind_done _ _ _ _ _ (getpipe_at _ _ _ _ Hp)).
  unfold getproc. kstep. rewrite acq_k_procs, Hk, (ap_root _ _ _ _ _ _ _ H), full_test by done.
  rewrite Hp in Hro. simpl in Hro. destruct (Z.eqb_spec (pi_readopen p) 0); [done|]. cbn [orb negb Z.eqb].
  unfold queue_at in Hq. rewrite Hp in Hq. simpl in Hq. rewrite length_queue in Hq. destruct (Z.eqb_spec (qlen p) PIPESIZE); [lia|].
  pose proof (ap_space _ _ _ _ _ _ _ H) as (fl & Hv). rewrite u64_small by lia. apply (vmspace_acq _ _ _ _ (L_pipe pi)) in Hv; [|done].
  destruct (copyin_byte ts A root Hroot _ fl (addr + i) Hv ltac:(lia)) as [(x & E & _)|(bs & E & _)]; rewrite (bind_done _ _ _ _ _ E); cbn [fst snd].
  - change (0 =? -1) with false. cbv iota. rewrite (bind_done _ _ _ _ _ (setpipe_at _ _ _ _ _ Hp)).
    erewrite bind_done by (apply setpipe_at; simpl; apply lookup_insert_eq). rewrite put_put. change (set_pi_nwrite _ _) with (push x p).
    apply IH; [apply at_pipe_put; [done|apply push_ok; [done|lia]]|lia|lia| | |done].
    + rewrite queue_put, length_queue, push_len by lia. lia.
    + simpl. rewrite lookup_insert_eq. simpl. done.
  - change (-1 =? -1) with true. cbv iota. rewrite finish_write by done. eexists _, _. split; [done|lia].
Qed.

(** [pipewrite] of the caller's buffer. *)
Lemma pipewrite_room s :
  at_pipe s -> Z.of_nat (length (queue_at s pi)) + n <= PIPESIZE ->
  pi_readopen (default pipe0 (k_pipes s !! pi)) <> 0 -> p_killed (k_procs s !!! me) = 0 ->
  exists j s', pipewrite pi addr n s = Done j s' /\ 0 <= j.
Proof.
  intros H Hq Hro Hk. destruct (ap_quiet _ _ _ _ _ _ _ H) as (Hc & Hm & _). unfold pipewrite.
  rewrite (bind_done _ _ _ _ _ (curproc_spec _ _ Hc Hm)), (bind_done _ _ _ _ _ (acquire_spec _ _ (ap_lock _ _ _ _ _ _ _ H))).
  apply pipewrite_loop_room; [done|lia|lia|lia|done|done].
Qed.

Lemma pipewrite_feeds s :
  at_pipe s -> feeds pi parked begun sleep_fuel (pipewrite pi addr n s) s [] wrote.
Proof.
  intros H. destruct (ap_quiet _ _ _ _ _ _ _ H) as (Hc & Hm & _). unfold pipewrite.
  rewrite (bind_done _ _ _ _ _ (curproc_spec _ _ Hc Hm)), (bind_done _ _ _ _ _ (acquire_spec _ _ (ap_lock _ _ _ _ _ _ _ H))).
  apply (pipewrite_loop_feeds _ _ _ _ []); [done|lia|lia|by rewrite app_nil_r|by split|done].
Qed.
End Write.

(** ** Reading *)

(** [drains pi J cnt r s0 Q]: the computation [r], which started (or was
    resumed) in [s0], switches away only when the queue is empty and the pipe
    has a writer, and leaves the queue and memory alone until it is switched
    away from for the last time. Then it takes bytes from the front of the
    queue, and returns with [Q] of its result, these bytes, the state it was
    resumed in and the final state. [J] and [cnt] are as in [feeds]. *)
Fixpoint drains (pi : Z) (J : kstate -> Prop) (cnt : nat) (r : res kstate Z) (s0 : kstate)
    (Q : Z -> list Z -> kstate -> kstate -> Prop) {struct r} : Prop :=
  match r with
  | Done i s => exists c, queue_at s0 pi = c ++ queue_at s pi /\ Q i c s0 s
  | Swtch s k =>
      queue_at s0 pi = [] /\ pi_writeopen (default pipe0 (k_pipes s !! pi)) <> 0 /\ queue_at s pi = queue_at s0 pi /\ k_mem s = k_mem s0 /\ J s /\
        forall s', J s' -> drains pi J (pred cnt) (k s') s' Q
  | NoFuel => cnt = O
  | _ => False
  end.

Section Read.
Context (me : nat) (pi : Z) (ts : list Z) (A : amap) (root addr n : Z).
Hypothesis (Hroot : ts !! 0%nat = Some root) (Haddr : 0 <= addr) (Hn : 0 <= n) (Hend : addr + n < 2 ^ 64).

Notation at_pipe := (at_pipe me pi ts A root (fun _ => True)).
Notation parked := (parked me pi ts A root (fun _ => True)).
Notation pipe_of s := (default pipe0 (k_pipes s !! pi)).

(** The possible results of [piperead]: the bytes [c] it took are in the
    caller's memory from [addr] on. When it meets an address it cannot write,
    the byte it was about to store there is lost. *)
Definition got (i : Z) (c : list Z) (s0 s : kstate) : Prop :=
  at_pipe s /\ same_outside (upages A) (k_mem s0) (k_mem s) /\
  (i = -1 /\ c = [] /\ k_mem s = k_mem s0 /\ p_killed (k_procs s !!! me) <> 0 \/
   0 <= i <= n /\ ustored A (k_mem s0) (k_mem s) addr c i /\
     (i = Z.of_nat (length c) /\ (i = n \/ queue_at s pi = []) /\ (0 < n -> i = 0 -> pi_writeopen (pipe_of s) = 0) \/
      i + 1 = Z.of_nat (length c) /\ upage A ((addr + i) / PGSIZE) = None)).

(** The state of the copying loop, [c] taken and stored so far. *)
Record copying (s0 : kstate) (c : list Z) (s : kstate) : Prop := {
  cp_at : at_pipe s;
  cp_queue : queue_at s0 pi = c ++ queue_at s pi;
  cp_same : same_outside (upages A) (k_mem s0) (k_mem s);
  cp_stored : ustored A (k_mem s0) (k_mem s) addr c (Z.of_nat (length c)) }.

Lemma copyout_byte s fl va x :
  vmspace s fl ts A -> 0 <= va < 2 ^ 64 ->
  exists m' k, (copyout root va [x] s = Done 0 (set_k_mem (fun _ => m') s) /\ k = 1 \/
      copyout root va [x] s = Done (-1) (set_k_mem (fun _ => m') s) /\ k = 0 /\ upage A (va / PGSIZE) = None) /\
    vmspace (set_k_mem (fun _ => m') s) fl ts A /\ same_outside (upages A) (k_mem s) m' /\ ustored A (k_mem s) m' va [x] k.
Proof.
  intros H Hva. unfold copyout.
  destruct (copyout_loop_run fl ts A root Hroot (page_fuel 1) s va [x] H Hva) as (r & s' & k & E & Hv' & K & Hs & B & Hr); [by apply page_fuel_ok|].
  pose proof (only_memory s s' fl K (vs_free _ _ _ _ H) (vs_free _ _ _ _ Hv')) as Es.
  exists (k_mem s'), k. rewrite <- Es. split_and!; [|done..]. destruct Hr as [[-> ->]|(-> & Hk & Hnone)]; [left|right].
  - by split.
  - simpl in Hk. assert (k = 0) as -> by lia. split_and!; [done|done|]. rewrite <- Hnone. do 2 f_equal. lia.
Qed.

Lemma at_pipe_mem s g l fl :
  at_pipe s -> vmspace s fl ts A -> vmspace (set_k_mem g (acq l s)) fl ts A -> at_pipe (set_k_mem g s).
Proof.
  intros [Q Hl _ Hr Hp _] [V1 V2 _ _ _ _ _ _] [_ _ W3 W4 W5 W6 W7 W8]. split; try done. exists fl. by split.
Qed.

Lemma ustored_snoc m0 m1 m2 c x k :
  0 <= k <= 1 -> ustored A m0 m1 addr c (Z.of_nat (length c)) -> ustored A m1 m2 (addr + Z.of_nat (length c)) [x] k ->
  ustored A m0 m2 addr (c ++ [x]) (Z.of_nat (length c) + k).
Proof.
  intros Hk H1 H2 va. rewrite H2, H1. repeat case_decide; try lia; try done.
  - rewrite lookup_app_r by lia. do 2 f_equal. lia.
  - by rewrite lookup_app_l by lia.
Qed.

(** One byte is taken from the queue and given to the caller, or lost. *)
Lemma copy_byte s0 c s :
  copying s0 c s -> queue_at s pi <> [] -> Z.of_nat (length c) < n ->
  exists x s' k r, (forall f : Z -> K Z, (setpipe pi (set_pi_nread (fun r => u32 (r + 1)));; q <- getproc me;;
      r <- copyout (p_pagetable q) (u64 (addr + Z.of_nat (length c))) [x];; f r) (acq (L_pipe pi) s) = f r (acq (L_pipe pi) s')) /\
    x = pi_data (pipe_of s) !!! Z.to_nat (pi_nread (pipe_of s) mod PIPESIZE) /\
    (r = 0 /\ k = 1 \/ r = -1 /\ k = 0 /\ upage A ((addr + Z.of_nat (length c)) / PGSIZE) = None) /\
    at_pipe s' /\ queue_at s0 pi = (c ++ [x]) ++ queue_at s' pi /\ same_outside (upages A) (k_mem s0) (k_mem s') /\
    ustored A (k_mem s0) (k_mem s') addr (c ++ [x]) (Z.of_nat (length c) + k) /\ pi_writeopen (pipe_of s') = pi_writeopen (pipe_of s).
Proof.
  intros [Hat Hq Hsame Hst] Hne Hlt. pose proof (ap_pipe _ _ _ _ _ _ _ Hat) as (p & Hp & Hok).
  assert (Hlen : 0 < qlen p).
  { unfold queue_at in Hne. rewrite Hp in Hne. simpl in Hne. rewrite <- length_queue. destruct (queue p); [done|simpl; lia]. }
  pose proof (at_pipe_put _ _ _ _ _ _ _ _ Hat (pop_ok p Hok Hlen)) as Hat'. set (s1 := put pi (pop p) s) in *.
  pose proof (ap_space _ _ _ _ _ _ _ Hat') as (fl & Hv). pose proof (vmspace_acq _ _ _ _ (L_pipe pi) ltac:(done) Hv) as Hva.
  set (x := pi_data (pipe_of s) !!! Z.to_nat (pi_nread (pipe_of s) mod PIPESIZE)).
  destruct (copyout_byte _ fl (addr + Z.of_nat (length c)) x Hva ltac:(lia)) as (m' & k & Hr & Hv' & Hs' & Hst').
  exists x, (set_k_mem (fun _ => m') s1), k.
  assert (E : forall r, copyout root (addr + Z.of_nat (length c)) [x] (acq (L_pipe pi) s1) = Done r (set_k_mem (fun _ => m') (acq (L_pipe pi) s1)) ->
    forall f : Z -> K Z, (setpipe pi (set_pi_nread (fun r => u32 (r + 1)));; q <- getproc me;;
      r <- copyout (p_pagetable q) (u64 (addr + Z.of_nat (length c))) [x];; f r) (acq (L_pipe pi) s) = f r (acq (L_pipe pi) (set_k_mem (fun _ => m') s1))).
  { intros r E f. rewrite (bind_done _ _ _ _ _ (setpipe_at _ _ _ _ _ Hp)). change (set_pi_nread _ p) with (pop p). fold s1.
    unfold getproc. kstep. rewrite acq_k_procs, (ap_root _ _ _ _ _ _ _ Hat'), u64_small by lia. rewrite (bind_done _ _ _ _ _ E). by rewrite <- acq_set_k_mem. }
  assert (Hrest : at_pipe (set_k_mem (fun _ => m') s1) /\ queue_at s0 pi = (c ++ [x]) ++ queue_at (set_k_mem (fun _ => m') s1) pi /\
    same_outside (upages A) (k_mem s0) m' /\ ustored A (k_mem s0) m' addr (c ++ [x]) (Z.of_nat (length c) + k) /\
    pi_writeopen (pipe_of (set_k_mem (fun _ => m') s1)) = pi_writeopen (pipe_of s)).
  { split_and!.
    - by apply (at_pipe_mem _ _ (L_pipe pi) fl).
    - change (queue_at (set_k_mem (fun _ => m') s1) pi) with (queue_at s1 pi). unfold s1. rewrite queue_put, <- app_assoc. cbn [app].
      rewrite Hq. unfold queue_at. rewrite Hp. simpl. rewrite (pop_queue p Hlen). do 2 f_equal. unfold x. rewrite Hp. simpl.
      unfold qbyte. by rewrite Z.add_0_r.
    - eapply same_trans; [exact Hsame|exact Hs'].
    - eapply ustored_snoc; [|exact Hst|exact Hst']. destruct Hr as [[_ ->]|(_ & -> & _)]; lia.
    - simpl. by rewrite lookup_insert_eq, Hp. }
  destruct Hr as [[Er ->]|(Er & -> & Hnone)]; eexists; (split; [by apply E|]); (split; [done|]); (split; [auto|exact Hrest]).
Qed.

Lemma piperead_copy_run fuel s0 c s :
  copying s0 c s -> Z.of_nat (length c) <= n -> (Z.to_nat (n - Z.of_nat (length c)) < fuel)%nat ->
  exists i c' s', piperead_copy pi me addr (Z.of_nat (length c)) n fuel (acq (L_pipe pi) s) = Done i (acq (L_pipe pi) s') /\
    at_pipe s' /\ queue_at s0 pi = c' ++ queue_at s' pi /\ same_outside (upages A) (k_mem s0) (k_mem s') /\
    0 <= i <= n /\ ustored A (k_mem s0) (k_mem s') addr c' i /\ pi_writeopen (pipe_of s') = pi_writeopen (pipe_of s) /\
    (i = Z.of_nat (length c') /\ (i = n \/ queue_at s' pi = []) \/ i + 1 = Z.of_nat (length c') /\ upage A ((addr + i) / PGSIZE) = None).
Proof.
  revert c s. induction fuel as [|f IH]; intros c s Hcp Hc Hf; [lia|]. cbn [piperead_copy]. pose proof Hcp as [Hat Hq Hs Hst].
  destruct (Z.ltb_spec (Z.of_nat (length c)) n) as [Hlt|Hge]; cbn [negb].
  2: { exists (Z.of_nat (length c)), c, s. split_and!; try done; [lia|]. left. split; [done|left; lia]. }
  pose proof (ap_pipe _ _ _ _ _ _ _ Hat) as (p & Hp & Hok). rewrite (bind_done _ _ _ _ _ (getpipe_at _ _ _ _ Hp)).
  rewrite empty_test by done. assert (Hqa : queue_at s pi = queue p) by (unfold queue_at; by rewrite Hp).
  pose proof (length_queue p) as Hlq. destruct (Z.eqb_spec (qlen p) 0) as [E|E].
  { exists (Z.of_nat (length c)), c, s. split_and!; try done; [lia|]. left. split; [done|right]. rewrite Hqa.
    destruct (queue p); [done|simpl in Hlq; lia]. }
  destruct (copy_byte s0 c s Hcp) as (x & s' & k & r & Ef & Ex & Hr & Hat' & Hq' & Hs' & Hst' & Hwo); [|done|].
  { rewrite Hqa. intros En. rewrite En in Hlq. simpl in Hlq. lia. }
  rewrite Hp in Ex. simpl in Ex. rewrite <- Ex, Ef. destruct Hr as [[-> ->]|(-> & -> & Hnone)].
  - change (0 =? -1) with false. cbv iota. assert (El : Z.of_nat (length c) + 1 = Z.of_nat (length (c ++ [x]))) by (rewrite length_app; simpl; lia).
    rewrite El. destruct (IH (c ++ [x]) s') as (i & c' & s2 & E2 & H2); [|lia|lia|].
    + split; [done|done|done|]. by rewrite <- El.
    + exists i, c', s2. split; [exact E2|]. rewrite <- Hwo. exact H2.
  - change (-1 =? -1) with true. cbv iota. exists (Z.of_nat (length c)), (c ++ [x]), s'. rewrite Z.add_0_r in Hst'.
    split_and!; try done; [lia|]. right. split; [rewrite length_app; simpl; lia|done].
Qed.

(** The wait for data leads to a state with data or without writers. *)
Lemma piperead_wait_drains fuel cnt s s0 (f : bool -> K Z) Q :
  at_pipe s -> queue_at s pi = queue_at s0 pi -> k_mem s = k_mem s0 -> cnt = O \/ (cnt < fuel)%nat ->
  (forall cnt s s0, at_pipe s -> queue_at s pi = queue_at s0 pi -> k_mem s = k_mem s0 ->
    queue_at s pi <> [] \/ pi_writeopen (pipe_of s) = 0 -> drains pi parked cnt (f true (acq (L_pipe pi) s)) s0 Q) ->
  (forall cnt s s0, at_pipe s -> queue_at s pi = queue_at s0 pi -> k_mem s = k_mem s0 ->
    p_killed (k_procs s !!! me) <> 0 -> drains pi parked cnt (f false s) s0 Q) ->
  drains pi parked cnt (bind (piperead_wait pi me fuel) f (acq (L_pipe pi) s)) s0 Q.
Proof.
  intros H Hq Hm Hf Ht Hk. revert cnt s s0 H Hq Hm Hf. induction fuel as [|fu IH]; intros cnt s s0 H Hq Hm Hf; [destruct Hf; [done|lia]|].
  cbn [piperead_wait]. pose proof (ap_pipe _ _ _ _ _ _ _ H) as (p & Hp & Hok).
  assert (Hqa : queue_at s pi = queue p) by (unfold queue_at; by rewrite Hp). pose proof (length_queue p) as Hlq.
  unfold bind at 1. rewrite (bind_done _ _ _ _ _ (getpipe_at _ _ _ _ Hp)), empty_test by done.
  destruct ((qlen p =? 0) && negb (pi_writeopen p =? 0)) eqn:Eb.
  - unfold getproc. kstep. rewrite acq_k_procs. destruct (Z.eqb_spec (p_killed (k_procs s !!! me)) 0) as [Ek|Ek]; cbn [negb].
    + destruct (sleep_pipe _ _ _ _ _ _ (CH_nread pi) _ H) as (s1 & k & E & Hpk & Hpp & Hq1 & Hm1 & Hk1).
      apply andb_true_iff in Eb as [E0 E1]. assert (En : queue p = []) by (apply nil_length_inv; lia).
      unfold bind at 1. rewrite E. cbn [rbind drains]. split_and!; [by rewrite <- Hq, Hqa|rewrite Hpp, Hp; simpl; by destruct (Z.eqb_spec (pi_writeopen p) 0)|by rewrite Hq1|by rewrite Hm1|done|].
      intros s' Hs'. destruct (Hk1 s' Hs') as (s2 & -> & H2 & Hq2 & Hm2). cbn [rbind]. by apply IH; [..|lia].
    + rewrite (bind_done _ _ _ _ _ (release_pipe _ _ _ _ _ _ _ H)). cbn [rbind ret]. by apply Hk.
  - cbn [rbind ret]. apply Ht; [done..|]. rewrite Hqa, Hp. simpl. apply andb_false_iff in Eb as [Eb|Eb]; [left|right; lia].
    intros En. rewrite En in Hlq. simpl in Hlq. lia.
Qed.

(** From a pipe with data, [piperead] returns without sleeping. *)
Lemma piperead_ready s : at_pipe s -> queue_at s pi <> [] -> exists i s', piperead pi addr n s = Done i s'.
Proof.
  intros H Hne. destruct (ap_quiet _ _ _ _ _ _ _ H) as (Hc & Hm & _). unfold piperead.
  rewrite (bind_done _ _ _ _ _ (curproc_spec _ _ Hc Hm)), (bind_done _ _ _ _ _ (acquire_spec _ _ (ap_lock _ _ _ _ _ _ _ H))).
  pose proof (ap_pipe _ _ _ _ _ _ _ H) as (p & Hp & Hok). pose proof (length_queue p) as Hlq.
  assert (Ew : piperead_wait pi me sleep_fuel (acq (L_pipe pi) s) = Done true (acq (L_pipe pi) s)).
  { change sleep_fuel with (S (pred sleep_fuel)). generalize (pred sleep_fuel) as f. intros f. cbn [piperead_wait]. rewrite (bind_done _ _ _ _ _ (getpipe_at _ _ _ _ Hp)), empty_test by done.
    unfold queue_at in Hne. rewrite Hp in Hne. simpl in Hne. destruct (Z.eqb_spec (qlen p) 0); [|done].
    destruct (queue p); [done|simpl in Hlq; lia]. }
  rewrite (bind_done _ _ _ _ _ Ew). cbn [negb].
  destruct (piperead_copy_run (S (Z.to_nat n)) s [] s) as (i & c & s' & E & Hat & _).
  { split; [done|done|apply same_refl|]. intros va. by rewrite decide_False by (simpl; lia). }
  { simpl. lia. } { simpl. lia. }
  rewrite (bind_done _ _ _ _ _ E), (bind_done _ _ _ _ _ (wakeup_pipe _ _ _ _ _ _ _ _ Hat)).
  rewrite (bind_done _ _ _ _ _ (release_pipe _ _ _ _ _ _ _ (at_pipe_woken _ _ _ _ _ _ _ _ Hat))). by eexists _, _.
Qed.

Lemma piperead_drains s :
  at_pipe s -> drains pi parked (pred sleep_fuel) (piperead pi addr n s) s got.
Proof.
  intros H. destruct (ap_quiet _ _ _ _ _ _ _ H) as (Hc & Hm & _). unfold piperead.
  rewrite (bind_done _ _ _ _ _ (curproc_spec _ _ Hc Hm)), (bind_done _ _ _ _ _ (acquire_spec _ _ (ap_lock _ _ _ _ _ _ _ H))).
  apply piperead_wait_drains; [done|done|done|right; unfold sleep_fuel; simpl; lia|..].
  - clear s H Hc Hm. intros cnt s s0 H Hq Hm Hne. cbn [negb].
    destruct (piperead_copy_run (S (Z.to_nat n)) s0 [] s) as (i & c & s' & E & Hat & Hq' & Hs & Hi & Hst & Hwo & Hcase).
    { split; [done|by rewrite Hq|rewrite Hm; apply same_refl|]. intros va. rewrite decide_False by (simpl; lia). by rewrite Hm. }
    { simpl. lia. } { simpl. lia. }
    rewrite (bind_done _ _ _ _ _ E), (bind_done _ _ _ _ _ (wakeup_pipe _ _ _ _ _ _ _ _ Hat)).
    pose proof (at_pipe_woken _ _ _ _ _ _ (CH_nwrite pi) _ Hat) as Hat'. rewrite (bind_done _ _ _ _ _ (release_pipe _ _ _ _ _ _ _ Hat')).
    cbn [drains ret]. exists c. split; [exact Hq'|]. split; [done|]. split; [exact Hs|]. right. split; [done|]. split; [exact Hst|].
    destruct Hcase as [[-> Hfin]|Hcase]; [left|by right]. split; [done|]. split; [exact Hfin|]. intros Hn0 Hc0.
    change (pi_writeopen (pipe_of s') = 0). rewrite Hwo. destruct Hne as [Hne|]; [|done]. destruct Hne. rewrite Hq, Hq'.
    destruct c; [|simpl in Hc0; lia]. destruct Hfin as [Hfin|Hfin]; [simpl in Hfin; lia|exact Hfin].
  - intros cnt s' s0 H' Hq' Hm' Hk. cbn [negb drains ret]. exists []. split; [by rewrite Hq'|]. split; [done|]. split; [rewrite Hm'; apply same_refl|].
    left. by split_and!.
Qed.
End Read.

(** ** One writer and one reader *)

(** A thread that is about to start or to be resumed: the states in which it
    can, and what it does then. *)
Definition suspended : Type := (kstate -> Prop) * (kstate -> res kstate Z).

(** [interleaved pi Jw Jr w r s i sf]: the writer [w] and the reader [r] take
    turns in some order from state [s] on, and the reader returns [i] in state
    [sf]. Between two turns anything may happen but a change of the pipe. *)
Inductive interleaved (pi : Z) (Jw Jr : kstate -> Prop) : suspended -> suspended -> kstate -> Z -> kstate -> Prop :=
| writer_switches w r s s' s1 k i sf :
    queue_at s' pi = queue_at s pi -> w.1 s' -> w.2 s' = Swtch s1 k ->
    interleaved pi Jw Jr (Jw, k) r s1 i sf -> interleaved pi Jw Jr w r s i sf
| writer_returns w r s s' s1 j i sf :
    queue_at s' pi = queue_at s pi -> w.1 s' -> w.2 s' = Done j s1 ->
    interleaved pi Jw Jr ((fun _ => False), w.2) r s1 i sf -> interleaved pi Jw Jr w r s i sf
| reader_switches w r s s' s1 k i sf :
    queue_at s' pi = queue_at s pi -> r.1 s' -> r.2 s' = Swtch s1 k ->
    interleaved pi Jw Jr w (Jr, k) s1 i sf -> interleaved pi Jw Jr w r s i sf
| reader_returns w r s s' i sf :
    queue_at s' pi = queue_at s pi -> r.1 s' -> r.2 s' = Done i sf -> interleaved pi Jw Jr w r s i sf.

Lemma interleaved_fifo pi Jw Jr so_far Qw (Qr : Z -> list Z -> kstate -> kstate -> Prop) w r s i sf sent :
  (forall j l s, Qw j l s -> so_far l) ->
  interleaved pi Jw Jr w r s i sf -> queue_at s pi = sent -> so_far sent ->
  (forall s', w.1 s' -> exists cnt, feeds pi Jw so_far cnt (w.2 s') s' sent Qw) ->
  (forall s', r.1 s' -> exists cnt, drains pi Jr cnt (r.2 s') s' Qr) ->
  exists c rest s0, so_far (c ++ rest) /\ Qr i c s0 sf.
Proof.
  intros HQ H. revert sent. induction H as [w r s s' s1 k i sf Hq Hw E _ IH|w r s s' s1 j i sf Hq Hw E _ IH|w r s s' s1 k i sf Hq Hr E _ IH|w r s s' i sf Hq Hr E];
    intros sent Hs Hso Hfeed Hdrain.
  - destruct (Hfeed s' Hw) as (cnt & Hf). rewrite E in Hf. destruct Hf as (c & Hqc & _ & _ & Hso' & Hk).
    apply (IH (sent ++ c)); [by rewrite Hqc, Hq, Hs|done|eauto|done].
  - destruct (Hfeed s' Hw) as (cnt & Hf). rewrite E in Hf. destruct Hf as (c & Hqc & _ & HQw).
    apply (IH (sent ++ c)); [by rewrite Hqc, Hq, Hs|by eapply HQ|done|done].
  - destruct (Hdrain s' Hr) as (cnt & Hd). rewrite E in Hd. destruct Hd as (_ & _ & Hqc & _ & _ & Hk).
    apply (IH sent); [by rewrite Hqc, Hq|done|done|eauto].
  - destruct (Hdrain s' Hr) as (cnt & Hd). rewrite E in Hd. destruct Hd as (c & Hqc & HQr).
    exists c, (queue_at sf pi), s'. split; [|done]. by rewrite <- Hqc, Hq, Hs.
Qed.

(** ** The theorems *)
Module PipeClaims.

(** C20: [pipewrite] of a buffer appends the bytes of the buffer, in order and
    each once, to the queue of the pipe, whoever else uses the pipe while it
    sleeps. It returns the length of the buffer with all of it written; or the
    number of bytes before the first that cannot be read; or -1 when there is
    no reader any more or the process is killed. *)
Theorem pipewrite_appends me pi ts A root addr n U s :
  ts !! 0%nat = Some root -> 0 <= addr -> 0 <= n -> addr + n < 2 ^ 64 ->
  at_pipe me pi ts A root (buffer A addr n U) s ->
  feeds pi (parked me pi ts A root (buffer A addr n U)) (begun n U) sleep_fuel (pipewrite pi addr n s) s []
    (wrote me pi ts A root addr n U).
Proof. intros Hr Ha Hn He H. by apply pipewrite_feeds. Qed.

(** C21: [piperead] sleeps only when the pipe is empty and has a writer, and does
    not change the pipe while it waits. Then it takes bytes from the front of the
    queue and stores them in the caller's memory from [addr] on, and nothing
    else: as many as were asked for or are there, or, when it meets an address it
    cannot write, those that go before that address and one more byte, which is
    lost. It returns the number of bytes stored. That is 0 only when none were
    asked for, when the pipe is empty and has no writer, or when the first byte
    taken could not be stored. It returns -1 when the process is killed. *)
Theorem piperead_takes me pi ts A root addr n s :
  ts !! 0%nat = Some root -> 0 <= addr -> 0 <= n -> addr + n < 2 ^ 64 ->
  at_pipe me pi ts A root (fun _ => True) s ->
  drains pi (parked me pi ts A root (fun _ => True)) (pred sleep_fuel) (piperead pi addr n s) s (got me pi ts A root addr n).
Proof. intros Hr Ha Hn He H. by apply piperead_drains. Qed.

(** C19: one process writes a buffer to an empty pipe and another one reads
    from it, interleaved in any order. When the reader returns a number, its
    memory holds that many bytes from the start of the writer's buffer. *)
Theorem pipe_fifo pi wme wts wA wroot waddr wn U rme rts rA rroot raddr rn s i sf :
  wts !! 0%nat = Some wroot -> 0 <= waddr -> 0 <= wn -> waddr + wn < 2 ^ 64 ->
  rts !! 0%nat = Some rroot -> 0 <= raddr -> 0 <= rn -> raddr + rn < 2 ^ 64 ->
  queue_at s pi = [] ->
  interleaved pi (parked wme pi wts wA wroot (buffer wA waddr wn U)) (parked rme pi rts rA rroot (fun _ => True))
    (at_pipe wme pi wts wA wroot (buffer wA waddr wn U), pipewrite pi waddr wn)
    (at_pipe rme pi rts rA rroot (fun _ => True), piperead pi raddr rn) s i sf ->
  i = -1 /\ p_killed (k_procs sf !!! rme) <> 0 \/
  0 <= i <= rn /\ forall j, 0 <= j < i -> exists x, U j = Some x /\ ubyte (k_mem sf) rA (raddr + j) = Some (u8 x).
Proof.
  intros Hw1 Hw2 Hw3 Hw4 Hr1 Hr2 Hr3 Hr4 Hq H.
  destruct (interleaved_fifo pi _ _ (begun wn U) (wrote wme pi wts wA wroot waddr wn U) (got rme pi rts rA rroot raddr rn) _ _ s i sf []
    ltac:(intros j l s'; apply wrote_begun; lia) H Hq) as (c & rest & s0 & (k & _ & _ & Hc) & _ & _ & Hgot).
  - exists 0. split; [lia|]. by split.
  - intros s' Hs'. eexists. by apply pipewrite_feeds.
  - intros s' Hs'. eexists. by apply piperead_drains.
  - destruct Hgot as [(-> & _ & _ & Hk)|(Hi & Hst & Hlen)]; [by left|right]. split; [done|]. intros j Hj.
    destruct (lookup_lt_is_Some_2 c (Z.to_nat j)) as [x Hx]; [lia|]. exists x. split.
    + rewrite <- (Z2Nat.id j) by lia. apply Hc. by apply lookup_app_l_Some.
    + rewrite Hst, decide_True by lia. replace (raddr + j - raddr) with j by lia. by rewrite Hx.
Qed.

(** *** A machine with a pipe

    Process [me] runs, with the memory of [m], a page of its own at address 0,
    and the pipe [p] at address 4096. *)
Definition pipe_machine (me : nat) (p : pipe) (m : kstate) : kstate :=
  set_k_mem (fun _ => k_mem m) (set_k_freelist (fun _ => k_freelist m) (set_k_pipes (fun _ => {[4096 := p]})
    (set_k_locks (fun l => <[L_kmem := mkspinlock 0 "kmem" None]> (<[L_pipe 4096 := mkspinlock 0 "pipe" None]> l))
      (set_k_cpu (set_c_proc (fun _ => Some me)) (set_k_procs (fmap (set_p_pagetable (fun _ => RAMBASE))) wake_test_state))))).

Definition test_space : amap := {[0 := (VmUser.upage0, uperm)]}.

Lemma pipe_machine_at P me p m fl ts :
  vmspace m fl ts test_space -> (me < NPROC)%nat -> pipe_ok p -> P (k_mem m) -> at_pipe me 4096 ts test_space RAMBASE P (pipe_machine me p m).
Proof.
  intros [V1 V2 V3 V4 V5 V6 V7 V8] Hme Hp HP.
  assert (Hc : cpu_ok (pipe_machine me p m)) by (split_and!; vm_compute; done).
  assert (Hl : forall l, l <> L_kmem -> l <> L_pipe 4096 -> k_locks (pipe_machine me p m) !! l = k_locks wake_test_state !! l).
  { intros l H1 H2. change (k_locks (pipe_machine me p m)) with (<[L_kmem := mkspinlock 0 "kmem" None]> (<[L_pipe 4096 := mkspinlock 0 "pipe" None]> (k_locks wake_test_state))).
    by rewrite !lookup_insert_ne by done. }
  assert (Hlen : length (k_procs wake_test_state) = NPROC) by reflexivity.
  split.
  - split; [exact Hc|]. split; [reflexivity|]. split; [reflexivity|]. split; [reflexivity|]. split; [exact Hme|].
    intros i Hi. destruct (wake_test_locks i Hi) as [nm H]; [done|]. exists nm. by rewrite Hl.
  - exists "pipe"%string. reflexivity.
  - exists fl. split; [exact Hc|exists "kmem"%string; reflexivity|exact V3|exact V4|exact V5|exact V6|exact V7|exact V8].
  - change (k_procs (pipe_machine me p m)) with (set_p_pagetable (fun _ => RAMBASE) <$> k_procs wake_test_state).
    destruct (lookup_lt_is_Some_2 (k_procs wake_test_state) me) as [q Hq]; [by rewrite Hlen|].
    rewrite list_lookup_total_alt, list_lookup_fmap, Hq. reflexivity.
  - exists p. split; [reflexivity|done].
  - exact HP.
Qed.

(** A pipe with [l] in it. *)
Definition pipe_with (l : list Z) : pipe :=
  mkpipe (l ++ replicate (Z.to_nat PIPESIZE - length l) 5) 0 (Z.of_nat (length l)) 1 1.

Lemma pipewrite_appends_witness :
  exists m ts, let U := fun i => ubyte (k_mem m) test_space (0 + i) in
    feeds 4096 (parked 3 4096 ts test_space RAMBASE (buffer test_space 0 600 U)) (begun 600 U) sleep_fuel
      (pipewrite 4096 0 600 (pipe_machine 3 (pipe_with [7]) m)) (pipe_machine 3 (pipe_with [7]) m) []
      (wrote 3 4096 ts test_space RAMBASE 0 600 U).
Proof.
  destruct VmUser.vm_test_user as (m & fl & ts & V & Hr). exists m, ts. intros U.
  apply (pipewrite_appends 3 4096 ts test_space RAMBASE 0 600 U); [exact Hr|lia|lia|lia|].
  apply (pipe_machine_at _ 3 _ m fl ts V); [pose proof NPROC_4; lia|split; vm_compute; done|by intros i Hi].
Defined.

Lemma piperead_takes_witness :
  exists m ts, drains 4096 (parked 3 4096 ts test_space RAMBASE (fun _ => True)) (pred sleep_fuel)
      (piperead 4096 0 600 (pipe_machine 3 (pipe_with [7; 8]) m)) (pipe_machine 3 (pipe_with [7; 8]) m)
      (got 3 4096 ts test_space RAMBASE 0 600).
Proof.
  destruct VmUser.vm_test_user as (m & fl & ts & V & Hr). exists m, ts.
  apply (piperead_takes 3 4096 ts test_space RAMBASE 0 600); [exact Hr|lia|lia|lia|].
  apply (pipe_machine_at _ 3 _ m fl ts V); [pose proof NPROC_4; lia|split; vm_compute; done|done].
Defined.

(** Process 3 writes 20 bytes, then process 4 reads up to 30. *)
Lemma pipe_fifo_witness :
  exists m i sf, i = -1 /\ p_killed (k_procs sf !!! 4%nat) <> 0 \/
    0 <= i <= 30 /\ forall j, 0 <= j < i -> exists x, ubyte (k_mem m) test_space (0 + j) = Some x /\ ubyte (k_mem sf) test_space (100 + j) = Some (u8 x).
Proof.
  destruct VmUser.vm_test_user as (m & fl & ts & V & Hr). set (U := fun i => ubyte (k_mem m) test_space (0 + i)).
  assert (Hw : at_pipe 3 4096 ts test_space RAMBASE (buffer test_space 0 20 U) (pipe_machine 3 (pipe_with []) m)).
  { apply (pipe_machine_at _ 3 _ m fl ts V); [pose proof NPROC_4; lia|split; vm_compute; done|by intros i Hi]. }
  destruct (pipewrite_room 3 4096 ts test_space RAMBASE 0 20 U Hr ltac:(lia) ltac:(lia) ltac:(lia) _ Hw) as (j & s1 & E & Hj); [vm_compute; done..|].
  pose proof (pipewrite_feeds 3 4096 ts test_space RAMBASE 0 20 U Hr ltac:(lia) ltac:(lia) ltac:(lia) _ Hw) as Hf. rewrite E in Hf.
  destruct Hf as (c & Hqc & _ & Hat1 & Hres). pose proof (ap_pipe _ _ _ _ _ _ _ Hat1) as (p1 & Hp1 & Hok1).
  assert (Hrd : at_pipe 4 4096 ts test_space RAMBASE (fun _ => True) (pipe_machine 4 p1 m)).
  { by apply (pipe_machine_at _ 4 _ m fl ts V); [pose proof NPROC_4; lia|..]. }
  assert (Hq1 : queue_at (pipe_machine 4 p1 m) 4096 = queue_at s1 4096) by (unfold queue_at; simpl; by rewrite lookup_singleton_eq, Hp1).
  destruct (piperead_ready 4 4096 ts test_space RAMBASE 100 30 Hr ltac:(lia) ltac:(lia) ltac:(lia) _ Hrd) as (i & sf & Er).
  { rewrite Hq1, Hqc. intros En. destruct Hres as [[-> [Hl _]]|[(Hi & [Hl _] & Hnone)|(-> & _)]]; [| |lia].
    - apply (f_equal length) in En. rewrite length_app in En. simpl in *. lia.
    - rewrite Z.div_small in Hnone by (unfold PGSIZE; lia). vm_compute in Hnone. done. }
  exists m, i, sf. apply (pipe_fifo 4096 3 ts test_space RAMBASE 0 20 U 4 ts test_space RAMBASE 100 30 (pipe_machine 3 (pipe_with []) m)); [done|lia..|done|lia|lia|lia|reflexivity|].
  eapply (writer_returns _ _ _ _ _ _ (pipe_machine 3 (pipe_with []) m)); [reflexivity|exact Hw|exact E|].
  eapply (reader_returns _ _ _ _ _ _ (pipe_machine 4 p1 m)); [exact Hq1|exact Hrd|exact Er].
Defined.
End PipeClaims.
