(* ===== verification/ConsoleProps.v ===== *)
(** * The console edits lines ([kernel/console.c])

    The ring buffer of the console holds the lines that are complete, and the
    line being typed. The interrupt handler [consoleintr] implements a line
    editor on these two, and [consoleread] delivers the complete lines. *)

From stdpp Require Import gmap strings list.
From Stdlib Require Import ZArith Lia.
From S2P Require Import Prelude KState CString Spinlock Sched SleepLock Kalloc Vm VmProps VmCopy Bio Bcache Log LogProps LogTx FsTx Fs FsBlocks FsFile FsInode FsWrite FsRead FsCopy Uart Console File PipeProps.
Open Scope Z_scope.
Import Spinlock Sched SleepLock Vm Uart Printf Console SpinlockProps SchedProps SleepLockProps KallocProps.

(** ** The ring buffer *)

(** [n] bytes from index [a] on. *)
Definition window (buf : list Z) (a : Z) (n : nat) : list Z :=
  (fun k => buf !!! Z.to_nat ((a + Z.of_nat k) mod INPUT_BUF)) <$> seq 0 n.

Lemma length_window buf a n : length (window buf a n) = n.
Proof. unfold window. by rewrite length_fmap, length_seq. Qed.

Lemma lookup_window buf a n k : (k < n)%nat -> window buf a n !! k = Some (buf !!! Z.to_nat ((a + Z.of_nat k) mod INPUT_BUF)).
Proof. intros Hk. unfold window. by rewrite list_lookup_fmap, lookup_seq_lt. Qed.

Lemma window_app buf a n m : window buf a (n + m) = window buf a n ++ window buf (a + Z.of_nat n) m.
Proof.
  unfold window. rewrite seq_app, fmap_app. f_equal. replace (0 + n)%nat with (n + 0)%nat by lia. rewrite <- (fmap_add_seq n 0 m), <- list_fmap_compose.
  apply list_fmap_ext. intros i x _. simpl. do 3 f_equal. lia.
Qed.

Lemma u32_mod_buf x : u32 x mod INPUT_BUF = x mod INPUT_BUF.
Proof.
  unfold u32, INPUT_BUF. symmetry. apply (Znumtheory.Zmod_div_mod 128 (2 ^ 32) x); [lia|lia|]. by exists (2 ^ 25).
Qed.

Lemma window_mod buf a b n : a mod INPUT_BUF = b mod INPUT_BUF -> window buf a n = window buf b n.
Proof.
  intros E. unfold window. apply list_fmap_ext. intros i x _. do 2 f_equal.
  rewrite <- (Zplus_mod_idemp_l a), E. by rewrite Zplus_mod_idemp_l.
Qed.

Lemma window_insert buf a n x :
  length buf = Z.to_nat INPUT_BUF -> Z.of_nat n < INPUT_BUF ->
  window (<[Z.to_nat ((a + Z.of_nat n) mod INPUT_BUF) := x]> buf) a (S n) = window buf a n ++ [x].
Proof.
  intros Hl Hn. pose proof (fun y => Z.mod_pos_bound y INPUT_BUF ltac:(done)) as Hm.
  replace (S n) with (n + 1)%nat by lia. rewrite window_app. f_equal.
  - apply list_eq. intros k. destruct (decide (k < n)%nat) as [Hk|Hk].
    + rewrite !lookup_window by done. f_equal. apply list_lookup_total_insert_ne. intros E.
      apply Z2Nat.inj in E; [|apply Hm..]. unfold INPUT_BUF in *.
      pose proof (Z.div_mod (a + Z.of_nat n) 128). pose proof (Z.div_mod (a + Z.of_nat k) 128). lia.
    + by rewrite !lookup_ge_None_2 by (rewrite length_window; lia).
  - unfold window. simpl. rewrite Z.add_0_r. f_equal. apply list_lookup_total_insert_eq. rewrite Hl.
    pose proof (Hm (a + Z.of_nat n)). lia.
Qed.

(** ** The console's state

    [cm] are the bytes that [consoleread] may take, [ed] those that are being
    edited. *)
Record cons_rep (c : console) (cm ed : list Z) : Prop := {
  cr_buf : length (cons_buf c) = Z.to_nat INPUT_BUF;
  cr_r : 0 <= cons_r c < 2 ^ 32;
  cr_w : cons_w c = u32 (cons_r c + Z.of_nat (length cm));
  cr_e : cons_e c = u32 (cons_r c + Z.of_nat (length (cm ++ ed)));
  cr_len : Z.of_nat (length (cm ++ ed)) <= INPUT_BUF;
  cr_text : window (cons_buf c) (cons_r c) (length (cm ++ ed)) = cm ++ ed }.

Definition append (x : Z) (c : console) : console :=
  set_cons_e (fun e => u32 (e + 1)) (set_cons_buf (insert (Z.to_nat (cons_e c mod INPUT_BUF)) x) c).

Lemma u32_add x y : u32 (u32 x + y) = u32 (x + y).
Proof. unfold u32. by rewrite Zplus_mod_idemp_l. Qed.

Lemma rep_append c cm ed x :
  cons_rep c cm ed -> Z.of_nat (length (cm ++ ed)) < INPUT_BUF -> cons_rep (append x c) cm (ed ++ [x]).
Proof.
  intros [H1 H2 H3 H4 H5 H6] H. assert (El : length (cm ++ ed ++ [x]) = S (length (cm ++ ed))) by (rewrite !length_app; simpl; lia).
  split; simpl; [by rewrite length_insert|done|done| | |].
  - rewrite H4, u32_add, El. f_equal. lia.
  - rewrite El. lia.
  - rewrite El, H4, u32_mod_buf, window_insert by done. by rewrite H6, app_assoc.
Qed.

Lemma rep_commit c cm ed : cons_rep c cm ed -> cons_rep (set_cons_w (fun _ => cons_e c) c) (cm ++ ed) [].
Proof. intros [H1 H2 H3 H4 H5 H6]. split; simpl; rewrite ?app_nil_r; try done. Qed.

Lemma rep_erase c cm ed x : cons_rep c cm (ed ++ [x]) -> cons_rep (set_cons_e (fun e => u32 (e - 1)) c) cm ed.
Proof.
  intros [H1 H2 H3 H4 H5 H6]. assert (El : length (cm ++ ed ++ [x]) = (length (cm ++ ed) + 1)%nat) by (rewrite !length_app; simpl; lia).
  rewrite El in *. split; simpl; [done|done|done| |lia|].
  - rewrite H4. unfold Z.sub. rewrite u32_add. f_equal. lia.
  - rewrite window_app, app_assoc in H6. apply app_inj_2 in H6; [by destruct H6|done].
Qed.

Lemma rep_take c x cm ed :
  cons_rep c (x :: cm) ed ->
  cons_buf c !!! Z.to_nat (cons_r c mod INPUT_BUF) = x /\ cons_rep (set_cons_r (fun r => u32 (r + 1)) c) cm ed.
Proof.
  intros [H1 H2 H3 H4 H5 H6]. cbn [app length] in *. change (S (length (cm ++ ed))) with (1 + length (cm ++ ed))%nat in H6.
  rewrite window_app in H6. unfold window at 1 in H6. simpl in H6. injection H6 as H6 H7. rewrite Z.add_0_r in H6. split; [done|].
  split; simpl; [done|apply u32_range| | |lia|].
  - rewrite H3, u32_add. f_equal. lia.
  - rewrite H4, u32_add. f_equal. lia.
  - rewrite <- H7 at 2. apply window_mod. apply u32_mod_buf.
Qed.

Lemma u32_inj_add r a b : 0 <= a < 2 ^ 32 -> 0 <= b < 2 ^ 32 -> u32 (r + a) = u32 (r + b) -> a = b.
Proof.
  unfold u32. intros Ha Hb E. pose proof (Z.div_mod (r + a) (2 ^ 32)). pose proof (Z.div_mod (r + b) (2 ^ 32)). lia.
Qed.

(** The tests of the code. *)
Lemma edit_empty c cm ed : cons_rep c cm ed -> (cons_e c =? cons_w c) = bool_decide (ed = []).
Proof.
  intros [H1 H2 H3 H4 H5 H6]. rewrite H3, H4. rewrite length_app in *. unfold INPUT_BUF in H5. case_bool_decide as E.
  - rewrite E. simpl. rewrite Nat.add_0_r. apply Z.eqb_refl.
  - apply Z.eqb_neq. intros Heq. apply u32_inj_add in Heq; [|lia|lia]. destruct ed; [done|]. simpl in Heq. lia.
Qed.

Lemma read_empty c cm ed : cons_rep c cm ed -> (cons_r c =? cons_w c) = bool_decide (cm = []).
Proof.
  intros [H1 H2 H3 H4 H5 H6]. rewrite length_app in *. unfold INPUT_BUF in H5. rewrite H3.
  rewrite <- (u32_small (cons_r c)) at 1 by done. rewrite <- (Z.add_0_r (cons_r c)) at 1. case_bool_decide as E.
  - rewrite E. simpl. apply Z.eqb_refl.
  - apply Z.eqb_neq. intros Heq. apply u32_inj_add in Heq; [|lia|lia]. destruct cm; [done|]. simpl in Heq. lia.
Qed.

Lemma text_len c cm ed : cons_rep c cm ed -> u32 (cons_e c - cons_r c) = Z.of_nat (length (cm ++ ed)).
Proof.
  intros [H1 H2 H3 H4 H5 H6]. rewrite H4. unfold Z.sub. rewrite u32_add.
  replace (cons_r c + Z.of_nat (length (cm ++ ed)) + - cons_r c) with (Z.of_nat (length (cm ++ ed))) by lia.
  apply u32_small. unfold INPUT_BUF in H5. lia.
Qed.

Lemma text_full c cm ed : cons_rep c cm ed -> (cons_e c =? u32 (cons_r c + INPUT_BUF)) = (Z.of_nat (length (cm ++ ed)) =? INPUT_BUF).
Proof.
  intros [H1 H2 H3 H4 H5 H6]. rewrite H4. destruct (Z.eqb_spec (Z.of_nat (length (cm ++ ed))) INPUT_BUF) as [->|E]; [apply Z.eqb_refl|].
  apply Z.eqb_neq. intros Heq. apply u32_inj_add in Heq; [done|unfold INPUT_BUF in *; lia..].
Qed.

(** ** Echo *)

Lemma ReadLSR_run s : exists v u, ReadLSR s = Done v (set_k_uart (fun _ => u) s) /\
  (v = LSR_TX_IDLE \/ u_lsr (k_uart s) = v :: u_lsr u).
Proof.
  unfold ReadLSR. destruct (u_lsr (k_uart s)) as [|v rest] eqn:E.
  - exists LSR_TX_IDLE, (k_uart s). rewrite set_k_uart_id by done. split; [|by left]. kstep. by prw E.
  - exists v, (set_u_lsr (fun _ => rest) (k_uart s)). split; [|by right]. kstep. prw E. kstep. unfold ret. done.
Qed.

Lemma wait_tx_idle_run fuel s : (length (u_lsr (k_uart s)) < fuel)%nat -> exists u, wait_tx_idle fuel s = Done tt (set_k_uart (fun _ => u) s).
Proof.
  revert s. induction fuel as [|f IH]; intros s Hf; [lia|]. cbn [wait_tx_idle].
  destruct (ReadLSR_run s) as (v & u & E & Hv). rewrite (bind_done _ _ _ _ _ E).
  destruct (Z.land v LSR_TX_IDLE =? 0) eqn:Ev; [|by exists u]. destruct Hv as [->|Hv]; [done|].
  destruct (IH (set_k_uart (fun _ => u) s)) as (u' & Eu); [rewrite Hv in Hf; simpl in *; lia|].
  exists u'. by rewrite Eu, set_set_k_uart.
Qed.

Lemma uartputc_sync_run c s :
  cpu_ok s -> k_panicked s = false -> exists u, uartputc_sync c s = Done tt (set_k_uart (fun _ => u) s).
Proof.
  intros Hc Hp. unfold uartputc_sync. rewrite (bind_done _ _ _ _ _ (push_off_spec s)). kstep.
  change (k_panicked (pushed s)) with (k_panicked s). rewrite Hp. kstep.
  destruct (wait_tx_idle_run (S (length (u_lsr (k_uart (pushed s))))) (pushed s)) as (u & E); [lia|].
  rewrite (bind_done _ _ _ _ _ E). unfold WriteReg. kstep. eexists. rewrite set_set_k_uart.
  change (set_k_uart ?g (pushed s)) with (pushed (set_k_uart g s)). rewrite pop_off_pushed by done. reflexivity.
Qed.

Lemma consputc_run c s :
  cpu_ok s -> k_panicked s = false -> exists u, consputc c s = Done tt (set_k_uart (fun _ => u) s).
Proof.
  intros Hc Hp. unfold consputc. destruct (c =? BACKSPACE); [|by apply uartputc_sync_run].
  destruct (uartputc_sync_run 8 s Hc Hp) as (u1 & E1). rewrite (bind_done _ _ _ _ _ E1).
  destruct (uartputc_sync_run 32 (set_k_uart (fun _ => u1) s) Hc Hp) as (u2 & E2). rewrite (bind_done _ _ _ _ _ E2), set_set_k_uart.
  destruct (uartputc_sync_run 8 (set_k_uart (fun _ => u2) s) Hc Hp) as (u3 & E3). exists u3. rewrite E3, set_set_k_uart. done.
Qed.

(** ** The line editor *)

(** What a key does to the complete lines [cm] and the line [ed] being typed:
    control-U erases the line, control-H and delete its last character; other
    characters are added while the buffer has room, and the line is complete
    with a newline, with control-D or when the buffer is full. *)
Definition key (c : Z) (st : list Z * list Z) : list Z * list Z :=
  let '(cm, ed) := st in
  if c =? CTRL_U then (cm, [])
  else if (c =? CTRL_H) || (c =? 0x7f) then (cm, take (pred (length ed)) ed)
  else if negb (c =? 0) && (Z.of_nat (length (cm ++ ed)) <? INPUT_BUF) then
    let c := if c =? 13 then 10 else c in
    let ed := ed ++ [u8 c] in
    if (c =? 10) || (c =? CTRL_D) || (Z.of_nat (length (cm ++ ed)) =? INPUT_BUF) then (cm ++ ed, []) else (cm, ed)
  else (cm, ed).

(** The line being typed has no newline. *)
Definition open_line (ed : list Z) : Prop := Forall (fun x => byte_range x /\ x <> 10) ed.

Lemma s8_newline x : byte_range x -> x <> 10 -> (s8 x =? 10) = false.
Proof.
  intros Hx Hne. apply Z.eqb_neq. intros E. apply Hne. rewrite <- (u8_small x Hx), <- u8_s8, E. reflexivity.
Qed.

Definition with_cons (u : uart) (c : console) (s : kstate) : kstate := set_k_uart (fun _ => u) (set_k_cons (fun _ => c) s).

Lemma with_cons_same s : with_cons (k_uart s) (k_cons s) s = s.
Proof. unfold with_cons. rewrite set_k_cons_id by done. by apply set_k_uart_id. Qed.

Lemma rep_last c cm ed x :
  cons_rep c cm (ed ++ [x]) -> cons_at c (u32 (cons_e c - 1)) = s8 x.
Proof.
  intros [H1 H2 H3 H4 H5 H6]. unfold cons_at. f_equal. rewrite u32_mod_buf, H4. unfold Z.sub.
  rewrite <- Zplus_mod_idemp_l, u32_mod_buf, Zplus_mod_idemp_l, app_assoc in *.
  assert (El : length ((cm ++ ed) ++ [x]) = S (length (cm ++ ed))) by (rewrite length_app; simpl; lia).
  apply (f_equal (fun l => l !! length (cm ++ ed))) in H6. rewrite list_lookup_middle, lookup_window in H6 by (done || lia).
  injection H6 as <-. do 3 f_equal. lia.
Qed.

Section Intr.
Context (s : kstate).
Hypothesis (Hcpu : cpu_ok s) (Hpan : k_panicked s = false) (Hlock : lock_free s L_cons).

(** Echo while the console is locked. *)
Lemma echo_run c u cn : exists u', consputc c (acq L_cons (with_cons u cn s)) = Done tt (acq L_cons (with_cons u' cn s)).
Proof.
  destruct (consputc_run c (acq L_cons (with_cons u cn s))) as (u' & E); [by apply cpu_ok_acq|done|].
  exists u'. rewrite E. rewrite acq_set_k_uart. reflexivity.
Qed.

Lemma setcons_run g u cn : setcons g (acq L_cons (with_cons u cn s)) = Done tt (acq L_cons (with_cons u (g cn) s)).
Proof. unfold setcons, modify. rewrite acq_set_k_cons. reflexivity. Qed.

Lemma getcons_run u cn : getcons (acq L_cons (with_cons u cn s)) = Done cn (acq L_cons (with_cons u cn s)).
Proof. reflexivity. Qed.

Lemma kill_line_run fuel u cn cm ed :
  cons_rep cn cm ed -> open_line ed -> (length ed < fuel)%nat ->
  exists u' cn', kill_line fuel (acq L_cons (with_cons u cn s)) = Done tt (acq L_cons (with_cons u' cn' s)) /\ cons_rep cn' cm [].
Proof.
  revert u cn ed. induction fuel as [|f IH]; intros u cn ed H Ho Hf; [lia|]. cbn [kill_line].
  rewrite (bind_done _ _ _ _ _ (getcons_run u cn)), (edit_empty _ _ _ H).
  destruct ed as [|x ed _] using rev_ind; [by exists u, cn|].
  rewrite bool_decide_false by (by destruct ed). apply Forall_app in Ho as [Ho [[Hx Hne] _]%Forall_cons].
  rewrite (rep_last _ _ _ _ H), s8_newline by done. cbn [negb andb]. rewrite (bind_done _ _ _ _ _ (setcons_run _ _ _)).
  destruct (echo_run BACKSPACE u (set_cons_e (fun e => u32 (e - 1)) cn)) as (u1 & E). rewrite (bind_done _ _ _ _ _ E).
  apply (IH _ _ ed); [by eapply rep_erase|done|]. rewrite length_app in Hf. simpl in Hf. lia.
Qed.

Lemma release_cons u cn ps :
  release L_cons (acq L_cons (set_k_procs ps (with_cons u cn s))) = Done tt (set_k_procs ps (with_cons u cn s)).
Proof. by apply release_acq. Qed.
End Intr.

#[local] Opaque NPROC.

(** The processes after a key: woken up if lines became complete. *)
Definition wakes (s : kstate) (cm cm' : list Z) : list proc -> list proc :=
  if bool_decide (cm' = cm) then fun ps => ps else woken CH_cons (c_proc (k_cpu s)) 0 NPROC.

Lemma wakes_not s cm s' : set_k_procs (wakes s cm cm) s' = s'.
Proof. unfold wakes. rewrite bool_decide_true by done. by apply set_k_procs_id. Qed.

Lemma key_byte c : byte_range c -> byte_range (if c =? 13 then 10 else c).
Proof. unfold byte_range. case_match; lia. Qed.

Section Key.
Context (s : kstate) (c : Z) (cm ed : list Z).
Hypothesis (Hc : cpu_ok s) (Hpan : k_panicked s = false) (Hl : lock_free s L_cons) (Hp : procs_free s).
Hypothesis (Hr : cons_rep (k_cons s) cm ed) (Ho : open_line ed) (Hb : byte_range c).

(** The effect of a key, with the console locked. *)
Definition handles (b : K unit) (st : list Z * list Z) : Prop :=
  exists u cn, b (acq L_cons s) = Done tt (acq L_cons (set_k_procs (wakes s cm st.1) (with_cons u cn s))) /\
    cons_rep cn st.1 st.2 /\ open_line st.2.

Lemma start_cons : acq L_cons s = acq L_cons (with_cons (k_uart s) (k_cons s) s).
Proof. by rewrite with_cons_same. Qed.

Lemma handles_nothing : handles (ret tt) (cm, ed).
Proof. exists (k_uart s), (k_cons s). cbn [fst snd]. rewrite wakes_not, with_cons_same. by split. Qed.

Lemma handles_kill : handles (kill_line (S (Z.to_nat INPUT_BUF))) (cm, []).
Proof.
  destruct (kill_line_run s Hc Hpan (S (Z.to_nat INPUT_BUF)) (k_uart s) (k_cons s) cm ed Hr Ho) as (u & cn & E & H).
  { pose proof (cr_len _ _ _ Hr) as Hlen. rewrite length_app in Hlen. lia. }
  exists u, cn. cbn [fst snd]. rewrite wakes_not, start_cons. by split; [|split; [|constructor]].
Qed.

Lemma handles_erase :
  handles (cs <- getcons;; when (negb (cons_e cs =? cons_w cs)) (setcons (set_cons_e (fun e => u32 (e - 1)));; consputc BACKSPACE))
    (cm, take (pred (length ed)) ed).
Proof.
  destruct ed as [|x ed0 _] using rev_ind; unfold handles; cbn [fst snd].
  - rewrite start_cons, (bind_done _ _ _ _ _ (getcons_run _ _ _)), (edit_empty _ _ _ Hr). exists (k_uart s), (k_cons s). rewrite wakes_not. by split.
  - rewrite start_cons, (bind_done _ _ _ _ _ (getcons_run _ _ _)), (edit_empty _ _ _ Hr), bool_decide_false by (by destruct ed0).
    pose proof Ho as [Ho' _]%Forall_app. cbn [negb when]. rewrite (bind_done _ _ _ _ _ (setcons_run _ _ _ _)).
    destruct (echo_run s Hc Hpan BACKSPACE (k_uart s) (set_cons_e (fun e => u32 (e - 1)) (k_cons s))) as (u1 & E). rewrite E.
    eexists u1, _. rewrite wakes_not, length_app. simpl. rewrite Nat.add_1_r. simpl. rewrite take_app_length.
    split; [done|]. split; [by eapply rep_erase|done].
Qed.

Lemma handles_store (c' := if c =? 13 then 10 else c) (ed' := ed ++ [u8 c']) :
  Z.of_nat (length (cm ++ ed)) < INPUT_BUF ->
  handles
    (consputc c';;
     setcons (fun cs => set_cons_buf (insert (Z.to_nat (cons_e cs mod INPUT_BUF)) (u8 c')) cs);;
     setcons (set_cons_e (fun e => u32 (e + 1)));;
     cs <- getcons;;
     when ((c' =? 10) || (c' =? CTRL_D) || (cons_e cs =? u32 (cons_r cs + INPUT_BUF)))
       (setcons (fun cs => set_cons_w (fun _ => cons_e cs) cs);; wakeup CH_cons))
    (if (c' =? 10) || (c' =? CTRL_D) || (Z.of_nat (length (cm ++ ed')) =? INPUT_BUF) then (cm ++ ed', []) else (cm, ed')).
Proof.
  intros Hroom. unfold handles. rewrite start_cons. destruct (echo_run s Hc Hpan c' (k_uart s) (k_cons s)) as (u1 & E1).
  rewrite (bind_done _ _ _ _ _ E1), (bind_done _ _ _ _ _ (setcons_run _ _ _ _)), (bind_done _ _ _ _ _ (setcons_run _ _ _ _)).
  rewrite (bind_done _ _ _ _ _ (getcons_run _ _ _)). change (set_cons_e _ (set_cons_buf _ _)) with (append (u8 c') (k_cons s)).
  pose proof (rep_append _ _ _ (u8 c') Hr Hroom) as Ha. rewrite (text_full _ _ _ Ha). fold ed'.
  destruct ((c' =? 10) || (c' =? CTRL_D) || (Z.of_nat (length (cm ++ ed')) =? INPUT_BUF)) eqn:Ec; cbn [when fst snd].
  - rewrite (bind_done _ _ _ _ _ (setcons_run _ _ _ _)), wakeup_spec; [|by apply cpu_ok_acq|].
    2: { intros i Hi Hi'. apply lock_free_acq; [done|]. by apply Hp. }
    unfold wakes. rewrite bool_decide_false. 2: { intros En. apply (f_equal length) in En. unfold ed' in En. rewrite !length_app in En. simpl in En. lia. }
    rewrite acq_set_k_procs. eexists u1, _. split; [reflexivity|]. split; [by apply rep_commit|constructor].
  - exists u1, (append (u8 c') (k_cons s)). rewrite wakes_not. split; [done|]. split; [done|].
    apply orb_false_iff in Ec as [[Ec%Z.eqb_neq _]%orb_false_iff _]. apply Forall_app. split; [done|].
    constructor; [|constructor]. split; [apply u8_range|]. rewrite u8_small by (by apply key_byte). done.
Qed.

(** [consoleintr] is the line editor. *)
Lemma consoleintr_run :
  c <> CTRL_P ->
  exists u cn, consoleintr c s = Done tt (set_k_procs (wakes s cm (key c (cm, ed)).1) (with_cons u cn s)) /\
    cons_rep cn (key c (cm, ed)).1 (key c (cm, ed)).2 /\ open_line (key c (cm, ed)).2.
Proof.
  intros Hne. unfold consoleintr. rewrite (bind_done _ _ _ _ _ (acquire_spec _ _ Hl)).
  assert (Hfin : forall b st, handles b st -> exists u cn, (b;; release L_cons) (acq L_cons s) = Done tt (set_k_procs (wakes s cm st.1) (with_cons u cn s)) /\
    cons_rep cn st.1 st.2 /\ open_line st.2).
  { intros b st (u & cn & E & H). exists u, cn. split; [|done]. rewrite (bind_done _ _ _ _ _ E). by apply release_cons. }
  apply Hfin. clear Hfin. unfold key. destruct (Z.eqb_spec c CTRL_P); [done|]. destruct (c =? CTRL_U); [apply handles_kill|].
  destruct ((c =? CTRL_H) || (c =? 0x7f)); [apply handles_erase|].
  destruct (negb (c =? 0) && (Z.of_nat (length (cm ++ ed)) <? INPUT_BUF)) eqn:Eb.
  - destruct (handles_store) as (u & cn & E & H); [apply andb_true_iff in Eb as [_ ?%Z.ltb_lt]; done|].
    exists u, cn. split; [|exact H]. rewrite <- E, start_cons, (bind_done _ _ _ _ _ (getcons_run _ _ _)), (text_len _ _ _ Hr), Eb. reflexivity.
  - destruct handles_nothing as (u & cn & E & H). exists u, cn. split; [|exact H].
    rewrite <- E, start_cons, (bind_done _ _ _ _ _ (getcons_run _ _ _)), (text_len _ _ _ Hr), Eb. reflexivity.
Qed.
End Key.

(** ** Reading *)

(** The part of the complete lines that a read of [n] bytes takes: up to a
    newline, which is part of it, or up to control-D. A control-D that is not
    at the [start] of the read is left for the next one. [None]: the lines end
    before that, and the reader waits for more. *)
Fixpoint line (n : nat) (start : bool) (cm : list Z) : option (list Z * list Z) :=
  match n, cm with
  | O, _ => Some ([], cm)
  | S _, [] => None
  | S n', x :: cm' =>
      if x =? CTRL_D then Some ([], if start then cm' else cm)
      else if x =? 10 then Some ([10], cm')
      else match line n' false cm' with Some (out, rest) => Some (x :: out, rest) | None => None end
  end.

Lemma line_bounds n b cm out rest : line n b cm = Some (out, rest) -> Forall byte_range cm -> (length out <= n)%nat /\ Forall byte_range out.
Proof.
  revert b cm out. induction n as [|n IH]; intros b [|x cm] out E H; cbn [line] in E; try done.
  1-2: injection E as <- <-; split; [simpl; lia|constructor].
  apply Forall_cons in H as [Hx H]. destruct (x =? CTRL_D); [injection E as <- <-; split; [simpl; lia|constructor]|].
  destruct (x =? 10); [injection E as <- <-; split; [simpl; lia|by repeat constructor]|].
  destruct (line n false cm) as [[out' rest']|] eqn:El; [|done]. injection E as <- <-. apply IH in El as [Hl Ho]; [|done].
  split; [simpl; lia|by constructor].
Qed.

Lemma rep_untake c : 0 <= cons_r c < 2 ^ 32 -> set_cons_r (fun r => u32 (r - 1)) (set_cons_r (fun r => u32 (r + 1)) c) = c.
Proof.
  intros H. destruct c as [buf r w e]. unfold set_cons_r. simpl in *. f_equal. unfold Z.sub. rewrite u32_add.
  rewrite u32_small by lia. lia.
Qed.

Lemma s8_eqb x y : byte_range x -> 0 <= y < 128 -> (s8 x =? y) = (x =? y).
Proof.
  intros Hx Hy. unfold s8, swrap, byte_range in *. change (2 ^ (8 - 1)) with 128. change (2 ^ 8) with 256.
  pose proof (Z.div_mod (x + 128) 256 ltac:(done)). pose proof (Z.mod_pos_bound (x + 128) 256 ltac:(done)).
  destruct (Z.eqb_spec x y), (Z.eqb_spec ((x + 128) mod 256 - 128) y); try done; lia.
Qed.

Section Read.
Context (s : kstate) (me : nat) (fl ts : list Z) (A : amap) (root : Z) (ed : list Z).
Hypothesis (Hroot : ts !! 0%nat = Some root) (Hq : quiet s me) (Hl : lock_free s L_cons) (Hpt : p_pagetable (k_procs s !!! me) = root).

(** The state with another console and other memory. *)
Definition at_cons (cn : console) (m : mem) : kstate := set_k_cons (fun _ => cn) (set_k_mem (fun _ => m) s).

Lemma setcons_at g cn m : setcons g (acq L_cons (at_cons cn m)) = Done tt (acq L_cons (at_cons (g cn) m)).
Proof. unfold setcons, modify. rewrite acq_set_k_cons. reflexivity. Qed.

Lemma getcons_at cn m : getcons (acq L_cons (at_cons cn m)) = Done cn (acq L_cons (at_cons cn m)).
Proof. reflexivity. Qed.

Lemma release_at cn m : release L_cons (acq L_cons (at_cons cn m)) = Done tt (at_cons cn m).
Proof. apply release_acq; [apply Hq|done]. Qed.

Lemma wait_at cn m x cm : cons_rep cn (x :: cm) ed -> consoleread_wait sleep_fuel (acq L_cons (at_cons cn m)) = Done true (acq L_cons (at_cons cn m)).
Proof.
  intros H. change sleep_fuel with (S (pred sleep_fuel)). generalize (pred sleep_fuel) as f. intros f. cbn [consoleread_wait].
  rewrite (bind_done _ _ _ _ _ (getcons_at _ _)), (read_empty _ _ _ H), bool_decide_false by done. reflexivity.
Qed.

Lemma vmspace_at cn m fl' : vmspace (set_k_mem (fun _ => m) s) fl' ts A -> at_user (acq L_cons (at_cons cn m)) fl' ts A me root.
Proof.
  intros H. destruct Hq as (_ & Hm & _). split; [|done|exact Hm|exact Hpt]. apply vmspace_acq; [done|].
  by apply (vmspace_ext (set_k_mem (fun _ => m) s)); [apply H|..].
Qed.

(** One byte for the caller. *)
Lemma deliver cn m dst x :
  vmspace (set_k_mem (fun _ => m) s) fl ts A -> 0 <= dst < 2 ^ 64 -> upage A (dst / PGSIZE) <> None ->
  exists m', either_copyout true dst [x] (acq L_cons (at_cons cn m)) = Done 0 (acq L_cons (at_cons cn m')) /\
    vmspace (set_k_mem (fun _ => m') s) fl ts A /\ ustored A m m' dst [x] 1.
Proof.
  intros H Hd Hmap. pose proof (vmspace_at cn m fl H) as Hu. rewrite (user_copyout _ _ _ _ _ _ _ _ Hu).
  destruct (copyout_byte ts A root Hroot _ fl dst x (au_space _ _ _ _ _ _ Hu) Hd) as (m' & k & Hr & Hv & _ & Hst).
  destruct Hr as [[E ->]|(_ & _ & Hnone)]; [|done]. exists m'. rewrite acq_set_k_mem in E.
  split; [exact E|]. split; [|exact Hst]. destruct H as [V1 V2 _ _ _ _ _ _], Hv as [_ _ W3 W4 W5 W6 W7 W8]. by split.
Qed.

Lemma consoleread_loop_run k cn m cm dst target out rest fuel :
  cons_rep cn cm ed -> Forall byte_range cm -> vmspace (set_k_mem (fun _ => m) s) fl ts A -> 0 <= dst -> dst + Z.of_nat k < 2 ^ 64 ->
  (forall i, 0 <= i < Z.of_nat k -> upage A ((dst + i) / PGSIZE) <> None) -> Z.of_nat k <= target ->
  line k (Z.of_nat k =? target) cm = Some (out, rest) -> (k < fuel)%nat ->
  exists cn' m', consoleread_loop true dst (Z.of_nat k) target fuel (acq L_cons (at_cons cn m)) =
      Done (s32 (target - (Z.of_nat k - Z.of_nat (length out)))) (at_cons cn' m') /\
    cons_rep cn' rest ed /\ vmspace (set_k_mem (fun _ => m') s) fl ts A /\ ustored A m m' dst out (Z.of_nat (length out)).
Proof.
  revert cn m cm dst out rest fuel. induction k as [|k IH]; intros cn m cm dst out rest [|f] Hr Hby Hv Hd Hend Hmap Ht E Hf; try lia;
    cbn [consoleread_loop]; rewrite Z.gtb_ltb.
  { injection E as <- <-. change (negb (0 <? Z.of_nat 0)) with true. cbv iota. rewrite (bind_done _ _ _ _ _ (release_at _ _)).
    exists cn, m. split; [done|].
    split_and!; [done|done|]. intros va. by rewrite decide_False by (simpl; lia). }
  destruct (Z.ltb_spec 0 (Z.of_nat (S k))); [|lia]. cbn [negb]. destruct cm as [|x cm]; [done|]. cbn [line] in E.
  apply Forall_cons in Hby as [Hx Hby]. destruct (rep_take _ _ _ _ Hr) as [Ex Hr'].
  rewrite (bind_done _ _ _ _ _ (wait_at _ _ _ _ Hr)). cbn [negb]. rewrite (bind_done _ _ _ _ _ (getcons_at _ _)).
  unfold cons_at. rewrite Ex, (bind_done _ _ _ _ _ (setcons_at _ _ _)), !s8_eqb by (done || unfold CTRL_D; lia).
  destruct (x =? CTRL_D).
  { injection E as <- <-. assert (Ew : when (Z.of_nat (S k) <? target) (setcons (set_cons_r (fun r => u32 (r - 1))))
        (acq L_cons (at_cons (set_cons_r (fun r => u32 (r + 1)) cn) m)) =
      Done tt (acq L_cons (at_cons (if Z.of_nat (S k) =? target then set_cons_r (fun r => u32 (r + 1)) cn else cn) m))).
    { destruct (Z.ltb_spec (Z.of_nat (S k)) target), (Z.eqb_spec (Z.of_nat (S k)) target); try lia; cbn [when]; [|done].
      rewrite setcons_at, rep_untake by apply Hr. done. }
    rewrite (bind_done _ _ _ _ _ Ew), (bind_done _ _ _ _ _ (release_at _ _)). eexists _, m. split; [simpl length; rewrite Z.sub_0_r; done|].
    split_and!; [|done|intros va; by rewrite decide_False by (simpl; lia)].
    change (cons_rep (if Z.of_nat (S k) =? target then set_cons_r (fun r => u32 (r + 1)) cn else cn) (if Z.of_nat (S k) =? target then cm else x :: cm) ed).
    by destruct (Z.of_nat (S k) =? target). }
  rewrite u8_s8, (u8_small x Hx). destruct (deliver (set_cons_r (fun r => u32 (r + 1)) cn) m dst x Hv) as (m1 & E1 & Hv1 & Hs1);
    [lia|rewrite <- (Z.add_0_r dst); apply Hmap; lia|]. rewrite (bind_done _ _ _ _ _ E1). change (0 =? -1) with false. cbv iota.
  destruct (Z.eqb_spec x 10) as [->|Hx10].
  { injection E as <- <-. rewrite (bind_done _ _ _ _ _ (release_at _ _)). eexists _, m1. split; [simpl length; done|]. by split_and!. }
  destruct (line k false cm) as [[out' rest']|] eqn:El; [|done]. injection E as <- <-.
  rewrite u64_small by lia. replace (Z.of_nat (S k) - 1) with (Z.of_nat k) by lia.
  destruct (IH (set_cons_r (fun r => u32 (r + 1)) cn) m1 cm (dst + 1) out' rest' f) as (cn' & m' & E2 & Hr2 & Hv2 & Hs2); [done|done|done|lia|lia| |lia| |lia|].
  { intros i Hi. replace (dst + 1 + i) with (dst + (i + 1)) by lia. apply Hmap. lia. }
  { by destruct (Z.eqb_spec (Z.of_nat k) target); [lia|]. }
  exists cn', m'. split; [rewrite E2; do 3 f_equal; simpl; lia|]. split_and!; [done|done|].
  exact (ustored_app A m m1 m' dst [x] out' Hs1 Hs2).
Qed.
End Read.

(** ** Typing *)

(** The interrupts for a sequence of keys. *)
Fixpoint type_keys (ks : list Z) : K unit :=
  match ks with
  | [] => ret tt
  | c :: ks' => consoleintr c;; type_keys ks'
  end.

Definition edits (ks : list Z) (st : list Z * list Z) : list Z * list Z := foldl (fun st c => key c st) st ks.

Lemma key_bytes c cm ed : Forall byte_range (cm ++ ed) -> Forall byte_range ((key c (cm, ed)).1 ++ (key c (cm, ed)).2).
Proof.
  intros H. pose proof H as [H1 H2]%Forall_app. unfold key. repeat case_match; cbn [fst snd]; rewrite ?app_nil_r; try done.
  all: repeat (apply Forall_app; split); try done; try (by apply Forall_take); (constructor; [apply u8_range|constructor]).
Qed.

(** What keys leave alone of the state, seen from process [me]. *)
Definition keeps (me : nat) (s s' : kstate) : Prop :=
  exists u cn ps, s' = set_k_procs (fun _ => ps) (with_cons u cn s) /\ length ps = length (k_procs s) /\
    p_pagetable (ps !!! me) = p_pagetable (k_procs s !!! me).

Lemma keeps_quiet me s s' : keeps me s s' -> quiet s me -> quiet s' me.
Proof.
  intros (u & cn & ps & -> & Hl & _) (Q1 & Q2 & Q3 & Q4 & Q5 & Q6). split; [exact Q1|]. split; [exact Q2|]. split; [exact Q3|].
  split; [simpl; congruence|]. split; [exact Q5|exact Q6].
Qed.

Lemma keeps_trans me s1 s2 s3 : keeps me s1 s2 -> keeps me s2 s3 -> keeps me s1 s3.
Proof.
  intros (u1 & cn1 & ps1 & -> & Hl1 & Hp1) (u2 & cn2 & ps2 & -> & Hl2 & Hp2). exists u2, cn2, ps2. split; [done|].
  simpl in *. split; congruence.
Qed.

Lemma consoleintr_keeps me s c cm ed :
  quiet s me -> lock_free s L_cons -> k_panicked s = false -> byte_range c -> c <> CTRL_P -> cons_rep (k_cons s) cm ed -> open_line ed ->
  exists s', consoleintr c s = Done tt s' /\ keeps me s s' /\
    cons_rep (k_cons s') (key c (cm, ed)).1 (key c (cm, ed)).2 /\ open_line (key c (cm, ed)).2.
Proof.
  intros (Hc & Hm & _ & Hlen & Hme & Hp) Hl Hpan Hb Hne Hr Ho.
  destruct (consoleintr_run s c cm ed Hc Hpan Hl) as (u & cn & E & H1 & H2); [intros i Hi _; by apply Hp|done..|].
  eexists. split; [exact E|]. split; [|by split]. eexists u, cn, _. split; [apply set_k_procs_ext; reflexivity|].
  unfold wakes. case_bool_decide; [done|]. rewrite Hm. split; [apply length_woken|].
  rewrite !list_lookup_total_alt, woken_lookup, bool_decide_false by (intros Hx; by apply Hx). by case_decide.
Qed.

Lemma type_keys_run me ks s cm ed :
  quiet s me -> lock_free s L_cons -> k_panicked s = false -> Forall (fun c => byte_range c /\ c <> CTRL_P) ks ->
  cons_rep (k_cons s) cm ed -> open_line ed ->
  exists s', type_keys ks s = Done tt s' /\ keeps me s s' /\
    cons_rep (k_cons s') (edits ks (cm, ed)).1 (edits ks (cm, ed)).2.
Proof.
  revert s cm ed. induction ks as [|c ks IH]; intros s cm ed Hq Hl Hpan Hks Hr Ho.
  - exists s. split; [done|]. split; [|done]. exists (k_uart s), (k_cons s), (k_procs s). split; [|done].
    rewrite with_cons_same. symmetry. by apply set_k_procs_id.
  - apply Forall_cons in Hks as [[Hc Hne] Hks]. destruct (consoleintr_keeps me s c cm ed) as (s1 & E1 & K1 & Hr1 & Ho1); [done..|].
    cbn [type_keys]. rewrite (bind_done _ _ _ _ _ E1). destruct (IH s1 (key c (cm, ed)).1 (key c (cm, ed)).2 (keeps_quiet _ _ _ K1 Hq)) as (s2 & E2 & K2 & Hr2); [| |done|done|done|].
    + by destruct K1 as (u & cn & ps & -> & _).
    + by destruct K1 as (u & cn & ps & -> & _).
    + exists s2. split; [done|]. split; [by eapply keeps_trans|]. unfold edits in *. cbn [foldl]. by rewrite <- surjective_pairing in Hr2.
Qed.

Lemma edits_bytes ks cm ed : Forall byte_range (cm ++ ed) -> Forall byte_range (edits ks (cm, ed)).1.
Proof.
  unfold edits. revert cm ed. induction ks as [|c ks IH]; intros cm ed H; cbn [foldl]; [by apply Forall_app in H as [H _]|].
  rewrite (surjective_pairing (key c (cm, ed))). apply IH. by apply key_bytes.
Qed.

(** ** The theorems *)
Module ConsoleClaims.

(** C22: [consoleintr] implements the line editor [key]: the console's buffer,
    read as the complete lines and the line being typed, changes as [key]
    says; the processes that wait for input are woken up exactly when a line
    became complete; of the rest of the kernel only the UART changes. *)
Theorem consoleintr_edits s c cm ed :
  cpu_ok s -> k_panicked s = false -> lock_free s L_cons -> procs_free s -> byte_range c -> c <> CTRL_P ->
  cons_rep (k_cons s) cm ed -> open_line ed ->
  exists u cn, consoleintr c s = Done tt (set_k_procs (wakes s cm (key c (cm, ed)).1) (with_cons u cn s)) /\
    cons_rep cn (key c (cm, ed)).1 (key c (cm, ed)).2 /\ open_line (key c (cm, ed)).2.
Proof. intros Hc Hpan Hl Hp Hb Hne Hr Ho. by apply consoleintr_run. Qed.

(** C23: keys typed at an empty console, then read: [consoleread] returns the
    first line as edited (or the first [n] bytes of it), with its length, in
    the caller's memory, and leaves the lines after it for the next call. *)
Theorem console_line s me fl ts A root ks dst n out rest :
  quiet s me -> lock_free s L_cons -> k_panicked s = false -> cons_rep (k_cons s) [] [] ->
  vmspace s fl ts A -> ts !! 0%nat = Some root -> p_pagetable (k_procs s !!! me) = root ->
  Forall (fun c => byte_range c /\ c <> CTRL_P) ks ->
  0 <= n < 2 ^ 31 -> 0 <= dst -> dst + n < 2 ^ 64 -> (forall i, 0 <= i < n -> upage A ((dst + i) / PGSIZE) <> None) ->
  line (Z.to_nat n) true (edits ks ([], [])).1 = Some (out, rest) ->
  exists s', (type_keys ks;; consoleread true dst n) s = Done (Z.of_nat (length out)) s' /\
    cons_rep (k_cons s') rest (edits ks ([], [])).2 /\
    forall j x, out !! j = Some x -> ubyte (k_mem s') A (dst + Z.of_nat j) = Some x.
Proof.
  intros Hq Hl Hpan Hr Hv Hroot Hpt Hks Hn Hd Hend Hmap Hline.
  destruct (type_keys_run me ks s [] []) as (s1 & E1 & K1 & Hr1); [done|done|done|done|done|constructor|].
  rewrite (bind_done _ _ _ _ _ E1). pose proof (keeps_quiet _ _ _ K1 Hq) as Hq1.
  assert (Hs1 : lock_free s1 L_cons /\ vmspace s1 fl ts A /\ p_pagetable (k_procs s1 !!! me) = root).
  { destruct K1 as (u & cn & ps & -> & _ & Hp). split; [done|]. split; [|by rewrite <- Hpt].
    by apply (vmspace_ext s); [apply Hq|..]. }
  destruct Hs1 as (Hl1 & Hv1 & Hpt1). unfold consoleread. rewrite (bind_done _ _ _ _ _ (acquire_spec _ _ Hl1)), u32_small by lia.
  assert (Es : acq L_cons s1 = acq L_cons (at_cons s1 (k_cons s1) (k_mem s1))).
  { unfold at_cons. rewrite set_k_cons_id, set_k_mem_id by done. done. }
  rewrite Es. pose proof (edits_bytes ks [] [] ltac:(constructor)) as Hby. destruct (line_bounds _ _ _ _ _ Hline Hby) as [Hlen Hob].
  destruct (consoleread_loop_run s1 me fl ts A root (edits ks ([], [])).2 Hroot Hq1 Hl1 Hpt1 (Z.to_nat n) (k_cons s1) (k_mem s1)
    (edits ks ([], [])).1 dst n out rest (S (Z.to_nat n))) as (cn' & m' & E2 & Hr2 & _ & Hs2); rewrite ?Z2Nat.id by lia; try done; try lia.
  { by rewrite Z.eqb_refl. }
  rewrite Z2Nat.id in E2 by lia. rewrite E2. eexists. split; [f_equal; rewrite s32_small; lia|]. split; [exact Hr2|].
  intros j x Hx. change (k_mem (at_cons s1 cn' m')) with m'. pose proof (lookup_lt_Some _ _ _ Hx). rewrite Hs2, decide_True by lia.
  replace (dst + Z.of_nat j - dst) with (Z.of_nat j) by lia. rewrite Nat2Z.id, Hx. simpl. f_equal. apply u8_small. by eapply Forall_lookup_1.
Qed.

(** The machine of [PipeProps] with its console. *)
Definition cons_machine (m : kstate) : kstate :=
  set_k_locks (insert L_cons (mkspinlock 0 "cons" None))
    (set_k_cons (fun _ => mkcons (replicate (Z.to_nat INPUT_BUF) 0) 0 0 0) (PipeClaims.pipe_machine 3 (PipeClaims.pipe_with []) m)).

Lemma cons_machine_ok m fl ts :
  vmspace m fl ts PipeClaims.test_space ->
  quiet (cons_machine m) 3 /\ lock_free (cons_machine m) L_cons /\ cons_rep (k_cons (cons_machine m)) [] [] /\
  vmspace (cons_machine m) fl ts PipeClaims.test_space /\ p_pagetable (k_procs (cons_machine m) !!! 3%nat) = RAMBASE.
Proof.
  intros V. pose proof (PipeClaims.pipe_machine_at (fun _ => True) 3 (PipeClaims.pipe_with []) m fl ts V) as [(Q1 & Q2 & Q3 & Q4 & Q5 & Q6) _ _ Hr _ _].
  { pose proof NPROC_4. lia. } { split; vm_compute; done. } { done. }
  assert (Hlk : forall l, l <> L_cons -> k_locks (cons_machine m) !! l = k_locks (PipeClaims.pipe_machine 3 (PipeClaims.pipe_with []) m) !! l).
  { intros l Hl. unfold cons_machine. cbn [k_locks set_k_locks]. by apply lookup_insert_ne. }
  assert (Hc : cpu_ok (cons_machine m)) by exact Q1.
  split_and!; [|exists "cons"%string; apply lookup_insert_eq| | |exact Hr].
  - split; [exact Hc|]. split; [exact Q2|]. split; [exact Q3|]. split; [exact Q4|]. split; [exact Q5|].
    intros i Hi. destruct (Q6 i Hi) as [nm H]. exists nm. by rewrite Hlk.
  - split; vm_compute; done.
  - destruct V as [V1 V2 V3 V4 V5 V6 V7 V8]. split; [exact Hc| |exact V3|exact V4|exact V5|exact V6|exact V7|exact V8].
    exists "kmem"%string. by rewrite Hlk.
Qed.

(** Typing [l]. *)
Lemma consoleintr_edits_witness :
  exists m u cn, consoleintr 108 (cons_machine m) = Done tt (set_k_procs (fun ps => ps) (with_cons u cn (cons_machine m))) /\ cons_rep cn [] [108].
Proof.
  destruct VmUser.vm_test_user as (m & fl & ts & V & _). destruct (cons_machine_ok m fl ts V) as (Hq & Hl & Hr & _).
  destruct (consoleintr_edits (cons_machine m) 108 [] []) as (u & cn & E & H & _); [apply Hq|reflexivity|done|intros i Hi _; by apply Hq|by unfold byte_range|done|done|constructor|].
  exists m, u, cn. split; [exact E|exact H].
Defined.

(** Typing [lx], a backspace, [s] and a newline, then reading. *)
Lemma console_line_witness :
  exists m s', (type_keys [108; 120; 8; 115; 10];; consoleread true 0 100) (cons_machine m) = Done 3 s' /\
    ubyte (k_mem s') PipeClaims.test_space 0 = Some 108 /\ ubyte (k_mem s') PipeClaims.test_space 1 = Some 115 /\
    ubyte (k_mem s') PipeClaims.test_space 2 = Some 10.
Proof.
  destruct VmUser.vm_test_user as (m & fl & ts & V & Hroot). destruct (cons_machine_ok m fl ts V) as (Hq & Hl & Hr & Hv & Hpt).
  destruct (console_line (cons_machine m) 3 fl ts PipeClaims.test_space RAMBASE [108; 120; 8; 115; 10] 0 100 [108; 115; 10] [])
    as (s' & E & _ & H); [done|done|reflexivity|done|done|done|done| |lia|lia|lia| |reflexivity|].
  - repeat constructor; done.
  - intros i Hi. rewrite Z.div_small by (unfold PGSIZE; lia). vm_compute. done.
  - exists m, s'. split; [exact E|]. split_and!; [apply (H 0%nat)|apply (H 1%nat)|apply (H 2%nat)]; reflexivity.
Defined.
End ConsoleClaims.
