(* ===== verification/FsCrash.v ===== *)
(** * Files that survive a crash

    [filewrite] writes a file in transactions of bounded size. Whenever the
    machine stops, recovery brings the disk to a state in which the file has
    the old contents with some of the complete chunks written over them, and
    every other inode is as it was. *)

From stdpp Require Import gmap strings list.
From Stdlib Require Import ZArith Lia.
From S2P Require Import Prelude KState CString Spinlock Sched SleepLock Kalloc Vm Bio Bcache Log LogProps LogTx FsTx Fs FsBlocks FsFile FsInode FsWrite FsRead FsCopy Uart Console File.
Open Scope Z_scope.
Import Spinlock Sched SleepLock Vm Bio Log Fs File SpinlockProps SchedProps SleepLockProps.

#[local] Opaque NPROC.

(** ** Files on disk *)

(** Inode [inum] as the blocks of a disk have it. *)
Definition dino (sb : superblock) (v : Z -> list Z) (inum : Z) : dinode :=
  dinode_get (v (IBLOCK inum sb)) (ioff inum).

(** The contents of a file, from an inode. *)
Definition contents (v : Z -> list Z) (ino : inode) : list Z := fbytes v ino 0 (i_size ino).

(** The contents of a file on disk. *)
Definition disk_file (sb : superblock) (v : Z -> list Z) (inum : Z) : list Z :=
  contents v (inode_load (dino sb v inum) inhabitant).

Lemma fbyte_addrs v i1 i2 k : i_addrs i1 = i_addrs i2 -> fbyte v i1 k = fbyte v i2 k.
Proof. intros E. unfold fbyte, fblock, faddr, iblk. by rewrite E. Qed.

Lemma fbytes_ext v v' i1 i2 off n :
  (forall k, off <= k < off + n -> fbyte v i1 k = fbyte v' i2 k) -> fbytes v i1 off n = fbytes v' i2 off n.
Proof.
  intros H. unfold fbytes. apply list_fmap_ext. intros i k Hk. apply lookup_seqZ in Hk as [-> Hi]. apply H. lia.
Qed.

Lemma disk_file_of sb v inum ino : dino sb v inum = dinode_of ino -> disk_file sb v inum = contents v ino.
Proof.
  intros E. unfold disk_file, contents. rewrite E. cbn. apply fbytes_ext. intros k _. by apply fbyte_addrs.
Qed.

Lemma take_fbytes v ino off a n : 0 <= a <= n -> take (Z.to_nat a) (fbytes v ino off n) = fbytes v ino off a.
Proof.
  intros Ha. replace n with (a + (n - a)) by lia. rewrite fbytes_app by lia. apply take_app_length'.
  by rewrite length_fbytes.
Qed.

Lemma drop_fbytes v ino off a n : 0 <= a <= n -> drop (Z.to_nat a) (fbytes v ino off n) = fbytes v ino (off + a) (n - a).
Proof.
  intros Ha. replace n with (a + (n - a)) at 1 by lia. rewrite fbytes_app by lia. apply drop_app_length'.
  by rewrite length_fbytes.
Qed.

(** [writei] replaces a run of the contents. *)
Lemma written_contents s me disk sb start tx ip ino off d s' tx' ino' :
  written s me disk sb start tx ip ino off d s' tx' ino' -> 0 <= off <= i_size ino -> i_size ino <= MAXFILE * BSIZE ->
  off + Z.of_nat (length d) <= MAXFILE * BSIZE ->
  contents (tx_get disk tx') ino' = splice (Z.to_nat off) d (contents (tx_get disk tx) ino).
Proof.
  intros W Ho Hs Hm. set (n := Z.of_nat (length d)) in *. unfold contents, splice. rewrite (wt_size _ _ _ _ _ _ _ _ _ _ _ _ _ W).
  fold n. set (v := tx_get disk tx). set (v' := tx_get disk tx').
  assert (Hb : forall i, 0 <= i < MAXFILE * BSIZE -> fbyte v' ino' i =
    if decide (off <= i < off + n) then d !!! Z.to_nat (i - off) else fbyte v ino i) by apply (wt_byte _ _ _ _ _ _ _ _ _ _ _ _ _ W).
  replace (Z.max (i_size ino) (off + n)) with (off + (n + (Z.max (i_size ino) (off + n) - off - n))) by lia.
  rewrite fbytes_app, (fbytes_app _ _ _ n) by (unfold n; lia). f_equal; [|f_equal].
  - rewrite take_fbytes by lia. apply fbytes_ext. intros k Hk. rewrite Hb by lia. by rewrite decide_False by lia.
  - apply list_eq. intros i. destruct (decide (i < length d)%nat) as [Hi|Hi].
    + unfold fbytes. rewrite list_lookup_fmap, lookup_seqZ_lt by (unfold n; lia). cbn.
      rewrite Hb, decide_True by (unfold n in *; lia). rewrite list_lookup_lookup_total_lt by done. do 2 f_equal. lia.
    + rewrite !lookup_ge_None_2; [done|lia|rewrite length_fbytes; unfold n; lia].
  - replace (Z.to_nat off + length d)%nat with (Z.to_nat (off + n)) by (unfold n; lia).
    destruct (decide (off + n <= i_size ino)) as [Hle|Hgt].
    + rewrite drop_fbytes by (unfold n in *; lia). cbn [Z.add]. replace (0 + off + n) with (off + n) by lia.
      replace (Z.max (i_size ino) (off + n) - off - n) with (i_size ino - (off + n)) by lia.
      apply fbytes_ext. intros k Hk. rewrite Hb by (unfold n in *; lia). by rewrite decide_False by lia.
    + rewrite drop_ge by (rewrite length_fbytes; unfold n in *; lia).
      replace (Z.max (i_size ino) (off + n) - off - n) with 0 by lia. done.
Qed.

(** ** Disks that differ in the log only *)

Section Agree.
Context (sb : superblock) (start : Z) (Hly : layout sb start) (v v' : Z -> list Z).
Context (Hag : forall x, ~ in_log start x -> v' x = v x).

Lemma agree_blocks : blocks_ok sb v -> blocks_ok sb v'.
Proof.
  intros [H1 H2]. pose proof (layout_bounds _ _ Hly) as Hb. split.
  - intros b Hb'. unfold used. rewrite Hag by apply (bmblock_ok _ _ Hly). by apply H1.
  - intros b Hb'. rewrite Hag by fslia. by apply H2.
Qed.

Lemma agree_dino j : 0 <= j < sb_ninodes sb -> dino sb v' j = dino sb v j.
Proof. intros Hj. unfold dino. by rewrite Hag by apply (iblock_ok _ _ _ Hly Hj). Qed.

Lemma agree_used x : used sb v' x <-> used sb v x.
Proof. unfold used. by rewrite Hag by apply (bmblock_ok _ _ Hly). Qed.

Section File.
Context (ino : inode) (Hok : file_ok sb v ino).

Lemma agree_faddr k : faddr v' ino k = faddr v ino k.
Proof.
  unfold faddr. case_match; [done|]. destruct (Z.eqb_spec (iblk ino) 0) as [|Hn]; [done|].
  destruct (fk_own _ _ _ Hok _ (owns_iblk v ino Hn)) as [Hr _]. rewrite Hag; [done|]. apply (data_not_log sb _ Hly). lia.
Qed.

Lemma agree_owns x : owns v' ino x <-> owns v ino x.
Proof. unfold owns. by setoid_rewrite agree_faddr. Qed.

Lemma agree_ok : file_ok sb v' ino.
Proof.
  pose proof Hok as [K1 K2 K3 K4 K5 K6 K7]. split; try done.
  - intros x Hx%agree_owns. destruct (K3 x Hx). split; [done|by apply agree_used].
  - intros i j. rewrite !agree_faddr. apply K4.
  - intros j. rewrite agree_faddr. apply K5.
  - intros j. rewrite agree_faddr. apply K6.
Qed.

Lemma agree_contents : contents v' ino = contents v ino.
Proof.
  apply fbytes_ext. intros i Hi. pose proof (fk_size _ _ _ Hok). unfold fbyte, fblock. rewrite agree_faddr.
  destruct (Z.eqb_spec (faddr v ino (i / BSIZE)) 0) as [|Hn]; [done|].
  destruct (fk_own _ _ _ Hok _ (owns_faddr v ino _ (block_of i ltac:(lia)) Hn)) as [Hr _].
  rewrite Hag; [done|]. apply (data_not_log sb _ Hly). lia.
Qed.

Lemma agree_avail : avail sb v' ino = avail sb v ino.
Proof. unfold avail, freeset. by rewrite Hag by apply (bmblock_ok _ _ Hly). Qed.

Lemma agree_missing off n : missing v' ino off n = missing v ino off n.
Proof. apply set_eq. intros k. by rewrite !elem_of_missing, agree_faddr. Qed.
End File.
End Agree.

(** ** [ilock] and [iunlock] of an inode in memory *)

Definition relock (g : sleeplock -> sleeplock) (ip : nat) (ino : inode) (s : kstate) : kstate :=
  set_k_inodes (fun _ => <[ip := set_i_lock g ino]> (k_inodes s)) s.

Lemma setsl_relock g ip ino s : k_inodes s !! ip = Some ino -> setsl (SL_inode ip) g s = relock g ip ino s.
Proof.
  intros Hip. unfold relock. cbn. apply set_k_inodes_ext. apply list_eq. intros j. destruct (decide (ip = j)) as [<-|Hne].
  - rewrite list_lookup_alter_eq, list_lookup_insert_eq, Hip by (by eapply lookup_lt_Some). done.
  - by rewrite list_lookup_alter_ne, list_lookup_insert_ne.
Qed.

Lemma ilock_run s me ip ino :
  quiet s me -> lock_free s (L_sl (SL_inode ip)) -> k_inodes s !! ip = Some ino ->
  1 <= i_ref ino -> i_valid ino = true -> sl_locked (i_lock ino) = 0 ->
  ilock (Some ip) s = Done tt (relock (sl_taken (mypid s me)) ip ino s).
Proof.
  intros Hq Hl Hip Hr Hv Hz. assert (E : k_inodes s !!! ip = ino) by (by apply list_lookup_total_correct).
  unfold ilock, getinode. kstep. prw E. rewrite (proj2 (Z.ltb_ge _ _)) by lia.
  erewrite bind_done by (apply (acquiresleep_spec (SL_inode ip)); [done|done|cbn; by prw E]).
  rewrite (setsl_relock _ _ ino) by done. kstep.
  change (k_inodes (relock ?g ip ino s)) with (<[ip := set_i_lock g ino]> (k_inodes s)).
  rewrite list_lookup_total_insert_eq by (by eapply lookup_lt_Some).
  change (i_valid (set_i_lock ?g ino)) with (i_valid ino). by prw Hv.
Qed.

Lemma iunlock_run s me ip ino :
  quiet s me -> lock_free s (L_sl (SL_inode ip)) -> k_inodes s !! ip = Some ino ->
  1 <= i_ref ino -> sl_locked (i_lock ino) = 1 -> sl_pid (i_lock ino) = mypid s me ->
  iunlock (Some ip) s =
  Done tt (set_k_procs (woken (CH_sl (SL_inode ip)) (Some me) 0 NPROC) (relock sl_given ip ino s)).
Proof.
  intros Hq Hl Hip Hr Hv Hz. assert (E : k_inodes s !!! ip = ino) by (by apply list_lookup_total_correct).
  unfold iunlock. rewrite (bind_done _ _ _ _ _ (holdingsleep_spec (SL_inode ip) s me Hq Hl)).
  unfold getinode. kstep. cbn [getsl]. prw E. prw Hv. prw Hz. rewrite Z.eqb_refl. cbn [Z.eqb negb andb orb].
  rewrite (proj2 (Z.ltb_ge _ _)) by lia. rewrite (releasesleep_spec (SL_inode ip) s me Hq Hl).
  by rewrite (setsl_relock _ _ ino).
Qed.

(** [ilock] of an entry that is not valid yet reads the inode from the disk. *)
Lemma ilock_load s me disk sb start tx jp ino :
  let di := dino sb (tx_get disk tx) (i_inum ino) in
  inop s me disk start tx [] -> k_sb s = sb -> layout sb start -> (length tx < NBUF)%nat ->
  k_inodes s !! jp = Some ino -> i_dev ino = ROOTDEV -> 0 <= i_inum ino < sb_ninodes sb -> 1 <= i_ref ino ->
  i_valid ino = false -> sl_locked (i_lock ino) = 0 -> lock_free s (L_sl (SL_inode jp)) -> di_type di <> 0 ->
  exists s2, ilock (Some jp) s = Done tt s2 /\ inop s2 me disk start tx [] /\
    k_inodes s2 !! jp = Some (set_i_valid (fun _ => true) (inode_load di (set_i_lock (sl_taken (mypid s me)) ino))).
Proof.
  intros di Hi Hsb Hly Hroom Hjp Hdev Hin Href Hval Hfree Hlk Hty. destruct (op_world _ _ _ _ _ _ Hi) as [Hq _].
  destruct (iblock_ok _ _ _ Hly Hin) as [Hb _]. pose proof (layout_bounds _ _ Hly) as Hlb.
  assert (E0 : k_inodes s !!! jp = ino) by (by apply list_lookup_total_correct).
  set (g := sl_taken (mypid s me)). set (s1 := relock g jp ino s). set (ino1 := set_i_lock g ino).
  assert (Hi1 : inop s1 me disk start tx []) by (by apply inop_inodes).
  destruct (op_bread _ _ _ _ _ _ Hi1 (IBLOCK (i_inum ino) sb)) as (bp & s2 & E2 & Hi2 & F2 & D2);
    [fslia|apply not_elem_of_nil|cbn; lia|].
  set (s3 := set_k_inodes (alter (fun i => inode_load (dinode_get (tx_get disk tx (IBLOCK (i_inum ino) sb)) (ioff (i_inum i))) i) jp) s2).
  assert (Hi3 : inop s3 me disk start tx [(bp, IBLOCK (i_inum ino) sb)]) by (by apply inop_inodes).
  destruct (op_brelse _ _ _ _ _ _ _ _ Hi3) as (s4 & E4 & Hi4 & F4).
  assert (Hj1 : k_inodes s1 !! jp = Some ino1) by exact (list_lookup_insert_eq _ _ _ (lookup_lt_Some _ _ _ Hjp)).
  assert (Hj2 : k_inodes s2 !! jp = Some ino1) by (by prw (opframe_field k_inodes _ _ ltac:(done) F2)).
  assert (Hj4 : k_inodes s4 !! jp = Some (inode_load di ino1)).
  { prw (opframe_field k_inodes _ _ ltac:(done) F4). unfold s3. change (k_inodes (set_k_inodes ?f s2)) with (f (k_inodes s2)).
    by rewrite list_lookup_alter_eq, Hj2. }
  set (ino2 := set_i_valid (fun _ => true) (inode_load di ino1)).
  assert (Hj5 : alter (set_i_valid (fun _ => true)) jp (k_inodes s4) !! jp = Some ino2) by (by rewrite list_lookup_alter_eq, Hj4).
  exists (set_k_inodes (alter (set_i_valid (fun _ => true)) jp) s4). split; [|split; [by apply inop_inodes|exact Hj5]].
  unfold ilock, getinode. kstep. prw E0. rewrite (proj2 (Z.ltb_ge _ _)) by lia.
  erewrite bind_done by (apply (acquiresleep_spec (SL_inode jp)); [exact Hq|exact Hlk|cbn; by prw E0]).
  rewrite (setsl_relock _ _ ino) by done. fold g s1. kstep. rewrite (list_lookup_total_correct _ _ _ Hj1).
  change (i_valid ino1) with (i_valid ino). prw Hval. cbn [negb when]. unfold getsb. kstep. change (k_sb s1) with (k_sb s). prw Hsb.
  change (i_dev ino1) with (i_dev ino). change (i_inum ino1) with (i_inum ino). prw Hdev. rewrite (bind_done _ _ _ _ _ E2).
  unfold getbuf, setinode. kstep. prw D2. fold s3. rewrite (bind_done _ _ _ _ _ E4). kstep.
  change (k_inodes (set_k_inodes ?f s4)) with (f (k_inodes s4)). rewrite (list_lookup_total_correct _ _ _ Hj5).
  change (i_type ino2) with (di_type di). by rewrite (proj2 (Z.eqb_neq _ _)).
Qed.

(** ** One chunk of [filewrite] *)

(** No operation runs, and the blocks of the disk are in order. *)
Record mounted (s : kstate) (me : nat) (sb : superblock) (start : Z) : Prop := {
  mo_log : log_ok s me start;
  mo_sb : k_sb s = sb;
  mo_layout : layout sb start;
  mo_blocks : blocks_ok sb (on_disk (k_disk s)) }.

(** Entry [ip] of the inode table holds a file, and its disk copy agrees. *)
Record cached (s : kstate) (sb : superblock) (ip : nat) (ino : inode) : Prop := {
  ca_at : k_inodes s !! ip = Some ino;
  ca_ok : file_ok sb (on_disk (k_disk s)) ino;
  ca_inum : 0 <= i_inum ino < sb_ninodes sb;
  ca_range : dinode_ok (dinode_of ino);
  ca_sync : dino sb (on_disk (k_disk s)) (i_inum ino) = dinode_of ino;
  ca_ref : 1 <= i_ref ino;
  ca_valid : i_valid ino = true;
  ca_free : sl_locked (i_lock ino) = 0;
  ca_lock : lock_free s (L_sl (SL_inode ip)) }.

Lemma lframe_field {A} (f : kstate -> A) s s' :
  (forall s l b d t p, f (set_k_procs (fun _ => p) (set_k_bufs (fun _ => b) (set_k_disk (fun _ => d)
     (set_k_dtrace (fun _ => t) (set_k_log (fun _ => l) s))))) = f s) ->
  lframe s s' -> f s' = f s.
Proof. intros Hf (l & b & d & t & p & -> & _). apply Hf. Qed.

Lemma lframe_procs s ps :
  length ps = length (k_procs s) -> (forall i, same_proc (ps !!! i) (k_procs s !!! i)) ->
  lframe s (set_k_procs (fun _ => ps) s).
Proof.
  intros Hl Hs. exists (k_log s). exists (k_bufs s), (k_disk s), (k_dtrace s), ps.
  split; [reflexivity|]. split; [exact Hl|exact Hs].
Qed.

Lemma inop_files s me disk start tx hs g :
  inop s me disk start tx hs -> inop (set_k_files g s) me disk start tx hs.
Proof.
  intros [((H1 & H2 & H3 & H4 & H5 & H6) & Hb & Hs) Hlk Hr Hl Hz Hh Hn Hhs Hnd].
  split; [|exact Hlk|exact Hr|exact Hl|exact Hz|exact Hh|exact Hn|exact Hhs|exact Hnd].
  split; [split_and!; [exact H1|exact H2|exact H3|exact H4|exact H5|exact H6]|split; [exact Hb|exact Hs]].
Qed.

Lemma inop_procs s me disk start tx hs ps :
  length ps = length (k_procs s) -> (forall i, same_proc (ps !!! i) (k_procs s !!! i)) ->
  inop s me disk start tx hs -> inop (set_k_procs (fun _ => ps) s) me disk start tx hs.
Proof.
  intros Hlen Hsp [Hw Hlk Hr Hl Hz Hh Hn Hhs Hnd].
  assert (Ep : mypid (set_k_procs (fun _ => ps) s) me = mypid s me) by (exact (f_equal p_pid (Hsp me))).
  split; [by apply bworld_procs|exact Hlk| |exact Hl|exact Hz|exact Hh|exact Hn|exact Hhs|exact Hnd].
  rewrite Ep. exact Hr.
Qed.

Lemma cost_empty sb ino : (cost sb (keys []) ino <= 2)%nat.
Proof.
  unfold cost, ibset, reserve, keys. cbn [fmap list_fmap list_to_set]. rewrite union_empty_l_L.
  destruct (iblk ino =? 0).
  - rewrite union_empty_r_L, size_singleton. lia.
  - rewrite size_union_alt, size_singleton. etrans; [apply Nat.add_le_mono_r, Nat.add_le_mono_l, (subseteq_size _ {[iblk ino]})|].
    + apply subseteq_difference_l. done.
    + rewrite size_singleton. lia.
Qed.

Lemma nblk_chunk off n : n <= write_max -> nblk off n <= 4.
Proof.
  intros Hn. unfold nblk. case_match; [lia|]. pose proof (Z.mod_pos_bound off BSIZE ltac:(done)).
  change write_max with 3072 in Hn. unfold BSIZE in *. assert (off mod 1024 + n + 1024 - 1 < 5 * 1024) by lia.
  apply Z.lt_succ_r, Z.div_lt_upper_bound; lia.
Qed.

Definition file_at (s : kstate) (f ip : nat) (off : Z) : Prop :=
  exists fl, k_files s !! f = Some fl /\ f_ip fl = Some ip /\ f_off fl = off.

Lemma file_moved s f ip off r :
  file_at s f ip off -> file_at (set_k_files (alter (set_f_off (fun o => u32 (o + r))) f) s) f ip (u32 (off + r)).
Proof.
  intros (fl & Hf & Hi & Ho). exists (set_f_off (fun o => u32 (o + r)) fl). split; [|split; [exact Hi|cbn; by rewrite Ho]].
  cbn. by rewrite list_lookup_alter_eq, Hf.
Qed.

Lemma file_ok_lock sb v g ino : file_ok sb v ino -> file_ok sb v (set_i_lock g ino).
Proof. intros [K1 K2 K3 K4 K5 K6 K7]. split; [exact K1|exact K2|exact K3|exact K4|exact K5|exact K6|exact K7]. Qed.

Section Chunk.
Context (src : Z) (d : list Z) (P : kstate -> Prop) `{!Source true src d P}.
Context (me : nat) (sb : superblock) (start : Z) (f ip : nat) (off : Z).

Let n := Z.of_nat (length d).
Context (Hsrc : 0 <= src < 2 ^ 64) (Hn : 0 < n <= write_max).

(** What is known of the file when the operation is about to end. *)
Record chunk_done (s : kstate) (disk : gmap Z (list Z)) (ino : inode) (s' : kstate) (tx : list (Z * list Z))
    (ino' : inode) : Prop := {
  cd_tx : intx s' me disk start tx;
  cd_frame : fsframe s s';
  cd_trace : k_dtrace s' = k_dtrace s;
  cd_file : file_at s' f ip (off + n);
  cd_at : k_inodes s' !! ip = Some ino';
  cd_same : i_inum ino' = i_inum ino /\ i_ref ino' = i_ref ino /\ i_valid ino' = i_valid ino;
  cd_free : sl_locked (i_lock ino') = 0;
  cd_ok : file_ok sb (tx_get disk tx) ino';
  cd_range : dinode_ok (dinode_of ino');
  cd_blocks : blocks_ok sb (tx_get disk tx);
  cd_contents : contents (tx_get disk tx) ino' = splice (Z.to_nat off) d (contents (on_disk disk) ino);
  cd_size : i_size ino' = Z.max (i_size ino) (off + n);
  cd_inodes : forall j, 0 <= j < sb_ninodes sb ->
    dino sb (tx_get disk tx) j = if decide (j = i_inum ino) then dinode_of ino' else dino sb (on_disk disk) j;
  cd_others : forall x, datastart sb <= x -> used sb (on_disk disk) x -> ~ owns (on_disk disk) ino x ->
    tx_get disk tx x = on_disk disk x /\ used sb (tx_get disk tx) x;
  cd_few : Z.of_nat (length tx) <= MAXOPBLOCKS;
  cd_addr : forall k, 0 <= k < MAXFILE -> faddr (on_disk disk) ino k <> 0 ->
    faddr (tx_get disk tx) ino' k = faddr (on_disk disk) ino k;
  cd_avail : avail sb (on_disk disk) ino - Z.of_nat (size (missing (on_disk disk) ino off n)) <=
    avail sb (tx_get disk tx) ino';
  cd_own : forall x, owns (tx_get disk tx) ino' x -> owns (on_disk disk) ino x \/ ~ used sb (on_disk disk) x;
  cd_used : forall x, 0 <= x -> used sb (on_disk disk) x -> used sb (tx_get disk tx) x }.

Lemma chunk_inner s disk ino (k : Z -> K Z) :
  intx s me disk start [] -> k_sb s = sb -> layout sb start -> blocks_ok sb (on_disk disk) ->
  k_inodes s !! ip = Some ino -> file_ok sb (on_disk disk) ino -> 0 <= i_inum ino < sb_ninodes sb ->
  dinode_ok (dinode_of ino) -> 1 <= i_ref ino -> i_valid ino = true -> sl_locked (i_lock ino) = 0 ->
  lock_free s (L_sl (SL_inode ip)) -> file_at s f ip off -> P s ->
  0 <= off <= i_size ino -> off + n <= MAXFILE * BSIZE ->
  Z.of_nat (size (missing (on_disk disk) ino off n)) <= avail sb (on_disk disk) ino ->
  exists s' tx ino', (fl <- getfile f;; ilock (f_ip fl);; ip <- deref (f_ip fl);; fl <- getfile f;;
      r <- writei ip true src (f_off fl) n;;
      when (r >? 0) (setfile f (set_f_off (fun o => u32 (o + r))));;
      iunlock (f_ip fl);; k r) s = k n s' /\
    chunk_done s disk ino s' tx ino' /\ P s'.
Proof.
  intros Hi Hsb Hly Hbo Hip Hok Hin Hdk Href Hval Hfree Hlk (fl & Hfl & Hfi & Hfo) HP Hoff Hmax Hav.
  pose proof (it_world _ _ _ _ _ Hi) as Hw. pose proof Hw as [Hq _].
  set (pid := mypid s me). set (ino1 := set_i_lock (sl_taken pid) ino).
  set (s1 := relock (sl_taken pid) ip ino s).
  assert (Hip1 : k_inodes s1 !! ip = Some ino1) by (apply list_lookup_insert_eq; by eapply lookup_lt_Some).
  assert (Hf1 : fsop s1 me disk sb start [] []).
  { split; [apply inop_inodes, intx_inop, Hi|exact Hsb| |done|exact Hbo].
    change (lg_outstanding (k_log s1)) with (lg_outstanding (k_log s)). rewrite (it_out _ _ _ _ _ Hi). lia. }
  assert (HP1 : P s1) by (eapply source_frame; [exact HP|apply fsframe_inodes]).
  pose proof (cost_empty sb ino1) as Hc. pose proof (nblk_chunk off n ltac:(lia)) as Hnb.
  destruct (writei_run true src d P s1 me disk sb start [] ip ino1 Hf1 Hip1 (file_ok_lock _ _ _ _ Hok) HP1 Hin Hdk off Hsrc Hoff Hmax)
    as (s2 & tx & ino2 & E2 & W & HP2); [fold n; fslia|exact Hav|].
  fold n in E2. pose proof W as [W1 W2 W3 W4 W5 W6 W7 W8 W9 W10 W11 W12 W13].
  pose proof (ifr_at _ _ _ _ _ Hip1 W2) as Hip2. fold n in W5, W6, W9, W11.
  set (s3 := set_k_files (alter (set_f_off (fun o => u32 (o + n))) f) s2).
  assert (Hfiles : k_files s2 = k_files s) by (exact (opframe_field k_files _ _ ltac:(done) W2)).
  assert (Hi3 : inop s3 me disk start tx []) by (apply inop_files, W1).
  assert (Hq3 : quiet s3 me) by apply (op_world _ _ _ _ _ _ Hi3).
  assert (Hlk3 : lock_free s3 (L_sl (SL_inode ip))).
  { assert (k_locks s2 = k_locks s) as E by (exact (opframe_field k_locks _ _ ltac:(done) W2)).
    unfold lock_free. change (k_locks s3) with (k_locks s2). rewrite E. exact Hlk. }
  assert (Hpid : mypid s3 me = pid).
  { change (mypid s3 me) with (mypid s2 me). rewrite (opframe_pid _ _ me W2). done. }
  assert (Hl2 : i_lock ino2 = sl_taken pid (i_lock ino)) by (rewrite W3; done).
  set (ps := woken (CH_sl (SL_inode ip)) (Some me) 0 NPROC (k_procs s3)).
  set (s4 := set_k_procs (fun _ => ps) (relock sl_given ip ino2 s3)).
  assert (E4 : iunlock (Some ip) s3 = Done tt s4).
  { rewrite (iunlock_run s3 me ip ino2); [|done|done|exact Hip2|rewrite W3; exact Href|by rewrite Hl2|by rewrite Hl2, Hpid].
    apply f_equal, set_k_procs_ext. reflexivity. }
  assert (Hlps : length ps = length (k_procs s3)) by apply length_woken.
  assert (Hsps : forall i, same_proc (ps !!! i) (k_procs s3 !!! i)) by (intros i; apply woken_same).
  assert (F24 : fsframe s2 s4).
  { eapply fsframe_trans; [apply (fsframe_files _ (alter (set_f_off (fun o => u32 (o + n))) f))|]. fold s3.
    eapply fsframe_trans; [apply (fsframe_inodes _ (fun _ => <[ip := set_i_lock sl_given ino2]> (k_inodes s3)))|].
    apply lframe_fsframe. apply lframe_procs; [exact Hlps|exact Hsps]. }
  assert (HP4 : P s4) by (by eapply source_frame).
  assert (Hflt : k_files s !!! f = fl) by (by apply list_lookup_total_correct).
  exists s4, tx, (set_i_lock sl_given ino2). split; [|split; [split|exact HP4]].
  - unfold getfile. kstep. prw Hflt. prw Hfi. erewrite bind_done by (by apply ilock_run). fold pid s1.
    unfold deref. kstep. change (k_files s1) with (k_files s). prw Hflt. prw Hfo. rewrite (bind_done _ _ _ _ _ E2).
    rewrite Z.gtb_ltb, (proj2 (Z.ltb_lt 0 n)) by lia. unfold when, setfile. kstep. fold s3. prw Hfi.
    rewrite (bind_done _ _ _ _ _ E4). reflexivity.
  - apply inop_intx; [apply inop_procs; [exact Hlps|exact Hsps|apply inop_inodes; exact Hi3]| | |apply (it_len _ _ _ _ _ Hi)|apply (it_empty _ _ _ _ _ Hi)].
    + change (lg_outstanding (k_log s4)) with (lg_outstanding (k_log s2)). rewrite (opframe_out _ _ W2). apply (it_out _ _ _ _ _ Hi).
    + change (lg_committing (k_log s4)) with (lg_committing (k_log s2)). rewrite (opframe_comm _ _ W2). apply (it_comm _ _ _ _ _ Hi).
  - eapply fsframe_trans; [apply (fsframe_inodes s)|]. fold s1. eapply fsframe_trans, F24. by eapply ifr_fsframe.
  - destruct W2 as (l & _ & _ & T & _). exact T.
  - replace (off + n) with (u32 (off + n)) by (apply u32_small; filia).
    apply (file_moved s2). exists fl. rewrite Hfiles. split; [exact Hfl|split; [exact Hfi|exact Hfo]].
  - exact (list_lookup_insert_eq _ _ _ (lookup_lt_Some _ _ _ Hip2)).
  - rewrite W3. split; [reflexivity|split; reflexivity].
  - reflexivity.
  - exact (file_ok_lock _ _ _ _ W4).
  - exact (dinode_ok_same _ _ _ ino1 _ Hly W4 Hdk W3).
  - apply W1.
  - exact (written_contents _ _ _ _ _ _ _ _ _ _ _ _ _ W Hoff (proj2 (fk_size _ _ _ Hok)) Hmax).
  - exact W5.
  - exact W7.
  - exact W8.
  - unfold MAXOPBLOCKS. lia.
  - exact W10.
  - exact W11.
  - exact W12.
  - exact W13.
Qed.
End Chunk.

(** The file that inode [ino] of disk [disk] describes, with [d] written at
    [off], is on disk [t]; other inodes and the blocks in use that are not the
    file's are as they were. *)
Record with_bytes (sb : superblock) (disk : gmap Z (list Z)) (ino : inode) (off : Z) (d : list Z) (t : gmap Z (list Z)) : Prop := {
  wb_file : disk_file sb (on_disk t) (i_inum ino) = splice (Z.to_nat off) d (contents (on_disk disk) ino);
  wb_inodes : forall j, 0 <= j < sb_ninodes sb -> j <> i_inum ino -> dino sb (on_disk t) j = dino sb (on_disk disk) j;
  wb_others : forall x, datastart sb <= x -> used sb (on_disk disk) x -> ~ owns (on_disk disk) ino x ->
    on_disk t x = on_disk disk x /\ used sb (on_disk t) x }.

(** A transfer of [d] to the file, from [s] to [s']: the blocks [ws] were
    written, in that order. *)
Record stored (s : kstate) (me : nat) (sb : superblock) (start : Z) (f ip : nat) (ino : inode) (off : Z) (d : list Z)
    (s' : kstate) (ino' : inode) (ws : list (Z * list Z)) : Prop := {
  st_mounted : mounted s' me sb start;
  st_cached : cached s' sb ip ino';
  st_file : file_at s' f ip (off + Z.of_nat (length d));
  st_inum : i_inum ino' = i_inum ino;
  st_size : i_size ino' = Z.max (i_size ino) (off + Z.of_nat (length d));
  st_disk : k_disk s' = apply_writes ws (k_disk s);
  st_trace : k_dtrace s' = rev ws ++ k_dtrace s;
  st_bytes : with_bytes sb (k_disk s) ino off d (k_disk s');
  st_owns : forall x, owns (on_disk (k_disk s')) ino' x -> owns (on_disk (k_disk s)) ino x \/ ~ used sb (on_disk (k_disk s)) x;
  st_used : forall x, 0 <= x -> used sb (on_disk (k_disk s)) x -> used sb (on_disk (k_disk s')) x;
  st_addr : forall k, 0 <= k < MAXFILE -> faddr (on_disk (k_disk s)) ino k <> 0 ->
    faddr (on_disk (k_disk s')) ino' k = faddr (on_disk (k_disk s)) ino k;
  st_avail : avail sb (on_disk (k_disk s)) ino -
      Z.of_nat (size (missing (on_disk (k_disk s)) ino off (Z.of_nat (length d)))) <=
    avail sb (on_disk (k_disk s')) ino' }.

(** However many of the writes [ws] reached the disk, it recovers to a [t]
    that has some of the bytes [d], a whole number of chunks of them. *)
Definition crash_safe (sb : superblock) (start : Z) (disk : gmap Z (list Z)) (ino : inode) (off : Z) (d : list Z)
    (ws : list (Z * list Z)) : Prop :=
  forall j, exists t m, recovers_to start (apply_writes (take j ws) disk) t /\
    (forall t', same_fs start t' t -> with_bytes sb disk ino off (take m d) t') /\ (m = length d \/ (Z.to_nat write_max | m)%nat).

Lemma splice_nil (o : nat) (d : list Z) : splice o [] d = d.
Proof. unfold splice. cbn [app length]. by rewrite Nat.add_0_r, take_drop. Qed.

Lemma with_bytes_nil sb start disk ino off t :
  layout sb start -> file_ok sb (on_disk disk) ino -> 0 <= i_inum ino < sb_ninodes sb ->
  dino sb (on_disk disk) (i_inum ino) = dinode_of ino -> same_fs start t disk -> with_bytes sb disk ino off [] t.
Proof.
  intros Hly Hok Hin Hs Ht. split.
  - rewrite splice_nil, (disk_file_of _ _ _ ino).
    + exact (agree_contents sb start Hly _ _ Ht _ Hok).
    + by rewrite (agree_dino sb start Hly _ _ Ht).
  - intros j Hj _. exact (agree_dino sb start Hly _ _ Ht j Hj).
  - intros x Hx Hu _. split; [apply Ht, (data_not_log sb _ Hly), Hx|]. by apply (agree_used sb start Hly _ _ Ht).
Qed.

Lemma chunk_bytes (me : nat) sb start f ip off d s disk ino s' tx ino' t :
  layout sb start -> 0 <= i_inum ino < sb_ninodes sb ->
  chunk_done d me sb start f ip off s disk ino s' tx ino' -> same_fs start t (apply_writes tx disk) ->
  with_bytes sb disk ino off d t.
Proof.
  intros Hly Hin [C1 _ _ _ _ [C6 _] _ C8 _ C10 C11 _ C13 C14 _ _ _ _] Ht.
  assert (Hag : forall x, ~ in_log start x -> on_disk t x = tx_get disk tx x) by exact Ht. split.
  - rewrite (disk_file_of _ _ _ ino').
    + by rewrite (agree_contents sb start Hly (tx_get disk tx)).
    + rewrite (agree_dino sb start Hly (tx_get disk tx)), C13 by done. by rewrite decide_True.
  - intros j Hj Hne. rewrite (agree_dino sb start Hly (tx_get disk tx)), C13 by done. by rewrite decide_False.
  - intros x Hx Hu Ho. destruct (C14 x Hx Hu Ho) as [E U].
    rewrite (agree_used sb start Hly (tx_get disk tx)) by done. split; [|done].
    rewrite Hag; [done|]. apply (data_not_log sb _ Hly). lia.
Qed.

(** The end of the operation makes what [chunk_done] describes durable. *)
Lemma chunk_end (me : nat) sb start f ip off d s disk ino s1 tx ino' :
  chunk_done d me sb start f ip off s disk ino s1 tx ino' ->
  k_disk s = disk -> layout sb start -> cached s sb ip ino -> k_sb s = sb ->
  exists s' ws, end_op s1 = Done tt s' /\ fsframe s s' /\
    stored s me sb start f ip ino off d s' ino' ws /\ crash_safe sb start disk ino off d ws.
Proof.
  intros C <- Hly Hca Hsb. destruct Hca as [A1 A2 A3 A4 A5 A6 A7 A8 A9].
  pose proof C as [C1 C2 C3 C4 C5 (C6 & C6a & C6b) C7 C8 C9 C10 C11 C12 C13 C14 C15 C16 C17 C18 C19].
  destruct (end_op_atomic s1 me _ start tx C1) as (s' & ws & c & E & Hlg & Hfs & T & D & F & Hc & Hcr).
  assert (Hag : forall x, ~ in_log start x -> on_disk (k_disk s') x = tx_get (k_disk s) tx x) by exact Hfs.
  assert (F' : fsframe s s') by (exact (fsframe_trans _ _ _ C2 (lframe_fsframe _ _ F))).
  exists s', ws. split; [exact E|]. split; [exact F'|]. split; [split|].
  - split; [exact Hlg| |exact Hly|exact (agree_blocks sb start Hly _ _ Hag C10)].
    prw (fsframe_field k_sb _ _ ltac:(done) F'). exact Hsb.
  - split.
    + prw (lframe_field k_inodes _ _ ltac:(done) F). exact C5.
    + exact (agree_ok sb start Hly _ _ Hag _ C8).
    + rewrite C6. exact A3.
    + exact C9.
    + rewrite (agree_dino sb start Hly _ _ Hag), C13, C6 by (rewrite ?C6; exact A3). by rewrite decide_True.
    + rewrite C6a. exact A6.
    + rewrite C6b. exact A7.
    + exact C7.
    + unfold lock_free. prw (fsframe_field k_locks _ _ ltac:(done) F'). exact A9.
  - unfold file_at. prw (lframe_field k_files _ _ ltac:(done) F). exact C4.
  - exact C6.
  - exact C12.
  - exact D.
  - rewrite T, C3. reflexivity.
  - exact (chunk_bytes _ _ _ _ _ _ _ _ _ _ _ _ _ _ Hly A3 C Hfs).
  - intros x Hx%(agree_owns sb start Hly _ _ Hag _ C8). exact (C18 x Hx).
  - intros x Hx Hu. apply (agree_used sb start Hly _ _ Hag). exact (C19 x Hx Hu).
  - intros k Hk Hn. rewrite (agree_faddr sb start Hly _ _ Hag _ C8). exact (C16 k Hk Hn).
  - rewrite (agree_avail sb start Hly _ _ Hag). exact C17.
  - intros j. destruct (j <? c)%nat eqn:Hj; pose proof (Hcr j) as R; rewrite Hj in R.
    + exists (k_disk s), 0%nat. split; [exact R|].
      split; [exact (fun t => with_bytes_nil _ _ _ _ _ t Hly A2 A3 A5)|]. right. exists 0%nat. reflexivity.
    + exists (apply_writes tx (k_disk s)), (length d). split; [exact R|]. rewrite firstn_all. split; [|by left].
      intros t Ht. exact (chunk_bytes _ _ _ _ _ _ _ _ _ _ _ _ _ _ Hly A3 C Ht).
Qed.

Section ChunkTx.
Context (src : Z) (d : list Z) (P : kstate -> Prop) `{!Source true src d P}.
Context (me : nat) (sb : superblock) (start : Z) (f ip : nat) (off : Z).

Let n := Z.of_nat (length d).
Context (Hsrc : 0 <= src < 2 ^ 64) (Hn : 0 < n <= write_max).

Lemma chunk_run s ino (k : Z -> K Z) :
  mounted s me sb start -> cached s sb ip ino -> file_at s f ip off -> P s ->
  0 <= off <= i_size ino -> off + n <= MAXFILE * BSIZE ->
  Z.of_nat (size (missing (on_disk (k_disk s)) ino off n)) <= avail sb (on_disk (k_disk s)) ino ->
  exists s' ino' ws, (begin_op;; fl <- getfile f;; ilock (f_ip fl);; ip <- deref (f_ip fl);; fl <- getfile f;;
      r <- writei ip true src (f_off fl) n;;
      when (r >? 0) (setfile f (set_f_off (fun o => u32 (o + r))));;
      iunlock (f_ip fl);; end_op;; k r) s = k n s' /\
    stored s me sb start f ip ino off d s' ino' ws /\ crash_safe sb start (k_disk s) ino off d ws /\ P s'.
Proof.
  intros [M1 M2 M3 M4] Hca Hfl HP Hoff Hmax Hav. pose proof Hca as [A1 A2 A3 A4 A5 A6 A7 A8 A9].
  destruct (begin_op_run s me start M1) as (s1 & E1 & Hi1 & T1 & F1).
  assert (HP1 : P s1) by (eapply source_frame; [exact HP|exact (lframe_fsframe _ _ F1)]).
  assert (Hfl1 : file_at s1 f ip off).
  { unfold file_at. prw (lframe_field k_files _ _ ltac:(done) F1). exact Hfl. }
  destruct (chunk_inner src d P me sb start f ip off Hsrc Hn s1 (k_disk s) ino (fun r => end_op;; k r))
    as (s2 & tx & ino' & E2 & C & HP2); try assumption.
  { prw (lframe_field k_sb _ _ ltac:(done) F1). exact M2. }
  { prw (lframe_field k_inodes _ _ ltac:(done) F1). exact A1. }
  { unfold lock_free. prw (lframe_field k_locks _ _ ltac:(done) F1). exact A9. }
  assert (C' : chunk_done d me sb start f ip off s (k_disk s) ino s2 tx ino').
  { destruct C. split; try assumption; [|by rewrite cd_trace0]. eapply fsframe_trans; [exact (lframe_fsframe _ _ F1)|assumption]. }
  destruct (chunk_end _ _ _ _ _ _ _ _ _ _ _ _ _ C' eq_refl M3 Hca M2) as (s3 & ws & E3 & F3 & St & Cs).
  exists s3, ino', ws. split; [|split; [exact St|split; [exact Cs|eapply source_frame; [exact HP|exact F3]]]].
  rewrite (bind_done _ _ _ _ _ E1). etransitivity; [exact E2|]. by rewrite (bind_done _ _ _ _ _ E3).
Qed.
End ChunkTx.

(** ** [filewrite] *)

Lemma with_bytes_app sb disk ino off d1 disk1 ino1 d2 t :
  0 <= off <= i_size ino -> (forall x, owns (on_disk disk1) ino1 x -> owns (on_disk disk) ino x \/ ~ used sb (on_disk disk) x) ->
  i_inum ino1 = i_inum ino -> dino sb (on_disk disk1) (i_inum ino1) = dinode_of ino1 ->
  with_bytes sb disk ino off d1 disk1 -> with_bytes sb disk1 ino1 (off + Z.of_nat (length d1)) d2 t ->
  with_bytes sb disk ino off (d1 ++ d2) t.
Proof.
  intros Ho Hown Hin Hsy [A1 A2 A3] [B1 B2 B3]. rewrite Hin in *. split.
  - rewrite B1, <- (disk_file_of _ _ _ _ Hsy), A1. rewrite <- splice_app by (unfold contents; rewrite length_fbytes; lia).
    f_equal. lia.
  - intros j Hj Hne. by rewrite B2, A2.
  - intros x Hx Hu Hn. destruct (A3 x Hx Hu Hn) as [E1 U1]. destruct (B3 x Hx U1) as [E2 U2].
    { intros Hx'. by destruct (Hown x Hx'). }
    split; [congruence|done].
Qed.

Section App.
Context (me : nat) (sb : superblock) (start : Z) (f ip : nat).
Context (s0 s1 s2 : kstate) (i0 i1 i2 : inode) (off : Z) (d1 d2 : list Z) (ws1 ws2 : list (Z * list Z)).
Context (S1 : stored s0 me sb start f ip i0 off d1 s1 i1 ws1) (Hoff : 0 <= off <= i_size i0).

Lemma stored_sync : dino sb (on_disk (k_disk s1)) (i_inum i1) = dinode_of i1.
Proof using S1. exact (ca_sync _ _ _ _ (st_cached _ _ _ _ _ _ _ _ _ _ _ _ S1)). Qed.

Lemma stored_mapped i : off <= i < off + Z.of_nat (length d1) -> faddr (on_disk (k_disk s1)) i1 (i / BSIZE) <> 0.
Proof using S1 Hoff.
  intros Hi. apply (fk_dense _ _ _ (ca_ok _ _ _ _ (st_cached _ _ _ _ _ _ _ _ _ _ _ _ S1))).
  - apply Z.div_pos; [lia|done].
  - rewrite (st_size _ _ _ _ _ _ _ _ _ _ _ _ S1). pose proof (Z.mul_div_le i BSIZE ltac:(done)). lia.
Qed.

Lemma crash_app :
  crash_safe sb start (k_disk s0) i0 off d1 ws1 ->
  crash_safe sb start (k_disk s1) i1 (off + Z.of_nat (length d1)) d2 ws2 ->
  (Z.to_nat write_max | length d1)%nat \/ d2 = [] ->
  crash_safe sb start (k_disk s0) i0 off (d1 ++ d2) (ws1 ++ ws2).
Proof using S1 Hoff.
  intros C1 C2 Hd j. destruct (decide (j <= length ws1)%nat) as [Hj|Hj].
  - destruct (C1 j) as (t & m & R & W & Hm). exists t, (m `min` length d1)%nat.
    rewrite take_app_le by done. split; [exact R|]. split.
    + rewrite take_app_le by lia. rewrite <- (take_take d1 m (length d1)), (take_ge d1 (length d1)) in * by lia. exact W.
    + rewrite length_app. destruct (Nat.min_spec m (length d1)) as [[? ->]|[? ->]].
      * destruct Hm as [->|]; [lia|by right].
      * destruct Hd as [Hd| ->]; [by right|left; cbn; lia].
  - destruct (C2 (j - length ws1)%nat) as (t & m & R & W & Hm). exists t, (length d1 + m `min` length d2)%nat.
    rewrite take_app_ge, apply_writes_app by lia.
    pose proof (st_disk _ _ _ _ _ _ _ _ _ _ _ _ S1) as D. rewrite <- D. split; [exact R|]. split.
    + rewrite take_app_add. intros t' Ht'. specialize (W t' Ht'). eapply with_bytes_app; [exact Hoff|apply (st_owns _ _ _ _ _ _ _ _ _ _ _ _ S1)| | | |].
      * exact (st_inum _ _ _ _ _ _ _ _ _ _ _ _ S1).
      * exact stored_sync.
      * exact (st_bytes _ _ _ _ _ _ _ _ _ _ _ _ S1).
      * rewrite <- (take_take d2 m (length d2)), (take_ge d2 (length d2)) in * by lia. exact W.
    + rewrite length_app. destruct (Nat.min_spec m (length d2)) as [[? ->]|[? ->]]; [|by left].
      destruct Hm as [->|Hm]; [by left|]. destruct Hd as [Hd| ->]; [|cbn in *; lia]. right. by apply Nat.divide_add_r.
Qed.

Lemma stored_app :
  off + Z.of_nat (length (d1 ++ d2)) <= MAXFILE * BSIZE ->
  stored s1 me sb start f ip i1 (off + Z.of_nat (length d1)) d2 s2 i2 ws2 ->
  stored s0 me sb start f ip i0 off (d1 ++ d2) s2 i2 (ws1 ++ ws2).
Proof using S1 Hoff.
  intros Hmax S2. pose proof stored_sync as Hsy. pose proof stored_mapped as Hmp.
  pose proof S1 as [A1 A2 A3 A4 A5 A6 A7 A8 A9 A10 A11 A12]. destruct S2 as [B1 B2 B3 B4 B5 B6 B7 B8 B9 B10 B11 B12].
  split; [exact B1|exact B2|..]; rewrite ?length_app, ?Nat2Z.inj_add in *.
  - by rewrite Z.add_assoc.
  - congruence.
  - rewrite B5, A5. lia.
  - by rewrite B6, A6, apply_writes_app.
  - rewrite B7, A7, rev_app_distr. by rewrite app_assoc.
  - eapply with_bytes_app; [exact Hoff|exact A9|exact A4|exact Hsy|exact A8|exact B8].
  - intros x Hx. destruct (B9 x Hx) as [Hx1|Hx1]; [exact (A9 x Hx1)|].
    right. intros Hu. apply Hx1, A10; [|exact Hu].
    destruct (fk_own _ _ _ (ca_ok _ _ _ _ B2) x Hx) as [Hr _]. pose proof (layout_bounds _ _ (mo_layout _ _ _ _ A1)). fslia.
  - intros x Hx Hu. auto.
  - intros k Hk Hn. rewrite B11; rewrite ?A11; auto.
  - pose proof (missing_split (on_disk (k_disk s0)) i0 (on_disk (k_disk s1)) i1 off (Z.of_nat (length d1)) (Z.of_nat (length d2))
      ltac:(lia) ltac:(lia) ltac:(lia) ltac:(lia) A11 Hmp). lia.
Qed.
End App.

Lemma cached_bytes s me sb start ip ino off t :
  mounted s me sb start -> cached s sb ip ino -> same_fs start t (k_disk s) -> with_bytes sb (k_disk s) ino off [] t.
Proof. intros [_ _ Hly _] [_ A2 A3 _ A5 _ _ _ _]. exact (with_bytes_nil _ _ _ _ _ t Hly A2 A3 A5). Qed.

Lemma stored_nil s me sb start f ip ino off :
  mounted s me sb start -> cached s sb ip ino -> file_at s f ip off -> 0 <= off <= i_size ino ->
  stored s me sb start f ip ino off [] s ino [].
Proof.
  intros Hm Hc Hf Ho. split; cbn [length Z.of_nat]; rewrite ?Z.add_0_r; try done.
  - lia.
  - by apply (cached_bytes _ me _ start ip).
  - intros x Hx. by left.
  - lia.
Qed.

Lemma crash_nil s me sb start ip ino off :
  mounted s me sb start -> cached s sb ip ino -> crash_safe sb start (k_disk s) ino off [] [].
Proof.
  intros Hm Hc j. exists (k_disk s), 0%nat. rewrite take_nil. pose proof (mo_log _ _ _ _ Hm) as M1.
  split; [|split; [intros t; exact (cached_bytes _ _ _ _ _ _ _ _ Hm Hc)|by left]].
  apply recovers_empty; [exact (ok_len _ _ _ M1)|exact (ok_empty _ _ _ M1)|]. intros x _. reflexivity.
Qed.

Lemma missing_less v ino off a b : a <= b -> (size (missing v ino off a) <= size (missing v ino off b))%nat.
Proof.
  intros Hab. apply subseteq_size. intros k. rewrite !elem_of_missing. intros (H0 & i & Hi & ->).
  split; [done|]. exists i. split; [lia|done].
Qed.

Section FileWrite.
Context (src : Z) (data : list Z) (P : kstate -> Prop) `{HS : !Source true src data P}.
Context (me : nat) (sb : superblock) (start : Z) (f ip : nat).

Let n := Z.of_nat (length data).

(** The loop of [filewrite], with [i] bytes done. *)
Lemma filewrite_loop_run fuel : forall s ino off i,
  0 <= i <= n -> n - i <= (Z.of_nat fuel - 1) * write_max -> (1 <= fuel)%nat ->
  mounted s me sb start -> cached s sb ip ino -> file_at s f ip off -> P s ->
  0 <= off <= i_size ino -> off + (n - i) <= MAXFILE * BSIZE ->
  Z.of_nat (size (missing (on_disk (k_disk s)) ino off (n - i))) <= avail sb (on_disk (k_disk s)) ino ->
  exists s' ino' ws, filewrite_loop f src i n fuel s = Done n s' /\
    stored s me sb start f ip ino off (drop (Z.to_nat i) data) s' ino' ws /\
    crash_safe sb start (k_disk s) ino off (drop (Z.to_nat i) data) ws /\ P s'.
Proof.
  induction fuel as [|fu IH]; [intros; lia|]. intros s ino off i Hi Hfu _ Hm Hc Hf HP Ho Hmax Hav. cbn [filewrite_loop].
  destruct (Z.ltb_spec i n) as [Hlt|Hge]; cbn [negb].
  2:{ exists s, ino, []. rewrite drop_ge by (unfold n in *; lia). replace i with n by lia. split; [done|].
      split; [by apply stored_nil|]. split; [|done]. exact (crash_nil _ _ _ _ _ _ _ Hm Hc). }
  cbv zeta. change write_max with 3072 in *. set (n1 := if n - i >? 3072 then 3072 else n - i).
  assert (Hn1 : 0 < n1 <= 3072 /\ i + n1 <= n /\ (n1 = 3072 \/ i + n1 = n)) by (unfold n1; rewrite Z.gtb_ltb; case_match; lia).
  set (d1 := slice (Z.to_nat i) (Z.to_nat n1) data).
  pose proof (source_sub _ _ _ _ i n1 HS ltac:(lia) ltac:(lia) ltac:(unfold n in *; lia)) as HS1. fold d1 in HS1.
  assert (Hl1 : Z.of_nat (length d1) = n1) by (unfold d1; rewrite length_slice; unfold n in *; lia).
  assert (Hd : drop (Z.to_nat i) data = d1 ++ drop (Z.to_nat (i + n1)) data).
  { unfold d1, slice. rewrite <- (take_drop (Z.to_nat n1) (drop (Z.to_nat i) data)) at 1. f_equal.
    rewrite drop_drop. f_equal. lia. }
  pose proof (missing_less (on_disk (k_disk s)) ino off n1 (n - i) ltac:(lia)) as Hml.
  destruct (chunk_run (u64 (src + i)) d1 P me sb start f ip off (u64_range _) ltac:(rewrite Hl1; change write_max with 3072; lia)
    s ino (fun r => if negb (r =? n1) then ret i else filewrite_loop f src (i + r) n fu) Hm Hc Hf HP Ho)
    as (s1 & ino1 & ws1 & E1 & S1 & C1 & HP1); [rewrite Hl1; lia|rewrite Hl1; lia|].
  rewrite Hl1, Z.eqb_refl in E1. rewrite (u32_small n1) by lia. cbn [negb] in E1.
  rewrite Hd.
  pose proof S1 as [A1 A2 A3 A4 A5 A6 A7 A8 A9 A10 A11 A12]. rewrite Hl1 in A3, A5, A12.
  pose proof (missing_split (on_disk (k_disk s)) ino (on_disk (k_disk s1)) ino1 off n1 (n - i - n1) ltac:(lia) ltac:(lia) ltac:(lia)
    ltac:(lia) A11 ltac:(rewrite <- Hl1; exact (stored_mapped _ _ _ _ _ _ _ _ _ _ _ _ S1 Ho))) as Hms.
  replace (n1 + (n - i - n1)) with (n - i) in Hms by lia.
  destruct (IH s1 ino1 (off + n1) (i + n1)) as (s2 & ino2 & ws2 & E2 & S2 & C2 & HP2); try done; [lia..| |].
  { replace (n - (i + n1)) with (n - i - n1) by lia. lia. }
  exists s2, ino2, (ws1 ++ ws2). split; [exact (eq_trans E1 E2)|]. rewrite <- Hl1 in S2, C2.
  split; [|split; [|exact HP2]].
  - eapply stored_app; [exact S1|exact Ho| |rewrite <- Hl1; exact S2]. rewrite <- Hd, length_drop. unfold n in *. lia.
  - eapply crash_app; [exact S1|exact Ho|exact C1|rewrite <- Hl1; exact C2|].
    destruct Hn1 as (_ & _ & [Hw|Hw]); [left; exists 1%nat; change write_max with 3072; lia|right]. apply drop_ge. unfold n in *. lia.
Qed.
End FileWrite.

(** File [k] is not the one [ino] describes, and shares no block with it. *)
Record apart (sb : superblock) (v : Z -> list Z) (ino : inode) (k : Z) : Prop := {
  ap_range : 0 <= k < sb_ninodes sb;
  ap_other : k <> i_inum ino;
  ap_size : 0 <= di_size (dino sb v k) <= MAXFILE * BSIZE;
  ap_blocks : forall x, owns v (inode_load (dino sb v k) inhabitant) x -> alloced sb v x /\ ~ owns v ino x }.

(** The files of disk [t] are those of [disk], except that the one [ino]
    describes has the bytes [d] at [off]. *)
Definition updated_file (sb : superblock) (disk : gmap Z (list Z)) (ino : inode) (off : Z) (d : list Z)
    (t : gmap Z (list Z)) : Prop :=
  disk_file sb (on_disk t) (i_inum ino) = splice (Z.to_nat off) d (disk_file sb (on_disk disk) (i_inum ino)) /\
  forall k, apart sb (on_disk disk) ino k -> disk_file sb (on_disk t) k = disk_file sb (on_disk disk) k.

Lemma with_bytes_updated sb disk ino off d t :
  dino sb (on_disk disk) (i_inum ino) = dinode_of ino ->
  with_bytes sb disk ino off d t -> updated_file sb disk ino off d t.
Proof.
  intros Hs [W1 W2 W3]. split; [by rewrite W1, (disk_file_of _ _ _ ino)|].
  intros k [A1 A2 A3 A4]. unfold disk_file. rewrite W2 by done. set (o := inode_load _ _) in *.
  assert (Hb : forall x, owns (on_disk disk) o x -> on_disk t x = on_disk disk x).
  { intros x Hx. destruct (A4 x Hx) as [[Hr Hu] Hn]. exact (proj1 (W3 x (proj1 Hr) Hu Hn)). }
  assert (Hfa : forall j, faddr (on_disk t) o j = faddr (on_disk disk) o j).
  { intros j. unfold faddr. case_match; [done|]. destruct (Z.eqb_spec (iblk o) 0) as [|Hne]; [done|].
    by rewrite (Hb _ (owns_iblk _ o Hne)). }
  apply fbytes_ext. intros i Hi. unfold fbyte, fblock. rewrite Hfa.
  destruct (Z.eqb_spec (faddr (on_disk disk) o (i / BSIZE)) 0) as [|Hne]; [done|].
  rewrite Hb; [done|]. apply owns_faddr; [|done]. apply block_of. change (i_size o) with (di_size (dino sb (on_disk disk) k)) in Hi. lia.
Qed.
