(* ===== verification/FsProps.v ===== *)
(** * What the file system promises

    Theorems on whole operations: [filewrite] against crashes, [writei] and
    [readi], the block allocator and the inodes on disk. They rest on the lemmas of the
    files [FsTx] to [FsCrash]. The witnesses run on one small machine: a disk
    with an empty file, an open file for it, and a process with one page of
    memory. *)

From stdpp Require Import gmap strings list.
From Stdlib Require Import ZArith Lia.
From S2P Require Import Prelude KState CString Spinlock Sched SleepLock Kalloc Vm VmProps VmSpace VmCopy Bio Bcache Log LogProps LogTx FsTx Fs FsBlocks FsFile FsInode FsWrite FsRead FsCopy Uart Console File FsCrash.
Open Scope Z_scope.
Import Spinlock Sched SleepLock Vm Bio Log Fs File SpinlockProps SchedProps SleepLockProps KallocProps BioProps LogAtomic VmUser.

#[local] Opaque NPROC boot_state.

(** ** A machine to run on *)
Module FsMachine.

(** A file with no bytes, inode 1. *)
Definition test_dinode : dinode := mkdinode 2 0 0 1 0 (repeat 0 13).
Definition test_ino : inode := mkinode ROOTDEV 1 1 (mksleeplock 0 "inode" 0) true 2 0 0 1 0 (repeat 0 13).

(** An entry for inode 1 that is not read yet. *)
Definition test_spare : inode := mkinode ROOTDEV 1 1 (mksleeplock 0 "inode" 0) false 0 0 0 0 0 (repeat 0 13).

(** The blocks before the data are marked; block 32 has inode 1. *)
Definition test_disk : gmap Z (list Z) :=
  <[45 := repeat 255 5 ++ [63] ++ repeat 0 1018]> {[32 := dinode_put 64 test_dinode zeroblock]}.

Definition test_file : file := mkfile FD_INODE 1 true true 0 (Some 0%nat) 0 0.

Definition unlocked (l : lockid) (s : kstate) : kstate := setlock l (fun _ => mkspinlock 0 "test" None) s.

(** The memory of [m], with page table [RAMBASE] for process 3. *)
Definition machine (m : kstate) : kstate :=
  set_k_mem (fun _ => k_mem m) (set_k_freelist (fun _ => k_freelist m)
  (set_k_sb (fun _ => test_sb) (set_k_files (fun _ => [test_file]) (set_k_inodes (fun _ => [test_ino; test_spare])
  (set_k_procs (alter (set_p_pagetable (fun _ => RAMBASE)) 3%nat)
  (set_k_log (fun _ => mklog 2 LOGSIZE 0 false ROOTDEV 0 (repeat 0 30))
  (unlocked L_log (unlocked L_kmem (unlocked (L_sl (SL_inode 0)) (unlocked (L_sl (SL_inode 1)) (boot_state test_disk))))))))))).

Lemma unlocked_free l l' s : lock_free s l' \/ l = l' -> lock_free (unlocked l s) l'.
Proof. apply lock_free_init. Qed.

Lemma bworld_unlocked l s me : bworld s me -> bworld (unlocked l s) me.
Proof.
  intros ((H1 & H2 & H3 & H4 & H5 & H6) & Hb & Hs).
  split; [split_and!; try done; intros i Hi; apply unlocked_free; left; by apply H6|].
  split; [apply unlocked_free; by left|]. intros i Hi. apply unlocked_free. left. by apply Hs.
Qed.
Lemma machine_world m : bworld (machine m) 3.
Proof.
  pose proof (bt_world _ _ _ _ _ (boot_state_booted test_disk)) as Hw.
  apply (bworld_unlocked (L_sl (SL_inode 1))), (bworld_unlocked (L_sl (SL_inode 0))), (bworld_unlocked L_kmem), (bworld_unlocked L_log) in Hw.
  apply (bworld_setlog _ _ (fun _ => mklog 2 LOGSIZE 0 false ROOTDEV 0 (repeat 0 30))) in Hw.
  apply (bworld_procs (alter (set_p_pagetable (fun _ => RAMBASE)) 3%nat)) in Hw; [|apply length_alter].
  destruct Hw as ((H1 & H2 & H3 & H4 & H5 & H6) & Hb & Hs). exact (conj (conj H1 (conj H2 (conj H3 (conj H4 (conj H5 H6))))) (conj Hb Hs)).
Qed.

Lemma lock_free_of s s' l : k_locks s' = k_locks s -> lock_free s' l = lock_free s l.
Proof. intros E. unfold lock_free. by rewrite E. Qed.

Lemma machine_lock m l : l ∈ [L_log; L_kmem; L_sl (SL_inode 0); L_sl (SL_inode 1)] -> lock_free (machine m) l.
Proof.
  intros H. rewrite (lock_free_of (unlocked L_log (unlocked L_kmem (unlocked (L_sl (SL_inode 0)) (unlocked (L_sl (SL_inode 1)) (boot_state test_disk)))))) by reflexivity.
  rewrite !elem_of_cons, elem_of_nil in H.
  destruct H as [->|[->|[->|[->|[]]]]]; repeat (apply unlocked_free; (by right) || left).
Qed.

Lemma store_rep_of s s' st : k_bufs s' = k_bufs s -> k_disk s' = k_disk s -> store_rep s st -> store_rep s' st.
Proof. intros E1 E2. unfold store_rep, brep. by rewrite E1, E2. Qed.

Lemma machine_log m : log_ok (machine m) 3 2.
Proof.
  pose proof (boot_state_booted test_disk) as [_ Hr _ _ _ _ _ _].
  assert (Ed : k_disk (boot_state test_disk) = test_disk) by apply Hr.
  assert (Ed' : k_disk (machine m) = test_disk) by (etransitivity; [reflexivity|exact Ed]).
  split.
  - apply machine_world.
  - apply machine_lock. left.
  - rewrite Ed' . apply (store_rep_of (boot_state test_disk)); [reflexivity|reflexivity|exact Hr].
  - change (k_log (machine m)) with (mklog 2 LOGSIZE 0 false ROOTDEV 0 (repeat 0 30)).
    split; try reflexivity. vm_compute. split; congruence.
  - reflexivity.
  - reflexivity.
  - reflexivity.
  - rewrite Ed'. vm_compute. reflexivity.
  - rewrite Ed'.
    split; [vm_compute; reflexivity|vm_compute; reflexivity|done].
Qed.

Lemma machine_disk m : k_disk (machine m) = test_disk.
Proof. etransitivity; [reflexivity|]. exact (proj2 (bt_rep _ _ _ _ _ (boot_state_booted test_disk))). Qed.

Lemma repeat_lookup_zero j : (j < 13)%nat -> repeat 0 13 !! j = Some 0.
Proof. intros Hj. change (repeat 0 13) with (replicate 13 0). apply lookup_replicate. by split. Qed.

Lemma test_zero v : (forall k, faddr v test_ino k = 0) /\ forall x, ~ owns v test_ino x.
Proof.
  assert (H : forall k, faddr v test_ino k = 0).
  { intros k. unfold faddr. destruct (Z.ltb_spec k NDIRECT) as [Hk|]; [|reflexivity]. unfold NDIRECT in Hk.
    apply list_lookup_total_correct. apply repeat_lookup_zero. lia. }
  split; [exact H|]. intros x [Hx [->|(k & _ & ->)]]; [done|]. by rewrite H in Hx.
Qed.

Lemma test_layout : layout test_sb 2.
Proof. split; vm_compute; try done; split; congruence. Qed.

Lemma test_blocks : blocks_ok test_sb (on_disk test_disk).
Proof.
  split.
  - intros b Hb. change (datastart test_sb) with 46 in Hb. unfold used, bmblock.
    assert (H : forallb (fun b => negb (bit_free (on_disk test_disk (sb_bmapstart test_sb)) b)) (seqZ 0 46) = true)
      by (vm_compute; reflexivity).
    rewrite forallb_forall in H. apply negb_true_iff, H, list_elem_of_In, elem_of_seqZ. lia.
  - intros b _. unfold test_disk. destruct (decide (b = 45)) as [->|]; [rewrite on_disk_insert; vm_compute; done|].
    rewrite on_disk_insert_ne by done. destruct (decide (b = 32)) as [->|]; [vm_compute; done|].
    unfold on_disk. rewrite lookup_singleton_ne by done. vm_compute. done.
Qed.

Lemma test_cached m : cached (machine m) test_sb 0 test_ino.
Proof.
  destruct (test_zero (on_disk (k_disk (machine m)))) as [Hz Ho]. split.
  - done.
  - split; try done.
    + intros x Hx. by destruct (Ho x).
    + intros j k _ _ Hn. by rewrite Hz in Hn.
    + intros k Hk Hs. change (i_size test_ino) with 0 in Hs. unfold BSIZE in Hs. lia.
  - vm_compute. split; congruence.
  - vm_compute. split; try (split; congruence); try done. repeat constructor; vm_compute; congruence.
  - rewrite machine_disk. vm_compute. reflexivity.
  - done.
  - done.
  - done.
  - apply machine_lock. do 2 right. left.
Qed.

Lemma test_mounted m : mounted (machine m) 3 test_sb 2.
Proof. split; [apply machine_log|done|apply test_layout|rewrite machine_disk; apply test_blocks]. Qed.

Lemma test_avail : avail test_sb (on_disk test_disk) test_ino = 953.
Proof. vm_compute. reflexivity. Qed.

Lemma test_contents : disk_file test_sb (on_disk test_disk) 1 = [].
Proof. vm_compute. reflexivity. Qed.

Lemma test_missing : (size (missing (on_disk test_disk) test_ino 0 4000) <= 4)%nat.
Proof.
  change 4%nat with (size (list_to_set (seqZ 0 4) : gset Z)). apply subseteq_size. intros k.
  rewrite elem_of_missing, elem_of_list_to_set, elem_of_seqZ. intros (_ & i & Hi & ->).
  split; [apply Z.div_pos; [lia|done]|apply Z.div_lt_upper_bound; [done|unfold BSIZE; lia]].
Qed.

Definition test_map : amap := {[0 := (upage0, uperm)]}.

Lemma machine_user m fl ts :
  vmspace m fl ts test_map -> ts !! 0%nat = Some RAMBASE -> at_user (machine m) fl ts test_map 3 RAMBASE.
Proof.
  intros [V1 V2 V3 V4 V5 V6 V7 V8] Hr. pose proof (machine_world m) as ((Hc & Hp & _ & Hl & Hm & _) & _). split.
  - split; [exact Hc|apply machine_lock; right; left|exact V3|exact V4|exact V5|exact V6|exact V7|exact V8].
  - exact Hr.
  - exact Hp.
  - change (k_procs (machine m)) with (alter (set_p_pagetable (fun _ => RAMBASE)) 3%nat (k_procs (boot_state test_disk))).
    change (length (alter (set_p_pagetable (fun _ => RAMBASE)) 3%nat (k_procs (boot_state test_disk))) = NPROC) in Hl.
    rewrite length_alter in Hl. destruct (lookup_lt_is_Some_2 (k_procs (boot_state test_disk)) 3) as [q Hq]; [rewrite Hl; exact Hm|].
    rewrite (list_lookup_total_correct _ 3 (set_p_pagetable (fun _ => RAMBASE) q)); [reflexivity|].
    by rewrite list_lookup_alter_eq, Hq.
Qed.

Lemma machine_loaded m fl ts n :
  vmspace m fl ts test_map -> ts !! 0%nat = Some RAMBASE -> (n <= 4096)%nat ->
  user_src fl ts test_map 3 RAMBASE 0 (ldbytes (k_mem m) upage0 n) (machine m).
Proof.
  intros V Hr Hn. split; [exact (machine_user m fl ts V Hr)|]. intros i x Hx.
  assert (Hi : (i < n)%nat) by (apply lookup_lt_Some in Hx; by rewrite length_ldbytes in Hx).
  rewrite ldbytes_lookup in Hx by exact Hi. injection Hx as <-. unfold ubyte, upage.
  change (k_mem (machine m)) with (k_mem m). rewrite Z.add_0_l.
  rewrite Z.div_small, Z.mod_small by (unfold PGSIZE; lia). unfold test_map. rewrite lookup_singleton_eq. reflexivity.
Qed.

(** In an operation. *)
Lemma machine_op m : exists s, begin_op (machine m) = Done tt s /\ fsop s 3 test_disk test_sb 2 [] [] /\ lframe (machine m) s.
Proof.
  destruct (begin_op_run (machine m) 3 2 (machine_log m)) as (s & E & Hi & _ & F). rewrite machine_disk in Hi.
  exists s. split; [exact E|]. split; [|exact F].
  split; [by apply intx_inop|by prw (lframe_field k_sb _ _ ltac:(done) F)|rewrite (it_out _ _ _ _ _ Hi); lia|exact test_layout|exact test_blocks].
Qed.

Lemma test_inode s m : lframe (machine m) s ->
  k_inodes s !! 0%nat = Some test_ino /\ k_inodes s !! 1%nat = Some test_spare /\ file_ok test_sb (tx_get test_disk []) test_ino /\
  dinode_ok (dinode_of test_ino).
Proof.
  intros F. pose proof (test_cached m) as [H1 H2 _ H4 _ _ _ _ _]. rewrite machine_disk in H2.
  prw (lframe_field k_inodes _ _ ltac:(done) F). split; [exact H1|]. split; [reflexivity|]. split; [exact H2|exact H4].
Qed.
End FsMachine.

Import FsMachine.

Module FileCrash.

(** C1: [filewrite] of bytes in the process's memory to an open file, with
    room on the disk for them, returns the number of bytes. The file on disk
    has them at the file's offset and no other file changes. Whenever the
    machine stops, after however many of the block writes, recovery finds a
    disk on which the file has the first of them, a whole number of chunks of
    [write_max] bytes or all of them, and every other file is as it was. *)
Theorem filewrite_crash_safe s me sb start f fl ip ino free ts A root src data :
  let n := Z.of_nat (length data) in
  mounted s me sb start -> cached s sb ip ino ->
  k_files s !! f = Some fl -> f_ip fl = Some ip -> f_type fl = FD_INODE -> f_writable fl = true ->
  user_src free ts A me root src data s -> 0 <= src -> src + n < 2 ^ 64 ->
  0 <= f_off fl <= i_size ino -> f_off fl + n <= MAXFILE * BSIZE ->
  Z.of_nat (size (missing (on_disk (k_disk s)) ino (f_off fl) n)) <= avail sb (on_disk (k_disk s)) ino ->
  exists s' ws, filewrite f src n s = Done n s' /\ log_ok s' me start /\
    updated_file sb (k_disk s) ino (f_off fl) data (k_disk s') /\
    k_dtrace s' = rev ws ++ k_dtrace s /\ k_disk s' = apply_writes ws (k_disk s) /\
    forall j b me', booted b me' sb start (apply_writes (take j ws) (k_disk s)) ->
      exists b' m, initlog ROOTDEV sb b = Done tt b' /\ log_ok b' me' start /\
        (m = length data \/ (Z.to_nat write_max | m)%nat) /\
        updated_file sb (k_disk s) ino (f_off fl) (take m data) (k_disk b').
Proof.
  intros n Hm Hc Hfl Hip Hty Hwr Hu Hs0 Hs1 Ho Hmax Hav.
  pose proof (user_source free ts A me root src data Hs0 Hs1) as HS.
  assert (Hfa : file_at s f ip (f_off fl)) by (exists fl; split; [exact Hfl|split; [exact Hip|reflexivity]]).
  assert (Hsy : dino sb (on_disk (k_disk s)) (i_inum ino) = dinode_of ino) by apply Hc.
  destruct (filewrite_loop_run src data _ me sb start f ip (S (S (Z.to_nat (n / write_max)))) s ino (f_off fl) 0)
    as (s' & ino' & ws & E & S & C & _); fold n; rewrite ?Z.sub_0_r; try done.
  { unfold n. lia. }
  { change write_max with 3072. pose proof (Z.div_mod n 3072 ltac:(done)). pose proof (Z.mod_pos_bound n 3072 ltac:(done)).
    pose proof (Z.div_pos n 3072 ltac:(unfold n; lia) ltac:(done)). lia. }
  { lia. }
  rewrite drop_0 in S, C. exists s', ws. pose proof S as [A1 _ _ _ _ A6 A7 A8 _ _ _ _].
  split; [|split; [apply A1|split; [by apply with_bytes_updated|split; [exact A7|split; [exact A6|]]]]].
  - assert (Hft : k_files s !!! f = fl) by (by apply list_lookup_total_correct).
    unfold filewrite, getfile. kstep. prw Hft. prw Hwr. prw Hty. cbn [negb]. rewrite (bind_done _ _ _ _ _ E).
    by rewrite Z.eqb_refl.
  - intros j b me' Hb. destruct (C j) as (t & m & R & W & Hd).
    destruct (initlog_run b me' sb start _ t Hb R) as (b' & ws' & E' & Hk & Hs & _).
    exists b', m. split; [exact E'|]. split; [exact Hk|]. split; [exact Hd|]. apply with_bytes_updated; [exact Hsy|by apply W].
Qed.

(** 4000 bytes, which is two chunks. *)
Lemma filewrite_crash_safe_witness :
  exists s s' data, filewrite 0 0 4000 s = Done 4000 s' /\ length data = 4000%nat /\
    disk_file test_sb (on_disk (k_disk s')) 1 = data.
Proof.
  destruct vm_test_user as (m & fl & ts & V & Hr). set (data := ldbytes (k_mem m) upage0 4000).
  assert (Hl : Z.of_nat (length data) = 4000) by (unfold data; rewrite length_ldbytes; reflexivity).
  destruct (filewrite_crash_safe (machine m) 3 test_sb 2 0 test_file 0 test_ino fl ts test_map RAMBASE 0 data)
    as (s' & ws & E & _ & [U _] & _).
  - exact (test_mounted m).
  - exact (test_cached m).
  - reflexivity.
  - reflexivity.
  - reflexivity.
  - reflexivity.
  - exact (machine_loaded m fl ts 4000 V Hr ltac:(lia)).
  - lia.
  - rewrite Hl. lia.
  - cbn. lia.
  - rewrite Hl. vm_compute. congruence.
  - rewrite Hl, machine_disk, test_avail. pose proof test_missing. change (f_off test_file) with 0. lia.
  - exists (machine m), s', data. rewrite Hl in E. split; [exact E|]. split; [lia|].
    change (i_inum test_ino) with 1 in U. rewrite U, machine_disk, test_contents. unfold splice. cbn [f_off test_file Z.to_nat take app drop].
    rewrite drop_nil. apply app_nil_r.
Defined.
End FileCrash.

Module FsFiles.

(** C8: within an operation that has room for it, [writei] returns the number
    of bytes, and [readi] of the same range then returns the same number and
    stores the same bytes. *)
Theorem write_read_back user src data P s me disk sb start tx ip ino off dst `{!Source user src data P} :
  let n := Z.of_nat (length data) in
  fsop s me disk sb start tx [] -> k_inodes s !! ip = Some ino -> file_ok sb (tx_get disk tx) ino -> P s ->
  0 <= i_inum ino < sb_ninodes sb -> dinode_ok (dinode_of ino) -> Forall byte_range data ->
  0 <= src < 2 ^ 64 -> 0 <= dst -> dst + n <= 2 ^ 64 -> dst < 2 ^ 64 ->
  0 <= off <= i_size ino -> off + n <= MAXFILE * BSIZE ->
  Z.of_nat (cost sb (keys tx) ino) + nblk off n < LOGSIZE - 1 ->
  Z.of_nat (size (missing (tx_get disk tx) ino off n)) <= avail sb (tx_get disk tx) ino ->
  exists s1 s2, writei ip user src off n s = Done n s1 /\ readi ip false dst off n s1 = Done n s2 /\
    ldbytes (k_mem s2) dst (length data) = data.
Proof.
  intros n Hf Hip Hok HP Hin Hdk Hby Hs Hd Hd' Hd2 Ho Hm Hroom Hav.
  destruct (writei_run user src data P s me disk sb start tx ip ino Hf Hip Hok HP Hin Hdk off Hs Ho Hm Hroom Hav)
    as (s1 & tx1 & ino1 & E1 & [W1 W2 _ W4 W5 W6 _ _ W9 _ _ _ _] & _). fold n in E1, W5, W6, W9.
  pose proof (fo_op _ _ _ _ _ _ _ W1) as Hi1. pose proof (op_world _ _ _ _ _ _ Hi1) as [(Hc & _) _].
  pose proof (kernel_sink (k_mem s1) dst n Hd Hd') as HS.
  assert (Hr : readable ino1 off n = n) by (unfold readable; rewrite W5; lia).
  destruct (readi_run false dst n (kernel_dst (k_mem s1) dst) me disk sb start tx1 ip ino1 (fo_layout _ _ _ _ _ _ _ W1)
    (fo_blocks _ _ _ _ _ _ _ W1) W4 ltac:(unfold NBUF; fslia) s1 off n Hi1 (ifr_at _ _ _ _ _ Hip W2))
    as (s2 & E2 & _ & _ & HP2); [by split|lia|rewrite W5; lia|unfold n; lia|unfold n in *; filia|rewrite Hr; lia|].
  rewrite Hr in E2, HP2. exists s1, s2. split; [exact E1|]. split; [exact E2|].
  assert (Hb : fbytes (tx_get disk tx1) ino1 off n = data).
  { apply list_eq. intros i. unfold fbytes. destruct (decide (i < length data)%nat) as [Hi|Hi].
    - rewrite list_lookup_fmap, lookup_seqZ_lt by (unfold n; lia). cbn. rewrite W6, decide_True by (unfold n in *; lia).
      rewrite list_lookup_lookup_total_lt by done. do 2 f_equal. lia.
    - rewrite !lookup_ge_None_2; [done|lia|rewrite length_fmap, length_seqZ; unfold n; lia]. }
  rewrite Hb in HP2. destruct HP2 as [_ ->]. by apply ldbytes_stbytes_same.
Qed.

(** C9: [balloc] returns the free block with the least number. In the disk as
    the operation sees it, the block is then marked and zero, and nothing else
    is different. When no block is free, [balloc] panics. *)
Theorem balloc_exact s me disk sb start tx :
  fsop s me disk sb start tx [] -> Z.of_nat (length tx) + 1 < LOGSIZE - 1 ->
  let v := tx_get disk tx in
  (exists b s' tx', balloc ROOTDEV s = Done b s' /\ fsop s' me disk sb start tx' [] /\
    0 <= b < sb_size sb /\ ~ used sb v b /\ (forall c, 0 <= c < b -> used sb v c) /\
    (forall c, 0 <= c -> (used sb (tx_get disk tx') c <-> c = b \/ used sb v c)) /\
    (forall x, x <> bmblock sb -> tx_get disk tx' x = if decide (x = b) then zeroblk else v x)) \/
  (forall c, 0 <= c < sb_size sb -> used sb v c) /\ exists s', balloc ROOTDEV s = Panic "balloc: out of blocks" s'.
Proof.
  intros Hf Hroom v. pose proof (fo_layout _ _ _ _ _ _ _ Hf) as Hly. pose proof (layout_bounds _ _ Hly) as Hlb.
  pose proof (balloc_scan_spec (v (bmblock sb)) (sb_size sb) 0 (Z.to_nat BPB)) as Hsc.
  destruct (balloc_scan (v (bmblock sb)) 0 (sb_size sb) 0 (Z.to_nat BPB)) as [b|] eqn:Efree; [left|right].
  - destruct (free_data s me disk sb start tx [] Hf b Efree) as [Hb Hu].
    destruct (balloc_run s me disk sb start tx [] Hf ltac:(cbn; lia) ltac:(apply not_elem_of_nil) b Efree
      ltac:(apply not_elem_of_nil) Hroom) as (s' & E & Hf' & _).
    pose proof (tx_take_view s me disk sb start tx [] Hf b) as Hv. destruct Hsc as (H1 & _ & _ & H4).
    exists b, s', (tx_take sb disk tx b). split; [exact E|]. split; [exact Hf'|]. split; [lia|]. split; [exact Hu|].
    split; [exact H4|]. split.
    + intros c Hc. unfold used at 1. rewrite Hv. apply (used_taken sb start Hly v (fo_blocks _ _ _ _ _ _ _ Hf)); [fslia|exact Hc].
    + intros x Hx. rewrite Hv. unfold taken, vput. repeat case_decide; done.
  - split; [intros c Hc; apply Hsc; fslia|].
    apply (balloc_full s me disk sb start tx [] Hf ltac:(cbn; lia) ltac:(apply not_elem_of_nil) Efree). lia.
Qed.

(** C10: [bfree] of a marked data block clears its mark and changes nothing
    else; of a block that is free it panics. *)
Theorem bfree_exact s me disk sb start tx b :
  fsop s me disk sb start tx [] -> Z.of_nat (length tx) < LOGSIZE - 1 -> datastart sb <= b < sb_size sb ->
  let v := tx_get disk tx in
  (used sb v b /\ exists s' tx', bfree ROOTDEV b s = Done tt s' /\ fsop s' me disk sb start tx' [] /\
    (forall c, 0 <= c -> (used sb (tx_get disk tx') c <-> c <> b /\ used sb v c)) /\
    (forall x, x <> bmblock sb -> tx_get disk tx' x = v x)) \/
  ~ used sb v b /\ exists s', bfree ROOTDEV b s = Panic "freeing free block" s'.
Proof.
  intros Hf Hroom Hb v. pose proof (fo_layout _ _ _ _ _ _ _ Hf) as Hly. pose proof (layout_bounds _ _ Hly) as Hlb.
  destruct (decide (bit_free (v (bmblock sb)) b = false)) as [Hu|Hu]; [left|right].
  - split; [exact Hu|].
    destruct (bfree_run s me disk sb start tx [] Hf ltac:(cbn; lia) ltac:(apply not_elem_of_nil) b ltac:(fslia) Hu Hroom)
      as (s' & E & Hf' & _).
    pose proof (tx_give_view s me disk sb start tx [] Hf b) as Hv.
    exists s', (tx_give sb disk tx b). split; [exact E|]. split; [exact Hf'|]. split.
    + intros c Hc. unfold used at 1. rewrite Hv. apply (used_given sb start Hly v (fo_blocks _ _ _ _ _ _ _ Hf)); [fslia|exact Hc].
    + intros x Hx. rewrite Hv. unfold given, vput. by rewrite decide_False.
  - split; [exact Hu|].
    apply (bfree_free s me disk sb start tx [] Hf ltac:(cbn; lia) ltac:(apply not_elem_of_nil) b ltac:(fslia) Hu Hroom).
Qed.

(** C11: what [iupdate] writes, [ilock] of an entry of the inode table with
    the same number that is not valid yet reads back: type, device numbers,
    links, size and addresses. *)
Theorem iupdate_ilock s me disk sb start tx ip ino jp ino' :
  fsop s me disk sb start tx [] -> k_inodes s !! ip = Some ino -> i_dev ino = ROOTDEV ->
  0 <= i_inum ino < sb_ninodes sb -> dinode_ok (dinode_of ino) -> Z.of_nat (length tx) < LOGSIZE - 1 ->
  i_type ino <> 0 -> k_inodes s !! jp = Some ino' -> i_dev ino' = ROOTDEV -> i_inum ino' = i_inum ino ->
  1 <= i_ref ino' -> i_valid ino' = false -> sl_locked (i_lock ino') = 0 -> lock_free s (L_sl (SL_inode jp)) ->
  exists s1 s2 ino2, iupdate ip s = Done tt s1 /\ ilock (Some jp) s1 = Done tt s2 /\
    k_inodes s2 !! jp = Some ino2 /\ i_valid ino2 = true /\ dinode_of ino2 = dinode_of ino.
Proof.
  intros Hf Hip Hdev Hin Hdk Hroom Hty Hjp Hdev' Hin' Href Hval Hfree Hlk.
  destruct (iupdate_run s me disk sb start tx ip ino Hf Hip Hdev (dk_len _ Hdk) Hin Hroom) as (s1 & E1 & Hf1 & F1).
  pose proof Hf1 as [Hi1 Hs1 _ Hly Hbo1]. destruct (op_world _ _ _ _ _ _ Hi1) as [Hq1 _].
  assert (Hjp1 : k_inodes s1 !! jp = Some ino') by (by prw (opframe_field k_inodes _ _ ltac:(done) F1)).
  assert (Hlk1 : lock_free s1 (L_sl (SL_inode jp))).
  { unfold lock_free. prw (opframe_field k_locks _ _ ltac:(done) F1). exact Hlk. }
  pose proof (tx_put_len (IBLOCK (i_inum ino) sb) (dinode_put (ioff (i_inum ino)) (dinode_of ino)
    (tx_get disk tx (IBLOCK (i_inum ino) sb))) tx) as Hlen.
  pose proof (tx_inode_get sb start disk tx ino (i_inum ino) Hly (fo_blocks _ _ _ _ _ _ _ Hf)
    (op_nodup _ _ _ _ _ _ (fo_op _ _ _ _ _ _ _ Hf)) Hdk Hin Hin) as Hget. rewrite decide_True, <- Hin' in Hget by done.
  destruct (ilock_load s1 me disk sb start (tx_inode sb disk tx ino) jp ino' Hi1 Hs1 Hly) as (s2 & E2 & _ & Hj2); try done.
  - unfold tx_inode, NBUF. fslia.
  - by rewrite Hin'.
  - unfold dino. by rewrite Hget.
  - exists s1, s2. eexists. split; [exact E1|]. split; [exact E2|]. split; [exact Hj2|]. split; [reflexivity|].
    unfold dino. rewrite Hget. by destruct ino.
Qed.

Lemma write_read_back_witness :
  exists s s1 s2, writei 0 false RAMBASE 0 5 s = Done 5 s1 /\ readi 0 false (RAMBASE + 64) 0 5 s1 = Done 5 s2 /\
    ldbytes (k_mem s2) (RAMBASE + 64) 5 = ldbytes (k_mem s) RAMBASE 5.
Proof.
  destruct (machine_op sl_test_state) as (s & _ & Hf & F). destruct (test_inode _ _ F) as (H1 & _ & H3 & H4).
  pose proof (kernel_source (k_mem s) RAMBASE 5 ltac:(rewrite RAMBASE_val; lia) ltac:(rewrite RAMBASE_val; lia)) as HS.
  destruct (op_world _ _ _ _ _ _ (fo_op _ _ _ _ _ _ _ Hf)) as [(Hc & _) _].
  destruct (write_read_back false RAMBASE (ldbytes (k_mem s) RAMBASE 5) (kernel_src (k_mem s)) s 3 test_disk test_sb 2 [] 0
    test_ino 0 (RAMBASE + 64) Hf H1 H3) as (s1 & s2 & E1 & E2 & E3); rewrite ?length_ldbytes, ?RAMBASE_val in *; try exact H4; try lia.
  - by split.
  - vm_compute. split; congruence.
  - apply ldbytes_ok. prw (lframe_field k_mem _ _ ltac:(done) F). intros a. vm_compute. split; congruence.
  - cbn. lia.
  - vm_compute. congruence.
  - vm_compute. reflexivity.
  - change (tx_get test_disk []) with (on_disk test_disk). rewrite test_avail.
    pose proof (missing_less (on_disk test_disk) test_ino 0 (Z.of_nat 5) 4000 ltac:(lia)). pose proof test_missing. lia.
  - exists s, s1, s2. split; [exact E1|]. split; [exact E2|exact E3].
Defined.

Lemma balloc_exact_witness : exists s b s', balloc ROOTDEV s = Done b s'.
Proof.
  destruct (machine_op sl_test_state) as (s & _ & Hf & F).
  destruct (balloc_exact s 3 test_disk test_sb 2 [] Hf ltac:(done)) as [(b & s' & tx' & E & _)|[H _]].
  - exists s, b, s'. exact E.
  - exfalso. specialize (H 100 ltac:(vm_compute; split; congruence)). vm_compute in H. discriminate H.
Defined.

Lemma bfree_exact_witness : exists s s', bfree ROOTDEV 100 s = Panic "freeing free block" s'.
Proof.
  destruct (machine_op sl_test_state) as (s & _ & Hf & F).
  destruct (bfree_exact s 3 test_disk test_sb 2 [] 100 Hf ltac:(done) ltac:(vm_compute; split; congruence)) as [[H _]|[_ (s' & E)]].
  - exfalso. vm_compute in H. discriminate H.
  - exists s, s'. exact E.
Defined.

Lemma iupdate_ilock_witness : exists s s1 s2, iupdate 0 s = Done tt s1 /\ ilock (Some 1%nat) s1 = Done tt s2.
Proof.
  destruct (machine_op sl_test_state) as (s & _ & Hf & F). destruct (test_inode _ _ F) as (H1 & H2 & H3 & H4).
  destruct (iupdate_ilock s 3 test_disk test_sb 2 [] 0 test_ino 1 test_spare Hf H1 eq_refl
    ltac:(vm_compute; split; congruence) H4 ltac:(done) ltac:(done) H2 eq_refl eq_refl ltac:(done) eq_refl eq_refl)
    as (s1 & s2 & ino2 & E1 & E2 & _).
  - unfold lock_free. prw (lframe_field k_locks _ _ ltac:(done) F). apply (machine_lock sl_test_state). do 3 right. left.
  - exists s, s1, s2. split; [exact E1|exact E2].
Defined.
End FsFiles.
