(* ===== verification/Mkfs.v ===== *)
(** * Building a file-system image ([mkfs/mkfs.c])

    [mkfs] runs on the host: it writes an image file sector by sector. The
    host's [open], [lseek], [read] and [write] may fail; whether the [n]-th
    such call succeeds is a parameter. [die] and a failed [assert] are panics.
    The files to copy are given by their paths and by the pieces in which the
    host's [read] delivers their contents. *)

From stdpp Require Import gmap strings list.
From Stdlib Require Import ZArith Lia.
From S2P Require Import Prelude KState CString Spinlock Sched SleepLock Kalloc Vm Bio Log Fs.
Open Scope Z_scope.
Import Fs.

Module Mkfs.

(** The image file and the globals. *)
Record mkst := mkmkst {
  mk_img : gmap Z (list Z);
  mk_freeinode : Z;
  mk_freeblock : Z;
  mk_calls : nat }.

Definition set_mk_img (g : gmap Z (list Z) -> gmap Z (list Z)) (s : mkst) : mkst :=
  mkmkst (g (mk_img s)) (mk_freeinode s) (mk_freeblock s) (mk_calls s).
Definition set_mk_freeinode (g : Z -> Z) (s : mkst) : mkst :=
  mkmkst (mk_img s) (g (mk_freeinode s)) (mk_freeblock s) (mk_calls s).
Definition set_mk_freeblock (g : Z -> Z) (s : mkst) : mkst :=
  mkmkst (mk_img s) (mk_freeinode s) (g (mk_freeblock s)) (mk_calls s).
Definition set_mk_calls (g : nat -> nat) (s : mkst) : mkst :=
  mkmkst (mk_img s) (mk_freeinode s) (mk_freeblock s) (g (mk_calls s)).

Definition NINODES : Z := 200.
Definition nbitmap : Z := FSSIZE / (BSIZE * 8) + 1.
Definition ninodeblocks : Z := NINODES / IPB + 1.
Definition nlog : Z := LOGSIZE.
Definition nmeta : Z := 2 + nlog + ninodeblocks + nbitmap.
Definition nblocks : Z := FSSIZE - nmeta.

(** The low bytes of [x] in little-endian order, read on a little-endian host. *)
Definition xshort (x : Z) : Z := le_dec (le_enc 2 x).
Definition xint (x : Z) : Z := le_dec (le_enc 4 x).

Definition sb : superblock :=
  mksb FSMAGIC (xint FSSIZE) (xint nblocks) (xint NINODES) (xint nlog) (xint 2) (xint (2 + nlog))
       (xint (2 + nlog + ninodeblocks)).

(** [struct superblock] as bytes. *)
Definition sb_enc (sb : superblock) : list Z :=
  le_enc 4 (sb_magic sb) ++ le_enc 4 (sb_size sb) ++ le_enc 4 (sb_nblocks sb) ++ le_enc 4 (sb_ninodes sb) ++
  le_enc 4 (sb_nlog sb) ++ le_enc 4 (sb_logstart sb) ++ le_enc 4 (sb_inodestart sb) ++ le_enc 4 (sb_bmapstart sb).

Section Host.
Context (host_ok : nat -> bool).

Definition die {A} (msg : string) : M mkst A := panic msg.
Definition assert (b : bool) : M mkst unit := if b then ret tt else panic "assert".

(** A call to the host, which [msg] reports if it fails. *)
Definition host (msg : string) : M mkst unit :=
  n <- gets mk_calls;;
  modify (set_mk_calls S);;
  if host_ok n then ret tt else die msg.

Definition wsect (sec : Z) (buf : list Z) : M mkst unit :=
  host "lseek";;
  host "write";;
  modify (set_mk_img (<[sec := buf]>)).

(** Reading past the end of the image delivers no bytes. *)
Definition rsect (sec : Z) : M mkst (list Z) :=
  host "lseek";;
  host "read";;
  img <- gets mk_img;;
  match img !! sec with
  | Some buf => ret buf
  | None => die "read"
  end.

Definition winode (inum : Z) (din : dinode) : M mkst unit :=
  let bn := IBLOCK inum sb in
  buf <- rsect bn;;
  wsect bn (dinode_put (ioff inum) din buf).

Definition rinode (inum : Z) : M mkst dinode :=
  let bn := IBLOCK inum sb in
  buf <- rsect bn;;
  ret (dinode_get buf (ioff inum)).

Definition ialloc (type : Z) : M mkst Z :=
  inum <- gets mk_freeinode;;
  modify (set_mk_freeinode (fun n => u32 (n + 1)));;
  winode inum (mkdinode (xshort type) 0 0 (xshort 1) (xint 0) (replicate 13 0));;
  ret inum.

(** [balloc]: the bitmap with the first [used] bits set. *)
Fixpoint bitmap_loop (buf : list Z) (i : Z) (k : nat) : list Z :=
  match k with
  | O => buf
  | S k' => bitmap_loop (bit_set i buf) (i + 1) k'
  end.

Definition balloc (used : Z) : M mkst unit :=
  assert (used <? BSIZE * 8);;
  wsect (sb_bmapstart sb) (bitmap_loop zeroblk 0 (Z.to_nat used)).

(** [freeblock++] *)
Definition next_block : M mkst Z :=
  b <- gets mk_freeblock;;
  modify (set_mk_freeblock (fun n => u32 (n + 1)));;
  ret b.

(** The block for position [fbn] of the file, allocated if there is none, with
    the changed inode. *)
Definition iblock (din : dinode) (fbn : Z) : M mkst (Z * dinode) :=
  if fbn <? NDIRECT then
    din <- (if xint (di_addrs din !!! Z.to_nat fbn) =? 0 then
              b <- next_block;; ret (set_di_addrs (<[Z.to_nat fbn := xint b]>) din)
            else ret din);;
    ret (xint (di_addrs din !!! Z.to_nat fbn), din)
  else
    din <- (if xint (di_addrs din !!! Z.to_nat NDIRECT) =? 0 then
              b <- next_block;; ret (set_di_addrs (<[Z.to_nat NDIRECT := xint b]>) din)
            else ret din);;
    let ind := xint (di_addrs din !!! Z.to_nat NDIRECT) in
    indirect <- rsect ind;;
    indirect <- (if get32 indirect (4 * (fbn - NDIRECT)) =? 0 then
                   b <- next_block;;
                   let indirect := put32 (4 * (fbn - NDIRECT)) (xint b) indirect in
                   wsect ind indirect;; ret indirect
                 else ret indirect);;
    ret (xint (get32 indirect (4 * (fbn - NDIRECT))), din).

(** The loop of [iappend]; [p] are the bytes left to write. *)
Fixpoint iappend_loop (din : dinode) (off : Z) (p : list Z) (fuel : nat) : M mkst (dinode * Z) :=
  match fuel with
  | O => nofuel
  | S f =>
      if negb (Z.of_nat (length p) >? 0) then ret (din, off) else
      let fbn := off / BSIZE in
      assert (fbn <? MAXFILE);;
      r <- iblock din fbn;;
      let '(x, din) := r in
      let n1 := Z.min (Z.of_nat (length p)) ((fbn + 1) * BSIZE - off) in
      buf <- rsect x;;
      wsect x (splice (Z.to_nat (off - fbn * BSIZE)) (take (Z.to_nat n1) p) buf);;
      iappend_loop din (off + n1) (drop (Z.to_nat n1) p) f
  end.

Definition iappend (inum : Z) (p : list Z) : M mkst unit :=
  din <- rinode inum;;
  r <- iappend_loop din (xint (di_size din)) p (S (length p));;
  let '(din, off) := r in
  winode inum (set_di_size (fun _ => xint off) din).

(** [struct dirent]: the name has at most [DIRSIZ] bytes and is padded with zeros. *)
Definition dirent (inum : Z) (name : list Z) : list Z :=
  le_enc 2 (xshort inum) ++ take (Z.to_nat DIRSIZ) name ++ replicate (Z.to_nat DIRSIZ - length name) 0.

(** The name a file gets in the image: without "user/" and without a leading
    underscore. *)
Definition strip_user (path : list Z) : list Z :=
  if bool_decide (take 5 path = [117; 115; 101; 114; 47]) then drop 5 path else path.

Definition strip_underscore (name : list Z) : list Z :=
  match name with
  | 95 :: name' => name'
  | _ => name
  end.

Fixpoint append_all (inum : Z) (chunks : list (list Z)) : M mkst unit :=
  match chunks with
  | [] => ret tt
  | c :: cs => iappend inum c;; append_all inum cs
  end.

Definition add_file (rootino : Z) (file : list Z * list (list Z)) : M mkst unit :=
  let shortname := strip_user file.1 in
  assert (negb (bool_decide (47 ∈ shortname)));;
  host "open";;
  let shortname := strip_underscore shortname in
  inum <- ialloc T_FILE;;
  iappend rootino (dirent inum shortname);;
  append_all inum file.2.

Fixpoint add_files (rootino : Z) (files : list (list Z * list (list Z))) : M mkst unit :=
  match files with
  | [] => ret tt
  | file :: files' => add_file rootino file;; add_files rootino files'
  end.

Fixpoint zero_sectors (i : Z) (k : nat) : M mkst unit :=
  match k with
  | O => ret tt
  | S k' => wsect i zeroblk;; zero_sectors (i + 1) k'
  end.

Definition main (files : list (list Z * list (list Z))) : M mkst unit :=
  host "open";;
  modify (set_mk_freeblock (fun _ => nmeta));;
  zero_sectors 0 (Z.to_nat FSSIZE);;
  wsect 1 (splice 0 (sb_enc sb) zeroblk);;
  rootino <- ialloc T_DIR;;
  assert (rootino =? ROOTINO);;
  iappend rootino (dirent rootino [46]);;
  iappend rootino (dirent rootino [46; 46]);;
  add_files rootino files;;
  din <- rinode rootino;;
  let off := xint (di_size din) in
  let off := (off / BSIZE + 1) * BSIZE in
  winode rootino (set_di_size (fun _ => xint off) din);;
  fb <- gets mk_freeblock;;
  balloc fb.
End Host.

(** The state in which [mkfs] starts: an empty image. *)
Definition start : mkst := mkmkst ∅ 1 0 0.
End Mkfs.
