(* ===== verification/MkfsProps.v ===== *)
(** * The image that [mkfs] builds is a file system

    [mkfs] allocates blocks in order and writes the bitmap last. During the
    run, the view of the image with the bitmap that is still to be written
    satisfies the invariants of the kernel's file system, so the lemmas about
    files of [FsFile] and [FsWrite] apply to it. *)

From stdpp Require Import gmap strings list.
From Stdlib Require Import ZArith Lia.
From S2P Require Import Prelude KState CString Spinlock Sched SleepLock Kalloc Vm Bio Bcache Log LogProps LogTx FsTx Fs FsBlocks FsFile FsInode FsWrite FsRead FsCopy Uart Console File FsCrash Mkfs.
Open Scope Z_scope.
Import Vm Bio Log Fs Mkfs.

(** ** Taking a block *)

Section Taken.
Context (sb : superblock) (start : Z) (Hly : layout sb start) (v v' : Z -> list Z) (Hbo : blocks_ok sb v).
Context (ino : inode) (Hok : file_ok sb v ino).
Context (b : Z) (Hb : datastart sb <= b < sb_size sb) (Hu : ~ used sb v b) (Hv : same_view v' (taken sb v b)).

Lemma taken_used x : 0 <= x -> (used sb v' x <-> x = b \/ used sb v x).
Proof.
  intros Hx. pose proof (layout_bounds _ _ Hly). unfold used at 1. rewrite Hv.
  apply (used_taken _ _ Hly _ Hbo); [fslia|done].
Qed.

Lemma taken_same x : x <> bmblock sb -> x <> b -> v' x = v x.
Proof. intros H1 H2. rewrite Hv. unfold taken. by rewrite !vput_ne. Qed.

Lemma taken_new : v' b = zeroblk.
Proof. rewrite Hv. unfold taken. by rewrite vput_eq. Qed.

Lemma iblk_kept : iblk ino <> 0 -> v' (iblk ino) = v (iblk ino) /\ iblk ino <> bmblock sb /\ iblk ino <> b.
Proof.
  intros Hn. destruct (fk_own _ _ _ Hok _ (owns_iblk v ino Hn)) as [Hr Hu'].
  assert (iblk ino <> b) by congruence. split; [apply taken_same; fslia|]. split; [fslia|done].
Qed.

(** What allocation keeps. *)
Definition kept (v1 : Z -> list Z) (ino1 : inode) : Prop :=
  file_ok sb v1 ino1 /\ grew sb v ino v1 ino1 /\ forall k, 0 <= k < MAXFILE -> fblock v1 ino1 k = fblock v ino k.

Lemma alloc_direct bn :
  0 <= bn < NDIRECT -> i_addrs ino !!! Z.to_nat bn = 0 ->
  let ino1 := set_i_addrs (insert (Z.to_nat bn) b) ino in
  kept v' ino1 /\ iblk ino1 = iblk ino /\
  forall k, 0 <= k < MAXFILE -> faddr v' ino1 k = if decide (k = bn) then b else faddr v ino k.
Proof.
  intros Hbn H0 ino1. pose proof (fk_len _ _ _ Hok) as Hlen.
  assert (Hib : iblk ino1 = iblk ino) by (apply list_lookup_total_insert_ne; unfold NDIRECT in *; lia).
  assert (Hfa : forall k, 0 <= k < MAXFILE -> faddr v' ino1 k = if decide (k = bn) then b else faddr v ino k).
  { intros k Hk. unfold faddr. rewrite Hib. destruct (Z.ltb_spec k NDIRECT).
    - unfold ino1. cbn. case_decide as Hd.
      + subst. apply list_lookup_total_insert_eq. rewrite Hlen. unfold NDIRECT in *. lia.
      + rewrite list_lookup_total_insert_ne by lia. done.
    - rewrite decide_False by lia. destruct (Z.eqb_spec (iblk ino) 0) as [|Hn]; [done|]. by destruct (iblk_kept Hn) as [-> _]. }
  split; [|by split].
  apply (grow_data_ok sb start Hly v v' ino ino1 b Hok Hb Hu) with (bn := bn).
  - intros x Hx. by apply taken_used.
  - done.
  - unfold ino1. cbn. by rewrite length_insert.
  - intros x H1 H2 _. by apply taken_same.
  - apply taken_new.
  - unfold faddr. by rewrite (proj2 (Z.ltb_lt _ _)) by lia.
  - exact Hib.
  - exact Hfa.
Qed.

Lemma get32_zero o : get32 zeroblk o = 0.
Proof.
  unfold get32, zeroblk, slice. rewrite drop_replicate, take_replicate.
  generalize (4 `min` (Z.to_nat BSIZE - Z.to_nat o))%nat. intros n. induction n as [|n IH]; [done|]. cbn. by rewrite IH.
Qed.

Lemma alloc_ind :
  iblk ino = 0 ->
  let ino1 := set_i_addrs (insert (Z.to_nat NDIRECT) b) ino in
  kept v' ino1 /\ iblk ino1 = b /\ forall k, 0 <= k < MAXFILE -> faddr v' ino1 k = faddr v ino k.
Proof.
  intros H0 ino1. pose proof (fk_len _ _ _ Hok) as Hlen.
  assert (Hib : iblk ino1 = b) by (apply list_lookup_total_insert_eq; rewrite Hlen; unfold NDIRECT; lia).
  assert (Hfa : forall k, 0 <= k < MAXFILE -> faddr v' ino1 k = faddr v ino k).
  { intros k Hk. unfold faddr. rewrite Hib, H0. cbn [Z.eqb]. destruct (Z.ltb_spec k NDIRECT).
    - unfold ino1. cbn. apply list_lookup_total_insert_ne. unfold NDIRECT in *. lia.
    - case_match; [done|]. by rewrite taken_new, get32_zero. }
  split; [|by split]. apply (grow_ind_ok sb start Hly v v' ino ino1 b Hok Hb Hu).
  - intros x Hx. by apply taken_used.
  - done.
  - unfold ino1. cbn. by rewrite length_insert.
  - intros x H1 H2 _. by apply taken_same.
  - exact H0.
  - exact Hib.
  - exact Hfa.
Qed.

(** [b] entered in the indirect block. *)
Lemma alloc_entry v1 bn :
  NDIRECT <= bn < MAXFILE -> iblk ino <> 0 -> faddr v ino bn = 0 ->
  same_view v1 (vput (iblk ino) (put32 (4 * (bn - NDIRECT)) b (v (iblk ino))) v') ->
  kept v1 ino /\ forall k, 0 <= k < MAXFILE -> faddr v1 ino k = if decide (k = bn) then b else faddr v ino k.
Proof.
  intros Hbn Hn H0 Hv1. destruct (iblk_kept Hn) as (_ & N1 & N2). pose proof (layout_bounds _ _ Hly) as Hlb.
  destruct (fk_own _ _ _ Hok _ (owns_iblk v ino Hn)) as [Hr _].
  assert (Hlen : length (v (iblk ino)) = Z.to_nat BSIZE) by (apply (bo_len _ _ Hbo); fslia).
  assert (Hfa : forall k, 0 <= k < MAXFILE -> faddr v1 ino k = if decide (k = bn) then b else faddr v ino k).
  { intros k Hk. unfold faddr. destruct (Z.ltb_spec k NDIRECT); [by rewrite decide_False by lia|].
    rewrite (proj2 (Z.eqb_neq _ 0)) by done. rewrite Hv1, vput_eq. case_decide as Hd.
    - subst. rewrite get32_put32_same by (rewrite Hlen; filia). apply u32_small. fslia.
    - apply get32_put32_other; [filia|filia| |rewrite Hlen; filia]. filia. }
  split; [|exact Hfa]. apply (grow_data_ok sb start Hly v v1 ino ino b Hok Hb Hu) with (bn := bn).
  - intros x Hx. unfold used at 1. rewrite Hv1, vput_ne by congruence. by apply taken_used.
  - done.
  - apply (fk_len _ _ _ Hok).
  - intros x H1 H2 [?|H3]; [done|]. rewrite Hv1, vput_ne by done. by apply taken_same.
  - rewrite Hv1, vput_ne by congruence. apply taken_new.
  - done.
  - done.
  - exact Hfa.
Qed.
End Taken.

(** ** The bitmap *)

Definition bitmap (n : Z) : list Z := bitmap_loop zeroblk 0 (Z.to_nat n).

Lemma bitmap_loop_snoc k : forall buf i, bitmap_loop buf i (S k) = bit_set (i + Z.of_nat k) (bitmap_loop buf i k).
Proof.
  induction k as [|k IH]; intros buf i; [cbn; by rewrite Z.add_0_r|].
  change (bitmap_loop buf i (S (S k))) with (bitmap_loop (bit_set i buf) (i + 1) (S k)). rewrite IH.
  change (bitmap_loop buf i (S k)) with (bitmap_loop (bit_set i buf) (i + 1) k). f_equal. lia.
Qed.

Lemma bitmap_succ n : 0 <= n -> bitmap (n + 1) = bit_set n (bitmap n).
Proof.
  intros Hn. unfold bitmap. replace (Z.to_nat (n + 1)) with (S (Z.to_nat n)) by lia. rewrite bitmap_loop_snoc. f_equal. lia.
Qed.

Lemma length_bitmap n : length (bitmap n) = Z.to_nat BSIZE.
Proof.
  unfold bitmap. generalize (Z.to_nat n) as k. induction k as [|k IH]; [reflexivity|].
  by rewrite bitmap_loop_snoc, length_bit_set.
Qed.

Lemma bit_free_zero b : 0 <= b < BPB -> bit_free zeroblk b = true.
Proof.
  intros Hb. unfold bit_free, zeroblk. rewrite (list_lookup_total_correct _ _ 0); [done|].
  apply lookup_replicate. split; [done|]. unfold BPB, BSIZE in *. dlia.
Qed.

Lemma bit_free_loop k b : (k <= Z.to_nat BPB)%nat -> 0 <= b < BPB -> bit_free (bitmap_loop zeroblk 0 k) b = negb (b <? Z.of_nat k).
Proof.
  intros Hk Hb. induction k as [|k IH].
  - cbn [bitmap_loop]. rewrite bit_free_zero by done. by rewrite (proj2 (Z.ltb_ge b _)) by lia.
  - rewrite bitmap_loop_snoc, Z.add_0_l.
    assert (Hl : length (bitmap_loop zeroblk 0 k) = Z.to_nat BSIZE).
    { rewrite <- (length_bitmap (Z.of_nat k)). unfold bitmap. by rewrite Nat2Z.id. }
    rewrite bit_free_set; [|rewrite Hl; unfold BPB, BSIZE in *; lia|lia].
    rewrite IH by lia. case_decide.
    + subst. by rewrite (proj2 (Z.ltb_lt _ _)) by lia.
    + destruct (Z.ltb_spec b (Z.of_nat k)), (Z.ltb_spec b (Z.of_nat (S k))); done || lia.
Qed.

Lemma bit_free_bitmap n b : 0 <= n <= BPB -> 0 <= b < BPB -> bit_free (bitmap n) b = negb (b <? n).
Proof. intros Hn Hb. unfold bitmap. rewrite bit_free_loop by lia. by rewrite Z2Nat.id by lia. Qed.

(** ** States of [mkfs] *)

Lemma sb_val : sb = mksb FSMAGIC 1000 954 200 30 2 32 45.
Proof. reflexivity. Qed.

Lemma sb_layout : layout sb 2.
Proof. split; vm_compute; try done; split; congruence. Qed.

(** The image with the bitmap that [balloc] would write now. *)
Definition vw (img : gmap Z (list Z)) (fb : Z) : Z -> list Z := vput (bmblock sb) (bitmap fb) (on_disk img).
Definition V (s : mkst) : Z -> list Z := vw (mk_img s) (mk_freeblock s).

Record good (s : mkst) : Prop := {
  gd_dom : forall x, is_Some (mk_img s !! x) <-> 0 <= x < FSSIZE;
  gd_len : forall x d, mk_img s !! x = Some d -> length d = Z.to_nat BSIZE;
  gd_fb : nmeta <= mk_freeblock s <= FSSIZE;
  gd_free : forall x, mk_freeblock s <= x < FSSIZE -> mk_img s !! x = Some zeroblk }.

Definition same_core (s s' : mkst) : Prop :=
  mk_img s' = mk_img s /\ mk_freeinode s' = mk_freeinode s /\ mk_freeblock s' = mk_freeblock s.

Lemma good_core s s' : same_core s s' -> good s -> good s'.
Proof. intros (E1 & E2 & E3) [H1 H2 H3 H4]. split; rewrite ?E1, ?E3; done. Qed.

(** [lia] with the constants of the image. *)
Ltac mklia :=
  change nmeta with 46 in *; change (bmblock sb) with 45 in *; change (datastart sb) with 46 in *;
  change (sb_size sb) with 1000 in *; change FSSIZE with 1000 in *; change (sb_inodestart sb) with 32 in *; lia.

Lemma used_V s x : good s -> 0 <= x < FSSIZE -> (used sb (V s) x <-> x < mk_freeblock s).
Proof.
  intros [_ _ Hfb _] Hx. unfold used, V, vw. rewrite vput_eq, bit_free_bitmap by (unfold BPB, BSIZE; mklia).
  destruct (Z.ltb_spec x (mk_freeblock s)); naive_solver lia.
Qed.

Lemma good_at s x : good s -> 0 <= x < FSSIZE -> mk_img s !! x = Some (on_disk (mk_img s) x) /\ length (on_disk (mk_img s) x) = Z.to_nat BSIZE.
Proof.
  intros Hg Hx. destruct (proj2 (gd_dom _ Hg x) Hx) as [d Hd]. unfold on_disk. rewrite Hd. split; [done|].
  by apply (gd_len _ Hg x).
Qed.

Lemma good_blocks s : good s -> blocks_ok sb (V s).
Proof.
  intros Hg. pose proof (gd_fb _ Hg). split.
  - intros b Hb. apply used_V; [done|mklia|mklia].
  - intros b Hb. unfold V, vw, vput. case_decide; [apply length_bitmap|]. apply good_at; [done|mklia].
Qed.

Section Host.
Context (host_ok : nat -> bool) (Hhost : forall n, host_ok n = true).

Lemma host_run msg s : host host_ok msg s = Done tt (set_mk_calls S s).
Proof using Hhost. unfold host. kstep. by rewrite Hhost. Qed.

Lemma rsect_run s x :
  good s -> 0 <= x < FSSIZE ->
  exists s', rsect host_ok x s = Done (on_disk (mk_img s) x) s' /\ same_core s s'.
Proof using Hhost.
  intros Hg Hx. exists (set_mk_calls S (set_mk_calls S s)). split; [|done].
  unfold rsect. rewrite !(bind_done _ _ _ _ _ (host_run _ _)). kstep.
  change (mk_img (set_mk_calls S (set_mk_calls S s))) with (mk_img s). by rewrite (proj1 (good_at s x Hg Hx)).
Qed.

Lemma wsect_run s x d :
  good s -> 0 <= x < mk_freeblock s -> length d = Z.to_nat BSIZE ->
  exists s', wsect host_ok x d s = Done tt s' /\ good s' /\ mk_img s' = <[x := d]> (mk_img s) /\
    mk_freeinode s' = mk_freeinode s /\ mk_freeblock s' = mk_freeblock s /\
    (x <> bmblock sb -> same_view (V s') (vput x d (V s))).
Proof using Hhost.
  intros Hg Hx Hd. exists (set_mk_img (<[x := d]>) (set_mk_calls S (set_mk_calls S s))). pose proof (gd_fb _ Hg) as Hfb.
  split; [unfold wsect; by rewrite !(bind_done _ _ _ _ _ (host_run _ _))|].
  split; [|split; [done|split; [done|split; [done|]]]].
  - destruct Hg as [H1 H2 H3 H4]. split; cbn.
    + intros y. rewrite <- H1. rewrite lookup_insert_is_Some. split; [|destruct (decide (x = y)); [by left|by right]].
      intros [<-|[_ ?]]; [apply H1; mklia|done].
    + intros y e. rewrite lookup_insert_Some. intros [[<- <-]|[_ ?]]; [done|by apply (H2 y)].
    + done.
    + intros y Hy. rewrite lookup_insert_ne by lia. by apply H4.
  - intros Hne y. unfold V, vw, vput. cbn [mk_img mk_freeblock set_mk_img set_mk_calls].
    destruct (decide (y = x)) as [->|Hyx]; [rewrite decide_False by done; apply on_disk_insert|].
    case_decide; [done|]. by apply on_disk_insert_ne.
Qed.

Lemma next_block_run s :
  good s -> mk_freeblock s < FSSIZE ->
  exists s', next_block s = Done (mk_freeblock s) s' /\ good s' /\ mk_img s' = mk_img s /\
    mk_freeinode s' = mk_freeinode s /\ mk_freeblock s' = mk_freeblock s + 1 /\
    same_view (V s') (taken sb (V s) (mk_freeblock s)) /\
    datastart sb <= mk_freeblock s < sb_size sb /\ ~ used sb (V s) (mk_freeblock s).
Proof.
  intros Hg Hlt. pose proof (gd_fb _ Hg) as Hfb. exists (set_mk_freeblock (fun n => u32 (n + 1)) s).
  assert (E : u32 (mk_freeblock s + 1) = mk_freeblock s + 1) by (apply u32_small; mklia).
  split; [done|]. split; [|split; [done|split; [done|split; [exact E|split; [|split; [mklia|]]]]]].
  - destruct Hg as [H1 H2 H3 H4]. split; cbn; [done|done|rewrite E; mklia|]. intros x. rewrite E. intros Hx. apply H4. lia.
  - intros x. unfold V, vw, taken. cbn [mk_img mk_freeblock set_mk_freeblock]. rewrite E, bitmap_succ by mklia. unfold vput.
    destruct (decide (x = mk_freeblock s)) as [->|Hne].
    + rewrite decide_False by mklia. unfold on_disk. by rewrite (gd_free _ Hg) by lia.
    + destruct (decide (x = bmblock sb)); [|done]. by rewrite decide_True.
  - rewrite used_V by (done || mklia). lia.
Qed.

(** *** One block of a file *)

(** The file has blocks 0 to [n - 1] and no other. *)
Definition has_blocks (v : Z -> list Z) (ino : inode) (n : Z) : Prop :=
  (forall k, 0 <= k < MAXFILE -> (faddr v ino k <> 0 <-> k < n)) /\ (iblk ino <> 0 <-> NDIRECT < n).

(** The blocks such a file takes, with the indirect block. *)
Definition need (n : Z) : Z := n + if NDIRECT <? n then 1 else 0.

Lemma xint_small a : 0 <= a < 2 ^ 32 -> xint a = a.
Proof using. intros Ha. unfold xint. rewrite le_dec_enc. by apply Z.mod_small. Qed.

(** What a step on the file does to the image. *)
Record grown (s : mkst) (ino : inode) (s' : mkst) (ino' : inode) : Prop := {
  gw_good : good s';
  gw_ok : file_ok sb (V s') ino';
  gw_grew : grew sb (V s) ino (V s') ino';
  gw_meta : forall x, x < nmeta -> mk_img s' !! x = mk_img s !! x;
  gw_inode : mk_freeinode s' = mk_freeinode s }.

Lemma grown_refl s s' ino : good s -> file_ok sb (V s) ino -> same_core s s' -> grown s ino s' ino.
Proof using.
  intros Hg Hok Hc. pose proof (good_core _ _ Hc Hg) as Hg'. destruct Hc as (E1 & E2 & E3).
  assert (V s' = V s) as EV by (unfold V; by rewrite E1, E3).
  split; [done|by rewrite EV|rewrite EV; apply fgrew_refl|intros x _; by rewrite E1|done].
Qed.

Lemma grown_trans s0 i0 s1 i1 s2 i2 : grown s0 i0 s1 i1 -> grown s1 i1 s2 i2 -> grown s0 i0 s2 i2.
Proof using.
  intros [A1 A2 A3 A4 A5] [B1 B2 B3 B4 B5]. split; [done|done|by eapply grew_trans| |congruence].
  intros x Hx. by rewrite B4, A4.
Qed.

Lemma file_addr_small v ino a : file_ok sb v ino -> a = 0 \/ owns v ino a -> 0 <= a < 2 ^ 32.
Proof using. intros Hok [->|Ho]; [lia|]. destruct (fk_own _ _ _ Hok _ Ho) as [Hr _]. mklia. Qed.

Lemma addr_small v ino k : file_ok sb v ino -> 0 <= k < MAXFILE -> 0 <= faddr v ino k < 2 ^ 32.
Proof using.
  intros Hok Hk. apply (file_addr_small v ino); [done|]. destruct (decide (faddr v ino k = 0)); [by left|right]. by apply owns_faddr.
Qed.

Lemma iblk_small v ino : file_ok sb v ino -> 0 <= iblk ino < 2 ^ 32.
Proof using.
  intros Hok. apply (file_addr_small v ino); [done|]. destruct (decide (iblk ino = 0)); [by left|right]. by apply owns_iblk.
Qed.

Definition block_here (s : mkst) (ino : inode) (fbn n : Z) (s' : mkst) (ino' : inode) : Prop :=
  grown s ino s' ino' /\ (forall k, 0 <= k < MAXFILE -> fblock (V s') ino' k = fblock (V s) ino k) /\
  has_blocks (V s') ino' (Z.max n (fbn + 1)) /\
  mk_freeblock s' = mk_freeblock s + need (Z.max n (fbn + 1)) - need n.

Section Iblock.
Context (s : mkst) (ino : inode) (fbn n : Z).
Context (Hg : good s) (Hok : file_ok sb (V s) ino) (Hnb : has_blocks (V s) ino n) (Hn : 0 <= n).

Lemma here_already s' : same_core s s' -> 0 <= fbn < n -> block_here s ino fbn n s' ino.
Proof using Hg Hok Hnb.
  intros Hc Hf. split; [by apply grown_refl|]. destruct Hc as (E1 & E2 & E3).
  assert (V s' = V s) as EV by (unfold V; by rewrite E1, E3). rewrite EV, E3, Z.max_l by lia. split; [done|]. split; [done|lia].
Qed.

Lemma iblock_direct :
  0 <= fbn < NDIRECT -> n - 1 <= fbn <= n -> mk_freeblock s + need (Z.max n (fbn + 1)) - need n <= FSSIZE ->
  exists s' ino', iblock host_ok (dinode_of ino) fbn s = Done (faddr (V s') ino' fbn, dinode_of ino') s' /\
    block_here s ino fbn n s' ino'.
Proof using Hg Hok Hnb Hn Hhost.
  intros Hd Hfn Hroom. assert (Hm : 0 <= fbn < MAXFILE) by filia. pose proof (addr_small (V s) ino fbn Hok Hm) as Hsm.
  assert (Ea : forall v i, faddr v i fbn = i_addrs i !!! Z.to_nat fbn) by (intros v i; unfold faddr; by rewrite (proj2 (Z.ltb_lt _ _)) by lia).
  pose proof (proj1 Hnb fbn Hm) as Hiff. unfold iblock. rewrite (proj2 (Z.ltb_lt fbn NDIRECT)) by lia.
  change (di_addrs (dinode_of ino)) with (i_addrs ino). rewrite <- (Ea (V s)), xint_small by done.
  destruct (Z.eqb_spec (faddr (V s) ino fbn) 0) as [E0|E0].
  - assert (fbn = n) as -> by lia. rewrite Z.max_r in Hroom by lia.
    assert (Hnd : need (n + 1) - need n = 1).
    { unfold need. rewrite !(proj2 (Z.ltb_ge NDIRECT _)) by lia. lia. }
    destruct (next_block_run s Hg) as (s1 & E1 & Hg1 & I1 & F1 & B1 & V1 & R1 & U1); [lia|].
    rewrite Ea in E0. destruct (alloc_direct sb 2 sb_layout (V s) (V s1) (good_blocks s Hg) ino Hok _ R1 U1 V1 n Hd E0)
      as ((K1 & K2 & K3) & Hib & Hfa). set (ino1 := set_i_addrs (insert (Z.to_nat n) (mk_freeblock s)) ino) in *.
    assert (En : faddr (V s1) ino1 n = mk_freeblock s) by (rewrite Hfa by done; by rewrite decide_True).
    exists s1, ino1. split.
    + erewrite bind_done; [|rewrite (bind_done _ _ _ _ _ E1); reflexivity]. rewrite (xint_small (mk_freeblock s)) by mklia.
      change (di_addrs (set_di_addrs ?f (dinode_of ino))) with (f (i_addrs ino)).
      change (<[Z.to_nat n := mk_freeblock s]> (i_addrs ino)) with (i_addrs ino1). rewrite <- (Ea (V s1)), En, xint_small by mklia. done.
    + split; [split; [done|done|done|by intros x _; rewrite I1|done]|]. split; [done|]. rewrite Z.max_r by lia. split; [|lia].
      split; [|rewrite Hib; destruct Hnb as [_ ->]; lia].
      intros k Hk. rewrite Hfa by done. case_decide; [split; [lia|mklia]|]. rewrite (proj1 Hnb) by done. lia.
  - kstep. change (di_addrs (dinode_of ino)) with (i_addrs ino). rewrite <- (Ea (V s)), xint_small by done. exists s, ino. split; [done|]. apply here_already; [done|lia].
Qed.

(** The indirect block is there, or is allocated. *)
Lemma iblock_ind :
  NDIRECT <= fbn -> n - 1 <= fbn <= n -> mk_freeblock s + need (Z.max n (fbn + 1)) - need n <= FSSIZE ->
  exists s1 ino1, (if xint (di_addrs (dinode_of ino) !!! Z.to_nat NDIRECT) =? 0 then
        b <- next_block;; ret (set_di_addrs (<[Z.to_nat NDIRECT := xint b]>) (dinode_of ino))
      else ret (dinode_of ino)) s = Done (dinode_of ino1) s1 /\
    grown s ino s1 ino1 /\ (forall k, 0 <= k < MAXFILE -> fblock (V s1) ino1 k = fblock (V s) ino k) /\
    iblk ino1 <> 0 /\ (forall k, 0 <= k < MAXFILE -> faddr (V s1) ino1 k = faddr (V s) ino k) /\
    mk_freeblock s1 = mk_freeblock s + if n =? NDIRECT then 1 else 0.
Proof using Hg Hok Hnb Hn Hhost.
  intros Hd Hfn Hroom. change (di_addrs (dinode_of ino) !!! Z.to_nat NDIRECT) with (iblk ino).
  rewrite xint_small by (by eapply iblk_small). destruct (Z.eqb_spec (iblk ino) 0) as [E0|E0].
  - assert (n = NDIRECT) as -> by (destruct Hnb as [_ H]; lia). rewrite Z.eqb_refl.
    destruct (next_block_run s Hg) as (s1 & E1 & Hg1 & I1 & F1 & B1 & V1 & R1 & U1).
    { unfold need in Hroom. rewrite Z.ltb_irrefl, (proj2 (Z.ltb_lt NDIRECT _)) in Hroom by lia. lia. }
    destruct (alloc_ind sb 2 sb_layout (V s) (V s1) (good_blocks s Hg) ino Hok _ R1 U1 V1 E0) as ((K1 & K2 & K3) & Hib & Hfa).
    exists s1, (set_i_addrs (insert (Z.to_nat NDIRECT) (mk_freeblock s)) ino). split.
    + rewrite (bind_done _ _ _ _ _ E1). rewrite (xint_small (mk_freeblock s)) by mklia. reflexivity.
    + split; [split; [done|done|done|by intros x _; rewrite I1|done]|]. split; [done|]. split; [rewrite Hib; mklia|]. split; [done|lia].
  - rewrite (proj2 (Z.eqb_neq n NDIRECT)) by (destruct Hnb as [_ H]; lia). exists s, ino. split; [done|].
    split; [by apply grown_refl|]. split; [done|]. split; [done|]. split; [done|lia].
Qed.

Lemma iblock_indirect :
  NDIRECT <= fbn < MAXFILE -> n - 1 <= fbn <= n -> mk_freeblock s + need (Z.max n (fbn + 1)) - need n <= FSSIZE ->
  exists s' ino', iblock host_ok (dinode_of ino) fbn s = Done (faddr (V s') ino' fbn, dinode_of ino') s' /\
    block_here s ino fbn n s' ino'.
Proof using Hg Hok Hnb Hn Hhost.
  intros Hd Hfn Hroom. assert (Hm : 0 <= fbn < MAXFILE) by filia.
  destruct (iblock_ind ltac:(lia) Hfn Hroom) as (s1 & ino1 & E1 & G1 & K1 & Hib & Hfa1 & B1).
  pose proof (gw_good _ _ _ _ G1) as Hg1. pose proof (gw_ok _ _ _ _ G1) as Hok1. pose proof (good_blocks s1 Hg1) as Hbo1.
  destruct (fk_own _ _ _ Hok1 _ (owns_iblk (V s1) ino1 Hib)) as [Hir Hiu].
  assert (Hilt : iblk ino1 < mk_freeblock s1) by (apply used_V; [done|mklia|done]).
  destruct (rsect_run s1 (iblk ino1) Hg1 ltac:(mklia)) as (s2 & E2 & C2). pose proof (good_core _ _ C2 Hg1) as Hg2.
  assert (EV2 : V s2 = V s1) by (destruct C2 as (I2 & _ & F2); unfold V; by rewrite I2, F2).
  assert (Eind : on_disk (mk_img s1) (iblk ino1) = V s1 (iblk ino1)) by (unfold V, vw; rewrite vput_ne by mklia; done).
  assert (Hent : forall v, faddr v ino1 fbn = get32 (v (iblk ino1)) (4 * (fbn - NDIRECT))).
  { intros v. unfold faddr. by rewrite (proj2 (Z.ltb_ge _ _)), (proj2 (Z.eqb_neq _ 0)) by (done || lia). }
  unfold iblock. rewrite (proj2 (Z.ltb_ge fbn NDIRECT)) by lia. rewrite (bind_done _ _ _ _ _ E1).
  change (di_addrs (dinode_of ino1) !!! Z.to_nat NDIRECT) with (iblk ino1). cbv zeta.
  rewrite (xint_small (iblk ino1)) by (by eapply iblk_small). rewrite (bind_done _ _ _ _ _ E2), Eind, <- Hent, Hfa1 by done.
  pose proof (proj1 Hnb fbn Hm) as Hiff. pose proof (addr_small (V s) ino fbn Hok Hm) as Hsm.
  assert (Hnd : fbn = n -> mk_freeblock s1 + 1 = mk_freeblock s + need (n + 1) - need n).
  { intros ->. rewrite B1. unfold need. rewrite (proj2 (Z.ltb_lt NDIRECT (n + 1))) by lia.
    destruct (Z.eqb_spec n NDIRECT), (Z.ltb_spec NDIRECT n); lia. }
  destruct (Z.eqb_spec (faddr (V s) ino fbn) 0) as [E0|E0].
  - assert (fbn = n) as Efn by lia. specialize (Hnd Efn). subst fbn. rewrite Z.max_r in Hroom by lia.
    destruct (next_block_run s2 Hg2) as (s3 & E3 & Hg3 & I3 & F3 & B3 & V3 & R3 & U3); [destruct C2 as (_ & _ & ->); lia|].
    destruct C2 as (I2 & F2 & B2). rewrite B2, EV2 in *. set (b := mk_freeblock s1) in *.
    set (d := put32 (4 * (n - NDIRECT)) b (V s1 (iblk ino1))).
    assert (Hl1 : length (V s1 (iblk ino1)) = Z.to_nat BSIZE) by (apply (bo_len _ _ Hbo1); mklia).
    destruct (wsect_run s3 (iblk ino1) d Hg3) as (s4 & E4 & Hg4 & I4 & F4 & B4 & V4);
      [mklia|unfold d; rewrite length_put32; [done|filia|rewrite Hl1; filia]|].
    destruct (alloc_entry sb 2 sb_layout (V s1) (V s3) Hbo1 ino1 Hok1 b R3 U3 V3 (V s4) n Hd Hib) as ((K1' & K2' & K3') & Hfa4);
      [by rewrite Hfa1|apply V4; mklia|].
    assert (En : faddr (V s4) ino1 n = b) by (rewrite Hfa4 by done; by rewrite decide_True).
    exists s4, ino1. split.
    + erewrite bind_done; [|rewrite (bind_done _ _ _ _ _ E3), (xint_small b) by mklia; fold d;
        rewrite (bind_done _ _ _ _ _ E4); reflexivity].
      unfold d. rewrite get32_put32_same by (rewrite Hl1; filia). rewrite (u32_small b), (xint_small b), En by mklia. done.
    + split; [|split; [intros k Hk; rewrite K3', K1 by done; done|]].
      * eapply grown_trans; [exact G1|]. split; [done|done|done| |congruence].
        intros x Hx. rewrite I4, I3, I2. apply lookup_insert_ne. mklia.
      * rewrite Z.max_r by lia. split; [|lia]. destruct Hnb as [Hb1 Hb2]. split.
        -- intros k Hk. rewrite Hfa4 by done. case_decide; [split; [lia|mklia]|]. rewrite Hfa1, Hb1 by done. lia.
        -- split; [lia|done].
  - kstep. rewrite <- Hent, Hfa1, (xint_small (faddr (V s) ino fbn)) by done. exists s2, ino1.
    rewrite EV2, Hfa1 by done. split; [done|]. pose proof C2 as (I2 & F2 & B2). assert (Hlt : fbn < n) by lia.
    rewrite B1 in B2. rewrite (proj2 (Z.eqb_neq n NDIRECT)) in B2 by lia. split; [|split; [by rewrite EV2|split]].
    + eapply grown_trans; [exact G1|]. by apply grown_refl.
    + rewrite EV2, Z.max_l by lia. destruct Hnb as [Hb1 Hb2]. split; [intros k Hk; rewrite Hfa1 by done; by apply Hb1|split; [lia|done]].
    + rewrite Z.max_l by lia. lia.
Qed.
End Iblock.

(** *** [iappend] *)

(** The number of blocks of a file of [off] bytes. *)
Definition nb (off : Z) : Z := (off + BSIZE - 1) / BSIZE.

Lemma nb_mono a b : a <= b -> nb a <= nb b.
Proof using. intros H. apply Z.div_le_mono; [done|lia]. Qed.

Lemma need_mono a b : a <= b -> need a <= need b.
Proof using. intros H. unfold need. destruct (Z.ltb_spec NDIRECT a), (Z.ltb_spec NDIRECT b); lia. Qed.

Lemma nb_block off m :
  0 <= off -> 0 < m <= (off / BSIZE + 1) * BSIZE - off ->
  nb off - 1 <= off / BSIZE <= nb off /\ Z.max (nb off) (off / BSIZE + 1) = off / BSIZE + 1 /\ nb (off + m) = off / BSIZE + 1.
Proof using. intros Ho Hm. unfold nb, BSIZE in *. dlia. Qed.

Record appended (s : mkst) (ino : inode) (off : Z) (p : list Z) (s' : mkst) (ino' : inode) : Prop := {
  ad_grown : grown s ino s' ino';
  ad_byte : forall i, 0 <= i < MAXFILE * BSIZE -> fbyte (V s') ino' i =
    if decide (off <= i < off + Z.of_nat (length p)) then p !!! Z.to_nat (i - off) else fbyte (V s) ino i;
  ad_blocks : has_blocks (V s') ino' (nb (off + Z.of_nat (length p)));
  ad_fb : mk_freeblock s' = mk_freeblock s + need (nb (off + Z.of_nat (length p))) - need (nb off) }.

Lemma appended_app s0 s1 s2 i0 i1 i2 off p1 p2 :
  appended s0 i0 off p1 s1 i1 -> appended s1 i1 (off + Z.of_nat (length p1)) p2 s2 i2 ->
  appended s0 i0 off (p1 ++ p2) s2 i2.
Proof using.
  intros [A1 A2 A3 A4] [B1 B2 B3 B4]. rewrite <- Z.add_assoc, <- Nat2Z.inj_add, <- length_app in B3, B4.
  split; [by eapply grown_trans| |done|lia]. intros i Hi. rewrite B2 by done. rewrite length_app, Nat2Z.inj_add. case_decide as H1.
  - rewrite decide_True by lia. rewrite lookup_total_app_r by lia. f_equal. lia.
  - rewrite A2 by done. case_decide as H2; [|by rewrite decide_False by lia].
    rewrite decide_True by lia. by rewrite lookup_total_app_l by lia.
Qed.

Section Step.
Context (s : mkst) (ino : inode) (off : Z).
Context (Hg : good s) (Hok : file_ok sb (V s) ino) (Hnb : has_blocks (V s) ino (nb off)) (Hoff : 0 <= off).

(** One iteration of the loop of [iappend]. *)
Lemma append_step p :
  let fbn := off / BSIZE in
  0 < Z.of_nat (length p) <= (fbn + 1) * BSIZE - off -> off + Z.of_nat (length p) <= MAXFILE * BSIZE ->
  mk_freeblock s + need (nb (off + Z.of_nat (length p))) - need (nb off) <= FSSIZE ->
  exists x s1 ino1 buf s2 s', iblock host_ok (dinode_of ino) fbn s = Done (x, dinode_of ino1) s1 /\
    rsect host_ok x s1 = Done buf s2 /\
    wsect host_ok x (splice (Z.to_nat (off - fbn * BSIZE)) p buf) s2 = Done tt s' /\
    appended s ino off p s' ino1.
Proof using Hg Hok Hnb Hoff Hhost.
  intros fbn Hp Hmax Hroom. destruct (nb_block off (Z.of_nat (length p)) Hoff Hp) as (N1 & N2 & N3). fold fbn in N1, N2, N3.
  pose proof (Z.div_mod off BSIZE ltac:(done)) as Dm. pose proof (Z.mod_pos_bound off BSIZE ltac:(done)) as Dr. fold fbn in Dm.
  assert (Hm : 0 <= fbn < MAXFILE) by (apply block_of; lia).
  assert (exists s1 ino1, iblock host_ok (dinode_of ino) fbn s = Done (faddr (V s1) ino1 fbn, dinode_of ino1) s1 /\
    block_here s ino fbn (nb off) s1 ino1) as (s1 & ino1 & E1 & G1 & Hblk & Hnb1 & B1).
  { rewrite N3, <- N2 in Hroom. assert (Hnn : 0 <= nb off) by (apply Z.div_pos; [unfold BSIZE; lia|done]).
    destruct (Z.ltb_spec fbn NDIRECT).
    - apply (iblock_direct s ino fbn (nb off) Hg Hok Hnb Hnn); [lia|exact N1|exact Hroom].
    - apply (iblock_indirect s ino fbn (nb off) Hg Hok Hnb Hnn); [lia|exact N1|exact Hroom]. }
  rewrite N2 in Hnb1, B1. rewrite <- N3 in Hnb1, B1. set (x := faddr (V s1) ino1 fbn) in *.
  pose proof (gw_good _ _ _ _ G1) as Hg1. pose proof (gw_ok _ _ _ _ G1) as Hok1. pose proof (good_blocks s1 Hg1) as Hbo1.
  assert (Hx : x <> 0) by (apply (proj1 Hnb1); [done|lia]).
  destruct (fk_own _ _ _ Hok1 x (owns_faddr _ _ _ Hm Hx)) as [Hxr Hxu].
  destruct (rsect_run s1 x Hg1 ltac:(mklia)) as (s2 & E2 & C2). pose proof (good_core _ _ C2 Hg1) as Hg2.
  pose proof C2 as (I2 & F2 & B2). assert (EV2 : V s2 = V s1) by (unfold V; by rewrite I2, B2).
  assert (Ex : on_disk (mk_img s1) x = V s1 x) by (unfold V, vw; by rewrite vput_ne by mklia).
  assert (Hlx : length (V s1 x) = Z.to_nat BSIZE) by (apply (bo_len _ _ Hbo1); mklia).
  replace (off - fbn * BSIZE) with (off mod BSIZE) by lia. set (d := splice (Z.to_nat (off mod BSIZE)) p (V s1 x)).
  destruct (wsect_run s2 x d Hg2) as (s3 & E3 & Hg3 & I3 & F3 & B3 & V3).
  { rewrite B2. split; [mklia|]. apply used_V; [done|mklia|done]. }
  { unfold d. rewrite length_splice; rewrite Hlx; [done|unfold BSIZE in *; lia]. }
  specialize (V3 ltac:(mklia)). rewrite EV2 in V3.
  destruct (put_block_ok sb (V s1) (V s3) ino1 Hok1 fbn Hm Hx d V3) as (Hok3 & G3 & _).
  exists x, s1, ino1, (V s1 x), s2, s3. split; [exact E1|]. rewrite <- Ex at 1. split; [exact E2|]. split; [exact E3|].
  split.
  - eapply grown_trans; [exact G1|]. split; [done|done|done| |congruence].
    intros y Hy. rewrite I3, I2. apply lookup_insert_ne. mklia.
  - intros i Hi. rewrite (put_bytes sb 2 (V s1) (V s3) ino1 off p sb_layout Hok1 Hbo1); [|lia|lia|exact Hx|exact V3|done].
    case_decide; [done|]. unfold fbyte. by rewrite Hblk by (by apply block_of).
  - split; [|exact (proj2 Hnb1)]. intros k Hk. rewrite (put_block_faddr sb (V s1) (V s3) ino1 Hok1 fbn Hm Hx d V3). by apply Hnb1.
  - lia.
Qed.
End Step.

Lemma append_loop_run fuel : forall s ino off p,
  good s -> file_ok sb (V s) ino -> has_blocks (V s) ino (nb off) -> 0 <= off ->
  off + Z.of_nat (length p) <= MAXFILE * BSIZE ->
  mk_freeblock s + need (nb (off + Z.of_nat (length p))) - need (nb off) <= FSSIZE -> (length p < fuel)%nat ->
  exists s' ino', iappend_loop host_ok (dinode_of ino) off p fuel s = Done (dinode_of ino', off + Z.of_nat (length p)) s' /\
    appended s ino off p s' ino'.
Proof using Hhost.
  induction fuel as [|f IH]; intros s ino off p Hg Hok Hnb Ho Hmax Hroom Hf; [lia|]. cbn [iappend_loop].
  rewrite Z.gtb_ltb. destruct (Z.ltb_spec 0 (Z.of_nat (length p))) as [Hpos|Hz]; cbn [negb].
  2: { destruct p; [|cbn in Hz; lia]. exists s, ino. cbn [length Z.of_nat]. rewrite Z.add_0_r. split; [done|].
       split; cbn [length Z.of_nat]; rewrite ?Z.add_0_r; [by apply grown_refl| |done|lia].
       intros i Hi. by rewrite decide_False by lia. }
  set (fbn := off / BSIZE). set (n1 := Z.min (Z.of_nat (length p)) ((fbn + 1) * BSIZE - off)).
  pose proof (Z.div_mod off BSIZE ltac:(done)) as Dm. pose proof (Z.mod_pos_bound off BSIZE ltac:(done)) as Dr. fold fbn in Dm.
  assert (Hn1 : 0 < n1 <= Z.of_nat (length p)) by lia.
  set (p1 := take (Z.to_nat n1) p). assert (Hl1 : Z.of_nat (length p1) = n1) by (unfold p1; rewrite length_take; lia).
  pose proof (nb_mono (off + n1) (off + Z.of_nat (length p)) ltac:(lia)) as Hmono. apply need_mono in Hmono.
  destruct (append_step s ino off Hg Hok Hnb Ho p1) as (x & s1 & ino1 & buf & s2 & s3 & E1 & E2 & E3 & A);
    fold fbn; rewrite ?Hl1; [unfold n1; lia|lia|lia|]. fold fbn in E1, E3. pose proof A as [A1 A2 A3 A4]. rewrite Hl1 in A3, A4.
  assert (Hm : fbn < MAXFILE) by (apply block_of; lia).
  unfold assert. rewrite (proj2 (Z.ltb_lt fbn MAXFILE)) by done. kstep. rewrite (bind_done _ _ _ _ _ E1).
  fold n1 p1. rewrite (bind_done _ _ _ _ _ E2), (bind_done _ _ _ _ _ E3).
  assert (Hl2 : Z.of_nat (length (drop (Z.to_nat n1) p)) = Z.of_nat (length p) - n1) by (rewrite length_drop; lia).
  assert (Hsum : off + n1 + (Z.of_nat (length p) - n1) = off + Z.of_nat (length p)) by lia.
  destruct (IH s3 ino1 (off + n1) (drop (Z.to_nat n1) p)) as (s4 & ino4 & E4 & A'); rewrite ?Hl2, ?Hsum; try done;
    [apply A1|apply A1|lia|lia|lia|].
  rewrite Hl2, Hsum in E4. exists s4, ino4. split; [exact E4|]. rewrite <- (take_drop (Z.to_nat n1) p). fold p1.
  eapply appended_app; [exact A|]. by rewrite Hl1.
Qed.

(** *** The files of the image *)

(** The file of inode [ino] has the bytes [d]. *)
Record is_file (s : mkst) (ino : inode) (d : list Z) : Prop := {
  if_num : 1 <= i_inum ino < NINODES;
  if_sync : dino sb (V s) (i_inum ino) = dinode_of ino;
  if_range : dinode_ok (dinode_of ino);
  if_ok : file_ok sb (V s) ino;
  if_blocks : has_blocks (V s) ino (nb (i_size ino));
  if_data : contents (V s) ino = d;
  if_tail : forall i, i_size ino <= i < MAXFILE * BSIZE -> fbyte (V s) ino i = 0 }.

Lemma same_contents v v' o :
  file_ok sb v o -> (forall i, 0 <= i < MAXFILE * BSIZE -> fbyte v' o i = fbyte v o i) -> contents v' o = contents v o.
Proof using. intros Hok H. apply fbytes_ext. intros i Hi. pose proof (fk_size _ _ _ Hok). apply H. lia. Qed.

(** A step on file [ino] keeps the other files. *)
Lemma other_kept s ino s' ino' o d :
  good s -> grown s ino s' ino' -> is_file s o d -> (forall x, owns (V s) o x -> ~ owns (V s) ino x) ->
  is_file s' o d /\ (forall x, owns (V s') o x <-> owns (V s) o x) /\ (forall x, owns (V s') o x -> ~ owns (V s') ino' x).
Proof using.
  intros Hg [G1 G2 G3 G4 G5] [F1 F2 F3 F4 F5 F6 F7] Hd.
  assert (Hsame : forall x, owns (V s) o x -> V s' x = V s x).
  { intros x Hx. destruct (fk_own _ _ _ F4 x Hx) as [Hr Hu]. apply (gr_frame _ _ _ _ _ G3); [mklia|done|mklia|by apply Hd]. }
  assert (Hfa : forall k, faddr (V s') o k = faddr (V s) o k).
  { intros k. unfold faddr. case_match; [done|]. destruct (Z.eqb_spec (iblk o) 0) as [|Hn]; [done|].
    by rewrite Hsame by (by apply owns_iblk). }
  assert (Hown : forall x, owns (V s') o x <-> owns (V s) o x) by (intros x; unfold owns; by setoid_rewrite Hfa).
  assert (Hfb : forall i, 0 <= i < MAXFILE * BSIZE -> fbyte (V s') o i = fbyte (V s) o i).
  { intros i Hi. unfold fbyte, fblock. rewrite Hfa. destruct (Z.eqb_spec (faddr (V s) o (i / BSIZE)) 0) as [|Hn]; [done|].
    rewrite Hsame; [done|]. apply owns_faddr; [apply block_of; lia|done]. }
  split; [split|split; [done|]]; try done.
  - rewrite <- F2. unfold dino. f_equal. pose proof (iblock_ok sb 2 (i_inum o) sb_layout ltac:(split; [lia|apply F1])) as [Hb _].
    unfold V, vw. rewrite !vput_ne by mklia. unfold on_disk. by rewrite G4 by mklia.
  - destruct F4 as [K1 K2 K3 K4 K5 K6 K7]. split; try done.
    + intros x Hx%Hown. destruct (K3 x Hx) as [Hr Hu]. split; [done|]. apply (gr_used _ _ _ _ _ G3); [mklia|done].
    + intros j k. rewrite !Hfa. apply K4.
    + intros k. rewrite Hfa. apply K5.
    + intros k. rewrite Hfa. apply K6.
  - destruct F5 as [B1 B2]. split; [|done]. intros k Hk. rewrite Hfa. by apply B1.
  - rewrite <- F6. by apply same_contents.
  - intros i Hi. pose proof (fk_size _ _ _ F4). rewrite Hfb by lia. by apply F7.
  - intros x Hx%Hown Hx'. destruct (gr_own _ _ _ _ _ G3 x Hx') as [Hi|[_ Hu]]; [by apply (Hd x)|].
    by destruct (fk_own _ _ _ F4 x Hx).
Qed.

(** Writing an inode keeps the files; [winode] makes its disk copy [di]. *)
Lemma winode_run s inum di :
  good s -> 1 <= inum < NINODES -> dinode_ok di ->
  exists s', winode host_ok inum di s = Done tt s' /\ good s' /\ mk_freeinode s' = mk_freeinode s /\
    mk_freeblock s' = mk_freeblock s /\ (forall x, x < sb_inodestart sb -> mk_img s' !! x = mk_img s !! x) /\
    same_view (V s') (vput (IBLOCK inum sb) (dinode_put (ioff inum) di (V s (IBLOCK inum sb))) (V s)) /\
    forall j, 0 <= j < NINODES -> dino sb (V s') j = if decide (j = inum) then di else dino sb (V s) j.
Proof using Hhost.
  intros Hg Hi Hdi. pose proof (iblock_ok sb 2 inum sb_layout ltac:(split; [lia|apply Hi])) as [Hb _]. pose proof (gd_fb _ Hg).
  destruct (rsect_run s (IBLOCK inum sb) Hg ltac:(mklia)) as (s1 & E1 & C1). pose proof (good_core _ _ C1 Hg) as Hg1.
  pose proof C1 as (I1 & F1 & B1). assert (EV : V s1 = V s) by (unfold V; by rewrite I1, B1).
  assert (Ex : on_disk (mk_img s) (IBLOCK inum sb) = V s (IBLOCK inum sb)) by (unfold V, vw; by rewrite vput_ne by mklia).
  pose proof (bo_len _ _ (good_blocks s Hg) (IBLOCK inum sb) ltac:(mklia)) as Hl.
  destruct (ioff_range inum ltac:(lia)) as (o & Eo & Ho).
  assert (Hld : length (dinode_put (ioff inum) di (V s (IBLOCK inum sb))) = Z.to_nat BSIZE).
  { rewrite Eo, dinode_put_splice by (apply (dk_len _ Hdi) || lia). rewrite length_splice; [done|].
    rewrite length_dinode_enc by apply (dk_len _ Hdi). lia. }
  destruct (wsect_run s1 (IBLOCK inum sb) _ Hg1 ltac:(mklia) Hld) as (s2 & E2 & Hg2 & I2 & F2 & B2 & V2).
  specialize (V2 ltac:(mklia)). rewrite EV in V2. exists s2. split; [|split; [done|split; [congruence|split; [congruence|split; [|split; [done|]]]]]].
  - unfold winode. cbv zeta. rewrite (bind_done _ _ _ _ _ E1), Ex. exact E2.
  - intros x Hx. rewrite I2, I1. apply lookup_insert_ne. mklia.
  - intros j Hj. apply (dinode_view sb 2 (V s)); [exact sb_layout|by apply good_blocks|done|split; [lia|apply Hi]|exact Hj|done].
Qed.

Lemma meta_file v v' h e o n :
  same_view v' (vput h e v) -> h < bmblock sb -> file_ok sb v o -> has_blocks v o n ->
  file_ok sb v' o /\ has_blocks v' o n /\ (forall i, 0 <= i < MAXFILE * BSIZE -> fbyte v' o i = fbyte v o i) /\
  (forall x, owns v' o x <-> owns v o x).
Proof using.
  intros Hv Hh Hok [B1 B2]. split; [exact (put_meta_ok sb v v' o Hok h e Hh Hv)|].
  split; [split; [|done]; intros k Hk; rewrite (put_meta_faddr sb v v' o Hok h e Hh Hv); by apply B1|].
  split; [|exact (put_meta_owns sb v v' o Hok h e Hh Hv)].
  intros i Hi. by apply (put_meta_fbyte sb v v' o Hok h e Hh Hv).
Qed.

Definition total (fs : list (inode * list Z)) : Z := foldr (fun f n => need (nb (i_size f.1)) + n) 0 fs.

(** The image has the files [fs], numbered from 1 on, which share no block; the
    blocks up to [freeblock] are theirs. *)
Record image (s : mkst) (fs : list (inode * list Z)) : Prop := {
  im_good : good s;
  im_next : mk_freeinode s = 1 + Z.of_nat (length fs);
  im_file : forall j ino d, fs !! j = Some (ino, d) -> is_file s ino d /\ i_inum ino = Z.of_nat j + 1;
  im_apart : forall j k a b, fs !! j = Some a -> fs !! k = Some b -> j <> k ->
    forall x, owns (V s) a.1 x -> ~ owns (V s) b.1 x;
  im_total : mk_freeblock s = nmeta + total fs;
  im_super : mk_img s !! 1 = Some (splice 0 (sb_enc sb) zeroblk);
  im_log : forall x, 2 <= x < sb_inodestart sb -> mk_img s !! x = Some zeroblk }.

Lemma total_app fs fs' : total (fs ++ fs') = total fs + total fs'.
Proof using.
  induction fs as [|f fs IH]; [done|].
  change (need (nb (i_size f.1)) + total (fs ++ fs') = need (nb (i_size f.1)) + total fs + total fs'). lia.
Qed.

Lemma total_insert fs j ino d ino' d' :
  fs !! j = Some (ino, d) -> total (<[j := (ino', d')]> fs) = total fs + need (nb (i_size ino')) - need (nb (i_size ino)).
Proof using.
  revert j. induction fs as [|f fs IH]; intros [|j] Hj; [done|done|..].
  - injection Hj as ->. cbn. lia.
  - change (need (nb (i_size f.1)) + total (<[j := (ino', d')]> fs) =
      need (nb (i_size f.1)) + total fs + need (nb (i_size ino')) - need (nb (i_size ino))). rewrite (IH j Hj). lia.
Qed.

(** An empty file. *)
Definition fresh (inum type : Z) : inode := mkinode ROOTDEV inum 0 (mksleeplock 0 "inode" 0) true type 0 0 1 0 (replicate 13 0).

Lemma fresh_addr v inum type : (forall k, 0 <= k < MAXFILE -> faddr v (fresh inum type) k = 0) /\ iblk (fresh inum type) = 0.
Proof using.
  split; [|reflexivity]. intros k Hk. unfold faddr. destruct (Z.ltb_spec k NDIRECT); [|reflexivity].
  apply list_lookup_total_correct, lookup_replicate. split; [done|]. unfold NDIRECT in *. lia.
Qed.

Lemma fresh_file v inum type : file_ok sb v (fresh inum type) /\ has_blocks v (fresh inum type) 0 /\
  (forall i, 0 <= i < MAXFILE * BSIZE -> fbyte v (fresh inum type) i = 0) /\ forall x, ~ owns v (fresh inum type) x.
Proof using.
  destruct (fresh_addr v inum type) as [Ha Hi].
  assert (Ho : forall x, ~ owns v (fresh inum type) x).
  { intros x [Hx [->|(k & Hk & ->)]]; [done|]. by rewrite Ha in Hx. }
  split; [split; try done|split; [split|split; [|done]]].
  - intros x Hx. by destruct (Ho x).
  - intros j k Hj _ Hn. by rewrite Ha in Hn.
  - intros k Hk Hs. change (i_size (fresh inum type)) with 0 in Hs. unfold BSIZE in Hs. lia.
  - intros k Hk. rewrite Ha by done. lia.
  - rewrite Hi. unfold NDIRECT. lia.
  - intros i Hr. unfold fbyte, fblock. rewrite Ha by (apply block_of; lia). cbn [Z.eqb]. apply list_lookup_total_correct, lookup_replicate. split; [done|]. unfold BSIZE. pose proof (Z.mod_pos_bound i 1024). lia.
Qed.

(** *** [ialloc] *)

Lemma ialloc_run s fs type :
  image s fs -> Z.of_nat (length fs) < NINODES - 1 -> 0 <= type < 2 ^ 15 ->
  exists s', ialloc host_ok type s = Done (Z.of_nat (length fs) + 1) s' /\
    image s' (fs ++ [(fresh (Z.of_nat (length fs) + 1) type, [])]).
Proof using Hhost.
  intros [M1 M2 M3 M4 M5 M6 M7] Hlen Hty. set (inum := Z.of_nat (length fs) + 1). set (ino := fresh inum type).
  assert (Hn : 1 <= inum < NINODES) by (unfold inum; lia).
  assert (Hdi : dinode_ok (dinode_of ino)).
  { split; cbn; try lia. repeat constructor; lia. }
  set (s1 := set_mk_freeinode (fun n => u32 (n + 1)) s).
  assert (Hg1 : good s1) by (destruct M1 as [H1 H2 H3 H4]; by split).
  destruct (winode_run s1 inum (dinode_of ino) Hg1 Hn Hdi) as (s2 & E2 & Hg2 & N2 & B2 & L2 & V2 & D2).
  pose proof (iblock_ok sb 2 inum sb_layout ltac:(split; [lia|apply Hn])) as [Hb _].
  change (V s1) with (V s) in V2, D2.
  exists s2. split.
  - unfold ialloc. kstep. fold s1. rewrite M2. replace (1 + Z.of_nat (length fs)) with inum by (unfold inum; lia).
    assert (Ed : mkdinode (xshort type) 0 0 (xshort 1) (xint 0) (replicate 13 0) = dinode_of ino).
    { unfold ino, fresh, dinode_of. cbn [i_type i_major i_minor i_nlink i_size i_addrs]. f_equal.
      unfold xshort. rewrite le_dec_enc. apply Z.mod_small. cbn. lia. }
    rewrite Ed, (bind_done _ _ _ _ _ E2). done.
  - split.
    + exact Hg2.
    + rewrite N2. change (mk_freeinode s1) with (u32 (mk_freeinode s + 1)). rewrite M2, length_app, u32_small; cbn; unfold NINODES in *; lia.
    + intros j o d [Hj|[Hge Hj]]%lookup_app_Some.
      * destruct (M3 j o d Hj) as [[F1 F2 F3 F4 F5 F6 F7] Hnum]. pose proof (lookup_lt_Some _ _ _ Hj).
        destruct (meta_file (V s) (V s2) _ _ o _ V2 ltac:(mklia) F4 F5) as (K1 & K2 & K3 & K4). split; [|done].
        split; try done; [rewrite D2 by lia; by rewrite decide_False by (unfold inum; lia)|by rewrite (same_contents _ _ _ F4 K3)|].
        intros i Hi. pose proof (fk_size _ _ _ F4). rewrite K3 by lia. by apply F7.
      * apply list_lookup_singleton_Some in Hj as [Hj [= <- <-]]. destruct (fresh_file (V s2) inum type) as (K1 & K2 & K3 & K4).
        split; [|unfold inum; cbn; lia]. split; [done| |done|done|done|done|done]. rewrite D2 by (cbn; lia). by rewrite decide_True.
    + intros j k a b Ha Hb' Hjk x Hx Hx'. destruct (fresh_file (V s2) inum type) as (_ & _ & _ & Kf).
      apply lookup_app_Some in Ha as [Ha|[_ Ha]]; [|apply list_lookup_singleton_Some in Ha as [_ <-]; by apply (Kf x)].
      apply lookup_app_Some in Hb' as [Hb'|[_ Hb']]; [|apply list_lookup_singleton_Some in Hb' as [_ <-]; by apply (Kf x)].
      destruct a as [oa da], b as [ob db]. destruct (M3 j oa da Ha) as [[_ _ _ F4 F5 _ _] _]. destruct (M3 k ob db Hb') as [[_ _ _ F4' F5' _ _] _].
      apply (meta_file (V s) (V s2) _ _ oa _ V2 ltac:(mklia) F4 F5) in Hx.
      apply (meta_file (V s) (V s2) _ _ ob _ V2 ltac:(mklia) F4' F5') in Hx'. exact (M4 j k _ _ Ha Hb' Hjk x Hx Hx').
    + rewrite B2. change (mk_freeblock s1) with (mk_freeblock s). rewrite M5, total_app. change (total [(ino, [])]) with 0. lia.
    + rewrite L2 by mklia. exact M6.
    + intros x Hx. rewrite L2 by lia. by apply M7.
Qed.

(** *** [iappend] on the image *)

Lemma sized_ok v ino n :
  file_ok sb v ino -> has_blocks v ino (nb n) -> 0 <= n <= MAXFILE * BSIZE -> file_ok sb v (set_i_size (fun _ => n) ino).
Proof using.
  intros [K1 K2 K3 K4 K5 K6 K7] [B1 _] Hn. split; try done. intros k Hk. change (i_size (set_i_size (fun _ => n) ino)) with n. intros Hs.
  apply B1; [filia|]. unfold nb. apply Z.lt_le_trans with (k + 1); [lia|]. apply Z.div_le_lower_bound; [done|]. unfold BSIZE in *. lia.
Qed.

Lemma appended_contents s ino p s' ino' :
  appended s ino (i_size ino) p s' ino' -> 0 <= i_size ino -> i_size ino + Z.of_nat (length p) <= MAXFILE * BSIZE ->
  contents (V s') (set_i_size (fun _ => i_size ino + Z.of_nat (length p)) ino') = contents (V s) ino ++ p.
Proof using.
  intros [_ A2 _ _] H0 Hmax. unfold contents. change (i_size (set_i_size (fun _ => ?n) ino')) with n.
  rewrite fbytes_app by lia. f_equal.
  - apply fbytes_ext. intros k Hk. change (fbyte (V s') ino' k = fbyte (V s) ino k). rewrite A2 by lia. by rewrite decide_False by lia.
  - apply list_eq. intros k. unfold fbytes. destruct (decide (k < length p)%nat) as [Hk|Hk].
    + rewrite list_lookup_fmap, lookup_seqZ_lt by lia. cbn [fmap option_fmap option_map].
      change (fbyte (V s') (set_i_size ?f ino') ?x) with (fbyte (V s') ino' x). rewrite A2, decide_True by lia.
      rewrite list_lookup_lookup_total_lt by done. do 2 f_equal. lia.
    + rewrite !lookup_ge_None_2; [done|lia|rewrite length_fmap, length_seqZ; lia].
Qed.

Lemma rinode_run s ino d : good s -> is_file s ino d ->
  exists s', rinode host_ok (i_inum ino) s = Done (dinode_of ino) s' /\ same_core s s'.
Proof using Hhost.
  intros Hg [F1 F2 _ _ _ _ _]. pose proof (iblock_ok sb 2 (i_inum ino) sb_layout ltac:(split; [lia|apply F1])) as [Hb _].
  destruct (rsect_run s (IBLOCK (i_inum ino) sb) Hg ltac:(mklia)) as (s1 & E1 & C1). exists s1. split; [|done].
  unfold rinode. cbv zeta. rewrite (bind_done _ _ _ _ _ E1). unfold ret. f_equal. rewrite <- F2. unfold dino. f_equal.
  unfold V, vw. by rewrite vput_ne by mklia.
Qed.

(** The inode [ino] with the size [n]. *)
Definition sized (n : Z) (ino : inode) : inode := set_i_size (fun _ => n) ino.

(** [winode] for a file that has grown: the inode of the file changes on the
    image, the other files stay as they are. *)
Lemma other_files s fs j ino d s2 ino2 s3 n e :
  image s fs -> fs !! j = Some (ino, d) -> grown s ino s2 ino2 -> good s3 ->
  same_view (V s3) (vput (IBLOCK (i_inum ino) sb) e (V s2)) ->
  (forall i, 0 <= i < NINODES -> i <> i_inum ino -> dino sb (V s3) i = dino sb (V s2) i) ->
  (forall x, owns (V s3) (sized n ino2) x -> owns (V s2) ino2 x) ->
  forall k o c, fs !! k = Some (o, c) -> k <> j -> is_file s3 o c /\ (forall x, owns (V s3) o x -> owns (V s) o x) /\
    (forall x, owns (V s3) o x -> ~ owns (V s3) (sized n ino2) x).
Proof using.
  intros [M1 M2 M3 M4 M5 M6 M7] Hj G Hg3 V3 D3 Hown k o c Hk Hne. destruct (M3 j ino d Hj) as [[F1 _ _ _ _ _ _] Hnum].
  destruct (M3 k o c Hk) as [Hof Honum].
  pose proof (iblock_ok sb 2 (i_inum ino) sb_layout ltac:(split; [lia|apply F1])) as [Hb _].
  destruct (other_kept s ino s2 ino2 o c M1 G Hof (M4 k j _ _ Hk Hj Hne)) as ([P1 P2 P3 P4 P5 P6 P7] & Po & Pd).
  destruct (meta_file (V s2) (V s3) _ _ o _ V3 ltac:(mklia) P4 P5) as (Q1 & Q2 & Q3 & Q4).
  split; [split; try done|split].
  - rewrite D3 by lia. done.
  - by rewrite (same_contents _ _ _ P4 Q3).
  - intros i Hi. pose proof (fk_size _ _ _ P4). rewrite Q3 by lia. by apply P7.
  - intros x. rewrite Q4, Po. done.
  - intros x Hx%Q4 Hx'%Hown. exact (Pd x Hx Hx').
Qed.

Lemma store_inode_run s fs j ino d s2 ino2 n :
  image s fs -> fs !! j = Some (ino, d) -> grown s ino s2 ino2 -> has_blocks (V s2) ino2 (nb n) -> 0 <= n <= MAXFILE * BSIZE ->
  (forall i, n <= i < MAXFILE * BSIZE -> fbyte (V s2) ino2 i = 0) -> mk_freeblock s2 = mk_freeblock s + need (nb n) - need (nb (i_size ino)) ->
  exists s3, winode host_ok (Z.of_nat j + 1) (dinode_of (sized n ino2)) s2 = Done tt s3 /\
    image s3 (<[j := (sized n ino2, contents (V s2) (sized n ino2))]> fs).
Proof using Hhost.
  intros Him Hj G Hbl Hn Htail Hfb. pose proof Him as [M1 M2 M3 M4 M5 M6 M7]. destruct (M3 j ino d Hj) as [[F1 F2 F3 F4 F5 F6 F7] Hnum].
  pose proof G as [G1 G2 G3 G4 G5]. pose proof (gr_ino _ _ _ _ _ G3) as Ei2. pose proof (lookup_lt_Some _ _ _ Hj) as Hjl.
  assert (Hnum3 : i_inum (sized n ino2) = i_inum ino) by (cbn; by rewrite Ei2).
  assert (Hok3 : file_ok sb (V s2) (sized n ino2)) by (by apply sized_ok).
  assert (Hdk3 : dinode_ok (dinode_of (sized n ino2))) by (apply (dinode_ok_same sb 2 (V s2) ino _ sb_layout Hok3 F3); rewrite Ei2; done).
  destruct (winode_run s2 (i_inum ino) _ G1 F1 Hdk3) as (s3 & E3 & Hg3 & N3 & B3 & L3 & V3 & D3).
  pose proof (iblock_ok sb 2 (i_inum ino) sb_layout ltac:(split; [lia|apply F1])) as [Hb _].
  destruct (meta_file (V s2) (V s3) _ _ (sized n ino2) _ V3 ltac:(mklia) Hok3 Hbl) as (K1 & K2 & K3 & K4).
  pose proof (other_files s fs j ino d s2 ino2 s3 n _ Him Hj G Hg3 V3 ltac:(intros i Hi Hne; by rewrite D3, decide_False) (fun x => proj1 (K4 x))) as Hothers.
  exists s3. split; [by rewrite <- Hnum|]. split.
  - exact Hg3.
  - rewrite length_insert. congruence.
  - intros k o e. rewrite list_lookup_insert_Some. intros [(<- & [= <- <-] & _)|[Hne Hk]].
    + split; [|congruence]. split; [by rewrite Hnum3| |done|done|done|by apply same_contents|].
      * rewrite Hnum3, D3 by lia. by rewrite decide_True.
      * change (i_size (sized n ino2)) with n. intros i Hi. rewrite K3 by lia. by apply Htail.
    + split; [by apply (Hothers k)|by apply (M3 k o e)].
  - intros k l [o e] [o' e']. rewrite !list_lookup_insert_Some.
    intros [(<- & [= <- <-] & _)|[Hne Hk]] [(<- & [= <- <-] & _)|[Hne' Hl]] Hkl x Hx Hx'; [done|..].
    + destruct (Hothers l o' e' Hl (not_eq_sym Hne')) as (_ & _ & H). exact (H x Hx' Hx).
    + destruct (Hothers k o e Hk (not_eq_sym Hne)) as (_ & _ & H). exact (H x Hx Hx').
    + destruct (Hothers k o e Hk (not_eq_sym Hne)) as (_ & H & _). destruct (Hothers l o' e' Hl (not_eq_sym Hne')) as (_ & H' & _).
      exact (M4 k l _ _ Hk Hl Hkl x (H x Hx) (H' x Hx')).
  - rewrite (total_insert _ _ _ _ _ _ Hj). change (i_size (sized n ino2)) with n. lia.
  - rewrite L3, G4 by mklia. exact M6.
  - intros x Hx. rewrite L3, G4 by mklia. by apply M7.
Qed.

Lemma image_core s s' fs : same_core s s' -> image s fs -> image s' fs.
Proof using.
  intros Hc [M1 M2 M3 M4 M5 M6 M7]. pose proof Hc as (I & N & B). assert (EV : V s' = V s) by (unfold V; by rewrite I, B).
  split; rewrite ?EV, ?I, ?N, ?B; try done; [by apply (good_core s)|]. intros k o e Hk. destruct (M3 k o e Hk) as [[] ?].
  split; [split; by rewrite ?EV|done].
Qed.

Lemma iappend_run s fs j ino d p :
  image s fs -> fs !! j = Some (ino, d) -> i_size ino + Z.of_nat (length p) <= MAXFILE * BSIZE ->
  nmeta + total fs + need (nb (i_size ino + Z.of_nat (length p))) - need (nb (i_size ino)) <= FSSIZE ->
  exists s' ino', iappend host_ok (Z.of_nat j + 1) p s = Done tt s' /\ image s' (<[j := (ino', d ++ p)]> fs) /\
    i_size ino' = i_size ino + Z.of_nat (length p) /\ i_type ino' = i_type ino.
Proof using Hhost.
  intros Him Hj Hmax Hroom. destruct (im_file _ _ Him j ino d Hj) as [Hfile Hnum].
  destruct (rinode_run s ino d (im_good _ _ Him) Hfile) as (s1 & E1 & C1). rewrite Hnum in E1.
  pose proof (image_core _ _ _ C1 Him) as Him1. destruct (im_file _ _ Him1 j ino d Hj) as [[F1 F2 F3 F4 F5 F6 F7] _].
  pose proof (fk_size _ _ _ F4) as Hsz. pose proof (im_total _ _ Him1) as Ht.
  destruct (append_loop_run (S (length p)) s1 ino (i_size ino) p) as (s2 & ino2 & E2 & A); try done; [apply Him1|lia|lia|lia|].
  assert (Htail : forall i, i_size ino + Z.of_nat (length p) <= i < MAXFILE * BSIZE -> fbyte (V s2) ino2 i = 0).
  { intros i Hi. rewrite (ad_byte _ _ _ _ _ _ A), decide_False by lia. apply F7. lia. }
  destruct (store_inode_run s1 fs j ino d s2 ino2 (i_size ino + Z.of_nat (length p)) Him1 Hj (ad_grown _ _ _ _ _ _ A) (ad_blocks _ _ _ _ _ _ A)
    ltac:(lia) Htail (ad_fb _ _ _ _ _ _ A)) as (s3 & E3 & Him3).
  exists s3, (sized (i_size ino + Z.of_nat (length p)) ino2). split; [|split; [|split; [done|]]].
  - unfold iappend. rewrite (bind_done _ _ _ _ _ E1). change (di_size (dinode_of ino)) with (i_size ino).
    rewrite (xint_small (i_size ino)), (bind_done _ _ _ _ _ E2) by filia. rewrite xint_small by filia. exact E3.
  - by rewrite <- F6, <- (appended_contents _ _ _ _ _ A) by lia.
  - cbn. by rewrite (gr_ino _ _ _ _ _ (gw_grew _ _ _ _ (ad_grown _ _ _ _ _ _ A))).
Qed.
End Host.
