(* ===== verification/MkfsImage.v ===== *)
(** * What [mkfs] builds

    The whole run of [mkfs] against its abstract effect: the list of the files
    of the image, each with its type and its bytes. *)

From stdpp Require Import gmap strings list.
From Stdlib Require Import ZArith Lia.
From S2P Require Import Prelude KState CString Spinlock Sched SleepLock Kalloc Vm Bio Bcache Log LogProps LogTx FsTx Fs FsBlocks FsFile FsInode FsWrite FsRead FsCopy Uart Console File FsCrash Mkfs MkfsProps.
Open Scope Z_scope.
Import Vm Bio Log Fs Mkfs.

Module MkfsImage.

(** A file: its type and its bytes. *)
Notation hfile := (Z * list Z)%type.

Definition tagged (f : inode * list Z) : hfile := (i_type f.1, f.2).

(** The image has the files [ts], in the order of their inode numbers from 1. *)
Definition holds (s : mkst) (ts : list hfile) : Prop := exists fs, image s fs /\ tagged <$> fs = ts.

(** The blocks a file needs. *)
Definition cells (d : list Z) : Z := need (nb (Z.of_nat (length d))).
Definition demand (ts : list hfile) : Z := foldr (fun f n => cells f.2 + n) 0 ts.
Definition room (ts : list hfile) : Prop := nmeta + demand ts <= FSSIZE.

Lemma cells_nonneg d : 0 <= cells d.
Proof. unfold cells, need. pose proof (nb_mono 0 (Z.of_nat (length d)) ltac:(lia)). change (nb 0) with 0 in *. case_match; lia. Qed.

Lemma cells_prefix d p : cells d <= cells (d ++ p).
Proof. apply need_mono, nb_mono. rewrite length_app. lia. Qed.

Lemma demand_cons t d ts : demand ((t, d) :: ts) = cells d + demand ts.
Proof. done. Qed.

Lemma demand_app ts ts' : demand (ts ++ ts') = demand ts + demand ts'.
Proof. induction ts as [|[t d] ts IH]; [done|]. rewrite <- app_comm_cons, !demand_cons. lia. Qed.

Lemma demand_nonneg ts : 0 <= demand ts.
Proof. induction ts as [|[t d] ts IH]; [done|]. rewrite demand_cons. pose proof (cells_nonneg d). lia. Qed.

Lemma file_length s ino d : is_file s ino d -> i_size ino = Z.of_nat (length d).
Proof.
  intros [_ _ _ F4 _ <- _]. unfold contents. rewrite length_fbytes. pose proof (fk_size _ _ _ F4). lia.
Qed.

Lemma total_demand s fs : image s fs -> total fs = demand (tagged <$> fs).
Proof.
  intros Him. pose proof (im_file _ _ Him) as Hf. clear Him.
  assert (H : forall ino d, (ino, d) ∈ fs -> i_size ino = Z.of_nat (length d)).
  { intros ino d [j Hj]%list_elem_of_lookup. eapply file_length, Hf, Hj. }
  clear Hf. induction fs as [|[ino d] fs IH]; [done|].
  change (need (nb (i_size ino)) + total fs = cells d + demand (tagged <$> fs)).
  rewrite IH by (intros; apply H; by right). unfold cells. by rewrite (H ino d) by left.
Qed.

Lemma holds_core s s' ts : same_core s s' -> holds s ts -> holds s' ts.
Proof. intros Hc (fs & Him & Ht). exists fs. split; [by apply (image_core s)|done]. Qed.

Section Host.
Context (host_ok : nat -> bool) (Hhost : forall n, host_ok n = true).

(** [ialloc] adds an empty file. *)
Lemma ialloc_holds s ts type :
  holds s ts -> Z.of_nat (length ts) < NINODES - 1 -> 0 <= type < 2 ^ 15 ->
  exists s', ialloc host_ok type s = Done (Z.of_nat (length ts) + 1) s' /\ holds s' (ts ++ [(type, [])]).
Proof using Hhost.
  intros (fs & Him & <-) Hlen Hty. rewrite length_fmap in *.
  destruct (ialloc_run host_ok Hhost s fs type Him Hlen Hty) as (s' & E & Him'). exists s'. split; [done|].
  exists (fs ++ [(fresh (Z.of_nat (length fs) + 1) type, [])]). split; [done|]. by rewrite fmap_app.
Qed.

(** [iappend] adds bytes at the end of a file. *)
Lemma iappend_holds s ts j t d p :
  holds s ts -> ts !! j = Some (t, d) -> Z.of_nat (length (d ++ p)) <= MAXFILE * BSIZE -> room (<[j := (t, d ++ p)]> ts) ->
  exists s', iappend host_ok (Z.of_nat j + 1) p s = Done tt s' /\ holds s' (<[j := (t, d ++ p)]> ts).
Proof using Hhost.
  intros (fs & Him & <-) Hj Hmax Hroom. apply list_lookup_fmap_Some in Hj as ([ino d'] & [= -> ->] & Hj).
  pose proof (file_length s ino d' (proj1 (im_file _ _ Him j ino d' Hj))) as Hsz. rewrite length_app in Hmax.
  assert (Hd : demand (<[j := (i_type ino, d' ++ p)]> (tagged <$> fs)) =
    demand (tagged <$> fs) + need (nb (i_size ino + Z.of_nat (length p))) - need (nb (i_size ino))).
  { rewrite (insert_take_drop _ j) by (rewrite length_fmap; by apply lookup_lt_Some in Hj).
    rewrite <- (take_drop_middle (tagged <$> fs) j (i_type ino, d')) at 3 by (by rewrite list_lookup_fmap, Hj).
    rewrite !demand_app, !demand_cons, Hsz. unfold cells. rewrite length_app, Nat2Z.inj_add. lia. }
  destruct (iappend_run host_ok Hhost s fs j ino d' p Him Hj ltac:(lia)) as (s' & ino' & E & Him' & _ & Hty).
  { rewrite (total_demand _ _ Him). unfold room in Hroom. lia. }
  exists s'. split; [done|]. exists (<[j := (ino', d' ++ p)]> fs). split; [done|]. rewrite list_fmap_insert. unfold tagged at 1. cbn. by rewrite Hty.
Qed.

Lemma append_all_holds chunks : forall s ts j t d,
  holds s ts -> ts !! j = Some (t, d) -> Z.of_nat (length (d ++ concat chunks)) <= MAXFILE * BSIZE ->
  room (<[j := (t, d ++ concat chunks)]> ts) ->
  exists s', append_all host_ok (Z.of_nat j + 1) chunks s = Done tt s' /\ holds s' (<[j := (t, d ++ concat chunks)]> ts).
Proof using Hhost.
  induction chunks as [|c cs IH]; intros s ts j t d Hh Hj Hmax Hroom; cbn [concat append_all] in *.
  - rewrite app_nil_r, list_insert_id by done. by exists s.
  - rewrite app_assoc in *. pose proof (lookup_lt_Some _ _ _ Hj) as Hlt.
    destruct (iappend_holds s ts j t d c Hh Hj) as (s1 & E1 & H1).
    { rewrite length_app in Hmax. lia. }
    { unfold room in *. rewrite !(insert_take_drop _ j) in * by done. rewrite !demand_app, !demand_cons in *.
      pose proof (cells_prefix (d ++ c) (concat cs)). lia. }
    destruct (IH s1 _ j t (d ++ c) H1) as (s2 & E2 & H2); rewrite ?list_insert_insert_eq; try done; [by apply list_lookup_insert_eq|].
    rewrite list_insert_insert_eq in H2. exists s2. split; [|done]. by rewrite (bind_done _ _ _ _ _ E1).
Qed.

(** The name of a file in the image. *)
Definition shortname (path : list Z) : list Z := strip_underscore (strip_user path).

(** The entries of the root directory for [files], whose inodes start at [n]. *)
Fixpoint dirents (n : Z) (files : list (list Z * list (list Z))) : list Z :=
  match files with
  | [] => []
  | f :: fs => dirent n (shortname f.1) ++ dirents (n + 1) fs
  end.

Definition hfile_of (f : list Z * list (list Z)) : hfile := (T_FILE, concat f.2).

(** The files can be stored: names without slashes, sizes in range. *)
Definition storable (f : list Z * list (list Z)) : Prop :=
  47 ∉ strip_user f.1 /\ Z.of_nat (length (concat f.2)) <= MAXFILE * BSIZE.

Lemma insert_last {A} (x y z : A) l : <[S (length l) := y]> (x :: l ++ [z]) = x :: l ++ [y].
Proof using. change (x :: <[length l := y]> (l ++ [z]) = x :: l ++ [y]). by rewrite insert_app_r_alt, Nat.sub_diag by lia. Qed.

Lemma add_file_holds s rd rest f :
  holds s ((T_DIR, rd) :: rest) -> Z.of_nat (length rest) + 1 < NINODES - 1 -> storable f ->
  let rd' := rd ++ dirent (Z.of_nat (length rest) + 2) (shortname f.1) in
  Z.of_nat (length rd') <= MAXFILE * BSIZE -> room ((T_DIR, rd') :: rest ++ [hfile_of f]) ->
  exists s', add_file host_ok ROOTINO f s = Done tt s' /\ holds s' ((T_DIR, rd') :: rest ++ [hfile_of f]).
Proof using Hhost.
  intros Hh Hn [Hsl Hsz] rd' Hmax Hroom. unfold add_file, Mkfs.assert. rewrite bool_decide_eq_false_2 by done. cbn [negb].
  rewrite bind_ret, (bind_done _ _ _ _ _ (host_run host_ok Hhost _ _)).
  destruct (ialloc_holds (set_mk_calls S s) _ T_FILE (holds_core s (set_mk_calls S s) _ ltac:(done) Hh)) as (s1 & E1 & H1); [cbn [length]; lia|done|].
  rewrite (bind_done _ _ _ _ _ E1). cbn [length].
  replace (Z.of_nat (S (length rest)) + 1) with (Z.of_nat (length rest) + 2) by lia.
  unfold room, hfile_of in Hroom. rewrite demand_cons, demand_app, demand_cons in Hroom. cbn [demand foldr] in Hroom.
  pose proof (cells_nonneg (concat f.2)).
  destruct (iappend_holds s1 _ 0 T_DIR rd (dirent (Z.of_nat (length rest) + 2) (shortname f.1)) H1 eq_refl Hmax) as (s2 & E2 & H2).
  { unfold room. cbn [list_insert insert app]. rewrite demand_cons, demand_app, demand_cons. cbn [demand foldr]. change (cells []) with 0. fold rd'. lia. }
  change (Z.of_nat 0 + 1) with ROOTINO in E2. fold (shortname f.1). rewrite (bind_done _ _ _ _ _ E2).
  cbn [insert list_insert app] in H2. fold rd' in H2.
  destruct (append_all_holds f.2 s2 _ (S (length rest)) T_FILE [] H2) as (s3 & E3 & H3).
  - change ((rest ++ [(T_FILE, [])]) !! length rest = Some (T_FILE, [])). by rewrite lookup_app_r, Nat.sub_diag by lia.
  - done.
  - unfold room. rewrite insert_last, demand_cons, demand_app, demand_cons. cbn [demand foldr app]. lia.
  - exists s3. replace (Z.of_nat (S (length rest)) + 1) with (Z.of_nat (length rest) + 2) in E3 by lia. split; [done|].
    rewrite insert_last in H3. exact H3.
Qed.

Lemma add_files_holds files : forall s rd rest,
  holds s ((T_DIR, rd) :: rest) -> Z.of_nat (length rest) + Z.of_nat (length files) < NINODES - 1 -> Forall storable files ->
  let rd' := rd ++ dirents (Z.of_nat (length rest) + 2) files in
  Z.of_nat (length rd') <= MAXFILE * BSIZE -> room ((T_DIR, rd') :: rest ++ (hfile_of <$> files)) ->
  exists s', add_files host_ok ROOTINO files s = Done tt s' /\ holds s' ((T_DIR, rd') :: rest ++ (hfile_of <$> files)).
Proof using Hhost.
  induction files as [|f files IH]; intros s rd rest Hh Hn Hf rd' Hmax Hroom; cbn [add_files dirents] in *.
  - unfold rd'. rewrite !app_nil_r. by exists s.
  - apply Forall_cons in Hf as [Hf1 Hf]. cbn [length fmap list_fmap] in *. unfold rd' in *. clear rd'.
    set (de := dirent (Z.of_nat (length rest) + 2) (shortname f.1)) in *. rewrite app_assoc in *.
    assert (Hr : hfile_of f :: (hfile_of <$> files) = [hfile_of f] ++ (hfile_of <$> files)) by done.
    rewrite Hr, app_assoc in *. clear Hr.
    destruct (add_file_holds s rd rest f Hh ltac:(lia) Hf1) as (s1 & E1 & H1); fold de.
    { rewrite length_app in Hmax. lia. }
    { unfold room in *. rewrite demand_cons in *. rewrite demand_app in Hroom. pose proof (demand_nonneg (hfile_of <$> files)).
      pose proof (cells_prefix (rd ++ de) (dirents (Z.of_nat (length rest) + 2 + 1) files)). lia. }
    fold de in H1. specialize (IH s1 (rd ++ de) (rest ++ [hfile_of f]) H1). rewrite length_app in IH. cbn [length] in IH.
    replace (Z.of_nat (length rest + 1) + 2) with (Z.of_nat (length rest) + 2 + 1) in IH by lia.
    destruct (IH ltac:(lia) Hf Hmax Hroom) as (s2 & E2 & H2). exists s2. split; [by rewrite (bind_done _ _ _ _ _ E1)|done].
Qed.

(** Rounding the size of a file up to a multiple of the block size. *)
Definition pad (d : list Z) : list Z := d ++ replicate (Z.to_nat (BSIZE - Z.of_nat (length d) mod BSIZE)) 0.

Lemma pad_cells d : Z.of_nat (length d) mod BSIZE <> 0 ->
  Z.of_nat (length (pad d)) = (Z.of_nat (length d) / BSIZE + 1) * BSIZE /\ nb (Z.of_nat (length (pad d))) = nb (Z.of_nat (length d)).
Proof using.
  intros Hm. pose proof (Z.mod_pos_bound (Z.of_nat (length d)) BSIZE ltac:(done)).
  pose proof (Z.div_mod (Z.of_nat (length d)) BSIZE ltac:(done)) as Hdm.
  assert (E : Z.of_nat (length (pad d)) = (Z.of_nat (length d) / BSIZE + 1) * BSIZE).
  { unfold pad. rewrite length_app, length_replicate. lia. }
  split; [done|]. rewrite E. unfold nb.
  rewrite <- (Z.div_unique ((Z.of_nat (length d) / BSIZE + 1) * BSIZE + BSIZE - 1) BSIZE (Z.of_nat (length d) / BSIZE + 1) (BSIZE - 1))
    by (unfold BSIZE in *; lia).
  apply (Z.div_unique _ _ _ (Z.of_nat (length d) mod BSIZE - 1)); [unfold BSIZE in *; lia|]. lia.
Qed.

Lemma pad_contents v ino :
  file_ok sb v ino -> (forall i, i_size ino <= i < MAXFILE * BSIZE -> fbyte v ino i = 0) -> forall n, i_size ino <= n <= MAXFILE * BSIZE ->
  contents v (sized n ino) = contents v ino ++ replicate (Z.to_nat (n - i_size ino)) 0.
Proof using.
  intros Hok Ht n Hn. pose proof (fk_size _ _ _ Hok). unfold contents. change (i_size (sized n ino)) with n.
  replace n with (i_size ino + (n - i_size ino)) at 2 by lia. rewrite fbytes_app by lia. f_equal.
  apply list_eq. intros k. unfold fbytes. destruct (decide (k < Z.to_nat (n - i_size ino))%nat).
  - rewrite list_lookup_fmap, lookup_seqZ_lt by lia. cbn [fmap option_fmap option_map].
    change (fbyte v (sized n ino) ?x) with (fbyte v ino x). rewrite Ht by lia. symmetry. by apply lookup_replicate.
  - rewrite !lookup_ge_None_2; [done|rewrite length_replicate; lia|rewrite length_fmap, length_seqZ; lia].
Qed.

Lemma pad_holds s ts j t d :
  holds s ts -> ts !! j = Some (t, d) -> Z.of_nat (length d) mod BSIZE <> 0 ->
  exists din s1 s', rinode host_ok (Z.of_nat j + 1) s = Done din s1 /\
    winode host_ok (Z.of_nat j + 1) (set_di_size (fun _ => xint ((xint (di_size din) / BSIZE + 1) * BSIZE)) din) s1 = Done tt s' /\
    holds s' (<[j := (t, pad d)]> ts).
Proof using Hhost.
  intros (fs & Him & <-) Hj Hm. apply list_lookup_fmap_Some in Hj as ([ino d'] & [= -> ->] & Hj).
  destruct (im_file _ _ Him j ino d' Hj) as [Hfile Hnum]. pose proof (file_length _ _ _ Hfile) as Hsz.
  destruct (rinode_run host_ok Hhost s ino d' (im_good _ _ Him) Hfile) as (s1 & E1 & C1). rewrite Hnum in E1.
  pose proof (image_core _ _ _ C1 Him) as Him1. destruct (im_file _ _ Him1 j ino d' Hj) as [[F1 F2 F3 F4 F5 F6 F7] _].
  pose proof (fk_size _ _ _ F4) as Hr. destruct (pad_cells d' Hm) as [Hp Hnb]. rewrite <- Hsz in Hp, Hnb, Hm.
  set (n := (i_size ino / BSIZE + 1) * BSIZE) in *.
  assert (Hn : i_size ino <= n <= MAXFILE * BSIZE).
  { pose proof (Z.div_mod (i_size ino) BSIZE ltac:(done)) as Hdm. pose proof (Z.mod_pos_bound (i_size ino) BSIZE ltac:(done)). unfold n.
    assert (i_size ino / BSIZE < MAXFILE) by (apply Z.div_lt_upper_bound; [done|]; destruct (decide (i_size ino = MAXFILE * BSIZE)) as [E|];
      [exfalso; apply Hm; rewrite E; apply Z.mod_mul; done|lia]).
    unfold BSIZE, MAXFILE, NDIRECT, NINDIRECT in *. lia. }
  destruct (store_inode_run host_ok Hhost s1 fs j ino d' s1 ino n Him1 Hj) as (s2 & E2 & Him2);
    [apply grown_refl; [apply Him1|done|done]|by rewrite <- Hp, Hnb|lia|intros i Hi; apply F7; lia|rewrite <- Hp, Hnb; lia|].
  exists (dinode_of ino), s1, s2. split; [done|]. split.
  - change (di_size (dinode_of ino)) with (i_size ino). rewrite (xint_small (i_size ino)) by filia. fold n. rewrite xint_small by filia. exact E2.
  - eexists. split; [exact Him2|]. rewrite list_fmap_insert. f_equal. unfold tagged. cbn [fst snd]. f_equal.
    rewrite pad_contents, F6 by (done || lia). unfold pad. f_equal. f_equal. rewrite <- Hsz. unfold n. pose proof (Z.div_mod (i_size ino) BSIZE ltac:(done)). lia.
Qed.

Lemma zero_sectors_run k : forall i s, 0 <= i ->
  exists s', zero_sectors host_ok i k s = Done tt s' /\ mk_freeinode s' = mk_freeinode s /\ mk_freeblock s' = mk_freeblock s /\
    forall x, mk_img s' !! x = if decide (i <= x < i + Z.of_nat k) then Some zeroblk else mk_img s !! x.
Proof using Hhost.
  induction k as [|k IH]; intros i s Hi; cbn [zero_sectors].
  - exists s. split; [done|]. split; [done|]. split; [done|]. intros x. by rewrite decide_False by lia.
  - set (s1 := set_mk_img (<[i := zeroblk]>) (set_mk_calls S (set_mk_calls S s))).
    assert (E1 : wsect host_ok i zeroblk s = Done tt s1) by (unfold wsect; by rewrite !(bind_done _ _ _ _ _ (host_run host_ok Hhost _ _))).
    destruct (IH (i + 1) s1 ltac:(lia)) as (s2 & E2 & N2 & B2 & I2). exists s2. rewrite (bind_done _ _ _ _ _ E1).
    split; [done|]. split; [done|]. split; [done|]. intros x. rewrite I2. change (mk_img s1) with (<[i := zeroblk]> (mk_img s)).
    destruct (decide (x = i)) as [->|Hne].
    + rewrite decide_False, decide_True by lia. by rewrite lookup_insert_eq.
    + rewrite lookup_insert_ne by done. case_decide; case_decide; (done || lia).
Qed.

(** The state when the superblock is written: no files yet. *)
Lemma prepared s : mk_freeblock s = nmeta -> mk_freeinode s = 1 -> (forall x, ~ 0 <= x < FSSIZE -> mk_img s !! x = None) ->
  exists s1 s2, zero_sectors host_ok 0 (Z.to_nat FSSIZE) s = Done tt s1 /\
    wsect host_ok 1 (splice 0 (sb_enc sb) zeroblk) s1 = Done tt s2 /\ holds s2 [].
Proof using Hhost.
  intros Hfb Hfi Hout. destruct (zero_sectors_run (Z.to_nat FSSIZE) 0 s ltac:(lia)) as (s1 & E1 & N1 & B1 & I1).
  rewrite Z2Nat.id in I1 by done. rewrite Z.add_0_l in I1.
  assert (Hg : good s1).
  { split.
    - intros x. rewrite I1. case_decide as Hx; [by split|]. rewrite Hout by done. split; [by intros []|done].
    - intros x d. rewrite I1. case_decide as Hx; [|by rewrite Hout by done]. intros [= <-]. apply length_replicate.
    - rewrite B1, Hfb. mklia.
    - intros x Hx. rewrite I1, decide_True; [done|]. rewrite B1, Hfb in Hx. mklia. }
  destruct (wsect_run host_ok Hhost s1 1 (splice 0 (sb_enc sb) zeroblk) Hg) as (s2 & E2 & Hg2 & I2 & N2 & B2 & _);
    [rewrite B1, Hfb; mklia|by vm_compute|].
  exists s1, s2. split; [done|]. split; [done|]. exists []. split; [|done]. split; try done.
  - by rewrite N2, N1, Hfi.
  - rewrite B2, B1, Hfb. done.
  - rewrite I2. apply lookup_insert_eq.
  - intros x Hx. rewrite I2, lookup_insert_ne by lia. rewrite I1, decide_True; [done|mklia].
Qed.
End Host.

(** ** The finished image *)

(** The blocks of the file with inode number [n]. *)
Definition disk_owns (v : Z -> list Z) (n x : Z) : Prop := owns v (inode_load (dino sb v n) inhabitant) x.

(** The image [img] is a file system with the files [ts], numbered from 1. *)
Record built (img : gmap Z (list Z)) (ts : list hfile) : Prop := {
  bu_dom : forall x, is_Some (img !! x) <-> 0 <= x < FSSIZE;
  bu_super : on_disk img 1 = splice 0 (sb_enc sb) zeroblk;
  bu_log : forall x, 2 <= x < sb_inodestart sb -> on_disk img x = zeroblk;
  bu_blocks : blocks_ok sb (on_disk img);
  bu_used : forall x, 0 <= x < FSSIZE -> (used sb (on_disk img) x <-> x < nmeta + demand ts);
  bu_file : forall j t d, ts !! j = Some (t, d) -> exists ino, i_inum ino = Z.of_nat j + 1 /\ i_inum ino < NINODES /\ i_type ino = t /\
    dino sb (on_disk img) (i_inum ino) = dinode_of ino /\ dinode_ok (dinode_of ino) /\ file_ok sb (on_disk img) ino /\
    contents (on_disk img) ino = d;
  bu_apart : forall j k x, (j < length ts)%nat -> (k < length ts)%nat -> j <> k ->
    disk_owns (on_disk img) (Z.of_nat j + 1) x -> ~ disk_owns (on_disk img) (Z.of_nat k + 1) x }.

Section Host2.
Context (host_ok : nat -> bool) (Hhost : forall n, host_ok n = true).

Lemma balloc_built s ts : holds s ts -> exists s', balloc host_ok (mk_freeblock s) s = Done tt s' /\ built (mk_img s') ts.
Proof using Hhost.
  intros (fs & Him & <-). pose proof Him as [M1 M2 M3 M4 M5 M6 M7]. pose proof (gd_fb _ M1) as Hfb.
  destruct (wsect_run host_ok Hhost s (sb_bmapstart sb) (bitmap (mk_freeblock s)) M1) as (s' & E & Hg & I & N & B & _);
    [change (sb_bmapstart sb) with 45; mklia|apply length_bitmap|].
  exists s'. split.
  { unfold balloc, Mkfs.assert. rewrite (proj2 (Z.ltb_lt _ _)) by (unfold BSIZE; mklia). exact E. }
  assert (EV : same_view (on_disk (mk_img s')) (V s)).
  { intros x. rewrite I. unfold V, vw, vput, on_disk. change (bmblock sb) with (sb_bmapstart sb). case_decide as Hx.
    - subst. by rewrite lookup_insert_eq.
    - by rewrite lookup_insert_ne. }
  assert (EV0 : same_view (on_disk (mk_img s')) (vput 0 (V s 0) (V s))).
  { intros x. rewrite EV. unfold vput. case_decide; [by subst|done]. }
  pose proof (good_blocks s M1) as [B1 B2].
  assert (Hu : forall x, used sb (on_disk (mk_img s')) x <-> used sb (V s) x) by (intros x; unfold used; by rewrite EV).
  assert (Hdino : forall n, dino sb (on_disk (mk_img s')) n = dino sb (V s) n) by (intros n; unfold dino; by rewrite EV).
  assert (Hmeta : forall x, x <> 45 -> on_disk (mk_img s') x = on_disk (mk_img s) x).
  { intros x Hx. rewrite EV. unfold V, vw. by apply vput_ne. }
  split.
  - exact (gd_dom _ Hg).
  - rewrite Hmeta by done. unfold on_disk. by rewrite M6.
  - intros x Hx. rewrite Hmeta by mklia. unfold on_disk. by rewrite M7.
  - split; [intros x Hx; by apply Hu, B1|intros x Hx; rewrite EV; by apply B2].
  - intros x Hx. rewrite Hu, used_V, M5, (total_demand _ _ Him) by done. done.
  - intros j t d Hj. apply list_lookup_fmap_Some in Hj as ([ino d'] & [= -> ->] & Hj).
    destruct (M3 j ino d' Hj) as [[F1 F2 F3 F4 F5 F6 F7] Hnum].
    destruct (meta_file _ _ _ _ _ _ EV0 ltac:(mklia) F4 F5) as (K1 & _ & K3 & _).
    exists ino. split; [done|]. split; [apply F1|]. split; [done|]. split; [by rewrite Hdino|]. split; [done|]. split; [done|].
    by rewrite (same_contents _ _ _ F4 K3).
  - intros j k x Hj Hk Hne. rewrite length_fmap in *.
    destruct (lookup_lt_is_Some_2 fs j Hj) as [[ino d] Ej]. destruct (lookup_lt_is_Some_2 fs k Hk) as [[ino' d'] Ek].
    destruct (M3 j ino d Ej) as [[F1 F2 F3 F4 F5 F6 F7] Hnum]. destruct (M3 k ino' d' Ek) as [[F1' F2' F3' F4' F5' F6' F7'] Hnum'].
    unfold disk_owns. rewrite !Hdino, <- Hnum, <- Hnum', F2, F2'.
    destruct (meta_file _ _ _ _ _ _ EV0 ltac:(mklia) F4 F5) as (_ & _ & _ & K). destruct (meta_file _ _ _ _ _ _ EV0 ltac:(mklia) F4' F5') as (_ & _ & _ & K').
    intros Hx Hx'. exact (M4 j k _ _ Ej Ek Hne x (proj1 (K x) Hx) (proj1 (K' x) Hx')).
Qed.

(** The root directory. *)
Definition root_bytes (files : list (list Z * list (list Z))) : list Z :=
  dirent ROOTINO [46] ++ dirent ROOTINO [46; 46] ++ dirents 2 files.

(** The files of the image. *)
Definition tree (files : list (list Z * list (list Z))) : list hfile := (T_DIR, pad (root_bytes files)) :: (hfile_of <$> files).

Lemma length_dirent n name : length (dirent n name) = 16%nat.
Proof using. unfold dirent. rewrite !length_app, length_le_enc, length_take, length_replicate. unfold DIRSIZ. lia. Qed.

Lemma length_root files : length (root_bytes files) = (16 * (2 + length files))%nat.
Proof using.
  unfold root_bytes. rewrite !length_app, !length_dirent. enough (forall n, length (dirents n files) = (16 * length files)%nat) as -> by lia.
  induction files as [|f files IH]; intros n; [done|]. cbn [dirents length]. rewrite length_app, length_dirent, IH. lia.
Qed.

(** The part of [main] from the root directory to the last file. *)
Lemma files_run s files :
  holds s [] -> Z.of_nat (length files) < NINODES - 1 -> Forall storable files -> room ((T_DIR, root_bytes files) :: (hfile_of <$> files)) ->
  exists s3 s4 s5 s6, ialloc host_ok T_DIR s = Done ROOTINO s3 /\ iappend host_ok ROOTINO (dirent ROOTINO [46]) s3 = Done tt s4 /\
    iappend host_ok ROOTINO (dirent ROOTINO [46; 46]) s4 = Done tt s5 /\ add_files host_ok ROOTINO files s5 = Done tt s6 /\
    holds s6 ((T_DIR, root_bytes files) :: (hfile_of <$> files)).
Proof using Hhost.
  intros Hh Hn Hf Hroom. assert (Hsmall : forall p q, root_bytes files = p ++ q -> Z.of_nat (length p) <= MAXFILE * BSIZE).
  { intros p q E. apply (f_equal length) in E. rewrite length_app, length_root in E. unfold NINODES in *. filia. }
  assert (Hfit : forall p q, root_bytes files = p ++ q -> room [(T_DIR, p)]).
  { intros p q E. unfold room in *. rewrite demand_cons in *. rewrite E in Hroom. pose proof (cells_prefix p q).
    pose proof (demand_nonneg (hfile_of <$> files)). cbn [demand foldr]. lia. }
  assert (Er : root_bytes files = (dirent ROOTINO [46] ++ dirent ROOTINO [46; 46]) ++ dirents 2 files)
    by (unfold root_bytes; by rewrite app_assoc).
  destruct (ialloc_holds host_ok Hhost s [] T_DIR Hh ltac:(done) ltac:(done)) as (s3 & E3 & H3). cbn [app length] in H3.
  destruct (iappend_holds host_ok Hhost s3 _ 0 T_DIR [] (dirent ROOTINO [46]) H3 eq_refl) as (s4 & E4 & H4);
    [by eapply Hsmall|by eapply Hfit|]. cbn [app insert list_insert] in H4.
  destruct (iappend_holds host_ok Hhost s4 _ 0 T_DIR _ (dirent ROOTINO [46; 46]) H4 eq_refl) as (s5 & E5 & H5);
    [by eapply Hsmall|by eapply Hfit|]. cbn [app insert list_insert] in H5.
  destruct (add_files_holds host_ok Hhost files s5 _ [] H5) as (s6 & E6 & H6); [done|done| | |].
  - change (Z.of_nat (length (@nil hfile)) + 2) with 2. rewrite <- Er. apply (Hsmall _ []). by rewrite app_nil_r.
  - change (Z.of_nat (length (@nil hfile)) + 2) with 2. by rewrite <- Er.
  - change (Z.of_nat (length (@nil hfile)) + 2) with 2 in H6. rewrite <- Er in H6. exists s3, s4, s5, s6. by split_and!.
Qed.

Lemma main_run files :
  Z.of_nat (length files) < NINODES - 1 -> Forall storable files -> (2 + Z.of_nat (length files)) mod 64 <> 0 -> room (tree files) ->
  exists s', main host_ok files start = Done tt s' /\ built (mk_img s') (tree files).
Proof using Hhost.
  intros Hn Hf Hm Hroom. pose proof (length_root files) as Hlr.
  assert (Hmod : Z.of_nat (length (root_bytes files)) mod BSIZE <> 0).
  { rewrite Hlr. replace (Z.of_nat (16 * (2 + length files))) with ((2 + Z.of_nat (length files)) * 16) by lia.
    change BSIZE with (64 * 16). rewrite Z.mul_mod_distr_r by done. lia. }
  destruct (pad_cells _ Hmod) as [Hpl Hpn].
  assert (Hroom' : room ((T_DIR, root_bytes files) :: (hfile_of <$> files))).
  { unfold room, tree in *. rewrite demand_cons in *. unfold cells in *. by rewrite <- Hpn. }
  unfold main. rewrite (bind_done _ _ _ _ _ (host_run host_ok Hhost _ _)). kstep.
  destruct (prepared host_ok Hhost (set_mk_freeblock (fun _ => nmeta) (set_mk_calls S start)) eq_refl eq_refl) as (s1 & s2 & E1 & E2 & H2); [done|].
  rewrite (bind_done _ _ _ _ _ E1), (bind_done _ _ _ _ _ E2).
  destruct (files_run s2 files H2 Hn Hf Hroom') as (s3 & s4 & s5 & s6 & E3 & E4 & E5 & E6 & H6).
  rewrite (bind_done _ _ _ _ _ E3). unfold Mkfs.assert at 1. change (ROOTINO =? ROOTINO) with true. cbv iota.
  rewrite bind_ret, (bind_done _ _ _ _ _ E4), (bind_done _ _ _ _ _ E5), (bind_done _ _ _ _ _ E6).
  destruct (pad_holds host_ok Hhost s6 _ 0 T_DIR _ H6 eq_refl Hmod) as (din & s7 & s8 & E7 & E8 & H8).
  rewrite (bind_done _ _ _ _ _ E7). cbv zeta. rewrite (bind_done _ _ _ _ _ E8). kstep.
  exact (balloc_built s8 (tree files) H8).
Qed.
End Host2.
End MkfsImage.
