(* ===== verification/FsBoot.v ===== *)
(** * Booting from an image

    [fsinit] of a kernel whose disk is the image that [mkfs] wrote mounts the
    file system, and the files can be read: the composition of [MkfsImage] with
    the kernel's file system. *)

From stdpp Require Import gmap strings list.
From Stdlib Require Import ZArith Lia.
From S2P Require Import Prelude KState CString Spinlock Sched SleepLock Kalloc Vm Bio Bcache Log LogProps LogTx FsTx Fs FsBlocks FsFile FsInode FsWrite FsRead FsCopy Uart Console File FsCrash FsProps Mkfs MkfsProps MkfsImage.
Open Scope Z_scope.
Import Spinlock Sched SleepLock Vm Bio Log Fs Mkfs MkfsImage KallocProps SpinlockProps SchedProps SleepLockProps BioProps.

#[local] Opaque NPROC.

(** ** [fsinit] *)

Lemma run_setsb s0 g act disk hs ws s :
  run s0 act disk hs ws s -> run (set_k_sb g s0) act disk hs ws (set_k_sb g s).
Proof.
  intros [F R H T]. constructor; [|exact R|exact H|exact T].
  destruct F as (b & d & t & p & -> & Hl & Hp). by exists b, d, t, p.
Qed.

Lemma bworld_setsb s me g : bworld s me -> bworld (set_k_sb g s) me.
Proof. intros (Hq & Hl & Hsl). split; [exact Hq|]. split; [exact Hl|exact Hsl]. Qed.

Lemma bworld_set_inodes s me g : bworld s me -> bworld (set_k_inodes g s) me.
Proof. intros (Hq & Hl & Hsl). split; [exact Hq|]. split; [exact Hl|exact Hsl]. Qed.

Lemma readsb_run s me sb start disk :
  booted s me sb start disk -> sb_dec (on_disk disk 1) = sb ->
  exists s', readsb ROOTDEV s = Done tt s' /\ bframe (set_k_sb (fun _ => sb) s) s' /\ booted s' me sb start disk.
Proof.
  intros [Hw Hrep Hblk Hout Hcm Hst Hnl Hr] Hsb.
  destruct (run_new s me Hw _ _ _ _ _ (run_refl _ _ _ Hrep) 1 ltac:(done) (lookup_empty _)) as (b & s1 & E1 & R1);
    [rewrite map_size_empty; unfold NBUF; lia|].
  pose proof (run_data s me _ _ _ _ _ R1 b 1 (on_disk disk 1) 1 ltac:(simpl; auto) ltac:(by rewrite lookup_insert_eq)) as Hd.
  pose proof (run_setsb _ (fun _ => sb) _ _ _ _ _ R1) as R2.
  edestruct (run_drop_last _ me (bworld_setsb _ _ _ Hw) _ _ _ _ _ R2 b 1) with (hs' := @nil (nat * Z))
    as (s3 & E3 & R3); [simpl; auto|by rewrite lookup_insert_eq|done|done|done|].
  rewrite delete_insert_eq, delete_id in R3 by apply lookup_empty. pose proof (run_log _ _ _ _ _ _ R3) as El.
  exists s3. split; [|split; [apply R3|]].
  - unfold readsb. change (u32 ROOTDEV) with ROOTDEV. rewrite (bind_done _ _ _ _ _ E1). unfold getbuf. kstep. prw Hd. by rewrite Hsb.
  - split; rewrite ?El; try done; [|apply R3]. eapply bframe_world; [apply R3|by apply bworld_setsb].
Qed.

(** What [fsinit] leaves alone. *)
Definition mountframe (s s' : kstate) : Prop :=
  k_inodes s' = k_inodes s /\ k_mem s' = k_mem s /\ forall l, lock_free s l -> lock_free s' l.

Lemma fsinit_run s me sb start disk t :
  booted s me sb start disk -> sb_dec (on_disk disk 1) = sb -> sb_magic sb = FSMAGIC -> recovers_to start disk t ->
  exists s', fsinit ROOTDEV s = Done tt s' /\ log_ok s' me start /\ k_sb s' = sb /\ same_fs start (k_disk s') t /\ mountframe s s'.
Proof.
  intros Hb Hsb Hmag Ht. destruct (readsb_run s me sb start disk Hb Hsb) as (s1 & E1 & F1 & Hb1).
  assert (Es : k_sb s1 = sb) by (by destruct F1 as (b & d & tr & p & -> & _)).
  destruct (initlog_run s1 me sb start disk t Hb1 Ht) as (s2 & ws & E2 & Hl & Hs & _ & _ & _ & F2).
  exists s2. split; [|split; [done|split; [|split; [done|]]]].
  - unfold fsinit, getsb. rewrite (bind_done _ _ _ _ _ E1). kstep. prw Es. prw Hmag. rewrite Z.eqb_refl. exact E2.
  - destruct F2 as (b & d & tr & p & -> & _). exact Es.
  - destruct F1 as (b1 & d1 & tr1 & p1 & -> & _), F2 as (b & d & tr & p & -> & _).
    split; [done|]. split; [done|]. intros l Hl'. exact (lock_free_init _ L_log l "log" (or_introl Hl')).
Qed.

(** ** The image as the kernel sees it *)

Lemma sb_image img ts : built img ts -> sb_dec (on_disk img 1) = Mkfs.sb.
Proof. intros Hb. rewrite (bu_super _ _ Hb). vm_compute. reflexivity. Qed.

Lemma zero_log_head : length zeroblk = Z.to_nat BSIZE /\ head_is zeroblk [].
Proof. split; [by vm_compute|]. split; [by vm_compute|done|done]. Qed.

Lemma image_recovers img ts : built img ts -> recovers_to 2 img img.
Proof.
  intros Hb. destruct zero_log_head as [Hl Hh]. apply recovers_empty; rewrite ?(bu_log _ _ Hb 2) by mklia; done.
Qed.

(** ** Opening and reading a file *)

(** No entry of the inode table is in use. *)
Definition table_free (s : kstate) : Prop :=
  length (k_inodes s) = NINODE /\ Forall (fun i => i_ref i = 0 /\ sl_locked (i_lock i) = 0) (k_inodes s).

Lemma iget_scan_free dev inum i k e s :
  (forall j, (i <= j < i + k)%nat -> i_ref (k_inodes s !!! j) = 0) -> iget_scan dev inum i k (Some e) s = inr (Some e).
Proof.
  revert i. induction k as [|k IH]; intros i H; [done|]. cbn [iget_scan]. rewrite H by lia. cbn. apply IH. intros j Hj. apply H. lia.
Qed.

Lemma iget_scan_first dev inum k s :
  (forall j, (j < S k)%nat -> i_ref (k_inodes s !!! j) = 0) -> iget_scan dev inum 0 (S k) None s = inr (Some 0%nat).
Proof. intros H. cbn [iget_scan]. rewrite H by lia. cbn [Z.gtb Z.compare andb Z.eqb]. apply iget_scan_free. intros j Hj. apply H. lia. Qed.

(** The entry [iget] takes. *)
Definition opened (dev inum : Z) (i : inode) : inode :=
  set_i_valid (fun _ => false) (set_i_ref (fun _ => 1) (set_i_inum (fun _ => inum) (set_i_dev (fun _ => dev) i))).

Lemma iget_free dev inum s :
  cpu_ok s -> lock_free s L_itable -> table_free s ->
  iget dev inum s = Done 0%nat (set_k_inodes (alter (opened dev inum) 0%nat) s).
Proof.
  intros Hc Hl [Hn Hf].
  assert (Href : forall j, (j < NINODE)%nat -> i_ref (k_inodes s !!! j) = 0).
  { intros j Hj. rewrite <- Hn in Hj. destruct (lookup_lt_is_Some_2 _ _ Hj) as [i Hi]. rewrite (list_lookup_total_correct _ _ _ Hi).
    by apply (Forall_lookup_1 _ _ _ _ Hf Hi). }
  assert (Hscan : iget_scan dev inum 0 NINODE None (acq L_itable s) = inr (Some 0%nat)).
  { apply (iget_scan_first dev inum 49). exact Href. }
  unfold iget. rewrite (bind_done _ _ _ _ _ (acquire_spec _ _ Hl)). kstep. rewrite Hscan. unfold setinode. kstep.
  set (s' := set_k_inodes (alter (opened dev inum) 0%nat) s).
  enough (E : set_k_inodes (alter (set_i_valid (fun _ => false)) 0%nat) (set_k_inodes (alter (set_i_ref (fun _ => 1)) 0%nat)
    (set_k_inodes (alter (set_i_inum (fun _ => inum)) 0%nat) (set_k_inodes (alter (set_i_dev (fun _ => dev)) 0%nat) (acq L_itable s)))) = acq L_itable s').
  { rewrite E. by rewrite (bind_done _ _ _ _ _ (release_acq L_itable s' Hc Hl)). }
  unfold s', opened. rewrite !set_set_k_inodes. change (acq L_itable (set_k_inodes ?g s)) with (set_k_inodes g (acq L_itable s)).
  apply set_k_inodes_ext. change (k_inodes (acq L_itable s)) with (k_inodes s). by destruct (k_inodes s).
Qed.

Section Read.
Context (s : kstate) (me : nat) (img : gmap Z (list Z)) (ts : list hfile) (Hb : built img ts).
Context (Hm : mounted s me Mkfs.sb 2) (Hfs : same_fs 2 (k_disk s) img).
Context (Hit : lock_free s L_itable) (Hsl : lock_free s (L_sl (SL_inode 0))) (Hfree : table_free s).

(** Opening and reading a whole file of the image into kernel memory. *)
Lemma read_file j t d dst :
  ts !! j = Some (t, d) -> t <> 0 -> Forall byte_range d -> 0 <= dst -> dst + Z.of_nat (length d) <= 2 ^ 64 -> dst < 2 ^ 64 ->
  exists s1 s2 s3, iget ROOTDEV (Z.of_nat j + 1) s = Done 0%nat s1 /\ ilock (Some 0%nat) s1 = Done tt s2 /\
    readi 0 false dst 0 (Z.of_nat (length d)) s2 = Done (Z.of_nat (length d)) s3 /\ ldbytes (k_mem s3) dst (length d) = d.
Proof using All.
  intros Hj Ht Hby Hd1 Hd2 Hd3. destruct Hm as [Ml Msb Mly Mbl]. pose proof (ok_world _ _ _ Ml) as Hw.
  destruct (bu_file _ _ Hb j t d Hj) as (ino & Hnum & Hmax & Hty & Hsync & Hdk & Hok & Hcont).
  pose proof (iget_free ROOTDEV (Z.of_nat j + 1) s ltac:(apply Hw) Hit Hfree) as E1. rewrite <- Hnum in *.
  set (s1 := set_k_inodes (alter (opened ROOTDEV (i_inum ino)) 0%nat) s) in *. destruct Hfree as [Htl Htf].
  destruct (lookup_lt_is_Some_2 (k_inodes s) 0) as [i0 Hi0]; [rewrite Htl; unfold NINODE; lia|].
  assert (Hin : 0 <= i_inum ino < sb_ninodes Mkfs.sb) by (change (sb_ninodes Mkfs.sb) with NINODES; lia).
  assert (Hdi : dino Mkfs.sb (tx_get (k_disk s) []) (i_inum ino) = dinode_of ino).
  { rewrite <- Hsync. apply (agree_dino Mkfs.sb 2 Mly _ _ Hfs). exact Hin. }
  assert (Hj1 : k_inodes s1 !! 0%nat = Some (opened ROOTDEV (i_inum ino) i0)).
  { change (alter (opened ROOTDEV (i_inum ino)) 0%nat (k_inodes s) !! 0%nat = Some (opened ROOTDEV (i_inum ino) i0)). by rewrite list_lookup_alter_eq, Hi0. }
  destruct (ilock_load s1 me (k_disk s) Mkfs.sb 2 [] 0 (opened ROOTDEV (i_inum ino) i0)) as (s2 & E2 & Hi2 & Hj2); try done.
  { apply inop_inodes, log_ok_inop, Ml. }
  { cbn. unfold NBUF. lia. }
  { exact (proj2 (Forall_lookup_1 _ _ _ _ Htf Hi0)). }
  { change (i_inum (opened ROOTDEV (i_inum ino) i0)) with (i_inum ino). rewrite Hdi. cbn. by rewrite Hty. }
  change (i_inum (opened ROOTDEV (i_inum ino) i0)) with (i_inum ino) in Hj2. rewrite Hdi in Hj2.
  set (ino2 := set_i_valid _ _) in Hj2. assert (Hd : i_size ino = Z.of_nat (length d)).
  { rewrite <- Hcont. unfold contents. rewrite length_fbytes. pose proof (fk_size _ _ _ Hok). lia. }
  assert (Hok2 : file_ok Mkfs.sb (tx_get (k_disk s) []) ino2).
  { pose proof (agree_ok Mkfs.sb 2 Mly _ _ Hfs ino Hok) as [K1 K2 K3 K4 K5 K6 K7]. by split. }
  pose proof (kernel_sink (k_mem s2) dst (Z.of_nat (length d)) Hd1 Hd2) as HS.
  assert (Hr : readable ino2 0 (Z.of_nat (length d)) = Z.of_nat (length d)) by (unfold readable; change (i_size ino2) with (i_size ino); lia).
  destruct (readi_run false dst (Z.of_nat (length d)) (kernel_dst (k_mem s2) dst) me (k_disk s) Mkfs.sb 2 [] 0 ino2 Mly Mbl Hok2
    ltac:(cbn; unfold NBUF; lia) s2 0 (Z.of_nat (length d)) Hi2 Hj2) as (s3 & E3 & _ & _ & [_ HP]);
    [split; [apply (op_world _ _ _ _ _ _ Hi2)|done]|lia|change (i_size ino2) with (i_size ino); lia|lia
    |pose proof (fk_size _ _ _ Hok); filia|rewrite Hr; lia|].
  rewrite Hr in *. exists s1, s2, s3. split; [done|]. split; [done|]. split; [done|]. rewrite HP.
  assert (fbytes (tx_get (k_disk s) []) ino2 0 (Z.of_nat (length d)) = d) as ->; [|by apply ldbytes_stbytes_same].
  rewrite <- Hcont at 2. rewrite <- (agree_contents Mkfs.sb 2 Mly _ _ Hfs ino Hok). unfold contents. by rewrite Hd.
Qed.
End Read.

(** ** From [mkfs] to the booted kernel *)
Module MkfsBoot.

(** The kernel in the first process, before [fsinit]: the disk is [img], no
    inode is in memory. *)
Record fresh_kernel (s : kstate) (me : nat) (img : gmap Z (list Z)) : Prop := {
  fk_booted : booted s me Mkfs.sb 2 img;
  fk_itable : lock_free s L_itable;
  fk_sleep : lock_free s (L_sl (SL_inode 0));
  fk_table : table_free s }.

(** C4: suppose the host's calls succeed, there are fewer than 199 files, no name
    has a slash, no file is larger than a file can be, there are blocks for all
    of them, and the number of entries of the root directory is not a multiple
    of 64 (where the directory's size is rounded up to a block that it does not
    have). Then [mkfs] returns, and its image is a file system: superblock, empty log, a bitmap that marks
    exactly the blocks in use, and, in the order of the inode numbers, the
    root directory with an entry for every file and the files with their
    bytes, no two of them with a block in common. *)
Theorem mkfs_builds host_ok files :
  (forall n, host_ok n = true) -> Z.of_nat (length files) < NINODES - 1 -> Forall storable files ->
  (2 + Z.of_nat (length files)) mod 64 <> 0 -> room (tree files) ->
  exists m, main host_ok files start = Done tt m /\ built (mk_img m) (tree files).
Proof. intros Hh. by apply main_run. Qed.

(** C3: under the conditions of [mkfs_builds] (the host's calls succeed, fewer
    than 199 files, names without slashes, sizes in range, blocks for all files,
    and a number of root directory entries that is not a multiple of 64), [mkfs]
    returns an image that a kernel which boots from it mounts, and of which it
    can then open any of the files by its inode number and read all of its
    bytes. *)
Theorem mkfs_boots host_ok files :
  (forall n, host_ok n = true) -> Z.of_nat (length files) < NINODES - 1 -> Forall storable files ->
  (2 + Z.of_nat (length files)) mod 64 <> 0 -> room (tree files) ->
  exists m, main host_ok files start = Done tt m /\ forall s me, fresh_kernel s me (mk_img m) ->
    exists s0, fsinit ROOTDEV s = Done tt s0 /\ mounted s0 me Mkfs.sb 2 /\
      forall j t d dst, tree files !! j = Some (t, d) -> Forall byte_range d ->
        0 <= dst < 2 ^ 64 -> dst + Z.of_nat (length d) <= 2 ^ 64 ->
        exists ip s1 s2 s3, iget ROOTDEV (Z.of_nat j + 1) s0 = Done ip s1 /\ ilock (Some ip) s1 = Done tt s2 /\
          readi ip false dst 0 (Z.of_nat (length d)) s2 = Done (Z.of_nat (length d)) s3 /\
          ldbytes (k_mem s3) dst (length d) = d.
Proof.
  intros Hh Hn Hf Hm Hr. destruct (main_run host_ok Hh files Hn Hf Hm Hr) as (m & E & Hb). exists m. split; [done|].
  intros s me [Hbt Hit Hsl Htab].
  destruct (fsinit_run s me Mkfs.sb 2 _ _ Hbt (sb_image _ _ Hb) eq_refl (image_recovers _ _ Hb)) as (s0 & E0 & Hl & Hs & Hfs & F1 & F2 & F3).
  assert (Hmt : mounted s0 me Mkfs.sb 2).
  { split; [done|done|exact sb_layout|]. exact (agree_blocks _ _ sb_layout _ _ Hfs (bu_blocks _ _ Hb)). }
  exists s0. split; [done|]. split; [done|]. intros j t d dst Hj Hby Hd1 Hd2.
  assert (Ht : t <> 0).
  { unfold tree in Hj. destruct j; [by injection Hj as <- _|]. cbn in Hj. by apply list_lookup_fmap_Some in Hj as (f & [= -> _] & _). }
  destruct (read_file s0 me (mk_img m) (tree files) Hb Hmt Hfs (F3 _ Hit) (F3 _ Hsl)) with (j := j) (t := t) (d := d) (dst := dst)
    as (s1 & s2 & s3 & E1 & E2 & E3 & E4); try done; try lia.
  - unfold table_free. by rewrite F1.
  - exists 0%nat, s1, s2, s3. done.
Qed.

(** *** A small image *)

(** The file [user/_hi] with the bytes ["hey"], read in two pieces. *)
Definition hi_path : list Z := [117; 115; 101; 114; 47; 95; 104; 105].
Definition test_files : list (list Z * list (list Z)) := [(hi_path, [[104; 101]; [121]])].

Definition test_kernel (img : gmap Z (list Z)) : kstate :=
  set_k_inodes (fun _ => replicate NINODE inode0) (FsMachine.unlocked L_itable (FsMachine.unlocked (L_sl (SL_inode 0)) (LogAtomic.boot_state img))).

#[local] Opaque LogAtomic.boot_state.

Lemma test_fresh img : fresh_kernel (test_kernel img) 3 img.
Proof.
  pose proof (LogAtomic.boot_state_booted img) as [Hw Hr Hb Ho Hc Hs Hn Hrg].
  apply (FsMachine.bworld_unlocked (L_sl (SL_inode 0))), (FsMachine.bworld_unlocked L_itable) in Hw.
  assert (Hl : forall l, lock_free (test_kernel img) l =
    lock_free (FsMachine.unlocked L_itable (FsMachine.unlocked (L_sl (SL_inode 0)) (LogAtomic.boot_state img))) l)
    by (intros l; apply FsMachine.lock_free_of; reflexivity).
  assert (El : k_log (test_kernel img) = k_log (LogAtomic.boot_state img)) by reflexivity.
  split.
  - split; [|apply (FsMachine.store_rep_of (LogAtomic.boot_state img)); [reflexivity|reflexivity|exact Hr]|by rewrite El..|reflexivity|reflexivity|exact Hrg].
    unfold test_kernel. by apply bworld_set_inodes.
  - rewrite Hl. apply FsMachine.unlocked_free. by right.
  - rewrite Hl. apply FsMachine.unlocked_free. left. apply FsMachine.unlocked_free. by right.
  - split; [reflexivity|]. change (k_inodes (test_kernel img)) with (replicate NINODE inode0). apply Forall_replicate. by split.
Qed.

Lemma test_storable : Forall storable test_files.
Proof.
  repeat constructor; [|vm_compute; congruence]. apply (bool_decide_unpack (47 ∉ strip_user hi_path)). vm_compute. done.
Qed.

Lemma test_room : room (tree test_files).
Proof. unfold room. vm_compute. congruence. Qed.

Lemma mkfs_builds_witness : exists m, main (fun _ => true) test_files start = Done tt m /\ built (mk_img m) (tree test_files).
Proof. apply mkfs_builds; [done|done|exact test_storable|done|exact test_room]. Defined.

Lemma mkfs_boots_witness : exists m s0 ip s1 s2 s3, main (fun _ => true) test_files start = Done tt m /\
  fsinit ROOTDEV (test_kernel (mk_img m)) = Done tt s0 /\ iget ROOTDEV 2 s0 = Done ip s1 /\ ilock (Some ip) s1 = Done tt s2 /\
  readi ip false RAMBASE 0 3 s2 = Done 3 s3 /\ ldbytes (k_mem s3) RAMBASE 3 = [104; 101; 121].
Proof.
  destruct (mkfs_boots (fun _ => true) test_files) as (m & E & H); [done|done|exact test_storable|done|exact test_room|].
  destruct (H (test_kernel (mk_img m)) 3%nat (test_fresh _)) as (s0 & E0 & _ & Hr).
  assert (Hby : Forall byte_range [104; 101; 121]) by (rewrite !Forall_cons, Forall_nil; unfold byte_range; lia).
  destruct (Hr 1%nat T_FILE [104; 101; 121] RAMBASE eq_refl Hby) as (ip & s1 & s2 & s3 & E1 & E2 & E3 & E4);
    [rewrite RAMBASE_val; lia|rewrite RAMBASE_val; vm_compute; congruence|].
  exists m, s0, ip, s1, s2, s3. split_and!; [exact E|exact E0|exact E1|exact E2|exact E3|exact E4].
Defined.
End MkfsBoot.
