(* ===== verification/Proc.v ===== *)
(** * Processes ([kernel/proc.c])

    The process table: creation, growth, [fork], [exit] and [wait]. The
    scheduling primitives are in [Sched], the address-space operations in
    [Vm]. *)

From stdpp Require Import gmap strings list.
From Stdlib Require Import ZArith Lia.
From S2P Require Import Prelude KState CString Spinlock Sched SleepLock Kalloc Vm Bio Log Fs Uart Console File.
Open Scope Z_scope.
Import Spinlock Sched SleepLock Kalloc Vm Log Fs Console File.

Module Proc.

(** ** [struct trapframe]: 64-bit words of the trapframe page *)
Definition TF_sp : Z := 16.
Definition TF_a0 : Z := 24.
Definition TF_a1 : Z := 32.
Definition TF_a7 : Z := 80.
Definition TF_kernel_sp : Z := 248.
Definition TF_kernel_trap : Z := 256.
Definition TF_era : Z := 264.
Definition TF_kernel_hartid : Z := 272.
Definition TF_kernel_pgdl : Z := 280.
Definition sizeof_trapframe : Z := 288.

Definition tf_get (p : nat) (off : Z) : K Z :=
  pr <- getproc p;; load64 (p_trapframe pr + off).
Definition tf_set (p : nat) (off v : Z) : K unit :=
  pr <- getproc p;; store64 (p_trapframe pr + off) v.

Fixpoint procinit_loop (i k : nat) : K unit :=
  match k with
  | O => ret tt
  | S k' =>
      initlock (L_proc i) "proc";;
      setproc i (set_p_state (fun _ => UNUSED));;
      setproc i (set_p_kstack (fun _ => KSTACK (Z.of_nat i)));;
      procinit_loop (S i) k'
  end.

Definition procinit : K unit :=
  initlock L_pid "nextpid";;
  initlock L_wait "wait_lock";;
  procinit_loop 0 NPROC.

Definition freeproc (p : nat) : K unit :=
  pr <- getproc p;;
  when (negb (p_trapframe pr =? 0)) (kfree (p_trapframe pr));;
  setproc p (set_p_trapframe (fun _ => 0));;
  pr <- getproc p;;
  when (negb (p_pagetable pr =? 0)) (proc_freepagetable (p_pagetable pr) (p_sz pr));;
  setproc p (set_p_pagetable (fun _ => 0));;
  setproc p (set_p_sz (fun _ => 0));;
  setproc p (set_p_pid (fun _ => 0));;
  setproc p (set_p_parent (fun _ => None));;
  setproc p (set_p_name (insert 0%nat 0));;
  setproc p (set_p_chan (fun _ => CH_null));;
  setproc p (set_p_killed (fun _ => 0));;
  setproc p (set_p_xstate (fun _ => 0));;
  setproc p (set_p_state (fun _ => UNUSED)).

(** The search of [allocproc]: the process found is locked. *)
Fixpoint allocproc_scan (i k : nat) : K (option nat) :=
  match k with
  | O => ret None
  | S k' =>
      acquire (L_proc i);;
      p <- getproc i;;
      if bool_decide (p_state p = UNUSED) then ret (Some i)
      else release (L_proc i);; allocproc_scan (S i) k'
  end.

(** The address of [forkret], where a new process starts. *)
Definition forkret_addr : Z := KERNIMG + 0x3000.

Definition allocproc : K (option nat) :=
  r <- allocproc_scan 0 NPROC;;
  match r with
  | None => ret None
  | Some p =>
      pid <- allocpid;;
      setproc p (set_p_pid (fun _ => pid));;
      setproc p (set_p_state (fun _ => USED));;
      tf <- kalloc;;
      setproc p (set_p_trapframe (fun _ => tf));;
      if tf =? 0 then freeproc p;; release (L_proc p);; ret None else
      pt <- proc_pagetable tf;;
      setproc p (set_p_pagetable (fun _ => pt));;
      if pt =? 0 then freeproc p;; release (L_proc p);; ret None else
      setproc p (fun pr => set_p_context (fun _ =>
        mkcontext forkret_addr (u64 (p_kstack pr + PGSIZE)) (replicate 10 0)) pr);;
      ret (Some p)
  end.

(** [safestrcpy] between two arrays that are not in [k_mem]: what it writes
    at the start of the destination. *)
Fixpoint strcpy_list (src : list Z) (n : nat) : list Z :=
  match n with
  | O => []
  | S O => [0]
  | S n' =>
      match src with
      | c :: src' => if c =? 0 then [0; 0] else c :: strcpy_list src' n'
      | [] => [0; 0]
      end
  end.

Definition sizeof_name : nat := 16.
Definition set_name (src : list Z) (name : list Z) : list Z :=
  splice 0 (strcpy_list src sizeof_name) name.

Definition initcode : list Z :=
  [4; 0; 0; 28; 132; 0; 193; 40;
   5; 0; 0; 28; 165; 0; 193; 40;
   11; 28; 128; 3; 0; 0; 43; 0;
   11; 8; 128; 3; 0; 0; 43; 0;
   255; 251; 255; 87; 47; 105; 110; 105;
   116; 0; 0; 0; 36; 0; 0; 0;
   0; 0; 0; 0; 0; 0; 0; 0;
   0; 0; 0; 0; 0; 0; 0; 0;
   36; 0; 0; 0; 0; 0; 0; 0;
   44; 0; 0; 0; 0; 0; 0; 0].

Definition userinit : K unit :=
  r <- allocproc;;
  modify (set_k_initproc (fun _ => r));;
  p <- deref r;;
  pr <- getproc p;;
  uvminit (p_pagetable pr) initcode;;
  setproc p (set_p_sz (fun _ => PGSIZE));;
  tf_set p TF_era 0;;
  tf_set p TF_sp PGSIZE;;
  setproc p (set_p_name (set_name (Uart.Printf.chars "initcode")));;
  cwd <- namei lit_root;;
  setproc p (set_p_cwd (fun _ => cwd));;
  setproc p (set_p_state (fun _ => RUNNABLE));;
  release (L_proc p).

(** [sz] is a [uint] here. *)
Definition growproc (n : Z) : K Z :=
  p <- curproc;;
  pr <- getproc p;;
  let sz := u32 (p_sz pr) in
  if n >? 0 then
    if u32 (sz + n) >=? MAXVA - PGSIZE then ret (-1) else
    r <- uvmalloc (p_pagetable pr) sz (u32 (sz + n));;
    if u32 r =? 0 then ret (-1) else
    setproc p (set_p_sz (fun _ => u32 r));; ret 0
  else if n <? 0 then
    r <- uvmdealloc (p_pagetable pr) sz (u32 (sz + n));;
    setproc p (set_p_sz (fun _ => u32 r));; ret 0
  else
    setproc p (set_p_sz (fun _ => sz));; ret 0.

Fixpoint fork_files (p np i k : nat) : K unit :=
  match k with
  | O => ret tt
  | S k' =>
      pr <- getproc p;;
      match p_ofile pr !!! i with
      | Some f =>
          g <- filedup f;;
          setproc np (set_p_ofile (insert i (Some g)))
      | None => ret tt
      end;;
      fork_files p np (S i) k'
  end.

Definition fork : K Z :=
  p <- curproc;;
  r <- allocproc;;
  match r with
  | None => ret (-1)
  | Some np =>
      pr <- getproc p;;
      npr <- getproc np;;
      c <- uvmcopy (p_pagetable pr) (p_pagetable npr) (p_sz pr);;
      if c <? 0 then freeproc np;; release (L_proc np);; ret (-1) else
      setproc np (set_p_sz (fun _ => p_sz pr));;
      modify (set_k_mem (fun m =>
        stbytes (p_trapframe npr) (ldbytes m (p_trapframe pr) (Z.to_nat sizeof_trapframe)) m));;
      tf_set np TF_a0 0;;
      fork_files p np 0 NOFILE;;
      cwd <- deref (p_cwd pr);;
      cwd <- idup cwd;;
      setproc np (set_p_cwd (fun _ => Some cwd));;
      setproc np (set_p_name (set_name (p_name pr)));;
      npr <- getproc np;;
      let pid := p_pid npr in
      release (L_proc np);;
      acquire L_wait;;
      setproc np (set_p_parent (fun _ => Some p));;
      release L_wait;;
      acquire (L_proc np);;
      setproc np (set_p_state (fun _ => RUNNABLE));;
      release (L_proc np);;
      ret pid
  end.

Fixpoint reparent_loop (p i k : nat) : K unit :=
  match k with
  | O => ret tt
  | S k' =>
      pp <- getproc i;;
      when (bool_decide (p_parent pp = Some p))
        (init <- gets k_initproc;;
         setproc i (set_p_parent (fun _ => init));;
         wakeup (chan_proc init));;
      reparent_loop p (S i) k'
  end.

Definition reparent (p : nat) : K unit := reparent_loop p 0 NPROC.

Fixpoint exit_files (p fd k : nat) : K unit :=
  match k with
  | O => ret tt
  | S k' =>
      pr <- getproc p;;
      match p_ofile pr !!! fd with
      | Some f =>
          fileclose f;;
          setproc p (set_p_ofile (insert fd None))
      | None => ret tt
      end;;
      exit_files p (S fd) k'
  end.

Definition exit (status : Z) : K unit :=
  p <- curproc;;
  init <- gets k_initproc;;
  if bool_decide (init = Some p) then panic "init exiting" else
  exit_files p 0 NOFILE;;
  begin_op;;
  pr <- getproc p;;
  cwd <- deref (p_cwd pr);;
  iput cwd;;
  end_op;;
  setproc p (set_p_cwd (fun _ => None));;
  acquire L_wait;;
  reparent p;;
  pr <- getproc p;;
  wakeup (chan_proc (p_parent pr));;
  acquire (L_proc p);;
  setproc p (set_p_xstate (fun _ => status));;
  setproc p (set_p_state (fun _ => ZOMBIE));;
  release L_wait;;
  sched;;
  panic "zombie exit".

(** The scan of [wait]: the value [wait] returns, or whether there are
    children. *)
Fixpoint wait_scan (p : nat) (addr : Z) (havekids : bool) (i k : nat) : K (Z + bool) :=
  match k with
  | O => ret (inr havekids)
  | S k' =>
      np <- getproc i;;
      if bool_decide (p_parent np = Some p) then
        acquire (L_proc i);;
        np <- getproc i;;
        if bool_decide (p_state np = ZOMBIE) then
          let pid := p_pid np in
          pr <- getproc p;;
          r <- (if negb (addr =? 0)
                then copyout (p_pagetable pr) addr (le_enc 4 (u32 (p_xstate np)))
                else ret 0);;
          if r <? 0 then
            release (L_proc i);; release L_wait;; ret (inl (-1))
          else
            freeproc i;;
            release (L_proc i);;
            release L_wait;;
            ret (inl pid)
        else
          release (L_proc i);;
          wait_scan p addr true (S i) k'
      else wait_scan p addr havekids (S i) k'
  end.

Fixpoint wait_loop (p : nat) (addr : Z) (fuel : nat) : K Z :=
  match fuel with
  | O => nofuel
  | S f =>
      r <- wait_scan p addr false 0 NPROC;;
      match r with
      | inl v => ret v
      | inr havekids =>
          pr <- getproc p;;
          if negb havekids || negb (p_killed pr =? 0) then
            release L_wait;; ret (-1)
          else
            sleep (CH_proc p) L_wait;;
            wait_loop p addr f
      end
  end.

Definition wait (addr : Z) : K Z :=
  p <- curproc;;
  acquire L_wait;;
  wait_loop p addr sleep_fuel.

End Proc.
