(* ===== verification/ProcProps.v ===== *)
(** * Processes come and go without losing memory ([kernel/proc.c])

    [allocproc] makes a process in an unused slot or leaves nothing behind.
    [freeproc] returns every page of a process to the allocator, and [wait]
    does so for the first exited child it finds, after it has stored the
    child's status in the parent's memory. *)

From stdpp Require Import gmap strings list.
From Stdlib Require Import ZArith Lia.
From S2P Require Import Prelude KState CString Spinlock Sched SleepLock Kalloc Vm VmProps VmSpace VmCopy VmFree Proc.
Open Scope Z_scope.
Import Spinlock Sched SleepLock Kalloc Vm Proc SpinlockProps SchedProps SleepLockProps KallocProps.

(** ** [freeproc] *)

(** The slot as [freeproc] leaves it; the open files, the directory and the
    kernel stack stay. *)
Definition unused_proc (p : proc) : proc :=
  set_p_state (fun _ => UNUSED) (set_p_xstate (fun _ => 0) (set_p_killed (fun _ => 0) (set_p_chan (fun _ => CH_null)
    (set_p_name (insert 0%nat 0) (set_p_parent (fun _ => None) (set_p_pid (fun _ => 0) (set_p_sz (fun _ => 0)
      (set_p_pagetable (fun _ => 0) (set_p_trapframe (fun _ => 0) p))))))))).

(** The memory of process [p]: its page table [ts] maps its trap frame and,
    from address 0 on, the pages of its size. *)
Record proc_space (s : kstate) (fl ts : list Z) (A : amap) (p : proc) : Prop := {
  ps_space : vmspace s fl ts A;
  ps_root : ts !! 0%nat = Some (p_pagetable p);
  ps_tf : exists perm, A !! TFPAGE = Some (p_trapframe p, perm);
  ps_size : 0 <= p_sz p <= TRAPFRAME;
  ps_dom : forall v, v <> TFPAGE -> is_Some (A !! v) <-> 0 <= v < npages (p_sz p) }.

Lemma vmspace_procs g s fl ts A : vmspace s fl ts A -> vmspace (set_k_procs g s) fl ts A.
Proof. intros H. apply (vmspace_ext s); [exact (vs_cpu _ _ _ _ H)|done..]. Qed.

Lemma space_nonzero s fl ts A root : vmspace s fl ts A -> ts !! 0%nat = Some root -> (root =? 0) = false.
Proof.
  intros H Hr. apply Z.eqb_neq. assert (Hv : valid_page root).
  { apply (vs_valid _ _ _ _ H). by eapply list_elem_of_lookup_2. }
  pose proof (valid_page_range root Hv). lia.
Qed.

Lemma kmem_only_procs h s s' : kmem_only s s' -> kmem_only (set_k_procs h s) (set_k_procs h s').
Proof. unfold kmem_only. intros E. rewrite E. reflexivity. Qed.

Lemma freeproc_run s fl ts A p i :
  proc_space s fl ts A p -> k_procs s !! i = Some p ->
  exists s' fl', freeproc i s = Done tt s' /\ kmem_rep s' fl' /\ fl' ≡ₚ all_pages fl ts A /\
    same_outside (ts ++ pages_of A) (k_mem s) (k_mem s') /\ kmem_only (set_k_procs (alter unused_proc i) s) s'.
Proof.
  intros [H Hroot (perm & HA) Hsz Hdom] Hi.
  destruct (pt_dom _ _ _ (vs_tab _ _ _ _ H) _ _ HA) as (_ & _ & Hv & _). cbn [fst] in Hv.
  unfold freeproc, getproc, setproc. kstep. rewrite (list_lookup_total_correct _ _ _ Hi).
  rewrite (proj2 (Z.eqb_neq _ 0)) by (pose proof (valid_page_range _ Hv); lia). kstep.
  rewrite (bind_done _ _ _ _ _ (kfree_eq _ s (vs_cpu _ _ _ _ H) (vs_lock _ _ _ _ H) Hv)). kstep.
  set (g := alter (set_p_trapframe (fun _ => 0)) i).
  change (set_k_procs g (freed (p_trapframe p) s)) with (freed (p_trapframe p) (set_k_procs g s)).
  assert (Hg : k_procs (freed (p_trapframe p) (set_k_procs g s)) !!! i = set_p_trapframe (fun _ => 0) p).
  { apply list_lookup_total_correct. subst g. cbn. by rewrite list_lookup_alter_eq, Hi. }
  rewrite Hg. cbn [p_pagetable p_sz set_p_trapframe]. rewrite (space_nonzero _ _ _ _ _ H Hroot). kstep.
  destruct (unmap_freed_trapframe _ _ _ _ _ _ _ (vmspace_procs g _ _ _ _ H) Hroot HA) as (s1 & E1 & H1 & K1 & S1).
  destruct (proc_freepagetable_rest _ _ _ _ _ _ _ E1 H1 Hroot Hsz Hdom) as (s2 & fl2 & E2 & R2 & P2 & K2 & S2).
  rewrite (bind_done _ _ _ _ _ E2). kstep. eexists _, fl2. split; [reflexivity|]. split; [exact R2|].
  split; [|split].
  - rewrite P2, <- (all_pages_delete fl ts A TFPAGE _ HA). done.
  - pose proof (pages_of_delete A TFPAGE _ HA) as HP. cbn [fst] in HP.
    eapply same_trans; eapply same_mono; [|exact S1| |exact S2]; intros x; rewrite HP, ?elem_of_app, ?elem_of_cons; tauto.
  - rewrite !set_set_k_procs. match goal with |- kmem_only _ (set_k_procs ?h s2) =>
      assert (E : set_k_procs (alter unused_proc i) s = set_k_procs h (set_k_procs g s)) end.
    { rewrite set_set_k_procs. apply set_k_procs_ext. subst g. by rewrite !list_alter_alter. }
    rewrite E. apply kmem_only_procs. by eapply kmem_only_trans.
Qed.

(** Without a page table only the trap frame is freed. *)
Lemma freeproc_bare s i p :
  cpu_ok s -> lock_free s L_kmem -> k_procs s !! i = Some p -> p_pagetable p = 0 ->
  (p_trapframe p = 0 \/ valid_page (p_trapframe p)) ->
  freeproc i s = Done tt (set_k_procs (alter unused_proc i) (if p_trapframe p =? 0 then s else freed (p_trapframe p) s)).
Proof.
  intros Hc Hl Hi Hpt Htf. unfold freeproc, getproc, setproc. kstep. rewrite (list_lookup_total_correct _ _ _ Hi).
  assert (E : when (negb (p_trapframe p =? 0)) (kfree (p_trapframe p)) s =
    Done tt (if p_trapframe p =? 0 then s else freed (p_trapframe p) s)).
  { destruct Htf as [->|Hv]; [done|]. rewrite (proj2 (Z.eqb_neq _ 0)) by (pose proof (valid_page_range _ Hv); lia).
    by apply kfree_eq. }
  unfold when in E. rewrite (bind_done _ _ _ _ _ E). clear E. set (s1 := if p_trapframe p =? 0 then s else _).
  assert (Hi1 : k_procs s1 !! i = Some p) by (subst s1; by destruct (p_trapframe p =? 0)). kstep.
  assert (Hg : k_procs (set_k_procs (alter (set_p_trapframe (fun _ => 0)) i) s1) !!! i = set_p_trapframe (fun _ => 0) p).
  { apply list_lookup_total_correct. cbn. by rewrite list_lookup_alter_eq, Hi1. }
  rewrite Hg. cbn [p_pagetable set_p_trapframe]. rewrite Hpt. change (0 =? 0) with true. kstep. unfold modify. f_equal.
  rewrite !set_set_k_procs. apply set_k_procs_ext. by rewrite !list_alter_alter.
Qed.

(** ** Sharing memory and locks *)

(** An address space survives writes to pages that are none of its tables. *)
Lemma vmspace_share s s' fl ts A ps :
  vmspace s fl ts A -> kmem_only s s' -> kmem_rep s' fl -> same_outside ps (k_mem s) (k_mem s') ->
  (forall x, x ∈ ps -> valid_page x /\ x ∉ ts) -> vmspace s' fl ts A.
Proof.
  intros [H1 H2 H3 H4 H5 H6 H7 H8] K R S Hps. split; try done.
  - by apply (kmem_only_ok s).
  - by apply (kmem_only_free s).
  - eapply ptable_frame; [exact S| | |exact H4].
    + intros x Hx. by apply Hps.
    + intros q Hq. split; [by apply H5|]. intros Hx. by apply (Hps q).
Qed.

Lemma kmem_only_acq l s s' :
  kmem_only (acq l s) s' ->
  exists s0, s' = acq l s0 /\ kmem_only s s0 /\ k_mem s0 = k_mem s' /\ k_freelist s0 = k_freelist s'.
Proof.
  intros K. exists (set_k_freelist (fun _ => k_freelist s') (set_k_mem (fun _ => k_mem s') s)).
  split; [|done]. by rewrite <- acq_set_k_freelist, <- acq_set_k_mem.
Qed.

Lemma release_both {X} l l' s s' (v : X) :
  l <> l' -> cpu_ok s -> lock_free s l -> lock_free s l' -> kmem_only (acq l (acq l' s)) s' ->
  exists s0, (release l;; release l';; ret v) s' = Done v s0 /\ kmem_only s s0 /\
    k_mem s0 = k_mem s' /\ k_freelist s0 = k_freelist s'.
Proof.
  intros Hne Hc Hl Hl' K. destruct (kmem_only_acq _ _ _ K) as (s1 & -> & K1 & M1 & F1).
  destruct (kmem_only_acq _ _ _ K1) as (s0 & -> & K0 & M0 & F0).
  pose proof (kmem_only_ok _ _ K0 Hc) as Hc0. pose proof (kmem_only_free _ _ l K0 Hl) as Hl0.
  pose proof (kmem_only_free _ _ l' K0 Hl') as Hl0'.
  exists s0. rewrite M0, M1, F0, F1. split; [|done].
  rewrite (bind_done _ _ _ _ _ (release_acq l _ (cpu_ok_acq l' s0 Hc0) (lock_free_acq l' l s0 ltac:(done) Hl0))).
  by rewrite (bind_done _ _ _ _ _ (release_acq l' _ Hc0 Hl0')).
Qed.

Lemma upages_mapped A x : x ∈ upages A -> exists v perm, A !! v = Some (x, perm) /\ upage A v = Some x.
Proof.
  unfold upages. intros Hx. apply list_elem_of_fmap in Hx as ([v [pa perm]] & -> & Hx).
  apply list_elem_of_filter in Hx as [Hp Hx]. apply elem_of_map_to_list in Hx. cbn [fst snd] in *.
  exists v, perm. split; [done|]. unfold upage. rewrite Hx. by rewrite (proj2 (Z.eqb_neq _ _)) by done.
Qed.

(** What the user sees does not change with pages that are not the user's. *)
Lemma ustored_frame A m m1 m2 dst src k ps :
  ustored A m m1 dst src k -> same_outside ps m1 m2 ->
  (forall v pa, upage A v = Some pa -> valid_page pa) ->
  (forall x, x ∈ ps -> valid_page x /\ x ∉ upages A) -> ustored A m m2 dst src k.
Proof.
  intros Hu S Hval Hps va. rewrite <- (Hu va). unfold ubyte. destruct (upage A (va / PGSIZE)) as [pa|] eqn:E; [|done].
  f_equal. apply S. intros x Hx Hin. destruct (Hps x Hx) as [Hv Hn]. pose proof (upages_in A _ _ E) as Hi.
  destruct (decide (x = pa)) as [->|Hne]; [done|]. pose proof (Z.mod_pos_bound va PGSIZE ltac:(done)).
  unfold in_page in Hin. destruct (pages_apart x pa Hv (Hval _ _ E) Hne); lia.
Qed.

Definition status (p : proc) : list Z := le_enc 4 (u32 (p_xstate p)).

(** ** [wait] *)

#[local] Opaque NPROC.

Section Wait.
Context (s : kstate) (me : nat) (addr : Z).
Hypothesis (Hq : quiet s me) (Hw : lock_free s L_wait).

Definition exited_child (c : proc) : Prop := p_parent c = Some me /\ p_state c = ZOMBIE.

Let w := acq L_wait s.

Lemma wait_procs : k_procs w = k_procs s.
Proof. apply acq_k_procs. Qed.

Lemma wait_cpu : cpu_ok w.
Proof. apply cpu_ok_acq, Hq. Qed.

Lemma wait_plock j : (j < NPROC)%nat -> lock_free w (L_proc j).
Proof. intros Hj. apply lock_free_acq; [done|]. by apply Hq. Qed.

Lemma scan_skip hk j k :
  (j < NPROC)%nat -> ~ exited_child (k_procs s !!! j) ->
  exists hk', wait_scan me addr hk j (S k) w = wait_scan me addr hk' (S j) k w.
Proof.
  intros Hj Hn. cbn [wait_scan]. unfold getproc. kstep. rewrite wait_procs.
  case_bool_decide as Hpar; [|by exists hk].
  rewrite (bind_done _ _ _ _ _ (acquire_spec _ _ (wait_plock j Hj))). kstep. rewrite acq_k_procs, wait_procs.
  rewrite bool_decide_eq_false_2 by (intros Hz; by apply Hn).
  rewrite (bind_done _ _ _ _ _ (release_acq _ _ wait_cpu (wait_plock j Hj))). by exists true.
Qed.

Lemma scan_to i hk j k :
  (j <= i)%nat -> (j + k = NPROC)%nat -> (i < NPROC)%nat ->
  (forall x, (x < i)%nat -> ~ exited_child (k_procs s !!! x)) ->
  exists hk', wait_scan me addr hk j k w = wait_scan me addr hk' i (NPROC - i) w.
Proof.
  intros Hji Hk Hi Hn. revert hk k Hk. remember (i - j)%nat as d eqn:Hd. revert j Hji Hd.
  induction d as [|d IH]; intros j Hji Hd hk k Hk.
  - assert (j = i) as -> by lia. exists hk. by replace k with (NPROC - i)%nat by lia.
  - destruct k as [|k]; [lia|]. destruct (scan_skip hk j k) as [hk1 ->]; [lia|apply Hn; lia|].
    apply IH; lia.
Qed.

Section Reap.
Context (fl tsm ts : list Z) (Am A : amap) (c : proc) (i : nat).
Hypothesis (Hm : vmspace s fl tsm Am) (Hmr : tsm !! 0%nat = Some (p_pagetable (k_procs s !!! me))).
Hypothesis (Hi : k_procs s !! i = Some c) (Hz : exited_child c) (Hc : proc_space s fl ts A c).
Hypothesis (Hd : forall x, x ∈ upages Am -> x ∉ ts ++ pages_of A) (Haddr : 0 <= addr < 2 ^ 64).

Let a := acq (L_proc i) w.

Lemma reap_lt : (i < NPROC)%nat.
Proof. destruct Hq as (_ & _ & _ & Hlen & _). rewrite <- Hlen. by eapply lookup_lt_Some. Qed.

Lemma reap_mem : k_mem a = k_mem s.
Proof. unfold a, w. by rewrite !acq_k_mem. Qed.

Lemma reap_vmspace ts' A' : vmspace s fl ts' A' -> vmspace a fl ts' A'.
Proof. intros H. by do 2 (apply vmspace_acq; [done|]). Qed.

Lemma parent_page v pa : upage Am v = Some pa -> valid_page pa.
Proof. intros E. by apply (upage_facts fl tsm Am s v pa Hm E). Qed.

Lemma parent_upage x : x ∈ upages Am -> valid_page x /\ x ∉ ts /\ x ∉ pages_of A.
Proof.
  intros Hx. pose proof (Hd x Hx) as Hn. rewrite not_elem_of_app in Hn. split; [|done].
  destruct (upages_mapped Am x Hx) as (v & perm & _ & E). by eapply parent_page.
Qed.

Lemma child_page x : x ∈ ts ++ pages_of A -> valid_page x /\ x ∉ upages Am.
Proof.
  intros Hx. split; [|intros Hu; by apply (Hd x Hu)]. pose proof (ps_space _ _ _ _ _ Hc) as H.
  apply elem_of_app in Hx as [Hx|Hx]; [by apply (vs_valid _ _ _ _ H)|].
  apply pages_of_in in Hx as (v & e & He & <-). by apply (pt_dom _ _ _ (vs_tab _ _ _ _ H) v e He).
Qed.

Lemma store_status :
  exists r s1 k, (if negb (addr =? 0) then copyout (p_pagetable (k_procs s !!! me)) addr (status c) else ret 0) a = Done r s1 /\
    proc_space s1 fl ts A c /\ kmem_only a s1 /\ same_outside (upages Am) (k_mem s) (k_mem s1) /\
    ustored Am (k_mem s) (k_mem s1) addr (status c) k /\
    (r = 0 /\ k = (if addr =? 0 then 0 else 4) \/
     r = -1 /\ addr <> 0 /\ 0 <= k < 4 /\ upage Am ((addr + k) / PGSIZE) = None).
Proof.
  destruct Hc as [H Hr Ht Hs Hdm]. destruct (Z.eqb_spec addr 0) as [->|Hne]; cbn [negb].
  - exists 0, a, 0. split; [done|]. split; [split; [by apply reap_vmspace|done..]|]. split; [apply kmem_only_refl|].
    rewrite reap_mem. split; [apply same_refl|]. split; [|by left]. intros va. by rewrite decide_False by lia.
  - destruct (copyout_loop_run fl tsm Am _ Hmr (page_fuel (Z.of_nat (length (status c)))) a addr (status c)
      (reap_vmspace _ _ Hm) Haddr) as (r & s1 & k & E & H1 & K1 & S1 & U1 & R1); [apply page_fuel_ok; lia|].
    rewrite reap_mem in *. unfold status in R1. rewrite length_le_enc in R1. change (Z.of_nat 4) with 4 in R1.
    exists r, s1, k. split; [exact E|]. split; [|split; [exact K1|split; [exact S1|split; [exact U1|naive_solver]]]].
    split; [|done..]. apply (vmspace_share a s1 fl ts A (upages Am)); [by apply reap_vmspace|done| | |].
    + exact (vs_free _ _ _ _ H1).
    + by rewrite reap_mem.
    + intros x Hx. by destruct (parent_upage x Hx) as (? & ? & _).
Qed.

Lemma scan_reaps hk k :
  exists r s', wait_scan me addr hk i (S k) w = Done (inl r) s' /\
   (r = p_pid c /\ kmem_only (set_k_procs (alter unused_proc i) s) s' /\
      (exists fl', kmem_rep s' fl' /\ fl' ≡ₚ all_pages fl ts A) /\
      ustored Am (k_mem s) (k_mem s') addr (status c) (if addr =? 0 then 0 else 4) \/
    r = -1 /\ kmem_only s s' /\ proc_space s' fl ts A c /\ addr <> 0 /\
      exists k, 0 <= k < 4 /\ upage Am ((addr + k) / PGSIZE) = None).
Proof.
  pose proof reap_lt as Hlt. destruct Hz as [Hpar Hzom].
  cbn [wait_scan]. unfold getproc. kstep. rewrite wait_procs, (list_lookup_total_correct _ _ _ Hi).
  rewrite bool_decide_eq_true_2 by done.
  rewrite (bind_done _ _ _ _ _ (acquire_spec _ _ (wait_plock i Hlt))). kstep.
  rewrite acq_k_procs, wait_procs, (list_lookup_total_correct _ _ _ Hi), bool_decide_eq_true_2 by done. kstep.
  rewrite acq_k_procs, wait_procs. destruct store_status as (r & s1 & k1 & E1 & P1 & K1 & S1 & U1 & R1).
  rewrite (bind_done _ _ _ _ _ E1). destruct Hq as (Hcpu & _ & _ & _ & _ & Hlk). destruct R1 as [[-> ->]|(-> & Hne & Hk & Hu)].
  - change (0 <? 0) with false. cbv iota.
    assert (Hi1 : k_procs s1 !! i = Some c).
    { unfold kmem_only in K1. rewrite K1. cbn. change (k_procs (acq (L_proc i) w) !! i = Some c). by rewrite acq_k_procs, wait_procs. }
    destruct (freeproc_run s1 fl ts A c i P1 Hi1) as (s2 & fl2 & E2 & R2 & PP2 & S2 & K2).
    rewrite (bind_done _ _ _ _ _ E2).
    assert (K : kmem_only (acq (L_proc i) (acq L_wait (set_k_procs (alter unused_proc i) s))) s2).
    { rewrite <- !acq_set_k_procs. eapply kmem_only_trans; [|exact K2]. by apply kmem_only_procs. }
    destruct (release_both (X := Z + bool) (L_proc i) L_wait (set_k_procs (alter unused_proc i) s) s2 (inl (p_pid c))
      ltac:(done) Hcpu (Hlk i Hlt) Hw K) as (s3 & E3 & K3 & M3 & F3).
    exists (p_pid c), s3. split; [exact E3|]. left. split; [done|]. split; [exact K3|]. split.
    + exists fl2. split; [|done]. unfold kmem_rep in *. by rewrite M3, F3.
    + rewrite M3. apply (ustored_frame Am _ (k_mem s1) _ _ _ _ (ts ++ pages_of A)); [done|done| |apply child_page].
      apply parent_page.
  - change (-1 <? 0) with true. cbv iota.
    destruct (release_both (X := Z + bool) (L_proc i) L_wait s s1 (inl (-1)) ltac:(done) Hcpu (Hlk i Hlt) Hw K1)
      as (s3 & E3 & K3 & M3 & F3).
    exists (-1), s3. split; [exact E3|]. right. split; [done|]. split; [exact K3|]. split; [|split; [done|by exists k1]].
    destruct P1 as [PA PB PC PD PE]. split; [|done..].
    apply (vmspace_share s s3 fl ts A (upages Am)); [apply Hc|done| | |].
    + pose proof (vs_free _ _ _ _ PA) as HF. unfold kmem_rep in *. by rewrite M3, F3.
    + by rewrite M3.
    + intros x Hx. by destruct (parent_upage x Hx) as (? & ? & _).
Qed.
End Reap.
End Wait.

(** ** [allocproc] *)

(** The slot as [allocproc] leaves it. *)
Definition born (pid tf pt : Z) (c : proc) : proc :=
  set_p_context (fun _ => mkcontext forkret_addr (u64 (p_kstack c + PGSIZE)) (replicate 10 0))
    (set_p_pagetable (fun _ => pt) (set_p_trapframe (fun _ => tf) (set_p_state (fun _ => USED) (set_p_pid (fun _ => pid) c)))).

Lemma kmem_rep_acq l s fl : kmem_rep (acq l s) fl <-> kmem_rep s fl.
Proof. unfold kmem_rep. by rewrite acq_k_mem, acq_k_freelist. Qed.

Section Alloc.
Context (s : kstate) (i : nat) (c : proc).
Hypothesis (Hcpu : cpu_ok s) (Hlk : forall j, (j < NPROC)%nat -> lock_free s (L_proc j)).
Hypothesis (Hpid : lock_free s L_pid) (Hkm : lock_free s L_kmem) (Hlen : length (k_procs s) = NPROC).
Hypothesis (Hi : k_procs s !! i = Some c) (Hun : p_state c = UNUSED).
Hypothesis (Hfirst : forall j, (j < i)%nat -> p_state (k_procs s !!! j) <> UNUSED).
Hypothesis (Hpt : p_pagetable c = 0) (Hsz : p_sz c = 0).

Lemma slot_lt : (i < NPROC)%nat.
Proof. rewrite <- Hlen. by eapply lookup_lt_Some. Qed.

Lemma allocproc_scan_from j k :
  (j <= i)%nat -> (j + k = NPROC)%nat -> allocproc_scan j k s = Done (Some i) (acq (L_proc i) s).
Proof.
  pose proof slot_lt as Hlt. revert j. induction k as [|k IH]; intros j Hj Hk; [lia|]. cbn [allocproc_scan].
  rewrite (bind_done _ _ _ _ _ (acquire_spec _ _ (Hlk j ltac:(lia)))). unfold getproc. kstep. rewrite acq_k_procs.
  destruct (decide (j = i)) as [->|Hne].
  - rewrite (list_lookup_total_correct _ _ _ Hi). by rewrite bool_decide_eq_true_2.
  - rewrite bool_decide_eq_false_2 by (apply Hfirst; lia).
    rewrite (bind_done _ _ _ _ _ (release_acq _ _ Hcpu (Hlk j ltac:(lia)))). apply IH; lia.
Qed.

(** The state once the slot has its process id. *)
Let b := set_k_procs (alter (fun p => set_p_state (fun _ => USED) (set_p_pid (fun _ => k_nextpid s) p)) i)
  (set_k_nextpid (fun n => n + 1) s).

Lemma allocpid_run : allocpid (acq (L_proc i) s) = Done (k_nextpid s) (acq (L_proc i) (set_k_nextpid (fun n => n + 1) s)).
Proof.
  unfold allocpid. rewrite (bind_done _ _ _ _ _ (acquire_spec _ _ (lock_free_acq (L_proc i) L_pid s ltac:(done) Hpid))).
  kstep. rewrite !acq_k_nextpid, !acq_set_k_nextpid.
  erewrite bind_done; [reflexivity|]. apply release_acq; [by apply cpu_ok_acq|by apply lock_free_acq].
Qed.

Lemma allocproc_start :
  allocproc s = (tf <- kalloc;;
      setproc i (set_p_trapframe (fun _ => tf));;
      if tf =? 0 then freeproc i;; release (L_proc i);; ret None else
      pt <- proc_pagetable tf;;
      setproc i (set_p_pagetable (fun _ => pt));;
      if pt =? 0 then freeproc i;; release (L_proc i);; ret None else
      setproc i (fun pr => set_p_context (fun _ =>
        mkcontext forkret_addr (u64 (p_kstack pr + PGSIZE)) (replicate 10 0)) pr);;
      ret (Some i)) (acq (L_proc i) b).
Proof.
  unfold allocproc. rewrite (bind_done _ _ _ _ _ (allocproc_scan_from 0 NPROC ltac:(lia) ltac:(lia))).
  rewrite (bind_done _ _ _ _ _ allocpid_run). unfold setproc at 1 2. rewrite !bind_modify.
  f_equal. rewrite !acq_set_k_procs, set_set_k_procs. f_equal. apply set_k_procs_ext. by rewrite list_alter_alter.
Qed.

(** Giving the slot up again. *)
Lemma allocproc_fail g s1 fl p :
  kmem_only (acq (L_proc i) (set_k_procs (alter g i) b)) s1 -> kmem_rep s1 fl ->
  k_procs s1 !! i = Some p -> p_pagetable p = 0 ->
  (p_trapframe p = 0 \/ valid_page (p_trapframe p) /\ p_trapframe p ∉ fl) ->
  (forall x, unused_proc (g x) = unused_proc x) ->
  exists s', (freeproc i;; release (L_proc i);; ret (@None nat)) s1 = Done None s' /\
    kmem_only (set_k_procs (alter unused_proc i) (set_k_nextpid (fun n => n + 1) s)) s' /\
    kmem_rep s' (if p_trapframe p =? 0 then fl else p_trapframe p :: fl).
Proof.
  intros K R Hp Hp0 Htf Hg. pose proof slot_lt as Hlt.
  assert (Hc1 : cpu_ok s1) by (apply (kmem_only_ok _ _ K); by apply cpu_ok_acq).
  assert (Hl1 : lock_free s1 L_kmem) by (apply (kmem_only_free _ _ _ K); by apply lock_free_acq).
  rewrite (bind_done _ _ _ _ _ (freeproc_bare s1 i p Hc1 Hl1 Hp Hp0 ltac:(naive_solver))).
  set (s2 := if p_trapframe p =? 0 then s1 else freed (p_trapframe p) s1).
  assert (K2 : kmem_only (acq (L_proc i) (set_k_procs (alter unused_proc i) (set_k_nextpid (fun n => n + 1) s)))
    (set_k_procs (alter unused_proc i) s2)).
  { replace (acq _ _) with (set_k_procs (alter unused_proc i) (acq (L_proc i) (set_k_procs (alter g i) b))).
    - apply kmem_only_procs. eapply kmem_only_trans; [exact K|]. subst s2. by destruct (_ =? _).
    - rewrite !acq_set_k_procs. f_equal. unfold b. rewrite !set_set_k_procs. apply set_k_procs_ext.
      rewrite !list_alter_alter. apply list_alter_ext; [|done]. intros x _. by rewrite Hg. }
  destruct (kmem_only_acq _ _ _ K2) as (s3 & E3 & K3 & M3 & F3). exists s3. rewrite E3.
  rewrite (bind_done _ _ _ _ _ (release_acq _ s3 (kmem_only_ok _ _ K3 Hcpu) (kmem_only_free _ _ _ K3 (Hlk i Hlt)))).
  split; [done|]. split; [done|].
  assert (HR : kmem_rep s2 (if p_trapframe p =? 0 then fl else p_trapframe p :: fl)).
  { subst s2. destruct (Z.eqb_spec (p_trapframe p) 0) as [E0|E0]; [exact R|].
    destruct Htf as [Htf|[Hv Hn]]; [contradiction|]. by apply kfree_rep. }
  unfold kmem_rep in *. by rewrite M3, F3.
Qed.
Lemma lookup_acq_procs l g s0 p :
  k_procs s0 !! i = Some p -> k_procs (acq l (set_k_procs (alter g i) s0)) !! i = Some (g p).
Proof. intros Hp. rewrite acq_k_procs. cbn. by rewrite list_lookup_alter_eq, Hp. Qed.

Lemma kmem_only_procs_eq s1 s2 : kmem_only s1 s2 -> k_procs s2 = k_procs s1.
Proof. unfold kmem_only. intros ->. reflexivity. Qed.

Let c1 := set_p_state (fun _ => USED) (set_p_pid (fun _ => k_nextpid s) c).

Lemma slot_b : k_procs b !! i = Some c1.
Proof. unfold b. cbn. by rewrite list_lookup_alter_eq, Hi. Qed.

Definition allocated (fl : list Z) (r : option nat) (s' : kstate) : Prop :=
  (5 <= length fl)%nat /\ r = Some i /\ (exists s0 tf pt fl' ts, s' = acq (L_proc i) s0 /\
    kmem_only (set_k_procs (alter (born (k_nextpid s) tf pt) i) (set_k_nextpid (fun n => n + 1) s)) s0 /\
    proc_space s0 fl' ts {[TFPAGE := (tf, kperm)]} (born (k_nextpid s) tf pt c) /\ tf :: fl' ++ ts ≡ₚ fl) \/
  (length fl < 5)%nat /\ r = None /\ kmem_only (set_k_procs (alter unused_proc i) (set_k_nextpid (fun n => n + 1) s)) s' /\
    exists fl', kmem_rep s' fl' /\ fl' ≡ₚ fl.

Lemma allocproc_nomem : kmem_rep s [] -> exists r s', allocproc s = Done r s' /\ allocated [] r s'.
Proof.
  intros R. rewrite allocproc_start.
  assert (Rb : kmem_rep (acq (L_proc i) b) []) by (by apply kmem_rep_acq).
  rewrite (bind_done _ _ _ _ _ (kalloc_none _ (cpu_ok_acq _ b Hcpu) (lock_free_acq (L_proc i) L_kmem b ltac:(done) Hkm) Rb)).
  unfold setproc at 1. kstep. change (0 =? 0) with true. cbv iota. rewrite acq_set_k_procs.
  destruct (allocproc_fail (set_p_trapframe (fun _ => 0)) (acq (L_proc i) (set_k_procs (alter (set_p_trapframe (fun _ => 0)) i) b))
    [] (set_p_trapframe (fun _ => 0) c1)) as (s' & E & K & R'); [apply kmem_only_refl|by apply kmem_rep_acq| |exact Hpt|by left|done|].
  { apply lookup_acq_procs, slot_b. }
  exists None, s'. split; [exact E|]. right. split; [simpl; lia|]. split; [done|]. split; [exact K|]. by exists [].
Qed.

Lemma allocproc_mem tf fl :
  kmem_rep s (tf :: fl) -> exists r s', allocproc s = Done r s' /\ allocated (tf :: fl) r s'.
Proof.
  intros R. rewrite allocproc_start. pose proof R as ((_ & Hv & _) & Hnd & _). apply NoDup_cons in Hnd as [Hn _].
  assert (Hcb : cpu_ok (acq (L_proc i) b)) by (by apply cpu_ok_acq).
  assert (Hlb : lock_free (acq (L_proc i) b) L_kmem) by (by apply lock_free_acq).
  assert (Rb : kmem_rep (acq (L_proc i) b) (tf :: fl)) by (by apply kmem_rep_acq).
  rewrite (bind_done _ _ _ _ _ (kalloc_take _ _ _ Hcb Hlb Rb)). unfold setproc. kstep.
  rewrite (proj2 (Z.eqb_neq tf 0)) by (pose proof (valid_page_range tf Hv); lia).
  set (g := set_p_trapframe (fun _ => tf)). set (s1 := set_k_procs (alter g i) (alloced tf (acq (L_proc i) b))).
  assert (K1 : kmem_only (acq (L_proc i) (set_k_procs (alter g i) b)) s1) by (by rewrite <- acq_set_k_procs).
  destruct (proc_pagetable_run s1 fl tf (kmem_only_ok _ _ K1 Hcb) (kmem_only_free _ _ _ K1 Hlb) (kalloc_rep _ _ _ Rb) Hv Hn)
    as (pt & s2 & E2 & K2 & R2). rewrite (bind_done _ _ _ _ _ E2). kstep.
  pose proof (kmem_only_trans _ _ _ K1 K2) as K12. clear E2 K1 K2.
  set (h := fun p => set_p_pagetable (fun _ => pt) (g p)).
  assert (K3 : kmem_only (acq (L_proc i) (set_k_procs (alter h i) b)) (set_k_procs (alter (set_p_pagetable (fun _ => pt)) i) s2)).
  { eapply kmem_only_procs in K12. rewrite acq_set_k_procs, set_set_k_procs in K12.
    erewrite set_k_procs_ext in K12; [exact K12|]. by rewrite list_alter_alter. }
  assert (P3 : k_procs (set_k_procs (alter (set_p_pagetable (fun _ => pt)) i) s2) !! i = Some (h c1)).
  { rewrite (kmem_only_procs_eq _ _ K3). apply lookup_acq_procs, slot_b. }
  destruct R2 as [(-> & Hfew & fl' & R2 & Pm)|[Hne (fl' & ts & V & Hr & Pm)]].
  - change (0 =? 0) with true. cbv iota.
    destruct (allocproc_fail h _ fl' (h c1) K3 R2 P3 eq_refl) as (s' & E & K & R'); [|done|].
    { right. split; [done|]. change (p_trapframe (h c1)) with tf. by rewrite Pm. }
    exists None, s'. split; [exact E|]. right. split; [cbn [length]; lia|]. split; [done|]. split; [exact K|].
    change (p_trapframe (h c1)) with tf in R'. rewrite (proj2 (Z.eqb_neq tf 0)) in R' by (pose proof (valid_page_range tf Hv); lia).
    exists (tf :: fl'). split; [done|]. by rewrite Pm.
  - rewrite (proj2 (Z.eqb_neq pt 0)) by done. kstep.
    set (f := fun pr => set_p_context _ pr). eapply (kmem_only_procs (alter f i)) in K3.
    rewrite acq_set_k_procs in K3. destruct (kmem_only_acq _ _ _ K3) as (s0 & E0 & K0 & M0 & F0).
    eexists _, _. split; [reflexivity|]. left. split.
    { destruct (pt_dom _ _ _ (vs_tab _ _ _ _ V) TFPAGE _ (lookup_singleton_eq _ _)) as (_ & Hlen4 & _).
      pose proof (Permutation_length Pm) as Hlen'. rewrite length_app in Hlen'. cbn [length]. lia. }
    split; [done|]. exists s0, tf, pt, fl', ts. split; [exact E0|].
    assert (EQ : set_k_procs (alter f i) (set_k_procs (alter h i) b) =
      set_k_procs (alter (born (k_nextpid s) tf pt) i) (set_k_nextpid (fun n => n + 1) s)).
    { unfold b. rewrite !set_set_k_procs. apply set_k_procs_ext. by rewrite !list_alter_alter. }
    rewrite EQ in K0. split; [exact K0|]. split; [|by rewrite <- Pm].
    split; [|done| | |].
    + destruct V as [V1 V2 V3 V4 V5 V6 V7 V8]. split; [by apply (kmem_only_ok _ _ K0)|by apply (kmem_only_free _ _ _ K0)| | |done..].
      * unfold kmem_rep in *. by rewrite M0, F0.
      * by rewrite M0.
    + exists kperm. apply lookup_singleton_eq.
    + change (0 <= p_sz c <= TRAPFRAME). by rewrite Hsz.
    + intros v Hv0. rewrite lookup_singleton_ne by done. change (p_sz (born (k_nextpid s) tf pt c)) with (p_sz c).
      rewrite Hsz. change (npages 0) with 0. split; [by intros []|lia].
Qed.
End Alloc.

(** ** [kill] *)

Lemma kill_loop_first s pid i c j k :
  cpu_ok s -> (forall x, (x < NPROC)%nat -> lock_free s (L_proc x)) -> (i < NPROC)%nat ->
  k_procs s !! i = Some c -> p_pid c = pid -> p_state c <> SLEEPING ->
  (forall x, (x < i)%nat -> p_pid (k_procs s !!! x) <> pid) -> (j <= i)%nat -> (j + k = NPROC)%nat ->
  kill_loop pid j k s = Done 0 (set_k_procs (alter (set_p_killed (fun _ => 1)) i) s).
Proof.
  intros Hc Hl Hlt Hi Hp Hs Hf. revert j. induction k as [|k IH]; intros j Hj Hk; [lia|]. cbn [kill_loop].
  rewrite (bind_done _ _ _ _ _ (acquire_spec _ _ (Hl j ltac:(lia)))). unfold getproc. kstep. rewrite acq_k_procs.
  destruct (decide (j = i)) as [->|Hne].
  - rewrite (list_lookup_total_correct _ _ _ Hi), (proj2 (Z.eqb_eq _ _) Hp), bool_decide_eq_false_2 by done.
    unfold setproc. kstep. rewrite acq_set_k_procs. erewrite bind_done; [reflexivity|]. apply release_acq; [done|by apply Hl].
  - rewrite (proj2 (Z.eqb_neq _ _)) by (apply Hf; lia).
    rewrite (bind_done _ _ _ _ _ (release_acq _ _ Hc (Hl j ltac:(lia)))). apply IH; lia.
Qed.

Module AllocClaims.

(** C16: [allocproc] with an unused slot, which has no page table and no memory,
    and at least five free pages (a trap frame and four page tables) returns the
    first unused slot, locked. The process has the next process id, a trap frame page mapped in a new page table
    and no user memory, all taken from the free list. With fewer than five free
    pages it fails: whether memory runs out at the trap frame or at any of the
    page tables, the free list has the pages it had and the slot is unused again.
    No other process changes. *)
Theorem allocproc_all_or_nothing s i c fl :
  cpu_ok s -> (forall j, (j < NPROC)%nat -> lock_free s (L_proc j)) -> lock_free s L_pid -> lock_free s L_kmem ->
  length (k_procs s) = NPROC -> k_procs s !! i = Some c -> p_state c = UNUSED ->
  (forall j, (j < i)%nat -> p_state (k_procs s !!! j) <> UNUSED) -> p_pagetable c = 0 -> p_sz c = 0 -> kmem_rep s fl ->
  exists r s', allocproc s = Done r s' /\ allocated s i c fl r s'.
Proof.
  intros. destruct fl as [|tf fl]; [by apply allocproc_nomem|by apply allocproc_mem].
Qed.

(** C37: [kill(0)] succeeds: it marks the first unused slot, whose process id
    is 0, as killed, and the process [allocproc] creates in that slot next is
    killed from its birth. *)
Theorem kill_zero_next_process s i c fl :
  cpu_ok s -> (forall j, (j < NPROC)%nat -> lock_free s (L_proc j)) -> lock_free s L_pid -> lock_free s L_kmem ->
  length (k_procs s) = NPROC -> k_procs s !! i = Some c -> p_state c = UNUSED -> p_pid c = 0 ->
  (forall j, (j < i)%nat -> p_state (k_procs s !!! j) <> UNUSED /\ p_pid (k_procs s !!! j) <> 0) ->
  p_pagetable c = 0 -> p_sz c = 0 -> kmem_rep s fl ->
  exists s1 r s', kill 0 s = Done 0 s1 /\ allocproc s1 = Done r s' /\ ((length fl < 5)%nat /\ r = None \/
    r = Some i /\ p_killed (k_procs s' !!! i) = 1).
Proof.
  intros Hc Hl Hpid Hk Hlen Hi Hs Hp Hf Hpt Hsz R.
  set (s1 := set_k_procs (alter (set_p_killed (fun _ => 1)) i) s).
  assert (Hi1 : k_procs s1 !! i = Some (set_p_killed (fun _ => 1) c)) by (subst s1; cbn; by rewrite list_lookup_alter_eq, Hi).
  assert (Hf1 : forall j, (j < i)%nat -> p_state (k_procs s1 !!! j) <> UNUSED).
  { intros j Hj. subst s1. cbn. rewrite list_lookup_total_alter_ne by lia. by apply Hf. }
  assert (HA : exists r s', allocproc s1 = Done r s' /\ allocated s1 i (set_p_killed (fun _ => 1) c) fl r s').
  { destruct fl as [|tf fl]; [apply allocproc_nomem|apply allocproc_mem]; try done; subst s1; cbn; by rewrite length_alter. }
  destruct HA as (r & s' & E & HA). exists s1, r, s'. split.
  { apply (kill_loop_first s 0 i c 0 NPROC); try done; try lia.
    - rewrite <- Hlen. by eapply lookup_lt_Some.
    - by rewrite Hs.
    - intros x Hx. by apply Hf. }
  split; [exact E|]. destruct HA as [(_ & -> & s0 & tf & pt & fl' & ts & -> & K & _)|(Hfew & -> & _)]; [right|by left].
  split; [done|]. rewrite acq_k_procs, (kmem_only_procs_eq _ _ K). cbn.
  rewrite (list_lookup_total_correct _ _ (born (k_nextpid s1) tf pt (set_p_killed (fun _ => 1) c))); [done|].
  by rewrite list_lookup_alter_eq, list_lookup_alter_eq, Hi.
Qed.

(** Nine free pages and an empty process table. *)
Definition alloc_machine : kstate :=
  set_k_mem (fun _ => k_mem (pool (pages RAMBASE 9))) (set_k_freelist (fun _ => k_freelist (pool (pages RAMBASE 9)))
    (set_k_locks (fun l => <[L_kmem := mkspinlock 0 "kmem" None]> (<[L_pid := mkspinlock 0 "nextpid" None]> l)) wake_test_state)).

Lemma alloc_machine_ok :
  cpu_ok alloc_machine /\ (forall j, (j < NPROC)%nat -> lock_free alloc_machine (L_proc j)) /\ kmem_rep alloc_machine (pages RAMBASE 9).
Proof.
  split; [split_and!; vm_compute; done|]. split.
  - intros j Hj. destruct (wake_test_locks j Hj) as [nm H]; [done|]. exists nm.
    change (k_locks alloc_machine) with (<[L_kmem := mkspinlock 0 "kmem" None]> (<[L_pid := mkspinlock 0 "nextpid" None]> (k_locks wake_test_state))).
    by rewrite !lookup_insert_ne by done.
  - destruct (pool_ok 9 ltac:(lia)) as (_ & _ & R). exact R.
Qed.

Lemma allocproc_all_or_nothing_witness :
  exists s' tf pt, allocproc alloc_machine = Done (Some 0%nat) s' /\ tf ∈ pages RAMBASE 9 /\
    k_procs s' !! 0%nat = Some (born 1 tf pt proc0).
Proof.
  destruct alloc_machine_ok as (Hc & Hl & R).
  assert (HA : exists r s', allocproc alloc_machine = Done r s' /\ allocated alloc_machine 0 proc0 (pages RAMBASE 9) r s').
  { apply allocproc_all_or_nothing; try done.
    - by exists "nextpid"%string.
    - by exists "kmem"%string.
    - intros j Hj. lia. }
  destruct HA as (r & s' & E & [(_ & -> & s0 & tf & pt & fl' & ts & -> & K & _ & P)|(Hfew & _)]);
    [|rewrite length_pages in Hfew; lia].
  exists (acq (L_proc 0) s0), tf, pt. split; [exact E|]. split; [rewrite <- P; left|].
  rewrite acq_k_procs, (kmem_only_procs_eq _ _ K). reflexivity.
Defined.

Lemma alloc_machine_born :
  match kill 0 alloc_machine with
  | Done _ s1 => match allocproc s1 with Done r _ => r | _ => None end
  | _ => None
  end = Some 0%nat.
Proof. vm_compute. reflexivity. Qed.

Lemma kill_zero_next_process_witness :
  exists s1 s', kill 0 alloc_machine = Done 0 s1 /\ allocproc s1 = Done (Some 0%nat) s' /\
    p_killed (k_procs s' !!! 0%nat) = 1.
Proof.
  destruct alloc_machine_ok as (Hc & Hl & R).
  destruct (kill_zero_next_process alloc_machine 0 proc0 (pages RAMBASE 9)) as (s1 & r & s' & Ek & Ea & Hr); try done.
  - by exists "nextpid"%string.
  - by exists "kmem"%string.
  - intros j Hj. lia.
  - pose proof alloc_machine_born as F. rewrite Ek, Ea in F. rewrite F in Ea, Hr. clear F.
    exists s1, s'. split; [exact Ek|]. split; [exact Ea|]. destruct Hr as [[_ Hr]|[_ Hr]]; [discriminate Hr|exact Hr].
Defined.
End AllocClaims.

Module WaitClaims.

(** C15: [wait] of a process with an exited child returns. It takes the first
    exited child of the table. Either it stores the child's exit status at
    [addr] in the caller's memory (nothing when [addr] is 0) and no other byte
    the caller sees changes, every page of the child (tables, trap frame and
    user memory) is back on the free list, its slot is unused and no other
    process or lock changes, and the child's id is returned; or a byte of the
    status lies on a page the caller cannot write, -1 is returned and the child
    is still there, with its memory. *)
Theorem wait_reaps s me addr fl tsm ts Am A c i :
  quiet s me -> lock_free s L_wait -> 0 <= addr < 2 ^ 64 ->
  vmspace s fl tsm Am -> tsm !! 0%nat = Some (p_pagetable (k_procs s !!! me)) ->
  k_procs s !! i = Some c -> exited_child me c -> proc_space s fl ts A c ->
  (forall j, (j < i)%nat -> ~ exited_child me (k_procs s !!! j)) ->
  (forall x, x ∈ upages Am -> x ∉ ts ++ pages_of A) ->
  exists r s', wait addr s = Done r s' /\
   (r = p_pid c /\ kmem_only (set_k_procs (alter unused_proc i) s) s' /\
      (exists fl', kmem_rep s' fl' /\ fl' ≡ₚ all_pages fl ts A) /\
      ustored Am (k_mem s) (k_mem s') addr (status c) (if addr =? 0 then 0 else 4) \/
    r = -1 /\ kmem_only s s' /\ proc_space s' fl ts A c /\ addr <> 0 /\
      exists k, 0 <= k < 4 /\ upage Am ((addr + k) / PGSIZE) = None).
Proof.
  intros Hq Hw Ha Hm Hmr Hi Hz Hc Hn Hd. pose proof (reap_lt s me Hq c i Hi) as Hlt.
  unfold wait. rewrite (bind_done _ _ _ _ _ (curproc_spec s me (proj1 Hq) (proj1 (proj2 Hq)))).
  rewrite (bind_done _ _ _ _ _ (acquire_spec _ _ Hw)).
  change sleep_fuel with (S (pred sleep_fuel)). generalize (pred sleep_fuel). intros f. cbn [wait_loop].
  destruct (scan_to s me addr Hq i false 0 NPROC) as [hk E]; [lia|lia|done|done|].
  replace (NPROC - i)%nat with (S (NPROC - S i)) in E by lia.
  destruct (scan_reaps s me addr Hq Hw fl tsm ts Am A c i Hm Hmr Hi Hz Hc Hd Ha hk (NPROC - S i)) as (r & s' & E' & R).
  exists r, s'. split; [|exact R]. by rewrite (bind_done _ _ _ _ _ (eq_trans E E')).
Qed.

(** Process 3, with an empty address space, waits for process 2. *)
Definition wait_tf : Z := RAMBASE + 100 * PGSIZE.

Definition wait_child : proc :=
  set_p_state (fun _ => ZOMBIE) (set_p_parent (fun _ => Some 3%nat) (set_p_pid (fun _ => 7) (set_p_xstate (fun _ => 42)
    (set_p_pagetable (fun _ => RAMBASE) (set_p_trapframe (fun _ => wait_tf) proc0))))).

Definition wait_machine (q : Z) (m : kstate) : kstate :=
  set_k_mem (fun _ => k_mem m) (set_k_freelist (fun _ => k_freelist m)
    (set_k_locks (fun l => <[L_kmem := mkspinlock 0 "kmem" None]> (<[L_wait := mkspinlock 0 "wait_lock" None]> l))
      (set_k_cpu (set_c_proc (fun _ => Some 3%nat))
        (set_k_procs (fun ps => <[2%nat := wait_child]> (alter (set_p_pagetable (fun _ => q)) 3%nat ps)) wake_test_state)))).

Lemma wait_machine_space q m fl ts A : vmspace m fl ts A -> vmspace (wait_machine q m) fl ts A.
Proof.
  intros [V1 V2 V3 V4 V5 V6 V7 V8].
  split; [split_and!; vm_compute; done|exists "kmem"%string; reflexivity|exact V3|exact V4|exact V5|exact V6|exact V7|exact V8].
Qed.

Lemma wait_machine_quiet q m : quiet (wait_machine q m) 3.
Proof.
  split; [split_and!; vm_compute; done|]. split; [reflexivity|]. split; [reflexivity|]. split; [reflexivity|].
  split; [vm_compute; lia|]. intros i Hi. destruct (wake_test_locks i Hi) as [nm H]; [done|]. exists nm.
  change (k_locks (wait_machine q m)) with (<[L_kmem := mkspinlock 0 "kmem" None]> (<[L_wait := mkspinlock 0 "wait_lock" None]> (k_locks wake_test_state))).
  by rewrite !lookup_insert_ne by done.
Qed.

Lemma wait_reaps_witness :
  exists q m s', wait 0 (wait_machine q m) = Done 7 s' /\ p_state (k_procs s' !!! 2%nat) = UNUSED.
Proof.
  destruct (vm_test_map TFPAGE wait_tf kperm) as (s & q & fl & ts & H & Hroot & _).
  - unfold TFPAGE. lia.
  - split; [done|]. unfold wait_tf. rewrite RAMBASE_val, RAMSTOP_val. unfold PGSIZE. lia.
  - apply perm_ok_k.
  - rewrite elem_of_pages. intros (i & Hi & Heq). unfold wait_tf, PGSIZE in Heq. lia.
  - destruct (zeroed_space s q fl ts _ H) as (Hz & _).
    pose proof (new_table s q fl (vs_cpu _ _ _ _ H) (vs_lock _ _ _ _ H) (vs_free _ _ _ _ H)) as Hn.
    exists q, (zeroed q s).
    destruct (wait_reaps (wait_machine q (zeroed q s)) 3 0 fl [q] ts ∅ {[TFPAGE := (wait_tf, kperm)]} wait_child 2)
      as (r & s' & E & R).
    + apply wait_machine_quiet.
    + by exists "wait_lock"%string.
    + lia.
    + by apply wait_machine_space.
    + reflexivity.
    + reflexivity.
    + done.
    + split; [by apply wait_machine_space|done| |by split|].
      * exists kperm. apply lookup_singleton_eq.
      * intros v Hv. rewrite lookup_singleton_ne by done. change (npages (p_sz wait_child)) with 0. split; [by intros []|lia].
    + intros j Hj [Hp _]. destruct j as [|[|j]]; [vm_compute in Hp; done..|lia].
    + intros x Hx. unfold upages in Hx. rewrite map_to_list_empty in Hx. by apply not_elem_of_nil in Hx.
    + exists s'. destruct R as [(Hr & K & _)|(_ & _ & _ & Hne & _)]; [|destruct Hne; reflexivity].
      change (p_pid wait_child) with 7 in Hr. rewrite Hr in E. split; [exact E|].
      clear -K. unfold kmem_only in K. rewrite K. cbn [k_procs set_k_freelist set_k_mem]. reflexivity.
Defined.
End WaitClaims.
