(* ===== verification/Exec.v ===== *)
(** * Loading a program ([kernel/exec.c]) *)

From stdpp Require Import gmap strings list.
From Stdlib Require Import ZArith Lia.
From S2P Require Import Prelude KState CString Spinlock Sched SleepLock Kalloc Vm Bio Log Fs Uart Console File Proc.
Open Scope Z_scope.
Import CString Spinlock Sched SleepLock Kalloc Vm Log Fs File Proc.

Module Exec.

(** ** The ELF structures in memory ([elf.h]) *)
Definition ELF_MAGIC : Z := 0x464C457F.
Definition ELF_PROG_LOAD : Z := 1.
Definition sizeof_elfhdr : Z := 64.
Definition sizeof_proghdr : Z := 56.

Definition ld16 (m : mem) (a : Z) : Z := le_dec (ldbytes m a 2).
Definition ld32 (m : mem) (a : Z) : Z := le_dec (ldbytes m a 4).

Definition elf_magic (m : mem) (elf : Z) : Z := ld32 m elf.
Definition elf_entry (m : mem) (elf : Z) : Z := ld64 m (elf + 24).
Definition elf_phoff (m : mem) (elf : Z) : Z := ld64 m (elf + 32).
Definition elf_phnum (m : mem) (elf : Z) : Z := ld16 m (elf + 56).

Definition ph_type (m : mem) (ph : Z) : Z := ld32 m ph.
Definition ph_off (m : mem) (ph : Z) : Z := ld64 m (ph + 8).
Definition ph_vaddr (m : mem) (ph : Z) : Z := ld64 m (ph + 16).
Definition ph_filesz (m : mem) (ph : Z) : Z := ld64 m (ph + 32).
Definition ph_memsz (m : mem) (ph : Z) : Z := ld64 m (ph + 40).

(** [offset] and [sz] are [uint]s. *)
Fixpoint loadseg_loop (pagetable va : Z) (ip : nat) (offset sz i : Z) (fuel : nat) : K Z :=
  match fuel with
  | O => nofuel
  | S f =>
      if negb (i <? sz) then ret 0 else
      pa <- walkaddr pagetable (u64 (va + i));;
      if pa =? 0 then panic "loadseg: address should exist" else
      let n := if sz - i <? PGSIZE then sz - i else PGSIZE in
      r <- readi ip false (Z.lor pa DMWIN_MASK) (u32 (offset + i)) n;;
      if negb (u32 r =? n) then ret (-1) else
      loadseg_loop pagetable va ip offset sz (u32 (i + PGSIZE)) f
  end.

Definition loadseg (pagetable va : Z) (ip : nat) (offset sz : Z) : K Z :=
  loadseg_loop pagetable va ip offset sz 0 (S (S (Z.to_nat (sz / PGSIZE)))).

(** Locals whose address is taken. *)
Definition loc_exec_elf : Z := 512.
Definition loc_exec_ph : Z := 576.

(** The loop over the program headers: [None] stands for [goto bad]; the size
    mapped so far is needed there too. *)
Fixpoint exec_load (ip : nat) (pagetable elf ph i off sz : Z) (fuel : nat) : K (bool * Z) :=
  match fuel with
  | O => nofuel
  | S f =>
      m <- gets k_mem;;
      if negb (i <? elf_phnum m elf) then ret (true, sz) else
      r <- readi ip false ph (u32 off) sizeof_proghdr;;
      if negb (r =? sizeof_proghdr) then ret (false, sz) else
      m <- gets k_mem;;
      if negb (ph_type m ph =? ELF_PROG_LOAD) then
        exec_load ip pagetable elf ph (i + 1) (s32 (off + sizeof_proghdr)) sz f
      else if ph_memsz m ph <? ph_filesz m ph then ret (false, sz)
      else if u64 (ph_vaddr m ph + ph_memsz m ph) <? ph_vaddr m ph then ret (false, sz)
      else
      sz1 <- uvmalloc pagetable sz (u64 (ph_vaddr m ph + ph_memsz m ph));;
      if sz1 =? 0 then ret (false, sz) else
      if negb (ph_vaddr m ph mod PGSIZE =? 0) then ret (false, sz1) else
      r <- loadseg pagetable (ph_vaddr m ph) ip (u32 (ph_off m ph)) (u32 (ph_filesz m ph));;
      if r <? 0 then ret (false, sz1) else
      exec_load ip pagetable elf ph (i + 1) (s32 (off + sizeof_proghdr)) sz1 f
  end.

(** The argument strings: [Some (argc, sp, ustack)], or [None] for [goto
    bad]. *)
Definition argstr_fuel : nat := S (Z.to_nat PGSIZE).

Fixpoint push_args (pagetable argv argc sp stackbase : Z) (ustack : list Z) (fuel : nat)
    : K (option (Z * Z * list Z)) :=
  match fuel with
  | O => nofuel
  | S f =>
      arg <- load64 (argv + 8 * argc);;
      if arg =? 0 then ret (Some (argc, sp, ustack)) else
      if argc >=? Z.of_nat MAXARG then ret None else
      m <- gets k_mem;;
      len <- orfuel (strlen argstr_fuel m arg);;
      let sp := u64 (sp - (len + 1)) in
      let sp := u64 (sp - sp mod 16) in
      if sp <? stackbase then ret None else
      bs <- gets (fun s => ldbytes (k_mem s) arg (Z.to_nat (len + 1)));;
      r <- copyout pagetable sp bs;;
      if r <? 0 then ret None else
      push_args pagetable argv (argc + 1) sp stackbase (ustack ++ [sp]) f
  end.

(** [for(last=s=path; *s; s++) if( *s == '/') last = s+1;] *)
Fixpoint last_elem (m : mem) (last s : Z) (fuel : nat) : option Z :=
  match fuel with
  | O => None
  | S f =>
      if ld8 m s =? 0 then Some last
      else last_elem m (if ld8 m s =? SLASH then s + 1 else last) (s + 1) f
  end.

(** The [bad] label. *)
Definition exec_bad (pagetable sz : Z) (ip : option nat) : K Z :=
  when (negb (pagetable =? 0)) (proc_freepagetable pagetable sz);;
  match ip with
  | Some ip => iunlockput ip;; end_op
  | None => ret tt
  end;;
  ret (-1).

(** After the image is loaded: stack, arguments, commit. *)
Definition exec_commit (p : nat) (path argv elf pagetable sz : Z) : K Z :=
  pr <- getproc p;;
  let oldsz := p_sz pr in
  let sz := PGROUNDUP sz in
  sz1 <- uvmalloc pagetable sz (u64 (sz + 2 * PGSIZE));;
  if sz1 =? 0 then exec_bad pagetable sz None else
  let sz := sz1 in
  uvmclear pagetable (u64 (sz - 2 * PGSIZE));;
  let stackbase := u64 (sz - PGSIZE) in
  r <- push_args pagetable argv 0 sz stackbase [] (S (S MAXARG));;
  match r with
  | None => exec_bad pagetable sz None
  | Some (argc, sp, ustack) =>
      if argc >=? Z.of_nat MAXARG then out_of_bounds "ustack" else
      let ustack := ustack ++ [0] in
      let sp := u64 (sp - (argc + 1) * 8) in
      let sp := u64 (sp - sp mod 16) in
      if sp <? stackbase then exec_bad pagetable sz None else
      r <- copyout pagetable sp (concat (map (le_enc 8) ustack));;
      if r <? 0 then exec_bad pagetable sz None else
      tf_set p TF_a1 sp;;
      m <- gets k_mem;;
      last <- orfuel (last_elem m path path path_fuel);;
      setproc p (set_p_name (set_name (ldbytes m last sizeof_name)));;
      pr <- getproc p;;
      let oldpagetable := p_pagetable pr in
      setproc p (set_p_pagetable (fun _ => pagetable));;
      setproc p (set_p_sz (fun _ => sz));;
      m <- gets k_mem;;
      tf_set p TF_era (elf_entry m elf);;
      tf_set p TF_sp sp;;
      proc_freepagetable oldpagetable oldsz;;
      ret argc
  end.

Definition exec (path argv : Z) : K Z :=
  p <- curproc;;
  begin_op;;
  r <- namei path;;
  match r with
  | None => end_op;; ret (-1)
  | Some ip =>
      ilock (Some ip);;
      elf <- local loc_exec_elf;;
      ph <- local loc_exec_ph;;
      r <- readi ip false elf 0 sizeof_elfhdr;;
      if negb (r =? sizeof_elfhdr) then exec_bad 0 0 (Some ip) else
      m <- gets k_mem;;
      if negb (elf_magic m elf =? ELF_MAGIC) then exec_bad 0 0 (Some ip) else
      pr <- getproc p;;
      pagetable <- proc_pagetable (p_trapframe pr);;
      if pagetable =? 0 then exec_bad 0 0 (Some ip) else
      m <- gets k_mem;;
      r <- exec_load ip pagetable elf ph 0 (s32 (elf_phoff m elf)) 0
             (S (Z.to_nat (elf_phnum m elf)));;
      if negb r.1 then exec_bad pagetable r.2 (Some ip) else
      iunlockput ip;;
      end_op;;
      p <- curproc;;
      exec_commit p path argv elf pagetable r.2
  end.

End Exec.
