(* ===== verification/Syscall.v ===== *)
(** * System calls ([kernel/syscall.c], [kernel/sysproc.c],
    [kernel/sysfile.c])

    Argument fetching, the system calls and their dispatch by number. *)

From stdpp Require Import gmap strings list.
From Stdlib Require Import ZArith Lia.
From S2P Require Import Prelude KState CString Spinlock Sched SleepLock Kalloc Vm Bio Log Fs Uart Console File Proc Exec.
Open Scope Z_scope.
Import CString Spinlock Sched SleepLock Kalloc Vm Log Fs File Proc Exec.

Module Syscall.

(** [fetchaddr]: the word at [addr], or [None] for the result [-1]. *)
Definition fetchaddr (addr : Z) : K (option Z) :=
  p <- curproc;;
  pr <- getproc p;;
  if (addr >=? p_sz pr) || (u64 (addr + 8) >? p_sz pr) then ret None else
  r <- copyin (p_pagetable pr) addr 8;;
  if negb (r.1 =? 0) then ret None else ret (Some (le_dec r.2)).

Definition fetchstr (addr buf max : Z) : K Z :=
  p <- curproc;;
  pr <- getproc p;;
  err <- copyinstr (p_pagetable pr) buf addr max;;
  if err <? 0 then ret err else
  m <- gets k_mem;;
  orfuel (strlen (S (Z.to_nat max)) m buf).

Definition argraw (n : Z) : K Z :=
  p <- curproc;;
  if (0 <=? n) && (n <=? 5) then tf_get p (TF_a0 + 8 * n) else panic "argraw".

Definition argint (n : Z) : K Z := v <- argraw n;; ret (s32 v).
Definition argaddr (n : Z) : K Z := argraw n.
Definition argstr (n buf max : Z) : K Z := addr <- argaddr n;; fetchstr addr buf max.

(** ** [sysproc.c] *)

Definition sys_exit : K Z := n <- argint 0;; exit n;; ret 0.

Definition sys_getpid : K Z := p <- curproc;; pr <- getproc p;; ret (u64 (p_pid pr)).

Definition sys_fork : K Z := r <- fork;; ret (u64 r).

Definition sys_wait : K Z := p <- argaddr 0;; r <- wait p;; ret (u64 r).

Definition sys_sbrk : K Z :=
  n <- argint 0;;
  p <- curproc;;
  pr <- getproc p;;
  let addr := s32 (p_sz pr) in
  r <- growproc n;;
  if r <? 0 then ret (u64 (-1)) else ret (u64 addr).

Fixpoint sys_sleep_loop (ticks0 n : Z) (fuel : nat) : K Z :=
  match fuel with
  | O => nofuel
  | S f =>
      t <- gets k_ticks;;
      if u32 (t - ticks0) <? u32 n then
        p <- curproc;;
        pr <- getproc p;;
        if negb (p_killed pr =? 0) then release L_ticks;; ret (u64 (-1)) else
        sleep CH_ticks L_ticks;;
        sys_sleep_loop ticks0 n f
      else release L_ticks;; ret 0
  end.

Definition sys_sleep : K Z :=
  n <- argint 0;;
  acquire L_ticks;;
  ticks0 <- gets k_ticks;;
  sys_sleep_loop ticks0 n sleep_fuel.

Definition sys_kill : K Z := pid <- argint 0;; r <- kill pid;; ret (u64 r).

Definition sys_uptime : K Z :=
  acquire L_ticks;;
  t <- gets k_ticks;;
  release L_ticks;;
  ret t.

(** ** [sysfile.c] *)

(** Local variables whose address is taken. *)
Definition loc_name : Z := 96.
Definition loc_path : Z := 128.
Definition loc_new : Z := 256.
Definition loc_old : Z := 384.
Definition loc_create_name : Z := 112.
Definition loc_isdirempty_de : Z := 48.
Definition loc_unlink_de : Z := 1200.
Definition loc_argv : Z := 640.

Definition EFAIL : Z := u64 (-1).

Definition argfd (n : Z) : K (option (Z * nat)) :=
  fd <- argint n;;
  if (fd <? 0) || (fd >=? Z.of_nat NOFILE) then ret None else
  p <- curproc;;
  pr <- getproc p;;
  match p_ofile pr !!! Z.to_nat fd with
  | None => ret None
  | Some f => ret (Some (fd, f))
  end.

Fixpoint fdalloc_loop (p f fd k : nat) : K Z :=
  match k with
  | O => ret (-1)
  | S k' =>
      pr <- getproc p;;
      match p_ofile pr !!! fd with
      | None =>
          setproc p (set_p_ofile (insert fd (Some f)));;
          ret (Z.of_nat fd)
      | Some _ => fdalloc_loop p f (S fd) k'
      end
  end.

Definition fdalloc (f : nat) : K Z := p <- curproc;; fdalloc_loop p f 0 NOFILE.

Definition set_ofile (fd : Z) (v : option nat) : K unit :=
  p <- curproc;; setproc p (set_p_ofile (insert (Z.to_nat fd) v)).

Definition sys_dup : K Z :=
  r <- argfd 0;;
  match r with
  | None => ret EFAIL
  | Some (_, f) =>
      fd <- fdalloc f;;
      if fd <? 0 then ret EFAIL else
      filedup f;;
      ret (u64 fd)
  end.

Definition sys_read : K Z :=
  r <- argfd 0;;
  match r with
  | None => ret EFAIL
  | Some (_, f) => n <- argint 2;; p <- argaddr 1;; r <- fileread f p n;; ret (u64 r)
  end.

Definition sys_write : K Z :=
  r <- argfd 0;;
  match r with
  | None => ret EFAIL
  | Some (_, f) => n <- argint 2;; p <- argaddr 1;; r <- filewrite f p n;; ret (u64 r)
  end.

Definition sys_close : K Z :=
  r <- argfd 0;;
  match r with
  | None => ret EFAIL
  | Some (fd, f) => set_ofile fd None;; fileclose f;; ret 0
  end.

Definition sys_fstat : K Z :=
  r <- argfd 0;;
  match r with
  | None => ret EFAIL
  | Some (_, f) => st <- argaddr 1;; r <- filestat f st;; ret (u64 r)
  end.

Definition inc_nlink (d : Z) (ip : nat) : K unit :=
  setinode ip (set_i_nlink (fun n => s16 (n + d))).

(** The [bad] label of [sys_link]. *)
Definition link_bad (ip : nat) : K Z :=
  ilock (Some ip);;
  inc_nlink (-1) ip;;
  iupdate ip;;
  iunlockput ip;;
  end_op;;
  ret EFAIL.

Definition sys_link : K Z :=
  name <- local loc_name;;
  new <- local loc_new;;
  old <- local loc_old;;
  r <- argstr 0 old MAXPATH;;
  if r <? 0 then ret EFAIL else
  r <- argstr 1 new MAXPATH;;
  if r <? 0 then ret EFAIL else
  begin_op;;
  r <- namei old;;
  match r with
  | None => end_op;; ret EFAIL
  | Some ip =>
      ilock (Some ip);;
      i <- getinode ip;;
      if i_type i =? T_DIR then iunlockput ip;; end_op;; ret EFAIL else
      inc_nlink 1 ip;;
      iupdate ip;;
      iunlock (Some ip);;
      r <- nameiparent new name;;
      match r with
      | None => link_bad ip
      | Some dp =>
          ilock (Some dp);;
          d <- getinode dp;;
          i <- getinode ip;;
          r <- (if negb (i_dev d =? i_dev i) then ret (-1) else dirlink dp name (i_inum i));;
          if r <? 0 then iunlockput dp;; link_bad ip else
          iunlockput dp;;
          iput ip;;
          end_op;;
          ret 0
      end
  end.

Fixpoint isdirempty_loop (dp : nat) (de off : Z) (fuel : nat) : K bool :=
  match fuel with
  | O => nofuel
  | S f =>
      d <- getinode dp;;
      if negb (off <? i_size d) then ret true else
      r <- readi dp false de off sizeof_dirent;;
      if negb (r =? sizeof_dirent) then panic "isdirempty: readi" else
      inum <- de_inum de;;
      if negb (inum =? 0) then ret false else
      isdirempty_loop dp de (off + sizeof_dirent) f
  end.

Definition isdirempty (dp : nat) : K bool :=
  de <- local loc_isdirempty_de;;
  d <- getinode dp;;
  isdirempty_loop dp de (2 * sizeof_dirent) (dir_fuel (i_size d)).

(** The [bad] label of [sys_unlink]. *)
Definition unlink_bad (dp : nat) : K Z := iunlockput dp;; end_op;; ret EFAIL.

Definition sys_unlink : K Z :=
  name <- local loc_name;;
  path <- local loc_path;;
  de <- local loc_unlink_de;;
  r <- argstr 0 path MAXPATH;;
  if r <? 0 then ret EFAIL else
  begin_op;;
  r <- nameiparent path name;;
  match r with
  | None => end_op;; ret EFAIL
  | Some dp =>
      ilock (Some dp);;
      m <- gets k_mem;;
      if (namecmp m name lit_dot =? 0) || (namecmp m name lit_dotdot =? 0) then unlink_bad dp else
      r <- dirlookup dp name;;
      match r with
      | None => unlink_bad dp
      | Some (ip, off) =>
          ilock (Some ip);;
          i <- getinode ip;;
          if i_nlink i <? 1 then panic "unlink: nlink < 1" else
          empty <- (if i_type i =? T_DIR then isdirempty ip else ret true);;
          if negb empty then iunlockput ip;; unlink_bad dp else
          modify (set_k_mem (fun m => memset m de 0 sizeof_dirent));;
          r <- writei dp false de off sizeof_dirent;;
          if negb (r =? sizeof_dirent) then panic "unlink: writei" else
          i <- getinode ip;;
          when (i_type i =? T_DIR) (inc_nlink (-1) dp;; iupdate dp);;
          iunlockput dp;;
          inc_nlink (-1) ip;;
          iupdate ip;;
          iunlockput ip;;
          end_op;;
          ret 0
      end
  end.

Definition create (path type major minor : Z) : K (option nat) :=
  name <- local loc_create_name;;
  r <- nameiparent path name;;
  match r with
  | None => ret None
  | Some dp =>
      ilock (Some dp);;
      r <- dirlookup dp name;;
      match r with
      | Some (ip, _) =>
          iunlockput dp;;
          ilock (Some ip);;
          i <- getinode ip;;
          if (type =? T_FILE) && ((i_type i =? T_FILE) || (i_type i =? T_DEVICE)) then
            ret (Some ip)
          else iunlockput ip;; ret None
      | None =>
          d <- getinode dp;;
          ip <- ialloc (i_dev d) type;;
          ilock (Some ip);;
          setinode ip (set_i_major (fun _ => major));;
          setinode ip (set_i_minor (fun _ => minor));;
          setinode ip (set_i_nlink (fun _ => 1));;
          iupdate ip;;
          when (type =? T_DIR)
            (inc_nlink 1 dp;;
             iupdate dp;;
             i <- getinode ip;;
             r <- dirlink ip lit_dot (i_inum i);;
             if r <? 0 then panic "create dots" else
             d <- getinode dp;;
             r <- dirlink ip lit_dotdot (i_inum d);;
             if r <? 0 then panic "create dots" else ret tt);;
          i <- getinode ip;;
          r <- dirlink dp name (i_inum i);;
          if r <? 0 then panic "create: dirlink" else
          iunlockput dp;;
          ret (Some ip)
      end
  end.

(** The inode [sys_open] works on, locked; [None] if [sys_open] fails (the
    transaction is over then). *)
Definition open_inode (path omode : Z) : K (option nat) :=
  if negb (Z.land omode O_CREATE =? 0) then
    r <- create path T_FILE 0 0;;
    match r with
    | None => end_op;; ret None
    | Some ip => ret (Some ip)
    end
  else
    r <- namei path;;
    match r with
    | None => end_op;; ret None
    | Some ip =>
        ilock (Some ip);;
        i <- getinode ip;;
        if (i_type i =? T_DIR) && negb (omode =? O_RDONLY) then
          iunlockput ip;; end_op;; ret None
        else ret (Some ip)
    end.

Definition sys_open : K Z :=
  path <- local loc_path;;
  n <- argstr 0 path MAXPATH;;
  if n <? 0 then ret EFAIL else
  omode <- argint 1;;
  begin_op;;
  r <- open_inode path omode;;
  match r with
  | None => ret EFAIL
  | Some ip =>
      i <- getinode ip;;
      if (i_type i =? T_DEVICE) && ((i_major i <? 0) || (i_major i >=? NDEV)) then
        iunlockput ip;; end_op;; ret EFAIL
      else
      r <- filealloc;;
      match r with
      | None => iunlockput ip;; end_op;; ret EFAIL
      | Some f =>
          fd <- fdalloc f;;
          if fd <? 0 then fileclose f;; iunlockput ip;; end_op;; ret EFAIL else
          (if i_type i =? T_DEVICE then
             setfile f (set_f_type (fun _ => FD_DEVICE));;
             setfile f (set_f_major (fun _ => i_major i))
           else
             setfile f (set_f_type (fun _ => FD_INODE));;
             setfile f (set_f_off (fun _ => 0)));;
          setfile f (set_f_ip (fun _ => Some ip));;
          setfile f (set_f_readable (fun _ => Z.land omode O_WRONLY =? 0));;
          setfile f (set_f_writable (fun _ =>
            negb (Z.land omode O_WRONLY =? 0) || negb (Z.land omode O_RDWR =? 0)));;
          when (negb (Z.land omode O_TRUNC =? 0) && (i_type i =? T_FILE)) (itrunc ip);;
          iunlock (Some ip);;
          end_op;;
          ret (u64 fd)
      end
  end.

Definition sys_mkdir : K Z :=
  path <- local loc_path;;
  begin_op;;
  n <- argstr 0 path MAXPATH;;
  r <- (if n <? 0 then ret None else create path T_DIR 0 0);;
  match r with
  | None => end_op;; ret EFAIL
  | Some ip => iunlockput ip;; end_op;; ret 0
  end.

(** [create] takes [short]s. *)
Definition sys_mknod : K Z :=
  path <- local loc_path;;
  begin_op;;
  n <- argstr 0 path MAXPATH;;
  r <- (if n <? 0 then ret None else
        major <- argint 1;;
        minor <- argint 2;;
        create path T_DEVICE (s16 major) (s16 minor));;
  match r with
  | None => end_op;; ret EFAIL
  | Some ip => iunlockput ip;; end_op;; ret 0
  end.

Definition sys_chdir : K Z :=
  path <- local loc_path;;
  p <- myproc;;
  begin_op;;
  n <- argstr 0 path MAXPATH;;
  r <- (if n <? 0 then ret None else namei path);;
  match r with
  | None => end_op;; ret EFAIL
  | Some ip =>
      ilock (Some ip);;
      i <- getinode ip;;
      if negb (i_type i =? T_DIR) then iunlockput ip;; end_op;; ret EFAIL else
      iunlock (Some ip);;
      p <- deref p;;
      pr <- getproc p;;
      cwd <- deref (p_cwd pr);;
      iput cwd;;
      end_op;;
      setproc p (set_p_cwd (fun _ => Some ip));;
      ret 0
  end.

(** The argument vector of [sys_exec]; [false] stands for [goto bad]. *)
Fixpoint fetch_args (argv uargv i : Z) (fuel : nat) : K bool :=
  match fuel with
  | O => nofuel
  | S f =>
      if i >=? Z.of_nat MAXARG then ret false else
      r <- fetchaddr (u64 (uargv + 8 * i));;
      match r with
      | None => ret false
      | Some uarg =>
          if uarg =? 0 then store64 (argv + 8 * i) 0;; ret true else
          a <- kalloc;;
          store64 (argv + 8 * i) a;;
          if a =? 0 then ret false else
          n <- fetchstr uarg a PGSIZE;;
          if n <? 0 then ret false else
          fetch_args argv uargv (i + 1) f
      end
  end.

Fixpoint free_args (argv i : Z) (k : nat) : K unit :=
  match k with
  | O => ret tt
  | S k' =>
      a <- load64 (argv + 8 * i);;
      if a =? 0 then ret tt else kfree a;; free_args argv (i + 1) k'
  end.

Definition sys_exec : K Z :=
  path <- local loc_path;;
  argv <- local loc_argv;;
  n <- argstr 0 path MAXPATH;;
  if n <? 0 then ret EFAIL else
  uargv <- argaddr 1;;
  modify (set_k_mem (fun m => memset m argv 0 (8 * Z.of_nat MAXARG)));;
  ok <- fetch_args argv uargv 0 (S MAXARG);;
  if ok then
    r <- exec path argv;;
    free_args argv 0 MAXARG;;
    ret (u64 r)
  else
    free_args argv 0 MAXARG;;
    ret EFAIL.

Definition sys_pipe : K Z :=
  p <- curproc;;
  fdarray <- argaddr 0;;
  r <- pipealloc;;
  match r with
  | None => ret EFAIL
  | Some (rf, wf) =>
      fd0 <- fdalloc rf;;
      if fd0 <? 0 then fileclose rf;; fileclose wf;; ret EFAIL else
      fd1 <- fdalloc wf;;
      if fd1 <? 0 then
        set_ofile fd0 None;; fileclose rf;; fileclose wf;; ret EFAIL
      else
      pr <- getproc p;;
      r <- copyout (p_pagetable pr) fdarray (le_enc 4 fd0);;
      r <- (if r <? 0 then ret r
            else copyout (p_pagetable pr) (u64 (fdarray + 4)) (le_enc 4 fd1));;
      if r <? 0 then
        set_ofile fd0 None;; set_ofile fd1 None;; fileclose rf;; fileclose wf;; ret EFAIL
      else ret 0
  end.

(** ** Dispatch *)

Definition syscalls (num : Z) : option (K Z) :=
  match num with
  | 1 => Some sys_fork
  | 2 => Some sys_exit
  | 3 => Some sys_wait
  | 4 => Some sys_pipe
  | 5 => Some sys_read
  | 6 => Some sys_kill
  | 7 => Some sys_exec
  | 8 => Some sys_fstat
  | 9 => Some sys_chdir
  | 10 => Some sys_dup
  | 11 => Some sys_getpid
  | 12 => Some sys_sbrk
  | 13 => Some sys_sleep
  | 14 => Some sys_uptime
  | 15 => Some sys_open
  | 16 => Some sys_write
  | 17 => Some sys_mknod
  | 18 => Some sys_unlink
  | 19 => Some sys_link
  | 20 => Some sys_mkdir
  | 21 => Some sys_close
  | _ => None
  end.

Definition syscall : K unit :=
  p <- curproc;;
  v <- tf_get p TF_a7;;
  let num := s32 v in
  match syscalls num with
  | Some f =>
      r <- f;;
      tf_set p TF_a0 r
  | None =>
      pr <- getproc p;;
      Uart.Printf.printf (Some (Uart.Printf.chars "%d %s: unknown sys call %d" ++ [10]))
        [Uart.Printf.VA_int (p_pid pr); Uart.Printf.VA_str (Some (p_name pr));
         Uart.Printf.VA_int num];;
      tf_set p TF_a0 EFAIL
  end.

End Syscall.
