(* ===== verification/Trap.v ===== *)
(** * Traps, interrupts and start-up ([kernel/trap.c], [kernel/apic.c],
    [kernel/extioi.c], [kernel/main.c], and [forkret] of [kernel/proc.c])

    The return to user space ends in the assembly routine [userret]; the
    functions that reach it return the two arguments they pass to it. Writes
    to device and IOCSR registers are recorded in [k_mmio], newest first;
    [k_iocsr] is what the interrupt controller answers to reads. *)

From stdpp Require Import gmap strings list.
From Stdlib Require Import ZArith Lia.
From S2P Require Import Prelude KState CString Spinlock Sched SleepLock Kalloc Vm Bio Log Fs Uart Console File Proc Exec Syscall.
Open Scope Z_scope.
Import Spinlock Sched SleepLock Kalloc Vm Bio Log Fs Uart Printf Console File Proc Syscall.

Module Trap.

(** ** Interrupt controllers *)

Definition mmio_write (a v : Z) : K unit := modify (set_k_mmio (cons (a, v))).
Definition iocsr_readq (a : Z) : K Z := gets (fun s => default 0 (k_iocsr s !! a)).
Definition iocsr_writeq (v a : Z) : K unit := mmio_write a v.

Definition LS7A_PCH_REG_BASE : Z := Z.lor 0x10000000 DMWIN_MASK.
Definition LS7A_INT_MASK_REG : Z := LS7A_PCH_REG_BASE + 0x020.
Definition LS7A_INT_EDGE_REG : Z := LS7A_PCH_REG_BASE + 0x060.
Definition LS7A_INT_CLEAR_REG : Z := LS7A_PCH_REG_BASE + 0x080.
Definition LS7A_INT_HTMSI_VEC_REG : Z := LS7A_PCH_REG_BASE + 0x200.
Definition LS7A_INT_POL_REG : Z := LS7A_PCH_REG_BASE + 0x3e0.
Definition EXTIOI_EN_BASE : Z := 0x1600.
Definition EXTIOI_ISR_BASE : Z := 0x1800.
Definition EXTIOI_MAP_BASE : Z := 0x14c0.
Definition EXTIOI_ROUTE_BASE : Z := 0x1c00.
Definition EXRIOI_NODETYPE_BASE : Z := 0x14a0.

Definition apic_init : K unit :=
  mmio_write LS7A_INT_MASK_REG (u64 (Z.lnot (Z.shiftl 1 UART0_IRQ)));;
  mmio_write LS7A_INT_EDGE_REG (Z.shiftl 1 UART0_IRQ);;
  mmio_write (LS7A_INT_HTMSI_VEC_REG + UART0_IRQ) UART0_IRQ;;
  mmio_write LS7A_INT_POL_REG 0.

Definition apic_complete (irq : Z) : K unit := mmio_write LS7A_INT_CLEAR_REG irq.

Definition extioi_init : K unit :=
  iocsr_writeq (Z.shiftl 1 UART0_IRQ) EXTIOI_EN_BASE;;
  iocsr_writeq 0x01 EXTIOI_MAP_BASE;;
  iocsr_writeq 0x10000 EXTIOI_ROUTE_BASE;;
  iocsr_writeq 0x1 EXRIOI_NODETYPE_BASE.

Definition extioi_claim : K Z := iocsr_readq EXTIOI_ISR_BASE.
Definition extioi_complete (irq : Z) : K unit := iocsr_writeq irq EXTIOI_ISR_BASE.

(** ** Traps *)

Definition PRMD_PPLV : Z := 3.
Definition PRMD_PIE : Z := 4.
Definition CSR_ESTAT_ECODE : Z := Z.shiftl 0x3f 16.
Definition HWI_VEC : Z := 0x3fc.
Definition TI_VEC : Z := Z.shiftl 1 11.

(** The addresses of the assembly entry points and of [usertrap]. *)
Definition kernelvec : Z := KERNIMG + 0x1000.
Definition uservec : Z := KERNIMG + 0x2000.
Definition usertrap_addr : Z := KERNIMG + 0x4000.
Definition handle_tlbr : Z := KERNIMG + 0x5000.
Definition handle_merr : Z := KERNIMG + 0x6000.

Definition trapinit : K unit :=
  initlock L_ticks "time";;
  modify (set_k_csr (set_ecfg (fun _ => Z.lor (Z.lor 0 HWI_VEC) TI_VEC)));;
  modify (set_k_csr (set_tcfg (fun _ => Z.lor (Z.lor 0x1000000 1) 2)));;
  modify (set_k_csr (set_eentry (fun _ => kernelvec)));;
  modify (set_k_csr (set_tlbrentry (fun _ => handle_tlbr)));;
  modify (set_k_csr (set_merrentry (fun _ => handle_merr)));;
  intr_on.

Definition clockintr : K unit :=
  acquire L_ticks;;
  modify (set_k_ticks (fun t => u32 (t + 1)));;
  wakeup CH_ticks;;
  release L_ticks.

Definition line (s : string) : option (list Z) := Some (chars s ++ [10]).

Definition devintr : K Z :=
  estat <- gets (fun s => estat (k_csr s));;
  ecfg <- gets (fun s => ecfg (k_csr s));;
  if negb (Z.land (Z.land estat ecfg) HWI_VEC =? 0) then
    irq <- extioi_claim;;
    (if negb (Z.land irq (Z.shiftl 1 UART0_IRQ) =? 0) then
       uartintr;;
       extioi_complete (Z.shiftl 1 UART0_IRQ)
     else when (negb (irq =? 0))
       (printf (line "unexpected interrupt irq=%d") [VA_int (s32 irq)];;
        apic_complete irq;;
        extioi_complete irq));;
    ret 1
  else if negb (Z.land (Z.land estat ecfg) TI_VEC =? 0) then
    id <- cpuid;;
    when (id =? 0) clockintr;;
    modify (set_k_csr (set_ticlr (fun x => Z.lor x 1)));;
    ret 2
  else ret 0.

Definition usertrapret : K (Z * Z) :=
  p <- curproc;;
  intr_off;;
  modify (set_k_csr (set_eentry (fun _ => uservec)));;
  pgdl <- gets (fun s => pgdl (k_csr s));;
  tf_set p TF_kernel_pgdl pgdl;;
  pr <- getproc p;;
  tf_set p TF_kernel_sp (u64 (p_kstack pr + PGSIZE));;
  tf_set p TF_kernel_trap usertrap_addr;;
  tp <- gets (fun s => tp (k_csr s));;
  tf_set p TF_kernel_hartid tp;;
  modify (set_k_csr (set_prmd (fun x => Z.lor (Z.lor x PRMD_PPLV) PRMD_PIE)));;
  era <- tf_get p TF_era;;
  modify (set_k_csr (set_era (fun _ => era)));;
  pr <- getproc p;;
  ret (TRAPFRAME, p_pagetable pr).

Definition usertrap : K (Z * Z) :=
  prmd <- gets (fun s => prmd (k_csr s));;
  if Z.land prmd PRMD_PPLV =? 0 then panic "usertrap: not from user mode" else
  modify (set_k_csr (set_eentry (fun _ => kernelvec)));;
  p <- curproc;;
  c <- gets k_csr;;
  tf_set p TF_era (era c);;
  which_dev <-
    (if Z.shiftr (Z.land (estat c) CSR_ESTAT_ECODE) 16 =? 0xb then
       pr <- getproc p;;
       when (negb (p_killed pr =? 0)) (exit (-1));;
       pc <- tf_get p TF_era;;
       tf_set p TF_era (u64 (pc + 4));;
       intr_on;;
       syscall;;
       ret 0
     else
       which_dev <- devintr;;
       when (which_dev =? 0)
         (c <- gets k_csr;;
          pr <- getproc p;;
          printf (line "usertrap(): unexpected trapcause %x pid=%d")
            [VA_int (s32 (estat c)); VA_int (p_pid pr)];;
          c <- gets k_csr;;
          printf (line "            era=%p badi=%x") [VA_ptr (era c); VA_int (s32 (badi c))];;
          setproc p (set_p_killed (fun _ => 1)));;
       ret which_dev);;
  pr <- getproc p;;
  when (negb (p_killed pr =? 0)) (exit (-1));;
  when (which_dev =? 2) yield;;
  usertrapret.

Definition kerneltrap : K unit :=
  era0 <- gets (fun s => era (k_csr s));;
  prmd0 <- gets (fun s => prmd (k_csr s));;
  if negb (Z.land prmd0 PRMD_PPLV =? 0) then panic "kerneltrap: not from privilege0" else
  i <- intr_get;;
  if i : bool then panic "kerneltrap: interrupts enabled" else
  which_dev <- devintr;;
  if which_dev =? 0 then
    c <- gets k_csr;;
    printf (line "estat %x") [VA_int (s32 (estat c))];;
    c <- gets k_csr;;
    printf (line "era=%p eentry=%p") [VA_ptr (era c); VA_ptr (eentry c)];;
    panic "kerneltrap"
  else
  (if which_dev =? 2 then
     p <- myproc;;
     match p with
     | None => ret tt
     | Some _ =>
         p <- curproc;;
         pr <- getproc p;;
         when (bool_decide (p_state pr = RUNNING)) yield
     end
   else ret tt);;
  modify (set_k_csr (set_era (fun _ => era0)));;
  modify (set_k_csr (set_prmd (fun _ => prmd0))).

Definition machine_trap : K unit := panic "machine error".

(** [proc.c]: where a new process starts, still holding its lock. *)
Definition forkret : K (Z * Z) :=
  p <- curproc;;
  release (L_proc p);;
  first <- gets k_first;;
  when first
    (modify (set_k_first (fun _ => false));;
     fsinit ROOTDEV);;
  usertrapret.

(** ** Start-up: what [main] does on the first CPU before it enters the
    scheduler. *)
Definition ramdiskinit : K unit := ret tt.

Definition main_init : K unit :=
  consoleinit;;
  printfinit;;
  kinit;;
  vminit;;
  procinit;;
  trapinit;;
  apic_init;;
  extioi_init;;
  binit;;
  iinit;;
  fileinit;;
  ramdiskinit;;
  userinit.

End Trap.
