(* ===== verification/User.v ===== *)
(** * User programs: system calls and the C library ([user/ulib.c])

    A user program runs on its own memory and talks to the kernel through
    system calls. The kernel is an interface here, a class [Sys] over a type
    of worlds; the laws that a program relies on are classes of their own,
    stated where they are used. A program returns or calls [exit]. *)

From stdpp Require Import gmap strings list.
From Stdlib Require Import ZArith Lia.
From S2P Require Import Prelude CString.
Open Scope Z_scope.

(** ** System calls

    What the calls of [user.h] that the programs use do to the world [W] and
    to the caller: the bytes [read] and [fstat] store in the caller's memory
    are part of their results. *)
Class Sys (W : Type) : Type := {
  sys_read : Z -> Z -> W -> Z * list Z * W;
  sys_write : Z -> list Z -> W -> Z * W;
  sys_open : list Z -> Z -> W -> Z * W;
  sys_close : Z -> W -> Z * W;
  sys_fstat : Z -> W -> Z * list Z * W;
  sys_sbrk : Z -> W -> Z * W;
  sys_kill : Z -> W -> Z * W;
  sys_link : list Z -> list Z -> W -> Z * W;
  sys_unlink : list Z -> W -> Z * W;
  sys_mkdir : list Z -> W -> Z * W;
  sys_chdir : list Z -> W -> Z * W }.

(** ** The monad of user programs *)

Record ustate (W : Type) := mkustate { u_mem : mem; u_world : W }.
Arguments mkustate {W}.
Arguments u_mem {W}.
Arguments u_world {W}.

Inductive ures (W A : Type) : Type :=
| Returns (a : A) (s : ustate W)
| Exits (status : Z) (s : ustate W)
| Unbounded.
Arguments Returns {W A}.
Arguments Exits {W A}.
Arguments Unbounded {W A}.

Definition U (W A : Type) : Type := ustate W -> ures W A.

Definition uret {W A} (a : A) : U W A := Returns a.
Definition ubind {W A B} (m : U W A) (f : A -> U W B) : U W B := fun s =>
  match m s with
  | Returns a s' => f a s'
  | Exits n s' => Exits n s'
  | Unbounded => Unbounded
  end.
Definition exit {W A} (n : Z) : U W A := Exits n.
Definition unbounded {W A} : U W A := fun _ => Unbounded.
Definition umem {W} : U W mem := fun s => Returns (u_mem s) s.
Definition uset {W} (f : mem -> mem) : U W unit := fun s => Returns tt (mkustate (f (u_mem s)) (u_world s)).

(** A loop of a C function, [None] when its bound is too small. *)
Definition ulift {W A} (r : option A) : U W A := match r with Some a => uret a | None => unbounded end.

Lemma ubind_done {W A B} (m : U W A) (f : A -> U W B) s a s' : m s = Returns a s' -> ubind m f s = f a s'.
Proof. unfold ubind. by intros ->. Qed.

Lemma ubind_ret {W A B} (a : A) (f : A -> U W B) s : ubind (uret a) f s = f a s.
Proof. done. Qed.

Lemma ubind_lift {W A B} (a : A) (f : A -> U W B) s : ubind (ulift (Some a)) f s = f a s.
Proof. done. Qed.

Lemma ubind_umem {W B} (f : mem -> U W B) s : ubind umem f s = f (u_mem s) s.
Proof. done. Qed.

Lemma ubind_uset {W B} g (f : unit -> U W B) m w : ubind (uset g) f (mkustate m w) = f tt (mkustate (g m) w).
Proof. done. Qed.

Ltac ustep :=
  repeat first [ rewrite ubind_ret | rewrite ubind_lift | rewrite ubind_umem | rewrite ubind_uset | progress cbn [u_mem u_world] ].

Declare Scope user_scope.
Delimit Scope user_scope with user.
Notation "x <- m ;; k" := (ubind m (fun x => k))
  (at level 100, m at next level, right associativity) : user_scope.
Notation "m ;; k" := (ubind m (fun _ => k))
  (at level 100, k at level 200, right associativity) : user_scope.

(** The bytes of a string constant. *)
Definition lit (s : string) : list Z := map (fun c => Z.of_nat (Ascii.nat_of_ascii c)) (String.list_ascii_of_string s).

(** ** Strings

    Bytes that were never written read as zero, so a string of [m] ends after
    at most [size m] bytes. *)
Definition mfuel (m : mem) : nat := S (size m).

(** ** System calls in a program *)

Section Calls.
Context {W : Type} `{!Sys W}.

Definition read (fd buf n : Z) : U W Z := fun s =>
  let '(r, bs, w) := sys_read fd n (u_world s) in Returns r (mkustate (stbytes buf bs (u_mem s)) w).

Definition write (fd buf n : Z) : U W Z := fun s =>
  let '(r, w) := sys_write fd (ldbytes (u_mem s) buf (Z.to_nat n)) (u_world s) in Returns r (mkustate (u_mem s) w).

(** Calls that only take numbers, and calls that take paths, which are strings
    in memory. *)
Definition call (f : W -> Z * W) : U W Z := fun s =>
  let '(r, w) := f (u_world s) in Returns r (mkustate (u_mem s) w).

Definition path_call (f : list Z -> W -> Z * W) (path : Z) : U W Z := fun s =>
  call (f (cname (u_mem s) path (mfuel (u_mem s)))) s.

Definition close (fd : Z) : U W Z := call (sys_close fd).
Definition sbrk (n : Z) : U W Z := call (sys_sbrk n).
Definition kill (pid : Z) : U W Z := call (sys_kill pid).
Definition open (path omode : Z) : U W Z := path_call (fun p => sys_open p omode) path.
Definition unlink (path : Z) : U W Z := path_call sys_unlink path.
Definition mkdir (path : Z) : U W Z := path_call sys_mkdir path.
Definition chdir (path : Z) : U W Z := path_call sys_chdir path.
Definition link (old new : Z) : U W Z := fun s =>
  path_call (sys_link (cname (u_mem s) old (mfuel (u_mem s)))) new s.

Definition fstat (fd st : Z) : U W Z := fun s =>
  let '(r, bs, w) := sys_fstat fd (u_world s) in Returns r (mkustate (stbytes st bs (u_mem s)) w).

End Calls.

Module Ulib.

Fixpoint strcpy_loop (m : mem) (s t : Z) (fuel : nat) : option mem :=
  match fuel with
  | O => None
  | S f =>
      let c := ld8 m t in
      let m := st8 s c m in
      if negb (c =? 0) then strcpy_loop m (s + 1) (t + 1) f else Some m
  end.

Definition strcpy (m : mem) (s t : Z) : option mem := strcpy_loop m s t (mfuel m).

Fixpoint strcmp_loop (m : mem) (p q : Z) (fuel : nat) : option Z :=
  match fuel with
  | O => None
  | S f =>
      if negb (ld8 m p =? 0) && (ld8 m p =? ld8 m q) then strcmp_loop m (p + 1) (q + 1) f
      else Some (ld8 m p - ld8 m q)
  end.

Definition strcmp (m : mem) (p q : Z) : option Z := strcmp_loop m p q (mfuel m).

Fixpoint strlen_loop (m : mem) (s n : Z) (fuel : nat) : option Z :=
  match fuel with
  | O => None
  | S f => if negb (ld8 m (s + n) =? 0) then strlen_loop m s (n + 1) f else Some n
  end.

Definition strlen (m : mem) (s : Z) : option Z := strlen_loop m s 0 (mfuel m).

Fixpoint memset_loop (m : mem) (cdst c i : Z) (k : nat) : mem :=
  match k with
  | O => m
  | S k' => memset_loop (st8 (cdst + i) c m) cdst c (i + 1) k'
  end.

Definition memset (m : mem) (dst c n : Z) : mem := memset_loop m dst c 0 (Z.to_nat (u32 n)).

(** The address of the first [c], or 0. *)
Fixpoint strchr_loop (m : mem) (s c : Z) (fuel : nat) : option Z :=
  match fuel with
  | O => None
  | S f =>
      if ld8 m s =? 0 then Some 0 else
      if ld8 m s =? c then Some s else strchr_loop m (s + 1) c f
  end.

Definition strchr (m : mem) (s c : Z) : option Z := strchr_loop m s c (mfuel m).

(** Whether [strchr(s, c)] finds [c] in a string constant. *)
Fixpoint in_chars (s : list Z) (c : Z) : bool :=
  match s with
  | [] => false
  | x :: t => if x =? c then true else in_chars t c
  end.

Fixpoint atoi_loop (m : mem) (n s : Z) (fuel : nat) : option Z :=
  match fuel with
  | O => None
  | S f =>
      if (48 <=? s8 (ld8 m s)) && (s8 (ld8 m s) <=? 57)
      then atoi_loop m (s32 (n * 10 + ld8 m s - 48)) (s + 1) f else Some n
  end.

Definition atoi (m : mem) (s : Z) : option Z := atoi_loop m 0 s (mfuel m).

(** [memmove]; its two loops are those of the kernel's [memmove]. *)
Definition memmove (m : mem) (vdst vsrc n : Z) : mem :=
  if vsrc >? vdst then CString.copy_up m vdst vsrc (Z.to_nat n)
  else CString.copy_down m (vdst + n) (vsrc + n) (Z.to_nat n).

(** [memcmp] compares [char]s, which are signed. *)
Fixpoint memcmp_loop (m : mem) (p1 p2 : Z) (n : nat) : Z :=
  match n with
  | O => 0
  | S n' =>
      if negb (ld8 m p1 =? ld8 m p2) then s8 (ld8 m p1) - s8 (ld8 m p2)
      else memcmp_loop m (p1 + 1) (p2 + 1) n'
  end.

Definition memcmp (m : mem) (s1 s2 n : Z) : Z := memcmp_loop m s1 s2 (Z.to_nat (u32 n)).

Definition memcpy (m : mem) (dst src n : Z) : mem := memmove m dst src (s32 n).
End Ulib.

(** ** The calls of [ulib.c] that use system calls *)
Module UlibSys.
Section Sys.
Open Scope user_scope.
Context {W : Type} `{!Sys W}.

(** The address of the local [char c] of [gets]. *)
Definition loc_gets_c : Z := 0x3ffffff000.

Fixpoint gets_loop (buf max i : Z) (fuel : nat) : U W Z :=
  match fuel with
  | O => unbounded
  | S f =>
      if negb (i + 1 <? max) then uret i else
      cc <- read 0 loc_gets_c 1;;
      if cc <? 1 then uret i else
      m <- umem;;
      let c := ld8 m loc_gets_c in
      uset (st8 (buf + i) c);;
      if (c =? 10) || (c =? 13) then uret (i + 1) else gets_loop buf max (i + 1) f
  end.

Definition gets (buf max : Z) : U W Z :=
  i <- gets_loop buf max 0 (S (Z.to_nat max));;
  uset (st8 (buf + i) 0);;
  uret buf.

Definition stat (n st : Z) : U W Z :=
  fd <- open n 0;;
  if fd <? 0 then uret (-1) else
  r <- fstat fd st;;
  close fd;;
  uret r.
End Sys.
End UlibSys.

(** ** Lemmas: strings *)

(** The string at [s] has the characters [l]. *)
Definition is_str (m : mem) (s : Z) (l : list Z) : Prop :=
  cname m s (length l) = l /\ ld8 m (s + Z.of_nat (length l)) = 0.

Lemma is_str_nil m s : is_str m s [] <-> ld8 m s = 0.
Proof. unfold is_str. cbn [length Z.of_nat cname]. rewrite Z.add_0_r. naive_solver. Qed.

Lemma is_str_cons m s c l : is_str m s (c :: l) <-> ld8 m s = c /\ c <> 0 /\ is_str m (s + 1) l.
Proof.
  unfold is_str. cbn [length cname]. replace (s + Z.of_nat (S (length l))) with (s + 1 + Z.of_nat (length l)) by lia.
  destruct (Z.eqb_spec (ld8 m s) 0) as [E|E].
  - split; [by intros [? _]|]. intros (<- & Hn & _). done.
  - split.
    + intros [[= H1 H2] Hz]. split; [done|]. split; [congruence|]. by split.
    + intros (H1 & _ & H2 & Hz). split; [congruence|done].
Qed.

(** Bytes that are not zero are in the domain of the map. *)
Lemma nonzero_run m s k : (forall i, 0 <= i < Z.of_nat k -> ld8 m (s + i) <> 0) -> (k <= size m)%nat.
Proof.
  intros H. rewrite <- (length_seq k 0), <- (length_fmap (fun i => s + Z.of_nat i)).
  rewrite <- (size_list_to_set (C := gset Z)).
  2: { apply NoDup_fmap_2; [intros x y E; lia|apply NoDup_seq]. }
  rewrite <- size_dom. apply subseteq_size. intros x. rewrite elem_of_list_to_set, list_elem_of_fmap.
  intros (i & -> & Hi%elem_of_seq). apply elem_of_dom. specialize (H (Z.of_nat i) ltac:(lia)). unfold ld8 in H.
  destruct (m !! (s + Z.of_nat i)); [done|]. by destruct H.
Qed.

Lemma is_str_chars m s l i : is_str m s l -> (i < length l)%nat -> ld8 m (s + Z.of_nat i) <> 0.
Proof.
  revert s i. induction l as [|c l IH]; intros s i Hs Hi; [cbn in Hi; lia|].
  apply is_str_cons in Hs as (Hc & Hn & Hs). destruct i as [|i]; [rewrite Z.add_0_r; congruence|].
  replace (s + Z.of_nat (S i)) with (s + 1 + Z.of_nat i) by lia. apply IH; [done|cbn in Hi; lia].
Qed.

Lemma is_str_fuel m s l : is_str m s l -> (length l < mfuel m)%nat.
Proof.
  intros Hs. unfold mfuel. apply le_n_S, (nonzero_run m s). intros i Hi.
  rewrite <- (Z2Nat.id i) by lia. apply (is_str_chars m s l); [done|lia].
Qed.

(** Every address holds a string. *)
Lemma str_at m s : exists l, is_str m s l.
Proof.
  assert (H : forall n s, (exists l, is_str m s l) \/ forall i, 0 <= i < Z.of_nat n -> ld8 m (s + i) <> 0).
  { induction n as [|n IH]; intros t; [right; lia|]. destruct (decide (ld8 m t = 0)) as [E|E]; [left; exists []; by apply is_str_nil|].
    destruct (IH (t + 1)) as [[l Hl]|Hn].
    - left. exists (ld8 m t :: l). apply is_str_cons. done.
    - right. intros i Hi. destruct (decide (i = 0)) as [->|]; [by rewrite Z.add_0_r|].
      replace (t + i) with (t + 1 + (i - 1)) by lia. apply Hn. lia. }
  destruct (H (S (size m)) s) as [?|Hn]; [done|]. apply nonzero_run in Hn. lia.
Qed.

Lemma is_str_unique m s l l' : is_str m s l -> is_str m s l' -> l = l'.
Proof.
  revert s l'. induction l as [|c l IH]; intros s [|c' l']; rewrite ?is_str_nil, ?is_str_cons; naive_solver.
Qed.

Lemma is_str_no_nul m s l : is_str m s l -> 0 ∉ l.
Proof. intros [<- _]. apply cname_no_nul. Qed.

Definition cstr (m : mem) (s : Z) : list Z := cname m s (mfuel m).

Lemma cname_fuel m s l n : is_str m s l -> (length l < n)%nat -> cname m s n = l.
Proof.
  revert s n. induction l as [|c l IH]; intros s [|n] Hs Hn; try (cbn in Hn; lia); rewrite cname_S.
  - apply is_str_nil in Hs. by rewrite Hs.
  - apply is_str_cons in Hs as (-> & Hc & Hs). rewrite (proj2 (Z.eqb_neq _ _)) by done. f_equal. apply IH; [done|cbn in Hn; lia].
Qed.

Lemma is_str_cstr m s l : is_str m s l <-> cstr m s = l.
Proof.
  split; [intros Hs; by eapply cname_fuel, is_str_fuel|]. intros <-. destruct (str_at m s) as [l Hl].
  unfold cstr. rewrite (cname_fuel m s l) by (done || by eapply is_str_fuel). done.
Qed.

(** A change elsewhere keeps a string. *)
Lemma is_str_ext m m' s l :
  (forall a, s <= a <= s + Z.of_nat (length l) -> ld8 m' a = ld8 m a) -> is_str m s l -> is_str m' s l.
Proof.
  intros H [H1 H2]. split; [|by rewrite H by lia]. rewrite <- H1 at 2. apply cname_ext. intros b Hb. apply H. lia.
Qed.

Lemma is_str_ld8 m s l i x : is_str m s l -> l !! i = Some x -> ld8 m (s + Z.of_nat i) = x.
Proof.
  revert s i. induction l as [|c l IH]; intros s i Hs Hx; [done|]. apply is_str_cons in Hs as (Hc & _ & Hs).
  destruct i as [|i]; [rewrite Z.add_0_r; naive_solver|]. replace (s + Z.of_nat (S i)) with (s + 1 + Z.of_nat i) by lia. by apply IH.
Qed.

Lemma is_str_of m s l :
  (forall i x, l !! i = Some x -> ld8 m (s + Z.of_nat i) = x) -> 0 ∉ l -> ld8 m (s + Z.of_nat (length l)) = 0 -> is_str m s l.
Proof.
  revert s. induction l as [|c l IH]; intros s H Hn Hz; [apply is_str_nil; by rewrite Z.add_0_r in Hz|].
  apply not_elem_of_cons in Hn as [Hc Hn]. apply is_str_cons. split; [rewrite <- (H 0%nat c eq_refl); f_equal; lia|].
  split; [done|]. apply IH; [|done|rewrite <- Hz; f_equal; cbn; lia].
  intros i x Hx. rewrite <- (H (S i) x Hx). f_equal. lia.
Qed.

(** *** The functions of [ulib.c] on strings *)
Module UlibProps.
Import Ulib.

Lemma strlen_str m s l : is_str m s l -> strlen m s = Some (Z.of_nat (length l)).
Proof.
  intros Hs. enough (H : forall fuel k, (length l < k + fuel)%nat -> (k <= length l)%nat ->
    strlen_loop m s (Z.of_nat k) fuel = Some (Z.of_nat (length l))).
  { apply (H _ 0%nat); [cbn; by eapply is_str_fuel|lia]. }
  induction fuel as [|f IH]; intros k Hk Hle; [lia|]. cbn [strlen_loop]. destruct (decide (k = length l)) as [->|Hne].
  - destruct Hs as [_ ->]. done.
  - rewrite (proj2 (Z.eqb_neq _ _)) by (apply (is_str_chars m s l); [done|lia]). cbn [negb].
    replace (Z.of_nat k + 1) with (Z.of_nat (S k)) by lia. apply IH; lia.
Qed.

(** [strchr] finds the first occurrence. *)
Lemma strchr_found m s l c l' : is_str m s (l ++ c :: l') -> c ∉ l -> strchr m s c = Some (s + Z.of_nat (length l)).
Proof.
  intros Hs Hc. pose proof (is_str_fuel m s _ Hs) as Hf. unfold strchr. revert s Hs Hf. generalize (mfuel m) as fuel.
  intros fuel. revert fuel. induction l as [|x l IH]; intros [|f] s Hs Hf; try (cbn in Hf; lia);
    cbn [app] in Hs; apply is_str_cons in Hs as (Hx & Hn & Hs); cbn [strchr_loop]; rewrite Hx.
  - rewrite (proj2 (Z.eqb_neq c 0)), Z.eqb_refl by done. f_equal. cbn. lia.
  - apply not_elem_of_cons in Hc as [Hxc Hc]. rewrite (proj2 (Z.eqb_neq x 0)), (proj2 (Z.eqb_neq x c)) by congruence.
    rewrite IH by (done || (cbn in Hf; lia)). f_equal. cbn. lia.
Qed.

Lemma strchr_none m s l c : is_str m s l -> c ∉ l -> strchr m s c = Some 0.
Proof.
  intros Hs Hc. pose proof (is_str_fuel m s _ Hs) as Hf. unfold strchr. revert s Hs Hf. generalize (mfuel m) as fuel.
  intros fuel. revert fuel. induction l as [|x l IH]; intros [|f] s Hs Hf; try (cbn in Hf; lia); cbn [strchr_loop].
  - apply is_str_nil in Hs. by rewrite Hs.
  - apply is_str_cons in Hs as (Hx & Hn & Hs). rewrite Hx. apply not_elem_of_cons in Hc as [Hxc Hc].
    rewrite (proj2 (Z.eqb_neq x 0)), (proj2 (Z.eqb_neq x c)) by congruence. apply IH; [done|done|cbn in Hf; lia].
Qed.

Lemma ld8_umemmove m dst src n a :
  mem_ok m -> 0 <= n ->
  ld8 (memmove m dst src n) a = if decide (dst <= a < dst + n) then ld8 m (src + (a - dst)) else ld8 m a.
Proof.
  intros Hm Hn. unfold memmove. rewrite Z.gtb_ltb. destruct (Z.ltb_spec dst src).
  - by rewrite ld8_copy_up, Z2Nat.id by (done || lia).
  - rewrite ld8_copy_down, Z2Nat.id by (done || lia). replace (dst + n - n) with dst by lia.
    case_decide; [|done]. f_equal. lia.
Qed.

Lemma in_chars_elem s c : in_chars s c = true <-> c ∈ s.
Proof.
  induction s as [|x s IH]; cbn [in_chars]; [split; [done|by intros ?%not_elem_of_nil]|]. rewrite elem_of_cons.
  destruct (Z.eqb_spec x c); naive_solver.
Qed.
End UlibProps.

(** ** Streams

    What the programs that copy or count rely on: while [st rest out w], the
    bytes [rest] are still to be read from [fd] and [out] has been written to
    the standard output. A [read] may deliver fewer bytes than were asked for,
    but none only at the end; a [write] takes all of its bytes. *)
Class Stream {W : Type} `{!Sys W} (fd : Z) (st : list Z -> list Z -> W -> Prop) : Prop := {
  stream_read : forall rest out w n, st rest out w -> 0 < n -> exists k w',
    sys_read fd n w = (Z.of_nat k, take k rest, w') /\ Z.of_nat k <= n /\ (k <= length rest)%nat /\
    (k = 0%nat -> rest = []) /\ st (drop k rest) out w';
  stream_write : forall rest out w bs, st rest out w -> exists w',
    sys_write 1 bs w = (Z.of_nat (length bs), w') /\ st rest (out ++ bs) w' }.

(** A world with one input and one output; [read] delivers at most [k] bytes at a
    time. *)
Definition pipeline : Type := list Z * list Z.

#[export] Instance pipeline_sys (k : nat) : Sys pipeline := {
  sys_read := fun _ n w => let bs := take (Z.to_nat n `min` k) (fst w) in
    (Z.of_nat (length bs), bs, (drop (length bs) (fst w), snd w));
  sys_write := fun _ bs w => (Z.of_nat (length bs), (fst w, snd w ++ bs));
  sys_open := fun _ _ w => (3, w);
  sys_close := fun _ w => (0, w);
  sys_fstat := fun _ w => (-1, [], w);
  sys_sbrk := fun _ w => (-1, w);
  sys_kill := fun _ w => (-1, w);
  sys_link := fun _ _ w => (-1, w);
  sys_unlink := fun _ w => (-1, w);
  sys_mkdir := fun _ w => (-1, w);
  sys_chdir := fun _ w => (-1, w) }.

Definition pipeline_at (rest out : list Z) (w : pipeline) : Prop := w = (rest, out).

Lemma pipeline_stream k fd : (0 < k)%nat -> @Stream pipeline (pipeline_sys k) fd pipeline_at.
Proof.
  intros Hk. split.
  - intros rest out w n -> Hn. cbn [sys_read pipeline_sys fst snd]. rewrite length_take.
    exists ((Z.to_nat n `min` k) `min` length rest)%nat, (drop ((Z.to_nat n `min` k) `min` length rest) rest, out).
    split; [|split; [lia|split; [lia|split; [|done]]]].
    + f_equal. f_equal. destruct (Nat.min_spec (Z.to_nat n `min` k) (length rest)) as [[? ->]|[? ->]]; [done|].
      rewrite !take_ge by lia. done.
    + intros E. destruct rest; [done|]. cbn in E. lia.
  - intros rest out w bs ->. by exists (rest, out ++ bs).
Qed.
