(* ===== verification/Grep.v ===== *)
(** * [grep] ([user/grep.c])

    The regular-expression matcher and the loop that reads lines. The matcher
    decides the language that the pattern describes; [grep] writes exactly the
    lines of its input that have a match. *)

From stdpp Require Import gmap strings list.
From Stdlib Require Import ZArith Lia.
From S2P Require Import Prelude CString User.
Open Scope Z_scope.
Import Ulib.

Module Grep.

(** [matchstar], over the matcher [here] for the rest of the pattern. *)
Fixpoint matchstar (here : Z -> option bool) (m : mem) (c text : Z) (fuel : nat) : option bool :=
  match fuel with
  | O => None
  | S f =>
      match here text with
      | Some true => Some true
      | Some false =>
          if negb (ld8 m text =? 0) && ((ld8 m text =? c) || (c =? 46))
          then matchstar here m c (text + 1) f else Some false
      | None => None
      end
  end.

Fixpoint matchhere (m : mem) (re text : Z) (fuel : nat) : option bool :=
  match fuel with
  | O => None
  | S f =>
      if ld8 m re =? 0 then Some true else
      if ld8 m (re + 1) =? 42 then matchstar (fun t => matchhere m (re + 2) t f) m (ld8 m re) text (mfuel m) else
      if (ld8 m re =? 36) && (ld8 m (re + 1) =? 0) then Some (ld8 m text =? 0) else
      if negb (ld8 m text =? 0) && ((ld8 m re =? 46) || (ld8 m re =? ld8 m text))
      then matchhere m (re + 1) (text + 1) f else Some false
  end.

(** The loop of [match]. *)
Fixpoint match_loop (m : mem) (re text : Z) (fuel : nat) : option bool :=
  match fuel with
  | O => None
  | S f =>
      match matchhere m re text (mfuel m) with
      | Some true => Some true
      | Some false => if negb (ld8 m text =? 0) then match_loop m re (text + 1) f else Some false
      | None => None
      end
  end.

Definition match_ (m : mem) (re text : Z) : option bool :=
  if ld8 m re =? 94 then matchhere m (re + 1) text (mfuel m) else match_loop m re text (mfuel m).

(** [char buf[1024]] *)
Definition buf : Z := 0x2000.

Section Sys.
Open Scope user_scope.
Context {W : Type} `{!Sys W}.

(** The loop over the lines of the buffer; returns [p]. *)
Fixpoint grep_lines (pattern p : Z) (fuel : nat) : U W Z :=
  match fuel with
  | O => unbounded
  | S f =>
      m <- umem;;
      q <- ulift (strchr m p 10);;
      if q =? 0 then uret p else
      uset (st8 q 0);;
      m <- umem;;
      b <- ulift (match_ m pattern p);;
      (if b then uset (st8 q 10);; write 1 p (q + 1 - p);; uret tt else uret tt);;
      grep_lines pattern (q + 1) f
  end.

(** [fuel] bounds the number of calls of [read]. *)
Fixpoint grep_loop (pattern fd m : Z) (fuel : nat) : U W unit :=
  match fuel with
  | O => unbounded
  | S f =>
      n <- read fd (buf + m) (1024 - m - 1);;
      if negb (n >? 0) then uret tt else
      let m := m + n in
      uset (st8 (buf + m) 0);;
      p <- grep_lines pattern buf 1025;;
      if m >? 0 then
        let m := m - (p - buf) in
        uset (fun mm => memmove mm buf p m);;
        grep_loop pattern fd m f
      else grep_loop pattern fd m f
  end.

Definition grep (pattern fd : Z) (fuel : nat) : U W unit := grep_loop pattern fd 0 fuel.
End Sys.
End Grep.
Import Grep.

(** ** The language of a pattern *)

Inductive item :=
| Char (c : Z)
| Star (c : Z)
| End_.

(** The pattern read from left to right: a character and [*], a final [$],
    any other character. *)
Fixpoint items (re : list Z) : list item :=
  match re with
  | [] => []
  | c :: re' =>
      match re' with
      | 42 :: re'' => Star c :: items re''
      | [] => [if c =? 36 then End_ else Char c]
      | _ => Char c :: items re'
      end
  end.

(** A [.] stands for any character. *)
Definition fits (c x : Z) : Prop := c = 46 \/ c = x.

(** The texts with a prefix that the items describe. *)
Inductive describes : list item -> list Z -> Prop :=
| D_nil t : describes [] t
| D_char c x its t : fits c x -> describes its t -> describes (Char c :: its) (x :: t)
| D_star c xs its t : Forall (fits c) xs -> describes its t -> describes (Star c :: its) (xs ++ t)
| D_end : describes [End_] [].

(** A pattern that starts with [^] is matched at the start of the text,
    another one anywhere. *)
Definition has_match (re text : list Z) : Prop :=
  match re with
  | 94 :: re' => describes (items re') text
  | _ => exists t1 t2, text = t1 ++ t2 /\ describes (items re) t2
  end.

(** ** The matcher decides the language *)

Lemma items_one c : items [c] = [if c =? 36 then End_ else Char c].
Proof. done. Qed.

Lemma items_two c c' l : items (c :: c' :: l) = if c' =? 42 then Star c :: items l else Char c :: items (c' :: l).
Proof.
  destruct (Z.eqb_spec c' 42) as [->|Hne]; [done|]. destruct c' as [|p|p]; try done.
  do 6 (destruct p as [p|p|]; try done).
Qed.


Lemma has_match_cons c re text :
  has_match (c :: re) text <->
  if c =? 94 then describes (items re) text else exists t1 t2, text = t1 ++ t2 /\ describes (items (c :: re)) t2.
Proof.
  destruct (Z.eqb_spec c 94) as [->|Hne]; [done|]. unfold has_match. destruct c as [|p|p]; try done.
  do 7 (destruct p as [p|p|]; try done).
Qed.

Lemma describes_star c its lt :
  describes (Star c :: its) lt <->
  describes its lt \/ exists x t, lt = x :: t /\ fits c x /\ describes (Star c :: its) t.
Proof.
  split.
  - inversion 1 as [|?|? xs ? t Hx Ht|]; subst. destruct xs as [|x xs]; [by left|]. right.
    apply Forall_cons in Hx as [Hx Hxs]. exists x, (xs ++ t). split; [done|]. split; [done|by constructor].
  - intros [Hd|(x & t & -> & Hx & Hd)]; [by apply (D_star c [])|].
    inversion Hd as [|?|? xs ? t' Hxs Ht|]; subst. apply (D_star c (x :: xs)); [by constructor|done].
Qed.

Section Matcher.
Context (m : mem).

Lemma matchstar_spec here its c :
  (forall t lt, is_str m t lt -> exists b, here t = Some b /\ (b = true <-> describes its lt)) ->
  forall fuel text lt, is_str m text lt -> (length lt < fuel)%nat ->
  exists b, matchstar here m c text fuel = Some b /\ (b = true <-> describes (Star c :: its) lt).
Proof.
  intros Hh. induction fuel as [|f IH]; intros text lt Hs Hf; [lia|]. cbn [matchstar].
  destruct (Hh text lt Hs) as ([|] & -> & Hb).
  { exists true. split; [done|]. rewrite describes_star. naive_solver. }
  destruct lt as [|x lt].
  - apply is_str_nil in Hs. rewrite Hs. cbn [Z.eqb negb andb]. exists false. split; [done|].
    rewrite describes_star. naive_solver.
  - pose proof Hs as (Hx & Hn & Hs')%is_str_cons. rewrite Hx, (proj2 (Z.eqb_neq x 0)) by done. cbn [negb andb].
    destruct ((x =? c) || (c =? 46)) eqn:E.
    + destruct (IH (text + 1) lt Hs' ltac:(cbn in Hf; lia)) as (b & -> & Hb'). exists b. split; [done|].
      rewrite describes_star, Hb'. split; [intros Hd; right; exists x, lt; split; [done|]; split; [|done]|].
      * apply orb_true_iff in E as [E%Z.eqb_eq|E%Z.eqb_eq]; [right|left]; congruence.
      * intros [Hd|(x' & t & [= <- <-] & _ & Hd)]; [naive_solver|done].
    + exists false. split; [done|]. rewrite describes_star. split; [done|]. intros [Hd|(x' & t & [= <- <-] & Hf' & _)]; [naive_solver|].
      apply orb_false_iff in E as [E%Z.eqb_neq E'%Z.eqb_neq]. destruct Hf'; congruence.
Qed.

Lemma matchhere_spec fuel : forall re lr text lt,
  is_str m re lr -> is_str m text lt -> (length lr < fuel)%nat ->
  exists b, matchhere m re text fuel = Some b /\ (b = true <-> describes (items lr) lt).
Proof.
  induction fuel as [|f IH]; intros re lr text lt Hr Ht Hf; [lia|]. cbn [matchhere].
  destruct lr as [|c lr].
  { apply is_str_nil in Hr. rewrite Hr. exists true. split; [done|]. split; [constructor|done]. }
  apply is_str_cons in Hr as (Hc & Hn & Hr). rewrite Hc, (proj2 (Z.eqb_neq c 0)) by done.
  assert (Hchar : items (c :: lr) = Char c :: items lr -> exists b,
    (if negb (ld8 m text =? 0) && ((c =? 46) || (c =? ld8 m text)) then matchhere m (re + 1) (text + 1) f else Some false) = Some b /\
    (b = true <-> describes (items (c :: lr)) lt)).
  { intros ->. destruct lt as [|x lt].
    - apply is_str_nil in Ht. rewrite Ht. exists false. split; [done|]. split; [done|]. inversion 1.
    - apply is_str_cons in Ht as (Hx & Hxn & Ht). rewrite Hx, (proj2 (Z.eqb_neq x 0)) by done. cbn [negb andb].
      destruct ((c =? 46) || (c =? x)) eqn:E.
      + destruct (IH (re + 1) lr (text + 1) lt Hr Ht ltac:(cbn in Hf; lia)) as (b & -> & Hb). exists b. split; [done|].
        rewrite Hb. split; [intros Hd; constructor; [|done]|inversion 1; done].
        apply orb_true_iff in E as [E%Z.eqb_eq|E%Z.eqb_eq]; [left|right]; congruence.
      + exists false. split; [done|]. split; [done|]. inversion 1 as [|? ? ? ? Hfit| |]; subst.
        apply orb_false_iff in E as [E%Z.eqb_neq E'%Z.eqb_neq]. destruct Hfit; congruence. }
  destruct lr as [|c' lr].
  - apply is_str_nil in Hr. rewrite Hr. cbn [Z.eqb andb]. rewrite andb_true_r. rewrite items_one in Hchar |- *. destruct (Z.eqb_spec c 36) as [->|Hne].
    + exists (ld8 m text =? 0). split; [done|]. rewrite Z.eqb_eq. rewrite <- is_str_nil. split.
      * intros Hz. rewrite (is_str_unique _ _ _ _ Ht Hz). constructor.
      * inversion 1; subst; done.
    + by apply Hchar.
  - pose proof Hr as (Hc' & Hn' & Hr')%is_str_cons. rewrite Hc'. rewrite items_two in Hchar |- *. destruct (Z.eqb_spec c' 42) as [->|Hne].
    + apply (matchstar_spec (fun t => matchhere m (re + 2) t f)); [|done|by eapply is_str_fuel].
      intros t lt' Ht'. apply IH; [by replace (re + 2) with (re + 1 + 1) by lia|done|cbn in Hf; lia].
    + rewrite (proj2 (Z.eqb_neq c' 0)), andb_false_r by done. by apply Hchar.
Qed.

Lemma match_loop_spec fuel : forall re lr text lt,
  is_str m re lr -> is_str m text lt -> (length lt < fuel)%nat ->
  exists b, match_loop m re text fuel = Some b /\
    (b = true <-> exists t1 t2, lt = t1 ++ t2 /\ describes (items lr) t2).
Proof.
  induction fuel as [|f IH]; intros re lr text lt Hr Ht Hf; [lia|]. cbn [match_loop].
  destruct (matchhere_spec (mfuel m) re lr text lt Hr Ht) as ([|] & -> & Hb); [by eapply is_str_fuel| |].
  { exists true. split; [done|]. split; [|done]. intros _. exists [], lt. naive_solver. }
  destruct lt as [|x lt].
  - apply is_str_nil in Ht. rewrite Ht. exists false. split; [done|]. split; [done|].
    intros (t1 & t2 & E & Hd). symmetry in E. apply app_eq_nil in E as [-> ->]. naive_solver.
  - apply is_str_cons in Ht as (Hx & Hn & Ht). rewrite Hx, (proj2 (Z.eqb_neq x 0)) by done. cbn [negb].
    destruct (IH re lr (text + 1) lt Hr Ht ltac:(cbn in Hf; lia)) as (b & -> & Hb'). exists b. split; [done|].
    rewrite Hb'. split.
    + intros (t1 & t2 & -> & Hd). by exists (x :: t1), t2.
    + intros ([|y t1] & t2 & E & Hd); [cbn in E; subst; naive_solver|]. injection E as <- ->. by exists t1, t2.
Qed.

Lemma match_spec re lr text lt :
  is_str m re lr -> is_str m text lt ->
  exists b, match_ m re text = Some b /\ (b = true <-> has_match lr lt).
Proof.
  intros Hr Ht. unfold match_. destruct lr as [|c lr].
  - pose proof Hr as Hz%is_str_nil. rewrite Hz. cbn [Z.eqb]. apply (match_loop_spec (mfuel m) re []); [done|done|by eapply is_str_fuel].
  - pose proof Hr as (Hc & Hn & Hr')%is_str_cons. rewrite Hc. setoid_rewrite has_match_cons. destruct (c =? 94).
    + apply matchhere_spec; [done|done|]. by eapply is_str_fuel.
    + apply match_loop_spec; [done|done|by eapply is_str_fuel].
Qed.
End Matcher.

(** ** Lines *)

(** The lines of a text that end in a newline, and what follows the last one. *)
Fixpoint split_lines (d : list Z) : list (list Z) * list Z :=
  match d with
  | [] => ([], [])
  | c :: d' =>
      let '(ls, r) := split_lines d' in
      if c =? 10 then ([] :: ls, r)
      else match ls with [] => ([], c :: r) | l :: ls' => ((c :: l) :: ls', r) end
  end.

Lemma split_line l r : 10 ∉ l -> split_lines (l ++ 10 :: r) = let '(ls, t) := split_lines r in (l :: ls, t).
Proof.
  induction l as [|c l IH]; intros Hl; cbn [app split_lines]; [by destruct (split_lines r)|].
  apply not_elem_of_cons in Hl as [Hc Hl]. rewrite IH by done. destruct (split_lines r) as [ls t].
  by rewrite (proj2 (Z.eqb_neq c 10)) by congruence.
Qed.

Lemma split_none l : 10 ∉ l -> split_lines l = ([], l).
Proof.
  induction l as [|c l IH]; intros Hl; cbn [split_lines]; [done|]. apply not_elem_of_cons in Hl as [Hc Hl].
  rewrite IH by done. by rewrite (proj2 (Z.eqb_neq c 10)) by congruence.
Qed.

(** A text has no newline, or a first one. *)
Lemma newline_first (d : list Z) : 10 ∉ d \/ exists l r, d = l ++ 10 :: r /\ 10 ∉ l.
Proof.
  induction d as [|c d IH]; [left; apply not_elem_of_nil|]. destruct (decide (c = 10)) as [->|Hc].
  - right. exists [], d. split; [done|apply not_elem_of_nil].
  - destruct IH as [Hd|(l & r & -> & Hl)]; [left; rewrite not_elem_of_cons; by split|].
    right. exists (c :: l), r. split; [done|]. rewrite not_elem_of_cons. by split.
Qed.

Lemma split_rest d ls t : split_lines d = (ls, t) -> 10 ∉ t /\ exists h, d = h ++ t /\ (length ls <= length h)%nat.
Proof.
  remember (length d) as n eqn:En. revert d ls t En. induction n as [n IH] using (well_founded_induction Wf_nat.lt_wf).
  intros d ls t -> E. destruct (newline_first d) as [Hd|(l & r & -> & Hl)].
  - rewrite split_none in E by done. injection E as <- <-. split; [done|]. by exists [].
  - rewrite split_line in E by done. destruct (split_lines r) as [ls' t'] eqn:Er. injection E as <- <-.
    destruct (IH (length r)) with (d := r) (ls := ls') (t := t') as (H1 & h & -> & H2);
      [rewrite length_app; cbn; lia|done|done|]. split; [done|].
    exists (l ++ 10 :: h). rewrite <- app_assoc. split; [done|]. rewrite length_app. cbn. lia.
Qed.

(** The lines of [d ++ r] are those of [d] and those of what is left of it with [r]. *)
Lemma split_app d r ls t :
  split_lines d = (ls, t) -> split_lines (d ++ r) = let '(ls', t') := split_lines (t ++ r) in (ls ++ ls', t').
Proof.
  remember (length d) as n eqn:En. revert d ls t En. induction n as [n IH] using (well_founded_induction Wf_nat.lt_wf).
  intros d ls t -> E. destruct (newline_first d) as [Hd|(l & r' & -> & Hl)].
  - rewrite split_none in E by done. injection E as <- <-. by destruct (split_lines (d ++ r)).
  - rewrite split_line in E by done. destruct (split_lines r') as [ls' t'] eqn:Er. injection E as <- <-.
    rewrite <- app_assoc. cbn [app]. rewrite split_line by done.
    rewrite (IH (length r') ltac:(rewrite length_app; cbn; lia) r' ls' t' eq_refl Er). by destruct (split_lines (t' ++ r)).
Qed.

(** The lines with a match, each with its newline. *)
Inductive selects (re : list Z) : list (list Z) -> list Z -> Prop :=
| S_nil : selects re [] []
| S_yes l ls o : has_match re l -> selects re ls o -> selects re (l :: ls) (l ++ 10 :: o)
| S_no l ls o : ~ has_match re l -> selects re ls o -> selects re (l :: ls) o.

Lemma selects_app re ls o ls' o' : selects re ls o -> selects re ls' o' -> selects re (ls ++ ls') (o ++ o').
Proof.
  induction 1; intros Hs; cbn [app]; [done|rewrite <- app_assoc; cbn [app]; constructor; auto|constructor; auto].
Qed.

(** ** The loops *)

Section Run.
Context {W : Type} {HS : Sys W} (fd : Z) (st : list Z -> list Z -> W -> Prop) {HSt : Stream fd st}.
Context (pattern : Z) (re : list Z).

(** The string at [p] is cut at its first newline [q]. *)
Lemma cut_line m p l r :
  is_str m p (l ++ 10 :: r) -> is_str (st8 (p + Z.of_nat (length l)) 0 m) p l.
Proof.
  intros Hs. apply is_str_of.
  - intros i x Hx. pose proof (lookup_lt_Some _ _ _ Hx). rewrite ld8_st8_ne by lia.
    apply (is_str_ld8 m p _ i x Hs). by rewrite lookup_app_l.
  - pose proof (is_str_no_nul _ _ _ Hs) as H. rewrite elem_of_app in H. tauto.
  - by rewrite ld8_st8_eq.
Qed.

Lemma rest_line m p l r : is_str m p (l ++ 10 :: r) -> is_str m (p + Z.of_nat (length l) + 1) r.
Proof.
  intros Hs. apply is_str_of.
  - intros i x Hx. replace (p + Z.of_nat (length l) + 1 + Z.of_nat i) with (p + Z.of_nat (length l + S i)) by lia.
    apply (is_str_ld8 m p _ _ x Hs). rewrite lookup_app_r by lia. by replace (length l + S i - length l)%nat with (S i) by lia.
  - pose proof (is_str_no_nul _ _ _ Hs) as H. rewrite elem_of_app, elem_of_cons in H. tauto.
  - destruct Hs as [_ Hz]. rewrite <- Hz, length_app. f_equal. cbn. lia.
Qed.

Lemma ldbytes_line m p l r :
  is_str m p (l ++ 10 :: r) -> ldbytes (st8 (p + Z.of_nat (length l)) 10 (st8 (p + Z.of_nat (length l)) 0 m)) p (S (length l)) = l ++ [10].
Proof.
  intros Hs. apply list_eq. intros i. destruct (decide (i < S (length l))%nat) as [Hi|Hi].
  - rewrite ldbytes_lookup by done. destruct (decide (i = length l)) as [->|Hne].
    + rewrite ld8_st8_eq, lookup_app_r, Nat.sub_diag by lia. done.
    + rewrite !ld8_st8_ne by lia. rewrite lookup_app_l by lia. destruct (lookup_lt_is_Some_2 l i) as [x Hx]; [lia|].
      rewrite Hx. f_equal. apply (is_str_ld8 m p _ i x Hs). by rewrite lookup_app_l by lia.
  - rewrite !lookup_ge_None_2; [done|rewrite length_app; cbn; lia|rewrite length_ldbytes; lia].
Qed.

Lemma grep_lines_run fuel : forall m w p text rest out,
  is_str m p text -> (length text < fuel)%nat -> 0 < p -> mem_ok m -> is_str m pattern re ->
  pattern + Z.of_nat (length re) < p \/ p + Z.of_nat (length text) < pattern -> st rest out w ->
  exists m' w' ls t o, grep_lines pattern p fuel (mkustate m w) =
      Returns (p + Z.of_nat (length text) - Z.of_nat (length t)) (mkustate m' w') /\
    split_lines text = (ls, t) /\ selects re ls o /\ st rest (out ++ o) w' /\ mem_ok m' /\
    is_str m' (p + Z.of_nat (length text) - Z.of_nat (length t)) t /\
    forall a, ~ p <= a < p + Z.of_nat (length text) -> ld8 m' a = ld8 m a.
Proof.
  induction fuel as [|f IH]; intros m w p text rest out Hs Hf Hp Hok Hre Hd Hst; [lia|]. cbn [grep_lines].
  destruct (newline_first text) as [Hn|(l & r & -> & Hl)].
  { exists m, w, [], text, []. rewrite app_nil_r, Z.add_simpl_r. ustep.
    rewrite (UlibProps.strchr_none m p text) by done. ustep. cbn [Z.eqb].
    split; [done|]. split; [by apply split_none|]. split; [constructor|]. done. }
  set (q := p + Z.of_nat (length l)). set (m1 := st8 q 0 m). rewrite length_app in Hd. cbn [length] in Hd.
  assert (Hre1 : is_str m1 pattern re).
  { apply (is_str_ext m); [|done]. intros a Ha. unfold m1, q. rewrite ld8_st8_ne by lia. done. }
  destruct (match_spec m1 pattern re p l Hre1 (cut_line m p l r Hs)) as (b & Em & Hb).
  set (m2 := if b then st8 q 10 m1 else m1).
  assert (Hm2 : forall a, a <> q -> ld8 m2 a = ld8 m a).
  { intros a Ha. unfold m2, m1. destruct b; rewrite !ld8_st8_ne by congruence; done. }
  assert (exists w2, st rest (out ++ if b then l ++ [10] else []) w2 /\
    grep_lines pattern p (S f) (mkustate m w) = grep_lines pattern (q + 1) f (mkustate m2 w2)) as (w2 & Hst2 & E2).
  { cbn [grep_lines]. ustep. rewrite (UlibProps.strchr_found m p l 10 r) by done. fold q. ustep.
    rewrite (proj2 (Z.eqb_neq q 0)) by lia. ustep. fold m1. rewrite Em. ustep. unfold m2. destruct b.
    - destruct (stream_write rest out w (l ++ [10]) Hst) as (w2 & Ew & Hw). exists w2. split; [done|].
      erewrite ubind_done; [reflexivity|]. ustep. unfold ubind, write. cbn [u_mem u_world].
      replace (q + 1 - p) with (Z.of_nat (S (length l))) by lia.
      rewrite Nat2Z.id. unfold m1, q. rewrite (ldbytes_line m p l r Hs), Ew. reflexivity.
    - exists w. rewrite app_nil_r. split; [done|]. by ustep. }
  change ((m <- umem;; _)%user (mkustate m w)) with (grep_lines pattern p (S f) (mkustate m w)). rewrite E2.
  destruct (IH m2 w2 (q + 1) r rest (out ++ if b then l ++ [10] else [])) as (m' & w' & ls & t & o & E & Hsp & Hsel & Hst' & Hok' & Hs' & Hfr); try exact Hst2.
  { apply (is_str_ext m); [|by apply rest_line]. intros a Ha. apply Hm2. unfold q. lia. }
  { rewrite length_app in Hf. cbn in Hf. lia. }
  { lia. }
  { unfold m2, m1. destruct b; by repeat apply mem_ok_st8. }
  { apply (is_str_ext m); [|done]. intros a Ha. apply Hm2. unfold q. lia. }
  { unfold q. lia. }
  exists m', w', (l :: ls), t, ((if b then l ++ [10] else []) ++ o).
  assert (Elen : q + 1 + Z.of_nat (length r) - Z.of_nat (length t) =
    p + Z.of_nat (length (l ++ 10 :: r)) - Z.of_nat (length t)) by (unfold q; rewrite length_app; cbn [length]; lia).
  rewrite <- Elen. split; [exact E|]. rewrite split_line, Hsp by done. split; [done|].
  split. { destruct b; cbn [app]; [rewrite <- app_assoc; apply S_yes; naive_solver|apply S_no; naive_solver]. }
  split; [by rewrite app_assoc|]. split; [done|]. split; [done|].
  intros a Ha. rewrite length_app in Ha. cbn [length] in Ha. rewrite Hfr by (unfold q; lia). apply Hm2. unfold q. lia.
Qed.

(** Every line leaves room in the buffer. *)
Definition fit (d : list Z) : Prop :=
  Forall (fun l => (length l <= 1022)%nat) (split_lines d).1 /\ (length (split_lines d).2 <= 1022)%nat.

Lemma fit_pending pend rest : 10 ∉ pend -> fit (pend ++ rest) -> (length pend <= 1022)%nat.
Proof.
  intros Hp Hf. unfold fit in Hf. destruct (newline_first rest) as [Hn|(l & r & -> & Hl)].
  - rewrite split_none in Hf by (rewrite elem_of_app; tauto). destruct Hf as [_ Hf]. cbn in Hf. rewrite length_app in Hf. lia.
  - rewrite app_assoc, split_line in Hf by (rewrite elem_of_app; tauto). destruct (split_lines r) as [ls t].
    destruct Hf as [Hf _]. cbn in Hf. apply Forall_cons in Hf as [Hf _]. rewrite length_app in Hf. lia.
Qed.

Lemma fit_rest d r ls t : split_lines d = (ls, t) -> fit (d ++ r) -> fit (t ++ r).
Proof.
  intros E. unfold fit. rewrite (split_app d r ls t E). destruct (split_lines (t ++ r)). cbn. rewrite Forall_app. tauto.
Qed.

(** The buffer holds [pend], the beginning of a line. *)
Definition pending (m : mem) (pend : list Z) : Prop :=
  (forall i x, pend !! i = Some x -> ld8 m (buf + Z.of_nat i) = x) /\ 10 ∉ pend /\ 0 ∉ pend.

(** The text in the buffer after [bs] has been read. *)
Lemma read_text m pend bs :
  pending m pend -> Forall byte_range bs -> 0 ∉ bs ->
  is_str (st8 (buf + Z.of_nat (length (pend ++ bs))) 0 (stbytes (buf + Z.of_nat (length pend)) bs m)) buf (pend ++ bs).
Proof.
  intros (Hp & _ & Hn) Hb Hz. apply is_str_of.
  - intros i x Hx. pose proof (lookup_lt_Some _ _ _ Hx) as Hi. rewrite ld8_st8_ne by lia.
    apply lookup_app_Some in Hx as [Hx|[Hge Hx]].
    + pose proof (lookup_lt_Some _ _ _ Hx). rewrite ld8_stbytes_out by lia. by apply Hp.
    + replace (buf + Z.of_nat i) with (buf + Z.of_nat (length pend) + Z.of_nat (i - length pend)) by lia.
      rewrite (ld8_stbytes_in _ _ _ _ x) by done. apply u8_small. by eapply Forall_lookup_1.
  - rewrite elem_of_app. tauto.
  - by rewrite ld8_st8_eq.
Qed.

Lemma move_pending m (text t : list Z) :
  mem_ok m -> is_str m (buf + Z.of_nat (length text) - Z.of_nat (length t)) t -> 10 ∉ t ->
  let m' := memmove m buf (buf + Z.of_nat (length text) - Z.of_nat (length t)) (Z.of_nat (length t)) in
  pending m' t /\ mem_ok m' /\ forall a, ~ buf <= a < buf + Z.of_nat (length t) -> ld8 m' a = ld8 m a.
Proof.
  intros Hok Hs Hn m'. assert (H : forall a, ld8 m' a = if decide (buf <= a < buf + Z.of_nat (length t))
    then ld8 m (buf + Z.of_nat (length text) - Z.of_nat (length t) + (a - buf)) else ld8 m a)
    by (intros a; apply UlibProps.ld8_umemmove; [done|lia]).
  split; [split; [|split; [done|by eapply is_str_no_nul]]|split].
  - intros i x Hx. pose proof (lookup_lt_Some _ _ _ Hx). rewrite H, decide_True by lia.
    rewrite <- (is_str_ld8 _ _ _ _ _ Hs Hx). f_equal. lia.
  - intros a. rewrite H. case_decide; apply Hok.
  - intros a Ha. by rewrite H, decide_False.
Qed.

Lemma grep_loop_run fuel : forall m w pend rest out,
  pending m pend -> fit (pend ++ rest) -> Forall byte_range rest -> 0 ∉ rest -> (length rest < fuel)%nat -> mem_ok m ->
  is_str m pattern re -> pattern + Z.of_nat (length re) < buf \/ buf + 1024 <= pattern -> st rest out w ->
  exists s' o, grep_loop pattern fd (Z.of_nat (length pend)) fuel (mkustate m w) = Returns tt s' /\
    selects re (split_lines (pend ++ rest)).1 o /\ st [] (out ++ o) (u_world s').
Proof.
  induction fuel as [|f IH]; intros m w pend rest out Hp Hfit Hb Hz Hf Hok Hre Hd Hst; [lia|]. cbn [grep_loop].
  pose proof (fit_pending _ _ (proj1 (proj2 Hp)) Hfit) as Hlen.
  destruct (stream_read rest out w (1024 - Z.of_nat (length pend) - 1) Hst ltac:(lia)) as (k & w1 & Er & Hk & Hkr & H0 & Hst1).
  set (bs := take k rest) in *.
  assert (Eread : read fd (buf + Z.of_nat (length pend)) (1024 - Z.of_nat (length pend) - 1) (mkustate m w) =
    Returns (Z.of_nat k) (mkustate (stbytes (buf + Z.of_nat (length pend)) bs m) w1)).
  { unfold read. cbn [u_world u_mem]. by rewrite Er. }
  rewrite (ubind_done _ _ _ _ _ Eread). rewrite Z.gtb_ltb. destruct (Z.ltb_spec 0 (Z.of_nat k)) as [Hpos|Hz0]; cbn [negb].
  2: { assert (k = 0%nat) as -> by lia. rewrite H0, app_nil_r by done. eexists _, []. split; [done|].
       rewrite split_none by apply Hp. split; [constructor|]. rewrite app_nil_r. cbn [u_world]. by rewrite drop_0, H0 in Hst1. }
  assert (Hbl : length bs = k) by (unfold bs; rewrite length_take; lia).
  replace (Z.of_nat (length pend) + Z.of_nat k) with (Z.of_nat (length (pend ++ bs))) by (rewrite length_app; lia).
  ustep. set (m2 := st8 _ 0 _). set (text := pend ++ bs) in *.
  assert (Htl : (length text <= 1023)%nat) by (unfold text; rewrite length_app; lia).
  assert (Hs2 : is_str m2 buf text) by (apply read_text; [done|by apply Forall_take|intros (i & Hx & _)%elem_of_take; by apply Hz, (list_elem_of_lookup_2 _ i)]).
  assert (Hre2 : is_str m2 pattern re).
  { apply (is_str_ext m); [|done]. intros a Ha. unfold m2. rewrite ld8_st8_ne by lia. rewrite ld8_stbytes_out; [done|lia]. }
  assert (Hok2 : mem_ok m2) by (by apply mem_ok_st8, mem_ok_stbytes).
  destruct (grep_lines_run 1025 m2 w1 buf text (drop k rest) out Hs2 ltac:(lia) ltac:(unfold buf; lia) Hok2 Hre2 ltac:(lia) Hst1)
    as (m3 & w3 & ls & t & o & E3 & Hsp & Hsel & Hst3 & Hok3 & Hs3 & Hfr3).
  rewrite (ubind_done _ _ _ _ _ E3). rewrite Z.gtb_ltb, (proj2 (Z.ltb_lt 0 _)) by (unfold text; rewrite length_app; lia).
  destruct (split_rest text ls t Hsp) as (Hnt & h & Eh & _).
  assert (Hth : (length t <= length text)%nat) by (rewrite Eh, length_app; lia).
  replace (Z.of_nat (length text) - (buf + Z.of_nat (length text) - Z.of_nat (length t) - buf)) with (Z.of_nat (length t)) by lia.
  ustep. destruct (move_pending m3 text t Hok3 Hs3 Hnt) as (Hp4 & Hok4 & Hfr4). set (m4 := memmove m3 _ _ _) in *.
  assert (Hsplit : pend ++ rest = text ++ drop k rest) by (unfold text, bs; by rewrite <- app_assoc, take_drop).
  rewrite Hsplit in Hfit |- *.
  destruct (IH m4 w3 t (drop k rest) (out ++ o)) as (s' & o' & E & Hsel' & Hst'); try done.
  { by apply (fit_rest text _ ls). }
  { by apply Forall_drop. }
  { intros Hx. apply Hz. rewrite <- (take_drop k rest). apply elem_of_app. by right. }
  { rewrite length_drop. lia. }
  { apply (is_str_ext m2); [|done]. intros a Ha. rewrite Hfr4, Hfr3 by lia. done. }
  exists s', (o ++ o'). split; [exact E|]. rewrite (split_app text _ ls t Hsp). destruct (split_lines (t ++ drop k rest)) as [ls' t'].
  cbn in Hsel' |- *. split; [by apply selects_app|by rewrite app_assoc].
Qed.
End Run.

Module GrepProps.

(** C29: the matcher always returns, and it returns 1 exactly when the text has
    a match for the pattern: the strings the pattern describes are given by
    [describes], anywhere in the text or, after [^], at its start. *)
Theorem match_decides m re text :
  exists b, match_ m re text = Some b /\ (b = true <-> has_match (cstr m re) (cstr m text)).
Proof. apply match_spec; by apply is_str_cstr. Qed.

(** C30: [grep] of a stream without zero bytes whose lines have at most 1022
    bytes returns, and it has written exactly the lines that end in a newline and
    have a match, in order and each with its newline. What follows the last
    newline is not searched and not written. [read] may deliver the stream in
    pieces of any size; the pattern lies outside the buffer. *)
Theorem grep_selects {W : Type} {HS : Sys W} fd st {HSt : Stream fd st} pattern re data m w out :
  fit data -> Forall byte_range data -> 0 ∉ data -> mem_ok m ->
  is_str m pattern re -> pattern + Z.of_nat (length re) < buf \/ buf + 1024 <= pattern -> st data out w ->
  exists s' o, grep pattern fd (S (length data)) (mkustate m w) = Returns tt s' /\
    selects re (split_lines data).1 o /\ st [] (out ++ o) (u_world s').
Proof.
  intros Hf Hb Hz Hok Hre Hd Hst. apply (grep_loop_run fd st pattern re (S (length data)) m w [] data); try done; [|lia].
  split; [done|]. split; apply not_elem_of_nil.
Qed.

(** The pattern "b.*" at address 1, input of two lines read three bytes at a time. *)
Definition grep_mem : mem := stbytes 1 [98; 46; 42] ∅.
Definition grep_input : list Z := [97; 98; 99; 10; 97; 99; 10; 98].

Lemma grep_selects_witness :
  exists s' o, @grep pipeline (pipeline_sys 3) 1 0 9 (mkustate grep_mem (grep_input, [])) = Returns tt s' /\
    selects [98; 46; 42] (split_lines grep_input).1 o /\ pipeline_at [] o (u_world s').
Proof.
  pose proof (pipeline_stream 3 0 ltac:(lia)) as HSt.
  destruct (@grep_selects pipeline (pipeline_sys 3) 0 pipeline_at HSt 1 [98; 46; 42] grep_input grep_mem (grep_input, []) [])
    as (s' & o & E & Hs & Hp).
  - split; [|vm_compute; lia]. repeat constructor; vm_compute; lia.
  - repeat constructor; lia.
  - intros H. repeat (apply elem_of_cons in H as [[=]|H]). by apply not_elem_of_nil in H.
  - apply mem_ok_stbytes, mem_ok_empty.
  - split; vm_compute; reflexivity.
  - left. vm_compute. reflexivity.
  - done.
  - exists s', o. split; [exact E|]. split; [exact Hs|exact Hp].
Defined.
End GrepProps.
