(* ===== verification/UPrintf.v ===== *)
(** * Formatted output of user programs ([user/printf.c])

    [printf] writes one byte at a time. Format strings are constants of the
    program, given by their bytes; the strings that [%s] prints are in the
    program's memory. The theorem relates the decimal output to [atoi]. *)

From stdpp Require Import gmap strings list.
From Stdlib Require Import ZArith Lia.
From S2P Require Import Prelude CString User.
Open Scope Z_scope.
Import Ulib.

Module UPrintf.
Section Sys.
Open Scope user_scope.
Context {W : Type} `{!Sys W}.

Definition digits : list Z := lit "0123456789ABCDEF".

(** [write(fd, &c, 1)] *)
Definition putc (fd c : Z) : U W unit := fun s =>
  let '(_, w) := sys_write fd [u8 c] (u_world s) in Returns tt (mkustate (u_mem s) w).

Fixpoint putall (fd : Z) (l : list Z) : U W unit :=
  match l with
  | [] => uret tt
  | c :: l' => putc fd c;; putall fd l'
  end.

(** The digits of [x], the lowest first. *)
Fixpoint digit_loop (x base : Z) (fuel : nat) : list Z :=
  match fuel with
  | O => []
  | S f => digits !!! Z.to_nat (x mod base) :: (if x / base =? 0 then [] else digit_loop (x / base) base f)
  end.

(** What [printint] leaves in [buf], which has 16 bytes. *)
Definition printint_buf (xx base : Z) (sgn : bool) : list Z :=
  let neg := sgn && (xx <? 0) in
  let x := if neg then u32 (- xx) else u32 xx in
  digit_loop x base 16 ++ (if neg then [45] else []).

Definition printint (fd xx base : Z) (sgn : bool) : U W unit := putall fd (rev (printint_buf xx base sgn)).

Fixpoint printptr_loop (fd x : Z) (k : nat) : U W unit :=
  match k with
  | O => uret tt
  | S k' => putc fd (digits !!! Z.to_nat (Z.shiftr x 60));; printptr_loop fd (u64 (Z.shiftl x 4)) k'
  end.

Definition printptr (fd x : Z) : U W unit := putc fd 48;; putc fd 120;; printptr_loop fd x 16.

(** [while( *s != 0){ putc(fd, *s); s++; }] *)
Fixpoint putstr (fd s : Z) (fuel : nat) : U W unit :=
  match fuel with
  | O => unbounded
  | S f =>
      m <- umem;;
      if ld8 m s =? 0 then uret tt else putc fd (ld8 m s);; putstr fd (s + 1) f
  end.

(** The next argument, as a 64-bit word; reading past the last one is not
    defined. *)
Definition va_arg (ap : list Z) : U W (Z * list Z) :=
  match ap with
  | x :: ap' => uret (x, ap')
  | [] => unbounded
  end.

Definition puts_arg (fd s : Z) : U W unit :=
  m <- umem;;
  if s =? 0 then putall fd (lit "(null)") else putstr fd s (mfuel m).

(** The loop of [vprintf]; [state] is set after a [%]. *)
Fixpoint vprintf_loop (fd : Z) (fmt : list Z) (state : bool) (ap : list Z) : U W unit :=
  match fmt with
  | [] => uret tt
  | c :: fmt' =>
      if negb state then
        if c =? 37 then vprintf_loop fd fmt' true ap
        else putc fd c;; vprintf_loop fd fmt' false ap
      else if c =? 100 then
        a <- va_arg ap;; printint fd (s32 a.1) 10 true;; vprintf_loop fd fmt' false a.2
      else if c =? 108 then
        a <- va_arg ap;; printint fd (s32 a.1) 10 false;; vprintf_loop fd fmt' false a.2
      else if c =? 120 then
        a <- va_arg ap;; printint fd (s32 a.1) 16 false;; vprintf_loop fd fmt' false a.2
      else if c =? 112 then
        a <- va_arg ap;; printptr fd a.1;; vprintf_loop fd fmt' false a.2
      else if c =? 115 then
        a <- va_arg ap;; puts_arg fd a.1;; vprintf_loop fd fmt' false a.2
      else if c =? 99 then
        a <- va_arg ap;; putc fd a.1;; vprintf_loop fd fmt' false a.2
      else if c =? 37 then
        putc fd c;; vprintf_loop fd fmt' false ap
      else
        putc fd 37;; putc fd c;; vprintf_loop fd fmt' false ap
  end.

Definition vprintf (fd : Z) (fmt : list Z) (ap : list Z) : U W unit := vprintf_loop fd fmt false ap.

Definition fprintf (fd : Z) (fmt : list Z) (ap : list Z) : U W unit := vprintf fd fmt ap.
Definition printf (fmt : list Z) (ap : list Z) : U W unit := vprintf 1 fmt ap.
End Sys.
End UPrintf.
Import UPrintf.

(** ** Decimal numbers *)

Definition is_digit (c : Z) : Prop := 48 <= c <= 57.

Definition value (n : Z) (l : list Z) : Z := foldl (fun a c => a * 10 + (c - 48)) n l.

Lemma digit_small k : 0 <= k < 10 -> digits !!! Z.to_nat k = 48 + k.
Proof.
  intros Hk. assert (k = 0 \/ k = 1 \/ k = 2 \/ k = 3 \/ k = 4 \/ k = 5 \/ k = 6 \/ k = 7 \/ k = 8 \/ k = 9) as H by lia.
  repeat destruct H as [->|H]; try reflexivity. by subst.
Qed.

Lemma digit_loop_digits x f : Forall is_digit (digit_loop x 10 f).
Proof.
  revert x. induction f as [|f IH]; intros x; cbn [digit_loop]; [constructor|].
  pose proof (Z.mod_pos_bound x 10 ltac:(done)). constructor; [rewrite digit_small by done; unfold is_digit; lia|].
  case_match; [constructor|apply IH].
Qed.

Lemma value_digits x f : 0 <= x < 10 ^ Z.of_nat f -> (0 < f)%nat -> value 0 (rev (digit_loop x 10 f)) = x.
Proof.
  revert x. induction f as [|f IH]; intros x Hx Hf; [lia|]. cbn [digit_loop rev].
  pose proof (Z.div_mod x 10 ltac:(done)). pose proof (Z.mod_pos_bound x 10 ltac:(done)).
  unfold value in *. rewrite foldl_app. cbn [foldl]. rewrite digit_small by done.
  destruct (Z.eqb_spec (x / 10) 0) as [E|E]; [cbn; lia|].
  assert (0 <= x / 10) by (apply Z.div_pos; lia).
  destruct f as [|f]; [cbn in Hx; dlia|]. rewrite IH; [lia| |lia].
  rewrite (Nat2Z.inj_succ (S f)), Z.pow_succ_r in Hx by lia. split; [done|]. apply Z.div_lt_upper_bound; lia.
Qed.

Lemma value_le n l : 0 <= n -> Forall is_digit l -> n <= value n l.
Proof.
  intros Hn Hl. revert n Hn. induction Hl as [|c l Hc Hl IH]; intros n Hn; [done|].
  unfold value in *. cbn [foldl]. unfold is_digit in Hc. etrans; [|apply IH; lia]. lia.
Qed.

Lemma atoi_loop_value m l fuel : forall n s,
  is_str m s l -> Forall is_digit l -> 0 <= n -> value n l < 2 ^ 31 -> (length l < fuel)%nat ->
  atoi_loop m n s fuel = Some (value n l).
Proof.
  revert fuel. induction l as [|c l IH]; intros [|f] n s Hs Hl Hn Hv Hf; try (cbn in Hf; lia); cbn [atoi_loop].
  - apply is_str_nil in Hs. rewrite Hs. done.
  - apply is_str_cons in Hs as (Hc & _ & Hs). apply Forall_cons in Hl as [Hd Hl]. unfold is_digit in Hd.
    assert (E8 : s8 c = c) by (unfold s8, swrap; rewrite Z.mod_small; lia).
    rewrite Hc, E8, (proj2 (Z.leb_le 48 c)), (proj2 (Z.leb_le c 57)) by lia. cbn [andb].
    assert (Hle : n * 10 + (c - 48) <= value (n * 10 + (c - 48)) l) by (apply value_le; [lia|done]).
    change (value n (c :: l)) with (value (n * 10 + (c - 48)) l) in *.
    rewrite s32_small by lia. replace (n * 10 + c - 48) with (n * 10 + (c - 48)) by lia. apply IH; try done; [lia|cbn in Hf; lia].
Qed.

Section Out.
Context {W : Type} {HS : Sys W} (fd : Z) (st : list Z -> list Z -> W -> Prop) {HSt : Stream fd st}.

Lemma putc_run rest out m w c : st rest out w -> exists w', putc 1 c (mkustate m w) = Returns tt (mkustate m w') /\ st rest (out ++ [u8 c]) w'.
Proof.
  intros Hst. destruct (stream_write rest out w [u8 c] Hst) as (w' & E & Hw). exists w'. split; [|done].
  unfold putc. cbn [u_world u_mem]. by rewrite E.
Qed.

Lemma putall_run l : forall rest out m w, st rest out w -> Forall byte_range l ->
  exists w', putall 1 l (mkustate m w) = Returns tt (mkustate m w') /\ st rest (out ++ l) w'.
Proof.
  induction l as [|c l IH]; intros rest out m w Hst Hl; cbn [putall]; [exists w; by rewrite app_nil_r|].
  apply Forall_cons in Hl as [Hc Hl]. destruct (putc_run rest out m w c Hst) as (w1 & E1 & H1).
  rewrite u8_small in H1 by done. destruct (IH rest _ m w1 H1 Hl) as (w2 & E2 & H2). exists w2.
  rewrite (ubind_done _ _ _ _ _ E1). split; [done|]. by rewrite <- app_assoc in H2.
Qed.

Lemma printint_bytes xx : Forall byte_range (rev (printint_buf xx 10 true)).
Proof.
  apply Forall_rev. unfold printint_buf. apply Forall_app. split.
  - eapply Forall_impl; [apply digit_loop_digits|]. unfold is_digit, byte_range. lia.
  - case_match; repeat constructor; lia.
Qed.
End Out.

Module UPrintfProps.

(** [printf("%d", n)] of a number that is not negative writes a string from
    which [atoi] reads [n] again. *)
Theorem printf_atoi {W : Type} {HS : Sys W} fd st {HSt : Stream fd st} n rest out m w :
  0 <= n < 2 ^ 31 -> st rest out w ->
  exists w' l, printf (lit "%d") [n] (mkustate m w) = Returns tt (mkustate m w') /\ st rest (out ++ l) w' /\
    forall m' s, is_str m' s l -> atoi m' s = Some n.
Proof.
  intros Hn Hst. set (l := rev (printint_buf n 10 true)).
  destruct (putall_run fd st l rest out m w Hst (printint_bytes n)) as (w' & E & Hw). exists w', l.
  split; [|split; [exact Hw|]].
  - unfold printf, vprintf. change (lit "%d") with [37; 100]. cbn [vprintf_loop negb Z.eqb Pos.eqb va_arg].
    rewrite ubind_ret. cbn [fst snd]. rewrite s32_small by lia. unfold printint. fold l. by rewrite (ubind_done _ _ _ _ _ E).
  - intros m' s Hs. assert (El : l = rev (digit_loop n 10 16)).
    { unfold l, printint_buf. rewrite (proj2 (Z.ltb_ge n 0)) by lia. cbn [andb]. by rewrite app_nil_r, u32_small by lia. }
    assert (Hd : Forall is_digit l) by (rewrite El; apply Forall_rev, digit_loop_digits).
    assert (Hv : value 0 l = n) by (rewrite El; apply value_digits; [cbn; lia|lia]).
    unfold atoi. rewrite (atoi_loop_value m' l (mfuel m') 0 s Hs Hd); [by rewrite Hv|done|rewrite Hv; lia|by eapply is_str_fuel].
Qed.

Lemma printf_atoi_witness :
  exists w' l, @printf pipeline (pipeline_sys 1) (lit "%d") [4093] (mkustate ∅ ([], [])) = Returns tt (mkustate ∅ w') /\
    pipeline_at [] l w' /\ forall m' s, is_str m' s l -> atoi m' s = Some 4093.
Proof.
  pose proof (pipeline_stream 1 0 ltac:(lia)) as HSt.
  exact (@printf_atoi pipeline (pipeline_sys 1) 0 pipeline_at HSt 4093 [] [] ∅ ([], []) ltac:(lia) eq_refl).
Defined.
End UPrintfProps.
