(* ===== verification/Programs.v ===== *)
(** * Small user programs ([user/cat.c], [echo.c], [wc.c], [grep.c], [kill.c], [ln.c], [mkdir.c], [rm.c])

    The [main] functions and what they call. A program gets its arguments as
    pointers in memory. The theorems say what [cat] and [wc] write for the
    stream they read. *)

From stdpp Require Import gmap strings list.
From Stdlib Require Import ZArith Lia.
From S2P Require Import Prelude CString User Grep UPrintf.
Open Scope Z_scope.
Import Ulib UPrintf.

Section Args.
Context {W : Type} `{!Sys W}.

(** [argv[i]] *)
Definition arg (argv i : Z) : U W Z := fun s => Returns (ld64 (u_mem s) (argv + 8 * i)) s.
End Args.

Module Cat.
Section Sys.
Open Scope user_scope.
Context {W : Type} `{!Sys W}.

(** [char buf[512]] *)
Definition cat_buf : Z := 0x2000.

(** [fuel] bounds the number of calls of [read]. *)
Fixpoint cat_loop (fd : Z) (fuel : nat) : U W Z :=
  match fuel with
  | O => unbounded
  | S f =>
      n <- read fd cat_buf 512;;
      if negb (n >? 0) then uret n else
      r <- write 1 cat_buf n;;
      if negb (r =? n) then fprintf 2 (lit "cat: write error" ++ [10]) [];; exit 1 else
      cat_loop fd f
  end.

Definition cat (fd : Z) (fuel : nat) : U W unit :=
  n <- cat_loop fd fuel;;
  if n <? 0 then fprintf 2 (lit "cat: read error" ++ [10]) [];; exit 1 else uret tt.

Fixpoint cat_main_loop (argc argv i : Z) (fuel : nat) (k : nat) : U W Z :=
  match k with
  | O => exit 0
  | S k' =>
      if negb (i <? argc) then exit 0 else
      a <- arg argv i;;
      fd <- open a 0;;
      if fd <? 0 then fprintf 2 (lit "cat: cannot open %s" ++ [10]) [a];; exit 1 else
      cat fd fuel;;
      close fd;;
      cat_main_loop argc argv (i + 1) fuel k'
  end.

Definition cat_main (argc argv : Z) (fuel : nat) : U W Z :=
  if argc <=? 1 then cat 0 fuel;; exit 0 else cat_main_loop argc argv 1 fuel (Z.to_nat argc).
End Sys.
End Cat.

Module Echo.
Section Sys.
Open Scope user_scope.
Context {W : Type} `{!Sys W}.

(** [write(1, " ", 1)] and the like: the bytes of a string constant. *)
Definition write_lit (fd : Z) (bs : list Z) : U W Z := call (sys_write fd bs).

Fixpoint echo_main_loop (argc argv i : Z) (k : nat) : U W Z :=
  match k with
  | O => exit 0
  | S k' =>
      if negb (i <? argc) then exit 0 else
      a <- arg argv i;;
      m <- umem;;
      n <- ulift (strlen m a);;
      write 1 a n;;
      (if i + 1 <? argc then write_lit 1 [32] else write_lit 1 [10]);;
      echo_main_loop argc argv (i + 1) k'
  end.

Definition echo_main (argc argv : Z) : U W Z := echo_main_loop argc argv 1 (Z.to_nat argc).
End Sys.
End Echo.

Module Wc.
Section Sys.
Open Scope user_scope.
Context {W : Type} `{!Sys W}.

(** [char buf[512]] *)
Definition wc_buf : Z := 0x2000.

(** The counters of [wc]. *)
Record counts := mkcounts { c_l : Z; c_w : Z; c_c : Z; c_inword : bool }.

(** The body of the [for] loop, for one byte. *)
Definition count (ct : counts) (b : Z) : counts :=
  let '(mkcounts l w c inword) := ct in
  let c := s32 (c + 1) in
  let l := if b =? 10 then s32 (l + 1) else l in
  if in_chars (32 :: 13 :: 9 :: 10 :: 11 :: []) b then mkcounts l w c false
  else if negb inword then mkcounts l (s32 (w + 1)) c true
  else mkcounts l w c inword.

Fixpoint count_loop (m : mem) (i n : Z) (ct : counts) (k : nat) : counts :=
  match k with
  | O => ct
  | S k' => if negb (i <? n) then ct else count_loop m (i + 1) n (count ct (ld8 m (wc_buf + i))) k'
  end.

Fixpoint wc_loop (fd : Z) (ct : counts) (fuel : nat) : U W (Z * counts) :=
  match fuel with
  | O => unbounded
  | S f =>
      n <- read fd wc_buf 512;;
      if negb (n >? 0) then uret (n, ct) else
      m <- umem;;
      wc_loop fd (count_loop m 0 n ct (Z.to_nat n)) f
  end.

Definition wc (fd name : Z) (fuel : nat) : U W unit :=
  r <- wc_loop fd (mkcounts 0 0 0 false) fuel;;
  if r.1 <? 0 then printf (lit "wc: read error" ++ [10]) [];; exit 1 else
  printf (lit "%d %d %d %s" ++ [10]) [c_l r.2; c_w r.2; c_c r.2; name].

Fixpoint wc_main_loop (argc argv i : Z) (fuel k : nat) : U W Z :=
  match k with
  | O => exit 0
  | S k' =>
      if negb (i <? argc) then exit 0 else
      a <- arg argv i;;
      fd <- open a 0;;
      if fd <? 0 then printf (lit "wc: cannot open %s" ++ [10]) [a];; exit 1 else
      wc fd a fuel;;
      close fd;;
      wc_main_loop argc argv (i + 1) fuel k'
  end.

(** [empty] is the address of the constant [""]. *)
Definition wc_main (argc argv empty : Z) (fuel : nat) : U W Z :=
  if argc <=? 1 then wc 0 empty fuel;; exit 0 else wc_main_loop argc argv 1 fuel (Z.to_nat argc).
End Sys.
End Wc.

Module GrepMain.
Section Sys.
Open Scope user_scope.
Context {W : Type} `{!Sys W}.

Fixpoint grep_main_loop (argc argv pattern i : Z) (fuel k : nat) : U W Z :=
  match k with
  | O => exit 0
  | S k' =>
      if negb (i <? argc) then exit 0 else
      a <- arg argv i;;
      fd <- open a 0;;
      if fd <? 0 then printf (lit "grep: cannot open %s" ++ [10]) [a];; exit 1 else
      Grep.grep pattern fd fuel;;
      close fd;;
      grep_main_loop argc argv pattern (i + 1) fuel k'
  end.

Definition grep_main (argc argv : Z) (fuel : nat) : U W Z :=
  if argc <=? 1 then fprintf 2 (lit "usage: grep pattern [file ...]" ++ [10]) [];; exit 1 else
  pattern <- arg argv 1;;
  if argc <=? 2 then Grep.grep pattern 0 fuel;; exit 0 else
  grep_main_loop argc argv pattern 2 fuel (Z.to_nat argc).
End Sys.
End GrepMain.

Module Kill.
Section Sys.
Open Scope user_scope.
Context {W : Type} `{!Sys W}.

Fixpoint kill_main_loop (argc argv i : Z) (k : nat) : U W Z :=
  match k with
  | O => exit 0
  | S k' =>
      if negb (i <? argc) then exit 0 else
      a <- arg argv i;;
      m <- umem;;
      n <- ulift (atoi m a);;
      kill n;;
      kill_main_loop argc argv (i + 1) k'
  end.

Definition kill_main (argc argv : Z) : U W Z :=
  if argc <? 2 then fprintf 2 (lit "usage: kill pid..." ++ [10]) [];; exit 1 else
  kill_main_loop argc argv 1 (Z.to_nat argc).
End Sys.
End Kill.

Module Ln.
Section Sys.
Open Scope user_scope.
Context {W : Type} `{!Sys W}.

Definition ln_main (argc argv : Z) : U W Z :=
  if negb (argc =? 3) then fprintf 2 (lit "Usage: ln old new" ++ [10]) [];; exit 1 else
  a <- arg argv 1;;
  b <- arg argv 2;;
  r <- link a b;;
  (if r <? 0 then fprintf 2 (lit "link %s %s: failed" ++ [10]) [a; b] else uret tt);;
  exit 0.
End Sys.
End Ln.

(** [mkdir] and [rm] have the same shape. *)
Module Mkdir.
Section Sys.
Open Scope user_scope.
Context {W : Type} `{!Sys W}.

Fixpoint mkdir_main_loop (argc argv i : Z) (k : nat) : U W Z :=
  match k with
  | O => exit 0
  | S k' =>
      if negb (i <? argc) then exit 0 else
      a <- arg argv i;;
      r <- mkdir a;;
      if r <? 0 then fprintf 2 (lit "mkdir: %s failed to create" ++ [10]) [a];; exit 0 else
      mkdir_main_loop argc argv (i + 1) k'
  end.

Definition mkdir_main (argc argv : Z) : U W Z :=
  if argc <? 2 then fprintf 2 (lit "Usage: mkdir files..." ++ [10]) [];; exit 1 else
  mkdir_main_loop argc argv 1 (Z.to_nat argc).
End Sys.
End Mkdir.

Module Rm.
Section Sys.
Open Scope user_scope.
Context {W : Type} `{!Sys W}.

Fixpoint rm_main_loop (argc argv i : Z) (k : nat) : U W Z :=
  match k with
  | O => exit 0
  | S k' =>
      if negb (i <? argc) then exit 0 else
      a <- arg argv i;;
      r <- unlink a;;
      if r <? 0 then fprintf 2 (lit "rm: %s failed to delete" ++ [10]) [a];; exit 0 else
      rm_main_loop argc argv (i + 1) k'
  end.

Definition rm_main (argc argv : Z) : U W Z :=
  if argc <? 2 then fprintf 2 (lit "Usage: rm files..." ++ [10]) [];; exit 1 else
  rm_main_loop argc argv 1 (Z.to_nat argc).
End Sys.
End Rm.

(** ** [cat] and [wc] of a stream *)

Definition space (b : Z) : bool := in_chars (32 :: 13 :: 9 :: 10 :: 11 :: []) b.

(** The number of words of [d]: the bytes that are not spaces and follow a
    space or, when [p], the beginning. *)
Fixpoint words (p : bool) (d : list Z) : Z :=
  match d with
  | [] => 0
  | b :: d' => (if negb (space b) && p then 1 else 0) + words (space b) d'
  end.

Fixpoint newlines (d : list Z) : Z :=
  match d with
  | [] => 0
  | b :: d' => (if b =? 10 then 1 else 0) + newlines d'
  end.

(** The last byte is a space, or there is none. *)
Definition at_space (d : list Z) : bool := match last d with Some b => space b | None => true end.

(** The counters after [d]. *)
Definition counted (d : list Z) : Wc.counts :=
  Wc.mkcounts (newlines d) (words true d) (Z.of_nat (length d)) (negb (at_space d)).

Lemma newlines_snoc d b : newlines (d ++ [b]) = newlines d + if b =? 10 then 1 else 0.
Proof. induction d as [|c d IH]; cbn; [lia|]. rewrite IH. lia. Qed.

Lemma words_snoc p d b :
  words p (d ++ [b]) = words p d + if negb (space b) && (match last d with Some c => space c | None => p end) then 1 else 0.
Proof.
  revert p. induction d as [|c d IH]; intros p; cbn [app words]; [cbn [last]; lia|]. rewrite IH, last_cons.
  destruct (last d); lia.
Qed.

Lemma newlines_range d : 0 <= newlines d <= Z.of_nat (length d).
Proof. induction d as [|c d IH]; cbn [newlines length]; [lia|]. case_match; lia. Qed.

Lemma words_range p d : 0 <= words p d <= Z.of_nat (length d).
Proof. revert p. induction d as [|c d IH]; intros p; cbn [words length]; [lia|]. specialize (IH (space c)). case_match; lia. Qed.

Lemma count_snoc d b : Z.of_nat (length d) < 2 ^ 31 - 1 -> Wc.count (counted d) b = counted (d ++ [b]).
Proof.
  intros Hl. pose proof (newlines_range d). pose proof (words_range true d).
  unfold Wc.count, counted. rewrite newlines_snoc, words_snoc, length_app, !s32_small by lia.
  unfold at_space. rewrite last_snoc. fold (space b). fold (at_space d).
  replace (match last d with Some c => space c | None => true end) with (at_space d) by done.
  replace (Z.of_nat (length d + length [b])) with (Z.of_nat (length d) + 1) by (cbn; lia).
  destruct (b =? 10), (space b) eqn:Es, (at_space d); cbn [negb andb]; f_equal; lia.
Qed.

Lemma count_loop_run m d bs : forall i k,
  (forall j x, bs !! j = Some x -> ld8 m (Wc.wc_buf + i + Z.of_nat j) = x) -> (length bs = k)%nat ->
  Z.of_nat (length (d ++ bs)) < 2 ^ 31 - 1 ->
  Wc.count_loop m i (i + Z.of_nat k) (counted d) k = counted (d ++ bs).
Proof.
  revert d. induction bs as [|b bs IH]; intros d i k Hm Hk Hl; [by rewrite <- Hk, app_nil_r|].
  destruct k as [|k]; [done|]. cbn [Wc.count_loop]. rewrite (proj2 (Z.ltb_lt _ _)) by lia. cbn [negb].
  rewrite length_app in Hl. cbn in Hl.
  assert (E0 : ld8 m (Wc.wc_buf + i) = b) by (rewrite <- (Hm 0%nat b eq_refl); f_equal; lia).
  rewrite E0, count_snoc by lia.
  replace (d ++ b :: bs) with ((d ++ [b]) ++ bs) by (by rewrite <- app_assoc).
  replace (i + Z.of_nat (S k)) with (i + 1 + Z.of_nat k) by lia.
  apply IH; [|cbn in Hk; lia|rewrite !length_app; cbn; lia].
  intros j x Hx. rewrite <- (Hm (S j) x Hx). f_equal. lia.
Qed.

Section Streams.
Context {W : Type} {HS : Sys W} (fd : Z) (st : list Z -> list Z -> W -> Prop) {HSt : Stream fd st}.

(** One [read] of a stream into a buffer of 512 bytes. *)
Lemma read_stream rest out m w buf :
  st rest out w -> exists k w', read fd buf 512 (mkustate m w) = Returns (Z.of_nat k) (mkustate (stbytes buf (take k rest) m) w') /\
    (k <= 512 `min` length rest)%nat /\ (k = 0%nat -> rest = []) /\ st (drop k rest) out w'.
Proof.
  intros Hst. destruct (stream_read rest out w 512 Hst ltac:(lia)) as (k & w' & E & Hn & Hk & H0 & Hst').
  exists k, w'. split; [|split; [lia|done]]. unfold read. cbn [u_world u_mem]. by rewrite E.
Qed.

Lemma stored_at m buf bs j x :
  Forall byte_range bs -> bs !! j = Some x -> ld8 (stbytes buf bs m) (buf + Z.of_nat j) = x.
Proof. intros Hb Hx. rewrite (ld8_stbytes_in _ _ _ _ x) by done. apply u8_small. by eapply Forall_lookup_1. Qed.

Lemma cat_loop_run fuel : forall m w rest out,
  st rest out w -> Forall byte_range rest -> (length rest < fuel)%nat ->
  exists m' w', Cat.cat_loop fd fuel (mkustate m w) = Returns 0 (mkustate m' w') /\ st [] (out ++ rest) w'.
Proof.
  induction fuel as [|f IH]; intros m w rest out Hst Hb Hf; [lia|]. cbn [Cat.cat_loop].
  destruct (read_stream rest out m w Cat.cat_buf Hst) as (k & w1 & E1 & Hk & H0 & Hst1).
  rewrite (ubind_done _ _ _ _ _ E1), Z.gtb_ltb. destruct (Z.ltb_spec 0 (Z.of_nat k)) as [Hpos|Hz]; cbn [negb].
  2: { assert (k = 0%nat) as -> by lia. specialize (H0 eq_refl) as ->. eexists _, w1. split; [done|]. by rewrite app_nil_r. }
  destruct (stream_write _ out w1 (take k rest) Hst1) as (w2 & E2 & Hst2).
  assert (Ew : write 1 Cat.cat_buf (Z.of_nat k) (mkustate (stbytes Cat.cat_buf (take k rest) m) w1) =
    Returns (Z.of_nat k) (mkustate (stbytes Cat.cat_buf (take k rest) m) w2)).
  { assert (Hl : length (take k rest) = k) by (rewrite length_take; lia).
    pose proof (ldbytes_stbytes_same Cat.cat_buf (take k rest) m ltac:(by apply Forall_take)) as El. rewrite Hl in El, E2.
    unfold write. cbn [u_mem u_world]. rewrite Nat2Z.id, El, E2. done. }
  rewrite (ubind_done _ _ _ _ _ Ew), Z.eqb_refl. cbn [negb].
  destruct (IH (stbytes Cat.cat_buf (take k rest) m) w2 (drop k rest) _ Hst2) as (m' & w' & E & Hst');
    [by apply Forall_drop|rewrite length_drop; lia|]. exists m', w'. split; [exact E|].
  by rewrite <- app_assoc, take_drop in Hst'.
Qed.

Lemma wc_loop_run fuel : forall m w done rest out,
  st rest out w -> Forall byte_range rest -> (length rest < fuel)%nat -> Z.of_nat (length (done ++ rest)) < 2 ^ 31 - 1 ->
  exists m' w', Wc.wc_loop fd (counted done) fuel (mkustate m w) = Returns (0, counted (done ++ rest)) (mkustate m' w') /\
    st [] out w' /\ forall a, ~ Wc.wc_buf <= a < Wc.wc_buf + 512 -> ld8 m' a = ld8 m a.
Proof.
  induction fuel as [|f IH]; intros m w done rest out Hst Hb Hf Hl; [lia|]. cbn [Wc.wc_loop].
  destruct (read_stream rest out m w Wc.wc_buf Hst) as (k & w1 & E1 & Hk & H0 & Hst1).
  rewrite (ubind_done _ _ _ _ _ E1), Z.gtb_ltb. destruct (Z.ltb_spec 0 (Z.of_nat k)) as [Hpos|Hz]; cbn [negb].
  2: { assert (k = 0%nat) as -> by lia. specialize (H0 eq_refl) as ->. rewrite app_nil_r. eexists _, w1. split; [done|]. by split. }
  set (bs := take k rest) in *. assert (Hbl : length bs = k) by (unfold bs; rewrite length_take; lia).
  assert (Hbb : Forall byte_range bs) by (by apply Forall_take).
  assert (Hsp : done ++ rest = (done ++ bs) ++ drop k rest) by (unfold bs; by rewrite <- app_assoc, take_drop).
  pose proof (count_loop_run (stbytes Wc.wc_buf bs m) done bs 0 k) as Ec. rewrite Z.add_0_l in Ec.
  ustep. rewrite Nat2Z.id, Ec; [|by intros j x Hx; rewrite Z.add_0_r; apply stored_at|done|rewrite !length_app in *; lia].
  rewrite Hsp in Hl |- *.
  destruct (IH (stbytes Wc.wc_buf bs m) w1 (done ++ bs) (drop k rest) out Hst1) as (m' & w' & E & Hst' & Hfr);
    [by apply Forall_drop|rewrite length_drop; lia|done|]. exists m', w'. split; [exact E|]. split; [done|].
  intros a Ha. rewrite Hfr by done. apply ld8_stbytes_out. lia.
Qed.

(** The output of [%d] and [%s]. *)
Lemma put_int rest out m w n : st rest out w ->
  exists w', printint 1 n 10 true (mkustate m w) = Returns tt (mkustate m w') /\ st rest (out ++ rev (printint_buf n 10 true)) w'.
Proof. intros Hst. apply (putall_run fd st); [done|apply printint_bytes]. Qed.

Lemma putstr_run fuel : forall rest out m w s l, st rest out w -> is_str m s l -> Forall byte_range l -> (length l < fuel)%nat ->
  exists w', putstr 1 s fuel (mkustate m w) = Returns tt (mkustate m w') /\ st rest (out ++ l) w'.
Proof.
  induction fuel as [|f IH]; intros rest out m w s l Hst Hs Hb Hf; [lia|]. cbn [putstr]. ustep. destruct l as [|c l].
  - apply is_str_nil in Hs. rewrite Hs. cbn. exists w. by rewrite app_nil_r.
  - apply is_str_cons in Hs as (Hc & Hn & Hs). apply Forall_cons in Hb as [Hcb Hb]. rewrite Hc, (proj2 (Z.eqb_neq c 0)) by done.
    destruct (putc_run fd st rest out m w c Hst) as (w1 & E1 & H1). rewrite (ubind_done _ _ _ _ _ E1).
    rewrite u8_small in H1 by done. destruct (IH rest _ m w1 (s + 1) l H1 Hs Hb ltac:(cbn in Hf; lia)) as (w2 & E2 & H2).
    exists w2. split; [exact E2|]. by rewrite <- app_assoc in H2.
Qed.
End Streams.

Ltac va_next := cbn [va_arg fst snd]; rewrite ubind_ret; cbn [fst snd]; rewrite s32_small by lia.

Module ProgramProps.

(** [cat] of a stream returns and has written the same bytes, whatever the
    sizes in which [read] delivers them. *)
Theorem cat_copies {W : Type} {HS : Sys W} fd st {HSt : Stream fd st} data out m w :
  Forall byte_range data -> st data out w ->
  exists s', Cat.cat fd (S (length data)) (mkustate m w) = Returns tt s' /\ st [] (out ++ data) (u_world s').
Proof.
  intros Hb Hst. destruct (cat_loop_run fd st (S (length data)) m w data out Hst Hb ltac:(lia)) as (m' & w' & E & Hst').
  exists (mkustate m' w'). split; [|done]. unfold Cat.cat. by rewrite (ubind_done _ _ _ _ _ E).
Qed.

(** A decimal number as [printf] writes it. *)
Definition decimal (n : Z) : list Z := rev (printint_buf n 10 true).

(** [wc] of a stream returns and has written one line: the numbers of
    newlines, words and bytes of the stream, and the name. *)
Theorem wc_counts {W : Type} {HS : Sys W} fd st {HSt : Stream fd st} data out m w name l :
  Forall byte_range data -> Z.of_nat (length data) < 2 ^ 31 - 1 -> st data out w ->
  is_str m name l -> Forall byte_range l -> 0 < name -> name + Z.of_nat (length l) < Wc.wc_buf \/ Wc.wc_buf + 512 <= name ->
  exists s', Wc.wc fd name (S (length data)) (mkustate m w) = Returns tt s' /\
    st [] (out ++ decimal (newlines data) ++ [32] ++ decimal (words true data) ++ [32] ++
           decimal (Z.of_nat (length data)) ++ [32] ++ l ++ [10]) (u_world s').
Proof.
  intros Hb Hl Hst Hs Hlb Hn Hd.
  destruct (wc_loop_run fd st (S (length data)) m w [] data out Hst Hb ltac:(lia) Hl) as (m1 & w1 & E1 & Hst1 & Hfr).
  assert (Hs1 : is_str m1 name l) by (apply (is_str_ext m); [|done]; intros a Ha; apply Hfr; lia).
  pose proof (newlines_range data). pose proof (words_range true data).
  unfold Wc.wc. change (Wc.mkcounts 0 0 0 false) with (counted []). rewrite (ubind_done _ _ _ _ _ E1). cbn [fst snd app].
  cbn [Z.ltb Z.compare]. unfold printf, vprintf. change (lit "%d %d %d %s" ++ [10]) with [37; 100; 32; 37; 100; 32; 37; 100; 32; 37; 115; 10].
  destruct (put_int fd st [] out m1 w1 (newlines data) Hst1) as (w2 & E2 & H2).
  destruct (putc_run fd st [] _ m1 w2 32 H2) as (w3 & E3 & H3).
  destruct (put_int fd st [] _ m1 w3 (words true data) H3) as (w4 & E4 & H4).
  destruct (putc_run fd st [] _ m1 w4 32 H4) as (w5 & E5 & H5).
  destruct (put_int fd st [] _ m1 w5 (Z.of_nat (length data)) H5) as (w6 & E6 & H6).
  destruct (putc_run fd st [] _ m1 w6 32 H6) as (w7 & E7 & H7).
  destruct (putstr_run fd st (mfuel m1) [] _ m1 w7 name l H7 Hs1 Hlb ltac:(by eapply is_str_fuel)) as (w8 & E8 & H8).
  destruct (putc_run fd st [] _ m1 w8 10 H8) as (w9 & E9 & H9).
  exists (mkustate m1 w9). split.
  - cbn [vprintf_loop negb Z.eqb Pos.eqb Wc.c_l Wc.c_w Wc.c_c counted]. va_next.
    rewrite (ubind_done _ _ _ _ _ E2), (ubind_done _ _ _ _ _ E3). va_next.
    rewrite (ubind_done _ _ _ _ _ E4), (ubind_done _ _ _ _ _ E5). va_next.
    rewrite (ubind_done _ _ _ _ _ E6), (ubind_done _ _ _ _ _ E7). cbn [va_arg fst snd]. rewrite ubind_ret. cbn [fst snd].
    assert (Ep : puts_arg 1 name (mkustate m1 w7) = Returns tt (mkustate m1 w8)).
    { unfold puts_arg. ustep. rewrite (proj2 (Z.eqb_neq name 0)) by lia. exact E8. }
    rewrite (ubind_done _ _ _ _ _ Ep), (ubind_done _ _ _ _ _ E9). done.
  - cbn [u_world]. unfold decimal. by rewrite <- !app_assoc in H9.
Qed.

Definition test_input : list Z := [97; 98; 32; 99; 10; 10; 100].

Lemma cat_copies_witness :
  exists s', @Cat.cat pipeline (pipeline_sys 2) 0 8 (mkustate ∅ (test_input, [])) = Returns tt s' /\
    pipeline_at [] test_input (u_world s').
Proof.
  exact (@cat_copies pipeline (pipeline_sys 2) 0 pipeline_at (pipeline_stream 2 0 ltac:(lia)) test_input [] ∅ (test_input, [])
    ltac:(repeat constructor; lia) eq_refl).
Defined.

Lemma wc_counts_witness :
  exists s', @Wc.wc pipeline (pipeline_sys 2) 0 1 8 (mkustate (stbytes 1 [120] ∅) (test_input, [])) = Returns tt s' /\
    pipeline_at [] (decimal 2 ++ [32] ++ decimal 3 ++ [32] ++ decimal 7 ++ [32] ++ [120] ++ [10]) (u_world s').
Proof.
  exact (@wc_counts pipeline (pipeline_sys 2) 0 pipeline_at (pipeline_stream 2 0 ltac:(lia)) test_input [] (stbytes 1 [120] ∅)
    (test_input, []) 1 [120] ltac:(repeat constructor; lia) ltac:(done) eq_refl ltac:(split; vm_compute; reflexivity)
    ltac:(repeat constructor; lia) ltac:(lia) ltac:(left; vm_compute; reflexivity)).
Defined.
End ProgramProps.
