(* ===== verification/UMalloc.v ===== *)
(** * The memory allocator of user programs ([user/umalloc.c])

    [malloc] and [free] keep the free blocks in a circular list in order of
    address, threaded through the headers of the blocks in memory. This file
    translates them over the program's bytes and proves that, for a process
    whose break moves as [sbrk] documents, blocks in use never overlap and
    keep their bytes, no byte is lost, and both functions return. *)

From stdpp Require Import gmap strings list.
From Stdlib Require Import ZArith Lia.
From S2P Require Import Prelude CString User.
Open Scope Z_scope.

Module UMalloc.

(** ** The code *)

(** [static Header *freep] and [static Header base] *)
Definition loc_freep : Z := 0x3000.
Definition loc_base : Z := 0x3010.

(** [sizeof(Header)] *)
Definition sizeof_Header : Z := 16.

(** The members [s.ptr] and [s.size] of a [Header], and stores to them. *)
Definition hptr (m : mem) (p : Z) : Z := ld64 m p.
Definition hsize (m : mem) (p : Z) : Z := le_dec (ldbytes m (p + 8) 4).
Definition set_hptr (p v : Z) : mem -> mem := st64 p v.
Definition set_hsize (p v : Z) : mem -> mem := stbytes (p + 8) (le_enc 4 v).

(** [p + n] for a [Header *p] *)
Definition hadd (p n : Z) : Z := u64 (p + n * sizeof_Header).

(** The search of [free] for the block before [bp]. *)
Fixpoint free_loop (m : mem) (bp p : Z) (fuel : nat) : option Z :=
  match fuel with
  | O => None
  | S f =>
      let next := hptr m p in
      if (p <? bp) && (bp <? next) then Some p
      else if (next <=? p) && ((p <? bp) || (bp <? next)) then Some p
      else free_loop m bp next f
  end.

(** The two merges of [free], after the search found [p]. *)
Definition join_next (m : mem) (bp p : Z) : mem :=
  if hadd bp (hsize m bp) =? hptr m p then
    let m := set_hsize bp (u32 (hsize m bp + hsize m (hptr m p))) m in
    set_hptr bp (hptr m (hptr m p)) m
  else set_hptr bp (hptr m p) m.

Definition join_prev (m : mem) (bp p : Z) : mem :=
  if hadd p (hsize m p) =? bp then
    let m := set_hsize p (u32 (hsize m p + hsize m bp)) m in
    set_hptr p (hptr m bp) m
  else set_hptr p bp m.

(** Every block of the list has a header in memory, so the memory bounds the
    search. *)
Definition free (m : mem) (ap : Z) : option mem :=
  let bp := hadd ap (-1) in
  p ← free_loop m bp (ld64 m loc_freep) (mfuel m);
  Some (st64 loc_freep p (join_prev (join_next m bp p) bp p)).

Section Malloc.
Open Scope user_scope.
Context {W : Type} `{!Sys W}.

Definition morecore (nu : Z) : U W Z :=
  let nu := if nu <? 4096 then 4096 else nu in
  p <- sbrk (s32 (u64 (nu * sizeof_Header)));;
  if p =? -1 then uret 0 else
  uset (set_hsize p nu);;
  m <- umem;;
  m' <- ulift (free m (hadd p 1));;
  uset (fun _ => m');;
  uret (ld64 m' loc_freep).

Fixpoint malloc_loop (nunits prevp p : Z) (fuel : nat) : U W Z :=
  match fuel with
  | O => unbounded
  | S f =>
      m <- umem;;
      if nunits <=? hsize m p then
        (if hsize m p =? nunits then
           uset (set_hptr prevp (hptr m p));;
           uset (st64 loc_freep prevp);;
           uret (hadd p 1)
         else
           let rest := u32 (hsize m p - nunits) in
           uset (set_hsize p rest);;
           let p := hadd p rest in
           uset (set_hsize p nunits);;
           uset (st64 loc_freep prevp);;
           uret (hadd p 1))
      else if p =? ld64 m loc_freep then
        p <- morecore nunits;;
        if p =? 0 then uret 0 else
        m <- umem;;
        malloc_loop nunits p (hptr m p) f
      else malloc_loop nunits p (hptr m p) f
  end.

(** One turn around the list, and another after [morecore] has added a
    block. *)
Definition malloc (nbytes : Z) : U W Z :=
  let nunits := u32 (u64 (nbytes + sizeof_Header - 1) / sizeof_Header + 1) in
  m <- umem;;
  (if ld64 m loc_freep =? 0 then
     uset (st64 loc_freep loc_base);;
     uset (set_hptr loc_base loc_base);;
     uset (set_hsize loc_base 0)
   else uret tt);;
  m <- umem;;
  let prevp := ld64 m loc_freep in
  malloc_loop nunits prevp (hptr m prevp) (2 * mfuel m).
End Malloc.

(** ** Headers in memory *)

Definition in_header (p x : Z) : Prop := p <= x < p + 12.

Lemma hptr_ext m m' p : (forall x, in_header p x -> ld8 m' x = ld8 m x) -> hptr m' p = hptr m p.
Proof. intros H. apply ld64_ext. intros x Hx. apply H. unfold in_header. lia. Qed.

Lemma hsize_ext m m' p : (forall x, in_header p x -> ld8 m' x = ld8 m x) -> hsize m' p = hsize m p.
Proof. intros H. unfold hsize. f_equal. apply ldbytes_ext. intros x Hx. apply H. unfold in_header. lia. Qed.

Lemma ld8_set_hptr p v m x : ~ in_header p x -> ld8 (set_hptr p v m) x = ld8 m x.
Proof. intros H. apply ld8_st64_out. unfold in_header in H. lia. Qed.

Lemma ld8_set_hsize p v m x : ~ in_header p x -> ld8 (set_hsize p v m) x = ld8 m x.
Proof. intros H. apply ld8_stbytes_out. rewrite length_le_enc. unfold in_header in H. lia. Qed.

Lemma hptr_set_hptr p v m : 0 <= v < 2 ^ 64 -> hptr (set_hptr p v m) p = v.
Proof. intros. unfold hptr, set_hptr. by rewrite ld64_st64_same, u64_small. Qed.

Lemma hptr_set_hsize p v m : hptr (set_hsize p v m) p = hptr m p.
Proof. apply ld64_stbytes_disj. lia. Qed.

Lemma hsize_set_hsize p v m : 0 <= v < 2 ^ 32 -> hsize (set_hsize p v m) p = v.
Proof.
  intros. unfold hsize, set_hsize. rewrite <- (length_le_enc 4 v) at 1.
  rewrite ldbytes_stbytes_same by apply le_enc_bytes. rewrite (le_dec_enc 4). by apply Z.mod_small.
Qed.

Lemma hsize_set_hptr p v m : hsize (set_hptr p v m) p = hsize m p.
Proof. unfold hsize. f_equal. apply ldbytes_ext. intros x Hx. apply ld8_st64_out. lia. Qed.

(** ** The list of blocks *)

(** A block is the address of its header and its size in headers. *)
Notation block := (Z * Z)%type.

Definition first (z : Z) (L : list block) : Z := match L with [] => z | b :: _ => b.1 end.

(** The headers of [L], each pointing to the next and the last one to [z]. *)
Fixpoint chain (m : mem) (L : list block) (z : Z) : Prop :=
  match L with
  | [] => True
  | b :: L' => hsize m b.1 = b.2 /\ hptr m b.1 = first z L' /\ chain m L' z
  end.

(** The blocks lie between [lo] and [hi], in order and apart. A block takes at
    least its header. *)
Definition bend (b : block) : Z := b.1 + 16 * Z.max 1 b.2.

Fixpoint above (lo : Z) (L : list block) (hi : Z) : Prop :=
  match L with
  | [] => lo <= hi
  | b :: L' => lo <= b.1 /\ 0 <= b.2 /\ above (bend b) L' hi
  end.

(** The bytes of the blocks. *)
Definition inb (b : block) (x : Z) : Prop := b.1 <= x < b.1 + 16 * b.2.
Definition cov (L : list block) (x : Z) : Prop := exists b, b ∈ L /\ inb b x.

Lemma cov_nil x : cov [] x <-> False.
Proof. split; [|done]. intros (b & Hb & _). by apply elem_of_nil in Hb. Qed.

Lemma cov_cons b L x : cov (b :: L) x <-> inb b x \/ cov L x.
Proof.
  unfold cov. split.
  - intros (c & Hc & Hx). apply elem_of_cons in Hc as [->|Hc]; eauto.
  - intros [H|(c & Hc & Hx)]; [exists b|exists c]; split; auto; rewrite elem_of_cons; auto.
Qed.

Lemma cov_app A B x : cov (A ++ B) x <-> cov A x \/ cov B x.
Proof. unfold cov. setoid_rewrite elem_of_app. naive_solver. Qed.

Lemma first_app z A B : first z (A ++ B) = first (first z B) A.
Proof. by destruct A. Qed.

Lemma chain_app m A B z : chain m (A ++ B) z <-> chain m A (first z B) /\ chain m B z.
Proof. induction A as [|a A IH]; simpl; [tauto|]. rewrite first_app, IH. tauto. Qed.

Lemma above_le lo L hi : above lo L hi -> lo <= hi.
Proof.
  revert lo. induction L as [|b L IH]; intros lo; simpl; [done|].
  intros (H1 & H2 & H3). apply IH in H3. unfold bend in H3. lia.
Qed.

Lemma above_app lo A B hi : above lo (A ++ B) hi <-> exists mid, above lo A mid /\ above mid B hi.
Proof.
  revert lo. induction A as [|b A IH]; intros lo; simpl.
  - split; [|intros (mid & H1 & H2)]; [intros H; exists lo; split; [lia|done]|].
    destruct B; simpl in *; [lia|]. intuition lia.
  - rewrite IH. naive_solver.
Qed.

Lemma above_weaken lo lo' L hi : lo' <= lo -> above lo L hi -> above lo' L hi.
Proof. destruct L; simpl; intuition lia. Qed.

Lemma above_raise lo L hi hi' : hi <= hi' -> above lo L hi -> above lo L hi'.
Proof. revert lo. induction L as [|b L IH]; intros lo H; simpl; [lia|]. naive_solver. Qed.

Lemma above_elem lo L hi b : above lo L hi -> b ∈ L -> lo <= b.1 /\ 0 <= b.2 /\ bend b <= hi.
Proof.
  revert lo. induction L as [|c L IH]; intros lo; simpl; [by intros _ ?%elem_of_nil|].
  intros (H1 & H2 & H3) [->|Hb]%elem_of_cons; [by apply above_le in H3|].
  apply (IH _ H3) in Hb. unfold bend in *. lia.
Qed.

(** A change outside the headers keeps the list. *)
Lemma chain_ext m m' L z :
  (forall b x, b ∈ L -> in_header b.1 x -> ld8 m' x = ld8 m x) -> chain m L z -> chain m' L z.
Proof.
  induction L as [|b L IH]; simpl; [done|]. intros H (H1 & H2 & H3). split_and!.
  - rewrite (hsize_ext m m'); [done|]. intros x. apply H. left.
  - rewrite (hptr_ext m m'); [done|]. intros x. apply H. left.
  - apply IH; [|done]. intros c x Hc. apply H. by right.
Qed.

(** ** Putting a block into the list *)

Definition ins_next (b : block) (B : list block) : list block :=
  match B with
  | [] => [b]
  | c :: B' => if b.1 + 16 * b.2 =? c.1 then (b.1, b.2 + c.2) :: B' else b :: B
  end.

Lemma hadd_eq p n : 0 <= p + 16 * n < 2 ^ 64 -> hadd p n = p + 16 * n.
Proof. intros. unfold hadd, sizeof_Header. rewrite u64_small; lia. Qed.

(** A header away from the stores. *)
Ltac frame := let x := fresh "x" in let H := fresh "H" in
  intros x H; rewrite ?ld8_set_hptr, ?ld8_set_hsize by (unfold in_header in *; lia); done.

Definition positive (L : list block) : Prop := Forall (fun b => 0 < b.2) L.

Lemma ins_next_above lo b B hi :
  lo <= b.1 -> 0 <= b.2 -> above (bend b) B hi -> positive B -> above lo (ins_next b B) hi.
Proof.
  intros Hlo Hb Hab Hpos. unfold ins_next. destruct B as [|c B']; [done|].
  pose proof Hab as (H4 & H5 & H6). inversion_clear Hpos as [|? ? H7 H8]. unfold bend in H4.
  destruct (Z.eqb_spec (b.1 + 16 * b.2) c.1) as [E|E]; [|done]. cbn [above fst snd]. split_and!; [lia..|].
  unfold bend in *. simpl. replace (b.1 + 16 * Z.max 1 _) with (c.1 + 16 * Z.max 1 c.2) by lia. done.
Qed.

Lemma ins_next_cov b B x : 0 <= b.2 -> positive B -> cov (ins_next b B) x <-> inb b x \/ cov B x.
Proof.
  intros Hb Hpos. unfold ins_next. destruct B as [|c B']; [by rewrite cov_cons|].
  inversion_clear Hpos as [|? ? H7 H8]. destruct (Z.eqb_spec (b.1 + 16 * b.2) c.1) as [E|E]; [|by rewrite cov_cons].
  rewrite !cov_cons. unfold inb. simpl. split; intros; intuition lia.
Qed.

Lemma ins_next_head bp nb B : 0 < nb -> positive B -> exists n B', ins_next (bp, nb) B = (bp, n) :: B' /\ nb <= n /\ positive B'.
Proof.
  intros Hn Hpos. unfold ins_next. destruct B as [|c B']; [by eexists _, _|]. inversion_clear Hpos as [|? ? H7 H8].
  simpl. case_match; eexists _, _; (split; [done|]); split; try lia; [done|]. by constructor.
Qed.

Section Join.
Context (m : mem) (p bp nb z hi : Z) (B : list block).
Hypothesis (Hp : 0 <= p) (Hpb : p + 16 <= bp) (Hz : 0 <= z < bp) (Hnb : 0 < nb) (Hhi : hi <= 2 ^ 36).
Hypothesis (Hfirst : hptr m p = first z B) (Hsize : hsize m bp = nb) (HB : chain m B z) (Hab : above (bp + 16 * nb) B hi) (Hpos : positive B).

Lemma join_next_frame x : ~ in_header bp x -> ld8 (join_next m bp p) x = ld8 m x.
Proof. intros H. unfold join_next. case_match; by rewrite ?ld8_set_hptr, ?ld8_set_hsize. Qed.

Lemma join_next_chain : chain (join_next m bp p) (ins_next (bp, nb) B) z.
Proof.
  pose proof (above_le _ _ _ Hab) as Hle. unfold join_next. rewrite Hfirst, Hsize, hadd_eq by lia.
  destruct B as [|[q nq] B']; simpl in *.
  - destruct (Z.eqb_spec (bp + 16 * nb) z); [lia|]. simpl. by rewrite hsize_set_hptr, hptr_set_hptr by lia.
  - destruct HB as (H1 & H2 & H3), Hab as (H4 & H5 & H6). inversion_clear Hpos as [|? ? H7 H8]. simpl in H7.
    pose proof (above_le _ _ _ H6) as Hle'. unfold bend in Hle', H6. simpl in Hle', H6.
    assert (Hf : 0 <= first z B' < 2 ^ 64).
    { destruct B' as [|c B']; simpl; [lia|]. simpl in H6. destruct H6 as (H9 & H10 & H11). apply above_le in H11. unfold bend in H11. lia. }
    destruct (Z.eqb_spec (bp + 16 * nb) q) as [E|E]; simpl.
    + rewrite H1, u32_small by lia. rewrite (hptr_ext m (set_hsize bp (nb + nq) m) p) by frame. rewrite Hfirst.
      rewrite (hptr_ext m (set_hsize bp (nb + nq) m) q) by frame. rewrite H2.
      rewrite hsize_set_hptr, hsize_set_hsize, hptr_set_hptr by lia. split_and!; [done..|].
      eapply chain_ext; [|exact H3]. intros b x Hb Hx. eapply above_elem in Hb; [|exact H6]. revert x Hx. frame.
    + rewrite hsize_set_hptr, hptr_set_hptr by lia. split_and!; [done..| | |].
      * rewrite (hsize_ext m) by frame. done.
      * rewrite (hptr_ext m) by frame. done.
      * eapply chain_ext; [|exact H3]. intros b x Hb Hx. eapply above_elem in Hb; [|exact H6]. revert x Hx. frame.
Qed.

(** The block before it *)
Lemma join_prev_frame m1 x : ~ in_header p x -> ld8 (join_prev m1 bp p) x = ld8 m1 x.
Proof. intros H. unfold join_prev. case_match; by rewrite ?ld8_set_hptr, ?ld8_set_hsize. Qed.

End Join.

Section JoinPrev.
Context (m : mem) (p np bp n z hi : Z) (C : list block).
Hypothesis (Hp : 0 < p) (Hnp : 0 <= np) (Hpb : bend (p, np) <= bp) (Hn : 0 < n) (Hhi : hi <= 2 ^ 36).
Hypothesis (Hsize : hsize m p = np) (Hch : chain m ((bp, n) :: C) z) (Hab : above bp ((bp, n) :: C) hi) (Hz : 0 <= z < 2 ^ 64).

Lemma join_prev_chain : chain (join_prev m bp p) (ins_next (p, np) ((bp, n) :: C)) z.
Proof.
  unfold join_prev, bend in *. simpl in *. destruct Hch as (H1 & H2 & H3), Hab as (_ & _ & H6).
  pose proof (above_le _ _ _ H6) as Hle. unfold bend in *. simpl in *. rewrite Hsize, hadd_eq by lia.
  assert (Hf : 0 <= first z C < 2 ^ 64).
  { destruct C as [|c C']; simpl; [lia|]. simpl in H6. destruct H6 as (H9 & H10 & H11). apply above_le in H11. unfold bend in H11. lia. }
  assert (HC : forall m', (forall x, ~ in_header p x -> ld8 m' x = ld8 m x) -> chain m' C z).
  { intros m' Hm. eapply chain_ext; [|exact H3]. intros b x Hb Hx. eapply above_elem in Hb; [|exact H6]. apply Hm.
    unfold in_header in *. lia. }
  destruct (Z.eqb_spec (p + 16 * np) bp) as [E|E]; simpl.
  - rewrite H1, u32_small by lia. rewrite (hptr_ext m (set_hsize p (np + n) m) bp) by frame. rewrite H2.
    rewrite hsize_set_hptr, hsize_set_hsize, hptr_set_hptr by lia. split_and!; [done..|]. apply HC. frame.
  - rewrite hsize_set_hptr, hptr_set_hptr by lia. split_and!; [done..| | |].
    + rewrite (hsize_ext m) by frame. done.
    + rewrite (hptr_ext m) by frame. done.
    + apply HC. frame.
Qed.
End JoinPrev.

(** ** Finding the place *)

Definition stop (m : mem) (bp p : Z) : bool :=
  (p <? bp) && (bp <? hptr m p) || (hptr m p <=? p) && ((p <? bp) || (bp <? hptr m p)).

Lemma free_loop_walk m bp p R z f :
  chain m R z -> (forall c, c ∈ R -> c.1 <> p -> stop m bp c.1 = false) -> stop m bp p = true ->
  (exists c, c ∈ R /\ c.1 = p) -> (length R <= f)%nat -> free_loop m bp (first z R) f = Some p.
Proof.
  revert f. induction R as [|c R IH]; intros f Hch Hno Hp (d & Hd & Hdp) Hf; [by apply elem_of_nil in Hd|].
  destruct Hch as (_ & Hn & Hch). destruct f as [|f]; [simpl in Hf; lia|]. cbn [free_loop first].
  destruct (decide (c.1 = p)) as [E|E].
  - rewrite E. unfold stop in Hp. destruct (_ && (bp <? _)); [done|]. simpl in Hp. by rewrite Hp.
  - pose proof (Hno c ltac:(left) E) as Hs. unfold stop in Hs. apply orb_false_iff in Hs as [-> ->].
    rewrite Hn. apply IH; [done| |done| |simpl in Hf; lia].
    + intros e He. apply Hno. by right.
    + exists d. split; [|done]. apply elem_of_cons in Hd as [->|]; done.
Qed.

Lemma chain_before m A y lo c : chain m A y -> above lo A y -> c ∈ A -> c.1 < hptr m c.1 <= y.
Proof.
  revert lo. induction A as [|b A IH]; intros lo Hch Hab Hc; [by apply elem_of_nil in Hc|].
  destruct Hch as (_ & Hn & Hch), Hab as (H1 & H2 & H3). apply elem_of_cons in Hc as [->|Hc]; [|by eapply IH].
  rewrite Hn. pose proof (above_le _ _ _ H3) as Hle. unfold bend in *. destruct A as [|a A]; simpl in *; [lia|].
  destruct H3 as (H4 & H5 & H6). apply above_le in H6. unfold bend in H6. lia.
Qed.

Lemma chain_after m B z lo hi c : chain m B z -> above lo B hi -> c ∈ B -> hptr m c.1 = z \/ c.1 < hptr m c.1.
Proof.
  revert lo. induction B as [|b B IH]; intros lo Hch Hab Hc; [by apply elem_of_nil in Hc|].
  destruct Hch as (_ & Hn & Hch), Hab as (H1 & H2 & H3). apply elem_of_cons in Hc as [->|Hc]; [|by eapply IH].
  rewrite Hn. unfold bend in *. destruct B as [|a B]; simpl in *; [by left|right; lia].
Qed.

(** The list can be read from any of its blocks on. *)
Lemma chain_rotate m C x D z : first z (C ++ x :: D) = z -> chain m (C ++ x :: D) z -> chain m (x :: D ++ C) x.1.
Proof.
  rewrite chain_app, first_app. intros Hz [H1 H2]. rewrite app_comm_cons, chain_app. split; [|done].
  destruct C; simpl in *; [by subst z|]. by subst z.
Qed.

Lemma free_loop_find m bp A p B lo hi x f :
  let L := A ++ p :: B in
  chain m L lo -> first lo L = lo -> above lo L hi -> bend p <= bp -> above (bp + 1) B hi -> x ∈ L -> (length L <= f)%nat ->
  free_loop m bp x.1 f = Some p.1.
Proof.
  intros L Hch Hz Hab Hbp HB Hx Hf. pose proof Hx as (C & D & E)%list_elem_of_split. rewrite E in Hz.
  assert (Hr : chain m (x :: D ++ C) x.1) by (apply (chain_rotate m C x D lo); [done|by rewrite <- E]).
  assert (Hin : forall c, c ∈ x :: D ++ C <-> c ∈ L) by (intros c; rewrite E; set_solver).
  unfold L in Hch, Hab. apply chain_app in Hch as [H1 (_ & H2 & H3)]. apply above_app in Hab as (mid & H4 & H5 & H6 & H7).
  apply above_raise with (hi' := p.1) in H4; [|done]. unfold bend in Hbp.
  change x.1 with (first x.1 (x :: D ++ C)). apply free_loop_walk; [done| | | |].
  - intros c Hc Hcp. apply Hin in Hc. apply elem_of_app in Hc as [Hc|[->|Hc]%elem_of_cons]; [|done|].
    + pose proof (chain_before _ _ _ _ _ H1 H4 Hc) as Hn. simpl in Hn. unfold stop.
      destruct (Z.ltb_spec bp (hptr m c.1)); [lia|]. destruct (Z.leb_spec (hptr m c.1) c.1); [lia|]. by rewrite andb_false_r.
    + pose proof (chain_after _ _ _ _ _ _ H3 HB Hc) as Hn. pose proof (above_elem _ _ _ _ HB Hc) as (Hc1 & _).
      pose proof (above_elem _ _ _ c H7 Hc) as (Hc2 & _). unfold bend in Hc2.
      unfold stop. destruct (Z.ltb_spec c.1 bp); [lia|]. simpl. destruct Hn as [->|Hn].
      * pose proof (above_le _ _ _ H4). destruct (Z.ltb_spec bp lo); [lia|]. by rewrite andb_false_r.
      * destruct (Z.leb_spec (hptr m c.1) c.1); [lia|done].
  - unfold stop. rewrite H2. destruct (Z.ltb_spec p.1 bp); [|lia]. simpl. destruct B as [|b B']; simpl.
    + pose proof (above_le _ _ _ H4). destruct (Z.leb_spec lo p.1); [|lia]. by rewrite orb_true_r.
    + destruct HB as (HB1 & _). destruct (Z.ltb_spec bp b.1); [done|lia].
  - exists p. split; [|done]. apply Hin. unfold L. set_solver.
  - rewrite <- Hf, E. rewrite length_app. simpl. rewrite length_app. lia.
Qed.

(** ** The memory bounds the list *)

Lemma header_key m a : hptr m a <> 0 -> exists k, a <= k < a + 8 /\ k ∈ dom m.
Proof.
  intros H. destruct (decide (Exists (fun i => a + Z.of_nat i ∈ dom m) (seq 0 8))) as [Hex|Hno].
  - apply Exists_exists in Hex as (i & Hi & Hk). apply elem_of_seq in Hi. exists (a + Z.of_nat i). split; [lia|done].
  - destruct H. apply ld64_zero. intros i Hi. unfold ld8.
    destruct (m !! (a + i)) as [v|] eqn:E; [|done]. destruct Hno. apply Exists_exists. exists (Z.to_nat i).
    split; [apply elem_of_seq; lia|]. rewrite Z2Nat.id by lia. apply elem_of_dom. eauto.
Qed.

Lemma headers_keys m L lo hi :
  above lo L hi -> (forall b, b ∈ L -> hptr m b.1 <> 0) ->
  exists ks, length ks = length L /\ NoDup ks /\ forall k, k ∈ ks -> lo <= k /\ k ∈ dom m.
Proof.
  revert lo. induction L as [|b L IH]; intros lo Hab Hn; [exists []; split_and!; [done|constructor|by intros k ?%elem_of_nil]|].
  destruct Hab as (H1 & H2 & H3). destruct (IH _ H3) as (ks & Hl & Hd & Hks); [intros c Hc; apply Hn; by right|].
  destruct (header_key m b.1) as (k & Hk & Hkm); [apply Hn; left|]. exists (k :: ks). split_and!.
  - simpl. by rewrite Hl.
  - constructor; [|done]. intros Hin. apply Hks in Hin as [Hin _]. unfold bend in Hin. lia.
  - intros j [->|Hj]%elem_of_cons; [split; [lia|done]|]. apply Hks in Hj as [Hj1 Hj2]. unfold bend in Hj1. split; [lia|done].
Qed.

Lemma chain_length m L lo hi : 0 < lo -> above lo L hi -> first lo L = lo -> chain m L lo -> (length L <= size m)%nat.
Proof.
  intros Hlo Hab Hf Hch. destruct (headers_keys m L lo hi Hab) as (ks & Hl & Hd & Hks).
  - intros b Hb. pose proof (chain_after _ _ _ _ _ _ Hch Hab Hb) as [->|]; [lia|].
    pose proof (above_elem _ _ _ _ Hab Hb). lia.
  - rewrite <- Hl, <- (size_list_to_set (C := gset Z) ks Hd), <- size_dom. apply subseteq_size. intros k Hk.
    apply elem_of_list_to_set in Hk. by apply Hks.
Qed.

(** ** The state of the allocator *)

(** No byte is in two of the blocks. *)
Fixpoint disjoint (U : list block) : Prop :=
  match U with
  | [] => True
  | b :: U' => (forall x, inb b x -> cov U' x -> False) /\ disjoint U'
  end.

#[global] Instance cov_perm : Proper ((≡ₚ) ==> (=) ==> iff) cov.
Proof. intros U U' H x ? <-. unfold cov. by setoid_rewrite H. Qed.

#[global] Instance disjoint_perm : Proper ((≡ₚ) ==> iff) disjoint.
Proof.
  intros U U' H. induction H as [|b U U' H IH|b c U|U U' U'' _ IH1 _ IH2]; simpl; [done| | |by rewrite IH1].
  - rewrite IH. by setoid_rewrite H.
  - setoid_rewrite cov_cons. naive_solver.
Qed.

(** [L] is the list of free blocks, [base] first, and [U] the blocks in use,
    each with its size in its header; all lie below the break [top]. *)
Record heap (m : mem) (top : Z) (L U : list block) : Prop := mkheap {
  heap_base : exists bs, L = (loc_base, 0) :: bs /\ positive bs;
  heap_chain : chain m L loc_base;
  heap_above : above loc_base L top;
  heap_freep : exists b, b ∈ L /\ ld64 m loc_freep = b.1;
  heap_used : Forall (fun b => 0 < b.2 /\ hsize m b.1 = b.2 /\ loc_base + 16 <= b.1 /\ b.1 + 16 * b.2 <= top) U;
  heap_disjoint : disjoint U;
  heap_apart : forall x, cov L x -> cov U x -> False }.

#[global] Instance heap_perm m top L : Proper ((≡ₚ) ==> iff) (heap m top L).
Proof.
  assert (H : forall U U', U ≡ₚ U' -> heap m top L U -> heap m top L U').
  { intros U U' H [H1 H2 H3 H4 H5 H6 H7]. split; [done..| | |].
    - by rewrite <- H.
    - by rewrite <- H.
    - intros x. rewrite <- H. apply H7. }
  intros U U' HU. split; by apply H.
Qed.

(** A used block lies between two neighbours of the list. *)
Lemma split_at b bs hi a n :
  above (bend b) bs hi -> positive bs -> bend b <= a -> 0 < n -> a + 16 * n <= hi ->
  (forall x, cov bs x -> inb (a, n) x -> False) ->
  exists A p B, b :: bs = A ++ p :: B /\ bend p <= a /\ above (a + 16 * n) B hi.
Proof.
  revert b. induction bs as [|c bs IH]; intros b Hab Hpos Hb Hn Hhi Hd; [by exists [], b, []|].
  inversion_clear Hpos as [|? ? Hc Hpos']. destruct Hab as (H1 & H2 & H3).
  destruct (Z_le_gt_dec (bend c) a) as [Hca|Hca].
  - destruct (IH c) as (A & p & B & -> & Hp & HB); [done..| |].
    { intros x Hx. apply Hd. rewrite cov_cons. by right. }
    by exists (b :: A), p, B.
  - exists [], b, (c :: bs). split; [done|]. split; [done|]. split; [|done].
    destruct (Z_le_gt_dec (a + 16 * n) c.1) as [|Hlt]; [done|]. exfalso. unfold bend in Hca.
    apply (Hd (Z.max a c.1)); [rewrite cov_cons; left|]; unfold inb; simpl; lia.
Qed.

Lemma heap_sizes m top L U b : heap m top L U -> b ∈ L -> 0 < b.2 \/ b = (loc_base, 0).
Proof.
  intros [(bs & -> & Hpos) _ _ _ _ _ _] Hb. apply elem_of_cons in Hb as [->|Hb]; [by right|left].
  unfold positive in Hpos. rewrite Forall_forall in Hpos. by apply Hpos.
Qed.

(** What [malloc] and [free] keep for themselves. *)
Definition own (x : Z) : Prop := loc_freep <= x < loc_base + 16.

(** The header of a free block is in the free bytes. *)
Lemma header_free m top L U b x : heap m top L U -> b ∈ L -> in_header b.1 x -> cov L x \/ own x.
Proof.
  intros H Hb Hx. destruct (heap_sizes _ _ _ _ _ H Hb) as [Hs| ->].
  - left. exists b. split; [done|]. unfold inb, in_header in *. lia.
  - right. unfold own, in_header, loc_freep, loc_base in *. simpl in Hx. lia.
Qed.

(** Blocks in use keep their headers under changes elsewhere. *)
Lemma used_ext m m' top top' (U : list block) :
  (forall x, cov U x -> ld8 m' x = ld8 m x) -> top <= top' ->
  Forall (fun b => 0 < b.2 /\ hsize m b.1 = b.2 /\ loc_base + 16 <= b.1 /\ b.1 + 16 * b.2 <= top) U ->
  Forall (fun b => 0 < b.2 /\ hsize m' b.1 = b.2 /\ loc_base + 16 <= b.1 /\ b.1 + 16 * b.2 <= top') U.
Proof.
  intros Hx Ht. rewrite !Forall_forall. intros H b Hb. destruct (H b Hb) as (H1 & H2 & H3 & H4). split_and!; [done| |done|lia].
  rewrite (hsize_ext m m'); [done|]. intros x Hin. apply Hx. exists b. split; [done|]. unfold inb, in_header in *. lia.
Qed.

Lemma used_not_own m top L U x : heap m top L U -> cov U x -> ~ own x.
Proof.
  intros H (b & Hb & Hx). pose proof (heap_used _ _ _ _ H) as Hu. rewrite Forall_forall in Hu.
  destruct (Hu b Hb) as (_ & _ & H1 & _). unfold own, inb in *. lia.
Qed.

Lemma first_ins_next z b B : first z (ins_next b B) = b.1.
Proof. unfold ins_next. destruct B; [done|]. by case_match. Qed.

Lemma length_ins_next b B : (length (ins_next b B) <= S (length B))%nat.
Proof. unfold ins_next. destruct B; [done|]. case_match; simpl; lia. Qed.

Lemma ins_next_positive b B : 0 < b.2 -> positive B -> positive (ins_next b B).
Proof.
  intros Hb Hpos. unfold ins_next. destruct B as [|c B']; [by repeat constructor|].
  inversion_clear Hpos as [|? ? Hc Hpos']. case_match; constructor; simpl; try lia; [done|]. by constructor.
Qed.

(** [free] after the search: the block joins the list between [p] and [B]. *)
Section Link.
Context (m : mem) (top a n : Z) (A B : list block) (p : block).
Notation m' := (st64 loc_freep p.1 (join_prev (join_next m a p.1) a p.1)).
Notation L' := (A ++ ins_next p (ins_next (a, n) B)).
Hypothesis (Hch : chain m (A ++ p :: B) loc_base) (Hab : above loc_base (A ++ p :: B) top) (Htop : top <= 2 ^ 36).
Hypothesis (Hn : 0 < n) (Hsz : hsize m a = n) (Hp : bend p <= a) (HB : above (a + 16 * n) B top) (Hpos : positive B).

Lemma link_frame x : ~ in_header a x -> ~ in_header p.1 x -> ~ own x -> ld8 m' x = ld8 m x.
Proof.
  intros H1 H2 H3. rewrite ld8_st64_out, join_prev_frame, join_next_frame; [done..|]. unfold own, loc_base, loc_freep in *. lia.
Qed.

Lemma link_above : above loc_base L' top.
Proof.
  apply above_app in Hab as (mid & H1 & H2 & H3 & H4). apply above_app. exists mid. split; [done|].
  apply ins_next_above; [done..| |by apply ins_next_positive].
  apply ins_next_above; [done|simpl; lia| |done]. unfold bend. simpl. by rewrite Z.max_r by lia.
Qed.

Lemma link_freep : ld64 m' loc_freep = p.1.
Proof.
  apply above_app in Hab as (mid & H1 & H2 & H3 & H4). apply above_le in H1, H4. unfold bend, loc_base in *.
  rewrite ld64_st64_same. apply u64_small. lia.
Qed.

Lemma link_chain : chain m' L' loc_base.
Proof.
  apply chain_app in Hch as [H1 (H2 & H3 & H4)]. pose proof Hab as (mid & H5 & H6 & H7 & H8)%above_app.
  pose proof (above_le _ _ _ H5) as H9. pose proof (above_le _ _ _ HB) as H10. unfold bend in Hp.
  assert (Hlo : 0 < loc_base) by done.
  pose proof (join_next_chain m p.1 a n loc_base top B) as Hj.
  specialize (Hj ltac:(lia) ltac:(lia) ltac:(lia) Hn Htop H3 Hsz H4 HB Hpos).
  pose proof (ins_next_above a (a, n) B top) as Hj2.
  specialize (Hj2 ltac:(simpl; lia) ltac:(simpl; lia)). unfold bend in Hj2. simpl in Hj2. rewrite Z.max_r in Hj2 by lia.
  specialize (Hj2 HB Hpos). destruct (ins_next_head a n B Hn Hpos) as (n' & B' & E & Hn' & _). rewrite E in Hj, Hj2 |- *.
  pose proof (join_prev_chain (join_next m a p.1) p.1 p.2 a n' loc_base top B') as Hk. rewrite <- surjective_pairing in Hk.
  specialize (Hk ltac:(lia) H7 Hp ltac:(lia) Htop).
  assert (Hs : hsize (join_next m a p.1) p.1 = p.2).
  { rewrite (hsize_ext m); [done|]. intros x Hx. apply join_next_frame. unfold in_header in *. lia. }
  specialize (Hk Hs Hj Hj2 ltac:(lia)).
  eapply (chain_ext (join_prev (join_next m a p.1) a p.1)).
  - intros b x Hb Hx. apply ld8_st64_out. pose proof link_above as Hl. rewrite E in Hl. eapply above_elem in Hb; [|exact Hl].
    unfold in_header, loc_base, loc_freep in *. lia.
  - apply chain_app. split; [|done]. rewrite first_ins_next. eapply chain_ext; [|exact H1]. intros b x Hb Hx.
    eapply above_elem in Hb; [|exact H5]. unfold bend in Hb.
    rewrite join_prev_frame, join_next_frame; [done|..]; unfold in_header in *; lia.
Qed.

Lemma link_length : (length L' <= S (length (A ++ p :: B)))%nat.
Proof.
  rewrite !length_app. pose proof (length_ins_next p (ins_next (a, n) B)). pose proof (length_ins_next (a, n) B). simpl. lia.
Qed.

Lemma link_big : exists c, c ∈ L' /\ n <= c.2.
Proof.
  pose proof Hab as (mid & H5 & H6 & H7 & H8)%above_app. destruct (ins_next_head a n B Hn Hpos) as (n' & B' & E & Hn' & _).
  rewrite E. unfold ins_next at 1. case_match.
  - exists (p.1, p.2 + n'). split; [set_solver|simpl; lia].
  - exists (a, n'). split; [set_solver|simpl; lia].
Qed.

Lemma link_cov x : cov L' x <-> inb (a, n) x \/ cov (A ++ p :: B) x.
Proof.
  pose proof Hab as (mid & H5 & H6 & H7 & H8)%above_app.
  rewrite !cov_app, ins_next_cov, ins_next_cov, cov_cons; [tauto|simpl; lia|done..|]. by apply ins_next_positive.
Qed.
End Link.

Lemma heap_first m top L U : heap m top L U -> first loc_base L = loc_base.
Proof. by intros [(bs & -> & _) _ _ _ _ _ _]. Qed.

Lemma heap_length m top L U : heap m top L U -> (length L <= size m)%nat.
Proof. intros H. eapply chain_length; [|apply H|by eapply heap_first|apply H]. done. Qed.

(** The search of [free] ends at the block before [a]. *)
Lemma free_place m top L U a n :
  heap m top L ((a, n) :: U) -> top <= 2 ^ 36 ->
  exists A p B, L = A ++ p :: B /\ bend p <= a /\ above (a + 16 * n) B top /\ positive B /\
    free m (hadd a 1) = Some (st64 loc_freep p.1 (join_prev (join_next m a p.1) a p.1)).
Proof.
  intros H Htop. pose proof H as [(bs & E & Hpos) Hch Hab (c & Hc & Hfp) Hu _ Hdis].
  apply Forall_cons in Hu as [(Hn & Hsz & Ha & Hat) _]. simpl in Hn, Hsz, Ha, Hat. assert (Hlo : 0 < loc_base) by done.
  destruct (split_at (loc_base, 0) bs top a n) as (A & p & B & EL & Hp & HB).
  { rewrite E in Hab. apply Hab. } { done. } { unfold bend. simpl. lia. } { done. } { done. }
  { intros x Hx1 Hx2. apply (Hdis x); [rewrite E|]; rewrite cov_cons; [by right|by left]. }
  exists A, p, B. rewrite E. split_and!; [done..| |].
  { destruct A; injection EL as <- ->; [done|]. apply Forall_app in Hpos as [_ Hpos]. by inversion Hpos. }
  rewrite <- E in EL. rewrite EL in Hch, Hab. unfold free. rewrite (hadd_eq a 1) by lia. rewrite hadd_eq by lia.
  replace (a + 16 * 1 + 16 * -1) with a by lia. rewrite Hfp, (free_loop_find m a A p B loc_base top c); [done|done| |done|done| | |].
  - rewrite <- EL. by eapply heap_first.
  - eapply above_weaken; [|exact HB]. lia.
  - by rewrite <- EL.
  - rewrite <- EL. apply heap_length in H. unfold mfuel. lia.
Qed.

Lemma link_base A p B bs a n :
  (loc_base, 0) :: bs = A ++ p :: B -> positive bs -> positive B -> 0 < n -> loc_base < a ->
  exists bs', A ++ ins_next p (ins_next (a, n) B) = (loc_base, 0) :: bs' /\ positive bs'.
Proof.
  intros EL Hpos HposB Hn Ha. destruct A as [|a0 A]; injection EL as E0 E1.
  - rewrite <- E0. unfold ins_next at 1. destruct (ins_next_head a n B Hn HposB) as (n' & B' & Ei & Hn' & HB'). rewrite Ei. cbn [fst snd].
    destruct (Z.eqb_spec (loc_base + 16 * 0) a); [lia|]. eexists. split; [done|]. constructor; [simpl; lia|done].
  - rewrite <- E0. eexists. split; [done|]. rewrite E1 in Hpos. apply Forall_app in Hpos as [Hpos1 Hpos2]. apply Forall_app. split; [done|].
    inversion_clear Hpos2. apply ins_next_positive; [done|]. by apply ins_next_positive.
Qed.

Lemma free_run m top L U a n :
  heap m top L ((a, n) :: U) -> top <= 2 ^ 36 ->
  exists m' L', free m (hadd a 1) = Some m' /\ heap m' top L' U /\
    (forall x, cov L' x <-> inb (a, n) x \/ cov L x) /\ (exists c, c ∈ L' /\ n <= c.2) /\ (length L' <= S (length L))%nat /\
    (forall x, ~ inb (a, n) x -> ~ cov L x -> ~ own x -> ld8 m' x = ld8 m x).
Proof.
  intros H Htop. pose proof H as [(bs & E & Hpos) Hch Hab _ Hu [Hd1 Hd2] Hdis].
  apply Forall_cons in Hu as [(Hn & Hsz & Ha & Hat) Hu]. simpl in Hn, Hsz, Ha, Hat.
  destruct (free_place _ _ _ _ _ _ H Htop) as (A & p & B & EL & Hp & HB & HposB & Hfree). rewrite Hfree.
  assert (Hpin : p ∈ L) by (rewrite EL; set_solver). pose proof Hch as Hch'. pose proof Hab as Hab'. rewrite EL in Hch', Hab'.
  eexists _, (A ++ ins_next p (ins_next (a, n) B)).
  assert (Hcov : forall x, cov (A ++ ins_next p (ins_next (a, n) B)) x <-> inb (a, n) x \/ cov L x).
  { intros x. rewrite EL. by eapply link_cov. }
  assert (Hframe : forall x, ~ inb (a, n) x -> ~ cov L x -> ~ own x -> ld8 (st64 loc_freep p.1 (join_prev (join_next m a p.1) a p.1)) x = ld8 m x).
  { intros x H1 H2 H3. apply link_frame; [unfold inb, in_header in *; simpl in H1; lia| |done].
    intros Hx. eapply header_free in Hx; [|exact H|done]. tauto. }
  split_and!; [done| |done|by eapply link_big|by rewrite EL; apply link_length|done].
  split; [|by eapply link_chain|by eapply link_above| | |done|].
  - eapply link_base; [by rewrite <- E|done..|lia].
  - destruct (ins_next p (ins_next (a, n) B)) as [|b C] eqn:Ei; [unfold ins_next in Ei at 1; repeat case_match; done|].
    exists b. split; [set_solver|]. erewrite link_freep by done.
    pose proof (first_ins_next 0 p (ins_next (a, n) B)) as Hfi. rewrite Ei in Hfi. done.
  - eapply used_ext; [|reflexivity|exact Hu]. intros x Hx. apply Hframe; [intros Hy; by eapply Hd1|..].
    + intros Hy. apply (Hdis x); [done|]. rewrite cov_cons. by right.
    + eapply used_not_own; [exact H|]. rewrite cov_cons. by right.
  - intros x [Hx|Hx]%Hcov Hy; [by eapply Hd1|]. apply (Hdis x); [done|]. rewrite cov_cons. by right.
Qed.

(** ** Getting memory *)

(** What a program relies on of [sbrk]: it moves the break up by the number of
    bytes and returns where it was, or leaves it and returns -1. *)
Class Breaks (W : Type) `{!Sys W} : Type := {
  brk : W -> Z;
  brk_range : forall w, loc_base + 16 <= brk w <= 2 ^ 36;
  sbrk_law : forall n w, 0 < n < 2 ^ 31 ->
    exists w', sys_sbrk n w = (brk w, w') /\ brk w' = brk w + n \/ sys_sbrk n w = (-1, w') /\ brk w' = brk w }.

Lemma cov_range L lo hi x : above lo L hi -> cov L x -> lo <= x < hi.
Proof. intros Hab (b & Hb & Hx). eapply above_elem in Hb; [|exact Hab]. unfold inb, bend in *. lia. Qed.

Lemma used_below m top L U x : heap m top L U -> cov U x -> x < top.
Proof.
  intros H (b & Hb & Hx). pose proof (heap_used _ _ _ _ H) as Hu. rewrite Forall_forall in Hu.
  destruct (Hu b Hb) as (_ & _ & _ & H1). unfold inb in *. lia.
Qed.

(** A new block above the break is in use. *)
Lemma heap_grow m top L U n :
  heap m top L U -> 0 < n < 2 ^ 32 -> loc_base + 16 <= top -> heap (set_hsize top n m) (top + 16 * n) L ((top, n) :: U).
Proof.
  intros H Hn Htop. pose proof H as [Hb Hch Hab Hf Hu Hd Hdis].
  assert (Hfr : forall x, x < top -> ld8 (set_hsize top n m) x = ld8 m x).
  { intros x Hx. apply ld8_set_hsize. unfold in_header. lia. }
  split.
  - done.
  - eapply chain_ext; [|exact Hch]. intros b x Hx Hh. apply Hfr. eapply above_elem in Hx; [|exact Hab].
    unfold in_header, bend in *. lia.
  - eapply above_raise; [|exact Hab]. lia.
  - destruct Hf as (b & Hb1 & Hb2). exists b. split; [done|]. rewrite <- Hb2. apply ld64_ext. intros x Hx. apply Hfr.
    unfold loc_base, loc_freep in *. lia.
  - constructor; [simpl; rewrite hsize_set_hsize by lia; split_and!; lia|].
    eapply used_ext; [|..|exact Hu]; [|lia]. intros x Hx. apply Hfr. by eapply used_below.
  - split; [|done]. intros x Hx Hy. eapply used_below in Hy; [|exact H]. unfold inb in Hx. simpl in Hx. lia.
  - intros x Hx. rewrite cov_cons. intros [Hy|Hy]; [|by eapply Hdis]. eapply cov_range in Hx; [|exact Hab].
    unfold inb in Hy. simpl in Hy. lia.
Qed.

(** ** Taking a block *)

Lemma above_inj lo L hi b c : above lo L hi -> b ∈ L -> c ∈ L -> b.1 = c.1 -> b = c.
Proof.
  revert lo. induction L as [|d L IH]; intros lo Hab Hb Hc E; [by apply elem_of_nil in Hb|].
  destruct Hab as (H1 & H2 & H3). apply elem_of_cons in Hb as [->|Hb], Hc as [->|Hc]; [done| | |by eapply IH].
  - eapply above_elem in Hc; [|exact H3]. unfold bend in Hc. lia.
  - eapply above_elem in Hb; [|exact H3]. unfold bend in Hb. lia.
Qed.

Lemma above_nodup lo L hi : above lo L hi -> NoDup L.
Proof.
  revert lo. induction L as [|d L IH]; intros lo Hab; [constructor|]. destruct Hab as (H1 & H2 & H3). constructor; [|by eapply IH].
  intros Hd. eapply above_elem in Hd; [|exact H3]. unfold bend in Hd. lia.
Qed.

(** The block that follows another one in memory order. *)
Lemma heap_next m top L U u y :
  heap m top L U -> u ∈ L -> y ∈ L -> hptr m u.1 = y.1 -> 0 < y.2 -> exists A B, L = A ++ u :: y :: B.
Proof.
  intros H Hu Hy E Hpos. pose proof Hu as (A & B & EL)%list_elem_of_split. exists A.
  pose proof (heap_chain _ _ _ _ H) as Hch. rewrite EL in Hch. apply chain_app in Hch as [_ (_ & Hn & _)]. rewrite E in Hn.
  destruct B as [|b B]; simpl in Hn.
  - assert (y = (loc_base, 0)) as ->; [|simpl in Hpos; lia]. destruct (heap_base _ _ _ _ H) as (bs & Hbs & _).
    eapply above_inj; [apply H|done|rewrite Hbs; left|done].
  - exists B. rewrite EL. do 3 f_equal. eapply above_inj; [apply H|rewrite EL; set_solver|done|done].
Qed.

(** The block [(a, n)] of the free bytes is now in use; other bytes, the
    allocator's own aside, are as before. *)
Definition takes (m m' : mem) (top : Z) (L L' U : list block) (a n : Z) : Prop :=
  heap m' top L' ((a, n) :: U) /\ (forall x, cov L x <-> inb (a, n) x \/ cov L' x) /\
  (forall x, ~ cov L x -> ~ own x -> ld8 m' x = ld8 m x).

(** One block [y] of the list gives way to [ys], its lower part or nothing,
    and to the block in use [(a, n)], its upper part. *)
Section Take.
Context (m m' : mem) (top : Z) (A B U ys : list block) (u y : block) (a n : Z).
Notation L := (A ++ u :: y :: B).
Notation L' := (A ++ u :: ys ++ B).
Hypothesis (H : heap m top L U) (Hn : 0 < n) (Hys : above y.1 ys a) (Hpos : positive ys) (Ha : a + 16 * n = y.1 + 16 * y.2) (Hy2 : 0 < y.2).
Hypothesis (Hcov : forall x, inb y x <-> cov ys x \/ inb (a, n) x).
Hypothesis (Hfr : forall x, ~ inb y x -> ~ in_header u.1 x -> ~ loc_freep <= x < loc_freep + 8 -> ld8 m' x = ld8 m x).
Hypothesis (Hch : chain m' (u :: ys) (first loc_base B)) (Hfp : ld64 m' loc_freep = u.1) (Hsz : hsize m' a = n).

Lemma take_parts : exists mid, above loc_base A mid /\ mid <= u.1 /\ 0 <= u.2 /\ bend u <= y.1 /\ y.1 <= a /\ above (a + 16 * n) B top.
Proof.
  pose proof (heap_above _ _ _ _ H) as Hab. apply above_app in Hab as (mid & H1 & H2 & H3 & H4 & H5 & H6).
  exists mid. split_and!; [done..|by apply above_le in Hys|]. rewrite Ha. unfold bend in H6. by rewrite Z.max_r in H6 by lia.
Qed.

Lemma take_above : above loc_base L' top.
Proof.
  destruct take_parts as (mid & H1 & H2 & H3 & H4 & H5 & H6). apply above_app. exists mid. split_and!; [done..|].
  split; [done|]. split; [done|]. apply above_app. exists a. split; [by eapply above_weaken|]. eapply above_weaken; [|done]. lia.
Qed.

Lemma take_cov x : cov L x <-> inb (a, n) x \/ cov L' x.
Proof. rewrite !cov_app, !cov_cons, cov_app, Hcov. tauto. Qed.

Lemma take_apart x : inb (a, n) x -> cov L' x -> False.
Proof.
  destruct take_parts as (mid & H1 & H2 & H3 & H4 & H5 & H6). unfold bend in H4. rewrite cov_app, cov_cons, cov_app. unfold inb at 1. simpl.
  intros Hx [Hy|[Hy|[Hy|Hy]]]; [eapply cov_range in Hy; [|exact H1]; lia|unfold inb in Hy; lia|..]; eapply cov_range in Hy; [|exact Hys| |exact H6]; lia.
Qed.

Lemma take_chain : chain m' L' loc_base.
Proof.
  destruct take_parts as (mid & H1 & H2 & H3 & H4 & H5 & H6). unfold bend in H4. pose proof (heap_chain _ _ _ _ H) as Hc.
  apply chain_app in Hc as [Hc1 (_ & _ & _ & _ & Hc2)]. assert (Hlo : loc_base = loc_freep + 16) by done.
  apply chain_app. split; [|rewrite app_comm_cons; apply chain_app; split; [done|]].
  - eapply chain_ext; [|exact Hc1]. intros b x Hb Hx. eapply above_elem in Hb; [|exact H1].
    apply Hfr; unfold inb, in_header, bend in *; lia.
  - eapply chain_ext; [|exact Hc2]. intros b x Hb Hx. eapply above_elem in Hb; [|exact H6]. pose proof (above_le _ _ _ H1).
    apply Hfr; unfold inb, in_header, bend in *; lia.
Qed.

Lemma take_frame x : ~ cov L x -> ~ own x -> ld8 m' x = ld8 m x.
Proof.
  intros H1 H2. apply Hfr.
  - intros Hy. apply H1. exists y. split; [set_solver|done].
  - intros Hu. eapply header_free in Hu; [|exact H|set_solver]. tauto.
  - unfold own, loc_base, loc_freep in *. lia.
Qed.

Lemma heap_take : heap m' top L' ((a, n) :: U).
Proof.
  destruct take_parts as (mid & H1 & H2 & H3 & H4 & H5 & H6). pose proof H as [(bs & E & Hp) _ _ _ Hu Hd Hdis].
  assert (HU : forall x, cov U x -> ~ cov L x /\ ~ own x).
  { intros x Hx. split; [intros Hl; by eapply Hdis|by eapply used_not_own]. }
  split.
  - destruct A as [|b A']; injection E as -> <-.
    + eexists. split; [done|]. apply Forall_app. split; [done|]. by inversion Hp.
    + eexists. split; [done|]. apply Forall_app in Hp as [Hp1 Hp2]. apply Forall_app. split; [done|].
      apply Forall_cons in Hp2 as [Hp2 Hp3]. apply Forall_cons in Hp3 as [_ Hp3]. constructor; [done|]. by apply Forall_app.
  - apply take_chain.
  - apply take_above.
  - exists u. split; [set_solver|done].
  - constructor; [|eapply used_ext; [|reflexivity|exact Hu]; intros x Hx; destruct (HU x Hx); by apply take_frame].
    simpl. apply above_le in H1, H6. unfold bend in H4. split_and!; [done..|lia|lia].
  - split; [|done]. intros x Hx Hx'. apply (Hdis x); [|done]. rewrite take_cov. by left.
  - intros x Hx. rewrite cov_cons. intros [Hy|Hy]; [by eapply take_apart|]. apply (Hdis x); [|done]. rewrite take_cov. by right.
Qed.
Lemma take_takes : takes m m' top L L' U a n.
Proof. split; [apply heap_take|]. split; [apply take_cov|apply take_frame]. Qed.
End Take.

Lemma first_range m top L U A b B : heap m top L U -> L = A ++ b :: B -> top <= 2 ^ 36 -> 0 <= first loc_base B < 2 ^ 64.
Proof.
  intros H -> Htop. pose proof (heap_above _ _ _ _ H) as Hab. apply above_app in Hab as (mid & H1 & H2 & H3 & H4).
  apply above_le in H1. assert (Hlo : 0 < loc_base < 2 ^ 64) by done. destruct B as [|c B]; simpl; [lia|].
  destruct H4 as (H5 & _ & H6). apply above_le in H6. unfold bend in *. lia.
Qed.

(** The header of a block is away from the variable [freep]. *)
Lemma hsize_freep v b m : loc_base <= b -> hsize (st64 loc_freep v m) b = hsize m b.
Proof.
  intros H. apply hsize_ext. intros x Hx. apply ld8_st64_out. unfold in_header, loc_base, loc_freep in *. lia.
Qed.

Lemma hptr_freep v b m : loc_base <= b -> hptr (st64 loc_freep v m) b = hptr m b.
Proof.
  intros H. apply hptr_ext. intros x Hx. apply ld8_st64_out. unfold in_header, loc_base, loc_freep in *. lia.
Qed.

Section Run.
Context {W : Type} {HS : Sys W} {HB : Breaks W}.

Lemma morecore_run m w L U nu :
  heap m (brk w) L U -> 0 < nu < 2 ^ 27 -> let N := Z.max 4096 nu in
  (exists w', morecore nu (mkustate m w) = Returns 0 (mkustate m w') /\ sys_sbrk (16 * N) w = (-1, w') /\ brk w' = brk w) \/
  (exists m' w' L' b, morecore nu (mkustate m w) = Returns b.1 (mkustate m' w') /\ brk w' = brk w + 16 * N /\
    b ∈ L' /\ ld64 m' loc_freep = b.1 /\ heap m' (brk w') L' U /\ (exists c, c ∈ L' /\ nu <= c.2) /\ (length L' <= S (length L))%nat /\
    (forall x, cov L' x <-> inb (brk w, N) x \/ cov L x) /\
    (forall x, ~ inb (brk w, N) x -> ~ cov L x -> ~ own x -> ld8 m' x = ld8 m x)).
Proof.
  intros H Hnu N. assert (Hlo : 0 < loc_base) by done. assert (HNe : N = Z.max 4096 nu) by done. clearbody N. unfold morecore. replace (if nu <? 4096 then 4096 else nu) with N by (destruct (Z.ltb_spec nu 4096); lia).
  assert (HN : nu <= N < 2 ^ 27 /\ 0 < N) by lia. unfold sizeof_Header. rewrite u64_small, s32_small by lia.
  assert (Es : forall r w', sys_sbrk (N * 16) w = (r, w') -> sbrk (N * 16) (mkustate m w) = Returns r (mkustate m w')).
  { intros r w' E. unfold sbrk, call. simpl. by rewrite E. }
  pose proof (brk_range w) as Hbr.
  destruct (sbrk_law (N * 16) w) as (w' & [[E Hw]|[E Hw]]); [lia|..]; rewrite (ubind_done _ _ _ _ _ (Es _ _ E)); [right|left].
  - destruct (Z.eqb_spec (brk w) (-1)); [lia|]. ustep.
    pose proof (heap_grow m (brk w) L U N H ltac:(lia) ltac:(lia)) as Hg. replace (brk w + 16 * N) with (brk w') in Hg |- * by lia.
    pose proof (brk_range w') as Hbr'. destruct (free_run _ _ _ _ _ _ Hg) as (m' & L' & Hfree & Hh & Hcov & (c & Hc & Hcn) & Hlen & Hfr); [lia|].
    rewrite Hfree. ustep. destruct (heap_freep _ _ _ _ Hh) as (b & Hb & Hfp). exists m', w', L', b. rewrite Hfp.
    split_and!; [done..| |done|done|].
    + exists c. split; [done|lia].
    + intros x H1 H2 H3. rewrite Hfr by done. apply ld8_set_hsize. unfold inb, in_header in *. simpl in H1. lia.
  - rewrite Z.eqb_refl. exists w'. by rewrite (Z.mul_comm 16).
Qed.

(** *** The loop of [malloc] at a block that is large enough *)
Lemma take_exact m top A u y B U :
  heap m top (A ++ u :: y :: B) U -> top <= 2 ^ 36 -> 0 < y.2 ->
  takes m (st64 loc_freep u.1 (set_hptr u.1 (hptr m y.1) m)) top (A ++ u :: y :: B) (A ++ u :: [] ++ B) U y.1 y.2.
Proof.
  intros H Htop Hn. pose proof (heap_chain _ _ _ _ H) as Hch. apply chain_app in Hch as [_ (Hu1 & Hu2 & Hy1 & Hy2 & _)].
  pose proof (heap_above _ _ _ _ H) as Hab. apply above_app in Hab as (mid & H1 & H2 & H3 & H4 & H5 & H6).
  apply above_le in H1, H6. unfold bend in *. assert (Hlo : loc_base = loc_freep + 16 /\ 0 < loc_freep) by done.
  assert (Hf : 0 <= first loc_base B < 2 ^ 64) by (eapply (first_range _ _ _ _ (A ++ [u]) y); [done|by rewrite <- app_assoc|done]).
  rewrite Hy2. apply take_takes; [done|done|simpl; lia|constructor|done|done|..].
  - intros x. rewrite cov_nil. rewrite <- surjective_pairing. tauto.
  - intros x _ Hx1 Hx2. rewrite ld8_st64_out by lia. by apply ld8_set_hptr.
  - simpl. by rewrite hsize_freep, hptr_freep, hsize_set_hptr, hptr_set_hptr by lia.
  - rewrite ld64_st64_same. apply u64_small. lia.
  - rewrite hsize_freep by lia. rewrite (hsize_ext m) by frame. done.
Qed.

Lemma take_part m top A u y B U n :
  heap m top (A ++ u :: y :: B) U -> top <= 2 ^ 36 -> 0 < n < y.2 ->
  let a := y.1 + 16 * (y.2 - n) in
  takes m (st64 loc_freep u.1 (set_hsize a n (set_hsize y.1 (y.2 - n) m))) top
    (A ++ u :: y :: B) (A ++ u :: [(y.1, y.2 - n)] ++ B) U a n.
Proof.
  intros H Htop Hn a. pose proof (heap_chain _ _ _ _ H) as Hch. apply chain_app in Hch as [_ (Hu1 & Hu2 & Hy1 & Hy2 & _)].
  pose proof (heap_above _ _ _ _ H) as Hab. apply above_app in Hab as (mid & H1 & H2 & H3 & H4 & H5 & H6).
  apply above_le in H1, H6. unfold bend in *. assert (Hlo : loc_base = loc_freep + 16 /\ 0 < loc_freep) by done.
  assert (Ha : a = y.1 + 16 * (y.2 - n)) by done. clearbody a.
  assert (Hs : forall b, loc_base <= b -> b + 16 <= y.1 -> hsize (st64 loc_freep u.1 (set_hsize a n (set_hsize y.1 (y.2 - n) m))) b = hsize m b
      /\ hptr (st64 loc_freep u.1 (set_hsize a n (set_hsize y.1 (y.2 - n) m))) b = hptr m b).
  { intros b Hb1 Hb2. rewrite hsize_freep, hptr_freep by lia. split; [apply hsize_ext|apply hptr_ext]; frame. }
  apply take_takes; [done|lia| | |lia|lia|..].
  - simpl. unfold bend. simpl. lia.
  - constructor; [simpl; lia|constructor].
  - intros x. rewrite cov_cons, cov_nil. unfold inb. simpl. lia.
  - intros x Hx1 Hx2 Hx3. rewrite ld8_st64_out by lia. rewrite !ld8_set_hsize; [done|..]; unfold inb, in_header in *; lia.
  - destruct (Hs u.1) as [Hs1 Hs2]; [lia..|]. simpl. rewrite Hs1, Hs2. split_and!; [done|done| | |done].
    + rewrite hsize_freep by lia. rewrite (hsize_ext (set_hsize y.1 (y.2 - n) m)) by frame. apply hsize_set_hsize. lia.
    + rewrite hptr_freep by lia. rewrite (hptr_ext (set_hsize y.1 (y.2 - n) m)) by frame. by rewrite hptr_set_hsize.
  - rewrite ld64_st64_same. apply u64_small. lia.
  - rewrite hsize_freep by lia. apply hsize_set_hsize. lia.
Qed.

Lemma malloc_fits m top A u y B U n w f :
  heap m top (A ++ u :: y :: B) U -> top <= 2 ^ 36 -> 0 < n <= y.2 ->
  exists m' L' a, malloc_loop n u.1 y.1 (S f) (mkustate m w) = Returns (hadd a 1) (mkustate m' w) /\
    takes m m' top (A ++ u :: y :: B) L' U a n.
Proof.
  intros H Htop Hn. pose proof (heap_chain _ _ _ _ H) as Hch. apply chain_app in Hch as [_ (_ & _ & Hy1 & Hy2 & _)].
  pose proof (heap_above _ _ _ _ H) as Hab. apply above_app in Hab as (mid & H1 & H2 & H3 & H4 & H5 & H6).
  apply above_le in H1, H6. unfold bend in *. assert (Hlo : 0 < loc_base) by done.
  cbn [malloc_loop]. ustep. rewrite Hy1. destruct (Z.leb_spec n y.2); [|lia].
  destruct (Z.eqb_spec y.2 n) as [<-|E]; ustep.
  - eexists _, _, _. split; [done|]. apply take_exact; [done|done|lia].
  - rewrite u32_small by lia. rewrite (hadd_eq y.1) by lia. eexists _, _, _. split; [done|]. apply take_part; [done|done|lia].
Qed.

(** *** Around the list *)
Lemma heap_size m top L U b : heap m top L U -> b ∈ L -> hsize m b.1 = b.2.
Proof.
  intros H (A & B & E)%list_elem_of_split. pose proof (heap_chain _ _ _ _ H) as Hch. rewrite E in Hch.
  by apply chain_app in Hch as [_ (Hs & _)].
Qed.

(** What the loop does when it is back at [freep]. *)
Definition refill (n : Z) (f : nat) : U W Z :=
  (p <- morecore n;; if p =? 0 then uret 0 else m <- umem;; malloc_loop n p (hptr m p) f)%user.

Lemma malloc_walk m w top L V x n l u f :
  heap m top L V -> ld64 m loc_freep = x.1 -> x ∈ L -> u ∈ L -> (forall c, c ∈ l -> c ∈ L /\ c.1 <> x.1) -> chain m (u :: l) x.1 ->
  let loop := malloc_loop n u.1 (first x.1 l) (S (length l) + f) (mkustate m w) in
  (exists v y f', v ∈ L /\ y ∈ L /\ hptr m v.1 = y.1 /\ n <= y.2 /\ loop = malloc_loop n v.1 y.1 (S f') (mkustate m w)) \/
  (forall c, c ∈ l ++ [x] -> c.2 < n) /\ loop = refill n f (mkustate m w).
Proof.
  intros H Hfp Hx. revert u. induction l as [|c l IH]; intros u Hu Hl (_ & Hn & Hch) loop.
  - destruct (Z_le_gt_dec n x.2) as [Hle|Hgt]; [left; by exists u, x, f|right]. split; [set_solver by lia|].
    unfold loop. simpl. ustep. rewrite (heap_size _ _ _ _ _ H Hx), Hfp, Z.eqb_refl. destruct (Z.leb_spec n x.2); [lia|done].
  - destruct (Hl c) as [Hc Hcx]; [left|]. destruct (Z_le_gt_dec n c.2) as [Hle|Hgt]; [left; by exists u, c, (S (length l) + f)%nat|].
    assert (E : loop = malloc_loop n c.1 (first x.1 l) (S (length l) + f) (mkustate m w)).
    { unfold loop. change (S (length (c :: l)) + f)%nat with (S (S (length l) + f)). generalize (S (length l) + f)%nat as g. intros g.
      cbn [first malloc_loop]. ustep. rewrite (heap_size _ _ _ _ _ H Hc), Hfp.
      destruct (Z.leb_spec n c.2); [lia|]. destruct (Z.eqb_spec c.1 x.1); [done|]. destruct Hch as (_ & -> & _). done. }
    rewrite E. destruct (IH c) as [Hl1|[Hl1 Hl2]]; [done|intros d Hd; apply Hl; by right|done|by left|right].
    split; [|done]. intros d [->|Hd]%elem_of_cons; [lia|by apply Hl1].
Qed.

Lemma malloc_search m w top L V x n f :
  heap m top L V -> top <= 2 ^ 36 -> ld64 m loc_freep = x.1 -> x ∈ L -> 0 < n ->
  let loop := malloc_loop n x.1 (hptr m x.1) (length L + f) (mkustate m w) in
  (exists m' L' a, loop = Returns (hadd a 1) (mkustate m' w) /\ takes m m' top L L' V a n) \/
  (forall c, c ∈ L -> c.2 < n) /\ loop = refill n f (mkustate m w).
Proof.
  intros H Htop Hfp Hx Hn loop. pose proof Hx as (C & D & E)%list_elem_of_split.
  pose proof (heap_first _ _ _ _ H) as Hz. pose proof (heap_chain _ _ _ _ H) as Hch. rewrite E in Hz, Hch.
  pose proof (chain_rotate _ _ _ _ _ Hz Hch) as Hr. pose proof Hr as (_ & Hn1 & _).
  assert (Hlen : length L = S (length (D ++ C))) by (rewrite E, !length_app; simpl; lia).
  pose proof (above_nodup _ _ _ (heap_above _ _ _ _ H)) as Hnd. rewrite E in Hnd. apply NoDup_app in Hnd as (_ & Hd1 & Hd2%NoDup_cons).
  destruct (malloc_walk m w top L V x n (D ++ C) x f H Hfp Hx Hx) as [(v & y & f' & Hv & Hy & Hvy & Hny & El)|[Hno El]]; [|done|..].
  - intros c Hc. assert (Hc' : c ∈ L) by (rewrite E; set_solver). split; [done|]. intros Hcx.
    assert (c = x) as -> by (eapply above_inj; [apply H|done..]). apply elem_of_app in Hc as [Hc|Hc]; [by apply Hd2|].
    apply (Hd1 x Hc). left.
  - left. unfold loop. rewrite Hlen, Hn1, El. destruct (heap_next _ _ _ _ _ _ H Hv Hy Hvy) as (A & B & ->); [lia|].
    by apply malloc_fits.
  - right. split; [|unfold loop; by rewrite Hlen, Hn1, El]. intros c Hc. apply Hno. rewrite E in Hc. set_solver.
Qed.

(** *** [malloc] *)

(** Before the first call of [malloc], [freep] is null and the list empty. *)
Definition ready (m : mem) (top : Z) (L V : list block) : Prop :=
  heap m top L V \/ ld64 m loc_freep = 0 /\ L = [(loc_base, 0)] /\ V = [].

Lemma malloc_init m w L V :
  ready m (brk w) L V ->
  exists m1, heap m1 (brk w) L V /\ (forall x, ~ own x -> ld8 m1 x = ld8 m x) /\
    ((if ld64 m loc_freep =? 0 then
        uset (st64 loc_freep loc_base);; uset (set_hptr loc_base loc_base);; uset (set_hsize loc_base 0)
      else uret tt) (mkustate m w) = Returns tt (mkustate m1 w))%user.
Proof.
  pose proof (brk_range w) as Hbr. intros [H|(E & -> & ->)].
  - exists m. destruct (heap_freep _ _ _ _ H) as (b & Hb & ->). eapply above_elem in Hb; [|apply H].
    assert (Hlo : 0 < loc_base) by done. destruct (Z.eqb_spec b.1 0); [lia|]. done.
  - rewrite E. simpl Z.eqb. cbv iota. ustep. eexists. split; [|split; [|done]].
    + split.
      * eexists. split; [done|constructor].
      * simpl. by rewrite hsize_set_hsize, hptr_set_hsize, hptr_set_hptr.
      * simpl. unfold bend. simpl. lia.
      * exists (loc_base, 0). split; [left|]. simpl. unfold set_hsize. rewrite ld64_stbytes_disj by (rewrite length_le_enc; unfold loc_base, loc_freep; lia).
        unfold set_hptr. rewrite ld64_st64_other by (unfold loc_base, loc_freep; lia). by rewrite ld64_st64_same.
      * constructor.
      * done.
      * intros x _. by rewrite cov_nil.
    + intros x Hx. unfold own in Hx. cbn [u_mem]. rewrite ld8_set_hsize, ld8_set_hptr, ld8_st64_out; [done|..]; unfold in_header, loc_base, loc_freep in *; lia.
Qed.

Lemma heap_hadd m w L V a n : heap m (brk w) L ((a, n) :: V) -> hadd a 1 = a + 16.
Proof.
  intros H. pose proof (heap_used _ _ _ _ H) as Hu. apply Forall_cons in Hu as [(Hn & _ & H1 & H2) _]. simpl in *.
  pose proof (brk_range w). assert (0 < loc_base) by done. rewrite hadd_eq; lia.
Qed.

Lemma malloc_run m w L V nbytes :
  ready m (brk w) L V -> 0 <= nbytes < 2 ^ 31 - 32 -> let n := (nbytes + 15) / 16 + 1 in
  exists m' w',
    (malloc nbytes (mkustate m w) = Returns 0 (mkustate m' w') /\ heap m' (brk w') L V /\ brk w' = brk w /\
     (forall c, c ∈ L -> c.2 < n) /\ (sys_sbrk (16 * Z.max 4096 n) w).1 = -1 /\ (forall x, ~ own x -> ld8 m' x = ld8 m x)) \/
    (exists L' a, malloc nbytes (mkustate m w) = Returns (a + 16) (mkustate m' w') /\ heap m' (brk w') L' ((a, n) :: V) /\ brk w <= brk w' /\
     (forall x, inb (a, n) x \/ cov L' x <-> cov L x \/ brk w <= x < brk w') /\
     (forall x, ~ cov L x -> ~ own x -> ~ brk w <= x < brk w' -> ld8 m' x = ld8 m x)).
Proof.
  intros Hr Hnb n. assert (Hn : 0 < n < 2 ^ 27).
  { unfold n. pose proof (Z.div_pos (nbytes + 15) 16). pose proof (Z.div_lt_upper_bound (nbytes + 15) 16 (2 ^ 27 - 1)). lia. }
  unfold malloc. ustep. destruct (malloc_init m w L V Hr) as (m1 & H1 & Hfr1 & E). rewrite (ubind_done _ _ _ _ _ E). ustep.
  replace (u32 _) with n.
  2: { unfold sizeof_Header. replace (nbytes + 16 - 1) with (nbytes + 15) by lia. rewrite (u64_small (nbytes + 15)) by lia. fold n. rewrite u32_small; lia. }
  clearbody n. destruct (heap_freep _ _ _ _ H1) as (x & Hx & Hfp). rewrite Hfp. pose proof (brk_range w) as Hbr.
  pose proof (heap_length _ _ _ _ H1) as Hlen. replace (2 * mfuel m1)%nat with (length L + (2 * mfuel m1 - length L))%nat by (unfold mfuel; lia).
  destruct (malloc_search m1 w (brk w) L V x n (2 * mfuel m1 - length L) H1) as [(m' & L' & a & -> & Hh & Hc & Hf)|[Hno ->]]; [lia|done|done|lia|..].
  - exists m', w. right. exists L', a. split_and!; [by rewrite (heap_hadd _ _ _ _ _ _ Hh)|done|lia| |].
    + intros y. rewrite <- Hc. intuition lia.
    + intros y Hy1 Hy2 _. rewrite Hf by done. by apply Hfr1.
  - unfold refill. destruct (morecore_run m1 w L V n H1) as [(w' & E' & Hs & Hw)|(m2 & w' & L2 & b & E' & Hw & Hb & Hfb & H2 & (c & Hc & Hcn) & Hlen2 & Hcov & Hfr2)];
      [lia|exists m1, w'; left|]; rewrite (ubind_done _ _ _ _ _ E').
    + simpl. rewrite Hw, Hs. by split_and!.
    + assert (Hlo : 0 < loc_base) by done. pose proof Hb as Hb'. eapply above_elem in Hb'; [|apply H2].
      destruct (Z.eqb_spec b.1 0); [lia|]. ustep. pose proof (brk_range w') as Hbr'.
      replace (2 * mfuel m1 - length L)%nat with (length L2 + (2 * mfuel m1 - length L - length L2))%nat by (unfold mfuel; lia).
      destruct (malloc_search m2 w' (brk w') L2 V b n (2 * mfuel m1 - length L - length L2) H2) as [(m' & L' & a & -> & Hh & Hc2 & Hf)|[Hno2 _]];
        [lia|done|done|lia| |apply Hno2 in Hc; lia].
      assert (Hnew : forall y, inb (brk w, Z.max 4096 n) y <-> brk w <= y < brk w') by (intros y; unfold inb; simpl; lia).
      exists m', w'. right. exists L', a. split_and!; [by rewrite (heap_hadd _ _ _ _ _ _ Hh)|done|lia| |].
      * intros y. rewrite <- Hc2, Hcov, Hnew. tauto.
      * intros y Hy1 Hy2 Hy3. rewrite Hf by (rewrite ?Hcov, ?Hnew; tauto). rewrite Hfr2 by (rewrite ?Hnew; done). by apply Hfr1.
Qed.

(** *** Sizes that do not fit an [int] *)

(** For [2 ^ 32 - 1] bytes [morecore] asks [sbrk] for 16 bytes. *)
Lemma malloc_overflow m w w' :
  ld64 m loc_freep = 0 -> sys_sbrk 16 w = (brk w, w') -> brk w <= 2 ^ 35 ->
  exists m', malloc (2 ^ 32 - 1) (mkustate m w) = Returns (brk w + 16) (mkustate m' w').
Proof.
  intros Hfp Hs Hw. pose proof (brk_range w) as Hbr. assert (Hlo : 0 < loc_base) by done. set (n := 2 ^ 28 + 1).
  unfold malloc. ustep. destruct (malloc_init m w [(loc_base, 0)] []) as (m1 & H1 & _ & E); [by right|].
  rewrite (ubind_done _ _ _ _ _ E). ustep. change (u32 _) with n.
  destruct (heap_freep _ _ _ _ H1) as (b & ->%list_elem_of_singleton & Hb). rewrite Hb.
  pose proof (heap_length _ _ _ _ H1) as Hl1. set (f := (size m1 + S (size m1 + 0))%nat).
  change (2 * mfuel m1)%nat with (length [(loc_base, 0%Z)] + f)%nat.
  destruct (malloc_search m1 w (brk w) [(loc_base, 0)] [] (loc_base, 0) n f H1) as [(m' & L' & a & _ & Hh & Hc & _)|[_ ->]];
    [lia|done|left|done| |].
  { exfalso. specialize (Hc a) as [_ Hc]. destruct Hc as (d & ->%list_elem_of_singleton & Hx); [left|]; unfold inb in *; simpl in *; lia. }
  pose proof (heap_grow m1 (brk w) _ _ n H1 ltac:(done) ltac:(lia)) as Hg.
  destruct (free_run _ _ _ _ _ _ Hg) as (m2 & L2 & Hfree & H2 & Hcov & (c & Hc & Hcn) & Hlen & _); [unfold n; lia|].
  assert (Es : sbrk 16 (mkustate m1 w) = Returns (brk w) (mkustate m1 w')) by (unfold sbrk, call; simpl; by rewrite Hs).
  destruct (heap_freep _ _ _ _ H2) as (d & Hd & Hfd). pose proof Hd as Hd'. eapply above_elem in Hd'; [|apply H2].
  assert (Em : morecore n (mkustate m1 w) = Returns d.1 (mkustate m2 w')).
  { unfold morecore. change (n <? 4096) with false. cbv iota. change (s32 (u64 (n * sizeof_Header))) with 16.
    rewrite (ubind_done _ _ _ _ _ Es). destruct (Z.eqb_spec (brk w) (-1)); [lia|]. ustep. rewrite Hfree. ustep. by rewrite Hfd. }
  unfold refill. rewrite (ubind_done _ _ _ _ _ Em). destruct (Z.eqb_spec d.1 0); [lia|]. ustep.
  replace f with (length L2 + (f - length L2))%nat by (simpl in *; lia).
  destruct (malloc_search m2 w' _ L2 [] d n (f - length L2) H2) as [(m' & L' & a & -> & Hh & Hc2 & _)|[Hno _]];
    [unfold n; lia|done|done|done| |apply Hno in Hc; lia].
  assert (Hin : forall x, inb (a, n) x -> inb (brk w, n) x).
  { intros x Hx. pose proof (proj2 (Hc2 x) (or_introl Hx)) as [Hy|(e & ->%list_elem_of_singleton & Hy)]%Hcov; [done|].
    unfold inb in Hy. simpl in Hy. lia. }
  pose proof (Hin a) as Ha1. pose proof (Hin (a + 16 * n - 1)) as Ha2. unfold inb, n in Ha1, Ha2. simpl in Ha1, Ha2.
  assert (a = brk w) as -> by lia. exists m'. by rewrite hadd_eq by lia.
Qed.

(** ** Programs that use the allocator *)

(** The states that a program can reach which starts with [freep] null, asks
    for sizes that fit an [int], frees only blocks it was given and has not
    freed yet, and writes below the allocator's variables and in its blocks.
    [V] are the blocks in use. *)
Inductive reach : mem -> W -> list block -> Prop :=
| reach_start m w : ld64 m loc_freep = 0 -> reach m w []
| reach_malloc m w V nbytes r m' w' :
    reach m w V -> 0 <= nbytes < 2 ^ 31 - 32 -> malloc nbytes (mkustate m w) = Returns r (mkustate m' w') ->
    reach m' w' (if r =? 0 then V else (r - 16, (nbytes + 15) / 16 + 1) :: V)
| reach_free m w V a n V' m' : reach m w V -> V ≡ₚ (a, n) :: V' -> free m (a + 16) = Some m' -> reach m' w V'
| reach_write m w V x v :
    reach m w V -> x < loc_freep \/ (exists b, b ∈ V /\ b.1 + 16 <= x < b.1 + 16 * b.2) -> reach (st8 x v m) w V
| reach_world m w w' V : reach m w V -> brk w <= brk w' -> reach m w' V.

Lemma heap_ext m m' top top' L V :
  heap m top L V -> (forall x, own x \/ cov L x -> ld8 m' x = ld8 m x) ->
  (forall b x, b ∈ V -> in_header b.1 x -> ld8 m' x = ld8 m x) -> top <= top' -> heap m' top' L V.
Proof.
  intros H Hm Hv Ht. pose proof H as [Hb Hch Hab (c & Hc & Hf) Hu Hd Hdis]. split; [done| | | | |done|done].
  - eapply chain_ext; [|exact Hch]. intros b x Hb' Hx. apply Hm. eapply header_free in Hx; [|exact H|done]. tauto.
  - by eapply above_raise.
  - exists c. split; [done|]. rewrite <- Hf. apply ld64_ext. intros x Hx. apply Hm. left. unfold own, loc_base, loc_freep in *. lia.
  - rewrite Forall_forall in Hu |- *. intros b Hb'. destruct (Hu b Hb') as (H1 & H2 & H3 & H4). split_and!; [done| |done|lia].
    rewrite <- H2. apply hsize_ext. intros x. by apply Hv.
Qed.

Lemma disjoint_elem V b c x : disjoint V -> b ∈ V -> c ∈ V -> inb b x -> inb c x -> b = c.
Proof.
  induction V as [|d V IH]; [by intros _ ?%elem_of_nil|]. intros [Hd1 Hd2] [->|Hb]%elem_of_cons [->|Hc]%elem_of_cons Hbx Hcx.
  - done.
  - destruct (Hd1 x Hbx). by exists c.
  - destruct (Hd1 x Hcx). by exists b.
  - by apply IH.
Qed.

Lemma ready_write m top L V x v :
  ready m top L V -> x < loc_freep \/ (exists b, b ∈ V /\ b.1 + 16 <= x < b.1 + 16 * b.2) -> ready (st8 x v m) top L V.
Proof.
  intros [H|(E & -> & ->)] Hx.
  - left. assert (Hno : ~ own x /\ ~ cov L x /\ forall c, c ∈ V -> ~ in_header c.1 x).
    { pose proof (heap_used _ _ _ _ H) as Hu. rewrite Forall_forall in Hu. destruct Hx as [Hx|(b & Hb & Hx)]; split_and!.
      - unfold own, loc_base, loc_freep in *. lia.
      - intros Hc. eapply cov_range in Hc; [|apply H]. unfold loc_base, loc_freep in *. lia.
      - intros c Hc Hh. destruct (Hu c Hc) as (_ & _ & H1 & _). unfold in_header, loc_base, loc_freep in *. lia.
      - eapply used_not_own; [exact H|]. exists b. split; [done|]. unfold inb. lia.
      - intros Hc. apply (heap_apart _ _ _ _ H x Hc). exists b. split; [done|]. unfold inb. lia.
      - intros c Hc Hh. assert (b = c) as <-; [|unfold in_header in Hh; lia]. destruct (Hu c Hc) as (H2 & _).
        eapply disjoint_elem; [apply H|done|done|..]; unfold inb, in_header in *; [|instantiate (1 := x)]; lia. }
    destruct Hno as (H1 & H2 & H3). eapply heap_ext; [exact H|..|reflexivity].
    + intros y Hy. apply ld8_st8_ne. intros ->. tauto.
    + intros b y Hb Hy. apply ld8_st8_ne. intros ->. by eapply H3.
  - right. split_and!; [|done|done]. rewrite <- E. apply ld64_ext. intros y Hy. apply ld8_st8_ne.
    destruct Hx as [Hx|(b & Hb & _)]; [lia|by apply elem_of_nil in Hb].
Qed.

Lemma reach_ready m w V : reach m w V -> exists L, ready m (brk w) L V.
Proof.
  induction 1 as [m w E|m w V nbytes r m' w' _ (L & IH) Hn E|m w V a n V' m' _ (L & IH) HV E|m w V x v _ (L & IH) Hx|m w w' V _ (L & IH) Hw].
  - exists [(loc_base, 0)]. by right.
  - destruct (malloc_run m w L V nbytes IH Hn) as (m1 & w1 & [(E1 & Hh & _)|(L' & a & E1 & Hh & _)]); rewrite E in E1; injection E1 as -> -> ->.
    + exists L. by left.
    + pose proof (heap_used _ _ _ _ Hh) as Hu. apply Forall_cons in Hu as [(_ & _ & Hlo & _) _]. simpl in Hlo. unfold loc_base in Hlo.
      destruct (Z.eqb_spec (a + 16) 0); [lia|]. replace (a + 16 - 16) with a by lia. exists L'. by left.
  - destruct IH as [H|(_ & _ & ->)]; [|by apply Permutation_nil_cons in HV]. rewrite HV in H.
    pose proof (brk_range w) as Hbr. destruct (free_run _ _ _ _ _ _ H) as (m1 & L' & E1 & Hh & _); [lia|].
    rewrite (heap_hadd _ _ _ _ _ _ H), E in E1. injection E1 as ->. exists L'. by left.
  - exists L. by apply ready_write.
  - exists L. destruct IH as [H|H]; [left|by right]. by eapply heap_ext.
Qed.
End Run.
End UMalloc.

(** ** The theorems *)
Module UMallocProps.
Import UMalloc.

(** C24: take a program that asks [malloc] for less than 2^31 - 32 bytes at a time,
    frees only blocks it holds, and writes only in its blocks and below the
    allocator's variables. In every state it reaches, the blocks it has been
    given lie below the break and do not overlap; [malloc] of less than
    2^31 - 32 bytes and [free] of one of the blocks return, and no byte of the
    other blocks changes. *)
Theorem allocator_safe {W : Type} {HS : Sys W} {HB : Breaks W} m (w : W) V :
  reach m w V ->
  disjoint V /\ Forall (fun b => loc_base + 16 <= b.1 /\ b.1 + 16 * b.2 <= brk w) V /\
  (forall nbytes, 0 <= nbytes < 2 ^ 31 - 32 ->
    exists r m' w', malloc nbytes (mkustate m w) = Returns r (mkustate m' w') /\ forall x, cov V x -> ld8 m' x = ld8 m x) /\
  (forall a n, (a, n) ∈ V ->
    exists m', free m (a + 16) = Some m' /\ forall x, cov V x -> ~ inb (a, n) x -> ld8 m' x = ld8 m x).
Proof.
  intros (L & Hr)%reach_ready.
  assert (Hin : forall x, cov V x -> heap m (brk w) L V -> ~ cov L x /\ ~ own x /\ x < brk w).
  { intros x Hx H. split_and!; [intros Hl; by apply (heap_apart _ _ _ _ H x)|by eapply used_not_own|by eapply used_below]. }
  assert (Hcase : heap m (brk w) L V \/ V = []) by (destruct Hr as [|(_ & _ & ->)]; auto).
  split_and!.
  - destruct Hcase as [H| ->]; [apply H|done].
  - destruct Hcase as [H| ->]; [|constructor]. eapply Forall_impl; [apply H|]. simpl. tauto.
  - intros nbytes Hn. destruct (malloc_run m w L V nbytes Hr Hn) as (m' & w' & [(E & _ & _ & _ & _ & Hf)|(L' & a & E & _ & _ & _ & Hf)]);
      eexists _, m', w'; (split; [exact E|]); intros x Hx; (destruct Hcase as [H| ->]; [|by apply cov_nil in Hx]);
      destruct (Hin x Hx H) as (? & ? & ?); apply Hf; [done..|lia].
  - intros a n Ha. destruct Hcase as [H| ->]; [|by apply elem_of_nil in Ha].
    apply elem_of_Permutation in Ha as (V' & HV). pose proof H as Hp. rewrite HV in Hp. pose proof (brk_range w) as Hbr.
    destruct (free_run _ _ _ _ _ _ Hp) as (m' & L' & E & _ & _ & _ & _ & Hf); [lia|].
    exists m'. rewrite <- (heap_hadd _ _ _ _ _ _ Hp). split; [done|]. intros x Hx Hno. destruct (Hin x Hx H) as (? & ? & ?). by apply Hf.
Qed.

(** C25: from a heap in order ([ready]: the list of free blocks [L] and the blocks
    in use [V], or no heap yet), [malloc] of less than 2^31 - 32 bytes returns.
    It returns a block of [n] headers, the first of them the block's own, taken
    out of the free blocks and the memory it got from [sbrk], and these lose no
    other byte; it returns 0 only when no free block is large enough and [sbrk]
    refuses. [free] gives exactly the block back. *)
Theorem malloc_free_exact {W : Type} {HS : Sys W} {HB : Breaks W} m (w : W) L V nbytes :
  ready m (brk w) L V -> 0 <= nbytes < 2 ^ 31 - 32 ->
  let n := (nbytes + 15) / 16 + 1 in
  exists m' w',
    (malloc nbytes (mkustate m w) = Returns 0 (mkustate m' w') /\ heap m' (brk w') L V /\ brk w' = brk w /\
     (forall c, c ∈ L -> c.2 < n) /\ (sys_sbrk (16 * Z.max 4096 n) w).1 = -1) \/
    (exists L' a, malloc nbytes (mkustate m w) = Returns (a + 16) (mkustate m' w') /\ heap m' (brk w') L' ((a, n) :: V) /\
     (forall x, inb (a, n) x \/ cov L' x <-> cov L x \/ brk w <= x < brk w') /\
     exists m'' L'', free m' (a + 16) = Some m'' /\ heap m'' (brk w') L'' V /\
       forall x, cov L'' x <-> cov L x \/ brk w <= x < brk w').
Proof.
  intros Hr Hn n. destruct (malloc_run m w L V nbytes Hr Hn) as (m' & w' & [(E & H1 & H2 & H3 & H4 & _)|(L' & a & E & H1 & _ & H2 & _)]);
    exists m', w'; [by left|right].
  exists L', a. split_and!; [done..|]. pose proof (brk_range w') as Hbr. destruct (free_run _ _ _ _ _ _ H1) as (m'' & L'' & Ef & Hh & Hc & _); [lia|].
  rewrite (heap_hadd _ _ _ _ _ _ H1) in Ef. exists m'', L''. split_and!; [done..|]. intros x. by rewrite Hc, H2.
Qed.

(** C38: a request for [2 ^ 32 - 1] bytes, when [sbrk] grants 16, returns an
    address that is not null, but the memory ends there: none of the bytes
    belongs to the process. *)
Theorem malloc_wraps {W : Type} {HS : Sys W} {HB : Breaks W} m (w w' : W) :
  ld64 m loc_freep = 0 -> sys_sbrk 16 w = (brk w, w') -> brk w' = brk w + 16 -> brk w <= 2 ^ 35 ->
  exists r m', malloc (2 ^ 32 - 1) (mkustate m w) = Returns r (mkustate m' w') /\ r <> 0 /\ r = brk w'.
Proof.
  intros H1 H2 H3 H4. destruct (malloc_overflow m w w' H1 H2 H4) as (m' & E). exists (brk w + 16), m'. split; [done|].
  pose proof (brk_range w). unfold loc_base in *. lia.
Qed.

(** A process that only moves its break. *)
Definition break_of (w : Z) : Z := Z.max (loc_base + 16) (Z.min w (2 ^ 36)).

Instance break_sys : Sys Z := {|
  sys_read _ _ w := (-1, [], w); sys_write _ _ w := (-1, w); sys_open _ _ w := (-1, w); sys_close _ w := (-1, w);
  sys_fstat _ w := (-1, [], w);
  sys_sbrk n w := if break_of w + n <=? 2 ^ 36 then (break_of w, break_of w + n) else (-1, w);
  sys_kill _ w := (-1, w); sys_link _ _ w := (-1, w); sys_unlink _ w := (-1, w); sys_mkdir _ w := (-1, w); sys_chdir _ w := (-1, w) |}.

Lemma break_law n w : 0 < n < 2 ^ 31 ->
  exists w', sys_sbrk n w = (break_of w, w') /\ break_of w' = break_of w + n \/ sys_sbrk n w = (-1, w') /\ break_of w' = break_of w.
Proof.
  intros Hn. cbn [sys_sbrk break_sys]. destruct (Z.leb_spec (break_of w + n) (2 ^ 36)) as [H|H]; eexists; [left|right; split; reflexivity].
  split; [reflexivity|]. revert H. unfold break_of at 1 2 3 4, loc_base. lia.
Qed.

Lemma break_bounds w : loc_base + 16 <= break_of w <= 2 ^ 36.
Proof. unfold break_of, loc_base. lia. Qed.

Instance break_breaks : Breaks Z := {| brk := break_of; brk_range := break_bounds; sbrk_law := break_law |}.

(** The states after one and two calls for 100 bytes, and after the first
    block is freed again. *)
Definition after (r : ures Z Z) : ustate Z := match r with Returns _ s => s | _ => mkustate ∅ 0 end.
Definition one_block : ustate Z := after (malloc 100 (mkustate ∅ 0x4000)).
Definition two_blocks : ustate Z := after (malloc 100 one_block).
Definition one_freed : mem := default ∅ (free (u_mem two_blocks) 81808).

Lemma reach_freed : reach one_freed 81920 [(81664, 8)].
Proof.
  apply (reach_free (u_mem two_blocks) 81920 [(81664, 8); (81792, 8)] 81792 8 [(81664, 8)] one_freed).
  - apply (reach_malloc (u_mem one_block) 81920 [(81792, 8)] 100 81680); [|lia|vm_compute; reflexivity].
    apply (reach_malloc ∅ 0x4000 [] 100 81808); [|lia|vm_compute; reflexivity]. apply reach_start. vm_compute. reflexivity.
  - apply Permutation_swap.
  - vm_compute. reflexivity.
Qed.

Lemma allocator_safe_witness :
  disjoint [(81664, 8)] /\ Forall (fun b => loc_base + 16 <= b.1 /\ b.1 + 16 * b.2 <= 81920) [(81664, 8)] /\
  (forall nbytes, 0 <= nbytes < 2 ^ 31 - 32 ->
    exists r m' w', malloc nbytes (mkustate one_freed 81920) = Returns r (mkustate m' w') /\ forall x, cov [(81664, 8)] x -> ld8 m' x = ld8 one_freed x) /\
  (forall a n, (a, n) ∈ [(81664, 8)] ->
    exists m', free one_freed (a + 16) = Some m' /\ forall x, cov [(81664, 8)] x -> ~ inb (a, n) x -> ld8 m' x = ld8 one_freed x).
Proof. exact (allocator_safe one_freed 81920 [(81664, 8)] reach_freed). Defined.

Lemma malloc_free_exact_witness :
  exists m' w',
    (malloc 100 (mkustate ∅ 0x4000) = Returns 0 (mkustate m' w') /\ heap m' (brk w') [(loc_base, 0)] [] /\ brk w' = brk 0x4000 /\
     (forall c, c ∈ [(loc_base, 0)] -> c.2 < 8) /\ (sys_sbrk (16 * Z.max 4096 8) 0x4000).1 = -1) \/
    (exists L' a, malloc 100 (mkustate ∅ 0x4000) = Returns (a + 16) (mkustate m' w') /\ heap m' (brk w') L' [(a, 8)] /\
     (forall x, inb (a, 8) x \/ cov L' x <-> cov [(loc_base, 0)] x \/ brk 0x4000 <= x < brk w') /\
     exists m'' L'', free m' (a + 16) = Some m'' /\ heap m'' (brk w') L'' [] /\
       forall x, cov L'' x <-> cov [(loc_base, 0)] x \/ brk 0x4000 <= x < brk w').
Proof. apply (malloc_free_exact ∅ 0x4000 [(loc_base, 0)] [] 100); [right; split_and!; reflexivity|lia]. Defined.

Lemma malloc_wraps_witness :
  exists r m', malloc (2 ^ 32 - 1) (mkustate ∅ 0x4000) = Returns r (mkustate m' 0x4010) /\ r <> 0 /\ r = brk 0x4010.
Proof. apply (malloc_wraps ∅ 0x4000 0x4010); [reflexivity|reflexivity|reflexivity|vm_compute; discriminate]. Defined.
End UMallocProps.
