(* ===== verification/Shell.v ===== *)
(** * The shell ([user/sh.c])

    The parser works on the line in memory: positions and the words it finds
    are addresses, and [nulterminate] writes zeros after the words. A node of
    the command tree is a typed record, a pointer to one is its index in the
    order of allocation: [parseexec] fills in its node after other nodes
    already point to it. The constructors do not look at [malloc]'s result,
    and the model takes it to succeed.

    What a command does once it is parsed is a tree of system calls, [prog]:
    the processes that [runcmd] forks run at the same time. *)

From stdpp Require Import gmap strings list.
From Stdlib Require Import ZArith Lia.
From S2P Require Import Prelude KState CString User UPrintf.
Open Scope Z_scope.
Import Ulib UPrintf.

Module Shell.

Definition MAXARGS : nat := 10.

(** ** Commands in memory *)

(** A pointer to a command; [None] is the null pointer. *)
Notation cmdptr := (option nat).

(** [struct execcmd] and the other structures, by their [type]. *)
Inductive cmd : Type :=
| EXEC (argv eargv : list Z)
| REDIR (c : cmdptr) (file efile mode fd : Z)
| PIPE (left right : cmdptr)
| LIST (left right : cmdptr)
| BACK (c : cmdptr).

(** ** The parser's monad

    Besides the nodes, the parser changes the position [*ps] only. It stops
    with [panic], or returns; [PFuel] stands for a bound that was too small. *)
Record pstate := mkpstate { ps_heap : list cmd; ps_s : Z }.

Inductive pres (A : Type) : Type :=
| POk (a : A) (st : pstate)
| PPanic (msg : list Z)
| PFuel.
Arguments POk {A}.
Arguments PPanic {A}.
Arguments PFuel {A}.

Definition P (A : Type) : Type := pstate -> pres A.

Definition pret {A} (a : A) : P A := POk a.
Definition pbind {A B} (p : P A) (f : A -> P B) : P B := fun st =>
  match p st with
  | POk a st' => f a st'
  | PPanic msg => PPanic msg
  | PFuel => PFuel
  end.
Definition ppanic {A} (msg : string) : P A := fun _ => PPanic (lit msg).
Definition pfuel {A} : P A := fun _ => PFuel.

Declare Scope parser_scope.
Delimit Scope parser_scope with parser.
Notation "x <- m ;; k" := (pbind m (fun x => k))
  (at level 100, m at next level, right associativity) : parser_scope.
Notation "m ;; k" := (pbind m (fun _ => k))
  (at level 100, k at level 200, right associativity) : parser_scope.

(** *** Constructors *)

(** [malloc] *)
Definition newcmd (c : cmd) : P cmdptr := fun st =>
  POk (Some (length (ps_heap st))) (mkpstate (ps_heap st ++ [c]) (ps_s st)).

Definition execcmd : P cmdptr := newcmd (EXEC (replicate MAXARGS 0) (replicate MAXARGS 0)).
Definition redircmd (subcmd : cmdptr) (file efile mode fd : Z) : P cmdptr := newcmd (REDIR subcmd file efile mode fd).
Definition pipecmd (left right : cmdptr) : P cmdptr := newcmd (PIPE left right).
Definition listcmd (left right : cmdptr) : P cmdptr := newcmd (LIST left right).
Definition backcmd (subcmd : cmdptr) : P cmdptr := newcmd (BACK subcmd).

(** [cmd->argv[i] = q; cmd->eargv[i] = eq] *)
Definition set_arg (c : cmdptr) (i : nat) (q eq : Z) : P unit := fun st =>
  match c with
  | None => PPanic []
  | Some n => POk tt (mkpstate (alter (fun x => match x with
                                                | EXEC argv eargv => EXEC (<[i := q]> argv) (<[i := eq]> eargv)
                                                | x => x
                                                end) n (ps_heap st)) (ps_s st))
  end.

(** *** Tokens *)

Definition whitespace : list Z := 32 :: 9 :: 13 :: 10 :: 11 :: [].
Definition symbols : list Z := lit "<|>&;()".

Section Line.
Open Scope parser_scope.
Context (m : mem) (es : Z).

(** [while(s < es && strchr(whitespace, *s)) s++;] *)
Fixpoint skip_space (s : Z) (k : nat) : Z :=
  match k with
  | O => s
  | S k' => if (s <? es) && in_chars whitespace (ld8 m s) then skip_space (s + 1) k' else s
  end.

Fixpoint skip_word (s : Z) (k : nat) : Z :=
  match k with
  | O => s
  | S k' =>
      if (s <? es) && negb (in_chars whitespace (ld8 m s)) && negb (in_chars symbols (ld8 m s))
      then skip_word (s + 1) k' else s
  end.

(** The characters left bound these loops. *)
Definition room (s : Z) : nat := Z.to_nat (es - s).

(** The token at [s] and the position after it. *)
Definition scan (s : Z) : Z * Z :=
  let c := ld8 m s in
  if c =? 0 then (0, s)
  else if in_chars (lit "|();&<") c then (c, s + 1)
  else if c =? 62 then (if ld8 m (s + 1) =? 62 then (43, s + 2) else (62, s + 1))
  else (97, skip_word s (room s)).

(** [gettoken]: the kind of token, and where its text begins and ends. *)
Definition gettoken : P (Z * Z * Z) := fun st =>
  let q := skip_space (ps_s st) (room (ps_s st)) in
  let '(ret, eq) := scan q in
  POk (ret, q, eq) (mkpstate (ps_heap st) (skip_space eq (room eq))).

Definition peek (toks : list Z) : P bool := fun st =>
  let s := skip_space (ps_s st) (room (ps_s st)) in
  POk (negb (ld8 m s =? 0) && in_chars toks (ld8 m s)) (mkpstate (ps_heap st) s).

(** A bound on the iterations of a loop that consumes input. *)
Definition loop_fuel : P nat := fun st => POk (S (room (ps_s st))) st.

(** *** Redirections *)

Definition redir (cmd : cmdptr) (tok q eq : Z) : P cmdptr :=
  if tok =? 60 then redircmd cmd q eq O_RDONLY 0
  else if tok =? 62 then redircmd cmd q eq (Z.lor (Z.lor O_WRONLY O_CREATE) O_TRUNC) 1
  else if tok =? 43 then redircmd cmd q eq (Z.lor O_WRONLY O_CREATE) 1
  else pret cmd.

Fixpoint parseredirs_loop (cmd : cmdptr) (fuel : nat) : P cmdptr :=
  match fuel with
  | O => pfuel
  | S f =>
      b <- peek (lit "<>");;
      if negb b then pret cmd else
      t <- gettoken;;
      a <- gettoken;;
      let '(kind, q, eq) := a in
      if negb (kind =? 97) then ppanic "missing file for redirection" else
      cmd <- redir cmd t.1.1 q eq;;
      parseredirs_loop cmd f
  end.

Definition parseredirs (cmd : cmdptr) : P cmdptr :=
  k <- loop_fuel;;
  parseredirs_loop cmd k.

(** *** Commands *)

(** The loop of [parseexec]; returns [ret] and [argc]. *)
Fixpoint parseexec_loop (cmd ret : cmdptr) (argc : nat) (fuel : nat) : P (cmdptr * nat) :=
  match fuel with
  | O => pfuel
  | S f =>
      b <- peek (lit "|)&;");;
      if b then pret (ret, argc) else
      a <- gettoken;;
      let '(tok, q, eq) := a in
      if tok =? 0 then pret (ret, argc) else
      if negb (tok =? 97) then ppanic "syntax" else
      set_arg cmd argc q eq;;
      if (MAXARGS <=? S argc)%nat then ppanic "too many args" else
      ret <- parseredirs ret;;
      parseexec_loop cmd ret (S argc) f
  end.

(** The loop of [parseline]. *)
Fixpoint parseback_loop (cmd : cmdptr) (fuel : nat) : P cmdptr :=
  match fuel with
  | O => pfuel
  | S f =>
      b <- peek (lit "&");;
      if negb b then pret cmd else
      gettoken;;
      cmd <- backcmd cmd;;
      parseback_loop cmd f
  end.

Fixpoint parseline (fuel : nat) : P cmdptr :=
  match fuel with
  | O => pfuel
  | S f =>
      cmd <- parsepipe f;;
      k <- loop_fuel;;
      cmd <- parseback_loop cmd k;;
      b <- peek (lit ";");;
      if b then
        gettoken;;
        r <- parseline f;;
        listcmd cmd r
      else pret cmd
  end
with parsepipe (fuel : nat) : P cmdptr :=
  match fuel with
  | O => pfuel
  | S f =>
      cmd <- parseexec f;;
      b <- peek (lit "|");;
      if b then
        gettoken;;
        r <- parsepipe f;;
        pipecmd cmd r
      else pret cmd
  end
with parseexec (fuel : nat) : P cmdptr :=
  match fuel with
  | O => pfuel
  | S f =>
      b <- peek (lit "(");;
      if b then parseblock f else
      cmd <- execcmd;;
      ret <- parseredirs cmd;;
      k <- loop_fuel;;
      r <- parseexec_loop cmd ret 0 k;;
      let '(ret, argc) := r in
      set_arg cmd argc 0 0;;
      pret ret
  end
with parseblock (fuel : nat) : P cmdptr :=
  match fuel with
  | O => pfuel
  | S f =>
      b <- peek (lit "(");;
      if negb b then ppanic "parseblock" else
      gettoken;;
      cmd <- parseline f;;
      b <- peek (lit ")");;
      if negb b then ppanic "syntax - missing )" else
      gettoken;;
      parseredirs cmd
  end.

(** Every nesting level of these functions consumes a character. *)
Definition parse_fuel (s : Z) : nat := 4 * room s + 4.
End Line.

(** *** Ending the words *)

(** [for(i=0; ecmd->argv[i]; i++) *ecmd->eargv[i] = 0;] *)
Fixpoint nulargs (argv eargv : list Z) (m : mem) : mem :=
  match argv, eargv with
  | q :: argv', eq :: eargv' => if q =? 0 then m else nulargs argv' eargv' (st8 eq 0 m)
  | _, _ => m
  end.

(** Nodes point to nodes made before them, so the recursion is no deeper than
    the number of nodes. *)
Fixpoint nulterminate (h : list cmd) (c : cmdptr) (fuel : nat) (m : mem) : option mem :=
  match fuel with
  | O => None
  | S f =>
      match c ≫= (h !!.) with
      | None => Some m
      | Some (EXEC argv eargv) => Some (nulargs argv eargv m)
      | Some (REDIR c _ efile _ _) => m' ← nulterminate h c f m; Some (st8 efile 0 m')
      | Some (PIPE l r) => m' ← nulterminate h l f m; nulterminate h r f m'
      | Some (LIST l r) => m' ← nulterminate h l f m; nulterminate h r f m'
      | Some (BACK c) => nulterminate h c f m
      end
  end.

(** ** What a command does *)

(** The system calls of a process. [Print] is an [fprintf]; [Fork] continues
    in the child with 0 and in the parent with a positive number or -1;
    [TooDeep] is a recursion deeper than the bound of the model. *)
Inductive prog : Type :=
| Exit (status : Z)
| Print (fd : Z) (bs : list Z) (k : prog)
| Exec (path : list Z) (argv : list (list Z)) (k : prog)
| Close (fd : Z) (k : prog)
| Open (path : list Z) (mode : Z) (k : Z -> prog)
| Dup (fd : Z) (k : prog)
| Pipe (k : option (Z * Z) -> prog)
| Fork (k : Z -> prog)
| Wait (k : prog)
| TooDeep.

Definition panic (msg : list Z) : prog := Print 2 (msg ++ [10]) (Exit 1).

Definition fork1 (k : Z -> prog) : prog := Fork (fun pid => if pid =? -1 then panic (lit "fork") else k pid).

(** [argv] up to the null pointer, as the strings of [exec]'s argument. *)
Fixpoint exec_args (m : mem) (argv : list Z) : list (list Z) :=
  match argv with
  | [] => []
  | q :: argv' => if q =? 0 then [] else cstr m q :: exec_args m argv'
  end.

Fixpoint runcmd (m : mem) (h : list cmd) (c : cmdptr) (fuel : nat) : prog :=
  match fuel with
  | O => TooDeep
  | S f =>
      match c with
      | None => Exit 1
      | Some n =>
          match h !! n with
          | None => panic (lit "runcmd")
          | Some (EXEC argv _) =>
              let a0 := nth 0 argv 0 in
              if a0 =? 0 then Exit 1 else
              Exec (cstr m a0) (exec_args m argv)
                (Print 2 (lit "exec " ++ cstr m a0 ++ lit " failed" ++ [10]) (Exit 0))
          | Some (REDIR c file _ mode fd) =>
              Close fd (Open (cstr m file) mode (fun r =>
                if r <? 0 then Print 2 (lit "open " ++ cstr m file ++ lit " failed" ++ [10]) (Exit 1)
                else runcmd m h c f))
          | Some (LIST l r) =>
              fork1 (fun pid =>
                if pid =? 0 then runcmd m h l f else Wait (runcmd m h r f))
          | Some (PIPE l r) =>
              Pipe (fun p => match p with
                | None => panic (lit "pipe")
                | Some (p0, p1) =>
                    fork1 (fun pid =>
                      if pid =? 0 then Close 1 (Dup p1 (Close p0 (Close p1 (runcmd m h l f)))) else
                      fork1 (fun pid =>
                        if pid =? 0 then Close 0 (Dup p0 (Close p0 (Close p1 (runcmd m h r f)))) else
                        Close p0 (Close p1 (Wait (Wait (Exit 0))))))
                end)
          | Some (BACK c) =>
              fork1 (fun pid => if pid =? 0 then runcmd m h c f else Exit 0)
          end
      end
  end.

(** ** The command loop *)

(** Starting a child that runs [p] and waiting for it. *)
Class Spawns (W : Type) : Type := {
  sys_fork : W -> bool;
  sys_child : prog -> W -> W }.

Section Main.
Open Scope user_scope.
Context {W : Type} `{!Sys W} `{!Spawns W}.

(** [fprintf(2, "%s\n", s)] for a string constant, and [exit(1)]. *)
Definition upanic {A} (msg : list Z) : U W A := putall 2 (msg ++ [10]);; exit 1.

Definition parsecmd (s : Z) : U W (list cmd * cmdptr) :=
  m <- umem;;
  n <- ulift (strlen m s);;
  let es := s + n in
  match parseline m es (parse_fuel es s) (mkpstate [] s) with
  | PFuel => unbounded
  | PPanic msg => upanic msg
  | POk cmd st =>
      match peek m es [] st with
      | POk _ st =>
          if negb (ps_s st =? es) then
            fprintf 2 (lit "leftovers: %s" ++ [10]) [ps_s st];;
            upanic (lit "syntax")
          else
            m' <- ulift (nulterminate (ps_heap st) cmd (S (length (ps_heap st))) m);;
            uset (fun _ => m');;
            uret (ps_heap st, cmd)
      | _ => unbounded
      end
  end.

(** [static char buf[100]] of [main] *)
Definition sh_buf : Z := 0x2000.

Definition getcmd (buf nbuf : Z) : U W Z :=
  fprintf 2 (lit "$ ") [];;
  uset (fun m => memset m buf 0 nbuf);;
  UlibSys.gets buf nbuf;;
  m <- umem;;
  if ld8 m buf =? 0 then uret (-1) else uret 0.

(** [if(fork1() == 0) runcmd(parsecmd(buf)); wait(0);] The child works on a
    copy of the memory. *)
Definition fork_run (buf : Z) : U W unit := fun s =>
  if negb (sys_fork (u_world s)) then upanic (lit "fork") s else
  match parsecmd buf s with
  | Returns (h, c) s' =>
      Returns tt (mkustate (u_mem s) (sys_child (runcmd (u_mem s') h c (S (length h))) (u_world s')))
  | Exits _ s' => Returns tt (mkustate (u_mem s) (u_world s'))
  | Unbounded => Unbounded
  end.

(** Opening descriptors until 0, 1 and 2 are in use. *)
Fixpoint open_console (console : Z) (fuel : nat) : U W unit :=
  match fuel with
  | O => unbounded
  | S f =>
      fd <- open console O_RDWR;;
      if negb (fd >=? 0) then uret tt else
      if fd >=? 3 then close fd;; uret tt else open_console console f
  end.

(** [fuel] bounds the number of lines. *)
Fixpoint main_loop (fuel : nat) : U W Z :=
  match fuel with
  | O => unbounded
  | S f =>
      r <- getcmd sh_buf 100;;
      if negb (r >=? 0) then exit 0 else
      m <- umem;;
      if (ld8 m sh_buf =? 99) && (ld8 m (sh_buf + 1) =? 100) && (ld8 m (sh_buf + 2) =? 32) then
        n <- ulift (strlen m sh_buf);;
        uset (st8 (sh_buf + n - 1) 0);;
        r <- chdir (sh_buf + 3);;
        (if r <? 0 then fprintf 2 (lit "cannot cd %s" ++ [10]) [sh_buf + 3] else uret tt);;
        main_loop f
      else
        fork_run sh_buf;;
        main_loop f
  end.

(** [console] is the address of the constant "console". *)
Definition main (console : Z) (fuel : nat) : U W Z :=
  open_console console fuel;;
  main_loop fuel.
End Main.
End Shell.
