(* ===== verification/ShellSpec.v ===== *)
(** * The language of the shell

    Tokens, the grammar of command lines, and a parser on tokens that decides
    the grammar. [ShellProps] relates the parser of [Shell], which works on
    the bytes of a line, to this one. *)

From stdpp Require Import gmap strings list.
From Stdlib Require Import ZArith Lia.
From S2P Require Import Prelude KState CString User Shell.
Open Scope Z_scope.
Import Ulib Shell.

(** ** Tokens *)

(** A word, or a symbol by the number [gettoken] returns for it: the character,
    or 43 for [>>]. *)
Inductive token : Type :=
| Word (w : list Z)
| Sym (c : Z).

#[global] Instance token_eq_dec : EqDecision token.
Proof. solve_decision. Defined.

Definition space (c : Z) : bool := in_chars whitespace c.
Definition symbol (c : Z) : bool := in_chars symbols c.
Definition wordchar (c : Z) : bool := negb (c =? 0) && negb (space c) && negb (symbol c).

Definition flush (w : list Z) (ts : list token) : list token := match w with [] => ts | _ => Word w :: ts end.

(** The tokens of a line; [w] is the word that is being read. *)
Fixpoint lex (w l : list Z) : list token :=
  match l with
  | [] => flush w []
  | c :: l1 =>
      if space c then flush w (lex [] l1)
      else if symbol c then
        flush w (if c =? 62 then
                   match l1 with
                   | c2 :: l2 => if c2 =? 62 then Sym 43 :: lex [] l2 else Sym 62 :: lex [] l1
                   | [] => [Sym 62]
                   end
                 else Sym c :: lex [] l1)
      else lex (w ++ [c]) l1
  end.

Definition tokens (l : list Z) : list token := lex [] l.

(** ** Commands *)

Inductive command : Type :=
| CExec (argv : list (list Z))
| CRedir (c : command) (file : list Z) (mode fd : Z)
| CPipe (l r : command)
| CList (l r : command)
| CBack (c : command).

(** A redirection: its symbol and its file. *)
Definition rd : Type := Z * list Z.

Definition rmode (k : Z) : Z :=
  if k =? 60 then O_RDONLY else if k =? 62 then Z.lor (Z.lor O_WRONLY O_CREATE) O_TRUNC else Z.lor O_WRONLY O_CREATE.
Definition rfd (k : Z) : Z := if k =? 60 then 0 else 1.
Definition is_rd (k : Z) : bool := in_chars (60 :: 62 :: 43 :: []) k.

Definition wrap (c : command) (r : rd) : command := CRedir c r.2 (rmode r.1) (rfd r.1).

Fixpoint backs (n : nat) (c : command) : command := match n with O => c | S n' => backs n' (CBack c) end.

(** ** The grammar

    [line ::= pipe &* | pipe &* ; line], [pipe ::= exec | exec "|" pipe],
    [exec ::= "(" line ")" redir* | (word | redir)*]. *)

(** A part of a simple command. *)
Inductive item : Type :=
| Arg (w : list Z)
| Rd (r : rd).

Definition rd_toks (r : rd) : list token := [Sym r.1; Word r.2].
Definition item_toks (i : item) : list token := match i with Arg w => [Word w] | Rd r => rd_toks r end.
Definition args_of (l : list item) : list (list Z) := omap (fun i => match i with Arg w => Some w | _ => None end) l.
Definition rds_of (l : list item) : list rd := omap (fun i => match i with Rd r => Some r | _ => None end) l.

Definition rds_ok (l : list rd) : Prop := Forall (fun r => is_rd r.1 = true) l.

Inductive is_line : list token -> command -> Prop :=
| line_end ts c n : is_pipe ts c -> is_line (ts ++ replicate n (Sym 38)) (backs n c)
| line_seq ts c n ts' c' : is_pipe ts c -> is_line ts' c' ->
    is_line (ts ++ replicate n (Sym 38) ++ Sym 59 :: ts') (CList (backs n c) c')
with is_pipe : list token -> command -> Prop :=
| pipe_end ts c : is_exec ts c -> is_pipe ts c
| pipe_bar ts c ts' c' : is_exec ts c -> is_pipe ts' c' -> is_pipe (ts ++ Sym 124 :: ts') (CPipe c c')
with is_exec : list token -> command -> Prop :=
| exec_simple l : rds_ok (rds_of l) -> (length (args_of l) < MAXARGS)%nat ->
    is_exec (concat (map item_toks l)) (foldl wrap (CExec (args_of l)) (rds_of l))
| exec_block ts c rs : is_line ts c -> rds_ok rs ->
    is_exec (Sym 40 :: ts ++ Sym 41 :: concat (map rd_toks rs)) (foldl wrap c rs).

(** ** A parser on tokens *)

Inductive tres (A : Type) : Type :=
| TOk (a : A) (ts : list token)
| TFail
| TFuel.
Arguments TOk {A}.
Arguments TFail {A}.
Arguments TFuel {A}.

(** The character a token begins with, as [peek] sees it. *)
Definition starts (cs : list Z) (ts : list token) : bool :=
  match ts with
  | Sym c :: _ => in_chars cs (if c =? 43 then 62 else c)
  | _ => false
  end.

Fixpoint tredirs (ts : list token) : option (list rd * list token) :=
  match ts with
  | Sym k :: ts1 =>
      if is_rd k then
        match ts1 with
        | Word w :: ts2 => match tredirs ts2 with Some (rs, ts') => Some ((k, w) :: rs, ts') | None => None end
        | _ => None
        end
      else Some ([], ts)
  | _ => Some ([], ts)
  end.

(** The loop of [parseexec], after [n] words: the words and redirections. *)
Fixpoint targs (n : nat) (fuel : nat) (ts : list token) : option (list (list Z) * list rd * list token) :=
  match fuel with
  | O => None
  | S f =>
      if starts (lit "|)&;") ts then Some ([], [], ts) else
      match ts with
      | [] => Some ([], [], [])
      | Word w :: ts1 =>
          if (MAXARGS <=? S n)%nat then None else
          match tredirs ts1 with
          | Some (rs, ts2) =>
              match targs (S n) f ts2 with
              | Some (ws, rs', ts') => Some (w :: ws, rs ++ rs', ts')
              | None => None
              end
          | None => None
          end
      | Sym _ :: _ => None
      end
  end.

(** The number of [&] in front. *)
Fixpoint tbacks (ts : list token) : nat * list token :=
  match ts with
  | Sym c :: ts1 => if c =? 38 then let '(n, ts') := tbacks ts1 in (S n, ts') else (O, ts)
  | _ => (O, ts)
  end.

Definition tbind {A B} (r : tres A) (f : A -> list token -> tres B) : tres B :=
  match r with TOk a ts => f a ts | TFail => TFail | TFuel => TFuel end.

Definition tsimple (ts : list token) : tres command :=
  match tredirs ts with
  | Some (rs, ts1) =>
      match targs 0 (S (length ts1)) ts1 with
      | Some (ws, rs', ts2) => TOk (foldl wrap (CExec ws) (rs ++ rs')) ts2
      | None => TFail
      end
  | None => TFail
  end.

Fixpoint tline (fuel : nat) (ts : list token) : tres command :=
  match fuel with
  | O => TFuel
  | S f =>
      tbind (tpipe f ts) (fun c ts1 =>
        let '(n, ts2) := tbacks ts1 in
        if starts (lit ";") ts2 then tbind (tline f (tail ts2)) (fun c' ts3 => TOk (CList (backs n c) c') ts3)
        else TOk (backs n c) ts2)
  end
with tpipe (fuel : nat) (ts : list token) : tres command :=
  match fuel with
  | O => TFuel
  | S f =>
      tbind (texec f ts) (fun c ts1 =>
        if starts (lit "|") ts1 then tbind (tpipe f (tail ts1)) (fun c' ts2 => TOk (CPipe c c') ts2)
        else TOk c ts1)
  end
with texec (fuel : nat) (ts : list token) : tres command :=
  match fuel with
  | O => TFuel
  | S f => if starts (lit "(") ts then tblock f ts else tsimple ts
  end
with tblock (fuel : nat) (ts : list token) : tres command :=
  match fuel with
  | O => TFuel
  | S f =>
      tbind (tline f (tail ts)) (fun c ts1 =>
        if starts (lit ")") ts1 then
          match tredirs (tail ts1) with
          | Some (rs, ts2) => TOk (foldl wrap c rs) ts2
          | None => TFail
          end
        else TFail)
  end.

(** ** The parser on tokens is sound *)

Lemma tredirs_sound ts : forall rs ts', tredirs ts = Some (rs, ts') -> ts = concat (map rd_toks rs) ++ ts' /\ rds_ok rs.
Proof.
  induction ts as [ts IH] using (induction_ltof1 _ (@length token)). unfold ltof in IH. intros rs ts'.
  destruct ts as [|[w|k] ts1]; cbn [tredirs]; [intros [= <- <-]; split; [done|constructor]..|].
  destruct (is_rd k) eqn:Ek; [|intros [= <- <-]; split; [done|constructor]].
  destruct ts1 as [|[w|] ts2]; [done| |done]. destruct (tredirs ts2) as [[rs2 ts3]|] eqn:E; [|done]. intros [= <- <-].
  destruct (IH ts2 ltac:(cbn; lia) _ _ E) as [-> H]. split; [done|by constructor].
Qed.

Lemma args_of_rds rs l : args_of (map Rd rs ++ l) = args_of l.
Proof. induction rs as [|r rs IH]; [done|exact IH]. Qed.

Lemma rds_of_rds rs l : rds_of (map Rd rs ++ l) = rs ++ rds_of l.
Proof. induction rs as [|r rs IH]; [done|]. cbn. f_equal. exact IH. Qed.

Lemma toks_of_rds rs l : concat (map item_toks (map Rd rs ++ l)) = concat (map rd_toks rs) ++ concat (map item_toks l).
Proof. by rewrite map_app, concat_app, map_map. Qed.

Lemma targs_sound fuel : forall n ts ws rs ts', targs n fuel ts = Some (ws, rs, ts') -> (n < MAXARGS)%nat ->
  exists l, ts = concat (map item_toks l) ++ ts' /\ args_of l = ws /\ rds_of l = rs /\ rds_ok rs /\ (n + length ws < MAXARGS)%nat.
Proof.
  induction fuel as [|f IH]; intros n ts ws rs ts' E Hn; [done|]. cbn [targs] in E.
  destruct (starts _ ts); [injection E as <- <- <-; exists []; cbn; split_and!; [done..|constructor|lia]|].
  destruct ts as [|[w|] ts1]; [injection E as <- <- <-; exists []; cbn; split_and!; [done..|constructor|lia]| |done].
  destruct (Nat.leb_spec MAXARGS (S n)); [done|]. destruct (tredirs ts1) as [[rs1 ts2]|] eqn:E1; [|done].
  destruct (targs (S n) f ts2) as [[[ws2 rs2] ts3]|] eqn:E2; [|done]. injection E as <- <- <-.
  destruct (tredirs_sound _ _ _ E1) as [-> H1]. destruct (IH _ _ _ _ _ E2 ltac:(lia)) as (l & -> & <- & <- & H2 & H3).
  exists (Arg w :: map Rd rs1 ++ l). split; [change (Word w :: concat (map rd_toks rs1) ++ concat (map item_toks l) ++ ts3 =
    Word w :: concat (map item_toks (map Rd rs1 ++ l)) ++ ts3); by rewrite toks_of_rds, <- app_assoc|].
  split; [change (w :: args_of (map Rd rs1 ++ l) = w :: args_of l); by rewrite args_of_rds|].
  split; [exact (rds_of_rds rs1 l)|]. split; [by apply Forall_app|]. cbn [length]. lia.
Qed.

Lemma tbacks_sound ts n ts' : tbacks ts = (n, ts') -> ts = replicate n (Sym 38) ++ ts' /\ starts (lit "&") ts' = false.
Proof.
  revert n. induction ts as [|[w|c] ts IH]; intros n; cbn [tbacks]; [by intros [= <- <-]..|].
  destruct (Z.eqb_spec c 38) as [->|Hc].
  - destruct (tbacks ts) as [k ts1]. intros [= <- <-]. destruct (IH _ eq_refl) as [-> H]. done.
  - intros [= <- <-]. split; [done|]. cbn [starts]. destruct (Z.eqb_spec c 43); [done|].
    change (lit "&") with [38]. cbn [in_chars]. by rewrite (proj2 (Z.eqb_neq 38 c)) by lia.
Qed.

Lemma tsimple_sound ts c ts' : tsimple ts = TOk c ts' -> exists u, ts = u ++ ts' /\ is_exec u c.
Proof.
  unfold tsimple. destruct (tredirs ts) as [[rs ts1]|] eqn:E1; [|done].
  destruct (targs 0 _ ts1) as [[[ws rs'] ts2]|] eqn:E2; [|done]. intros [= <- <-].
  destruct (tredirs_sound _ _ _ E1) as [-> H1]. destruct (targs_sound _ _ _ _ _ _ E2 ltac:(unfold MAXARGS; lia)) as (l & -> & <- & <- & H2 & H3).
  exists (concat (map item_toks (map Rd rs ++ l))). split; [by rewrite toks_of_rds, <- app_assoc|].
  rewrite <- rds_of_rds, <- (args_of_rds rs l). apply exec_simple; rewrite ?rds_of_rds, ?args_of_rds; [by apply Forall_app|exact H3].
Qed.

Lemma tail_sym cs ts c0 : starts cs ts = true -> cs = [c0] -> c0 <> 62 -> ts = Sym c0 :: tail ts.
Proof.
  intros H -> Hc. destruct ts as [|[w|c] ts]; [done..|]. cbn [starts in_chars] in H. cbn [tail].
  destruct (Z.eqb_spec c 43); [destruct (Z.eqb_spec c0 62)|destruct (Z.eqb_spec c0 c)]; congruence.
Qed.

(** What a parser function has read, and what it made of it. *)
Definition sound (f : list token -> tres command) (R : list token -> command -> Prop) : Prop :=
  forall ts c ts', f ts = TOk c ts' -> exists u, ts = u ++ ts' /\ R u c.

Lemma parser_sound fuel :
  sound (tline fuel) is_line /\ sound (tpipe fuel) is_pipe /\ sound (texec fuel) is_exec /\
  forall ts c ts', starts (lit "(") ts = true -> tblock fuel ts = TOk c ts' -> exists u, ts = u ++ ts' /\ is_exec u c.
Proof.
  induction fuel as [|f (IHl & IHp & IHe & IHb)]; [by split_and!|]. split_and!.
  - intros ts c ts' E. cbn [tline] in E. destruct (tpipe f ts) as [c1 ts1| |] eqn:E1; [|done..].
    destruct (IHp _ _ _ E1) as (u & -> & Hu). cbn [tbind] in E. destruct (tbacks ts1) as [n ts2] eqn:E2.
    apply tbacks_sound in E2 as [-> _]. destruct (starts (lit ";") ts2) eqn:E3.
    + rewrite (tail_sym _ _ 59 E3 eq_refl) by done. destruct (tline f (tail ts2)) as [c3 ts3| |] eqn:E4; [|done..].
      injection E as <- <-. destruct (IHl _ _ _ E4) as (v & -> & Hv). eexists. split; [|by apply line_seq]. by rewrite <- !app_assoc.
    + injection E as <- <-. eexists. split; [|by apply line_end]. by rewrite app_assoc.
  - intros ts c ts' E. cbn [tpipe] in E. destruct (texec f ts) as [c1 ts1| |] eqn:E1; [|done..].
    destruct (IHe _ _ _ E1) as (u & -> & Hu). cbn [tbind] in E. destruct (starts (lit "|") ts1) eqn:E3.
    + rewrite (tail_sym _ _ 124 E3 eq_refl) by done. destruct (tpipe f (tail ts1)) as [c3 ts3| |] eqn:E4; [|done..].
      injection E as <- <-. destruct (IHp _ _ _ E4) as (v & -> & Hv). eexists. split; [|by apply pipe_bar]. by rewrite <- app_assoc.
    + injection E as <- <-. eexists. split; [done|by apply pipe_end].
  - intros ts c ts' E. cbn [texec] in E. destruct (starts (lit "(") ts) eqn:E1; [by apply IHb|by apply tsimple_sound].
  - intros ts c ts' E0 E. cbn [tblock] in E. rewrite (tail_sym _ _ 40 E0 eq_refl) by done.
    destruct (tline f (tail ts)) as [c1 ts1| |] eqn:E1; [|done..]. destruct (IHl _ _ _ E1) as (u & -> & Hu). cbn [tbind] in E.
    destruct (starts (lit ")") ts1) eqn:E2; [|done]. rewrite (tail_sym _ _ 41 E2 eq_refl) by done.
    destruct (tredirs (tail ts1)) as [[rs ts2]|] eqn:E3; [|done]. injection E as <- <-. destruct (tredirs_sound _ _ _ E3) as [-> Hr].
    eexists. split; [|by apply exec_block]. cbn [app]. by rewrite <- app_assoc.
Qed.

(** ** The bound on the nesting is enough *)

Lemma tsimple_total ts : tsimple ts <> TFuel.
Proof. unfold tsimple. repeat case_match; done. Qed.

Lemma parser_total fuel :
  (forall ts, (4 * length ts + 4 <= fuel)%nat -> tline fuel ts <> TFuel) /\
  (forall ts, (4 * length ts + 3 <= fuel)%nat -> tpipe fuel ts <> TFuel) /\
  (forall ts, (4 * length ts + 2 <= fuel)%nat -> texec fuel ts <> TFuel) /\
  (forall ts, ts <> [] -> (4 * length ts + 1 <= fuel)%nat -> tblock fuel ts <> TFuel).
Proof.
  induction fuel as [|f (IHl & IHp & IHe & IHb)]; [split_and!; intros; lia|].
  destruct (parser_sound f) as (Sl & Sp & Se & _). split_and!; intros ts.
  - intros Hf. cbn [tline]. specialize (IHp ts ltac:(lia)). destruct (tpipe f ts) as [c ts1| |] eqn:E1; [|done..]. cbn [tbind].
    destruct (Sp _ _ _ E1) as (u & -> & _). destruct (tbacks ts1) as [n ts2] eqn:E2. apply tbacks_sound in E2 as [-> _].
    destruct (starts (lit ";") ts2) eqn:E3; [|done]. rewrite (tail_sym _ _ 59 E3 eq_refl) in Hf by done.
    rewrite !length_app in Hf. cbn [length] in Hf. specialize (IHl (tail ts2) ltac:(lia)). by destruct (tline f (tail ts2)).
  - intros Hf. cbn [tpipe]. specialize (IHe ts ltac:(lia)). destruct (texec f ts) as [c ts1| |] eqn:E1; [|done..]. cbn [tbind].
    destruct (Se _ _ _ E1) as (u & -> & _). destruct (starts (lit "|") ts1) eqn:E3; [|done].
    rewrite (tail_sym _ _ 124 E3 eq_refl) in Hf by done. rewrite !length_app in Hf. cbn [length] in Hf.
    specialize (IHp (tail ts1) ltac:(lia)). by destruct (tpipe f (tail ts1)).
  - intros Hf. cbn [texec]. destruct (starts (lit "(") ts) eqn:E1; [|apply tsimple_total].
    apply IHb; [by intros ->|lia].
  - intros Hne Hf. cbn [tblock]. destruct ts as [|t ts]; [done|]. cbn [tail length] in *. specialize (IHl ts ltac:(lia)).
    destruct (tline f ts); cbn [tbind]; [|done..]. repeat case_match; done.
Qed.

(** ** The parser on tokens is complete *)

(** [rest] is empty or begins with one of [cs]. *)
Definition follows (cs : list Z) (rest : list token) : Prop := rest = [] \/ starts cs rest = true.

Lemma follows_weaken cs cs' rest : (forall c, in_chars cs c = true -> in_chars cs' c = true) -> follows cs rest -> follows cs' rest.
Proof. intros H [->|Hs]; [by left|]. right. destruct rest as [|[w|c] rest]; [done..|]. by apply H. Qed.

Lemma starts_other cs cs' rest :
  follows cs rest -> (forall c, in_chars cs c = true -> in_chars cs' c = false) -> starts cs' rest = false.
Proof. intros [->|Hs] H; [done|]. destruct rest as [|[w|c] rest]; [done..|]. by apply H. Qed.

(** Facts about which symbols belong to which set. *)
Ltac chars :=
  let x := fresh "x" in
  intros x; cbn; repeat (match goal with |- context [?a =? x] => destruct (Z.eqb_spec a x) end; [subst; cbn; done|]); done.

Lemma rd_cases k : is_rd k = true -> k = 60 \/ k = 62 \/ k = 43.
Proof. intros E. apply UlibProps.in_chars_elem in E. rewrite !elem_of_cons, elem_of_nil in E. naive_solver. Qed.

Lemma tredirs_stop rest : starts (lit "<>") rest = false -> tredirs rest = Some ([], rest).
Proof.
  destruct rest as [|[w|k] rest]; [done..|]. cbn [starts tredirs]. intros H. destruct (is_rd k) eqn:E; [|done]. exfalso.
  destruct (rd_cases k E) as [->|[->| ->]]; done.
Qed.

Lemma tredirs_complete rs rest : rds_ok rs -> starts (lit "<>") rest = false -> tredirs (concat (map rd_toks rs) ++ rest) = Some (rs, rest).
Proof.
  intros Hr Hs. induction Hr as [|[k w] rs Hk Hr IH]; [by apply tredirs_stop|]. cbn in Hk |- *. rewrite Hk. by rewrite IH.
Qed.

Lemma items_complete l : forall n rest, rds_ok (rds_of l) -> (n + length (args_of l) < MAXARGS)%nat -> follows (lit "|)&;") rest ->
  exists rs ts1 rs', tredirs (concat (map item_toks l) ++ rest) = Some (rs, ts1) /\
    (forall k, (length ts1 < k)%nat -> targs n k ts1 = Some (args_of l, rs', rest)) /\ rs ++ rs' = rds_of l.
Proof.
  induction l as [|[w|[r f]] l IH]; intros n rest Hr Hn Hs.
  - exists [], rest, []. split; [apply tredirs_stop, (starts_other _ _ _ Hs); chars|]. split; [|done].
    intros [|k] Hk; [lia|]. cbn [targs]. destruct Hs as [->|Hs]; [done|]. by rewrite Hs.
  - change (length (args_of (Arg w :: l))) with (S (length (args_of l))) in Hn.
    destruct (IH (S n) rest Hr ltac:(lia) Hs) as (rs & ts1 & rs' & E1 & E2 & E3).
    exists [], (Word w :: concat (map item_toks l) ++ rest), (rs ++ rs'). split; [done|]. split; [|done].
    intros [|k] Hk; [lia|]. cbn [targs starts]. destruct (Nat.leb_spec MAXARGS (S n)); [lia|]. rewrite E1.
    destruct (tredirs_sound _ _ _ E1) as [E _]. rewrite E2; [done|]. cbn [length] in Hk. rewrite E, length_app in Hk. lia.
  - change (rds_of (Rd (r, f) :: l)) with ((r, f) :: rds_of l) in *. apply Forall_cons in Hr as [Hk Hr]. cbn [fst] in Hk.
    destruct (IH n rest Hr Hn Hs) as (rs & ts1 & rs' & E1 & E2 & E3). exists ((r, f) :: rs), ts1, rs'.
    split; [|split; [exact E2|cbn; by rewrite E3]]. change (tredirs (Sym r :: Word f :: concat (map item_toks l) ++ rest) = Some ((r, f) :: rs, ts1)).
    cbn [tredirs]. by rewrite Hk, E1.
Qed.

Lemma tbacks_complete n rest : starts (lit "&") rest = false -> tbacks (replicate n (Sym 38) ++ rest) = (n, rest).
Proof.
  intros Hs. induction n as [|n IH]; [|cbn; by rewrite IH]. cbn. destruct rest as [|[w|c] rest]; [done..|]. cbn in *.
  destruct (Z.eqb_spec c 38) as [->|]; done.
Qed.

Scheme is_line_mut := Minimality for is_line Sort Prop
  with is_pipe_mut := Minimality for is_pipe Sort Prop
  with is_exec_mut := Minimality for is_exec Sort Prop.
Combined Scheme grammar_ind from is_line_mut, is_pipe_mut, is_exec_mut.

Lemma exec_not_block l rest : follows (lit "|)&;") rest -> starts (lit "(") (concat (map item_toks l) ++ rest) = false \/ exists r l', l = Rd r :: l'.
Proof.
  intros Hs. destruct l as [|[w|r] l]; [left; apply (starts_other _ _ _ Hs); chars|by left|right; eauto].
Qed.

Lemma parser_complete :
  (forall u c, is_line u c -> forall f rest, follows (lit ")") rest -> (4 * length (u ++ rest) + 4 <= f)%nat -> tline f (u ++ rest) = TOk c rest) /\
  (forall u c, is_pipe u c -> forall f rest, follows (lit ")&;") rest -> (4 * length (u ++ rest) + 3 <= f)%nat -> tpipe f (u ++ rest) = TOk c rest) /\
  (forall u c, is_exec u c -> forall f rest, follows (lit "|)&;") rest -> (4 * length (u ++ rest) + 2 <= f)%nat -> texec f (u ++ rest) = TOk c rest).
Proof.
  apply grammar_ind.
  - intros ts c n _ IH [|f] rest Hs Hf; [lia|]. rewrite <- app_assoc in *. cbn [tline]. rewrite IH; [|destruct n as [|n]; [apply (follows_weaken (lit ")")); [chars|exact Hs]|by right]|lia].
    cbn [tbind]. rewrite tbacks_complete by (apply (starts_other _ _ _ Hs); chars). by rewrite (starts_other _ (lit ";") _ Hs) by chars.
  - intros ts c n ts' c' _ IH _ IH' [|f] rest Hs Hf; [lia|]. rewrite <- !app_assoc in *. cbn [app] in *. cbn [tline].
    rewrite IH; [|destruct n; by right|lia]. cbn [tbind]. rewrite tbacks_complete by done. cbn [starts tail]. change (in_chars _ _) with true. cbv iota.
    rewrite IH'; [done|done|]. rewrite !length_app in *. cbn [length] in Hf. rewrite length_app in Hf. lia.
  - intros ts c _ IH [|f] rest Hs Hf; [lia|]. cbn [tpipe]. rewrite IH; [|apply (follows_weaken (lit ")&;")); [chars|exact Hs]|lia].
    cbn [tbind]. by rewrite (starts_other _ (lit "|") _ Hs) by chars.
  - intros ts c ts' c' _ IH _ IH' [|f] rest Hs Hf; [lia|]. rewrite <- app_assoc in *. cbn [app] in *. cbn [tpipe].
    rewrite IH; [|by right|lia]. cbn [tbind starts tail]. change (in_chars _ _) with true. cbv iota.
    rewrite IH'; [done|done|]. rewrite !length_app in *. cbn [length] in Hf. rewrite length_app in Hf. lia.
  - intros l Hr Hn [|f] rest Hs Hf; [lia|]. cbn [texec].
    destruct (items_complete l 0 rest Hr Hn Hs) as (rs & ts1 & rs' & E1 & E2 & E3).
    assert (starts (lit "(") (concat (map item_toks l) ++ rest) = false) as ->.
    { destruct (exec_not_block l rest Hs) as [H|([k w] & l' & ->)]; [done|]. cbn in Hr. apply Forall_cons in Hr as [Hk _].
      destruct (rd_cases k Hk) as [->|[->| ->]]; done. }
    unfold tsimple. rewrite E1, E2 by lia. by rewrite E3.
  - intros ts c rs _ IH Hr [|[|f]] rest Hs Hf; [lia|cbn in Hf; lia|]. cbn [texec app starts]. change (in_chars _ _) with true. cbv iota. cbn [tblock tail].
    rewrite <- app_assoc in *. cbn [app] in *. rewrite IH; [|by right|cbn [length] in Hf; rewrite !length_app in *; cbn [length] in *; rewrite !length_app in *; lia].
    cbn [tbind starts tail]. change (in_chars _ _) with true.
    cbv iota. by rewrite tredirs_complete by (done || (apply (starts_other _ _ _ Hs); chars)).
Qed.

(** [line] has the tokens of the command [c]. *)
Definition denotes (line : list Z) (c : command) : Prop := is_line (tokens line) c.

Lemma tline_decides ts f : (4 * length ts + 4 <= f)%nat ->
  match tline f ts with
  | TOk c [] => is_line ts c
  | TOk _ _ | TFail => forall c, ~ is_line ts c
  | TFuel => False
  end.
Proof.
  intros Hf. assert (Hc : forall c, is_line ts c -> tline f ts = TOk c []).
  { intros c H. pose proof (proj1 parser_complete ts c H f [] ltac:(by left)) as E. rewrite app_nil_r in E. by apply E. }
  destruct (tline f ts) as [c [|t ts']| |] eqn:E.
  - destruct (proj1 (parser_sound f) _ _ _ E) as (u & -> & H). by rewrite app_nil_r.
  - intros c' H. by apply Hc in H.
  - intros c' H. by apply Hc in H.
  - by apply (proj1 (parser_total f) ts Hf).
Qed.
