(* ===== verification/ShellProps.v ===== *)
(** * The shell parses the language of [ShellSpec]

    The parser on the bytes of a line and on nodes in memory follows the
    parser on tokens step by step. The file ends with what [nulterminate] and
    [runcmd] do with the tree. *)

From stdpp Require Import gmap strings list.
From Stdlib Require Import ZArith Lia.
From S2P Require Import Prelude KState CString User UPrintf Shell ShellSpec.
Open Scope Z_scope.
Import Ulib UlibProps UPrintf Shell.

(** ** Tokens of a line in memory *)

Lemma wordchar_spec c : wordchar c = true -> c <> 0 /\ space c = false /\ symbol c = false.
Proof. unfold wordchar. destruct (Z.eqb_spec c 0), (space c), (symbol c); naive_solver. Qed.

Lemma lex_word w l : forall w', Forall (fun c => wordchar c = true) w -> lex w' (w ++ l) = lex (w' ++ w) l.
Proof.
  induction w as [|c w IH]; intros w' Hw; [by rewrite app_nil_r|]. apply Forall_cons in Hw as [Hc Hw].
  destruct (wordchar_spec c Hc) as (_ & H1 & H2). cbn [app lex]. rewrite H1, H2. rewrite IH by done. by rewrite <- app_assoc.
Qed.

(** A word ends at the end of the line, a space or a symbol. *)
Definition word_ends (l : list Z) : Prop := match l with [] => True | c :: _ => wordchar c = false end.

Lemma lex_flush w l : word_ends l -> 0 ∉ l -> lex w l = flush w (lex [] l).
Proof.
  destruct l as [|c l]; [done|]. intros Hc Hz. cbn [word_ends] in Hc. cbn [lex]. destruct (space c) eqn:E1; [done|].
  destruct (symbol c) eqn:E2; [done|]. unfold wordchar in Hc. rewrite E1, E2 in Hc. cbn in Hc.
  destruct (Z.eqb_spec c 0) as [->|]; [exfalso; apply Hz; left|done].
Qed.

Section Line.
Context (m : mem) (es : Z).

(** The rest of the line is [l]. *)
Definition line_at (s : Z) (l : list Z) : Prop := is_str m s l /\ s + Z.of_nat (length l) = es /\ 0 < s.

(** The tokens [ts] are left at [s]. *)
Definition at_toks (s : Z) (ts : list token) : Prop := exists l, line_at s l /\ tokens l = ts.

Lemma line_at_cons s c l : line_at s (c :: l) -> ld8 m s = c /\ c <> 0 /\ s < es /\ line_at (s + 1) l.
Proof.
  intros (H1 & H2 & H3). apply is_str_cons in H1 as (Hc & Hn & H1). cbn [length] in H2. split; [done|]. split; [done|]. split; [lia|].
  split; [done|]. split; lia.
Qed.

Lemma line_at_nil s : line_at s [] -> ld8 m s = 0 /\ s = es.
Proof. intros (H1 & H2 & _). apply is_str_nil in H1. cbn in H2. split; [done|lia]. Qed.

Lemma room_at s l : line_at s l -> room es s = length l.
Proof. intros (_ & H & _). unfold room. lia. Qed.

Lemma line_no_nul s l : line_at s l -> 0 ∉ l.
Proof. intros (H & _). by apply (is_str_no_nul m s). Qed.

(** The loop over white space. *)
Lemma skip_space_run l : forall s, line_at s l ->
  exists l', line_at (skip_space m es s (length l)) l' /\ tokens l' = tokens l /\ match l' with [] => True | c :: _ => space c = false end.
Proof.
  induction l as [|c l IH]; intros s Hl; [by exists []|]. pose proof (line_at_cons _ _ _ Hl) as (Hc & _ & Hs & Hl').
  cbn [skip_space length]. rewrite (proj2 (Z.ltb_lt _ _)), Hc by done. cbn [andb]. fold (space c). destruct (space c) eqn:E.
  - destruct (IH _ Hl') as (l' & H1 & H2 & H3). exists l'. split; [done|]. split; [|done]. rewrite H2. unfold tokens. cbn [lex]. by rewrite E.
  - exists (c :: l). done.
Qed.

(** The loop over the characters of a word. *)
Lemma skip_word_run l : forall s, line_at s l ->
  exists w l', l = w ++ l' /\ skip_word m es s (length l) = s + Z.of_nat (length w) /\ Forall (fun c => wordchar c = true) w /\ word_ends l'.
Proof.
  induction l as [|c l IH]; intros s Hl; [exists [], []; cbn; rewrite Z.add_0_r; done|].
  pose proof (line_at_cons _ _ _ Hl) as (Hc & Hn & Hs & Hl'). cbn [skip_word length]. rewrite (proj2 (Z.ltb_lt _ _)), Hc by done. cbn [andb].
  fold (space c) (symbol c). assert (E : wordchar c = negb (space c) && negb (symbol c)) by (unfold wordchar; by rewrite (proj2 (Z.eqb_neq c 0))).
  rewrite <- E. destruct (wordchar c) eqn:Ec.
  - destruct (IH _ Hl') as (w & l' & -> & -> & H1 & H2). exists (c :: w), l'. split; [done|]. split; [cbn [length]; lia|]. split; [by constructor|done].
  - exists [], (c :: l). cbn [length]. rewrite Z.add_0_r. done.
Qed.

Lemma line_at_app s w l : line_at s (w ++ l) -> line_at (s + Z.of_nat (length w)) l.
Proof.
  revert s. induction w as [|c w IH]; intros s Hl; [cbn; by rewrite Z.add_0_r|].
  apply line_at_cons in Hl as (_ & _ & _ & Hl). apply IH in Hl. cbn [length]. by replace (s + Z.of_nat (S (length w))) with (s + 1 + Z.of_nat (length w)) by lia.
Qed.

(** The word [w] is at [q] and ends at [eq]. *)
Record word_at (q eq : Z) (w : list Z) : Prop := {
  wa_pos : 0 < q;
  wa_len : eq = q + Z.of_nat (length w);
  wa_char : forall i x, w !! i = Some x -> ld8 m (q + Z.of_nat i) = x;
  wa_word : Forall (fun c => wordchar c = true) w;
  wa_end : wordchar (ld8 m eq) = false }.

Lemma word_at_line s w l : line_at s (w ++ l) -> Forall (fun c => wordchar c = true) w -> word_ends l -> word_at s (s + Z.of_nat (length w)) w.
Proof.
  intros Hl Hw He. pose proof (line_at_app _ _ _ Hl) as Hl'. destruct Hl as (H1 & H2 & H3). split; try done.
  - intros i x Hx. apply (is_str_ld8 m s (w ++ l)); [done|]. by apply lookup_app_l_Some.
  - destruct l as [|c l]; [by apply line_at_nil in Hl' as [-> _]|]. apply line_at_cons in Hl' as (-> & _). done.
Qed.

(** The number [gettoken] returns. *)
Definition kind (t : token) : Z := match t with Word _ => 97 | Sym c => c end.

Lemma symbol_cases c : symbol c = true -> c = 62 \/ in_chars (lit "|();&<") c = true.
Proof.
  intros H. apply in_chars_elem in H. change symbols with [60; 124; 62; 38; 59; 40; 41] in H. rewrite !elem_of_cons, elem_of_nil in H.
  destruct H as [->|[->|[->|[->|[->|[->|[->|[]]]]]]]]; auto.
Qed.

Lemma nonsymbol c : symbol c = false -> in_chars (lit "|();&<") c = false /\ c <> 62.
Proof.
  intros H. split; [|by intros ->]. destruct (in_chars (lit "|();&<") c) eqn:E; [|done]. apply in_chars_elem in E.
  change (lit "|();&<") with [124; 40; 41; 59; 38; 60] in E. rewrite !elem_of_cons, elem_of_nil in E.
  destruct E as [->|[->|[->|[->|[->|[->|[]]]]]]]; done.
Qed.

Lemma scan_run s c l : line_at s (c :: l) -> space c = false ->
  exists t eq l', scan m es s = (kind t, eq) /\ line_at eq l' /\ tokens (c :: l) = t :: tokens l' /\
    (forall w, t = Word w -> word_at s eq w) /\ (symbol c = false -> exists w, t = Word w).
Proof.
  intros Hl Hc. pose proof (line_at_cons _ _ _ Hl) as (E & Hn & Hs & Hl'). unfold scan. rewrite E, (proj2 (Z.eqb_neq c 0)) by done.
  destruct (symbol c) eqn:Ec.
  - assert (Et : tokens (c :: l) = if c =? 62 then match l with c2 :: l2 => if c2 =? 62 then Sym 43 :: tokens l2 else Sym 62 :: tokens l | [] => [Sym 62] end
      else Sym c :: tokens l) by (unfold tokens; cbn [lex]; by rewrite Hc, Ec).
    destruct (symbol_cases c Ec) as [->|H].
    + change (in_chars (lit "|();&<") 62) with false. rewrite Z.eqb_refl in *. destruct l as [|c2 l2].
      * apply line_at_nil in Hl' as [E2 E3]. rewrite E2. exists (Sym 62), (s + 1), []. split; [done|]. split; [|split; [exact Et|by split]].
        by apply line_at_cons in Hl as (_ & _ & _ & Hl).
      * pose proof (line_at_cons _ _ _ Hl') as (E2 & _ & _ & Hl2). rewrite E2. destruct (Z.eqb_spec c2 62) as [->|Hne].
        -- exists (Sym 43), (s + 2), l2. split; [done|]. split; [by replace (s + 2) with (s + 1 + 1) by lia|]. split; [exact Et|by split].
        -- exists (Sym 62), (s + 1), (c2 :: l2). split; [done|]. split; [done|]. split; [exact Et|by split].
    + rewrite H. assert (c <> 62) by (intros ->; done). rewrite (proj2 (Z.eqb_neq c 62)) in Et by done.
      exists (Sym c), (s + 1), l. split; [done|]. split; [done|]. split; [exact Et|by split].
  - destruct (nonsymbol c Ec) as [-> Hne]. rewrite (proj2 (Z.eqb_neq c 62)) by done.
    destruct (skip_word_run _ _ Hl) as (w & l' & El & Ew & Hw & He). rewrite (room_at _ _ Hl), Ew.
    exists (Word w), (s + Z.of_nat (length w)), l'. rewrite El in Hl |- *. pose proof (line_at_app _ _ _ Hl) as Hl2. split; [done|]. split; [done|].
    assert (w <> []).
    { intros ->. cbn in El. subst l'. cbn in He. unfold wordchar in He. by rewrite (proj2 (Z.eqb_neq c 0)), Hc, Ec in He. }
    split; [|split; [intros w' [= <-]; by apply (word_at_line s w l')|by exists w]].
    unfold tokens. rewrite lex_word by done. cbn [app]. rewrite lex_flush; [by destruct w|done|by apply (line_no_nul _ _ Hl2)].
Qed.

Lemma gettoken_run h s ts : at_toks s ts ->
  exists q eq s', gettoken m es (mkpstate h s) = POk (match ts with [] => 0 | t :: _ => kind t end, q, eq) (mkpstate h s') /\
    at_toks s' (tail ts) /\ forall w ts', ts = Word w :: ts' -> word_at q eq w.
Proof.
  intros (l & Hl & <-). unfold gettoken. cbn [ps_heap ps_s]. rewrite (room_at _ _ Hl).
  destruct (skip_space_run _ _ Hl) as (l1 & Hl1 & <- & Hsp). set (q := skip_space m es s (length l)) in *.
  destruct l1 as [|c l1].
  - pose proof (line_at_nil _ Hl1) as [E1 E2]. unfold scan. rewrite E1. cbn [Z.eqb]. exists q, q, (skip_space m es q (room es q)). split; [done|].
    destruct (skip_space_run _ _ Hl1) as (l2 & Hl2 & E3 & _). rewrite (room_at _ _ Hl1). split; [exists l2; split; [done|]; by rewrite E3|done].
  - destruct (scan_run q c l1 Hl1 Hsp) as (t & eq & l2 & E1 & Hl2 & E2 & Hw & _). rewrite E1, E2. rewrite (room_at _ _ Hl2).
    destruct (skip_space_run _ _ Hl2) as (l3 & Hl3 & E3 & _). eexists q, eq, _. split; [done|]. split; [exists l3; split; [done|exact E3]|].
    intros w ts' [= -> _]. by apply Hw.
Qed.

(** [peek] looks for symbols. *)
Lemma peek_run toks h s ts : at_toks s ts -> (forall c, in_chars toks c = true -> symbol c = true) ->
  exists s', peek m es toks (mkpstate h s) = POk (starts toks ts) (mkpstate h s') /\ at_toks s' ts /\ (ts = [] -> s' = es).
Proof.
  intros (l & Hl & <-) Ht. unfold peek. cbn [ps_heap ps_s]. rewrite (room_at _ _ Hl).
  destruct (skip_space_run _ _ Hl) as (l1 & Hl1 & E1 & Hsp). set (q := skip_space m es s (length l)) in *. exists q.
  split; [|split; [by exists l1|]].
  - f_equal. rewrite <- E1. destruct l1 as [|c l1]; [by apply line_at_nil in Hl1 as [-> _]|].
    pose proof (line_at_cons _ _ _ Hl1) as (-> & Hn & _). rewrite (proj2 (Z.eqb_neq c 0)) by done. cbn [negb andb].
    destruct (symbol c) eqn:Ec.
    + unfold tokens. cbn [lex]. rewrite Hsp, Ec. cbn [flush]. destruct (Z.eqb_spec c 62) as [->|Hne].
      * destruct l1 as [|c2 l2]; [done|]. by destruct (c2 =? 62).
      * cbn [starts]. destruct (Z.eqb_spec c 43) as [->|]; [by vm_compute in Ec|done].
    + destruct (in_chars toks c) eqn:E; [apply Ht in E; congruence|]. symmetry.
      destruct (scan_run q c l1 Hl1 Hsp) as (t & eq & l2 & _ & _ & E3 & _ & Hw). destruct (Hw Ec) as [w ->]. by rewrite E3.
  - intros E. destruct l1 as [|c l1]; [by apply line_at_nil in Hl1 as [_ ?]|]. destruct (scan_run q c l1 Hl1 Hsp) as (t & eq & l2 & _ & _ & E3 & _). congruence.
Qed.
End Line.

(** ** Command trees in memory *)

Section Tree.
Context (wd : Z -> Z -> list Z -> Prop) (h : list cmd).

(** The arrays [argv] and [eargv] hold the words [ws] and then null pointers. *)
Record args_at (argv eargv : list Z) (ws : list (list Z)) : Prop := {
  aa_len : length argv = MAXARGS;
  aa_elen : length eargv = MAXARGS;
  aa_max : (length ws < MAXARGS)%nat;
  aa_word : forall i w, ws !! i = Some w -> exists q eq, argv !! i = Some q /\ eargv !! i = Some eq /\ wd q eq w;
  aa_null : forall i, (length ws <= i < MAXARGS)%nat -> argv !! i = Some 0 }.

(** A pointer to a node made before node [n]. *)
Definition below (p : cmdptr) (n : nat) : Prop := exists k, p = Some k /\ (k < n)%nat.

(** [p] points to a tree for [c]; [wd q eq w] says that the word [w] is at [q]. *)
Fixpoint tree (p : cmdptr) (c : command) : Prop :=
  match c with
  | CExec ws => exists n argv eargv, p = Some n /\ h !! n = Some (EXEC argv eargv) /\ args_at argv eargv ws
  | CRedir c f mode fd => exists n p' q eq, p = Some n /\ h !! n = Some (REDIR p' q eq mode fd) /\ below p' n /\ wd q eq f /\ tree p' c
  | CPipe l r => exists n pl pr, p = Some n /\ h !! n = Some (PIPE pl pr) /\ below pl n /\ below pr n /\ tree pl l /\ tree pr r
  | CList l r => exists n pl pr, p = Some n /\ h !! n = Some (LIST pl pr) /\ below pl n /\ below pr n /\ tree pl l /\ tree pr r
  | CBack c => exists n p', p = Some n /\ h !! n = Some (BACK p') /\ below p' n /\ tree p' c
  end.

(** [p'] is [p] with the redirections [rs] around it. *)
Inductive wraps (p : cmdptr) : cmdptr -> list rd -> Prop :=
| wraps_nil : wraps p p []
| wraps_snoc n p' q eq rs k f :
    h !! n = Some (REDIR p' q eq (rmode k) (rfd k)) -> below p' n -> wd q eq f -> wraps p p' rs ->
    wraps p (Some n) (rs ++ [(k, f)]).

Lemma tree_wraps p p' c rs : tree p c -> wraps p p' rs -> tree p' (foldl wrap c rs).
Proof.
  intros Ht Hw. induction Hw as [|n p' q eq rs k f H1 H2 H3 H4 IH]; [done|]. rewrite foldl_snoc. cbn. exists n, p', q, eq. done.
Qed.

End Tree.

(** More nodes and weaker word predicates keep trees. *)
Lemma args_mono (wd wd' : Z -> Z -> list Z -> Prop) argv eargv ws :
  (forall q eq w, wd q eq w -> wd' q eq w) -> args_at wd argv eargv ws -> args_at wd' argv eargv ws.
Proof.
  intros H [H1 H2 H3 H4 H5]. split; try done. intros i w Hw. destruct (H4 i w Hw) as (q & eq & ? & ? & ?). exists q, eq. auto.
Qed.

Lemma tree_mono (wd wd' : Z -> Z -> list Z -> Prop) h h' : (forall q eq w, wd q eq w -> wd' q eq w) -> h `prefix_of` h' ->
  forall c p, tree wd h p c -> tree wd' h' p c.
Proof.
  intros H Hp. assert (Hl : forall n x, h !! n = Some x -> h' !! n = Some x) by (intros n x Hx; by apply (prefix_lookup_Some h)).
  induction c as [ws|c IH f mode fd|l IHl r IHr|l IHl r IHr|c IH]; intros p; cbn [tree].
  - intros (n & argv & eargv & -> & Hn & Ha). exists n, argv, eargv. split; [done|]. split; [by apply Hl|by apply (args_mono wd)].
  - intros (n & p' & q & eq & -> & Hn & Hb & Hw & Ht). exists n, p', q, eq. split_and!; auto.
  - intros (n & pl & pr & -> & Hn & H1 & H2 & H3 & H4). exists n, pl, pr. split_and!; auto.
  - intros (n & pl & pr & -> & Hn & H1 & H2 & H3 & H4). exists n, pl, pr. split_and!; auto.
  - intros (n & p' & -> & Hn & H1 & H2). exists n, p'. split_and!; auto.
Qed.

Lemma wraps_prefix wd h h' p p' rs : h `prefix_of` h' -> wraps wd h p p' rs -> wraps wd h' p p' rs.
Proof. intros Hp Hw. induction Hw; econstructor; try done. by eapply prefix_lookup_Some. Qed.

Lemma wraps_app wd h p0 p1 p2 rs1 rs2 : wraps wd h p0 p1 rs1 -> wraps wd h p1 p2 rs2 -> wraps wd h p0 p2 (rs1 ++ rs2).
Proof. intros H1 H2. induction H2; [by rewrite app_nil_r|]. rewrite app_assoc. by econstructor. Qed.

(** Filling in an [EXEC] node keeps the redirections around it. *)
Lemma wraps_alter wd h p p' rs e argv eargv g :
  h !! e = Some (EXEC argv eargv) -> wraps wd h p p' rs -> wraps wd (alter g e h) p p' rs.
Proof.
  intros He Hw. induction Hw as [|n p' q eq rs k f H1 H2 H3 H4 IH]; [constructor|]. econstructor; try done.
  rewrite list_lookup_alter_ne; [done|]. intros <-. congruence.
Qed.

(** ** The parser follows the parser on tokens *)

Lemma pbind_ok {A B} (p : P A) (f : A -> P B) st a st' : p st = POk a st' -> pbind p f st = f a st'.
Proof. unfold pbind. by intros ->. Qed.

Lemma pbind_panic {A B} (p : P A) (f : A -> P B) st msg : p st = PPanic msg -> pbind p f st = PPanic msg.
Proof. unfold pbind. by intros ->. Qed.

Lemma pbind_fuel {A B} (p : P A) (f : A -> P B) st : p st = PFuel -> pbind p f st = PFuel.
Proof. unfold pbind. by intros ->. Qed.

Section Sim.
Context (m : mem) (es : Z).
Notation wd := (word_at m).
Notation at_toks := (at_toks m es).

Lemma toks_le s l : line_at m es s l -> (length (tokens l) <= length l)%nat.
Proof.
  intros _. enough (H : forall n l w, (length l < n)%nat -> (length (lex w l) <= length l + match w with [] => 0 | _ => 1 end)%nat).
  { pose proof (H (S (length l)) l [] ltac:(lia)) as H'. rewrite Nat.add_0_r in H'. exact H'. }
  induction n as [|n IH]; intros l' w Hn; [lia|]. destruct l' as [|c l1]; [cbn; destruct w; cbn; lia|]. cbn [lex length] in *.
  assert (Hf : forall ts k, (length ts <= k)%nat -> (length (flush w ts) <= k + match w with [] => 0 | _ => 1 end)%nat) by (intros; destruct w; cbn; lia).
  destruct (space c); [apply Hf; pose proof (IH l1 [] ltac:(lia)); cbn in *; lia|]. destruct (symbol c).
  - apply Hf. pose proof (IH l1 [] ltac:(lia)) as H1. destruct (c =? 62); [|cbn in *; lia]. destruct l1 as [|c2 l2]; [cbn; lia|].
    pose proof (IH l2 [] ltac:(cbn in Hn; lia)). destruct (c2 =? 62); cbn in *; lia.
  - pose proof (IH l1 (w ++ [c]) ltac:(lia)) as H1. destruct (w ++ [c]) eqn:E; [by destruct w|]. destruct w; lia.
Qed.

(** The symbols that occur. *)
Definition valid (t : token) : Prop := match t with Word _ => True | Sym c => in_chars (43 :: symbols) c = true end.

Lemma lex_valid l : forall w, Forall valid (lex w l).
Proof.
  assert (Hf : forall w ts, Forall valid ts -> Forall valid (flush w ts)) by (intros w ts H; destruct w; [done|by constructor]).
  induction l as [l IH] using (induction_ltof1 _ (@length Z)). unfold ltof in IH. intros w.
  destruct l as [|c l1]; cbn [lex]; [by apply Hf|]. assert (H1 : forall w, Forall valid (lex w l1)) by (intros; apply IH; cbn; lia).
  destruct (space c); [by apply Hf|]. destruct (symbol c) eqn:Ec; [|done]. apply Hf. destruct (Z.eqb_spec c 62) as [->|Hc].
  - destruct l1 as [|c2 l2]; [by repeat constructor|]. destruct (c2 =? 62); constructor; [done|apply IH; cbn; lia|done|done].
  - constructor; [|done]. cbn [valid in_chars]. destruct (43 =? c); [done|exact Ec].
Qed.

Lemma at_valid s c ts : at_toks s (Sym c :: ts) -> c <> 97 /\ c <> 0.
Proof.
  intros (l & _ & E). pose proof (lex_valid l []) as H. fold (tokens l) in H. rewrite E in H. apply Forall_cons in H as [H _].
  split; intros ->; by vm_compute in H.
Qed.

Lemma loop_fuel_run h s ts : at_toks s ts -> exists k, loop_fuel es (mkpstate h s) = POk k (mkpstate h s) /\ (length ts < k)%nat.
Proof.
  intros (l & Hl & <-). exists (S (room es s)). split; [done|]. rewrite (room_at m es s l Hl). pose proof (toks_le s l Hl). lia.
Qed.

(** Taking a token. *)
Lemma gettoken_sym h s c ts : at_toks s (Sym c :: ts) ->
  exists q eq s', gettoken m es (mkpstate h s) = POk (c, q, eq) (mkpstate h s') /\ at_toks s' ts.
Proof. intros H. destruct (gettoken_run m es h s _ H) as (q & eq & s' & E & Ha & _). exists q, eq, s'. done. Qed.

Lemma redir_run h s p k q eq f : is_rd k = true -> wd q eq f -> below p (length h) ->
  exists h1, redir p k q eq (mkpstate h s) = POk (Some (length h)) (mkpstate (h ++ h1) s) /\ length h1 = 1%nat /\
    wraps wd (h ++ h1) p (Some (length h)) [(k, f)].
Proof.
  intros Hk Hw Hb. exists [REDIR p q eq (rmode k) (rfd k)]. split; [destruct (rd_cases k Hk) as [->|[->| ->]]; done|]. split; [done|].
  apply (wraps_snoc wd _ p (length h) p q eq [] k f); [by rewrite lookup_app_r, Nat.sub_diag by lia|done|done|constructor].
Qed.

Lemma redirs_loop_run fuel : forall h s ts p, at_toks s ts -> below p (length h) -> (length ts < fuel)%nat ->
  match tredirs ts with
  | Some (rs, ts') => exists p' h' s', parseredirs_loop m es p fuel (mkpstate h s) = POk p' (mkpstate (h ++ h') s') /\ at_toks s' ts' /\
      wraps wd (h ++ h') p p' rs /\ below p' (length (h ++ h'))
  | None => exists msg, parseredirs_loop m es p fuel (mkpstate h s) = PPanic msg
  end.
Proof.
  induction fuel as [|f IH]; intros h s ts p Ha Hb Hf; [lia|]. cbn [parseredirs_loop].
  destruct (peek_run m es (lit "<>") h s ts Ha ltac:(chars)) as (s1 & E1 & Ha1 & _). rewrite (pbind_ok _ _ _ _ _ E1).
  destruct (starts (lit "<>") ts) eqn:Es; cbn [negb].
  2: { rewrite tredirs_stop by done. exists p, [], s1. rewrite app_nil_r. split; [done|]. split; [done|]. split; [constructor|done]. }
  destruct ts as [|[w|k] ts]; [done..|].
  assert (Hk : is_rd k = true).
  { cbn [starts] in Es. apply in_chars_elem in Es. change (lit "<>") with [60; 62] in Es. rewrite !elem_of_cons, elem_of_nil in Es. destruct (Z.eqb_spec k 43) as [->|]; [done|].
    destruct Es as [->|[->|[]]]; done. }
  destruct (gettoken_sym h s1 k ts Ha1) as (q0 & eq0 & s2 & E2 & Ha2). rewrite (pbind_ok _ _ _ _ _ E2). cbn [tredirs fst]. rewrite Hk.
  destruct (gettoken_run m es h s2 ts Ha2) as (q & eq & s3 & E3 & Ha3 & Hw). rewrite (pbind_ok _ _ _ _ _ E3).
  destruct ts as [|[w|c] ts]; cbn [kind tail] in *.
  - by eexists.
  - change (97 =? 97) with true. cbn [negb]. specialize (Hw w ts eq_refl). destruct (redir_run h s3 p k q eq w Hk Hw Hb) as (h1 & E4 & Hl1 & Hw1).
    rewrite (pbind_ok _ _ _ _ _ E4). assert (Hb1 : below (Some (length h)) (length (h ++ h1))) by (exists (length h); rewrite length_app; split; [done|lia]).
    specialize (IH (h ++ h1) s3 ts (Some (length h)) Ha3 Hb1 ltac:(cbn in Hf; lia)). destruct (tredirs ts) as [[rs ts']|]; [|exact IH].
    destruct IH as (p' & h' & s' & E5 & Ha5 & Hw5 & Hb5). rewrite <- app_assoc in *. exists p', (h1 ++ h'), s'. split; [done|]. split; [done|]. split; [|done].
    apply (wraps_app wd _ p (Some (length h)) p' [(k, w)] rs); [|done]. apply (wraps_prefix wd (h ++ h1)); [|done]. rewrite app_assoc. by apply prefix_app_r.
  - destruct (Z.eqb_spec c 97) as [->|]; [|by eexists]. by destruct (at_valid s2 97 ts Ha2).
Qed.

Lemma redirs_run h s ts p : at_toks s ts -> below p (length h) ->
  match tredirs ts with
  | Some (rs, ts') => exists p' h' s', parseredirs m es p (mkpstate h s) = POk p' (mkpstate (h ++ h') s') /\ at_toks s' ts' /\
      wraps wd (h ++ h') p p' rs /\ below p' (length (h ++ h'))
  | None => exists msg, parseredirs m es p (mkpstate h s) = PPanic msg
  end.
Proof.
  intros Ha Hb. destruct (loop_fuel_run h s ts Ha) as (k & E & Hk). unfold parseredirs. rewrite (pbind_ok _ _ _ _ _ E). by apply redirs_loop_run.
Qed.

(** The words of the node [e] so far, and the nodes before it. *)
Record filling (e : nat) (h0 h : list cmd) (p : cmdptr) (ws : list (list Z)) (rs : list rd) : Prop := {
  fl_node : exists argv eargv, h !! e = Some (EXEC argv eargv) /\ args_at wd argv eargv ws;
  fl_wraps : wraps wd h (Some e) p rs;
  fl_below : below p (length h);
  fl_old : take e h = h0 }.

Lemma filling_arg e h0 h p ws rs q eq w s :
  filling e h0 h p ws rs -> wd q eq w -> (S (length ws) < MAXARGS)%nat ->
  exists h1, set_arg (Some e) (length ws) q eq (mkpstate h s) = POk tt (mkpstate h1 s) /\ filling e h0 h1 p (ws ++ [w]) rs.
Proof.
  intros [(argv & eargv & He & [A1 A2 A3 A4 A5]) Hw Hb Ho] Hq Hn. eexists. split; [reflexivity|]. cbn [ps_heap ps_s]. set (g := fun x : cmd => _).
  split.
  - exists (<[length ws := q]> argv), (<[length ws := eq]> eargv). rewrite list_lookup_alter_eq, He. split; [done|].
    split; rewrite ?length_insert, ?length_app; cbn [length]; [done|done|lia| |].
    + intros i x [Hi|[Hi Hx]]%lookup_app_Some.
      * pose proof (lookup_lt_Some _ _ _ Hi). destruct (A4 i x Hi) as (q' & eq' & H1 & H2 & H3). exists q', eq'.
        rewrite !list_lookup_insert_ne by lia. done.
      * apply list_lookup_singleton_Some in Hx as [Hx <-]. assert (i = length ws) as -> by lia. exists q, eq.
        rewrite !list_lookup_insert_eq by lia. done.
    + intros i Hi. rewrite list_lookup_insert_ne by lia. apply A5. lia.
  - by eapply wraps_alter.
  - by rewrite length_alter.
  - rewrite take_alter, decide_False by lia. exact Ho.
Qed.

Lemma filling_app e h0 h p ws rs p' h' rs' :
  filling e h0 h p ws rs -> wraps wd (h ++ h') p p' rs' -> below p' (length (h ++ h')) -> filling e h0 (h ++ h') p' ws (rs ++ rs').
Proof.
  intros [(argv & eargv & He & Ha) Hw Hb Ho] Hw' Hb'. split; [|eapply wraps_app; [|done]; apply (wraps_prefix wd h); [by apply prefix_app_r|done]|done|].
  - exists argv, eargv. split; [by apply lookup_app_l_Some|done].
  - rewrite take_app_le; [done|]. by apply lookup_lt_Some in He as ?%Nat.lt_le_incl.
Qed.

Lemma args_loop_run fuel : forall k e h0 h s ts p ws rs, at_toks s ts -> filling e h0 h p ws rs -> (length ts < fuel)%nat -> (length ts < k)%nat ->
  match targs (length ws) k ts with
  | Some (ws', rs', ts') => exists p' h' s',
      parseexec_loop m es (Some e) p (length ws) fuel (mkpstate h s) = POk (p', length (ws ++ ws')) (mkpstate h' s') /\
      at_toks s' ts' /\ filling e h0 h' p' (ws ++ ws') (rs ++ rs')
  | None => exists msg, parseexec_loop m es (Some e) p (length ws) fuel (mkpstate h s) = PPanic msg
  end.
Proof.
  induction fuel as [|f IH]; intros k e h0 h s ts p ws rs Ha Hf Hk Hk'; [lia|]. destruct k as [|k]; [lia|]. cbn [parseexec_loop targs].
  destruct (peek_run m es (lit "|)&;") h s ts Ha ltac:(chars)) as (s1 & E1 & Ha1 & _). rewrite (pbind_ok _ _ _ _ _ E1).
  destruct (starts (lit "|)&;") ts); [exists p, h, s1; rewrite !app_nil_r; done|].
  destruct (gettoken_run m es h s1 ts Ha1) as (q & eq & s2 & E2 & Ha2 & Hw). rewrite (pbind_ok _ _ _ _ _ E2).
  destruct ts as [|[w|c] ts]; cbn [kind tail] in *.
  - exists p, h, s2. rewrite !app_nil_r. done.
  - change (97 =? 0) with false. change (97 =? 97) with true. cbn [negb]. specialize (Hw w ts eq_refl).
    destruct (Nat.leb_spec MAXARGS (S (length ws))) as [Hm|Hm].
    { eexists. erewrite pbind_ok by reflexivity. reflexivity. }
    destruct (filling_arg e h0 h p ws rs q eq w s2 Hf Hw ltac:(lia)) as (h1 & E3 & Hf1). rewrite (pbind_ok _ _ _ _ _ E3).
    pose proof (redirs_run h1 s2 ts p Ha2 (fl_below _ _ _ _ _ _ Hf1)) as Hr. destruct (tredirs ts) as [[rs1 ts1]|] eqn:Et.
    2: { destruct Hr as [msg Hr]. exists msg. by rewrite (pbind_panic _ _ _ _ Hr). }
    destruct Hr as (p1 & h2 & s3 & E4 & Ha3 & Hw4 & Hb4). rewrite (pbind_ok _ _ _ _ _ E4).
    pose proof (filling_app _ _ _ _ _ _ _ _ _ Hf1 Hw4 Hb4) as Hf2. destruct (tredirs_sound _ _ _ Et) as [-> _].
    rewrite length_cons, length_app in Hk, Hk'.
    specialize (IH k e h0 (h1 ++ h2) s3 ts1 p1 (ws ++ [w]) (rs ++ rs1) Ha3 Hf2 ltac:(lia) ltac:(lia)).
    assert (El : length (ws ++ [w]) = S (length ws)) by (rewrite length_app; cbn; lia). rewrite El in IH.
    destruct (targs (S (length ws)) k ts1) as [[[ws' rs'] ts']|]; [|exact IH].
    destruct IH as (p' & h' & s' & E5 & Ha5 & Hf5). exists p', h', s'. rewrite <- !app_assoc in *. done.
  - destruct (at_valid s1 c ts Ha1) as [H1 H2]. rewrite (proj2 (Z.eqb_neq c 0)), (proj2 (Z.eqb_neq c 97)) by done. cbn [negb]. by eexists.
Qed.

(** What a run of a parser function has to do with the result on tokens. *)
Definition matches (h : list cmd) (r : pres cmdptr) (t : tres command) : Prop :=
  match t with
  | TOk c ts => exists p h' s', r = POk p (mkpstate (h ++ h') s') /\ at_toks s' ts /\ tree wd (h ++ h') p c
  | TFail => exists msg, r = PPanic msg
  | TFuel => r = PFuel
  end.

Lemma simple_run h s ts : at_toks s ts ->
  matches h (pbind execcmd (fun cmd => pbind (parseredirs m es cmd) (fun ret => pbind (loop_fuel es) (fun k =>
    pbind (parseexec_loop m es cmd ret 0 k) (fun r => let '(ret, argc) := r in pbind (set_arg cmd argc 0 0) (fun _ => pret ret))))) (mkpstate h s))
    (tsimple ts).
Proof.
  intros Ha. set (e := length h). set (nd := EXEC (replicate MAXARGS 0) (replicate MAXARGS 0)).
  erewrite pbind_ok by reflexivity. cbn [ps_heap ps_s]. fold e nd. unfold tsimple.
  assert (Hf0 : filling e h (h ++ [nd]) (Some e) [] []).
  { split; [|constructor|exists e; rewrite length_app; cbn; unfold e; split; [done|lia]|by apply take_app_length].
    exists (replicate MAXARGS 0), (replicate MAXARGS 0). split; [unfold e; by rewrite lookup_app_r, Nat.sub_diag by lia|].
    split; try done; [cbn; unfold MAXARGS; lia|]. intros i Hi. apply lookup_replicate. split; [done|apply Hi]. }
  pose proof (redirs_run (h ++ [nd]) s ts (Some e) Ha (fl_below _ _ _ _ _ _ Hf0)) as Hr. destruct (tredirs ts) as [[rs1 ts1]|] eqn:Et.
  2: { destruct Hr as [msg Hr]. exists msg. by rewrite (pbind_panic _ _ _ _ Hr). }
  destruct Hr as (p1 & h1 & s1 & E1 & Ha1 & Hw1 & Hb1). rewrite (pbind_ok _ _ _ _ _ E1).
  pose proof (filling_app _ _ _ _ _ _ _ _ _ Hf0 Hw1 Hb1) as Hf1. cbn [app] in Hf1.
  destruct (loop_fuel_run ((h ++ [nd]) ++ h1) s1 ts1 Ha1) as (k & E2 & Hk). rewrite (pbind_ok _ _ _ _ _ E2).
  pose proof (args_loop_run k (S (length ts1)) e h _ s1 ts1 p1 [] rs1 Ha1 Hf1 Hk ltac:(lia)) as Hl. cbn [length app] in Hl.
  destruct (targs 0 (S (length ts1)) ts1) as [[[ws rs2] ts2]|].
  2: { destruct Hl as [msg Hl]. exists msg. by rewrite (pbind_panic _ _ _ _ Hl). }
  destruct Hl as (p2 & h2 & s2 & E3 & Ha2 & [(argv & eargv & He & [A1 A2 A3 A4 A5]) Hw2 Hb2 Ho2]). rewrite (pbind_ok _ _ _ _ _ E3). erewrite pbind_ok by reflexivity.
  cbn [ps_heap ps_s]. set (g := fun x : cmd => _). assert (Et2 : take e (alter g e h2) = h).
  { rewrite take_alter, decide_False by lia. exact Ho2. }
  exists p2, (drop e (alter g e h2)), s2. rewrite <- Et2 at 1 2. rewrite take_drop. split; [done|]. split; [done|].
  apply (tree_wraps wd _ (Some e)); [|by eapply wraps_alter]. exists e, (<[length ws := 0]> argv), (<[length ws := 0]> eargv).
  rewrite list_lookup_alter_eq, He. split; [done|]. split; [done|]. split; rewrite ?length_insert; try done.
  - intros i w Hi. pose proof (lookup_lt_Some _ _ _ Hi). rewrite !list_lookup_insert_ne by lia. by apply A4.
  - intros i Hi. destruct (decide (i = length ws)) as [->|]; [rewrite list_lookup_insert_eq by lia; done|]. rewrite list_lookup_insert_ne by lia. by apply A5.
Qed.

Lemma tree_below h p c : tree wd h p c -> below p (length h).
Proof. destruct c; cbn [tree]; intros (n & Ht); exists n; (split; [naive_solver|]); apply lookup_lt_is_Some_1; naive_solver. Qed.

(** Adding a node. *)
Lemma newcmd_run h c s : newcmd c (mkpstate h s) = POk (Some (length h)) (mkpstate (h ++ [c]) s) /\ (h ++ [c]) !! length h = Some c.
Proof. split; [done|]. by rewrite lookup_app_r, Nat.sub_diag by lia. Qed.

Lemma tree_more h h' p c : tree wd h p c -> tree wd (h ++ h') p c.
Proof. apply tree_mono; [done|by apply prefix_app_r]. Qed.

Lemma backs_run fuel : forall h s ts p c, at_toks s ts -> tree wd h p c -> (length ts < fuel)%nat ->
  let '(n, ts') := tbacks ts in
  exists p' h' s', parseback_loop m es p fuel (mkpstate h s) = POk p' (mkpstate (h ++ h') s') /\ at_toks s' ts' /\ tree wd (h ++ h') p' (backs n c).
Proof.
  induction fuel as [|f IH]; intros h s ts p c Ha Ht Hf; [lia|]. cbn [parseback_loop].
  destruct (peek_run m es (lit "&") h s ts Ha ltac:(chars)) as (s1 & E1 & Ha1 & _). rewrite (pbind_ok _ _ _ _ _ E1).
  destruct (starts (lit "&") ts) eqn:Es; cbn [negb].
  - rewrite (tail_sym _ _ 38 Es eq_refl) in Ha1, Hf |- * by done. destruct (gettoken_sym h s1 38 _ Ha1) as (q & eq & s2 & E2 & Ha2).
    rewrite (pbind_ok _ _ _ _ _ E2). destruct (newcmd_run h (BACK p) s2) as [E3 Hn]. rewrite (pbind_ok _ _ _ _ _ E3).
    cbn [tbacks]. rewrite Z.eqb_refl.
    specialize (IH (h ++ [BACK p]) s2 (tail ts) (Some (length h)) (CBack c) Ha2). destruct (tbacks (tail ts)) as [n ts'].
    destruct IH as (p' & h' & s' & E4 & Ha4 & Ht4); [|cbn in Hf; lia|].
    + exists (length h), p. split; [done|]. split; [done|]. split; [by eapply tree_below|by apply tree_more].
    + exists p', ([BACK p] ++ h'), s'. rewrite app_assoc. done.
  - assert (tbacks ts = (O, ts)) as ->.
    { destruct ts as [|[w|k] ts]; [done..|]. cbn [tbacks starts] in *. destruct (Z.eqb_spec k 38) as [->|]; [by vm_compute in Es|done]. }
    exists p, [], s1. rewrite app_nil_r. done.
Qed.

Lemma matches_bind h (p : P cmdptr) st t F G :
  matches h (p st) t ->
  (forall q h' s' c ts, h `prefix_of` h' -> at_toks s' ts -> tree wd h' q c -> matches h' (F q (mkpstate h' s')) (G c ts)) ->
  matches h (pbind p F st) (tbind t G).
Proof.
  intros Hm HF. destruct t as [c ts| |]; cbn [matches tbind] in *.
  - destruct Hm as (q & h' & s' & E & Ha & Ht). rewrite (pbind_ok _ _ _ _ _ E). specialize (HF q (h ++ h') s' c ts ltac:(by apply prefix_app_r) Ha Ht).
    destruct (G c ts); cbn [matches] in *; [|done..]. destruct HF as (q2 & h2 & s2 & E2 & Ha2 & Ht2). exists q2, (h' ++ h2), s2. rewrite app_assoc. done.
  - destruct Hm as [msg E]. exists msg. by rewrite (pbind_panic _ _ _ _ E).
  - by rewrite (pbind_fuel _ _ _ Hm).
Qed.

(** [peek] for one symbol, and taking it. *)
Lemma peek_sym c0 h s ts (F : bool -> P cmdptr) t :
  at_toks s ts -> c0 <> 62 -> symbol c0 = true ->
  (starts [c0] ts = true -> forall s', at_toks s' (Sym c0 :: tail ts) -> matches h (F true (mkpstate h s')) t) ->
  (starts [c0] ts = false -> forall s', at_toks s' ts -> matches h (F false (mkpstate h s')) t) ->
  matches h (pbind (peek m es [c0]) F (mkpstate h s)) t.
Proof.
  intros Ha Hc Hs HF HG. destruct (peek_run m es [c0] h s ts Ha) as (s1 & E1 & Ha1 & _).
  { intros c. cbn [in_chars]. destruct (Z.eqb_spec c0 c) as [<-|]; [done|done]. }
  rewrite (pbind_ok _ _ _ _ _ E1). destruct (starts [c0] ts) eqn:E; [|by apply HG]. apply HF; [done|]. by rewrite <- (tail_sym _ _ c0 E eq_refl).
Qed.

Lemma take_sym c0 h s ts (F : P cmdptr) t :
  at_toks s (Sym c0 :: ts) -> (forall s', at_toks s' ts -> matches h (F (mkpstate h s')) t) ->
  matches h (pbind (gettoken m es) (fun _ => F) (mkpstate h s)) t.
Proof. intros Ha HF. destruct (gettoken_sym h s c0 ts Ha) as (q & eq & s1 & E & Ha1). rewrite (pbind_ok _ _ _ _ _ E). by apply HF. Qed.

Lemma matches_later h h' r t : matches (h ++ h') r t -> matches h r t.
Proof. destruct t as [c ts| |]; [|done..]. intros (q & h2 & s & -> & Ha & Ht). exists q, (h' ++ h2), s. rewrite app_assoc. done. Qed.

(** A node with two subtrees. *)
Lemma tree_pair h p q l r : tree wd h p l -> tree wd h q r ->
  tree wd (h ++ [LIST p q]) (Some (length h)) (CList l r) /\ tree wd (h ++ [PIPE p q]) (Some (length h)) (CPipe l r).
Proof.
  intros Hl Hr. split; exists (length h), p, q; (split; [done|]); (split; [by rewrite lookup_app_r, Nat.sub_diag by lia|]);
    (split; [by eapply tree_below|]); (split; [by eapply tree_below|]); (split; by apply tree_more).
Qed.

Lemma match_panic h msg st : matches h (ppanic msg st) TFail.
Proof. by eexists. Qed.

Lemma match_ret h p s c ts : at_toks s ts -> tree wd h p c -> matches h (pret p (mkpstate h s)) (TOk c ts).
Proof. intros Ha Ht. exists p, [], s. rewrite app_nil_r. done. Qed.

Lemma match_new h s c ts nd : at_toks s ts -> (tree wd (h ++ [nd]) (Some (length h)) c) -> matches h (newcmd nd (mkpstate h s)) (TOk c ts).
Proof. intros Ha Ht. exists (Some (length h)), [nd], s. done. Qed.

Lemma parser_follows f :
  (forall h s ts, at_toks s ts -> matches h (parseline m es f (mkpstate h s)) (tline f ts)) /\
  (forall h s ts, at_toks s ts -> matches h (parsepipe m es f (mkpstate h s)) (tpipe f ts)) /\
  (forall h s ts, at_toks s ts -> matches h (parseexec m es f (mkpstate h s)) (texec f ts)) /\
  (forall h s ts, at_toks s ts -> starts (lit "(") ts = true -> matches h (parseblock m es f (mkpstate h s)) (tblock f ts)).
Proof.
  induction f as [|f (IHl & IHp & IHe & IHb)]; [by split_and!|]. split_and!.
  - intros h0 s0 ts0 Ha0. cbn [parseline tline]. apply matches_bind; [by apply IHp|]. intros p h s c ts _ Ha Ht. clear h0 s0 ts0 Ha0.
    destruct (loop_fuel_run h s ts Ha) as (k & E & Hk). rewrite (pbind_ok _ _ _ _ _ E).
    pose proof (backs_run k h s ts p c Ha Ht Hk) as Hb. destruct (tbacks ts) as [n ts1]. destruct Hb as (p1 & h1 & s1 & E1 & Ha1 & Ht1).
    rewrite (pbind_ok _ _ _ _ _ E1). apply (matches_later h h1). apply (peek_sym 59 _ _ ts1); [done..| |]; intros E2 s2 Ha2; change (lit ";") with [59]; rewrite E2.
    + apply (take_sym 59 _ _ (tail ts1)); [done|]. intros s3 Ha3. apply matches_bind; [by apply IHl|]. intros q h2 s4 c' ts4 Hpre Ha4 Ht4.
      apply match_new; [done|]. apply tree_pair; [by eapply tree_mono|done].
    + by apply match_ret.
  - intros h0 s0 ts0 Ha0. cbn [parsepipe tpipe]. apply matches_bind; [by apply IHe|]. intros p h s c ts _ Ha Ht. clear h0 s0 ts0 Ha0.
    apply (peek_sym 124 _ _ ts); [done..| |]; intros E2 s2 Ha2; change (lit "|") with [124]; rewrite E2.
    + apply (take_sym 124 _ _ (tail ts)); [done|]. intros s3 Ha3. apply matches_bind; [by apply IHp|]. intros q h2 s4 c' ts4 Hpre Ha4 Ht4.
      apply match_new; [done|]. apply tree_pair; [by eapply tree_mono|done].
    + by apply match_ret.
  - intros h s ts Ha. cbn [parseexec texec]. apply (peek_sym 40 _ _ ts); [done..| |]; intros E s1 Ha1; change (lit "(") with [40]; rewrite E.
    + apply IHb; [by rewrite (tail_sym _ _ 40 E eq_refl)|done].
    + by apply simple_run.
  - intros h s ts Ha Es. cbn [parseblock tblock]. apply (peek_sym 40 _ _ ts); [done..| |]; [|intros E; change (lit "(") with [40] in Es; congruence].
    intros _ s1 Ha1. cbn [negb]. apply (take_sym 40 _ _ (tail ts)); [done|]. intros s2 Ha2. apply matches_bind; [by apply IHl|].
    intros p h1 s3 c ts3 _ Ha3 Ht3. apply (peek_sym 41 _ _ ts3); [done..| |]; intros E s4 Ha4; change (lit ")") with [41]; rewrite E; cbn [negb].
    + apply (take_sym 41 _ _ (tail ts3)); [done|]. intros s5 Ha5. pose proof (redirs_run h1 s5 _ p Ha5 (tree_below _ _ _ Ht3)) as Hr.
      destruct (tredirs (tail ts3)) as [[rs ts5]|]; [|exact Hr]. destruct Hr as (p' & h' & s' & E5 & Ha6 & Hw & _).
      exists p', h', s'. split; [done|]. split; [done|]. apply (tree_wraps wd _ p); [by apply tree_more|done].
    + apply match_panic.
Qed.
End Sim.

(** ** [nulterminate] *)

(** The command height bounds the recursion on its tree. *)
Fixpoint height (c : command) : nat :=
  match c with
  | CExec _ => 1
  | CRedir c _ _ _ | CBack c => S (height c)
  | CPipe l r | CList l r => S (Nat.max (height l) (height r))
  end.

Lemma tree_height wd h c : forall n, tree wd h (Some n) c -> (height c <= S n)%nat.
Proof.
  assert (Hb : forall p n, below p n -> exists k, p = Some k /\ (k < n)%nat) by done.
  induction c as [ws|c IH f mode fd|l IHl r IHr|l IHl r IHr|c IH]; intros n; cbn [tree height].
  - lia.
  - intros (k & p & q & eq & [= <-] & _ & (j & -> & Hj) & _ & Ht). specialize (IH _ Ht). lia.
  - intros (k & pl & pr & [= <-] & _ & (i & -> & Hi) & (j & -> & Hj) & H1 & H2). specialize (IHl _ H1). specialize (IHr _ H2). lia.
  - intros (k & pl & pr & [= <-] & _ & (i & -> & Hi) & (j & -> & Hj) & H1 & H2). specialize (IHl _ H1). specialize (IHr _ H2). lia.
  - intros (k & p & [= <-] & _ & (j & -> & Hj) & Ht). specialize (IH _ Ht). lia.
Qed.

Section Nul.
Context (m : mem) (h : list cmd).

(** [m'] is [m] with zeros at the addresses [E], none of which is in a word. *)
Record zeroed (m' : mem) (E : gset Z) : Prop := {
  zr_byte : forall a, ld8 m' a = if decide (a ∈ E) then 0 else ld8 m a;
  zr_end : forall a, a ∈ E -> wordchar (ld8 m a) = false }.

Lemma zeroed_st8 m' E a : zeroed m' E -> wordchar (ld8 m a) = false -> zeroed (st8 a 0 m') (E ∪ {[a]}).
Proof.
  intros [H1 H2] Ha. split; [|set_solver]. intros b. destruct (decide (b = a)) as [->|Hne].
  - rewrite ld8_st8_eq. by rewrite decide_True by set_solver.
  - rewrite ld8_st8_ne by done. rewrite H1. apply decide_ext. set_solver.
Qed.

(** The words that end at an address of [E]. *)
Definition ended (E : gset Z) (q eq : Z) (w : list Z) : Prop := word_at m q eq w /\ eq ∈ E.

Lemma ended_str m' E q eq w : zeroed m' E -> ended E q eq w -> is_str m' q w /\ 0 < q.
Proof.
  intros [H1 H2] [[W1 W2 W3 W4 W5] He]. split; [|done]. apply is_str_of.
  - intros i x Hx. rewrite H1, decide_False; [by apply W3|]. intros Hi. apply H2 in Hi. rewrite (W3 _ _ Hx) in Hi.
    apply (Forall_lookup_1 _ _ _ _ W4) in Hx. congruence.
  - intros Hz. apply (proj1 (Forall_forall _ _) W4) in Hz. done.
  - rewrite H1, <- W2. by rewrite decide_True.
Qed.

Lemma nulargs_run ws : forall argv eargv m0 E0, zeroed m0 E0 ->
  (forall i w, ws !! i = Some w -> exists q eq, argv !! i = Some q /\ eargv !! i = Some eq /\ word_at m q eq w) ->
  argv !! length ws = Some 0 ->
  exists E1, zeroed (nulargs argv eargv m0) E1 /\ E0 ⊆ E1 /\
    forall i w, ws !! i = Some w -> exists q eq, argv !! i = Some q /\ eargv !! i = Some eq /\ ended E1 q eq w.
Proof.
  induction ws as [|w ws IH]; intros argv eargv m0 E0 Hz Hw Hn.
  - exists E0. destruct argv as [|q argv]; [done|]. injection Hn as ->. split; [by destruct eargv|]. by split.
  - destruct (Hw 0%nat w eq_refl) as (q & eq & Hq & He & Hwd). destruct argv as [|q' argv]; [done|]. destruct eargv as [|eq' eargv]; [done|].
    injection Hq as ->. injection He as ->. cbn [nulargs]. rewrite (proj2 (Z.eqb_neq q 0)) by (pose proof (wa_pos _ _ _ _ Hwd); lia).
    destruct (IH argv eargv (st8 eq 0 m0) (E0 ∪ {[eq]})) as (E1 & H1 & H2 & H3); [by apply zeroed_st8; [|apply Hwd]|intros i x Hx; exact (Hw (S i) x Hx)|done|].
    exists E1. split; [done|]. split; [set_solver|]. intros [|i] x Hx; [|by apply H3]. injection Hx as <-. exists q, eq. split; [done|]. split; [done|]. split; [done|set_solver].
Qed.

Lemma tree_ended (E E' : gset Z) p c : E ⊆ E' -> tree (ended E) h p c -> tree (ended E') h p c.
Proof. intros HE. apply tree_mono; [|done]. intros q eq w [H1 H2]. split; [done|set_solver]. Qed.

(** [nulterminate] ends all words of a tree for [c]. *)
Definition ends_words (c : command) : Prop :=
  forall p fuel m0 E0, tree (word_at m) h p c -> zeroed m0 E0 -> (height c <= fuel)%nat ->
  exists m1 E1, nulterminate h p fuel m0 = Some m1 /\ zeroed m1 E1 /\ E0 ⊆ E1 /\ tree (ended E1) h p c.

Lemma nul_pair l r pl pr f m0 E0 : ends_words l -> ends_words r ->
  tree (word_at m) h pl l -> tree (word_at m) h pr r -> zeroed m0 E0 -> (Nat.max (height l) (height r) <= f)%nat ->
  exists m1 E1, (m' ← nulterminate h pl f m0; nulterminate h pr f m') = Some m1 /\ zeroed m1 E1 /\ E0 ⊆ E1 /\
    tree (ended E1) h pl l /\ tree (ended E1) h pr r.
Proof.
  intros IHl IHr Hl Hr Hz Hf. destruct (IHl pl f m0 E0 Hl Hz ltac:(lia)) as (m1 & E1 & -> & Hz1 & Hs1 & Ht1).
  destruct (IHr pr f m1 E1 Hr Hz1 ltac:(lia)) as (m2 & E2 & E & Hz2 & Hs2 & Ht2). exists m2, E2. split; [exact E|]. split; [done|].
  split; [set_solver|]. split; [by apply (tree_ended E1)|done].
Qed.

Lemma nulterminate_run c : ends_words c.
Proof.
  induction c as [ws|c IH f mode fd|l IHl r IHr|l IHl r IHr|c IH]; intros p [|fuel] m0 E0 Ht Hz Hf; cbn [height] in Hf; try lia; cbn [tree] in Ht.
  - destruct Ht as (n & argv & eargv & -> & Hn & [A1 A2 A3 A4 A5]). destruct (nulargs_run ws argv eargv m0 E0 Hz A4) as (E1 & H1 & H2 & H3); [apply A5; lia|].
    exists (nulargs argv eargv m0), E1. cbn [nulterminate mbind option_bind]. rewrite Hn. split; [done|]. split; [done|]. split; [done|].
    exists n, argv, eargv. split; [done|]. split; [done|]. by split.
  - destruct Ht as (n & p' & q & eq & -> & Hn & Hb & Hw & Ht). destruct (IH p' fuel m0 E0 Ht Hz ltac:(lia)) as (m1 & E1 & E & Hz1 & Hs1 & Ht1).
    exists (st8 eq 0 m1), (E1 ∪ {[eq]}). cbn [nulterminate mbind option_bind]. rewrite Hn. cbn. rewrite E. split; [done|].
    split; [by apply zeroed_st8; [|apply Hw]|]. split; [set_solver|]. exists n, p', q, eq. split_and!; [done..|split; [done|set_solver]|].
    apply (tree_ended E1); [set_solver|done].
  - destruct Ht as (n & pl & pr & -> & Hn & H1 & H2 & Hl & Hr). destruct (nul_pair l r pl pr fuel m0 E0 IHl IHr Hl Hr Hz ltac:(lia)) as (m1 & E1 & E & Hz1 & Hs1 & Ht1 & Ht2).
    exists m1, E1. cbn [nulterminate mbind option_bind]. rewrite Hn. split; [exact E|]. split; [done|]. split; [done|]. exists n, pl, pr. by split_and!.
  - destruct Ht as (n & pl & pr & -> & Hn & H1 & H2 & Hl & Hr). destruct (nul_pair l r pl pr fuel m0 E0 IHl IHr Hl Hr Hz ltac:(lia)) as (m1 & E1 & E & Hz1 & Hs1 & Ht1 & Ht2).
    exists m1, E1. cbn [nulterminate mbind option_bind]. rewrite Hn. split; [exact E|]. split; [done|]. split; [done|]. exists n, pl, pr. by split_and!.
  - destruct Ht as (n & p' & -> & Hn & Hb & Ht). destruct (IH p' fuel m0 E0 Ht Hz ltac:(lia)) as (m1 & E1 & E & Hz1 & Hs1 & Ht1).
    exists m1, E1. cbn [nulterminate mbind option_bind]. rewrite Hn. split; [exact E|]. split; [done|]. split; [done|]. exists n, p'. by split_and!.
Qed.
End Nul.

(** ** [parsecmd] *)

Section Cmd.
Context {W : Type} `{!Sys W}.

Lemma putall_returns fd l : forall m (w : W), exists w', putall fd l (mkustate m w) = Returns tt (mkustate m w').
Proof.
  induction l as [|c l IH]; intros m w; [by exists w|]. cbn [putall]. unfold ubind at 1, putc. cbn [u_world u_mem].
  destruct (sys_write fd [u8 c] w) as [r w1]. apply IH.
Qed.

Lemma upanic_exits {A} msg m (w : W) : exists s', @upanic W _ A msg (mkustate m w) = Exits 1 s'.
Proof. unfold upanic. destruct (putall_returns 2 (msg ++ [10]) m w) as (w' & E). rewrite (ubind_done _ _ _ _ _ E). by eexists. Qed.

Lemma putstr_returns fd l : forall fuel s m (w : W), is_str m s l -> (length l < fuel)%nat ->
  exists w', putstr fd s fuel (mkustate m w) = Returns tt (mkustate m w').
Proof.
  induction l as [|c l IH]; intros [|f] s m w Hs Hf; try (cbn in Hf; lia); cbn [putstr]; ustep.
  - apply is_str_nil in Hs. rewrite Hs. by exists w.
  - apply is_str_cons in Hs as (-> & Hc & Hs). rewrite (proj2 (Z.eqb_neq c 0)) by done. unfold ubind at 1, putc. cbn [u_world u_mem].
    destruct (sys_write fd [u8 c] w) as [r w1]. apply IH; [done|cbn in Hf; lia].
Qed.

Lemma vprintf_plain fd l fmt ap : 37 ∉ l -> forall m (w : W), exists w', vprintf_loop fd (l ++ fmt) false ap (mkustate m w) = vprintf_loop fd fmt false ap (mkustate m w').
Proof.
  induction l as [|c l IH]; intros Hl m w; [by exists w|]. apply not_elem_of_cons in Hl as [Hc Hl]. cbn [app vprintf_loop negb].
  rewrite (proj2 (Z.eqb_neq c 37)) by done. unfold ubind at 1, putc. cbn [u_world u_mem]. destruct (sys_write fd [u8 c] w) as [r w1]. by apply IH.
Qed.

Lemma leftovers_exits {A} s m (w : W) : s <> 0 ->
  exists s', ubind (fprintf 2 (lit "leftovers: %s" ++ [10]) [s]) (fun _ => @upanic W _ A (lit "syntax")) (mkustate m w) = Exits 1 s'.
Proof.
  intros Hs. unfold fprintf, vprintf. destruct (vprintf_plain 2 (lit "leftovers: ") [37; 115; 10] [s] ltac:(by apply (bool_decide_unpack _); vm_compute) m w) as (w1 & E1).
  destruct (str_at m s) as [l Hl]. destruct (putstr_returns 2 l (mfuel m) s m w1 Hl (is_str_fuel _ _ _ Hl)) as (w2 & E2).
  destruct (putall_returns 2 [10] m w2) as (w3 & E3).
  assert (E : vprintf_loop 2 (lit "leftovers: %s" ++ [10]) false [s] (mkustate m w) = Returns tt (mkustate m w3)).
  { change (lit "leftovers: %s" ++ [10]) with (lit "leftovers: " ++ [37; 115; 10]). rewrite E1.
    cbn [vprintf_loop negb Z.eqb Pos.eqb va_arg]. ustep. cbn [fst snd]. unfold puts_arg at 1.
    assert (E4 : ubind umem (fun m => if s =? 0 then putall 2 (lit "(null)") else putstr 2 s (mfuel m)) (mkustate m w1) = Returns tt (mkustate m w2)).
    { ustep. rewrite (proj2 (Z.eqb_neq s 0)) by done. exact E2. }
    rewrite (ubind_done _ _ _ _ _ E4). cbn [vprintf_loop negb Z.eqb Pos.eqb putall] in *. exact E3. }
  rewrite (ubind_done _ _ _ _ _ E). apply upanic_exits.
Qed.

(** The words of a tree are strings of [m]. *)
Definition str_word (m : mem) (q eq : Z) (w : list Z) : Prop := is_str m q w /\ 0 < q.

Lemma zeroed_refl m : zeroed m m ∅.
Proof. split; [intros a; by rewrite decide_False by set_solver|set_solver]. Qed.

(** The result of [parsecmd] for the line at [s]. *)
Lemma parsecmd_run s m (w : W) line : is_str m s line -> 0 < s ->
  match parsecmd s (mkustate m w) with
  | Returns (h, p) s' => exists c, denotes line c /\ tree (str_word (u_mem s')) h p c /\ u_world s' = w
  | Exits n s' => n = 1 /\ forall c, ~ denotes line c
  | Unbounded => False
  end.
Proof.
  intros Hs Hpos. unfold parsecmd. ustep. rewrite (strlen_str m s line Hs). ustep. set (es := s + Z.of_nat (length line)).
  assert (Ha : at_toks m es s (tokens line)) by (exists line; done).
  assert (Hl : line_at m es s line) by done.
  assert (Hf : (4 * length (tokens line) + 4 <= parse_fuel es s)%nat).
  { unfold parse_fuel. rewrite (room_at m es s line Hl). pose proof (toks_le m es s line Hl). lia. }
  pose proof (tline_decides (tokens line) _ Hf) as Hd. pose proof (proj1 (parser_follows m es (parse_fuel es s)) [] s (tokens line) Ha) as Hm.
  destruct (tline (parse_fuel es s) (tokens line)) as [c ts| |]; [| |done]; cbn [matches app] in Hm.
  - destruct Hm as (p & h & s1 & -> & Ha1 & Ht). destruct (peek_run m es [] h s1 ts Ha1 ltac:(done)) as (s2 & -> & Ha2 & Hend). cbn [ps_s ps_heap].
    destruct ts as [|t ts].
    + rewrite (Hend eq_refl), Z.eqb_refl. cbn [negb]. destruct (tree_below m h p c Ht) as (n & -> & Hn).
      destruct (nulterminate_run m h c (Some n) (S (length h)) m ∅ Ht (zeroed_refl m)) as (m1 & E1 & E & Hz & _ & Ht1).
      { pose proof (tree_height _ _ _ _ Ht). lia. }
      rewrite E. ustep. cbn. exists c. split; [exact Hd|]. split; [|done]. revert Ht1. apply tree_mono; [|done].
      intros q eq x Hx. by apply (ended_str m m1 E1 q eq).
    + assert (Hne : s2 <> es).
      { intros ->. destruct Ha2 as (l2 & (_ & H2 & _) & E2). assert (l2 = []) as -> by (destruct l2; [done|cbn in H2; lia]). done. }
      rewrite (proj2 (Z.eqb_neq s2 es)) by done. cbn [negb].
      destruct (leftovers_exits (A := list cmd * option nat) s2 m w) as (s' & ->); [|by split].
      destruct Ha2 as (l2 & (_ & _ & H2) & _). lia.
  - destruct Hm as [msg ->]. destruct (upanic_exits (A := list cmd * option nat) msg m w) as (s' & ->). by split.
Qed.
End Cmd.
