(* ===== verification/ShellRun.v ===== *)
(** * What a command line of the shell starts

    The processes that [runcmd] forks rearrange their descriptors before they
    call [exec]. The kernel's part of this, the tables of open files, is a
    reading of the calls of [prog]; the theorems say which programs a line
    starts and to what their descriptors refer. *)

From stdpp Require Import gmap strings list.
From Stdlib Require Import ZArith Lia.
From S2P Require Import Prelude KState CString User UPrintf Shell ShellSpec ShellProps.
Open Scope Z_scope.
Import Ulib UlibProps UPrintf Shell.

(** ** Descriptors *)

(** What a descriptor refers to: a file the shell was started with, an opened
    file, an end of the [n]-th pipe. *)
Inductive object : Type :=
| Given (n : Z)
| File (path : list Z) (mode : Z)
| PipeR (n : nat)
| PipeW (n : nat).

Notation fdtable := (list (option object)).

(** The least free descriptor, which [open], [dup] and [pipe] return. *)
Fixpoint lowest (d : fdtable) : option nat :=
  match d with
  | [] => None
  | None :: _ => Some O
  | Some _ :: d' => S <$> lowest d'
  end.

(** A program that was started: path, arguments and descriptors. *)
Record launch : Type := mklaunch { la_path : list Z; la_argv : list (list Z); la_fds : fdtable }.

Section Kernel.
Context (openable : list Z -> Z -> bool) (executable : list Z -> bool).

(** The programs the processes of [p] start, when [fork] succeeds; [n] pipes
    exist already. *)
Fixpoint launches (p : prog) (d : fdtable) (n : nat) : list launch * nat :=
  match p with
  | Exit _ => ([], n)
  | Print _ _ k => launches k d n
  | Exec path argv k => if executable path then ([mklaunch path argv d], n) else launches k d n
  | Close fd k => launches k (<[Z.to_nat fd := None]> d) n
  | Open path mode k =>
      match (if openable path mode then lowest d else None) with
      | Some i => launches (k (Z.of_nat i)) (<[i := Some (File path mode)]> d) n
      | None => launches (k (-1)) d n
      end
  | Dup fd k =>
      match mjoin (d !! Z.to_nat fd), lowest d with
      | Some o, Some i => launches k (<[i := Some o]> d) n
      | _, _ => launches k d n
      end
  | Pipe k =>
      match lowest d with
      | Some i =>
          let d1 := <[i := Some (PipeR n)]> d in
          match lowest d1 with
          | Some j => launches (k (Some (Z.of_nat i, Z.of_nat j))) (<[j := Some (PipeW n)]> d1) (S n)
          | None => launches (k None) d n
          end
      | None => launches (k None) d n
      end
  | Fork k =>
      let '(l1, n1) := launches (k 0) d n in
      let '(l2, n2) := launches (k 1) d n1 in
      (l1 ++ l2, n2)
  | Wait k => launches k d n
  | TooDeep => ([], n)
  end.

(** The recursion stays within the bound of the model, whatever the kernel
    answers. *)
Fixpoint bounded (p : prog) : Prop :=
  match p with
  | Exit _ => True
  | Print _ _ k | Exec _ _ k | Close _ k | Dup _ k | Wait k => bounded k
  | Open _ _ k | Fork k => forall r, bounded (k r)
  | Pipe k => forall r, bounded (k r)
  | TooDeep => False
  end.

(** ** What a command should start *)

Fixpoint wiring (c : command) (d : fdtable) (n : nat) : list launch * nat :=
  match c with
  | CExec [] => ([], n)
  | CExec (w :: ws) => if executable w then ([mklaunch w (w :: ws) d], n) else ([], n)
  | CRedir c f mode fd =>
      if openable f mode then wiring c (<[Z.to_nat fd := Some (File f mode)]> d) n else ([], n)
  | CPipe l r =>
      let '(a, n1) := wiring l (<[1%nat := Some (PipeW n)]> d) (S n) in
      let '(b, n2) := wiring r (<[0%nat := Some (PipeR n)]> d) n1 in
      (a ++ b, n2)
  | CList l r =>
      let '(a, n1) := wiring l d n in
      let '(b, n2) := wiring r d n1 in
      (a ++ b, n2)
  | CBack c => wiring c d n
  end.

(** Descriptors 0 and 1 are open and two others are free. *)
Record std (d : fdtable) : Prop := {
  sd_in : exists o, d !! 0%nat = Some (Some o);
  sd_out : exists o, d !! 1%nat = Some (Some o);
  sd_free : exists i j, (i < j)%nat /\ d !! i = Some None /\ d !! j = Some None }.

Lemma lowest_spec d i : lowest d = Some i <-> d !! i = Some None /\ forall j, (j < i)%nat -> exists o, d !! j = Some (Some o).
Proof.
  revert i. induction d as [|[o|] d IH]; intros i; cbn [lowest].
  - split; [done|]. by intros [H _].
  - rewrite fmap_Some. setoid_rewrite IH. split.
    + intros (j & [H1 H2] & ->). split; [done|]. intros [|k] Hk; [by exists o|]. apply H2. lia.
    + intros [H1 H2]. destruct i as [|i]; [done|]. exists i. split; [|done]. split; [done|]. intros j Hj. apply (H2 (S j)). lia.
  - split; [intros [= <-]; split; [done|lia]|]. intros [H1 H2]. destruct i as [|i]; [done|]. destruct (H2 O ltac:(lia)) as [o Ho]. done.
Qed.

Lemma lowest_exists d i : d !! i = Some None -> exists j, lowest d = Some j /\ (j <= i)%nat.
Proof.
  revert i. induction d as [|[o|] d IH]; intros [|i] H; try done; cbn [lowest].
  - destruct (IH i H) as (j & -> & Hj). exists (S j). split; [done|lia].
  - by exists O.
  - exists O. split; [done|lia].
Qed.

Lemma std_set d fd o : std d -> (fd = 0 \/ fd = 1)%nat -> std (<[fd := Some o]> d).
Proof.
  intros [[a Ha] [b Hb] (i & j & Hij & Hi & Hj)] Hfd. pose proof (lookup_lt_Some _ _ _ Ha). pose proof (lookup_lt_Some _ _ _ Hb).
  assert (i <> fd) by (destruct Hfd; congruence). assert (j <> fd) by (destruct Hfd; congruence). split.
  - destruct (decide (fd = 0%nat)) as [->|]; [rewrite list_lookup_insert_eq by done|rewrite list_lookup_insert_ne by done]; eauto.
  - destruct (decide (fd = 1%nat)) as [->|]; [rewrite list_lookup_insert_eq by done|rewrite list_lookup_insert_ne by done]; eauto.
  - exists i, j. rewrite !list_lookup_insert_ne by done. done.
Qed.

(** Closing descriptor 0 or 1 makes it the least free one. *)
Lemma lowest_closed d fd a b : d !! 0%nat = Some (Some a) -> d !! 1%nat = Some (Some b) -> (fd = 0 \/ fd = 1)%nat ->
  lowest (<[fd := None]> d) = Some fd.
Proof.
  intros Ha Hb Hfd. pose proof (lookup_lt_Some _ _ _ Ha). pose proof (lookup_lt_Some _ _ _ Hb). apply lowest_spec.
  split; [apply list_lookup_insert_eq; destruct Hfd; subst; done|]. intros j Hj. assert (j = O) as -> by lia. assert (fd = 1%nat) as -> by lia.
  rewrite list_lookup_insert_ne by done. eauto.
Qed.

(** The ends of a new pipe. *)
Lemma pipe_fds d (n : nat) : std d -> exists i j, lowest d = Some i /\ lowest (<[i := Some (PipeR n)]> d) = Some j /\
  (1 < i)%nat /\ (1 < j)%nat /\ i <> j /\ d !! i = Some None /\ d !! j = Some None.
Proof.
  intros [[a Ha] [b Hb] (x & y & Hxy & Hx & Hy)]. destruct (lowest_exists d x Hx) as (i & Ei & Hi). pose proof (proj1 (lowest_spec d i) Ei) as [Hi1 Hi2].
  assert (i <> 0%nat /\ i <> 1%nat) as [] by (split; congruence).
  destruct (lowest_exists (<[i := Some (PipeR n)]> d) y) as (j & Ej & Hj); [rewrite list_lookup_insert_ne by lia; done|].
  pose proof (proj1 (lowest_spec _ j) Ej) as [Hj1 _]. assert (j <> i).
  { intros ->. rewrite list_lookup_insert_eq in Hj1 by (by eapply lookup_lt_Some). done. }
  rewrite list_lookup_insert_ne in Hj1 by done. assert (j <> 0%nat /\ j <> 1%nat) as [] by (split; congruence).
  exists i, j. split_and!; try done; lia.
Qed.

(** A child moves an end of the pipe to descriptor [fd] and closes both ends. *)
Lemma pipe_child d i j fd (n : nat) o o' (e : object) p k :
  d !! 0%nat = Some (Some o) -> d !! 1%nat = Some (Some o') -> (fd = 0 \/ fd = 1)%nat ->
  (1 < i)%nat -> (1 < j)%nat -> i <> j -> d !! i = Some None -> d !! j = Some None ->
  (p = i /\ e = PipeR n \/ p = j /\ e = PipeW n) ->
  forall n', launches (Close (Z.of_nat fd) (Dup (Z.of_nat p) (Close (Z.of_nat i) (Close (Z.of_nat j) k))))
    (<[j := Some (PipeW n)]> (<[i := Some (PipeR n)]> d)) n' = launches k (<[fd := Some e]> d) n'.
Proof.
  intros H0 H1 Hfd Hi Hj Hij Ei Ej Hp n'. pose proof (lookup_lt_Some _ _ _ Ei). pose proof (lookup_lt_Some _ _ _ Ej).
  pose proof (lookup_lt_Some _ _ _ H1). cbn [launches]. rewrite !Nat2Z.id.
  set (d2 := <[j := Some (PipeW n)]> (<[i := Some (PipeR n)]> d)).
  assert (Hne : fd <> i /\ fd <> j) by lia. destruct Hne as [Hfi Hfj].
  assert (E : (<[fd := None]> d2 : fdtable) !! p = Some (Some e)).
  { rewrite list_lookup_insert_ne by (destruct Hp as [[-> _]|[-> _]]; done). unfold d2. destruct Hp as [[-> ->]|[-> ->]].
    - rewrite list_lookup_insert_ne by done. by apply list_lookup_insert_eq.
    - apply list_lookup_insert_eq. by rewrite length_insert. }
  rewrite E. cbn [mjoin option_join].
  rewrite (lowest_closed d2 fd o o') by (try done; unfold d2; rewrite !list_lookup_insert_ne by lia; done).
  f_equal. apply list_eq. intros x. unfold d2. destruct (decide (x = fd)) as [->|Hxf].
  - rewrite !(list_lookup_insert_ne _ _ fd) by done. rewrite !list_lookup_insert_eq; [done|..]; rewrite ?length_insert; lia.
  - rewrite (list_lookup_insert_ne d) by done. destruct (decide (x = j)) as [->|Hxj]; [rewrite list_lookup_insert_eq, Ej; [done|rewrite !length_insert; lia]|].
    rewrite list_lookup_insert_ne by done. destruct (decide (x = i)) as [->|Hxi]; [rewrite list_lookup_insert_eq, Ei; [done|rewrite !length_insert; lia]|].
    rewrite !list_lookup_insert_ne by done. done.
Qed.

Lemma launches_fork1 k d n :
  launches (fork1 k) d n = let '(l1, n1) := launches (k 0) d n in let '(l2, n2) := launches (k 1) d n1 in (l1 ++ l2, n2).
Proof. reflexivity. Qed.

(** Redirections of the shell are for descriptors 0 and 1. *)
Fixpoint fds_ok (c : command) : Prop :=
  match c with
  | CExec _ => True
  | CRedir c _ _ fd => (fd = 0 \/ fd = 1) /\ fds_ok c
  | CPipe l r | CList l r => fds_ok l /\ fds_ok r
  | CBack c => fds_ok c
  end.

Lemma exec_args_run m ws : forall argv eargv : list Z,
  (forall i w, ws !! i = Some w -> exists q eq, argv !! i = Some q /\ eargv !! i = Some eq /\ str_word m q eq w) -> argv !! length ws = Some 0 ->
  exec_args m argv = ws.
Proof.
  induction ws as [|w ws IH]; intros argv eargv Hw Hn; destruct argv as [|q argv]; try done.
  - injection Hn as ->. done.
  - destruct (Hw 0%nat w eq_refl) as (q' & eq & [= <-] & He & Hs & Hq). destruct eargv as [|eq' eargv]; [done|]. cbn [exec_args].
    rewrite (proj2 (Z.eqb_neq q 0)) by lia. f_equal; [by apply is_str_cstr|]. apply (IH argv eargv); [|done]. intros i x Hx. exact (Hw (S i) x Hx).
Qed.

Lemma runcmd_run m h c : forall p fuel d n, tree (str_word m) h p c -> fds_ok c -> std d -> (height c <= fuel)%nat ->
  launches (runcmd m h p fuel) d n = wiring c d n.
Proof.
  induction c as [ws|c IH f mode fd|l IHl r IHr|l IHl r IHr|c IH]; intros p [|fuel] d n Ht Hc Hd Hf; cbn [height] in Hf; try lia; cbn [tree fds_ok] in *.
  - destruct Ht as (k & argv & eargv & -> & Hn & [A1 A2 A3 A4 A5]). cbn [runcmd wiring]. rewrite Hn. destruct ws as [|w ws].
    + rewrite (nth_lookup_Some argv 0 0 0) by (apply A5; unfold MAXARGS; cbn; lia). done.
    + destruct (A4 0%nat w eq_refl) as (q & eq & Hq & _ & Hs & Hq0). rewrite (nth_lookup_Some argv 0 0 q Hq), (proj2 (Z.eqb_neq q 0)) by lia.
      rewrite (exec_args_run m (w :: ws) argv eargv A4) by (apply A5; lia). rewrite (proj1 (is_str_cstr m q w) Hs). cbn [launches]. done.
  - destruct Ht as (k & p' & q & eq & -> & Hn & Hb & [Hs _] & Ht). destruct Hc as [Hfd Hc]. cbn [runcmd wiring]. rewrite Hn. cbn [launches].
    rewrite (proj1 (is_str_cstr m q f) Hs). destruct (openable f mode); [|done].
    pose proof Hd as [[a Ha] [b Hb'] _]. assert (Hfd' : (Z.to_nat fd = 0 \/ Z.to_nat fd = 1)%nat) by lia. rewrite (lowest_closed d (Z.to_nat fd) a b) by done.
    rewrite (proj2 (Z.ltb_ge _ _)) by lia. rewrite list_insert_insert_eq. apply IH; [done|done|by apply std_set|lia].
  - destruct Ht as (k & pl & pr & -> & Hn & _ & _ & Hl & Hr). destruct Hc as [Hcl Hcr]. cbn [runcmd wiring]. rewrite Hn.
    pose proof Hd as [[a Ha] [b Hb] _]. destruct (pipe_fds d n Hd) as (i & j & Ei & Ej & Hi & Hj & Hij & Hi0 & Hj0).
    cbn [launches]. rewrite Ei, Ej, launches_fork1. cbn [Z.eqb].
    change 1 with (Z.of_nat 1) at 1. rewrite (pipe_child d i j 1 n a b (PipeW n) j) by (try done; auto).
    rewrite IHl; [|done|done|by apply std_set; [|right]|lia]. destruct (wiring l _ (S n)) as [l1 n1].
    rewrite launches_fork1. cbn [Z.eqb].
    change 0 with (Z.of_nat 0) at 1. rewrite (pipe_child d i j 0 n a b (PipeR n) i) by (try done; auto).
    rewrite IHr; [|done|done|by apply std_set; [|left]|lia]. destruct (wiring r _ n1) as [l2 n2]. cbn [launches]. by rewrite app_nil_r.
  - destruct Ht as (k & pl & pr & -> & Hn & _ & _ & Hl & Hr). destruct Hc as [Hcl Hcr]. cbn [runcmd wiring]. rewrite Hn.
    rewrite launches_fork1. cbn [Z.eqb launches].
    rewrite IHl by (done || lia). destruct (wiring l d n) as [l1 n1]. by rewrite IHr by (done || lia).
  - destruct Ht as (k & p' & -> & Hn & _ & Ht). cbn [runcmd wiring]. rewrite Hn. rewrite launches_fork1. cbn [Z.eqb launches].
    rewrite IH by (done || lia). destruct (wiring c d n) as [l1 n1]. by rewrite app_nil_r.
Qed.
End Kernel.

Lemma bounded_fork1 k : (forall r, bounded (k r)) -> bounded (fork1 k).
Proof. intros H r. by destruct (r =? -1). Qed.

Lemma runcmd_bounded m h c : forall p fuel, tree (str_word m) h p c -> (height c <= fuel)%nat -> bounded (runcmd m h p fuel).
Proof.
  induction c as [ws|c IH f mode fd|l IHl r IHr|l IHl r IHr|c IH]; intros p [|fuel] Ht Hf; cbn [height] in Hf; try lia; cbn [tree] in Ht.
  - destruct Ht as (k & argv & eargv & -> & Hn & _). cbn [runcmd]. rewrite Hn. by destruct (_ =? 0).
  - destruct Ht as (k & p' & q & eq & -> & Hn & _ & _ & Ht). cbn [runcmd]. rewrite Hn. intros x. destruct (x <? 0); [done|]. apply IH; [done|lia].
  - destruct Ht as (k & pl & pr & -> & Hn & _ & _ & Hl & Hr). cbn [runcmd]. rewrite Hn. intros [[p0 p1]|]; [|done].
    apply bounded_fork1. intros x. destruct (x =? 0); [apply IHl; [done|lia]|].
    apply bounded_fork1. intros y. destruct (y =? 0); [apply IHr; [done|lia]|done].
  - destruct Ht as (k & pl & pr & -> & Hn & _ & _ & Hl & Hr). cbn [runcmd]. rewrite Hn.
    apply bounded_fork1. intros x. destruct (x =? 0); [apply IHl|apply IHr]; done || lia.
  - destruct Ht as (k & p' & -> & Hn & _ & Ht). cbn [runcmd]. rewrite Hn.
    apply bounded_fork1. intros x. destruct (x =? 0); [apply IH; [done|lia]|done].
Qed.

(** ** Uniqueness *)

Lemma words_unique m argv eargv ws ws' :
  args_at (str_word m) argv eargv ws -> args_at (str_word m) argv eargv ws' -> ws = ws'.
Proof.
  assert (H : forall a b, args_at (str_word m) argv eargv a -> args_at (str_word m) argv eargv b -> (length a <= length b)%nat).
  { intros a b [A1 A2 A3 A4 A5] [B1 B2 B3 B4 B5]. destruct (decide (length a <= length b)%nat) as [|Hgt]; [done|].
    destruct (lookup_lt_is_Some_2 a (length b) ltac:(lia)) as [w Hw]. destruct (A4 _ _ Hw) as (q & eq & Hq & _ & _ & Hpos).
    rewrite (B5 (length b)) in Hq by lia. injection Hq as <-. lia. }
  intros Ha Hb. apply list_eq_same_length with (length ws'); [done|pose proof (H _ _ Ha Hb); pose proof (H _ _ Hb Ha); lia|].
  intros i w w' _ Hw Hw'. destruct (aa_word _ _ _ _ Ha _ _ Hw) as (q & eq & Hq & _ & Hs & _). destruct (aa_word _ _ _ _ Hb _ _ Hw') as (q' & eq' & Hq' & _ & Hs' & _).
  rewrite Hq in Hq'. injection Hq' as <-. by apply (is_str_unique m q).
Qed.

Lemma tree_unique m h c : forall p c', tree (str_word m) h p c -> tree (str_word m) h p c' -> c = c'.
Proof.
  induction c as [ws|c IH f mode fd|l IHl r IHr|l IHl r IHr|c IH]; intros p c' Ht Ht'; cbn [tree] in Ht.
  - destruct Ht as (n & argv & eargv & -> & Hn & Ha). destruct c'; cbn [tree] in Ht'; try (exfalso; naive_solver).
    destruct Ht' as (n' & argv' & eargv' & [= <-] & Hn' & Ha'). rewrite Hn in Hn'. injection Hn' as <- <-. f_equal. by eapply words_unique.
  - destruct Ht as (n & q & a & b & -> & Hn & _ & [Hw _] & Ht). destruct c'; cbn [tree] in Ht'; try (exfalso; naive_solver).
    destruct Ht' as (n' & q' & a' & b' & [= <-] & Hn' & _ & [Hw' _] & Ht'). rewrite Hn in Hn'. injection Hn' as <- <- <- <- <-. f_equal; [by eapply IH|by eapply is_str_unique].
  - destruct Ht as (n & pl & pr & -> & Hn & _ & _ & Hl & Hr). destruct c'; cbn [tree] in Ht'; try (exfalso; naive_solver).
    destruct Ht' as (n' & pl' & pr' & [= <-] & Hn' & _ & _ & Hl' & Hr'). rewrite Hn in Hn'. injection Hn' as <- <-. f_equal; eauto.
  - destruct Ht as (n & pl & pr & -> & Hn & _ & _ & Hl & Hr). destruct c'; cbn [tree] in Ht'; try (exfalso; naive_solver).
    destruct Ht' as (n' & pl' & pr' & [= <-] & Hn' & _ & _ & Hl' & Hr'). rewrite Hn in Hn'. injection Hn' as <- <-. f_equal; eauto.
  - destruct Ht as (n & q & -> & Hn & _ & Ht). destruct c'; cbn [tree] in Ht'; try (exfalso; naive_solver).
    destruct Ht' as (n' & q' & [= <-] & Hn' & _ & Ht'). rewrite Hn in Hn'. injection Hn' as <-. f_equal; eauto.
Qed.

Lemma denotes_unique line c c' : denotes line c -> denotes line c' -> c = c'.
Proof.
  intros H H'. pose proof (proj1 parser_complete _ _ H (4 * length (tokens line) + 4)%nat [] ltac:(by left)) as E.
  pose proof (proj1 parser_complete _ _ H' (4 * length (tokens line) + 4)%nat [] ltac:(by left)) as E'. rewrite app_nil_r in *.
  rewrite E in E' by lia. specialize (E' ltac:(lia)). congruence.
Qed.

Lemma wrap_fds rs : forall c, fds_ok c -> fds_ok (foldl wrap c rs).
Proof.
  induction rs as [|[k f] rs IH]; intros c Hc; [done|]. cbn [foldl]. apply IH. cbn. split; [|done]. unfold rfd. case_match; auto.
Qed.

Lemma backs_fds n : forall c, fds_ok c -> fds_ok (backs n c).
Proof. induction n as [|n IH]; intros c Hc; [done|]. by apply IH. Qed.

Lemma grammar_fds :
  (forall u c, is_line u c -> fds_ok c) /\ (forall u c, is_pipe u c -> fds_ok c) /\ (forall u c, is_exec u c -> fds_ok c).
Proof.
  apply grammar_ind; intros; cbn [fds_ok]; try done; try (split; [|done]); try (by apply backs_fds); by apply wrap_fds.
Qed.

(** ** The theorems *)
Module ShellClaims.

(** C28: [parsecmd] returns or exits, whatever the line. *)
Theorem parsecmd_terminates {W : Type} {HS : Sys W} s m (w : W) :
  0 < s -> (exists h p s', parsecmd s (mkustate m w) = Returns (h, p) s') \/ exists n s', parsecmd s (mkustate m w) = Exits n s'.
Proof.
  intros Hs. destruct (str_at m s) as [line Hl]. pose proof (parsecmd_run s m w line Hl Hs) as H.
  destruct (parsecmd s (mkustate m w)) as [[h p] s'|n s'|]; [left; eauto|right; eauto|done].
Qed.

(** C27: [parsecmd] returns a tree exactly for the lines of the grammar, and it
    is the tree of the command that the line denotes, with its words as
    strings in memory. For every other line it exits with status 1. *)
Theorem parsecmd_grammar {W : Type} {HS : Sys W} s m (w : W) line :
  is_str m s line -> 0 < s ->
  (forall c, denotes line c <-> exists h p s', parsecmd s (mkustate m w) = Returns (h, p) s' /\ tree (str_word (u_mem s')) h p c) /\
  ((forall c, ~ denotes line c) -> exists s', parsecmd s (mkustate m w) = Exits 1 s').
Proof.
  intros Hl Hs. pose proof (parsecmd_run s m w line Hl Hs) as H. destruct (parsecmd s (mkustate m w)) as [[h p] s'|n s'|]; [| |done].
  - destruct H as (c0 & Hd & Ht & _). split; [|intros Hn; by destruct (Hn c0)]. intros c. split.
    + intros Hc. rewrite (denotes_unique _ _ _ Hc Hd). by exists h, p, s'.
    + intros (h1 & p1 & s1 & [= <- <- <-] & Ht1). by rewrite (tree_unique _ _ _ _ _ Ht1 Ht).
  - destruct H as [-> Hn]. split; [|by exists s']. intros c. split; [intros Hc; by destruct (Hn c)|]. by intros (h1 & p1 & s1 & E & _).
Qed.

(** C26: for a line that denotes the command [c], [runcmd] of the tree that
    [parsecmd] returns starts the programs of [c] with their arguments. Their
    descriptors are those of the shell, except that a redirection makes
    descriptor 0 or 1 the file, and that [l | r] connects descriptor 1 of the
    programs of [l] with descriptor 0 of those of [r] by a pipe that no other
    descriptor refers to. The recursion of [runcmd] is no deeper than the tree
    has nodes, whatever the kernel answers. *)
Theorem shell_runs_line {W : Type} {HS : Sys W} openable executable s m (w : W) line c d n :
  is_str m s line -> 0 < s -> denotes line c -> std d ->
  exists h p s', parsecmd s (mkustate m w) = Returns (h, p) s' /\ bounded (runcmd (u_mem s') h p (S (length h))) /\
    launches openable executable (runcmd (u_mem s') h p (S (length h))) d n = wiring openable executable c d n.
Proof.
  intros Hl Hs Hc Hd. pose proof (parsecmd_run s m w line Hl Hs) as H. destruct (parsecmd s (mkustate m w)) as [[h p] s'|k s'|]; [| |done].
  - destruct H as (c0 & Hd0 & Ht & _). rewrite (denotes_unique _ _ _ Hc Hd0). exists h, p, s'. split; [done|].
    assert (Hp : exists k, p = Some k /\ (k < length h)%nat) by (destruct c0; cbn [tree] in Ht; destruct Ht as (k & Ht); exists k; (split; [naive_solver|]); apply lookup_lt_is_Some_1; naive_solver).
    assert (Hht : (height c0 <= S (length h))%nat) by (destruct Hp as (k & -> & Hk); pose proof (tree_height _ _ _ _ Ht); lia).
    split; [by apply (runcmd_bounded _ _ c0)|]. apply runcmd_run; [done|by apply (proj1 grammar_fds (tokens line))|done|done].
  - destruct H as [_ Hn]. by destruct (Hn c).
Qed.

(** The line ["a <f|b &"] at address 16. *)
Definition test_line : list Z := lit "a <f|b &".
Definition test_mem : mem := stbytes 16 test_line ∅.
Definition test_cmd : command := CBack (CPipe (CRedir (CExec [[97]]) [102] O_RDONLY 0) (CExec [[98]])).
Definition test_fds : fdtable := Some (Given 0) :: Some (Given 1) :: Some (Given 2) :: replicate 13 None.

Lemma test_line_at : is_str test_mem 16 test_line.
Proof. apply is_str_cstr. vm_compute. reflexivity. Qed.

Lemma test_denotes : denotes test_line test_cmd.
Proof.
  pose proof (tline_decides (tokens test_line) 100 ltac:(vm_compute; lia)) as H.
  assert (E : tline 100 (tokens test_line) = TOk test_cmd []) by (vm_compute; reflexivity). by rewrite E in H.
Qed.

(** The call of [parsecmd] for the line. *)
Definition test_parse : ures pipeline (list cmd * option nat) := @parsecmd pipeline (pipeline_sys 1) 16 (mkustate test_mem ([], [])).

Lemma parsecmd_terminates_witness : (exists h p s', test_parse = Returns (h, p) s') \/ exists n s', test_parse = Exits n s'.
Proof. apply (@parsecmd_terminates pipeline (pipeline_sys 1)). lia. Defined.

Lemma parsecmd_grammar_witness : exists h p s', test_parse = Returns (h, p) s' /\ tree (str_word (u_mem s')) h p test_cmd.
Proof. apply (@parsecmd_grammar pipeline (pipeline_sys 1) 16 test_mem ([], []) test_line test_line_at ltac:(lia)), test_denotes. Defined.

Lemma test_std : std test_fds.
Proof. split; [by eexists|by eexists|]. exists 3%nat, 4%nat. split; [lia|done]. Qed.

Lemma shell_runs_line_witness : exists h p s', test_parse = Returns (h, p) s' /\ bounded (runcmd (u_mem s') h p (S (length h))) /\
  launches (fun _ _ => true) (fun _ => true) (runcmd (u_mem s') h p (S (length h))) test_fds 0 =
    ([mklaunch [97] [[97]] (Some (File [102] O_RDONLY) :: Some (PipeW 0) :: Some (Given 2) :: replicate 13 None);
      mklaunch [98] [[98]] (Some (PipeR 0) :: Some (Given 1) :: Some (Given 2) :: replicate 13 None)], 1%nat).
Proof.
  exact (@shell_runs_line pipeline (pipeline_sys 1) (fun _ _ => true) (fun _ => true) 16 test_mem ([], []) test_line test_cmd test_fds 0
    test_line_at ltac:(lia) test_denotes test_std).
Defined.
End ShellClaims.
